(* ===== verification/_CoqProject ===== *)
-Q . S2P
Prelude.v
Memory.v
Ctx.v
CString.v
Vm.v
VmTables.v
VmProps.v
Alloc.v
FreeList.v
HeapInv.v
AllocProps.v
AllocThms.v
Runtime.v
ProcTable.v
Sigset.v
Sig.v
Fixtures.v
SigsetProps.v
SigProps.v
ProcProps.v
KillProps.v
Path.v
PathProps.v
FdTable.v
FdProps.v
FdThms.v
FdSystem.v
Fcntl.v
GuestHeap.v
Env.v
EnvThms.v
Futex.v
Pthread.v
MutexProps.v
BarrierProps.v
RwLock.v
RwProps.v
Threads.v
ThreadsProps.v
Getopt.v
GetoptProps.v
Callback.v
CallbackProps.v
ScandirProps.v
Printf.v
PrintfText.v
PrintfThms.v
Snapshot.v
Fork.v
ForkProps.v
ForkThms.v
ForkFail.v
Exec.v
ExecProps.v
ExecThms.v
ExecLoad.v
I128.v
Strto.v
Decimal.v
Vfs.v
VfsProps.v
Procfs.v
ProcfsProps.v
Dir.v
DirProps.v
Poll.v
PollProps.v
SelectProps.v
Random.v
Termios.v
Posix.v
Fmtcheck.v
Fifo.v
FifoProps.v
Kqueue.v
KqueueProps.v
StrtoProps.v
Scanf.v
ScanfProps.v
