(* ===== verification/Prelude.v ===== *)
(** * yos: a FreeBSD libc for wasm32 guests, on a Linux host

    A guest of yos is a wasm32 program built against FreeBSD's headers.  Each
    libc function that it imports is a C function of the host (a "bridge", under
    src/src/yos/impl/), which works on the guest's linear memory and on the
    guest's context, [struct yos_exec_ctx].  Several guests run at once, one host
    thread each, as processes of one runtime: they share a process table, the
    host's descriptors and a few registries.  This development models the
    bridges that carry logic of their own and proves what a guest may rely on.

    ** The parts, and where they are

    - Linear memory, strings, errno: Memory.v, CString.v, Ctx.v (types.h,
      impl/errno_helpers.h).  Every other part stands on these.
    - Memory of a guest: Vm.v (brk, mmap, munmap, mremap; impl/mem/mem.c) with
      VmTables.v and VmProps.v; Alloc.v (the malloc family; impl/mem/alloc.c)
      with FreeList.v, its specification, and HeapInv.v, AllocProps.v,
      AllocThms.v.  GuestHeap.v states as a type class what the heap promises to
      the bridges that allocate in it; Alloc.v's allocator is an instance.
    - Processes: Runtime.v and ProcTable.v (the table, exit, wait, kill;
      impl/proc/proc.c), ProcProps.v, KillProps.v; Snapshot.v, Fork.v and
      ForkProps.v, ForkThms.v, ForkFail.v (fork by unwinding the guest's stack
      and copying its memory; the same file); Exec.v and ExecProps.v,
      ExecThms.v, ExecLoad.v (execve; the same file and main.c).
    - Signals: Sigset.v, Sig.v, SigsetProps.v, SigProps.v (impl/proc/sig.c,
      signal.c).
    - Threads: Futex.v (atomic cells, wait and notify; wasm3's m3_atomic.c),
      Pthread.v, RwLock.v, Threads.v (impl/proc/pthread.c), MutexProps.v,
      BarrierProps.v, RwProps.v, ThreadsProps.v.
    - Descriptors and paths: Path.v, FdTable.v, Fcntl.v (impl/io/io.c and parts
      of impl/libc/posix.c), PathProps.v, FdProps.v, FdSystem.v, FdThms.v;
      Fifo.v, FifoProps.v (impl/io/fifo.c, cv_stat.c); Poll.v (poll and select;
      impl/io/dir.c, posix.c), PollProps.v, SelectProps.v; Kqueue.v,
      KqueueProps.v (impl/libc/kqueue-linux.c).
    - Virtual files: Vfs.v (vfs/mount.c, vfs/file.c), Procfs.v (vfs/procfs.c),
      Dir.v (directory streams; impl/io/dir.c), VfsProps.v, ProcfsProps.v,
      DirProps.v.
    - The C library (impl/libc/): Env.v (env.c), Getopt.v (getopt.c),
      Callback.v (callback.c: qsort, bsearch, scandir, which call back into the
      guest), Printf.v (printf.c), Scanf.v (scanf.c), Strto.v (strto.c), I128.v
      (i128.c), Random.v (random.c), Fmtcheck.v (fmtcheck_freebsd.c), Termios.v
      (terminal attributes; posix-linux.c and posix.c), Posix.v (comparing and
      clearing secrets, strmode, sbrk and the like; posix.c), each with
      its properties in the file itself or in the files named after it
      (EnvThms, GetoptProps, CallbackProps, ScandirProps, PrintfText,
      PrintfThms, ScanfProps, StrtoProps; Decimal.v holds numerals).

    A definition has the name of the C function where Rocq allows it.  Its
    guards are the C code's, in the same order.  A [struct] is a record; a pointer into a
    table is an index, so that two names for an object see each other's writes.
    Integers are Z, with [u32], [s32] and their like where C wraps.

    ** How the parts interact

    The bridges share linear memory; errno is a cell of it.  env, scandir, the
    directory streams and the thread stacks live in the guest's heap and are
    proved against the class of GuestHeap.v, so they hold for every allocator
    with its laws.  fork copies linear memory (Snapshot.v), the descriptor table
    (FdTable.v) and the environment (Env.v), and takes a slot of the process
    table; exit gives them back and posts a signal (Sig.v) to the parent; execve
    closes the marked descriptors and resets the handlers.  The descriptor table
    of every guest names descriptors of one host, hence the ownership theorem
    over a whole runtime.  Every pthread primitive runs over the cells and the
    queue of Futex.v, in any interleaving.  fmtcheck accepts a format for
    printf: one theorem spans both.

    ** What is shown

    - Safety of state over every reachable state: the heap ([heap_reachable_safe]),
      the region tables ([vm_reachable_safe], under stores to any address), the
      host's descriptors ([fds_owned_by_one], with the closes of one call between
      the calls of other guests), the process table ([pids_unique_never_reused]),
      locks and barriers ([mutex_exclusion], [rwlock_exclusion],
      [barrier_opens_full]), the thread table ([thread_table_well_formed], with
      and without a pool of arenas).
    - Refinement: malloc and free implement a free list of regions
      ([malloc_contract], [free_refines_insert]), the registry of FIFOs a finite
      map ([fifo_registry_map]), the environment a finite map
      ([setenv_updates_map]).
    - Behaviour on every branch: malloc of any 32-bit size, exit, execve,
      waitpid, the signal pump, sigprocmask, poll, kevent, opendir and readdir,
      qsort, bsearch.  For fork, what the child of a granted fork starts with,
      byte for byte, and what each failure leaves behind.
    - Equivalence with a reference definition: getopt with a grammar of command
      lines (where its loop ends), canonical paths with the normal form of their
      segments, printf with the rendering of its format and with what passes
      through its 1024-byte buffer, select with the set of ready descriptors, the
      uniform distribution of arc4random_uniform.
    - Round trips: malloc and free, resident memory through fork, printed
      integers through sscanf, files of /proc read in pieces, terminal attributes
      to the host and back.
    - Termination and liveness: a call of getopt or fmtcheck and the rejection
      loop come to an end; no wake-up of a mutex is lost.
    - Errors: a failed execve changes nothing; a failed mkfifo leaves the path
      unbound.  Where the code goes wrong a theorem states what it does instead,
      in a clause of the property ([getopt_parses], [malloc_contract],
      [fmtcheck_printf_agree]) or by itself ([dirty_mapping_handed_out],
      [stars_overflow_spec], [fork_drops_evicted_pages] and others).

    ** Hosts, parameters and [None]

    What the host answers (a system call, malloc, the pages that are resident) is
    an argument of the operation or a parameter of the section, with documented
    behaviour as hypotheses where a theorem needs it.  So are a guest's own code
    (a handler, a comparator), snprintf's text of one specification, strtod, the
    Asyncify functions and the module loader.  [None] stands for what C leaves
    undefined: an access outside linear memory, a signed overflow, a walk that
    never ends.

    ** Bounds and fuel

    - Loops that C bounds run for that bound ([loop_for] of this file, a binary
      number).  The walk of free has no bound
      in C: 2^32 nodes cover every offset once, and a longer walk is a cycle.
    - A scan of memory or of a format has the bytes that are left as fuel
      (cstr, [format_fuel], [scan_fuel], skip): every step moves on by one.
      [yos_fmtcheck_freebsd] has one round for each character, and
      [fmtcheck_decides] shows that they suffice.
    - bsearch has 34 rounds for 32-bit indices, [canon_loop] one for each
      character, the search along PATH one for each character and one more,
      read_vec the constants of the code, getopt two (a long option is looked up
      from a cluster once), [readdir_vfs] four, the fill of a buffer one round
      for each 256 bytes.
    - arc4random_uniform has no bound: the theorem gives the fuel from the first
      draw that is accepted.
    - The walk of malloc gives up after 2^22 blocks, in C and in the model; a heap
      can hold more, and [malloc_contract] counts them.
    - The pump of a fork answers one request a round.  Barriers and waiting
      threads are counted without wrapping below 2^32 generations and 2^64
      notifications, hypotheses of the theorems that need them.

    ** Not modelled

    Other hosts (Darwin, Windows, Android, the browser); wasm3 and libvterm,
    which are vendored; the bridges to openssl, Lua, Python, libarchive and to
    devices; generated code; tracing; sockets, the name service, tcgetattr,
    tcsetattr, emulated terminals and the user database, which convert structures and forward to the host; stdio,
    whose buffers are the host's; floating-point values; start-up and the setjmp
    pump of main.c; clone with shared memory.  Within the modelled parts: trace
    output, messages on stderr, and the names a process shows (comm, exe), save
    where /proc prints them.  Each file says what it leaves out.

    ** This file

    Machine integers, case analysis on comparisons, bounded loops, and lemmas on
    lists that several components use. *)
From Stdlib Require Export ZArith Lia.
From stdpp Require Export prelude list.

#[global] Open Scope Z_scope.

Declare Scope yos_scope.
Delimit Scope yos_scope with yos.
#[global] Open Scope yos_scope.

(** * Machine integers *)

(** An unsigned w-bit result is its value modulo [2^w]; a signed one is the
    representative in [[-2^(w-1), 2^(w-1))]. *)
Definition u8 (x : Z) : Z := x mod 256.
Definition u32 (x : Z) : Z := x mod 4294967296.
Definition u64 (x : Z) : Z := x mod 18446744073709551616.
Definition s32 (x : Z) : Z :=
  let y := u32 x in if y <? 2147483648 then y else y - 4294967296.

Definition s16 (x : Z) : Z := let y := x mod 65536 in if y <? 32768 then y else y - 65536.
Definition s64 (x : Z) : Z := let y := u64 x in if y <? 9223372036854775808 then y else y - 18446744073709551616.

Definition UINT32_MAX : Z := 4294967295.

(** Host errno values the modelled code names (Linux numbering). *)
Definition ENOENT : Z := 2.
Definition ESRCH : Z := 3.
Definition EINTR : Z := 4.
Definition EBADF : Z := 9.
Definition ECHILD : Z := 10.
Definition EAGAIN : Z := 11.
Definition ENOMEM : Z := 12.
Definition EFAULT : Z := 14.
Definition EBUSY : Z := 16.
Definition EEXIST : Z := 17.
Definition EINVAL : Z := 22.
Definition EMFILE : Z := 24.
Definition ENAMETOOLONG : Z := 36.
Definition ENOSYS : Z := 38.

Lemma u32_small x : 0 <= x < 4294967296 -> u32 x = x.
Proof. apply Z.mod_small. Qed.

Lemma u32_range x : 0 <= u32 x < 4294967296.
Proof. unfold u32. apply Z.mod_pos_bound. lia. Qed.

Lemma u8_range x : 0 <= u8 x < 256.
Proof. unfold u8. apply Z.mod_pos_bound. lia. Qed.

Lemma s32_small x : 0 <= x < 2147483648 -> s32 x = x.
Proof. intros. unfold s32. rewrite u32_small by lia. by destruct (Z.ltb_spec x 2147483648); [|lia]. Qed.

Lemma s32_u32 x : u32 (s32 x) = u32 x.
Proof.
  unfold s32. pose proof (u32_range x).
  destruct (Z.ltb_spec (u32 x) 2147483648).
  - by apply u32_small.
  - unfold u32 at 1. replace (u32 x - 4294967296) with (u32 x + (-1) * 4294967296) by lia.
    rewrite Z.mod_add by lia. by apply u32_small.
Qed.

(** Clearing the low bits rounds down. *)
Lemma land_lnot_pow2 x k : 0 <= k -> Z.land x (Z.lnot (2 ^ k - 1)) = x - x mod 2 ^ k.
Proof.
  intros Hk. rewrite <-Z.ldiff_land. replace (2 ^ k - 1) with (Z.ones k) by (rewrite Z.ones_equiv; lia).
  rewrite Z.ldiff_ones_r, Z.shiftr_div_pow2, Z.shiftl_mul_pow2 by lia.
  pose proof (Z.pow_pos_nonneg 2 k). rewrite Z.mod_eq by lia. lia.
Qed.

(** A value shifted over another one is their sum. *)
Lemma lor_shiftl a b n : 0 <= n -> 0 <= b < 2 ^ n -> Z.lor (Z.shiftl a n) b = a * 2 ^ n + b.
Proof.
  intros Hn Hb. assert (E : Z.land (Z.shiftl a n) b = 0).
  2:{ pose proof (Z.add_lor_land (Z.shiftl a n) b) as E2. rewrite E, Z.shiftl_mul_pow2 in E2 by lia. rewrite Z.shiftl_mul_pow2 by lia. lia. }
  apply Z.bits_inj_iff. intros i. rewrite Z.land_spec, Z.bits_0. destruct (Z.lt_ge_cases i n).
  - by rewrite Z.shiftl_spec_low.
  - rewrite <-(Z.mod_small b (2 ^ n)) by done. rewrite Z.mod_pow2_bits_high by lia. apply andb_false_r.
Qed.

(** Case analysis on the boolean comparisons of the modelled code. *)
Ltac zcase :=
  match goal with
  | |- context [?a <? ?b] => destruct (Z.ltb_spec a b)
  | |- context [?a <=? ?b] => destruct (Z.leb_spec a b)
  | |- context [?a =? ?b] => destruct (Z.eqb_spec a b)
  | H : context [?a <? ?b] |- _ => destruct (Z.ltb_spec a b)
  | H : context [?a <=? ?b] |- _ => destruct (Z.leb_spec a b)
  | H : context [?a =? ?b] |- _ => destruct (Z.eqb_spec a b)
  end.
Ltac zcases := repeat (zcase; simpl in *; try lia; try done).

(** Arithmetic with [/] and [mod] by literals. *)
Ltac mlia := Z.to_euclidean_division_equations; lia.

(** * Bounded loops

    [loop_for p step s] runs [step] at most [p] times and stops at the first
    [inr].  The bound is a binary number, so a loop whose C bound is [2^22]
    or [2^32] still evaluates. *)
Section Loops.
Context {S R : Type} (step : S -> S + R).

Fixpoint loop_for (p : positive) (s : S) : S + R :=
  match p with
  | xH => step s
  | xO q => match loop_for q s with inl s' => loop_for q s' | inr r => inr r end
  | xI q =>
      match step s with
      | inl s1 => match loop_for q s1 with inl s2 => loop_for q s2 | inr r => inr r end
      | inr r => inr r
      end
  end.

Fixpoint loop_nat (n : nat) (s : S) : S + R :=
  match n with
  | O => inl s
  | Datatypes.S k => match step s with inl s' => loop_nat k s' | inr r => inr r end
  end.

Lemma loop_nat_add n m s :
  loop_nat (n + m) s =
  match loop_nat n s with inl s' => loop_nat m s' | inr r => inr r end.
Proof. revert s; induction n as [|n IH]; intros s; simpl; [done|]. by destruct (step s). Qed.

Lemma loop_for_nat p s : loop_for p s = loop_nat (Pos.to_nat p) s.
Proof.
  revert s; induction p as [q IH|q IH|]; intros s.
  - rewrite Pos2Nat.inj_xI. replace (2 * Pos.to_nat q)%nat with (Pos.to_nat q + Pos.to_nat q)%nat by lia.
    simpl. destruct (step s) as [s1|]; [|done]. rewrite loop_nat_add, IH.
    destruct (loop_nat _ s1); [by rewrite IH|done].
  - rewrite Pos2Nat.inj_xO. replace (2 * Pos.to_nat q)%nat with (Pos.to_nat q + Pos.to_nat q)%nat by lia.
    simpl. rewrite loop_nat_add, IH. destruct (loop_nat _ s); [by rewrite IH|done].
  - simpl. by destruct (step s).
Qed.

(** More iterations do not change a result that was reached. *)
Lemma loop_nat_mono n m s r :
  (n <= m)%nat -> loop_nat n s = inr r -> loop_nat m s = inr r.
Proof.
  intros Hle Hn. replace m with (n + (m - n))%nat by lia. by rewrite loop_nat_add, Hn.
Qed.

Lemma loop_for_reaches p n s r :
  (Z.of_nat n <= Zpos p) -> loop_nat n s = inr r -> loop_for p s = inr r.
Proof. intros Hle Hn. rewrite loop_for_nat. eapply loop_nat_mono; [|exact Hn]. lia. Qed.
End Loops.

(** * Arrays with a live prefix

    The code keeps [T list[MAX]; int count] and deletes slot [i] by
    [list[i] = list[--count]].  The model is the live prefix as a list. *)
Definition swap_remove {A} (i : nat) (l : list A) : list A :=
  match last l with
  | Some x => take (length l - 1) (<[i:=x]> l)
  | None => l
  end.

Lemma swap_remove_snoc {A} i (l : list A) x :
  swap_remove i (l ++ [x]) = if decide (i < length l)%nat then <[i:=x]> l else l.
Proof.
  unfold swap_remove. rewrite last_snoc, length_app. simpl.
  replace (length l + 1 - 1)%nat with (length l) by lia.
  case_decide.
  - rewrite insert_app_l by lia. rewrite take_app_le; [|by rewrite length_insert].
    by rewrite take_ge by (rewrite length_insert; lia).
  - rewrite insert_app_r_alt by lia. by rewrite take_app_length.
Qed.

Lemma swap_remove_Permutation {A} i (l : list A) x :
  l !! i = Some x -> l ≡ₚ x :: swap_remove i l.
Proof.
  intros Hi. destruct l as [|y l' _] using rev_ind; [done|].
  rewrite swap_remove_snoc. case_decide as Hlt.
  - rewrite lookup_app_l in Hi by done.
    rewrite <-Permutation_cons_append.
    rewrite <-(take_drop_middle l' i x Hi) at 1.
    rewrite insert_take_drop by done.
    rewrite (Permutation_middle (take i l') _ x).
    rewrite (Permutation_middle (take i l') _ y).
    rewrite perm_swap. by rewrite <-!Permutation_middle.
  - apply lookup_lt_Some in Hi as Hl. rewrite length_app in Hl; simpl in Hl.
    assert (i = length l') as -> by lia.
    rewrite lookup_app_r, Nat.sub_diag in Hi by done. simplify_eq/=.
    by rewrite <-Permutation_cons_append.
Qed.

Lemma swap_remove_length {A} i (l : list A) x :
  l !! i = Some x -> length l = S (length (swap_remove i l)).
Proof. intros Hi. by rewrite (swap_remove_Permutation i l x Hi) at 1. Qed.

Lemma filter_length_submseteq {A} (P : A -> Prop) `{forall x, Decision (P x)} (l k : list A) :
  l ⊆+ k -> (length (filter P l) <= length (filter P k))%nat.
Proof.
  intros (k' & ->)%submseteq_Permutation. rewrite filter_app, length_app. lia.
Qed.

Lemma filter_none {A} (P : A -> Prop) `{forall x, Decision (P x)} (l : list A) :
  Forall (fun x => ~ P x) l -> filter P l = [].
Proof. induction 1; [done|]. by rewrite filter_cons_False. Qed.

Lemma filter_ext_in {A} (P Q : A -> Prop) `{forall x, Decision (P x)} `{forall x, Decision (Q x)} (l : list A) :
  (forall x, x ∈ l -> P x <-> Q x) -> filter P l = filter Q l.
Proof.
  induction l as [|x l IH]; intros Hl; [done|].
  rewrite !filter_cons, IH by (intros; apply Hl; by right).
  pose proof (Hl x ltac:(by left)). by destruct (decide (P x)), (decide (Q x)); [|tauto..|].
Qed.

Lemma filter_all {A} (P : A -> Prop) `{forall x, Decision (P x)} (l : list A) :
  (forall x, x ∈ l -> P x) -> filter P l = l.
Proof.
  induction l as [|x l IH]; intros Hl; [done|].
  rewrite filter_cons_True by (apply Hl; by left). by rewrite IH by (intros; apply Hl; by right).
Qed.
