(* ===== verification/Memory.v ===== *)
(** Wasm linear memory as the host code sees it: [uint8_t *memory] plus
    [uint32_t memory_size].  A cell is read at its width by [ld8]; 32-bit
    loads and stores are little-endian, as the host's [*(uint32_t * )p] is on
    every target of the program.  [memset] and [memcpy] are the C library's.
    The second half states what each store leaves unchanged. *)
From S2P Require Import Prelude.

Definition memory : Type := Z -> Z.

Definition ld8 (m : memory) (a : Z) : Z := u8 (m a).
Definition st8 (m : memory) (a v : Z) : memory :=
  fun b => if b =? a then u8 v else m b.

Definition ld32 (m : memory) (a : Z) : Z :=
  ld8 m a + 256 * ld8 m (a + 1) + 65536 * ld8 m (a + 2) + 16777216 * ld8 m (a + 3).
Definition st32 (m : memory) (a v : Z) : memory :=
  fun b => if b =? a then u8 v
           else if b =? a + 1 then u8 (v / 256)
           else if b =? a + 2 then u8 (v / 65536)
           else if b =? a + 3 then u8 (v / 16777216)
           else m b.

Definition memset (m : memory) (a v n : Z) : memory :=
  fun b => if (a <=? b) && (b <? a + n) then u8 v else m b.
Definition memcpy (m : memory) (dst src n : Z) : memory :=
  fun b => if (dst <=? b) && (b <? dst + n) then m (src + (b - dst)) else m b.

Lemma ld8_range m a : 0 <= ld8 m a < 256.
Proof. apply u8_range. Qed.

Lemma ld32_range m a : 0 <= ld32 m a < 4294967296.
Proof.
  unfold ld32.
  pose proof (ld8_range m a). pose proof (ld8_range m (a + 1)).
  pose proof (ld8_range m (a + 2)). pose proof (ld8_range m (a + 3)). lia.
Qed.

Lemma u8_idemp x : u8 (u8 x) = u8 x.
Proof. unfold u8. by rewrite Z.mod_mod. Qed.

Lemma ld8_st8 m a v b : ld8 (st8 m a v) b = if b =? a then u8 v else ld8 m b.
Proof. unfold ld8, st8. by destruct (b =? a); [rewrite u8_idemp|]. Qed.

(** Two memories agree on a byte range. *)
Definition agree_on (lo hi : Z) (m m' : memory) : Prop :=
  forall a, lo <= a < hi -> ld8 m' a = ld8 m a.

Lemma agree_on_refl lo hi m : agree_on lo hi m m.
Proof. by intros ??. Qed.

Lemma agree_on_trans lo hi m1 m2 m3 :
  agree_on lo hi m1 m2 -> agree_on lo hi m2 m3 -> agree_on lo hi m1 m3.
Proof. intros H1 H2 a Ha. rewrite (H2 a Ha). by apply H1. Qed.

Lemma agree_on_sub lo hi lo' hi' m m' :
  lo <= lo' -> hi' <= hi -> agree_on lo hi m m' -> agree_on lo' hi' m m'.
Proof. intros ?? H a ?. apply H. lia. Qed.

Lemma ld32_agree m m' a :
  agree_on a (a + 4) m m' -> ld32 m' a = ld32 m a.
Proof. intros H. unfold ld32. rewrite !H by lia. done. Qed.

Lemma ld32_st32 m a v : ld32 (st32 m a v) a = u32 v.
Proof.
  unfold ld32, ld8, st32.
  rewrite Z.eqb_refl.
  replace (a + 1 =? a) with false by (symmetry; apply Z.eqb_neq; lia).
  replace (a + 2 =? a) with false by (symmetry; apply Z.eqb_neq; lia).
  replace (a + 3 =? a) with false by (symmetry; apply Z.eqb_neq; lia).
  replace (a + 2 =? a + 1) with false by (symmetry; apply Z.eqb_neq; lia).
  replace (a + 3 =? a + 1) with false by (symmetry; apply Z.eqb_neq; lia).
  replace (a + 3 =? a + 2) with false by (symmetry; apply Z.eqb_neq; lia).
  rewrite !Z.eqb_refl, !u8_idemp. unfold u8, u32. mlia.
Qed.

Lemma st32_frame m a v lo hi :
  hi <= a \/ a + 4 <= lo -> agree_on lo hi m (st32 m a v).
Proof.
  intros Hd b Hb. unfold ld8, st32.
  repeat (zcase; [lia|]). done.
Qed.

Lemma st8_frame m a v lo hi :
  hi <= a \/ a < lo -> agree_on lo hi m (st8 m a v).
Proof. intros Hd b Hb. rewrite ld8_st8. zcases. Qed.

Lemma memset_frame m a v n lo hi :
  hi <= a \/ a + n <= lo -> agree_on lo hi m (memset m a v n).
Proof. intros Hd b Hb. unfold ld8, memset. zcases. Qed.

Lemma memcpy_frame m dst src n lo hi :
  hi <= dst \/ dst + n <= lo -> agree_on lo hi m (memcpy m dst src n).
Proof. intros Hd b Hb. unfold ld8, memcpy. zcases. Qed.

Lemma ld8_memset_in m a v n b : a <= b < a + n -> ld8 (memset m a v n) b = u8 v.
Proof.
  intros. unfold ld8, memset.
  destruct (Z.leb_spec a b), (Z.ltb_spec b (a + n)); try lia. simpl. apply u8_idemp.
Qed.

Lemma ld8_memset_out m a v n b : b < a \/ a + n <= b -> ld8 (memset m a v n) b = ld8 m b.
Proof. intros. unfold ld8, memset. zcases. Qed.

Lemma ld8_memcpy_in m dst src n b :
  dst <= b < dst + n -> ld8 (memcpy m dst src n) b = ld8 m (src + (b - dst)).
Proof. intros. unfold ld8, memcpy. zcases. Qed.

Lemma ld32_st32_ne m a v b : b + 4 <= a \/ a + 4 <= b -> ld32 (st32 m a v) b = ld32 m b.
Proof. intros. apply ld32_agree, st32_frame. lia. Qed.

Create HintDb yos.
#[export] Hint Resolve agree_on_refl ld8_range ld32_range u32_range u8_range : yos.

(** * Two and eight bytes *)

Definition st16 (m : memory) (a v : Z) : memory := st8 (st8 m a v) (a + 1) (v / 256).
Definition ld16 (m : memory) (a : Z) : Z := ld8 m a + 256 * ld8 m (a + 1).
Definition ld64 (m : memory) (a : Z) : Z := ld32 m a + 4294967296 * ld32 m (a + 4).
Definition st64 (m : memory) (a v : Z) : memory := st32 (st32 m a v) (a + 4) (v / 4294967296).

Lemma ld16_range m a : 0 <= ld16 m a < 65536.
Proof. unfold ld16. pose proof (ld8_range m a). pose proof (ld8_range m (a + 1)). lia. Qed.

Lemma ld16_st16 m a v : ld16 (st16 m a v) a = v mod 65536.
Proof.
  unfold ld16, st16. rewrite !ld8_st8, Z.eqb_refl. rewrite (proj2 (Z.eqb_neq a (a + 1))), (proj2 (Z.eqb_neq (a + 1) a)) by lia.
  rewrite ?Z.eqb_refl. unfold u8. mlia.
Qed.

Lemma st16_frame m a v lo hi : hi <= a \/ a + 2 <= lo -> agree_on lo hi m (st16 m a v).
Proof. intros H. unfold st16. eapply agree_on_trans; apply st8_frame; lia. Qed.

Lemma ld16_agree m m' a : agree_on a (a + 2) m m' -> ld16 m' a = ld16 m a.
Proof. intros H. unfold ld16. by rewrite !H by lia. Qed.

Lemma ld64_range m a : 0 <= ld64 m a < 18446744073709551616.
Proof. unfold ld64. pose proof (ld32_range m a). pose proof (ld32_range m (a + 4)). lia. Qed.

Lemma ld64_st64 m a v : ld64 (st64 m a v) a = u64 v.
Proof.
  unfold ld64, st64. rewrite ld32_st32, ld32_st32_ne, ld32_st32 by lia. unfold u32, u64. mlia.
Qed.

Lemma st64_frame m a v lo hi : hi <= a \/ a + 8 <= lo -> agree_on lo hi m (st64 m a v).
Proof. intros H. unfold st64. eapply agree_on_trans; apply st32_frame; lia. Qed.

Lemma ld64_agree m m' a : agree_on a (a + 8) m m' -> ld64 m' a = ld64 m a.
Proof. intros H. unfold ld64. rewrite !(ld32_agree m m') by (eapply agree_on_sub; [..|exact H]; lia). done. Qed.

Lemma ld64_st64_ne m a v b : b + 8 <= a \/ a + 8 <= b -> ld64 (st64 m a v) b = ld64 m b.
Proof. intros H. apply ld64_agree, st64_frame. lia. Qed.
