(* ===== verification/Ctx.v ===== *)
(** The part of [struct yos_exec_ctx] (src/src/yos/types.h) that the memory
    subsystem and every errno-reporting bridge share: linear memory, the brk
    and mmap cursors, the two region tables with their capacities, the bounds
    and head of the guest heap, and the offset of the guest's [errno] cell.
    State that only one component uses is a record of that component's file. *)
From S2P Require Import Prelude Memory.

(** [struct yos_free_region]: the bytes [r_addr, r_addr + r_len). *)
Record region : Type := Region { r_addr : Z; r_len : Z }.

#[export] Instance region_eq_dec : EqDecision region.
Proof. solve_decision. Defined.

Definition r_end (r : region) : Z := r_addr r + r_len r.

Definition YOS_MAX_FREE_REGIONS : Z := 64.
Definition YOS_MAX_LIVE_REGIONS : Z := 128.

(** [free_list]/[free_count] and [live_list]/[live_count] are the live
    prefixes of the two arrays. *)
Record exec_ctx : Type := ExecCtx {
  mem : memory;
  memory_size : Z;
  heap_end : Z;
  mmap_top : Z;
  free_list : list region;
  live_list : list region;
  alloc_lo : Z;
  alloc_hi : Z;
  alloc_free_head : Z;
  errno_off : Z;
}.

Definition set_mem (v : memory) (c : exec_ctx) : exec_ctx :=
  ExecCtx v (c.(memory_size)) (c.(heap_end)) (c.(mmap_top)) (c.(free_list)) (c.(live_list)) (c.(alloc_lo)) (c.(alloc_hi)) (c.(alloc_free_head)) (c.(errno_off)).
Definition set_heap_end (v : Z) (c : exec_ctx) : exec_ctx :=
  ExecCtx (c.(mem)) (c.(memory_size)) v (c.(mmap_top)) (c.(free_list)) (c.(live_list)) (c.(alloc_lo)) (c.(alloc_hi)) (c.(alloc_free_head)) (c.(errno_off)).
Definition set_mmap_top (v : Z) (c : exec_ctx) : exec_ctx :=
  ExecCtx (c.(mem)) (c.(memory_size)) (c.(heap_end)) v (c.(free_list)) (c.(live_list)) (c.(alloc_lo)) (c.(alloc_hi)) (c.(alloc_free_head)) (c.(errno_off)).
Definition set_free_list (v : list region) (c : exec_ctx) : exec_ctx :=
  ExecCtx (c.(mem)) (c.(memory_size)) (c.(heap_end)) (c.(mmap_top)) v (c.(live_list)) (c.(alloc_lo)) (c.(alloc_hi)) (c.(alloc_free_head)) (c.(errno_off)).
Definition set_live_list (v : list region) (c : exec_ctx) : exec_ctx :=
  ExecCtx (c.(mem)) (c.(memory_size)) (c.(heap_end)) (c.(mmap_top)) (c.(free_list)) v (c.(alloc_lo)) (c.(alloc_hi)) (c.(alloc_free_head)) (c.(errno_off)).
Definition set_alloc_lo (v : Z) (c : exec_ctx) : exec_ctx :=
  ExecCtx (c.(mem)) (c.(memory_size)) (c.(heap_end)) (c.(mmap_top)) (c.(free_list)) (c.(live_list)) v (c.(alloc_hi)) (c.(alloc_free_head)) (c.(errno_off)).
Definition set_alloc_hi (v : Z) (c : exec_ctx) : exec_ctx :=
  ExecCtx (c.(mem)) (c.(memory_size)) (c.(heap_end)) (c.(mmap_top)) (c.(free_list)) (c.(live_list)) (c.(alloc_lo)) v (c.(alloc_free_head)) (c.(errno_off)).
Definition set_alloc_free_head (v : Z) (c : exec_ctx) : exec_ctx :=
  ExecCtx (c.(mem)) (c.(memory_size)) (c.(heap_end)) (c.(mmap_top)) (c.(free_list)) (c.(live_list)) (c.(alloc_lo)) (c.(alloc_hi)) v (c.(errno_off)).
Definition set_errno_off (v : Z) (c : exec_ctx) : exec_ctx :=
  ExecCtx (c.(mem)) (c.(memory_size)) (c.(heap_end)) (c.(mmap_top)) (c.(free_list)) (c.(live_list)) (c.(alloc_lo)) (c.(alloc_hi)) (c.(alloc_free_head)) v.

(** Errno reporting (src/src/yos/impl/errno_helpers.h).  The host-to-guest
    errno table is generated by the build, so it is a parameter. *)
Section Errno.
Variable remap_errno_h2g : Z -> Z.

Definition write_errno (c : exec_ctx) (host_errno : Z) : exec_ctx :=
  if errno_off c =? 0 then c
  else set_mem (st32 (mem c) (errno_off c) (remap_errno_h2g host_errno)) c.

(** [yos_errno_neg]: store the guest errno, return -1. *)
Definition errno_neg (c : exec_ctx) (host_errno : Z) : Z * exec_ctx :=
  (-1, write_errno c host_errno).

(** [yos_errno_null]: same with a null result. *)
Definition errno_null (c : exec_ctx) (host_errno : Z) : Z * exec_ctx :=
  (0, write_errno c host_errno).

(** [yos_errno_check]: a negative host result becomes -1 and errno. *)
Definition errno_check (c : exec_ctx) (rc host_errno : Z) : Z * exec_ctx :=
  if rc <? 0 then errno_neg c host_errno else (rc, c).

Lemma write_errno_frame c e lo hi :
  hi <= errno_off c \/ errno_off c + 4 <= lo ->
  agree_on lo hi (mem c) (mem (write_errno c e)).
Proof.
  intros. unfold write_errno. destruct (errno_off c =? 0); [apply agree_on_refl|].
  by apply st32_frame.
Qed.

Lemma write_errno_value c e :
  errno_off c <> 0 ->
  ld32 (mem (write_errno c e)) (errno_off c) = u32 (remap_errno_h2g e).
Proof.
  intros Hn. unfold write_errno. apply Z.eqb_neq in Hn. rewrite Hn. apply ld32_st32.
Qed.

(** Only the memory of the context can change. *)
Lemma write_errno_set c e : write_errno c e = set_mem (mem (write_errno c e)) c.
Proof. unfold write_errno. destruct c; simpl. by destruct (_ =? 0). Qed.
End Errno.

(** * Byte ranges and disjointness *)

Definition in_region (a : Z) (r : region) : Prop := r_addr r <= a < r_end r.
Definition in_regions (a : Z) (l : list region) : Prop := exists r, r ∈ l /\ in_region a r.

#[export] Instance in_region_dec a r : Decision (in_region a r).
Proof. unfold in_region. apply _. Defined.

Definition disjoint_r (r s : region) : Prop := r_end r <= r_addr s \/ r_end s <= r_addr r.

#[export] Instance disjoint_r_dec r s : Decision (disjoint_r r s).
Proof. unfold disjoint_r. apply _. Defined.

#[export] Instance disjoint_r_sym : Symmetric disjoint_r.
Proof. intros r s [?|?]; [by right|by left]. Qed.

(** Pairwise disjointness, as a permutation-invariant predicate. *)
Fixpoint pairwise (l : list region) : Prop :=
  match l with
  | [] => True
  | r :: l' => (forall s, s ∈ l' -> disjoint_r r s) /\ pairwise l'
  end.

#[export] Instance pairwise_proper : Proper ((≡ₚ) ==> iff) pairwise.
Proof.
  intros l1 l2 H. induction H as [|r l1 l2 Hp IH|r s l|l1 l2 l3 _ IH1 _ IH2]; simpl.
  - done.
  - rewrite IH. split; intros [Ha Hb]; (split; [|done]); intros t Ht; apply Ha;
      [by rewrite Hp|by rewrite <-Hp].
  - setoid_rewrite elem_of_cons. split; intros (H1 & H2 & H3);
      (split; [intros t [->|Ht]; [symmetry; apply H1; by left|by apply H2]
              |split; [intros t Ht; apply H1; by right|done]]).
  - by rewrite IH1.
Qed.

Lemma pairwise_app l1 l2 :
  pairwise (l1 ++ l2) <->
  pairwise l1 /\ pairwise l2 /\ (forall r s, r ∈ l1 -> s ∈ l2 -> disjoint_r r s).
Proof.
  induction l1 as [|r l1 IH]; simpl.
  - split; [intros H; repeat split; [done|]; intros r s Hr; by apply elem_of_nil in Hr|tauto].
  - rewrite IH. setoid_rewrite elem_of_app. setoid_rewrite elem_of_cons.
    split.
    + intros (H1 & H2 & H3 & H4). repeat split; eauto.
      intros t s [->|Ht] Hs; eauto.
    + intros ((H1 & H2) & H3 & H4). repeat split; eauto.
      intros s [Hs|Hs]; eauto.
Qed.

Definition apart (l1 l2 : list region) : Prop :=
  forall r s, r ∈ l1 -> s ∈ l2 -> disjoint_r r s.

#[export] Instance apart_proper : Proper ((≡ₚ) ==> (≡ₚ) ==> iff) apart.
Proof.
  intros l1 l1' H1 l2 l2' H2. unfold apart. setoid_rewrite H1. setoid_rewrite H2. done.
Qed.

#[export] Instance in_regions_proper a : Proper ((≡ₚ) ==> iff) (in_regions a).
Proof. intros l l' H. unfold in_regions. setoid_rewrite H. done. Qed.

Lemma in_regions_cons a r l : in_regions a (r :: l) <-> in_region a r \/ in_regions a l.
Proof.
  unfold in_regions. setoid_rewrite elem_of_cons. split.
  - intros (s & [->|Hs] & Ha); [by left|right; eauto].
  - intros [Ha|(s & Hs & Ha)]; eauto.
Qed.

Lemma in_regions_nil a : in_regions a [] <-> False.
Proof. split; [|done]. intros (r & Hr & _). by apply elem_of_nil in Hr. Qed.

Lemma in_regions_app a l1 l2 : in_regions a (l1 ++ l2) <-> in_regions a l1 \/ in_regions a l2.
Proof.
  induction l1 as [|r l1 IH]; simpl.
  - rewrite in_regions_nil. tauto.
  - rewrite !in_regions_cons, IH. tauto.
Qed.

(** Disjoint regions share no byte; the converse holds for non-empty ones. *)
Lemma disjoint_r_bytes r s a : disjoint_r r s -> in_region a r -> in_region a s -> False.
Proof. unfold disjoint_r, in_region, r_end. lia. Qed.

Lemma bytes_disjoint_r r s :
  0 < r_len r -> 0 < r_len s -> (forall a, in_region a r -> in_region a s -> False) -> disjoint_r r s.
Proof.
  unfold disjoint_r, in_region, r_end. intros Hr Hs H.
  destruct (Z.le_gt_cases (r_addr r + r_len r) (r_addr s)); [by left|].
  destruct (Z.le_gt_cases (r_addr s + r_len s) (r_addr r)); [by right|].
  exfalso. apply (H (Z.max (r_addr r) (r_addr s))); lia.
Qed.

Lemma apart_bytes l1 l2 a : apart l1 l2 -> in_regions a l1 -> in_regions a l2 -> False.
Proof. intros H (r & Hr & Ha) (s & Hs & Hb). eapply disjoint_r_bytes; eauto. Qed.
