(* ===== verification/CString.v ===== *)
(** Bytes and C strings of linear memory: reading and storing a run of bytes,
    the NUL-terminated string at an offset, and the lemmas every component that
    handles guest strings shares. *)
From Stdlib Require Import Strings.String Strings.Ascii.
From S2P Require Import Prelude Memory Ctx.

Definition bytes : Type := list Z.
Definition blen (s : bytes) : Z := Z.of_nat (length s).

(** A string literal. *)
Definition lit (s : string) : bytes := map (fun a => Z.of_N (N_of_ascii a)) (list_ascii_of_string s).

Definition read_bytes (m : memory) (off n : Z) : bytes := map (fun i => ld8 m (off + i)) (seqZ 0 n).

Definition write_bytes (m : memory) (off : Z) (s : bytes) : memory :=
  fun a => if (off <=? a) && (a <? off + blen s) then u8 (nth (Z.to_nat (a - off)) s 0) else m a.

Fixpoint cstr_go (fuel : nat) (m : memory) (a : Z) : option bytes :=
  match fuel with
  | O => None
  | S f => if ld8 m a =? 0 then Some [] else cons (ld8 m a) <$> cstr_go f m (a + 1)
  end.

(** The string at an offset; [None] when no NUL ends it inside the memory. *)
Definition cstr (c : exec_ctx) (off : Z) : option bytes :=
  cstr_go (Z.to_nat (memory_size c - off)) (mem c) off.

(** [wstr_check]: no string at offset 0 either. *)
Definition wstr_check (c : exec_ctx) (off : Z) : option bytes :=
  if (off =? 0) || (memory_size c <=? off) then None else cstr c off.

(** * Strings in memory *)

Definition byte_ok (b : Z) : Prop := 0 < b < 256.

(** The NUL-terminated string at an offset. *)
Definition str_at (m : memory) (off : Z) (s : bytes) : Prop :=
  read_bytes m off (blen s + 1) = s ++ [0] /\ Forall byte_ok s.

Lemma blen_nonneg s : 0 <= blen s.
Proof. unfold blen. lia. Qed.

Lemma blen_cons x s : blen (x :: s) = blen s + 1.
Proof. unfold blen. simpl. lia. Qed.

Lemma blen_app s t : blen (s ++ t) = blen s + blen t.
Proof. unfold blen. rewrite length_app. lia. Qed.

Lemma read_bytes_agree m m' off n :
  (forall a, off <= a < off + n -> ld8 m' a = ld8 m a) -> read_bytes m' off n = read_bytes m off n.
Proof. intros H. apply map_ext_in. intros i Hi. apply list_elem_of_In, elem_of_seqZ in Hi. apply H. lia. Qed.

Lemma read_bytes_S m off n : 0 <= n -> read_bytes m off (n + 1) = ld8 m off :: read_bytes m (off + 1) n.
Proof.
  intros Hn. unfold read_bytes. rewrite seqZ_cons by lia. cbn [map]. rewrite Z.add_0_r. f_equal.
  replace (Z.pred (n + 1)) with n by lia. replace (Z.succ 0) with (1 + 0) by lia. rewrite <-fmap_add_seqZ.
  change (map ?f (?g <$> ?l)) with (map f (map g l)). rewrite map_map. apply map_ext. intros i. f_equal. lia.
Qed.

Lemma read_bytes_0 m off : read_bytes m off 0 = [].
Proof. done. Qed.

Lemma read_byte m off : read_bytes m off 1 = [ld8 m off].
Proof. exact (read_bytes_S m off 0 ltac:(lia)). Qed.

Lemma read_bytes_app m off n k :
  0 <= n -> 0 <= k -> read_bytes m off (n + k) = read_bytes m off n ++ read_bytes m (off + n) k.
Proof.
  intros Hn. revert off. pattern n. apply natlike_ind; [|clear n Hn|done].
  - intros off Hk. by rewrite Z.add_0_r.
  - intros n Hn IH off Hk. replace (Z.succ n + k) with ((n + k) + 1) by lia.
    rewrite read_bytes_S, IH by lia. unfold Z.succ. rewrite read_bytes_S by lia. cbn [app]. f_equal. f_equal. f_equal. lia.
Qed.

Lemma read_bytes_write m off s :
  Forall (fun b => 0 <= b < 256) s -> read_bytes (write_bytes m off s) off (blen s) = s.
Proof.
  intros Hs. apply list_eq. intros i. unfold read_bytes. rewrite list_lookup_fmap.
  destruct (s !! i) as [b|] eqn:E.
  - pose proof (lookup_lt_Some _ _ _ E). rewrite lookup_seqZ_lt by (unfold blen; lia). cbn [fmap option_fmap option_map]. f_equal.
    unfold ld8, write_bytes, blen. destruct (Z.leb_spec off (off + (0 + Z.of_nat i))); [|lia].
    destruct (Z.ltb_spec (off + (0 + Z.of_nat i)) (off + Z.of_nat (length s))); [|lia]. cbn [andb].
    replace (Z.to_nat (off + (0 + Z.of_nat i) - off)) with i by lia.
    rewrite (nth_lookup_Some _ _ _ _ E), u8_idemp. rewrite Forall_forall in Hs.
    apply Z.mod_small. apply Hs. by eapply list_elem_of_lookup_2.
  - apply lookup_ge_None in E. by rewrite lookup_seqZ_ge by (unfold blen; lia).
Qed.

Lemma read_bytes_memcpy m dst src n :
  0 <= n -> read_bytes (memcpy m dst src n) dst n = read_bytes m src n.
Proof.
  intros Hn. apply map_ext_in. intros i Hi. apply list_elem_of_In, elem_of_seqZ in Hi.
  rewrite ld8_memcpy_in by lia. f_equal. lia.
Qed.

Lemma str_at_head m off s : str_at m off s -> ld8 m off = hd 0 s.
Proof.
  intros [H _]. pose proof (blen_nonneg s). rewrite read_bytes_S in H by lia. destruct s; simpl in *; congruence.
Qed.

Lemma str_at_cons m off b s : str_at m off (b :: s) -> ld8 m off = b /\ byte_ok b /\ str_at m (off + 1) s.
Proof.
  intros [H Hs]. apply Forall_cons in Hs as [Hb Hs]. pose proof (blen_nonneg s). rewrite blen_cons in H.
  rewrite read_bytes_S in H by lia. cbn [app] in H. injection H as H1 H2. by split_and!.
Qed.

Lemma str_at_cstr_go fuel m off s :
  str_at m off s -> blen s < Z.of_nat fuel -> cstr_go fuel m off = Some s.
Proof.
  revert off s. induction fuel as [|f IH]; intros off s Hs Hf; [pose proof (blen_nonneg s); lia|]. cbn [cstr_go].
  destruct s as [|b s].
  - apply str_at_head in Hs. simpl in Hs. by rewrite Hs.
  - apply str_at_cons in Hs as (-> & Hb & Hs). unfold byte_ok in Hb. destruct (Z.eqb_spec b 0); [lia|].
    rewrite blen_cons in Hf. rewrite (IH (off + 1) s) by (done || lia). done.
Qed.

Lemma str_at_cstr c off s : str_at (mem c) off s -> off + blen s < memory_size c -> cstr c off = Some s.
Proof. intros Hs Hb. apply str_at_cstr_go; [done|]. lia. Qed.

(** The name comparison of [find_entry]. *)
Lemma str_at_prefix m off s t : str_at m off s -> blen t = blen s -> read_bytes m off (blen t) = t <-> t = s.
Proof.
  intros [H _] Hl. pose proof (blen_nonneg s).
  rewrite Hl. rewrite read_bytes_app in H by lia. apply app_inj_1 in H as [H _].
  - rewrite H. split; congruence.
  - unfold read_bytes, blen in *. rewrite length_map, length_seqZ. lia.
Qed.

Lemma str_at_agree m m' off s :
  str_at m off s -> (forall a, off <= a <= off + blen s -> ld8 m' a = ld8 m a) -> str_at m' off s.
Proof. intros [H Hs] Ha. split; [|done]. rewrite <-H. apply read_bytes_agree. intros a Hr. apply Ha. lia. Qed.

Lemma str_at_app m off s t : str_at m off (s ++ t) -> str_at m (off + blen s) t.
Proof.
  revert off. induction s as [|b s IH]; intros off H; [by rewrite Z.add_0_r|].
  apply str_at_cons in H as (_ & _ & H). rewrite blen_cons. replace (off + (blen s + 1)) with (off + 1 + blen s) by lia. by apply IH.
Qed.

Lemma string_at m off s : read_bytes m off (blen s + 1) = s ++ [0] -> Forall byte_ok s -> str_at m off s.
Proof. by split. Qed.

(** A store of a string spares every byte outside it. *)
Lemma write_bytes_other m off s a : a < off \/ off + blen s <= a -> ld8 (write_bytes m off s) a = ld8 m a.
Proof.
  intros H. unfold ld8, write_bytes. destruct (Z.leb_spec off a), (Z.ltb_spec a (off + blen s)); try done; lia.
Qed.

Lemma write_bytes_frame m off s lo hi : hi <= off \/ off + blen s <= lo -> agree_on lo hi m (write_bytes m off s).
Proof. intros H a Ha. apply write_bytes_other. lia. Qed.

Lemma str_at_write m off s : Forall byte_ok s -> str_at (write_bytes m off (s ++ [0])) off s.
Proof.
  intros Hs. split; [|done]. replace (blen s + 1) with (blen (s ++ [0])) by (rewrite blen_app; done). apply read_bytes_write.
  apply Forall_app. split; [|by repeat constructor]. eapply Forall_impl; [exact Hs|]. unfold byte_ok. intros. lia.
Qed.

Lemma take_plus {A} n k (l : list A) : take (n + k) l = take n l ++ take k (drop n l).
Proof. revert l. induction n as [|n IH]; intros [|x l]; cbn; [by destruct k..|by destruct k|]. by rewrite IH. Qed.

(** * Scanning: the longest prefix of accepted characters, and the rest *)

Fixpoint span (f : Z -> bool) (s : bytes) : bytes * bytes :=
  match s with
  | b :: s' => if f b then let '(x, y) := span f s' in (b :: x, y) else ([], s)
  | [] => ([], [])
  end.

(** The characters in front of a NUL. *)
Definition c_str (s : bytes) : bytes := fst (span (fun b => negb (b =? 0)) s).

Lemma span_app f x y :
  Forall (fun b => f b = true) x -> match y with b :: _ => f b = false | [] => True end -> span f (x ++ y) = (x, y).
Proof.
  intros Hx Hy. induction Hx as [|b x Hb Hx IH]; cbn [span app].
  - destruct y as [|b y]; [done|]. cbn [span]. by rewrite Hy.
  - by rewrite Hb, IH.
Qed.

Lemma span_split f s : let '(x, y) := span f s in
  s = x ++ y /\ Forall (fun b => f b = true) x /\ match y with b :: _ => f b = false | [] => True end.
Proof.
  induction s as [|b s IH]; cbn [span]; [done|]. destruct (f b) eqn:E; [|done].
  destruct (span f s) as [x y]. destruct IH as (-> & Hx & Hy). split_and!; [done|by constructor|done].
Qed.

Lemma c_str_clean s : Forall (fun b => b <> 0) s -> c_str s = s.
Proof.
  intros Hs. unfold c_str. rewrite <-(app_nil_r s) at 1. rewrite span_app; [done| |done].
  eapply Forall_impl; [exact Hs|]. intros b Hb. apply Z.eqb_neq in Hb. cbn. by rewrite Hb.
Qed.
