(* ===== verification/Vm.v ===== *)
(** brk, mmap and munmap inside guest linear memory
    (src/src/yos/impl/mem/mem.c).  munmap and the table work of mmap2 run under
    [mem_lock]; mmap2 clears a new range after it has released the lock, mremap
    copies without it, and brk takes no lock at all: it reads the mmap cursor
    and stores the heap end.  Each operation is one atomic step of the model.
    Tracing calls are left out. *)
From S2P Require Import Prelude Memory Ctx.

(** * The free list and the live list *)

(** [find_free_region]'s scan: the index of the smallest region that fits.
    [best_size] starts at [UINT32_MAX]. *)
Fixpoint best_fit (l : list region) (i : nat) (len : Z) (best : option nat) (best_size : Z)
    : option nat :=
  match l with
  | [] => best
  | r :: l' =>
      if (len <=? r_len r) && (r_len r <? best_size)
      then best_fit l' (S i) len (Some i) (r_len r)
      else best_fit l' (S i) len best best_size
  end.

Definition find_free_region (l : list region) (len : Z) : Z * list region :=
  match best_fit l 0 len None UINT32_MAX with
  | None => (0, l)
  | Some b =>
      match l !! b with
      | None => (0, l)
      | Some r =>
          let remaining := u32 (r_len r - len) in
          if 4096 <=? remaining
          then (r_addr r, <[b := Region (u32 (r_addr r + len)) remaining]> l)
          else (r_addr r, swap_remove b l)
      end
  end.

Definition free_list_push_raw (l : list region) (addr len : Z) : list region :=
  if len =? 0 then l
  else (if YOS_MAX_FREE_REGIONS <=? Z.of_nat (length l) then swap_remove 0 l else l)
       ++ [Region addr len].

(** One pass of [add_free_region]'s inner loop: the first region that ends
    where the new one starts, or starts where it ends. *)
Fixpoint find_adjacent (l : list region) (i : nat) (addr len : Z) : option (nat * Z * Z) :=
  match l with
  | [] => None
  | r :: l' =>
      if u32 (r_addr r + r_len r) =? addr then Some (i, r_addr r, u32 (len + r_len r))
      else if u32 (addr + len) =? r_addr r then Some (i, addr, u32 (len + r_len r))
      else find_adjacent l' (S i) addr len
  end.

Definition coalesce_step (s : list region * Z * Z)
    : (list region * Z * Z) + (list region * Z * Z) :=
  let '(l, addr, len) := s in
  match find_adjacent l 0 addr len with
  | Some (i, addr', len') => inl (swap_remove i l, addr', len')
  | None => inr (l, addr, len)
  end.

Definition add_free_region (l : list region) (addr len : Z) : list region :=
  if len =? 0 then l
  else match loop_nat coalesce_step (S (length l)) (l, addr, len) with
       | inr (l', addr', len') => free_list_push_raw l' addr' len'
       | inl _ => l
       end.

(** The loop [carve_free_range] and [live_remove] share; [push] re-adds a
    remainder. *)
Definition cut_step (push : list region -> Z -> Z -> list region) (addr stop : Z)
    (s : nat * list region) : (nat * list region) + list region :=
  let '(i, l) := s in
  match l !! i with
  | None => inr l
  | Some r =>
      if (r_end r <=? addr) || (stop <=? r_addr r) then inl (S i, l)
      else
        let l1 := swap_remove i l in
        let l2 := if r_addr r <? addr then push l1 (r_addr r) (u32 (addr - r_addr r)) else l1 in
        let l3 := if stop <? r_end r then push l2 (u32 stop) (u32 (r_end r - stop)) else l2 in
        inl (i, l3)
  end.

Definition cut_range (push : list region -> Z -> Z -> list region)
    (l : list region) (addr len : Z) : list region :=
  match loop_nat (cut_step push addr (addr + len)) (S (3 * length l)) (0%nat, l) with
  | inr l' => l'
  | inl (_, l') => l'
  end.

Definition carve_free_range (l : list region) (addr len : Z) : list region :=
  cut_range free_list_push_raw l addr len.

Definition live_add (l : list region) (addr len : Z) : list region :=
  if len =? 0 then l
  else if YOS_MAX_LIVE_REGIONS <=? Z.of_nat (length l) then l
  else l ++ [Region addr len].

Definition live_remove (l : list region) (addr len : Z) : list region :=
  cut_range live_add l addr len.

(** [range_overlaps_free] and [range_overlaps_live] are this test on the two
    lists. *)
Definition range_overlaps (l : list region) (addr len : Z) : bool :=
  existsb (fun r => (r_addr r <? addr + len) && (addr <? r_end r)) l.

(** * The guest-visible operations *)

(** [mmap_top ? mmap_top : memory_size / 2] *)
Definition mmap_anchor (c : exec_ctx) : Z :=
  if mmap_top c =? 0 then memory_size c / 2 else mmap_top c.

Definition yos_brk (c : exec_ctx) (addr : Z) : Z * exec_ctx :=
  if addr =? 0 then (s32 (heap_end c), c)
  else if memory_size c <? addr then (- ENOMEM, c)
  else if mmap_anchor c <? addr then (- ENOMEM, c)
  else (s32 addr, set_heap_end addr c).

(** [((uint64_t)len + 4095u) & ~(uint64_t)4095u] *)
Definition page_align (len : Z) : Z := Z.land (u64 (len + 4095)) (Z.lnot 4095).

(** One iteration of [yos_munmap]'s walk over the live list: zero the overlap
    and put it on the free list. *)
Definition munmap_one (addr stop : Z) (s : memory * list region * bool) (r : region)
    : memory * list region * bool :=
  let '(m, fl, freed) := s in
  let lo := if addr <? r_addr r then r_addr r else addr in
  let hi := if r_end r <? stop then r_end r else stop in
  if hi <=? lo then s
  else (memset m lo 0 (u32 (hi - lo)), add_free_region fl lo (u32 (hi - lo)), true).

Definition yos_munmap (c : exec_ctx) (addr len : Z) : Z * exec_ctx :=
  let aligned := page_align len in
  if (aligned =? 0) || (memory_size c <? aligned) || (memory_size c <? addr + aligned)
  then (- EINVAL, c)
  else if range_overlaps (free_list c) addr (u32 aligned) then (0, c)
  else
    let '(m, fl, freed) :=
      foldl (munmap_one addr (addr + aligned)) (mem c, free_list c, false) (live_list c) in
    let lv := if freed : bool then live_remove (live_list c) addr (u32 aligned) else live_list c in
    (0, set_live_list lv (set_free_list fl (set_mem m c))).

Definition check_range (c : exec_ctx) (start len : Z) : Z :=
  if len =? 0 then 0
  else if (memory_size c <=? start) || (memory_size c <? len) || (memory_size c <? start + len)
  then - ENOMEM
  else 0.

Definition yos_mprotect (c : exec_ctx) (start len prot : Z) : Z := check_range c start len.
Definition yos_mlock (c : exec_ctx) (start len : Z) : Z := check_range c start len.
Definition yos_munlock (c : exec_ctx) (start len : Z) : Z := check_range c start len.
Definition yos_madvise (c : exec_ctx) (start len behavior : Z) : Z := check_range c start len.
Definition yos_mlockall (c : exec_ctx) (flags : Z) : Z := 0.
Definition yos_munlockall (c : exec_ctx) : Z := 0.

Definition MAP_FIXED : Z := 16.

(** The [MAP_FIXED] branch of [yos_mmap2]. *)
Definition mmap2_fixed (c : exec_ctx) (addr length : Z) : Z * exec_ctx :=
  if memory_size c <? addr + length then (- ENOMEM, c)
  else if addr <? heap_end c then (- EINVAL, c)
  else
    let lv := live_add (live_remove (live_list c) addr length) addr length in
    let fl := carve_free_range (free_list c) addr length in
    let top := mmap_anchor c in
    let top' := if top <? addr + length then u32 (addr + length) else top in
    (s32 addr,
     set_mem (memset (mem c) addr 0 length)
       (set_mmap_top top' (set_free_list fl (set_live_list lv c)))).

(** The anonymous branch: reuse a freed region, else move [mmap_top]. *)
Definition mmap2_anon (c : exec_ctx) (length : Z) : Z * exec_ctx :=
  let '(result, fl) := find_free_region (free_list c) length in
  if negb (result =? 0) then
    (s32 result, set_live_list (live_add (live_list c) result length) (set_free_list fl c))
  else
    let c1 := set_mmap_top (mmap_anchor c) (set_free_list fl c) in
    if mmap_top c1 <? heap_end c1 then (- ENOMEM, c1)
    else
      let result := mmap_top c1 in
      let new_end := result + length in
      if memory_size c1 <? new_end then (- ENOMEM, c1)
      else (s32 result,
            set_mem (memset (mem c1) result 0 length)
              (set_live_list (live_add (live_list c1) result length)
                 (set_mmap_top (u32 new_end) c1))).

Definition yos_mmap2 (c : exec_ctx) (addr length prot flags fd pgoffset : Z) : Z * exec_ctx :=
  if negb (fd =? -1) then (- ENOSYS, c)
  else
    let aligned := page_align length in
    if (aligned =? 0) || (memory_size c <? aligned) then (- ENOMEM, c)
    else if negb (Z.land flags MAP_FIXED =? 0) && negb (addr =? 0)
    then mmap2_fixed c addr (u32 aligned)
    else mmap2_anon c (u32 aligned).

Definition yos_mmap (c : exec_ctx) (addr length prot flags fd offset : Z) : Z * exec_ctx :=
  yos_mmap2 c addr length prot flags fd 0.

Definition yos_mremap (c : exec_ctx) (addr old_len new_len flags new_addr : Z) : Z * exec_ctx :=
  if new_len <=? old_len then (s32 addr, c)
  else
    let '(r, c') := yos_mmap2 c 0 new_len 3 34 (-1) 0 in
    if r <? 0 then (r, c')
    else (r, set_mem (memcpy (mem c') r addr old_len) c').
