(* ===== verification/VmTables.v ===== *)
(** Facts about the free list and the live list of [Vm]: best fit, coalescing
    and range cutting.  The main lemmas are [find_free_region_spec],
    [add_free_region_spec] and [cut_range_spec]; the last is proved once for
    both tables, against the interface [PushOk] of the re-adding function. *)
From S2P Require Import Prelude Memory Ctx Vm.

(** * Facts about the region tables *)

(** A region a table may hold when every address below [t] was handed out. *)
Definition region_ok (t : Z) (r : region) : Prop := 0 < r_addr r /\ 0 < r_len r /\ r_end r <= t.

#[export] Instance Forall_perm_proper {A} (P : A -> Prop) : Proper ((≡ₚ) ==> iff) (Forall P).
Proof. intros l l' H. by rewrite H. Qed.

Lemma apart_of_bytes t t' l1 l2 :
  Forall (region_ok t) l1 -> Forall (region_ok t') l2 ->
  (forall a, in_regions a l1 -> in_regions a l2 -> False) -> apart l1 l2.
Proof.
  intros H1 H2 Hb r s Hr Hs. rewrite Forall_forall in H1, H2.
  apply bytes_disjoint_r; [apply H1, Hr|apply H2, Hs|].
  intros a ??. apply (Hb a); eexists; eauto.
Qed.

Lemma page_align_div len : 0 <= len < 4294967296 -> page_align len = (len + 4095) / 4096 * 4096.
Proof.
  intros. unfold page_align, u64. rewrite Z.mod_small by lia.
  rewrite <-Z.ldiff_land. change 4095 with (Z.ones 12) at 2.
  rewrite Z.ldiff_ones_r, Z.shiftr_div_pow2, Z.shiftl_mul_pow2 by lia. done.
Qed.

Lemma page_align_bounds len :
  0 <= len < 4294967296 -> len <= page_align len < len + 4096 /\ page_align len mod 4096 = 0.
Proof. intros. rewrite page_align_div by lia. split; [mlia|]. apply Z_mod_mult. Qed.

Lemma swap_remove_delete {A} i (l : list A) x :
  l !! i = Some x -> swap_remove i l ≡ₚ delete i l.
Proof.
  intros Hi. apply (Permutation_cons_inv (a := x)).
  rewrite <-swap_remove_Permutation by done. by apply delete_Permutation.
Qed.

Lemma insert_swap_remove {A} i (l : list A) x y :
  l !! i = Some x -> <[i:=y]> l ≡ₚ y :: swap_remove i l.
Proof.
  intros Hi. rewrite (swap_remove_delete i l x) by done.
  apply lookup_lt_Some in Hi as Hl.
  by rewrite insert_take_drop, delete_take_drop, Permutation_middle.
Qed.

Lemma best_fit_spec l i len best bs :
  (best_fit l i len best bs = best /\ forall r, r ∈ l -> len <= r_len r -> bs <= r_len r) \/
  (exists j r, best_fit l i len best bs = Some (i + j)%nat /\ l !! j = Some r /\
    len <= r_len r < bs /\ forall s, s ∈ l -> len <= r_len s -> r_len r <= r_len s).
Proof.
  revert i best bs. induction l as [|r l IH]; intros i best bs; simpl.
  { left. split; [done|]. intros s Hs. by apply elem_of_nil in Hs. }
  destruct (Z.leb_spec len (r_len r)), (Z.ltb_spec (r_len r) bs); simpl.
  1: destruct (IH (S i) (Some i) (r_len r)) as [[-> Hm]|(j & s & -> & Hj & [Hs1 Hs2] & Hm)];
    right; [exists 0%nat, r|exists (S j), s]; (split; [f_equal; lia|]); (split; [done|]);
    (split; [lia|]); intros t [->|Ht]%elem_of_cons ?; [lia|by apply Hm|lia|by apply Hm].
  all: destruct (IH (S i) best bs) as [[-> Hm]|(j & s & -> & Hj & [Hs1 Hs2] & Hm)];
    [left; split; [done|]|right; exists (S j), s; (split; [f_equal; lia|]); (split; [done|]); (split; [lia|])];
    intros t [->|Ht]%elem_of_cons ?; [lia|by apply Hm|lia|by apply Hm].
Qed.

(** What [find_free_region] returns: nothing when no region fits, else a
    smallest fitting region [r], from whose front the request is taken; a
    remainder of a page or more stays on the list. *)
Lemma find_free_region_spec t l len :
  Forall (region_ok t) l -> t <= UINT32_MAX -> 0 < len ->
  (find_free_region l len = (0, l) /\ forall r, r ∈ l -> r_len r < len) \/
  (exists r rest l', find_free_region l len = (r_addr r, l') /\ l ≡ₚ r :: rest /\
    len <= r_len r /\ (forall s, s ∈ l -> len <= r_len s -> r_len r <= r_len s) /\
    ((4096 <= r_len r - len /\ l' ≡ₚ Region (r_addr r + len) (r_len r - len) :: rest) \/
     (r_len r - len < 4096 /\ l' ≡ₚ rest))).
Proof.
  intros Hok Ht Hlen. unfold find_free_region. rewrite Forall_forall in Hok.
  destruct (best_fit_spec l 0 len None UINT32_MAX) as [[-> Hm]|(j & r & -> & Hj & Hr & Hm)]; simpl.
  - left. split; [done|]. intros r Hr. destruct (Z.lt_ge_cases (r_len r) len); [done|].
    specialize (Hm r Hr ltac:(lia)). destruct (Hok r Hr) as (? & ? & ?). unfold r_end in *. lia.
  - right. rewrite Hj. exists r, (swap_remove j l).
    destruct (Hok r) as (Ha & Hl & He); [by eapply list_elem_of_lookup_2|].
    unfold r_end, UINT32_MAX in *. rewrite !u32_small by lia.
    destruct (Z.leb_spec 4096 (r_len r - len)); eexists; split_and!;
      try reflexivity; try lia; try (by apply swap_remove_Permutation); try done; [left|right];
      (split; [done|]); [by eapply insert_swap_remove|done].
Qed.

(** ** Coalescing *)

Lemma find_adjacent_spec t l i addr len :
  Forall (region_ok t) l -> t <= UINT32_MAX -> 0 < addr -> 0 < len -> addr + len <= t ->
  match find_adjacent l i addr len with
  | None => forall r, r ∈ l -> r_end r <> addr /\ addr + len <> r_addr r
  | Some (k, addr', len') => exists j r, k = (i + j)%nat /\ l !! j = Some r /\
      ((r_end r = addr /\ addr' = r_addr r) \/ (addr + len = r_addr r /\ addr' = addr)) /\
      len' = u32 (len + r_len r)
  end.
Proof.
  unfold UINT32_MAX, r_end. intros Hok Ht Ha Hl He. revert i. induction l as [|r l IH]; intros i; simpl.
  { intros r Hr. by apply elem_of_nil in Hr. }
  apply Forall_cons in Hok as [(Hra & Hrl & Hre) Hok]. specialize (IH Hok (S i)).
  unfold r_end in *. rewrite (u32_small (_ + r_len r)), (u32_small (addr + len)) by lia.
  destruct (Z.eqb_spec (r_addr r + r_len r) addr).
  { exists 0%nat, r. rewrite Nat.add_0_r. split_and!; try done. by left. }
  destruct (Z.eqb_spec (addr + len) (r_addr r)).
  { exists 0%nat, r. rewrite Nat.add_0_r. split_and!; try done. by right. }
  destruct (find_adjacent l (S i) addr len) as [[[k a'] n']|].
  - destruct IH as (j & s & -> & Hj & Hs & ->). exists (S j), s. split_and!; try done. lia.
  - intros s [->|Hs]%elem_of_cons; [done|by apply IH].
Qed.

(** Invariant of the coalescing loop: the candidate and the list together
    always hold the same bytes, as disjoint regions. *)
Definition coalesce_inv (t : Z) (l0 : list region) (s : list region * Z * Z) : Prop :=
  let '(l, addr, len) := s in
  Forall (region_ok t) (Region addr len :: l) /\ pairwise (Region addr len :: l) /\
  (forall a, in_regions a (Region addr len :: l) <-> in_regions a l0).

Lemma coalesce_step_inv t l0 s :
  t <= UINT32_MAX -> coalesce_inv t l0 s ->
  match coalesce_step s with
  | inl s' => coalesce_inv t l0 s' /\ (length s.1.1 = S (length s'.1.1))
  | inr s' => s' = s /\
      (forall r, r ∈ s.1.1 -> r_end r <> s.1.2 /\ s.1.2 + s.2 <> r_addr r)
  end.
Proof.
  destruct s as [[l addr] len]. intros Ht (Hok & Hpw & Hb). simpl.
  apply Forall_cons in Hok as Hok'. destruct Hok' as [(Ha & Hl & He) Hokl].
  unfold r_end, UINT32_MAX in *; simpl in *.
  pose proof (find_adjacent_spec t l 0 addr len Hokl Ht Ha Hl He) as Hf.
  destruct (find_adjacent l 0 addr len) as [[[k a'] n']|]; [|done].
  destruct Hf as (j & r & -> & Hj & Hs & ->). simpl.
  pose proof (swap_remove_Permutation j l r Hj) as Hp.
  split; [|by eapply swap_remove_length].
  rewrite Hp in Hokl. apply Forall_cons in Hokl as [(Hra & Hrl & Hre) Hrest].
  assert (Hpw' := Hpw). destruct Hpw' as [Hd Hpl]. rewrite Hp in Hpl. destruct Hpl as [Hdr Hpr].
  unfold r_end in *; simpl in *. rewrite u32_small by lia.
  unfold coalesce_inv. split_and!.
  - constructor; [|done]. unfold region_ok, r_end; simpl. lia.
  - intros s Hs'.
    assert (s ∈ l) by (rewrite Hp; by right).
    specialize (Hd s ltac:(done)). specialize (Hdr s Hs'). unfold disjoint_r, r_end in *; simpl in *.
    rewrite Forall_forall in Hrest. destruct (Hrest s Hs') as (? & ? & ?). lia.
  - done.
  - intros a. rewrite <-Hb, !in_regions_cons. rewrite (in_regions_proper a l _ Hp), in_regions_cons.
    unfold in_region, r_end; simpl. intuition lia.
Qed.

Lemma coalesce_loop t l0 n s :
  t <= UINT32_MAX -> coalesce_inv t l0 s -> (length s.1.1 < n)%nat ->
  exists s', loop_nat coalesce_step n s = inr s' /\ coalesce_inv t l0 s' /\
    (length s'.1.1 <= length s.1.1)%nat /\
    (forall r, r ∈ s'.1.1 -> r_end r <> s'.1.2 /\ s'.1.2 + s'.2 <> r_addr r).
Proof.
  intros Ht. revert s. induction n as [|n IH]; intros s Hi Hn; [lia|].
  pose proof (coalesce_step_inv t l0 s Ht Hi) as Hs. simpl.
  destruct (coalesce_step s) as [s'|s'].
  - destruct Hs as [Hi' Hl]. destruct (IH s' Hi' ltac:(lia)) as (s'' & -> & ? & ? & ?).
    exists s''. split_and!; try done. lia.
  - destruct Hs as [-> Hn']. exists s. split_and!; try done.
Qed.

(** Adding to the free list never invents a region: the result is part of the
    list with the new region, all of it below the capacity. *)
Lemma free_list_push_raw_spec l a n :
  0 < n ->
  free_list_push_raw l a n ⊆+ Region a n :: l /\ Region a n ∈ free_list_push_raw l a n /\
  (Z.of_nat (length l) < YOS_MAX_FREE_REGIONS -> free_list_push_raw l a n = l ++ [Region a n]) /\
  (Z.of_nat (length l) <= YOS_MAX_FREE_REGIONS ->
   Z.of_nat (length (free_list_push_raw l a n)) <= YOS_MAX_FREE_REGIONS).
Proof.
  intros Hn. unfold free_list_push_raw, YOS_MAX_FREE_REGIONS.
  destruct (Z.eqb_spec n 0); [lia|]. destruct (Z.leb_spec 64 (Z.of_nat (length l))) as [Hc|Hc].
  - destruct l as [|x l']; [simpl in Hc; lia|].
    pose proof (swap_remove_Permutation 0 (x :: l') x eq_refl) as Hp.
    pose proof (swap_remove_length 0 (x :: l') x eq_refl) as Hl.
    split_and!.
    + rewrite <-Permutation_cons_append. apply submseteq_skip.
      transitivity (x :: swap_remove 0 (x :: l')); [by apply submseteq_cons|by rewrite <-Hp].
    + set_solver.
    + lia.
    + intros. rewrite length_app; simpl. lia.
  - split_and!; [by rewrite <-Permutation_cons_append|set_solver|done|].
    intros. rewrite length_app; simpl. lia.
Qed.

Lemma pairwise_submseteq l k : l ⊆+ k -> pairwise k -> pairwise l.
Proof.
  intros (k' & ->)%submseteq_Permutation. rewrite pairwise_app. tauto.
Qed.

Lemma in_regions_submseteq a l k : l ⊆+ k -> in_regions a l -> in_regions a k.
Proof. intros Hs (r & Hr & Ha). exists r. split; [by eapply elem_of_submseteq|done]. Qed.

Lemma Forall_submseteq {A} (P : A -> Prop) l k : l ⊆+ k -> Forall P k -> Forall P l.
Proof. intros Hs Hk. rewrite Forall_forall in *. intros x Hx. eapply Hk, elem_of_submseteq; eauto. Qed.

(** [add_free_region]: the result is well formed, holds no byte that was not
    free or freed, and loses none while the table has room.  The freed bytes
    themselves are always kept, in a region no other one touches. *)
Lemma add_free_region_spec t l addr len :
  t <= UINT32_MAX -> Forall (region_ok t) (Region addr len :: l) ->
  pairwise (Region addr len :: l) -> Z.of_nat (length l) <= YOS_MAX_FREE_REGIONS ->
  let l' := add_free_region l addr len in
  Forall (region_ok t) l' /\ pairwise l' /\ Z.of_nat (length l') <= YOS_MAX_FREE_REGIONS /\
  (length l' <= S (length l))%nat /\
  (forall a, in_regions a l' -> in_regions a (Region addr len :: l)) /\
  (Z.of_nat (length l) < YOS_MAX_FREE_REGIONS ->
   forall a, in_regions a (Region addr len :: l) -> in_regions a l').
Proof.
  intros Ht Hok Hpw Hcap. unfold add_free_region.
  apply Forall_cons in Hok as Hok'. destruct Hok' as [(Ha & Hl & He) _]. simpl in Ha, Hl.
  destruct (Z.eqb_spec len 0); [lia|].
  destruct (coalesce_loop t (Region addr len :: l) (S (length l)) (l, addr, len))
    as ([[l1 a1] n1] & Hloop & (Hok1 & Hpw1 & Hb1) & Hl1 & _); [done|done|simpl; lia|].
  rewrite Hloop. simpl in Hl1.
  apply Forall_cons in Hok1 as Hok1'. destruct Hok1' as [(_ & Hn1 & _) _]. simpl in Hn1.
  destruct (free_list_push_raw_spec l1 a1 n1 Hn1) as (Hs & Hin & Hroom & Hlen).
  split_and!.
  - by eapply Forall_submseteq.
  - by eapply pairwise_submseteq.
  - apply Hlen. lia.
  - apply submseteq_length in Hs. simpl in Hs. lia.
  - intros a Ha'. apply Hb1. by eapply in_regions_submseteq.
  - intros Hc a Ha'. rewrite Hroom by lia. rewrite <-Permutation_cons_append. by apply Hb1.
Qed.

(** ** Cutting a range out of a table *)

(** What the loop needs to know of the function that re-adds a remainder. *)
Class PushOk (cap : Z) (push : list region -> Z -> Z -> list region) : Prop := {
  push_sub : forall l a n, 0 < n -> push l a n ⊆+ Region a n :: l;
  push_room : forall l a n, 0 < n -> Z.of_nat (length l) < cap -> push l a n = l ++ [Region a n];
  push_grow : forall l a n, (length l <= length (push l a n))%nat;
  push_cap : forall l a n, Z.of_nat (length l) <= cap -> Z.of_nat (length (push l a n)) <= cap;
  push_prefix : forall (P : region -> Prop) i l x a n,
    (i <= length l)%nat -> Forall P (take i l) -> P x -> P (Region a n) ->
    Forall P (take i (push (l ++ [x]) a n))
}.

#[export] Instance free_push_ok : PushOk YOS_MAX_FREE_REGIONS free_list_push_raw.
Proof.
  split.
  - intros. by apply free_list_push_raw_spec.
  - intros. by apply free_list_push_raw_spec.
  - intros l a n. unfold free_list_push_raw. destruct (n =? 0); [done|].
    destruct (Z.leb_spec YOS_MAX_FREE_REGIONS (Z.of_nat (length l))) as [Hc|]; rewrite length_app; simpl; [|lia].
    destruct l as [|x l']; [done|].
    pose proof (swap_remove_length 0 (x :: l') x eq_refl). lia.
  - intros l a n ?. destruct (Z.lt_trichotomy n 0) as [|[->|]]; [|done|by apply free_list_push_raw_spec].
    unfold free_list_push_raw, YOS_MAX_FREE_REGIONS in *. zcases.
    + destruct l as [|x l']; [simpl in *; lia|]. rewrite length_app.
      pose proof (swap_remove_length 0 (x :: l') x eq_refl). simpl in *. lia.
    + rewrite length_app. simpl. lia.
  - intros P i l x a n Hi Hl Hx Hn. unfold free_list_push_raw.
    destruct (n =? 0); [by rewrite take_app_le|].
    destruct (_ <=? _); [|by rewrite take_app_le, take_app_le by (rewrite ?length_app; simpl; lia)].
    rewrite swap_remove_snoc. case_decide; [|by rewrite take_app_le].
    rewrite take_app_le by (by rewrite length_insert).
    destruct i as [|i]; [constructor|]. destruct l; [done|]. simpl in *. by decompose_Forall_hyps; constructor.
Qed.

#[export] Instance live_push_ok : PushOk YOS_MAX_LIVE_REGIONS live_add.
Proof.
  split; unfold live_add, YOS_MAX_LIVE_REGIONS.
  - intros. destruct (Z.eqb_spec n 0); [lia|]. destruct (_ <=? _).
    + by apply submseteq_cons.
    + by rewrite <-Permutation_cons_append.
  - intros. destruct (Z.eqb_spec n 0); [lia|]. destruct (Z.leb_spec 128 (Z.of_nat (length l))); [lia|done].
  - intros l a n. destruct (n =? 0); [done|]. destruct (_ <=? _); [done|]. rewrite length_app. simpl. lia.
  - intros. destruct (n =? 0); [lia|]. destruct (Z.leb_spec 128 (Z.of_nat (length l))); [lia|].
    rewrite length_app. simpl. lia.
  - intros P i l x a n Hi Hl Hx Hn.
    destruct (n =? 0); [by rewrite take_app_le|].
    destruct (_ <=? _); [by rewrite take_app_le|].
    by rewrite take_app_le, take_app_le by (rewrite ?length_app; simpl; lia).
Qed.

Definition overlaps (addr stop : Z) (r : region) : Prop := addr < r_end r /\ r_addr r < stop.

#[export] Instance overlaps_dec addr stop r : Decision (overlaps addr stop r).
Proof. unfold overlaps. apply _. Defined.

(** The remainders of one region once [addr, stop) is cut out of it. *)
Definition remainders (addr stop : Z) (r : region) : list region :=
  (if r_addr r <? addr then [Region (r_addr r) (addr - r_addr r)] else []) ++
  (if stop <? r_end r then [Region stop (r_end r - stop)] else []).

Lemma remainders_bytes addr stop r a :
  0 < r_len r -> addr < stop -> overlaps addr stop r ->
  in_regions a (remainders addr stop r) <-> in_region a r /\ ~ (addr <= a < stop).
Proof.
  intros Hl Hs [Ho1 Ho2]. unfold remainders, r_end in *. rewrite in_regions_app.
  zcases; rewrite ?in_regions_cons, ?in_regions_nil; unfold in_region, r_end; simpl; intuition lia.
Qed.

Lemma remainders_ok t addr stop r :
  region_ok t r -> 0 <= addr -> addr < stop -> overlaps addr stop r ->
  Forall (region_ok t) (remainders addr stop r) /\ pairwise (remainders addr stop r) /\
  Forall (fun s => ~ overlaps addr stop s) (remainders addr stop r).
Proof.
  intros (Ha & Hl & He) ?? [Ho1 Ho2]. unfold remainders, r_end in *.
  zcases; (split; [|split]); rewrite ?Forall_cons, ?Forall_nil;
    unfold region_ok, overlaps, r_end; simpl; try lia.
  all: split_and?; try done; intros s Hs; set_unfold in Hs; try done.
  destruct Hs as [->|[]]. left. unfold r_end; simpl. lia.
Qed.

Section Cut.
Context (cap : Z) (push : list region -> Z -> Z -> list region) {Hpush : PushOk cap push}.
Context (t addr stop : Z) (Ht : t <= UINT32_MAX) (Ha : 0 <= addr) (Hs : addr < stop) (Hst : stop <= UINT32_MAX).

Record cut_inv (l0 : list region) (i : nat) (l : list region) : Prop := {
  ci_ok : Forall (region_ok t) l;
  ci_pw : pairwise l;
  ci_cap : Z.of_nat (length l) <= cap;
  ci_i : (i <= length l)%nat;
  ci_done : Forall (fun r => ~ overlaps addr stop r) (take i l);
  ci_sub : forall a, in_regions a l -> in_regions a l0;
  ci_len : (length l <= length l0)%nat \/
           (length l = S (length l0) /\ Forall (fun r => ~ overlaps addr stop r) l);
  ci_keep : Z.of_nat (length l0) < cap ->
            forall a, in_regions a l0 -> ~ (addr <= a < stop) -> in_regions a l
}.

Definition n_overlaps (l : list region) : nat := length (filter (overlaps addr stop) l).

Definition cut_measure (i : nat) (l : list region) : nat := (2 * n_overlaps l + length l - i)%nat.

(** The list after one cut. *)
Definition cut_at (i : nat) (l : list region) (r : region) : list region :=
  match remainders addr stop r with
  | [r1; r2] => push (swap_remove i l ++ [r1]) (r_addr r2) (r_len r2)
  | rs => swap_remove i l ++ rs
  end.

Lemma cut_step_eq i l r :
  l !! i = Some r -> region_ok t r -> Z.of_nat (length l) <= cap ->
  cut_step push addr stop (i, l) =
    if decide (overlaps addr stop r) then inl (i, cut_at i l r) else inl (S i, l).
Proof.
  intros Hi (Hr & Hl & He) Hc. simpl. rewrite Hi.
  unfold overlaps, cut_at, remainders, r_end, UINT32_MAX in *.
  pose proof (swap_remove_length i l r Hi) as Hlen.
  destruct (Z.leb_spec (r_addr r + r_len r) addr), (Z.leb_spec stop (r_addr r)); simpl;
    (case_decide; [|done || lia]); try lia.
  destruct (Z.ltb_spec (r_addr r) addr), (Z.ltb_spec stop (r_addr r + r_len r)); simpl;
    rewrite ?app_nil_r, ?(u32_small (addr - r_addr r)), ?(u32_small stop),
      ?(u32_small (r_addr r + r_len r - stop)) by lia; try done;
    by rewrite (push_room (swap_remove i l)) by lia.
Qed.

Lemma cut_at_cases i l r :
  l !! i = Some r -> Z.of_nat (length l) <= cap ->
  (cut_at i l r = swap_remove i l ++ remainders addr stop r /\ (length (remainders addr stop r) <= 1)%nat) \/
  (exists r1 r2, remainders addr stop r = [r1; r2] /\ r_addr r < addr /\ stop < r_end r /\
     cut_at i l r = push (swap_remove i l ++ [r1]) (r_addr r2) (r_len r2)).
Proof.
  intros Hi Hc. unfold cut_at, remainders.
  destruct (Z.ltb_spec (r_addr r) addr), (Z.ltb_spec stop (r_end r)); simpl;
    [right; eauto 10|left|left|left]; (split; [done|lia]).
Qed.

Lemma cut_at_sub i l r :
  l !! i = Some r -> region_ok t r -> Z.of_nat (length l) <= cap -> overlaps addr stop r ->
  cut_at i l r ⊆+ remainders addr stop r ++ swap_remove i l /\
  (Z.of_nat (length l) < cap -> cut_at i l r ≡ₚ remainders addr stop r ++ swap_remove i l) /\
  Z.of_nat (length (cut_at i l r)) <= cap /\ (i <= length (cut_at i l r))%nat.
Proof.
  intros Hi Hr Hc Ho. pose proof (swap_remove_length i l r Hi) as Hlen.
  apply lookup_lt_Some in Hi as Hil.
  destruct (remainders_ok t addr stop r Hr Ha Hs Ho) as (Hok & _ & _).
  destruct (cut_at_cases i l r Hi Hc) as [[-> Hrl]|(r1 & [a2 n2] & Hrem & _ & _ & ->)]; simpl.
  - split_and!; [by rewrite Permutation_app_comm|intros _; by rewrite Permutation_app_comm| |];
      rewrite length_app; lia.
  - rewrite Hrem in *. rewrite !Forall_cons in Hok. destruct Hok as (_ & (_ & Hn & _) & _). simpl in Hn.
    assert (Hp : Region a2 n2 :: swap_remove i l ++ [r1] ≡ₚ [r1; Region a2 n2] ++ swap_remove i l).
    { rewrite <-Permutation_cons_append. apply Permutation_swap. }
    pose proof (push_sub (PushOk := Hpush) (swap_remove i l ++ [r1]) a2 n2 Hn) as Hsub.
    pose proof (push_grow (PushOk := Hpush) (swap_remove i l ++ [r1]) a2 n2) as Hg.
    rewrite length_app in Hg; simpl in Hg.
    split_and!.
    + by rewrite Hp in Hsub.
    + intros. rewrite push_room, <-Permutation_cons_append by (rewrite ?length_app; simpl; lia). done.
    + apply push_cap. rewrite length_app. simpl. lia.
    + lia.
Qed.

Lemma cut_at_done i l r :
  l !! i = Some r -> region_ok t r -> Z.of_nat (length l) <= cap -> overlaps addr stop r ->
  Forall (fun s => ~ overlaps addr stop s) (take i l) ->
  Forall (fun s => ~ overlaps addr stop s) (take i (cut_at i l r)).
Proof.
  intros Hi Hr Hc Ho Hd. apply lookup_lt_Some in Hi as Hil.
  pose proof (swap_remove_length i l r Hi) as Hlen.
  assert (Htk : Forall (fun s => ~ overlaps addr stop s) (take i (swap_remove i l))).
  { destruct l as [|y l' _] using rev_ind; [done|]. rewrite length_app in Hil; simpl in Hil.
    rewrite take_app_le in Hd by lia. rewrite swap_remove_snoc. case_decide; [|done].
    by rewrite take_insert_ge. }
  destruct (remainders_ok t addr stop r Hr Ha Hs Ho) as (_ & _ & Hn).
  destruct (cut_at_cases i l r Hi Hc) as [[-> _]|(r1 & [a2 n2] & Hrem & _ & _ & ->)]; simpl.
  - by rewrite take_app_le by lia.
  - rewrite Hrem, !Forall_cons in Hn. destruct Hn as (? & ? & _).
    apply push_prefix; [lia|done..].
Qed.

Lemma overlap_unique l r :
  Forall (region_ok t) l -> pairwise (r :: l) -> r_addr r < addr -> stop < r_end r ->
  Forall (fun s => ~ overlaps addr stop s) l.
Proof.
  intros Hok [Hd _] H1 H2. rewrite Forall_forall. intros s Hs' [Ho1 Ho2].
  destruct (Hd s Hs'); lia.
Qed.

Lemma cut_step_inv l0 i l :
  cut_inv l0 i l ->
  match cut_step push addr stop (i, l) with
  | inl (i', l') => cut_inv l0 i' l' /\ (cut_measure i' l' < cut_measure i l)%nat
  | inr l' => l' = l /\ i = length l
  end.
Proof.
  intros [Hok Hpw Hc Hi Hd Hsub Hlen Hkeep].
  destruct (l !! i) as [r|] eqn:Hr.
  2: { simpl. rewrite Hr. split; [done|]. apply lookup_ge_None in Hr. lia. }
  assert (Hrok : region_ok t r) by (rewrite Forall_forall in Hok; eapply Hok, list_elem_of_lookup_2, Hr).
  apply lookup_lt_Some in Hr as Hil.
  rewrite (cut_step_eq i l r) by done. case_decide as Ho.
  2: { split; [|unfold cut_measure; lia]. split; try done.
       erewrite take_S_r by done. rewrite Forall_app. split; [done|by constructor]. }
  pose proof (swap_remove_Permutation i l r Hr) as Hp.
  pose proof (swap_remove_length i l r Hr) as Hl1.
  destruct (cut_at_sub i l r Hr Hrok Hc Ho) as (Hcs & Hroom & Hcap' & Hi').
  destruct (remainders_ok t addr stop r Hrok Ha Hs Ho) as (Hrem & Hrpw & Hrn).
  assert (Hb := fun a => remainders_bytes addr stop r a (proj1 (proj2 Hrok)) Hs Ho).
  rewrite Hp in Hok, Hpw. apply Forall_cons in Hok as [_ Hok1]. destruct Hpw as [Hdis Hpw1].
  assert (Hall : pairwise (remainders addr stop r ++ swap_remove i l)).
  { rewrite pairwise_app. split_and!; [done|done|].
    apply (apart_of_bytes t t); [done|done|]. intros a Har (s & Hs' & Has).
    apply Hb in Har as [Har _]. by eapply disjoint_r_bytes; [apply Hdis|..]. }
  split.
  - split.
    + eapply Forall_submseteq; [done|]. by apply Forall_app.
    + by eapply pairwise_submseteq.
    + done.
    + done.
    + by apply cut_at_done.
    + intros a Hin. apply Hsub. eapply in_regions_submseteq in Hin; [|done].
      rewrite (in_regions_proper a l _ Hp), in_regions_cons.
      apply in_regions_app in Hin as [Hin|Hin]; [left|by right].
      by apply Hb in Hin as [? _].
    + pose proof (submseteq_length _ _ Hcs) as Hle. rewrite length_app in Hle.
      destruct Hlen as [Hlen|[Hlen Hno]].
      2: { exfalso. rewrite Hp, Forall_cons in Hno. tauto. }
      destruct (cut_at_cases i l r Hr Hc) as [[_ Hone]|(r1 & r2 & Hr2 & Hx & Hy & _)]; [left; lia|].
      rewrite Hr2 in Hle; simpl in Hle.
      destruct (decide (length (cut_at i l r) = S (length l0))) as [Heq|]; [right|left; lia].
      split; [done|]. eapply Forall_submseteq; [done|]. apply Forall_app. split; [done|].
      apply (overlap_unique _ r); done.
    + intros Hc0 a Ha0 Hna. specialize (Hkeep Hc0 a Ha0 Hna).
      assert (Hlt : Z.of_nat (length l) < cap).
      { destruct Hlen as [|[_ Hno]]; [lia|]. exfalso. rewrite Hp, Forall_cons in Hno. tauto. }
      rewrite (in_regions_proper a _ _ (Hroom Hlt)), in_regions_app.
      rewrite (in_regions_proper a l _ Hp), in_regions_cons in Hkeep.
      destruct Hkeep as [Hk|Hk]; [left|by right]. by apply Hb.
  - unfold cut_measure, n_overlaps.
    pose proof (submseteq_length _ _ Hcs) as Hle. rewrite length_app in Hle.
    assert (Hfil : (length (filter (overlaps addr stop) (cut_at i l r)) <=
      length (filter (overlaps addr stop) (swap_remove i l)))%nat).
    { etransitivity; [apply filter_length_submseteq, Hcs|].
      by rewrite filter_app, (filter_none _ (remainders addr stop r)). }
    assert (Hfl : length (filter (overlaps addr stop) l) =
      S (length (filter (overlaps addr stop) (swap_remove i l)))).
    { rewrite Hp at 1. by rewrite filter_cons_True. }
    destruct (cut_at_cases i l r Hr Hc) as [[_ Hone]|(r1 & r2 & Hr2 & _)];
      [|rewrite Hr2 in Hle; simpl in Hle]; lia.
Qed.

Lemma cut_loop l0 n i l :
  cut_inv l0 i l -> (cut_measure i l < n)%nat ->
  exists l', loop_nat (cut_step push addr stop) n (i, l) = inr l' /\ cut_inv l0 (length l') l'.
Proof.
  revert i l. induction n as [|n IH]; intros i l Hinv Hm; [lia|].
  pose proof (cut_step_inv l0 i l Hinv) as Hstep. cbn [loop_nat].
  destruct (cut_step push addr stop (i, l)) as [[i' l']|l'].
  - destruct Hstep as [Hinv' Hlt]. apply IH; [done|lia].
  - destruct Hstep as [-> ->]. eauto.
Qed.
End Cut.

(** [carve_free_range] and [live_remove] terminate within their fuel; the
    result never overlaps the range, holds only bytes that were there, and
    holds all of them outside the range while the table has room. *)
Lemma cut_range_spec cap push `{!PushOk cap push} t l addr len :
  t <= UINT32_MAX -> Forall (region_ok t) l -> pairwise l -> Z.of_nat (length l) <= cap ->
  0 <= addr -> 0 < len -> addr + len <= UINT32_MAX ->
  let l' := cut_range push l addr len in
  Forall (region_ok t) l' /\ pairwise l' /\ Z.of_nat (length l') <= cap /\
  (length l' <= S (length l))%nat /\
  (forall a, in_regions a l' -> in_regions a l /\ ~ (addr <= a < addr + len)) /\
  (Z.of_nat (length l) < cap ->
   forall a, in_regions a l -> ~ (addr <= a < addr + len) -> in_regions a l').
Proof.
  intros Ht Hok Hpw Hc Ha Hl He. unfold cut_range.
  destruct (cut_loop cap push t addr (addr + len) Ht Ha ltac:(lia) He l (S (3 * length l)) 0 l)
    as (l' & -> & [Hok' Hpw' Hc' _ Hd Hsub Hlen Hkeep]).
  - split; try done; [lia|by left].
  - unfold cut_measure, n_overlaps. pose proof (length_filter (overlaps addr (addr + len)) l). lia.
  - split_and!; try done; [by destruct Hlen as [?|[-> _]]; lia|]. intros a Hin. split; [by apply Hsub|].
    rewrite firstn_all in Hd. destruct Hin as (r & Hr & Har). rewrite Forall_forall in Hd.
    intros Hb. apply (Hd r Hr). unfold overlaps, in_region in *. lia.
Qed.
