(* ===== verification/VmProps.v ===== *)
(** What brk, mmap, munmap and mremap guarantee: the memory-map invariant
    [vm_ok], the all-zero free memory [vm_zero], the per-operation
    specifications, traces of operations and their properties. *)
From stdpp Require Import gmap.
From S2P Require Import Prelude Memory Ctx Vm VmTables.

(** * The memory map invariant *)

(** Every region lies below the mmap cursor, the two tables hold pairwise
    disjoint regions within their capacities, the brk stays below the cursor. *)
Record vm_ok (c : exec_ctx) : Prop := {
  vm_size : 0 < memory_size c <= UINT32_MAX;
  vm_anchor : memory_size c / 2 <= mmap_anchor c <= memory_size c /\ 0 < mmap_anchor c;
  vm_heap : 0 <= heap_end c <= mmap_anchor c;
  vm_free : Forall (region_ok (mmap_anchor c)) (free_list c);
  vm_live : Forall (region_ok (mmap_anchor c)) (live_list c);
  vm_pw : pairwise (free_list c ++ live_list c);
  vm_fcap : Z.of_nat (length (free_list c)) <= YOS_MAX_FREE_REGIONS;
  vm_lcap : Z.of_nat (length (live_list c)) <= YOS_MAX_LIVE_REGIONS
}.

(** Free memory is zero, so a mapping that reuses it needs no clearing. *)
Definition vm_zero (c : exec_ctx) : Prop :=
  forall a, in_regions a (free_list c) -> ld8 (mem c) a = 0.

(** The same, but for the bytes of [D]: those a guest stored to while they
    were free (through the brk heap grown over them, or a stray pointer). *)
Definition zero_but (D : Z -> Prop) (c : exec_ctx) : Prop :=
  forall a, in_regions a (free_list c) -> ~ D a -> ld8 (mem c) a = 0.

Lemma vm_zero_but c : vm_zero c <-> zero_but (fun _ => False) c.
Proof. unfold vm_zero, zero_but. split; intros H a Ha; auto. Qed.

Definition is_live (c : exec_ctx) (a : Z) : Prop := in_regions a (live_list c).
Definition is_free (c : exec_ctx) (a : Z) : Prop := in_regions a (free_list c).

Lemma region_ok_mono t t' l : t <= t' -> Forall (region_ok t) l -> Forall (region_ok t') l.
Proof. intros Ht H. eapply Forall_impl; [exact H|]. unfold region_ok. intros r ?. lia. Qed.

Lemma live_add_spec t l a n :
  Forall (region_ok t) l -> pairwise (Region a n :: l) -> region_ok t (Region a n) ->
  Z.of_nat (length l) <= YOS_MAX_LIVE_REGIONS ->
  Forall (region_ok t) (live_add l a n) /\ pairwise (live_add l a n) /\
  Z.of_nat (length (live_add l a n)) <= YOS_MAX_LIVE_REGIONS /\
  (forall b, in_regions b (live_add l a n) -> in_regions b (Region a n :: l)) /\
  (Z.of_nat (length l) < YOS_MAX_LIVE_REGIONS ->
   forall b, in_regions b (live_add l a n) <-> in_regions b (Region a n :: l)).
Proof.
  intros Hok Hpw Hr Hc. assert (Hn : 0 < n) by apply Hr.
  pose proof (push_sub (PushOk := live_push_ok) l a n Hn) as Hsub.
  split_and!.
  - eapply Forall_submseteq; [done|]. by constructor.
  - by eapply pairwise_submseteq.
  - by apply (push_cap (PushOk := live_push_ok)).
  - intros b. by apply in_regions_submseteq.
  - intros Hl b. by rewrite (push_room (PushOk := live_push_ok)), <-Permutation_cons_append.
Qed.

(** Disjointness of a fresh range from a table, from the bytes. *)
Lemma pairwise_cons_bytes t r l :
  region_ok t r -> Forall (region_ok t) l -> pairwise l ->
  (forall a, in_region a r -> in_regions a l -> False) -> pairwise (r :: l).
Proof.
  intros Hr Hl Hpw Hb. split; [|done]. intros s Hs.
  apply (apart_of_bytes t t [r] l); [by constructor|done| |by apply list_elem_of_singleton|done].
  intros a Ha. rewrite in_regions_cons, in_regions_nil in Ha. destruct Ha as [Ha|[]]. by apply Hb.
Qed.

Lemma pairwise_app_bytes t l1 l2 :
  Forall (region_ok t) l1 -> Forall (region_ok t) l2 -> pairwise l1 -> pairwise l2 ->
  (forall a, in_regions a l1 -> in_regions a l2 -> False) -> pairwise (l1 ++ l2).
Proof. intros. rewrite pairwise_app. split_and!; [done..|]. by eapply apart_of_bytes. Qed.

Lemma pairwise_app_inv l1 l2 a :
  pairwise (l1 ++ l2) -> pairwise l1 /\ pairwise l2 /\ (in_regions a l1 -> in_regions a l2 -> False).
Proof. rewrite pairwise_app. intros (? & ? & ?). split_and!; [done..|]. by apply apart_bytes. Qed.

(** What a successful mapping of [a, a + len) promises, when the free bytes of
    [D] may be dirty. *)
Record maps (D : Z -> Prop) (c c' : exec_ctx) (a len : Z) : Prop := {
  mp_pos : 0 < a;
  mp_end : a + len <= memory_size c;
  mp_zero : forall b, a <= b < a + len -> ~ D b -> ld8 (mem c') b = 0;
  mp_frame : forall b, ~ (a <= b < a + len) -> ld8 (mem c') b = ld8 (mem c) b;
  mp_live : forall b, is_live c' b -> is_live c b \/ a <= b < a + len;
  mp_owned : Z.of_nat (length (live_list c)) + 1 < YOS_MAX_LIVE_REGIONS ->
             forall b, is_live c b \/ a <= b < a + len -> is_live c' b;
  mp_free : forall b, is_free c' b -> is_free c b /\ ~ (a <= b < a + len);
  mp_size : memory_size c' = memory_size c;
  mp_heap : heap_end c' = heap_end c
}.

(** The new state, given what happened to its parts. *)
Lemma vm_ok_intro c c' :
  vm_ok c -> memory_size c' = memory_size c -> heap_end c' = heap_end c ->
  mmap_anchor c <= mmap_anchor c' <= memory_size c ->
  Forall (region_ok (mmap_anchor c')) (free_list c') -> pairwise (free_list c') ->
  Forall (region_ok (mmap_anchor c')) (live_list c') -> pairwise (live_list c') ->
  (forall b, is_free c' b -> is_live c' b -> False) ->
  Z.of_nat (length (free_list c')) <= YOS_MAX_FREE_REGIONS ->
  Z.of_nat (length (live_list c')) <= YOS_MAX_LIVE_REGIONS -> vm_ok c'.
Proof.
  intros [? [? ?] ? ? ? ? ? ?] Hs Hh Ht Hf Hfp Hl Hlp Hd Hfc Hlc.
  split; rewrite ?Hs, ?Hh; try done; try lia. eapply pairwise_app_bytes; eauto.
Qed.

Lemma mmap_anchor_pos c : vm_ok c -> 0 < mmap_anchor c.
Proof. by intros [? [? ?] ? ? ? ? ? ?]. Qed.

Lemma find_free_zero c len l' :
  vm_ok c -> 0 < len -> find_free_region (free_list c) len = (0, l') ->
  l' = free_list c /\ forall r, r ∈ free_list c -> r_len r < len.
Proof.
  intros Hok Hl Hf. destruct Hok as [? ? ? Hfr ? ? ? ?].
  destruct (find_free_region_spec _ _ len Hfr ltac:(lia) Hl) as [[He ?]|(r & rest & l'' & He & Hp & _)].
  - rewrite He in Hf. by simplify_eq.
  - rewrite He in Hf. simplify_eq. rewrite Hp in Hfr. apply Forall_cons in Hfr as [(? & ? & ?) _]. lia.
Qed.

Lemma find_free_some c len a l' :
  vm_ok c -> 0 < len -> a <> 0 -> find_free_region (free_list c) len = (a, l') ->
  0 < a /\ a + len <= mmap_anchor c /\ Forall (region_ok (mmap_anchor c)) l' /\ pairwise l' /\
  Z.of_nat (length l') <= YOS_MAX_FREE_REGIONS /\
  (forall b, a <= b < a + len -> is_free c b) /\
  (forall b, in_regions b l' -> is_free c b /\ ~ (a <= b < a + len)).
Proof.
  intros Hok Hl Hne Hf. destruct Hok as [? ? ? Hfr ? Hpw Hfc ?].
  apply (pairwise_app_inv _ _ 0) in Hpw as (Hpf & _ & _).
  destruct (find_free_region_spec _ _ len Hfr ltac:(lia) Hl) as [[He ?]|(r & rest & l'' & He & Hp & Hfit & _ & Hc)];
    rewrite He in Hf; simplify_eq.
  pose proof Hp as Hlen. apply Permutation_length in Hlen. simpl in Hlen.
  rewrite Hp in Hfr, Hpf. apply Forall_cons in Hfr as [(Hra & Hrl & Hre) Hrest].
  destruct Hpf as [Hd Hpr]. unfold is_free. unfold r_end in *.
  assert (Hrb : forall b, in_regions b rest -> ~ in_region b r).
  { intros b (s & Hs & Hb) Hbr. by eapply disjoint_r_bytes; [apply (Hd s Hs)| |]. }
  assert (Hin : forall b, in_regions b (free_list c) <-> in_region b r \/ in_regions b rest).
  { intros b. by rewrite (in_regions_proper b _ _ Hp), in_regions_cons. }
  destruct Hc as [[Hbig Hp']|[Hsm Hp']]; pose proof Hp' as Hlen'; apply Permutation_length in Hlen'; simpl in Hlen'.
  - assert (Hpw' : pairwise (Region (r_addr r + len) (r_len r - len) :: rest)).
    { split; [|done]. intros s Hs. destruct (Hd s Hs); unfold disjoint_r, r_end in *; simpl; lia. }
    rewrite <-Hp' in Hpw'. split_and!; try lia; try done.
    + rewrite Hp'. constructor; [unfold region_ok, r_end; simpl; lia|done].
    + intros b Hb. apply Hin. left. unfold in_region, r_end. lia.
    + intros b Hb. rewrite (in_regions_proper b _ _ Hp'), in_regions_cons in Hb. rewrite Hin.
      destruct Hb as [Hb|Hb]; [unfold in_region, r_end in *; simpl in *; split; [left|]; lia|].
      split; [by right|]. specialize (Hrb b Hb). unfold in_region, r_end in Hrb. lia.
  - rewrite <-Hp' in Hpr. split_and!; try lia; try done.
    + by rewrite Hp'.
    + intros b Hb. apply Hin. left. unfold in_region, r_end. lia.
    + intros b Hb. rewrite (in_regions_proper b _ _ Hp') in Hb. rewrite Hin.
      split; [by right|]. specialize (Hrb b Hb). unfold in_region, r_end in Hrb. lia.
Qed.

Lemma vm_disjoint c b : vm_ok c -> is_free c b -> is_live c b -> False.
Proof. intros [? ? ? ? ? Hpw ? ?]. by apply (pairwise_app_inv _ _ b) in Hpw as (_ & _ & ?). Qed.

(** Recording a range no live byte of which is tracked. *)
Lemma live_add_fresh t l a len :
  Forall (region_ok t) l -> pairwise l -> Z.of_nat (length l) <= YOS_MAX_LIVE_REGIONS ->
  0 < a -> 0 < len -> a + len <= t -> (forall b, a <= b < a + len -> ~ in_regions b l) ->
  Forall (region_ok t) (live_add l a len) /\ pairwise (live_add l a len) /\
  Z.of_nat (length (live_add l a len)) <= YOS_MAX_LIVE_REGIONS /\
  (forall b, in_regions b (live_add l a len) -> in_regions b l \/ a <= b < a + len) /\
  (Z.of_nat (length l) < YOS_MAX_LIVE_REGIONS ->
   forall b, in_regions b l \/ a <= b < a + len -> in_regions b (live_add l a len)).
Proof.
  intros Hl Hp Hc Ha Hn Ht Hf.
  assert (Hr : region_ok t (Region a len)) by (split_and!; done).
  destruct (live_add_spec t l a len) as (? & ? & ? & Hsub & Hroom); try done.
  { eapply pairwise_cons_bytes; [done..|]. intros b Hb. by apply Hf. }
  split_and!; try done.
  - intros b Hb. apply Hsub, in_regions_cons in Hb as [Hb|Hb]; [by right|by left].
  - intros Hcap b Hb. apply Hroom, in_regions_cons; [done|]. destruct Hb; [by right|by left].
Qed.

Definition fresh_mapping (D : Z -> Prop) (c c' : exec_ctx) (a len : Z) : Prop :=
  maps D c c' a len /\ forall b, a <= b < a + len -> ~ is_live c b.

(** Reusing a freed region. *)
Lemma mmap2_reuse_spec D c len a l' :
  vm_ok c -> zero_but D c -> 0 < len -> a <> 0 -> find_free_region (free_list c) len = (a, l') ->
  let c' := set_live_list (live_add (live_list c) a len) (set_free_list l' c) in
  vm_ok c' /\ zero_but D c' /\ fresh_mapping D c c' a len.
Proof.
  intros Hok Hz Hl Hne Hf c'.
  pose proof Hok as [Hsz [Htop Htp] Hheap Hfr Hlv Hpw Hfc Hlc].
  pose proof (pairwise_app_inv _ _ 0 Hpw) as (Hpf & Hpl & _).
  destruct (find_free_some c len a l' Hok Hl Hne Hf) as (Ha & He & Hfr' & Hpf' & Hfc' & Hin & Hout).
  assert (Hfresh : forall b, a <= b < a + len -> ~ in_regions b (live_list c)).
  { intros b Hb Hlb. eapply vm_disjoint; [done|by apply Hin|done]. }
  destruct (live_add_fresh (mmap_anchor c) (live_list c) a len)
    as (Hlv' & Hpl' & Hlc' & Hsub & Hroom); try done.
  assert (Hc' : mmap_anchor c' = mmap_anchor c) by done.
  split_and!.
  - apply (vm_ok_intro c); rewrite ?Hc'; try done; try lia.
    intros b Hb1 Hb2. apply Hout in Hb1 as [Hb1 Hb3].
    apply Hsub in Hb2 as [Hb2|Hb2]; [by eapply vm_disjoint|done].
  - intros b Hb. apply Hz. by apply Hout.
  - split; [|done]. split; try done; try lia.
    + intros b Hb. apply Hz. by apply Hin.
    + intros Hcap. apply Hroom. lia.
Qed.

(** Moving the cursor. *)
Lemma mmap2_bump_spec D c len :
  vm_ok c -> zero_but D c -> 0 < len -> mmap_anchor c + len <= memory_size c ->
  let a := mmap_anchor c in
  let c' := set_mem (memset (mem c) a 0 len)
              (set_live_list (live_add (live_list c) a len) (set_mmap_top (a + len) c)) in
  vm_ok c' /\ zero_but D c' /\ fresh_mapping D c c' a len.
Proof.
  intros Hok Hz Hl Hfit a c'.
  pose proof Hok as [Hsz [Htop Htp] Hheap Hfr Hlv Hpw Hfc Hlc].
  pose proof (pairwise_app_inv _ _ 0 Hpw) as (Hpf & Hpl & _).
  assert (Hc' : mmap_anchor c' = a + len).
  { unfold mmap_anchor, c', a; simpl. destruct (Z.eqb_spec (mmap_anchor c + len) 0); [lia|done]. }
  assert (Hout : forall b l, Forall (region_ok a) l -> a <= b -> ~ in_regions b l).
  { intros b l Hl' Hb (s & Hs & _ & Hbs). rewrite Forall_forall in Hl'.
    destruct (Hl' s Hs) as (_ & _ & ?). lia. }
  destruct (live_add_fresh (a + len) (live_list c) a len)
    as (Hlv' & Hpl' & Hlc' & Hsub & Hroom); try done; try lia.
  { eapply region_ok_mono; [|done]; lia. }
  { intros b [Hb _]. by apply (Hout b). }
  split_and!.
  - apply (vm_ok_intro c); rewrite ?Hc'; try done; try lia.
    { eapply region_ok_mono; [|done]; lia. }
    intros b Hb1 Hb2. apply Hsub in Hb2 as [Hb2|[Hb2 _]]; [by eapply vm_disjoint|by apply (Hout b (free_list c))].
  - intros b Hb; simpl. rewrite ld8_memset_out; [by apply Hz|].
    destruct (Z.lt_ge_cases b a) as [|Hge]; [by left|]. exfalso. by apply (Hout b (free_list c)).
  - split; [|intros b [Hb _]; by apply (Hout b)]. split; try done; try lia; simpl.
    + intros b Hb. by rewrite ld8_memset_in.
    + intros b Hb. apply ld8_memset_out. lia.
    + intros Hcap. apply Hroom. lia.
    + intros b Hb. split; [done|]. intros [Hb2 _]. by apply (Hout b (free_list c)).
Qed.

(** Anonymous mapping: either nothing but the cursor's initialisation happens
    and the answer is [-ENOMEM], or a fresh zeroed range is handed out. *)
Lemma mmap2_anon_spec D c len :
  vm_ok c -> zero_but D c -> 0 < len ->
  let '(r, c') := mmap2_anon c len in
  vm_ok c' /\ zero_but D c' /\
  ((r = - ENOMEM /\ c' = set_mmap_top (mmap_anchor c) c /\
    memory_size c < mmap_anchor c + len /\ forall s, s ∈ free_list c -> r_len s < len) \/
   (exists a, r = s32 a /\ fresh_mapping D c c' a len)).
Proof.
  intros Hok Hz Hl. unfold mmap2_anon.
  destruct (find_free_region (free_list c) len) as [a l'] eqn:Hf.
  destruct (Z.eqb_spec a 0) as [->|Hne]; cbn [negb].
  2: { destruct (mmap2_reuse_spec D c len a l' Hok Hz Hl Hne Hf) as (? & ? & ?). split_and!; eauto. }
  destruct (find_free_zero c len l' Hok Hl Hf) as [-> Hno].
  pose proof Hok as [Hsz [Htop Htp] Hheap Hfr Hlv Hpw Hfc Hlc].
  pose proof (pairwise_app_inv _ _ 0 Hpw) as (Hpf & Hpl & _).
  replace (set_free_list (free_list c) c) with c by (by destruct c).
  cbn [mmap_top set_mmap_top heap_end memory_size].
  destruct (Z.ltb_spec (mmap_anchor c) (heap_end c)); [lia|].
  destruct (Z.ltb_spec (memory_size c) (mmap_anchor c + len)).
  - assert (Hc1 : mmap_anchor (set_mmap_top (mmap_anchor c) c) = mmap_anchor c).
    { unfold mmap_anchor at 1. simpl. destruct (Z.eqb_spec (mmap_anchor c) 0); [lia|done]. }
    split_and!; [|exact Hz|by left].
    apply (vm_ok_intro c); rewrite ?Hc1; try done; try lia. intros b ??. by eapply (vm_disjoint c).
  - rewrite u32_small by (unfold UINT32_MAX in *; lia).
    destruct (mmap2_bump_spec D c len) as (? & ? & ?); [done|done|lia|lia|]. split_and!; eauto.
Qed.

(** [MAP_FIXED]: refused outside memory or over the brk heap, otherwise the
    range is mapped whatever was there. *)
Lemma mmap2_fixed_spec D c addr len :
  vm_ok c -> zero_but D c -> 0 < addr -> 0 < len ->
  let '(r, c') := mmap2_fixed c addr len in
  (r = - ENOMEM /\ c' = c /\ memory_size c < addr + len) \/
  (r = - EINVAL /\ c' = c /\ addr < heap_end c) \/
  (r = s32 addr /\ heap_end c <= addr /\ vm_ok c' /\ zero_but D c' /\ maps D c c' addr len).
Proof.
  intros Hok Hz Ha Hl. unfold mmap2_fixed.
  destruct (Z.ltb_spec (memory_size c) (addr + len)); [by left|].
  destruct (Z.ltb_spec addr (heap_end c)); [by right; left|]. right; right.
  pose proof Hok as [Hsz [Htop Htp] Hheap Hfr Hlv Hpw Hfc Hlc].
  pose proof (pairwise_app_inv _ _ 0 Hpw) as (Hpf & Hpl & _).
  unfold UINT32_MAX in *. rewrite u32_small by lia.
  set (top' := if mmap_anchor c <? addr + len then addr + len else mmap_anchor c).
  assert (Ht' : mmap_anchor c <= top' <= memory_size c /\ addr + len <= top' /\ top' <> 0).
  { unfold top'. destruct (Z.ltb_spec (mmap_anchor c) (addr + len)); lia. }
  destruct (cut_range_spec _ live_add (mmap_anchor c) (live_list c) addr len)
    as (Hl1 & Hl2 & Hl3 & Hl4 & Hl5 & Hl6); unfold UINT32_MAX; try done; try lia.
  destruct (cut_range_spec _ free_list_push_raw (mmap_anchor c) (free_list c) addr len)
    as (Hf1 & Hf2 & Hf3 & _ & Hf5 & _); unfold UINT32_MAX; try done; try lia.
  destruct (live_add_fresh top' (live_remove (live_list c) addr len) addr len)
    as (Hv1 & Hv2 & Hv3 & Hv4 & Hv5); try done; try lia.
  { eapply region_ok_mono; [|done]; lia. }
  { intros b Hb Hin. by apply Hl5 in Hin as [_ ?]. }
  fold (live_remove (live_list c) addr len) in *. fold (carve_free_range (free_list c) addr len) in *.
  set (c' := set_mem _ _).
  assert (Hc' : mmap_anchor c' = top').
  { unfold mmap_anchor at 1. simpl. destruct (Z.eqb_spec top' 0); [lia|done]. }
  split_and!; try done.
  - apply (vm_ok_intro c); rewrite ?Hc'; try done; try lia.
    { eapply region_ok_mono; [|done]; lia. }
    intros b Hb1 Hb2. apply Hf5 in Hb1 as [Hb1 Hb3].
    apply Hv4 in Hb2 as [Hb2|Hb2]; [|done]. apply Hl5 in Hb2 as [Hb2 _]. by eapply (vm_disjoint c).
  - intros b Hb. apply Hf5 in Hb as [Hb Hn]. simpl. rewrite ld8_memset_out by lia. by apply Hz.
  - split; try done; try lia; simpl.
    + intros b Hb. by rewrite ld8_memset_in.
    + intros b Hb. apply ld8_memset_out. lia.
    + intros b Hb. apply Hv4 in Hb as [Hb|Hb]; [left; by apply Hl5|by right].
    + intros Hcap b Hb. apply Hv5; [lia|]. destruct (decide (addr <= b < addr + len)); [by right|left].
      destruct Hb; [|done]. apply Hl6; [lia|done..].
Qed.

(** ** munmap *)

(** The state of [yos_munmap]'s walk after the live regions [done]. *)
Record munmap_inv (c : exec_ctx) (addr stop : Z) (done : list region)
    (s : memory * list region * bool) : Prop := {
  mu_ok : Forall (region_ok (mmap_anchor c)) s.1.2;
  mu_pw : pairwise s.1.2;
  mu_cap : Z.of_nat (length s.1.2) <= YOS_MAX_FREE_REGIONS;
  mu_len : (length s.1.2 <= length (free_list c) + length done)%nat;
  mu_sub : forall b, in_regions b s.1.2 -> is_free c b \/ (in_regions b done /\ addr <= b < stop);
  mu_keep : Z.of_nat (length (free_list c) + length done) <= YOS_MAX_FREE_REGIONS ->
            forall b, is_free c b \/ (in_regions b done /\ addr <= b < stop) -> in_regions b s.1.2;
  mu_zero : forall b, in_regions b done -> addr <= b < stop -> ld8 s.1.1 b = 0;
  mu_frame : forall b, ~ (in_regions b done /\ addr <= b < stop) -> ld8 s.1.1 b = ld8 (mem c) b;
  mu_freed : s.2 = true <-> exists r, r ∈ done /\ overlaps addr stop r
}.

(** The bytes one iteration releases. *)
Lemma overlap_range addr stop r b :
  let lo := if addr <? r_addr r then r_addr r else addr in
  let hi := if r_end r <? stop then r_end r else stop in
  (lo <= b < hi <-> in_region b r /\ addr <= b < stop) /\
  (hi <= lo -> 0 < r_len r -> addr < stop -> ~ overlaps addr stop r) /\
  (lo < hi -> overlaps addr stop r).
Proof.
  unfold in_region, overlaps, r_end. zcases; intuition lia.
Qed.

Lemma in_regions_snoc b P r : in_regions b (P ++ [r]) <-> in_regions b P \/ in_region b r.
Proof. rewrite in_regions_app, in_regions_cons, in_regions_nil. tauto. Qed.

Lemma overlaps_snoc addr stop P r :
  (exists s, s ∈ P ++ [r] /\ overlaps addr stop s) <->
  (exists s, s ∈ P /\ overlaps addr stop s) \/ overlaps addr stop r.
Proof.
  setoid_rewrite elem_of_app. setoid_rewrite list_elem_of_singleton. split.
  - intros (s & [Hs| ->] & Ho); eauto.
  - intros [(s & Hs & Ho)|Ho]; eauto.
Qed.

(** A live region outside the range changes nothing. *)
Lemma munmap_inv_skip c addr stop P r s :
  (forall b, in_region b r -> addr <= b < stop -> False) -> ~ overlaps addr stop r ->
  munmap_inv c addr stop P s -> munmap_inv c addr stop (P ++ [r]) s.
Proof.
  intros Hnb Hno [Hmok Hmpw Hmcap Hmlen Hmsub Hmkeep Hmz Hmf Hfreed].
  split; try done; rewrite ?length_app; simpl; try lia.
  - intros b Hb. rewrite in_regions_snoc. apply Hmsub in Hb. tauto.
  - intros Hc b Hb. rewrite in_regions_snoc in Hb. specialize (Hnb b). apply Hmkeep; [lia|]. tauto.
  - intros b Hb Hbr. rewrite in_regions_snoc in Hb. specialize (Hnb b). apply Hmz; tauto.
  - intros b Hb. rewrite in_regions_snoc in Hb. apply Hmf. tauto.
  - rewrite overlaps_snoc, Hfreed. tauto.
Qed.

(** A live region that meets the range in [lo, hi). *)
Lemma munmap_inv_free c addr stop P r m fl freed lo hi :
  vm_ok c -> (forall b, lo <= b < hi <-> in_region b r /\ addr <= b < stop) ->
  lo < hi -> 0 < lo -> hi <= mmap_anchor c -> overlaps addr stop r ->
  (forall b, in_region b r -> in_regions b fl -> False) ->
  munmap_inv c addr stop P (m, fl, freed) ->
  munmap_inv c addr stop (P ++ [r]) (memset m lo 0 (hi - lo), add_free_region fl lo (hi - lo), true).
Proof.
  intros Hok Hrng Hlt Hlo Hhi Hyes Hdisj [Hmok Hmpw Hmcap Hmlen Hmsub Hmkeep Hmz Hmf Hfreed]; simpl in *.
  pose proof Hok as [Hsz [Htop _] _ _ _ _ Hfc _].
  assert (Hnew : forall b, in_region b (Region lo (hi - lo)) <-> in_region b r /\ addr <= b < stop).
  { intros b. rewrite <-Hrng. unfold in_region, r_end; simpl. lia. }
  assert (Hrok : region_ok (mmap_anchor c) (Region lo (hi - lo))) by (unfold region_ok, r_end; simpl; lia).
  destruct (add_free_region_spec (mmap_anchor c) fl lo (hi - lo)) as (Ho & Hp & Hc & Hl & Hsub & Hroom);
    try done; [lia|by constructor| |].
  { eapply pairwise_cons_bytes; try done. intros b Hb. apply Hdisj. by apply Hnew. }
  split; simpl; try done; rewrite ?length_app; simpl; try lia.
  - intros b Hb. rewrite in_regions_snoc. apply Hsub, in_regions_cons in Hb as [Hb|Hb];
      [apply Hnew in Hb|apply Hmsub in Hb]; tauto.
  - intros Hcap b Hb. unfold YOS_MAX_FREE_REGIONS in *. apply Hroom; [lia|]. apply in_regions_cons.
    rewrite in_regions_snoc in Hb. specialize (Hmkeep ltac:(lia) b). rewrite Hnew. tauto.
  - intros b Hb Hbr. rewrite in_regions_snoc in Hb. destruct (decide (lo <= b < hi)) as [Hin|Hin].
    + rewrite ld8_memset_in by lia. done.
    + rewrite ld8_memset_out by lia. rewrite Hrng in Hin. apply Hmz; tauto.
  - intros b Hb. rewrite in_regions_snoc in Hb. rewrite ld8_memset_out.
    + apply Hmf. tauto.
    + assert (~ lo <= b < hi) by (rewrite Hrng; tauto). lia.
  - rewrite overlaps_snoc. tauto.
Qed.

Lemma munmap_one_inv c addr stop P r s :
  vm_ok c -> addr < stop -> pairwise (r :: P) -> r ∈ live_list c ->
  munmap_inv c addr stop P s -> munmap_inv c addr stop (P ++ [r]) (munmap_one addr stop s r).
Proof.
  intros Hok Hs Hpw Hr Hinv. destruct s as [[m fl] freed].
  pose proof Hok as [Hsz [Htop _] _ _ Hlv _ _ _].
  assert (Hrok : region_ok (mmap_anchor c) r) by (rewrite Forall_forall in Hlv; by apply Hlv).
  pose proof (overlap_range addr stop r) as Hov. simpl in *.
  set (lo := if addr <? r_addr r then r_addr r else addr) in *.
  set (hi := if r_end r <? stop then r_end r else stop) in *.
  destruct (Hov 0) as (_ & Hno & Hyes). assert (Hrng := fun b => proj1 (Hov b)). clear Hov.
  destruct Hrok as (Hra & Hrl & Hre).
  destruct (Z.leb_spec hi lo) as [Hle|Hlt].
  - apply munmap_inv_skip; [|by apply Hno|done]. intros b H1 H2.
    assert (lo <= b < hi) by (by apply Hrng). lia.
  - assert (Hlo : 0 < lo /\ hi <= mmap_anchor c).
    { assert (Hlo : lo <= lo < hi) by lia. assert (Hhi : lo <= hi - 1 < hi) by lia.
      apply Hrng in Hlo, Hhi. unfold in_region in *. lia. }
    unfold UINT32_MAX in *. rewrite u32_small by lia.
    apply (munmap_inv_free c addr stop P r m fl freed); try done; try lia; [by apply Hyes|].
    intros b Hb Hbf. apply (mu_sub _ _ _ _ _ Hinv) in Hbf as [Hbf|[Hbf _]].
    + eapply vm_disjoint; [done|done|]. by exists r.
    + destruct Hbf as (s & Hs' & Hbs). destruct Hpw as [Hd _]. by eapply disjoint_r_bytes; [apply (Hd s Hs')|..].
Qed.

Lemma munmap_loop c addr stop P rest s :
  vm_ok c -> addr < stop -> P ++ rest = live_list c -> munmap_inv c addr stop P s ->
  munmap_inv c addr stop (live_list c) (foldl (munmap_one addr stop) s rest).
Proof.
  intros Hok Hs. revert P s. induction rest as [|r rest IH]; intros P s HP Hinv; simpl.
  - rewrite app_nil_r in HP. by subst P.
  - apply (IH (P ++ [r])); [by rewrite <-app_assoc|].
    assert (Hpw : pairwise (r :: P)).
    { pose proof (vm_pw c Hok) as Hpw. apply (pairwise_app_inv _ _ 0) in Hpw as (_ & Hpw & _).
      rewrite <-HP, <-Permutation_middle in Hpw. destruct Hpw as [Hd Hpw].
      rewrite pairwise_app in Hpw. split; [|apply Hpw]. intros t Ht. apply Hd, elem_of_app. by left. }
    apply munmap_one_inv; try done. rewrite <-HP, elem_of_app, elem_of_cons. tauto.
Qed.

Lemma range_overlaps_spec l addr len :
  range_overlaps l addr len = true <-> exists r, r ∈ l /\ overlaps addr (addr + len) r.
Proof.
  unfold range_overlaps, overlaps. rewrite existsb_exists. setoid_rewrite list_elem_of_In.
  split; intros (r & Hr & Ho); exists r; (split; [done|]); [|zcases]; repeat zcase; simpl in *; try done; lia.
Qed.

(** What an [yos_munmap] that finds nothing of its range free promises: the
    live bytes of the range are zeroed and change owner, no other byte is
    written, and the range is no longer live. *)
Record unmaps (c c' : exec_ctx) (addr stop : Z) : Prop := {
  um_zero : forall b, is_live c b -> addr <= b < stop -> ld8 (mem c') b = 0;
  um_frame : forall b, ~ (is_live c b /\ addr <= b < stop) -> ld8 (mem c') b = ld8 (mem c) b;
  um_live : forall b, is_live c' b -> is_live c b /\ ~ (addr <= b < stop);
  um_kept : Z.of_nat (length (live_list c)) < YOS_MAX_LIVE_REGIONS ->
            forall b, is_live c b -> ~ (addr <= b < stop) -> is_live c' b;
  um_free : forall b, is_free c' b -> is_free c b \/ (is_live c b /\ addr <= b < stop);
  um_freed : Z.of_nat (length (free_list c) + length (live_list c)) <= YOS_MAX_FREE_REGIONS ->
             forall b, is_free c b \/ (is_live c b /\ addr <= b < stop) -> is_free c' b;
  um_other : memory_size c' = memory_size c /\ heap_end c' = heap_end c /\ mmap_top c' = mmap_top c
}.

Lemma munmap_spec D c addr len :
  vm_ok c -> zero_but D c -> 0 <= addr -> 0 <= len < 4294967296 ->
  let aligned := page_align len in
  let '(r, c') := yos_munmap c addr len in
  (r = - EINVAL /\ c' = c /\ (len = 0 \/ memory_size c < addr + aligned)) \/
  (r = 0 /\ addr + aligned <= memory_size c /\
   ((c' = c /\ exists s, s ∈ free_list c /\ overlaps addr (addr + aligned) s) \/
    (vm_ok c' /\ zero_but D c' /\ unmaps c c' addr (addr + aligned)))).
Proof.
  intros Hok Hz Ha Hlen aligned. unfold yos_munmap. fold aligned.
  pose proof (page_align_bounds len Hlen) as [Hal Hmod]. fold aligned in Hal, Hmod.
  pose proof Hok as [Hsz [Htop Htp] Hheap Hfr Hlv Hpw Hfc Hlc].
  pose proof (pairwise_app_inv _ _ 0 Hpw) as (Hpf & Hpl & _). unfold UINT32_MAX in *.
  destruct (Z.eqb_spec aligned 0) as [H0|H0]; simpl; [left; split_and!; try done; left; lia|].
  destruct (Z.ltb_spec (memory_size c) aligned); simpl; [left; split_and!; try done; right; lia|].
  destruct (Z.ltb_spec (memory_size c) (addr + aligned)); simpl; [by left; split_and!; try done; right|].
  rewrite u32_small by lia.
  destruct (range_overlaps (free_list c) addr aligned) eqn:Hro.
  { right. split_and!; try done. left. split; [done|]. by apply range_overlaps_spec. }
  assert (Hinit : munmap_inv c addr (addr + aligned) [] (mem c, free_list c, false)).
  { split; simpl; try done; try lia.
    - by left.
    - intros _ b [?|[Hb _]]; [done|]. by apply in_regions_nil in Hb.
    - intros b Hb. by apply in_regions_nil in Hb.
    - split; [done|]. intros (r & Hr & _). by apply elem_of_nil in Hr. }
  apply (munmap_loop _ _ _ _ (live_list c)) in Hinit; [|done|lia|done].
  destruct (foldl _ _ _) as [[m fl] freed].
  destruct Hinit as [Ho Hp Hc _ Hsub Hkeep Hmz Hmf Hfreed]; simpl in *.
  set (lv := if freed then live_remove (live_list c) addr aligned else live_list c).
  destruct (cut_range_spec _ live_add (mmap_anchor c) (live_list c) addr aligned)
    as (Hl1 & Hl2 & Hl3 & _ & Hl5 & Hl6); unfold UINT32_MAX; try done; try lia.
  assert (Hlvspec : Forall (region_ok (mmap_anchor c)) lv /\ pairwise lv /\
    Z.of_nat (length lv) <= YOS_MAX_LIVE_REGIONS /\
    (forall b, in_regions b lv -> is_live c b /\ ~ (addr <= b < addr + aligned)) /\
    (Z.of_nat (length (live_list c)) < YOS_MAX_LIVE_REGIONS ->
     forall b, is_live c b -> ~ (addr <= b < addr + aligned) -> in_regions b lv)).
  { unfold lv. destruct freed; [done|]. split_and!; try done. intros b (r & Hr & Hb).
    split; [by exists r|]. intros Hbr. assert (false = true) as ?; [|done]. apply Hfreed.
    exists r. split; [done|]. unfold overlaps, in_region in *. lia. }
  destruct Hlvspec as (Hv1 & Hv2 & Hv3 & Hv4 & Hv5).
  right. split_and!; try done. right. split_and!.
  - assert (Hc' : mmap_anchor (set_live_list lv (set_free_list fl (set_mem m c))) = mmap_anchor c) by done.
    apply (vm_ok_intro c); rewrite ?Hc'; try done; try lia.
    intros b Hb1 Hb2. apply Hv4 in Hb2 as [Hb2 Hb3].
    apply Hsub in Hb1 as [Hb1|[_ Hb1]]; [|by apply Hb3]. by eapply (vm_disjoint c).
  - intros b Hb HD. simpl. apply Hsub in Hb as Hb'. destruct Hb' as [Hb'|[??]]; [|by apply Hmz].
    rewrite Hmf; [by apply Hz|]. intros [Hl _]. by eapply (vm_disjoint c).
  - by split.
Qed.


(** * Traces *)

Definition u32_ok (x : Z) : Prop := 0 <= x < 4294967296.

(** What a guest can do to its memory map, with the set of bytes it stored to
    while they were free.  A store goes to any address: below the heap end, to
    a mapping, to static data, or through a stale pointer. *)
Inductive vm_step : exec_ctx * gset Z -> exec_ctx * gset Z -> Prop :=
| step_brk c d addr : u32_ok addr -> vm_step (c, d) ((yos_brk c addr).2, d)
| step_mmap2 c d addr length prot flags fd pgoffset :
    u32_ok addr -> u32_ok length ->
    vm_step (c, d) ((yos_mmap2 c addr length prot flags fd pgoffset).2, d)
| step_munmap c d addr len :
    u32_ok addr -> u32_ok len -> vm_step (c, d) ((yos_munmap c addr len).2, d)
| step_mremap c d addr old_len new_len flags new_addr :
    u32_ok old_len -> u32_ok new_len ->
    vm_step (c, d) ((yos_mremap c addr old_len new_len flags new_addr).2, d)
| step_store c d a v : ~ is_free c a -> vm_step (c, d) (set_mem (st8 (mem c) a v) c, d)
| step_store_free c d a v :
    is_free c a -> vm_step (c, d) (set_mem (st8 (mem c) a v) c, {[a]} ∪ d).

(** A process image that has mapped nothing yet. *)
Record vm_fresh (c : exec_ctx) : Prop := {
  vf_size : 2 <= memory_size c <= UINT32_MAX;
  vf_top : mmap_top c = 0;
  vf_heap : 0 <= heap_end c <= memory_size c / 2;
  vf_free : free_list c = [];
  vf_live : live_list c = []
}.

Lemma vm_fresh_ok c : vm_fresh c -> vm_ok c /\ vm_zero c.
Proof.
  intros [Hs Ht Hh Hf Hl]. assert (Ha : mmap_anchor c = memory_size c / 2) by (unfold mmap_anchor; by rewrite Ht).
  split; [|intros b; rewrite Hf; intros Hb; by apply in_regions_nil in Hb].
  split; rewrite ?Hf, ?Hl, ?Ha; simpl; try done; try constructor; try mlia.
Qed.

Lemma vm_ok_set_heap c h : vm_ok c -> 0 <= h <= mmap_anchor c -> vm_ok (set_heap_end h c).
Proof. intros [? ? ? ? ? ? ? ?] ?. by split. Qed.

Lemma vm_ok_set_mem c m : vm_ok c -> vm_ok (set_mem m c).
Proof. intros [? ? ? ? ? ? ? ?]. by split. Qed.

Lemma yos_brk_ok c addr : vm_ok c -> 0 <= addr -> vm_ok (yos_brk c addr).2.
Proof.
  intros Hok Ha. unfold yos_brk. destruct (addr =? 0); [done|].
  destruct (_ <? addr); [done|]. destruct (Z.ltb_spec (mmap_anchor c) addr); [done|].
  apply vm_ok_set_heap; [done|lia].
Qed.

Lemma yos_brk_zero D c addr : zero_but D c -> zero_but D (yos_brk c addr).2.
Proof. intros Hz. unfold yos_brk. by repeat destruct (_ : bool); simpl. Qed.

Definition mmap_error (r : Z) : Prop := r = - ENOSYS \/ r = - ENOMEM \/ r = - EINVAL.

(** [yos_mmap2] on every branch. *)
Lemma yos_mmap2_spec D c addr length prot flags fd pgoffset :
  vm_ok c -> zero_but D c -> 0 <= addr -> u32_ok length ->
  let '(r, c') := yos_mmap2 c addr length prot flags fd pgoffset in
  vm_ok c' /\ zero_but D c' /\
  ((mmap_error r /\ c' = set_mmap_top (mmap_top c') c) \/
   (exists a, r = s32 a /\ maps D c c' a (page_align length) /\
      (fresh_mapping D c c' a (page_align length) \/
       (Z.land flags MAP_FIXED <> 0 /\ a = addr /\ addr <> 0 /\ heap_end c <= addr)))).
Proof.
  intros Hok Hz Ha Hl. unfold yos_mmap2.
  destruct (fd =? -1); cbn [negb]; [|split_and!; [done|done|left; split; [unfold mmap_error; tauto|by destruct c]]].
  pose proof (page_align_bounds length Hl) as [Hal _].
  destruct (Z.eqb_spec (page_align length) 0); cbn [orb];
    [split_and!; [done|done|left; split; [unfold mmap_error; tauto|by destruct c]]|].
  destruct (Z.ltb_spec (memory_size c) (page_align length));
    [split_and!; [done|done|left; split; [unfold mmap_error; tauto|by destruct c]]|].
  pose proof (vm_size c Hok) as Hsz. unfold u32_ok, UINT32_MAX in *.
  rewrite u32_small by lia.
  destruct (Z.eqb_spec (Z.land flags MAP_FIXED) 0), (Z.eqb_spec addr 0); cbn [negb andb].
  4: { pose proof (mmap2_fixed_spec D c addr (page_align length) Hok Hz ltac:(lia) ltac:(lia)) as Hf.
       destruct (mmap2_fixed c addr (page_align length)) as [r c'].
       destruct Hf as [(-> & -> & _)|[(-> & -> & _)|(-> & ? & ? & ? & ?)]];
         (split_and!; [done|done|]); [left; split; [unfold mmap_error; tauto|by destruct c]..|right; eauto 10]. }
  all: pose proof (mmap2_anon_spec D c (page_align length) Hok Hz ltac:(lia)) as Hf;
    destruct (mmap2_anon c (page_align length)) as [r c'];
    destruct Hf as (? & ? & [(-> & -> & _)|(a & -> & Hm)]);
    (split_and!; [done|done|]); [left; split; [unfold mmap_error; tauto|done]|right; exists a; split_and!; [done|apply Hm|by left]].
Qed.

Lemma yos_mremap_step D c addr old_len new_len flags new_addr :
  vm_ok c -> zero_but D c -> u32_ok old_len -> u32_ok new_len ->
  let c' := (yos_mremap c addr old_len new_len flags new_addr).2 in vm_ok c' /\ zero_but D c'.
Proof.
  intros Hok Hz Ho Hn. unfold yos_mremap. destruct (Z.leb_spec new_len old_len); [done|].
  pose proof (yos_mmap2_spec D c 0 new_len 3 34 (-1) 0 Hok Hz ltac:(lia) Hn) as Hm.
  destruct (yos_mmap2 c 0 new_len 3 34 (-1) 0) as [r c']. destruct Hm as (Hok' & Hz' & Hm).
  destruct (Z.ltb_spec r 0); [done|]. simpl. split; [by apply vm_ok_set_mem|].
  intros b Hb HD. simpl. destruct Hm as [[Hr _]|(a & -> & Hmp & _)].
  { exfalso. unfold mmap_error, ENOSYS, ENOMEM, EINVAL in *. lia. }
  pose proof (page_align_bounds new_len Hn) as [Hal _].
  pose proof (mp_free _ _ _ _ _ Hmp b Hb) as [_ Hout].
  assert (Hs : s32 a = a).
  { pose proof (mp_pos _ _ _ _ _ Hmp). pose proof (mp_end _ _ _ _ _ Hmp).
    pose proof (vm_size c Hok). unfold s32, UINT32_MAX, u32_ok in *. rewrite u32_small in * by lia. zcases. }
  rewrite Hs. rewrite (memcpy_frame _ _ _ _ b (b + 1)) by lia. by apply Hz'.
Qed.

Definition vm_inv (s : exec_ctx * gset Z) : Prop := vm_ok s.1 /\ zero_but (.∈ s.2) s.1.

Lemma vm_step_inv s s' : vm_step s s' -> vm_inv s -> vm_inv s'.
Proof.
  unfold vm_inv. intros Hstep [Hok Hz].
  destruct Hstep as [c d addr [? _]|c d addr len prot flags fd off [? _] ?|c d addr len [? _] ?
    |c d addr ol nl ? ? ? ?|c d a v Ha|c d a v Ha]; simpl in *.
  - split; [by apply yos_brk_ok|by apply yos_brk_zero].
  - pose proof (yos_mmap2_spec (.∈ d) c addr len prot flags fd off) as Hm.
    destruct (yos_mmap2 _ _ _ _ _ _ _). destruct Hm as (? & ? & _); done.
  - pose proof (munmap_spec (.∈ d) c addr len) as Hm. destruct (yos_munmap c addr len) as [r c'].
    destruct Hm as [(_ & -> & _)|(_ & _ & [[-> _]|(? & ? & _)])]; done.
  - by apply yos_mremap_step.
  - split; [by apply vm_ok_set_mem|]. intros b Hb HD; simpl. rewrite ld8_st8.
    destruct (Z.eqb_spec b a) as [->|]; [done|by apply Hz].
  - split; [by apply vm_ok_set_mem|]. intros b Hb HD; simpl. rewrite ld8_st8.
    destruct (Z.eqb_spec b a) as [->|]; [set_solver|]. apply Hz; set_solver.
Qed.

(** ** Properties *)

(** C37: Along any trace of brk, mmap, munmap, mremap and guest stores to any
    address from a fresh image, the free and live regions stay pairwise
    disjoint and below the mmap cursor, the brk stays below the cursor, every
    free byte is zero unless the guest stored to it while it was free, and the
    next anonymous mmap fails or hands out a range inside memory that is
    disjoint from every live region and zero but for such bytes.  (A store to
    free memory needs no stale pointer: [dirty_mapping_handed_out].) *)
Theorem vm_reachable_safe c0 c d :
  vm_fresh c0 -> rtc vm_step (c0, ∅) (c, d) ->
  pairwise (free_list c ++ live_list c) /\
  (forall r, r ∈ free_list c ++ live_list c -> 0 < r_addr r /\ r_end r <= mmap_anchor c <= memory_size c) /\
  heap_end c <= mmap_anchor c /\
  (forall a, is_free c a -> a ∉ d -> ld8 (mem c) a = 0) /\
  (forall addr length prot flags pgoffset,
     u32_ok addr -> u32_ok length -> Z.land flags MAP_FIXED = 0 ->
     let '(r, c') := yos_mmap2 c addr length prot flags (-1) pgoffset in
     mmap_error r \/
     exists a, r = s32 a /\ 0 < a /\ a + length <= a + page_align length <= memory_size c /\
       forall b, a <= b < a + page_align length ->
         ~ is_live c b /\ (b ∉ d -> ld8 (mem c') b = 0)).
Proof.
  intros H0 Hr. apply vm_fresh_ok in H0 as [Hok0 Hz0].
  assert (Hc : vm_inv (c, d)).
  { assert (Hi : vm_inv (c0, ∅)) by (split; [done|intros a Ha _; by apply Hz0]).
    revert Hi. generalize (c0, (∅ : gset Z)) (c, d) Hr. induction 1; eauto using vm_step_inv. }
  destruct Hc as [Hok Hz]; simpl in *. pose proof Hok as [? [? ?] ? Hf Hl ? ? ?].
  split; [done|]. split.
  { intros r Hr'. apply elem_of_app in Hr'. rewrite !Forall_forall in Hf, Hl.
    destruct Hr' as [Hr'|Hr']; [destruct (Hf r Hr') as (? & ? & ?)|destruct (Hl r Hr') as (? & ? & ?)]; lia. }
  split; [lia|]. split; [done|]. intros addr length prot flags pgoffset [Ha _] Hlen Hfx.
  pose proof (yos_mmap2_spec (.∈ d) c addr length prot flags (-1) pgoffset Hok Hz Ha Hlen) as Hm.
  pose proof (page_align_bounds length Hlen) as [? _].
  destruct (yos_mmap2 _ _ _ _ _ _ _) as [r c'].
  destruct Hm as (_ & _ & [[He _]|(a & -> & Hm & [[_ Hfr]|[? _]])]); [by left| |done].
  right. exists a. pose proof (mp_end _ _ _ _ _ Hm). split; [done|]. split; [apply Hm|].
  split; [lia|]. intros b Hb. split; [by apply Hfr|]. by apply Hm.
Qed.

(** [yos_mmap2] either fails, leaving the tables and memory as they were,
    or returns a page-rounded range that lies in linear memory, reads as zero
    and leaves every other byte alone; without [MAP_FIXED] no byte of it was
    live before, so no mapping is handed out twice. *)
Theorem mmap2_fresh_and_zeroed c addr length prot flags fd pgoffset :
  vm_ok c -> vm_zero c -> u32_ok addr -> u32_ok length ->
  let '(r, c') := yos_mmap2 c addr length prot flags fd pgoffset in
  vm_ok c' /\ vm_zero c' /\
  ((mmap_error r /\ mem c' = mem c /\ free_list c' = free_list c /\ live_list c' = live_list c) \/
   (exists a, r = s32 a /\ 0 < a /\ a + length <= a + page_align length <= memory_size c /\
     (forall b, a <= b < a + page_align length -> ld8 (mem c') b = 0) /\
     (forall b, ~ (a <= b < a + page_align length) -> ld8 (mem c') b = ld8 (mem c) b) /\
     (Z.land flags MAP_FIXED = 0 -> forall b, a <= b < a + page_align length -> ~ is_live c b) /\
     (Z.of_nat (List.length (live_list c)) + 1 < YOS_MAX_LIVE_REGIONS ->
      forall b, a <= b < a + page_align length -> is_live c' b))).
Proof.
  intros Hok Hz [Ha _] Hl.
  pose proof (yos_mmap2_spec _ c addr length prot flags fd pgoffset Hok (proj1 (vm_zero_but c) Hz) Ha Hl) as H.
  destruct (yos_mmap2 _ _ _ _ _ _ _) as [r c']. destruct H as (H1 & H2 & H).
  split; [done|]. split; [by apply vm_zero_but|].
  destruct H as [[He ->]|(a & -> & Hm & Hf)]; [by left|right].
  exists a. pose proof (page_align_bounds length Hl) as [? _]. pose proof (mp_end _ _ _ _ _ Hm).
  split_and!; try apply Hm; try done; try lia.
  - intros b Hb. apply (mp_zero _ _ _ _ _ Hm); [done|tauto].
  - intros Hflag. destruct Hf as [[_ Hf]|[Hf _]]; done.
  - intros Hcap b Hb. apply Hm; [done|]. by right.
Qed.

Definition ctx0 : exec_ctx := ExecCtx (fun _ => 0) 262144 4096 0 [] [] 0 0 0 0.

Lemma ctx0_fresh : vm_fresh ctx0.
Proof. split; vm_compute; intuition discriminate. Defined.

(** A mapping is made and given back, brk grows over it, the guest stores to
    its heap, and asks for a mapping again. *)
Definition ctx_brk : exec_ctx :=
  (yos_brk (yos_munmap (yos_mmap2 ctx0 0 5000 3 34 (-1) 0).2 131072 5000).2 135168).2.
Definition ctx_dirty : exec_ctx := set_mem (st8 (mem ctx_brk) 131075 77) ctx_brk.

Lemma ctx_dirty_reached : rtc vm_step (ctx0, ∅) (ctx_dirty, {[131075]}).
Proof.
  assert (Hu : u32_ok 0 /\ u32_ok 5000 /\ u32_ok 131072 /\ u32_ok 135168) by (unfold u32_ok; lia).
  destruct Hu as (? & ? & ? & ?).
  eapply rtc_l; [apply (step_mmap2 ctx0 ∅ 0 5000 3 34 (-1) 0); done|].
  eapply rtc_l; [apply (step_munmap _ ∅ 131072 5000); done|].
  eapply rtc_l; [apply (step_brk _ ∅ 135168); done|].
  apply rtc_once. rewrite <-(right_id_L ∅ (∪) {[131075]}). apply (step_store_free ctx_brk ∅ 131075 77).
  exists (Region 131072 8192). split; [vm_compute; by left|]. unfold in_region, r_end; simpl. lia.
Qed.

(** A store below the heap end dirties free memory: after a mapping is
    unmapped, brk accepts an address above it (mem.c:201 bounds the brk by the
    mmap cursor), the guest stores to its heap, and the next mmap hands that
    memory out again as it is, without clearing it. *)
Theorem dirty_mapping_handed_out :
  rtc vm_step (ctx0, ∅) (ctx_dirty, {[131075]}) /\ 131075 < heap_end ctx_brk /\
  let '(r, c') := yos_mmap2 ctx_dirty 0 5000 3 34 (-1) 0 in
  r = 131072 /\ ld8 (mem c') 131075 = 77.
Proof. split; [exact ctx_dirty_reached|]. split; [reflexivity|]. vm_compute. done. Qed.

Lemma vm_reachable_safe_witness :
  vm_fresh ctx0 /\ rtc vm_step (ctx0, ∅) (ctx_dirty, {[131075]}) /\
  pairwise (free_list ctx_dirty ++ live_list ctx_dirty) /\ ld8 (mem ctx_dirty) 131080 = 0.
Proof.
  pose proof (vm_reachable_safe ctx0 ctx_dirty {[131075]} ctx0_fresh ctx_dirty_reached) as H.
  split; [exact ctx0_fresh|]. split; [exact ctx_dirty_reached|].
  split; [exact (proj1 H)|]. destruct H as (_ & _ & _ & H & _). apply H; [|set_solver].
  exists (Region 131072 8192). split; [vm_compute; by left|]. unfold in_region, r_end; simpl. lia.
Defined.

Lemma mmap2_fresh_and_zeroed_witness :
  fst (yos_mmap2 ctx0 0 5000 3 34 (-1) 0) = 131072 /\ vm_ok (snd (yos_mmap2 ctx0 0 5000 3 34 (-1) 0)).
Proof.
  split; [reflexivity|].
  pose proof (mmap2_fresh_and_zeroed ctx0 0 5000 3 34 (-1) 0
    (proj1 (vm_fresh_ok _ ctx0_fresh)) (proj2 (vm_fresh_ok _ ctx0_fresh))) as H.
  specialize (H ltac:(unfold u32_ok; lia) ltac:(unfold u32_ok; lia)).
  exact (proj1 H).
Defined.

(** [yos_munmap] on every branch: a range outside memory is refused; a
    range that touches free memory is left alone; otherwise exactly the live
    bytes of the range are zeroed and become free while the region tables have
    room, the rest of memory is untouched and nothing outside the range
    changes owner. *)
Theorem munmap_releases_live_bytes c addr len :
  vm_ok c -> vm_zero c -> u32_ok addr -> u32_ok len ->
  let stop := addr + page_align len in
  let '(r, c') := yos_munmap c addr len in
  (r = - EINVAL /\ c' = c /\ (len = 0 \/ memory_size c < stop)) \/
  (r = 0 /\ stop <= memory_size c /\
   ((c' = c /\ exists s, s ∈ free_list c /\ overlaps addr stop s) \/
    (vm_ok c' /\ vm_zero c' /\ unmaps c c' addr stop))).
Proof.
  intros Hok Hz%vm_zero_but [Ha _] Hl. pose proof (munmap_spec _ c addr len Hok Hz Ha Hl) as H.
  cbv zeta in *. destruct (yos_munmap c addr len) as [r c']. by rewrite (vm_zero_but c').
Qed.

Lemma munmap_releases_live_bytes_witness :
  let c1 := (yos_mmap2 ctx0 0 5000 3 34 (-1) 0).2 in
  vm_ok c1 /\ free_list (yos_munmap c1 131072 5000).2 = [Region 131072 8192] /\
  (yos_munmap c1 131072 5000).1 = 0.
Proof.
  intros c1.
  pose proof (yos_mmap2_spec _ ctx0 0 5000 3 34 (-1) 0 (proj1 (vm_fresh_ok _ ctx0_fresh))
    (proj1 (vm_zero_but _) (proj2 (vm_fresh_ok _ ctx0_fresh))) ltac:(lia) ltac:(unfold u32_ok; lia))
    as (Hok & Hz & _).
  fold c1 in Hok, Hz. rewrite <-vm_zero_but in Hz. split; [exact Hok|]. split; [reflexivity|].
  pose proof (munmap_releases_live_bytes c1 131072 5000 Hok Hz ltac:(unfold u32_ok; lia) ltac:(unfold u32_ok; lia)) as H.
  destruct H as [(H & _)|(H & _)]; [discriminate H|exact H].
Defined.

Lemma munmap_noop_loop addr stop s l :
  (forall r, r ∈ l -> 0 < r_len r /\ ~ overlaps addr stop r) -> addr < stop ->
  foldl (munmap_one addr stop) s l = s.
Proof.
  intros Hl Hs. induction l as [|r l IH]; simpl; [done|].
  destruct (Hl r) as [Hr Hno]; [by left|]. destruct s as [[m fl] freed].
  pose proof (overlap_range addr stop r 0) as Hov. unfold munmap_one at 2. cbv zeta in Hov |- *.
  destruct (Z.leb_spec (if r_end r <? stop then r_end r else stop) (if addr <? r_addr r then r_addr r else addr)).
  - apply IH. intros t Ht. apply Hl. by right.
  - exfalso. by apply Hno, Hov.
Qed.

Lemma is_free_overlaps c addr stop b :
  is_free c b -> addr <= b < stop -> exists s, s ∈ free_list c /\ overlaps addr stop s.
Proof.
  intros (s & Hs & Hb) Hr. exists s. split; [done|]. unfold overlaps, in_region in *. lia.
Qed.

Lemma yos_munmap_free_noop c addr len :
  u32_ok len -> page_align len <> 0 -> addr + page_align len <= memory_size c ->
  page_align len <= memory_size c <= UINT32_MAX ->
  (exists s, s ∈ free_list c /\ overlaps addr (addr + page_align len) s) ->
  yos_munmap c addr len = (0, c).
Proof.
  intros Hl Hn He Hs Hex. unfold yos_munmap, UINT32_MAX in *.
  pose proof (page_align_bounds len Hl) as [? _]. unfold u32_ok in *.
  destruct (Z.eqb_spec (page_align len) 0); [done|].
  destruct (Z.ltb_spec (memory_size c) (page_align len)); [lia|].
  destruct (Z.ltb_spec (memory_size c) (addr + page_align len)); [lia|]. simpl.
  rewrite u32_small by lia. by apply range_overlaps_spec in Hex as ->.
Qed.

(** Unmapping the same range twice is the same as unmapping it once, as
    long as the free table had room: a double munmap cannot put a range on
    the free list a second time. *)
Theorem munmap_idempotent c addr len :
  vm_ok c -> vm_zero c -> u32_ok addr -> u32_ok len -> (yos_munmap c addr len).1 = 0 ->
  Z.of_nat (length (free_list c) + length (live_list c)) <= YOS_MAX_FREE_REGIONS ->
  yos_munmap (yos_munmap c addr len).2 addr len = (0, (yos_munmap c addr len).2).
Proof.
  intros Hok Hz [Ha _] Hl Hr Hcap.
  pose proof (munmap_spec _ c addr len Hok (proj1 (vm_zero_but c) Hz) Ha Hl) as Hspec.
  pose proof (page_align_bounds len Hl) as [Hal _]. pose proof (vm_size c Hok) as Hsz.
  assert (Hne : 0 < page_align len).
  { destruct (Z.eq_dec (page_align len) 0) as [H0|]; [|unfold u32_ok in *; lia].
    unfold yos_munmap in Hr. by rewrite H0 in Hr. }
  destruct (decide (Exists (overlaps addr (addr + page_align len)) (live_list c))) as [Hex|Hno].
  - destruct (yos_munmap c addr len) as [r c'] eqn:E; simpl in Hr |- *; subst r.
    destruct Hspec as [(? & _)|(_ & He & [(-> & Hex')|(Hok' & _ & Hum)])]; [done|done|].
    apply Exists_exists in Hex as (s & Hs & Ho). pose proof (vm_live c Hok) as Hlv.
    rewrite Forall_forall in Hlv. destruct (Hlv s Hs) as (_ & Hsl & _).
    destruct (um_other _ _ _ _ Hum) as (Hsize & _).
    apply yos_munmap_free_noop; rewrite ?Hsize; try done; try lia.
    apply (is_free_overlaps c' _ _ (Z.max addr (r_addr s))).
    + apply (um_freed _ _ _ _ Hum); [done|]. right. unfold overlaps in Ho.
      split; [exists s; split; [done|unfold in_region, r_end in *; lia]|lia].
    + unfold overlaps, r_end in *. lia.
  - assert (Hsame : yos_munmap c addr len = (0, c)); [|by rewrite Hsame].
    unfold yos_munmap in Hr |- *. destruct (_ || _ || _) eqn:Hb; [done|].
    destruct (range_overlaps _ _ _); [done|].
    rewrite munmap_noop_loop; [by destruct c| |lia].
    intros s Hs. split; [pose proof (vm_live c Hok) as Hlv; rewrite Forall_forall in Hlv; apply (Hlv s Hs)|].
    intros Ho. apply Hno, Exists_exists. eauto.
Qed.

(** [yos_brk] moves the heap end into the mmap arena: after an anonymous
    mapping of [len] bytes in a fresh image, brk accepts every address up to
    the end of that mapping, so the heap swallows live bytes.  (The bound brk
    checks is the top of the arena, not its base.) *)
Theorem brk_enters_mmap_arena c len k :
  vm_fresh c -> 0 < len -> memory_size c / 2 + page_align len <= memory_size c < 2147483648 ->
  0 < k <= page_align len ->
  let c1 := (yos_mmap2 c 0 len 3 34 (-1) 0).2 in
  let c2 := (yos_brk c1 (memory_size c / 2 + k)).2 in
  (yos_brk c1 (memory_size c / 2 + k)).1 = memory_size c / 2 + k /\
  is_live c2 (memory_size c / 2) /\ memory_size c / 2 < heap_end c2.
Proof.
  intros [Hs Ht Hh Hf Hl] Hlen Hfit Hk c1 c2. unfold UINT32_MAX in *.
  assert (Ha : mmap_anchor c = memory_size c / 2) by (unfold mmap_anchor; by rewrite Ht).
  assert (Hm2 : 0 < memory_size c / 2) by mlia.
  assert (Hc1 : c1 = set_mem (memset (mem c) (memory_size c / 2) 0 (page_align len))
    (set_live_list [Region (memory_size c / 2) (page_align len)]
      (set_mmap_top (memory_size c / 2 + page_align len) (set_free_list [] c)))).
  { unfold c1, yos_mmap2. simpl.
    destruct (Z.eqb_spec (page_align len) 0); [lia|].
    destruct (Z.ltb_spec (memory_size c) (page_align len)); [lia|]. simpl.
    unfold mmap2_anon. rewrite Hf. simpl. rewrite Ha.
    destruct (Z.ltb_spec (memory_size c / 2) (heap_end c)); [lia|].
    rewrite (u32_small (page_align len)) by lia.
    destruct (Z.ltb_spec (memory_size c) (memory_size c / 2 + page_align len)); [lia|]. simpl.
    rewrite u32_small, Hl by lia. unfold live_add. simpl.
    by destruct (Z.eqb_spec (page_align len) 0); [lia|]. }
  assert (Hbrk : yos_brk c1 (memory_size c / 2 + k) =
    (memory_size c / 2 + k, set_heap_end (memory_size c / 2 + k) c1)).
  { unfold yos_brk, mmap_anchor. rewrite Hc1. simpl.
    destruct (Z.eqb_spec (memory_size c / 2 + k) 0); [lia|].
    destruct (Z.ltb_spec (memory_size c) (memory_size c / 2 + k)); [lia|].
    destruct (Z.eqb_spec (memory_size c / 2 + page_align len) 0); [lia|].
    destruct (Z.ltb_spec (memory_size c / 2 + page_align len) (memory_size c / 2 + k)); [lia|].
    by rewrite s32_small by lia. }
  unfold c2. rewrite Hbrk. simpl. split; [done|]. split; [|lia].
  rewrite Hc1. apply in_regions_cons. left. unfold in_region, r_end; simpl. lia.
Qed.

(** A growing [yos_mremap] returns a mapping that starts with the old
    contents, whenever the old range is live; the old mapping stays. *)
Theorem mremap_copies_contents c addr old_len new_len flags new_addr a c' :
  vm_ok c -> vm_zero c -> u32_ok old_len -> u32_ok new_len -> old_len < new_len ->
  yos_mremap c addr old_len new_len flags new_addr = (a, c') -> 0 <= a ->
  (forall i, 0 <= i < old_len -> is_live c (addr + i)) ->
  (forall i, 0 <= i < old_len -> ld8 (mem c') (a + i) = ld8 (mem c) (addr + i)) /\
  (forall i, 0 <= i < old_len -> ld8 (mem c') (addr + i) = ld8 (mem c) (addr + i)).
Proof.
  intros Hok Hz Ho Hn Hlt Hcall Hpos Hlive. unfold yos_mremap in Hcall.
  destruct (Z.leb_spec new_len old_len); [lia|].
  pose proof (yos_mmap2_spec _ c 0 new_len 3 34 (-1) 0 Hok (proj1 (vm_zero_but c) Hz) ltac:(lia) Hn) as Hm.
  destruct (yos_mmap2 c 0 new_len 3 34 (-1) 0) as [r c1]. destruct Hm as (_ & _ & Hm).
  destruct (Z.ltb_spec r 0) as [Hneg|Hge]; simplify_eq; [lia|].
  destruct Hm as [[Hr _]|(b & -> & Hmp & Hfr)]; [unfold mmap_error, ENOSYS, ENOMEM, EINVAL in *; lia|].
  destruct Hfr as [[_ Hfr]|(_ & _ & Hf & _)]; [|done].
  pose proof (page_align_bounds new_len Hn) as [Hal _].
  pose proof (mp_pos _ _ _ _ _ Hmp). pose proof (mp_end _ _ _ _ _ Hmp). pose proof (vm_size c Hok).
  assert (Hs : s32 b = b).
  { unfold s32, UINT32_MAX, u32_ok in *. rewrite u32_small in * by lia. zcases. }
  rewrite Hs in *. simpl.
  assert (Hout : forall i, 0 <= i < old_len -> ~ (b <= addr + i < b + page_align new_len)).
  { intros i Hi Hin. apply (Hfr _ Hin). by apply Hlive. }
  split; intros i Hi.
  - rewrite ld8_memcpy_in by lia. rewrite <-(mp_frame _ _ _ _ _ Hmp (addr + i)) by by apply Hout.
    f_equal. lia.
  - rewrite (memcpy_frame _ _ _ _ (addr + i) (addr + i + 1)) by (specialize (Hout i Hi); lia).
    apply (mp_frame _ _ _ _ _ Hmp). by apply Hout.
Qed.

(** The advisory calls ([mprotect], [mlock], [munlock], [madvise]) accept
    exactly the ranges inside linear memory; the end is computed without
    wrap-around, so no range passes by overflowing 32 bits. *)
Theorem check_range_exact c start len :
  0 < memory_size c <= UINT32_MAX -> u32_ok start -> u32_ok len ->
  check_range c start len =
    if (len =? 0) || (start + len <=? memory_size c) then 0 else - ENOMEM.
Proof.
  intros Hs [Ha _] [Hl _]. unfold check_range, UINT32_MAX in *.
  destruct (Z.eqb_spec len 0); [done|]. simpl.
  destruct (Z.leb_spec (memory_size c) start), (Z.ltb_spec (memory_size c) len),
    (Z.ltb_spec (memory_size c) (start + len)), (Z.leb_spec (start + len) (memory_size c));
    simpl; done || lia.
Qed.

(** ** Witnesses *)

Definition ctx1 : exec_ctx := (yos_mmap2 ctx0 0 5000 3 34 (-1) 0).2.

Lemma ctx1_ok : vm_ok ctx1 /\ vm_zero ctx1.
Proof.
  destruct (vm_fresh_ok _ ctx0_fresh) as [Hok Hz]. rewrite vm_zero_but in *.
  assert (Hu : u32_ok 5000) by (unfold u32_ok; lia).
  pose proof (yos_mmap2_spec _ ctx0 0 5000 3 34 (-1) 0 Hok Hz ltac:(lia) Hu) as (? & ? & _). done.
Qed.

Lemma munmap_idempotent_witness :
  (yos_munmap ctx1 131072 8192).1 = 0 /\
  yos_munmap (yos_munmap ctx1 131072 8192).2 131072 8192 = (0, (yos_munmap ctx1 131072 8192).2).
Proof.
  split; [reflexivity|].
  apply (munmap_idempotent ctx1 131072 8192 (proj1 ctx1_ok) (proj2 ctx1_ok));
    [unfold u32_ok; lia|unfold u32_ok; lia|reflexivity|vm_compute; discriminate].
Defined.

Lemma brk_enters_mmap_arena_witness :
  is_live (yos_brk ctx1 (131072 + 4096)).2 131072 /\
  131072 < heap_end (yos_brk ctx1 (131072 + 4096)).2.
Proof.
  apply (brk_enters_mmap_arena ctx0 5000 4096 ctx0_fresh); [lia| |];
    vm_compute; repeat split; discriminate.
Defined.

Definition ctx2 : exec_ctx := set_mem (st8 (mem ctx1) 131075 77) ctx1.

Lemma ctx2_ok : vm_ok ctx2 /\ vm_zero ctx2.
Proof.
  split; [by apply vm_ok_set_mem, ctx1_ok|]. intros b Hb. by apply in_regions_nil in Hb.
Qed.

Lemma mremap_copies_contents_witness :
  let c' := (yos_mremap ctx2 131072 5000 20000 1 0).2 in
  (yos_mremap ctx2 131072 5000 20000 1 0).1 = 139264 /\ ld8 (mem c') (139264 + 3) = 77.
Proof.
  intros c'. split; [reflexivity|].
  destruct (mremap_copies_contents ctx2 131072 5000 20000 1 0 139264 c'
    (proj1 ctx2_ok) (proj2 ctx2_ok)) as [H _];
    [unfold u32_ok; lia|unfold u32_ok; lia|lia|reflexivity|lia| |].
  - intros i Hi. exists (Region 131072 8192). split; [by left|]. unfold in_region, r_end; simpl. lia.
  - rewrite (H 3) by lia. reflexivity.
Defined.

Lemma check_range_exact_witness :
  check_range ctx0 2147483648 2147483649 = - ENOMEM.
Proof.
  rewrite (check_range_exact ctx0 2147483648 2147483649);
    [reflexivity|vm_compute; split; [reflexivity|discriminate]|unfold u32_ok; lia|unfold u32_ok; lia].
Defined.
