(* ===== verification/Alloc.v ===== *)
(** The guest heap (src/src/yos/impl/mem/alloc.c): malloc, free and their
    relatives, on the block headers kept in linear memory.  Each entry point
    runs under [g_alloc_lock], so it is one atomic step.  Tracing is left out.

    The walk of [yos_free] has no bound in the C code: on a cyclic list it
    never returns.  The model runs it for [2^32] nodes (every 32-bit offset
    once, so a longer walk has repeated a node and repeats for ever) and
    returns [None] past that. *)
From S2P Require Import Prelude Memory Ctx.

Definition HDR_SIZE : Z := 8.
Definition MIN_BLOCK : Z := 32.
Definition ALIGN : Z := 16.

Definition align_up (x a : Z) : Z := Z.land (u32 (x + (a - 1))) (Z.lnot (a - 1)).

Definition blk_size (m : memory) (off : Z) : Z := ld32 m off.
Definition blk_set_size (m : memory) (off s : Z) : memory := st32 m off s.
Definition blk_next (m : memory) (off : Z) : Z := ld32 m (off + 4).
Definition blk_set_next (m : memory) (off n : Z) : memory := st32 m (off + 4) n.

(** [(ctx->memory_size / 2u) & ~0xfffu] *)
Definition alloc_init_locked (c : exec_ctx) : option exec_ctx :=
  if negb (alloc_hi c =? 0) then Some c
  else
    let lo := align_up (heap_end c) ALIGN in
    let hi := Z.land (memory_size c / 2) (Z.lnot 4095) in
    if hi <=? u32 (lo + 1048576) then None
    else
      let m1 := blk_set_size (mem c) lo (u32 (hi - lo)) in
      let m2 := blk_set_next m1 lo 0 in
      Some (set_heap_end hi (set_mem m2 (set_alloc_free_head lo
              (set_alloc_hi hi (set_alloc_lo lo c))))).

(** One node of the first-fit walk: stop with the fitting block and its
    predecessor, or at the end of the list. *)
Definition alloc_walk_step (m : memory) (need : Z) (s : Z * Z) : (Z * Z) + option (Z * Z) :=
  let '(prev_off, cur) := s in
  if cur =? 0 then inr None
  else if need <=? blk_size m cur then inr (Some (prev_off, cur))
  else inl (cur, blk_next m cur).

(** The walk gives up after [1 << 22] nodes. *)
Definition do_alloc (c : exec_ctx) (need : Z) : Z * exec_ctx :=
  let m := mem c in
  match loop_for (alloc_walk_step m need) 4194304 (0, alloc_free_head c) with
  | inl _ | inr None => (0, c)
  | inr (Some (prev_off, cur)) =>
      let bsz := blk_size m cur in
      let bnext := blk_next m cur in
      let '(m1, after_next) :=
        if u32 (need + MIN_BLOCK) <=? bsz then
          let split := u32 (cur + need) in
          (blk_set_size (blk_set_next (blk_set_size m split (u32 (bsz - need))) split bnext) cur need,
           split)
        else (m, bnext) in
      (u32 (cur + HDR_SIZE),
       if negb (prev_off =? 0) then set_mem (blk_set_next m1 prev_off after_next) c
       else set_alloc_free_head after_next (set_mem m1 c))
  end.

Definition malloc_need (size : Z) : Z :=
  let size := if size =? 0 then 1 else size in
  let need := align_up (u32 (size + HDR_SIZE)) ALIGN in
  if need <? MIN_BLOCK then MIN_BLOCK else need.

Definition yos_malloc (c : exec_ctx) (size : Z) : Z * exec_ctx :=
  let need := malloc_need size in
  match alloc_init_locked c with
  | None => (0, c)
  | Some c1 => do_alloc c1 need
  end.

(** [nmemb && size > UINT32_MAX / nmemb] *)
Definition mul_overflows (nmemb size : Z) : bool :=
  negb (nmemb =? 0) && (UINT32_MAX / nmemb <? size).

Definition yos_calloc (c : exec_ctx) (nmemb size : Z) : Z * exec_ctx :=
  if mul_overflows nmemb size then (0, c)
  else
    let total := u32 (nmemb * size) in
    let '(off, c1) := yos_malloc c total in
    if off =? 0 then (0, c1)
    else
      let blk_off := u32 (off - HDR_SIZE) in
      let bsz := blk_size (mem c1) blk_off in
      let usable := if HDR_SIZE <? bsz then bsz - HDR_SIZE else total in
      let usable := if usable <? total then total else usable in
      (off, set_mem (memset (mem c1) off 0 usable) c1).

Definition unshift_user_off (c : exec_ctx) (off : Z) : Z :=
  if negb (Z.land off 15 =? 0) then off
  else if off <? u32 (alloc_lo c + 2 * HDR_SIZE) then off
  else
    let raw := ld32 (mem c) (off - 4) in
    if (raw <? u32 (alloc_lo c + HDR_SIZE)) || (off <=? raw) then off
    else if alloc_hi c <? u32 (raw + HDR_SIZE) then off
    else
      let bo := u32 (raw - HDR_SIZE) in
      let bs := blk_size (mem c) bo in
      if (bs <? MIN_BLOCK) || (alloc_hi c <? u32 (bo + bs)) then off
      else if u32 (bo + bs) <=? off then off
      else raw.

(** One node of [yos_free]'s search for the insertion point.  [inr None] is
    the early return on a double free. *)
Definition free_walk_step (m : memory) (blk_off : Z) (s : Z * Z) : (Z * Z) + option (Z * Z) :=
  let '(prev, cur) := s in
  if negb (cur =? 0) && (cur <? blk_off) then
    if blk_off <? u32 (cur + blk_size m cur) then inr None
    else inl (cur, blk_next m cur)
  else inr (Some (prev, cur)).

(** Insertion after [prev]: extend [prev] when it ends where the block starts,
    else link the block in.  Returns the block to go on with. *)
Definition free_link_left (c : exec_ctx) (prev cur blk_off sz : Z) : exec_ctx * Z * Z :=
  if negb (prev =? 0) then
    let prev_sz := blk_size (mem c) prev in
    if u32 (prev + prev_sz) =? blk_off
    then (set_mem (blk_set_size (mem c) prev (u32 (prev_sz + sz))) c, prev, u32 (prev_sz + sz))
    else (set_mem (blk_set_next (blk_set_next (mem c) prev blk_off) blk_off cur) c, blk_off, sz)
  else (set_alloc_free_head blk_off (set_mem (blk_set_next (mem c) blk_off cur) c), blk_off, sz).

(** Absorb [cur] when the block ends where it starts. *)
Definition free_link_right (c : exec_ctx) (cur blk_off sz : Z) : exec_ctx :=
  if negb (cur =? 0) && (u32 (blk_off + sz) =? cur) then
    let cur_sz := blk_size (mem c) cur in
    let cur_next := blk_next (mem c) cur in
    set_mem (blk_set_next (blk_set_size (mem c) blk_off (u32 (sz + cur_sz))) blk_off cur_next) c
  else c.

Definition free_link (c : exec_ctx) (prev cur blk_off sz : Z) : exec_ctx :=
  let '(c1, blk_off, sz) := free_link_left c prev cur blk_off sz in
  free_link_right c1 cur blk_off sz.

Definition outside_heap (c : exec_ctx) (off : Z) : bool :=
  (off <? u32 (alloc_lo c + HDR_SIZE)) || (alloc_hi c <=? off).

Definition yos_free (c : exec_ctx) (off : Z) : option exec_ctx :=
  if off =? 0 then Some c
  else if outside_heap c off then Some c
  else
    let off := unshift_user_off c off in
    let blk_off := u32 (off - HDR_SIZE) in
    let sz := blk_size (mem c) blk_off in
    if (sz <? MIN_BLOCK) || (alloc_hi c <? u32 (blk_off + sz)) then Some c
    else
      match loop_for (free_walk_step (mem c) blk_off) 4294967296 (0, alloc_free_head c) with
      | inl _ => None
      | inr None => Some c
      | inr (Some (prev, cur)) =>
          if cur =? blk_off then Some c else Some (free_link c prev cur blk_off sz)
      end.

Definition yos_realloc (c : exec_ctx) (off newsize : Z) : option (Z * exec_ctx) :=
  if off =? 0 then Some (yos_malloc c newsize)
  else if newsize =? 0 then
    match yos_free c off with Some c1 => Some (0, c1) | None => None end
  else if outside_heap c off then Some (0, c)
  else
    let off := unshift_user_off c off in
    let blk_off := u32 (off - HDR_SIZE) in
    let oldsz := blk_size (mem c) blk_off in
    if (oldsz <? HDR_SIZE) || (alloc_hi c <? u32 (blk_off + oldsz)) then Some (0, c)
    else
      let old_payload := u32 (oldsz - HDR_SIZE) in
      if newsize <=? old_payload then Some (off, c)
      else
        let '(newoff, c1) := yos_malloc c newsize in
        if newoff =? 0 then Some (0, c1)
        else
          match yos_free (set_mem (memcpy (mem c1) newoff off old_payload) c1) off with
          | Some c2 => Some (newoff, c2)
          | None => None
          end.

Definition yos_reallocarray (c : exec_ctx) (off nmemb size : Z) : option (Z * exec_ctx) :=
  if mul_overflows nmemb size then Some (0, c)
  else yos_realloc c off (u32 (nmemb * size)).

Definition yos_posix_memalign (c : exec_ctx) (memptr_off alignment size : Z) : Z * exec_ctx :=
  if (memptr_off =? 0) || (memory_size c <? memptr_off + 4) then (EINVAL, c)
  else if (alignment <? 4) || negb (Z.land alignment (u32 (alignment - 1)) =? 0) then (EINVAL, c)
  else if alignment <=? HDR_SIZE then
    let '(off, c1) := yos_malloc c (if size =? 0 then 1 else size) in
    if off =? 0 then (ENOMEM, c1)
    else (0, set_mem (st32 (mem c1) memptr_off off) c1)
  else
    let need := size + alignment in
    let need := if need =? 0 then 1 else need in
    if UINT32_MAX <? need then (ENOMEM, c)
    else
      let '(raw, c1) := yos_malloc c need in
      if raw =? 0 then (ENOMEM, c1)
      else
        let aligned := Z.land (u32 (raw + alignment - 1)) (Z.lnot (alignment - 1)) in
        let aligned := if aligned =? raw then u32 (raw + alignment) else aligned in
        (0, set_mem (st32 (st32 (mem c1) (aligned - 4) raw) memptr_off aligned) c1).

Definition yos_aligned_alloc (c : exec_ctx) (alignment size : Z) : Z * exec_ctx :=
  if (alignment =? 0) || negb (Z.land alignment (u32 (alignment - 1)) =? 0) then (0, c)
  else if ALIGN <? alignment then (0, c)
  else yos_malloc c size.

Definition yos_memalign (c : exec_ctx) (alignment size : Z) : Z * exec_ctx :=
  yos_aligned_alloc c alignment size.

Definition yos_valloc (c : exec_ctx) (size : Z) : Z * exec_ctx := yos_malloc c size.

Definition yos_malloc_usable_size (c : exec_ctx) (off : Z) : Z :=
  if off =? 0 then 0
  else if outside_heap c off then 0
  else
    let sz := blk_size (mem c) (u32 (off - HDR_SIZE)) in
    if sz <? HDR_SIZE then 0 else sz - HDR_SIZE.
