(* ===== verification/FreeList.v ===== *)
(** The contract of the guest heap's free list, on lists of regions: first-fit
    allocation with a split, and address-ordered insertion that coalesces with
    both neighbours.  [Alloc.v]'s routines on linear memory implement these
    (file HeapInv.v). *)
From S2P Require Import Prelude Memory Ctx Alloc.

(** * First fit *)

Fixpoint first_fit (need : Z) (fl : list region) : option (list region * region * list region) :=
  match fl with
  | [] => None
  | r :: l =>
      if need <=? r_len r then Some ([], r, l)
      else match first_fit need l with
           | Some (pre, x, post) => Some (r :: pre, x, post)
           | None => None
           end
  end.

(** The block handed out of [r] and what is left of it. *)
Definition take_block (need : Z) (r : region) : region * list region :=
  if need + MIN_BLOCK <=? r_len r
  then (Region (r_addr r) need, [Region (r_addr r + need) (r_len r - need)])
  else (r, []).

Definition fl_alloc (need : Z) (fl : list region) : option (region * list region) :=
  match first_fit need fl with
  | None => None
  | Some (pre, r, post) =>
      let '(b, rest) := take_block need r in Some (b, pre ++ rest ++ post)
  end.

(** * Insertion *)

Fixpoint fl_span (a : Z) (fl : list region) : list region * list region :=
  match fl with
  | [] => ([], [])
  | r :: l =>
      if r_addr r <? a then let '(pre, post) := fl_span a l in (r :: pre, post) else ([], fl)
  end.

Definition merge_left (pre : list region) (b : region) : list region * region :=
  match last pre with
  | Some p =>
      if r_end p =? r_addr b
      then (take (length pre - 1) pre, Region (r_addr p) (r_len p + r_len b))
      else (pre, b)
  | None => (pre, b)
  end.

Definition merge_right (b : region) (post : list region) : list region :=
  match post with
  | n :: post' =>
      if r_end b =? r_addr n then Region (r_addr b) (r_len b + r_len n) :: post' else b :: post
  | [] => [b]
  end.

Definition fl_insert (b : region) (fl : list region) : list region :=
  let '(pre, post) := fl_span (r_addr b) fl in
  let '(pre', b') := merge_left pre b in
  pre' ++ merge_right b' post.

(** * Sorted lists with gaps

    Every region starts strictly after the end of the one before: ascending
    and fully coalesced. *)
Fixpoint spaced (lb : Z) (fl : list region) : Prop :=
  match fl with
  | [] => True
  | r :: l => lb < r_addr r /\ 0 < r_len r /\ spaced (r_end r) l
  end.

Definition last_end (lb : Z) (fl : list region) : Z :=
  match last fl with Some r => r_end r | None => lb end.

Lemma spaced_weaken lb lb' fl : lb' <= lb -> spaced lb fl -> spaced lb' fl.
Proof. destruct fl; simpl; [done|]. intros ? (? & ? & ?). split_and!; [lia|done..]. Qed.

Lemma spaced_app lb l1 l2 : spaced lb (l1 ++ l2) <-> spaced lb l1 /\ spaced (last_end lb l1) l2.
Proof.
  revert lb. induction l1 as [|r l1 IH]; intros lb; simpl; [by unfold last_end; simpl; tauto|].
  rewrite IH. unfold last_end. rewrite last_cons. destruct (last l1); simpl; tauto.
Qed.

Lemma spaced_In lb fl r : spaced lb fl -> r ∈ fl -> lb < r_addr r /\ 0 < r_len r.
Proof.
  revert lb. induction fl as [|x fl IH]; intros lb; simpl; [by intros _ ?%elem_of_nil|].
  intros (H1 & H2 & H3) [->|Hr]%elem_of_cons; [done|].
  destruct (IH _ H3 Hr). unfold r_end in *. lia.
Qed.

Lemma spaced_last lb fl : spaced lb fl -> lb <= last_end lb fl.
Proof.
  intros H. unfold last_end. destruct (last fl) as [r|] eqn:E; [|lia].
  apply last_Some_elem_of in E. destruct (spaced_In _ _ _ H E). unfold r_end. lia.
Qed.

Lemma spaced_last_In lb fl r : spaced lb fl -> r ∈ fl -> r_end r <= last_end lb fl.
Proof.
  intros H (l1 & l2 & ->)%list_elem_of_split.
  rewrite spaced_app in H. destruct H as (_ & _ & _ & H).
  unfold last_end. rewrite last_app_cons, last_cons. apply spaced_last in H. unfold last_end in H.
  by destruct (last l2).
Qed.

Lemma spaced_pairwise lb fl : spaced lb fl -> pairwise fl.
Proof.
  revert lb. induction fl as [|r fl IH]; intros lb; simpl; [done|].
  intros (_ & _ & H). split; [|by eapply IH].
  intros s Hs. left. destruct (spaced_In _ _ _ H Hs). lia.
Qed.

Lemma spaced_mid lb l1 r l2 :
  spaced lb (l1 ++ r :: l2) <->
  spaced lb l1 /\ last_end lb l1 < r_addr r /\ 0 < r_len r /\ spaced (r_end r) l2.
Proof. rewrite spaced_app. simpl. tauto. Qed.

(** * Allocation *)

Lemma first_fit_Some need fl pre r post :
  first_fit need fl = Some (pre, r, post) ->
  fl = pre ++ r :: post /\ need <= r_len r /\ Forall (fun x => r_len x < need) pre.
Proof.
  revert pre. induction fl as [|x fl IH]; intros pre; simpl; [done|].
  destruct (Z.leb_spec need (r_len x)).
  - intros [= <- <- <-]. split_and!; [done|lia|constructor].
  - destruct (first_fit need fl) as [[[pre0 x0] post0]|]; [|done].
    intros [= <- <- <-]. destruct (IH pre0 eq_refl) as (-> & ? & ?).
    split_and!; [done|done|by constructor].
Qed.

Lemma first_fit_None need fl :
  first_fit need fl = None <-> Forall (fun x => r_len x < need) fl.
Proof.
  induction fl as [|x fl IH]; simpl; [done|]. rewrite Forall_cons.
  destruct (Z.leb_spec need (r_len x)); [split; [done|lia]|].
  rewrite <-IH. destruct (first_fit need fl) as [[[? ?] ?]|].
  - split; [done|by intros [_ ?]].
  - split; [intros _; split; [lia|done]|done].
Qed.

Lemma take_block_spec need r b rest :
  take_block need r = (b, rest) -> 0 < need <= r_len r ->
  r_addr b = r_addr r /\ need <= r_len b < need + MIN_BLOCK /\ r_end b <= r_end r /\
  ((rest = [] /\ b = r) \/ (rest = [Region (r_end b) (r_end r - r_end b)] /\ MIN_BLOCK <= r_end r - r_end b /\ r_len b = need)).
Proof.
  unfold take_block. intros H Hn.
  destruct (Z.leb_spec (need + MIN_BLOCK) (r_len r)); simplify_eq; unfold r_end, MIN_BLOCK in *; simpl.
  - split_and!; try lia. right. split_and!; [|lia..]. do 2 f_equal. lia.
  - split_and!; try lia. by left.
Qed.

Lemma fl_alloc_bytes need lb fl b fl' :
  fl_alloc need fl = Some (b, fl') -> 0 < need -> spaced lb fl ->
  (forall a, in_regions a fl <-> in_region a b \/ in_regions a fl') /\
  (forall a, in_region a b -> ~ in_regions a fl').
Proof.
  unfold fl_alloc. destruct (first_fit need fl) as [[[pre r] post]|] eqn:E; [|done].
  apply first_fit_Some in E as (-> & Hr & _). destruct (take_block need r) as [b0 rest] eqn:Et.
  intros [= <- <-] Hn Hsp.
  apply take_block_spec in Et as (Ha & Hb & He & Hrest); [|lia].
  pose proof Hsp as (Hsp1 & Hlt & Hl & Hsp2)%spaced_mid.
  split.
  - intros a. rewrite !in_regions_app, in_regions_cons.
    destruct Hrest as [[-> ->]|(-> & Hm & Hlb)]; [rewrite in_regions_nil; tauto|].
    rewrite in_regions_cons, in_regions_nil. unfold in_region, r_end in *. simpl.
    assert (r_addr r <= a < r_addr r + r_len r <->
            r_addr b0 <= a < r_addr b0 + r_len b0 \/
            r_addr b0 + r_len b0 <= a < r_addr b0 + r_len b0 + (r_addr r + r_len r - (r_addr b0 + r_len b0)))
      by lia. tauto.
  - intros a Hin. rewrite !in_regions_app. unfold in_region, r_end in *.
    intros [(s & Hs & Hsa)|[Hs|(s & Hs & Hsa)]]; unfold in_region, r_end in *.
    + pose proof (spaced_last_In _ _ _ Hsp1 Hs). unfold r_end in *. lia.
    + destruct Hrest as [[-> ->]|(-> & Hm & Hlb)]; [by apply in_regions_nil in Hs|].
      rewrite in_regions_cons, in_regions_nil in Hs. unfold in_region, r_end in *. simpl in *. lia.
    + destruct (spaced_In _ _ _ Hsp2 Hs). lia.
Qed.

Lemma fl_alloc_spaced need lb fl b fl' :
  fl_alloc need fl = Some (b, fl') -> 0 < need -> spaced lb fl -> spaced lb fl' /\ lb < r_addr b.
Proof.
  unfold fl_alloc. destruct (first_fit need fl) as [[[pre r] post]|] eqn:E; [|done].
  apply first_fit_Some in E as (-> & Hr & _). destruct (take_block need r) as [b0 rest] eqn:Et.
  intros [= <- <-] Hn Hsp.
  apply take_block_spec in Et as (Ha & Hb & He & Hrest); [|lia].
  pose proof Hsp as (Hsp1 & Hlt & Hl & Hsp2)%spaced_mid.
  split; [|pose proof (spaced_last _ _ Hsp1); lia].
  apply spaced_app. split; [done|]. unfold MIN_BLOCK in *.
  destruct Hrest as [[-> ->]|(-> & Hm & Hlb)]; simpl.
  - eapply spaced_weaken; [|exact Hsp2]. unfold r_end. lia.
  - split_and!; [unfold r_end in *; lia|lia|].
    eapply spaced_weaken; [|exact Hsp2]. unfold r_end. simpl. lia.
Qed.

(** * Insertion *)

Lemma fl_span_app a fl pre post : fl_span a fl = (pre, post) -> fl = pre ++ post.
Proof.
  revert pre. induction fl as [|r fl IH]; intros pre; simpl; [by intros [= <- <-]|].
  destruct (r_addr r <? a); [|by intros [= <- <-]].
  destruct (fl_span a fl) as [pre0 post0]. intros [= <- <-]. by rewrite (IH pre0).
Qed.

Lemma fl_span_spaced lb a fl pre post :
  fl_span a fl = (pre, post) -> spaced lb fl ->
  Forall (fun r => r_addr r < a) pre /\ Forall (fun r => a <= r_addr r) post.
Proof.
  revert lb pre. induction fl as [|r fl IH]; intros lb pre; simpl; [by intros [= <- <-]|].
  intros H (H1 & H2 & H3). destruct (Z.ltb_spec (r_addr r) a).
  - destruct (fl_span a fl) as [pre0 post0]. simplify_eq.
    destruct (IH _ _ eq_refl H3). split; [by constructor|done].
  - simplify_eq. split; [constructor|]. constructor; [lia|].
    apply Forall_forall. intros s Hs. destruct (spaced_In _ _ _ H3 Hs). unfold r_end in *. lia.
Qed.

(** The span at an address between two parts of a spaced list. *)
Lemma fl_span_eq lb a pre post :
  spaced lb pre -> last_end lb pre <= a -> spaced a post -> fl_span a (pre ++ post) = (pre, post).
Proof.
  revert lb. induction pre as [|r pre IH]; intros lb; simpl.
  - intros _ _ H. destruct post as [|s post]; [done|]. simpl in *. destruct H as (? & _).
    by destruct (Z.ltb_spec (r_addr s) a); [lia|].
  - intros (H1 & H2 & H3) Hle Hp.
    assert (Hle' : last_end (r_end r) pre <= a).
    { unfold last_end in *. rewrite last_cons in Hle. by destruct (last pre). }
    pose proof (spaced_last _ _ H3). unfold r_end in *.
    destruct (Z.ltb_spec (r_addr r) a); [|lia].
    by erewrite IH by (done || lia).
Qed.

Lemma merge_left_spec pre b pre' b' lb :
  merge_left pre b = (pre', b') -> spaced lb pre -> last_end lb pre <= r_addr b -> lb < r_addr b ->
  0 < r_len b ->
  spaced lb pre' /\ last_end lb pre' < r_addr b' /\ 0 < r_len b' /\ r_end b' = r_end b /\
  (forall a, in_regions a pre' \/ in_region a b' <-> in_regions a pre \/ in_region a b).
Proof.
  unfold merge_left. intros H Hsp Hle Hlb Hl.
  destruct pre as [|p pre _] using rev_ind; simpl in *.
  - simplify_eq. by split_and!.
  - rewrite last_snoc in H. unfold last_end in Hle. rewrite last_snoc in Hle.
    apply spaced_app in Hsp as (Hs1 & Hs2 & Hs3 & _).
    destruct (Z.eqb_spec (r_end p) (r_addr b)); simplify_eq; unfold r_end in *; simpl.
    + rewrite length_app. simpl. replace (length pre + 1 - 1)%nat with (length pre) by lia.
      rewrite take_app_length. split_and!; try done; try lia.
      intros a. rewrite in_regions_app, in_regions_cons, in_regions_nil.
      unfold in_region, r_end. simpl.
      assert (r_addr p <= a < r_addr p + (r_len p + r_len b) <->
        r_addr p <= a < r_addr p + r_len p \/ r_addr b <= a < r_addr b + r_len b) by lia. tauto.
    + split_and!; try done.
      * apply spaced_app. simpl. split_and!; done || lia.
      * unfold last_end. rewrite last_snoc. unfold r_end. lia.
Qed.

Lemma merge_right_spec b post :
  0 < r_len b -> spaced (r_end b - 1) post ->
  spaced (r_addr b - 1) (merge_right b post) /\
  (forall lb, lb < r_addr b -> spaced lb (merge_right b post)) /\
  (forall a, in_regions a (merge_right b post) <-> in_region a b \/ in_regions a post).
Proof.
  intros Hl Hsp.
  assert (H : (forall lb, lb < r_addr b -> spaced lb (merge_right b post)) /\
    (forall a, in_regions a (merge_right b post) <-> in_region a b \/ in_regions a post)).
  { unfold merge_right. destruct post as [|n post]; simpl in *.
    - split; [by intros; split_and!|]. intros a. by rewrite in_regions_cons.
    - destruct Hsp as (H1 & H2 & H3). destruct (Z.eqb_spec (r_end b) (r_addr n)); simpl; split.
      + intros lb Hlb. split_and!; [done|lia|]. unfold r_end in *. simpl.
        eapply spaced_weaken; [|exact H3]. lia.
      + intros a. rewrite !in_regions_cons. unfold in_region, r_end in *. simpl.
        assert (r_addr b <= a < r_addr b + (r_len b + r_len n) <->
          r_addr b <= a < r_addr b + r_len b \/ r_addr n <= a < r_addr n + r_len n) by lia. tauto.
      + intros lb Hlb. split_and!; [done|lia|lia|lia|done].
      + intros a. by rewrite in_regions_cons. }
  destruct H as [H1 H2]. split_and!; [apply H1; lia|done..].
Qed.

(** Where a region disjoint from a spaced list is inserted. *)
Lemma fl_span_fits lb b fl pre post :
  fl_span (r_addr b) fl = (pre, post) -> spaced lb fl -> lb < r_addr b -> 0 < r_len b ->
  (forall a, in_region a b -> ~ in_regions a fl) ->
  spaced lb pre /\ last_end lb pre <= r_addr b /\ spaced (r_end b - 1) post.
Proof.
  intros Hs Hsp Hlb Hl Hd. pose proof (fl_span_spaced _ _ _ _ _ Hs Hsp) as [Hlo Hhi].
  apply fl_span_app in Hs as ->. apply spaced_app in Hsp as [H1 H2].
  split_and!; [done| |].
  - unfold last_end. destruct (last pre) as [p|] eqn:E; [|lia].
    apply last_Some_elem_of in E. pose proof (spaced_In _ _ _ H1 E) as [_ Hp].
    rewrite Forall_forall in Hlo. specialize (Hlo p E).
    destruct (Z.le_gt_cases (r_end p) (r_addr b)); [done|]. exfalso.
    apply (Hd (r_addr b)); [unfold in_region, r_end; lia|].
    apply in_regions_app. left. exists p. split; [done|]. unfold in_region. lia.
  - destruct post as [|n post]; [done|]. simpl in *. destruct H2 as (_ & H2 & H3).
    split_and!; [|done|done]. apply Forall_cons in Hhi as [Hn _].
    destruct (Z.le_gt_cases (r_end b) (r_addr n)); [lia|]. exfalso.
    apply (Hd (r_addr n)); [unfold in_region; lia|].
    apply in_regions_app. right. apply in_regions_cons. left. unfold in_region, r_end. lia.
Qed.

Lemma fl_insert_spec lb b fl :
  spaced lb fl -> lb < r_addr b -> 0 < r_len b -> (forall a, in_region a b -> ~ in_regions a fl) ->
  spaced lb (fl_insert b fl) /\
  (forall a, in_regions a (fl_insert b fl) <-> in_region a b \/ in_regions a fl).
Proof.
  intros Hsp Hlb Hl Hd. unfold fl_insert.
  destruct (fl_span (r_addr b) fl) as [pre post] eqn:Es.
  pose proof (fl_span_fits _ _ _ _ _ Es Hsp Hlb Hl Hd) as (Hp & Hle & Hq).
  apply fl_span_app in Es as ->.
  destruct (merge_left pre b) as [pre' b'] eqn:Em.
  destruct (merge_left_spec _ _ _ _ _ Em Hp Hle Hlb Hl) as (Hp' & Hlt & Hl' & He & Hb).
  rewrite <-He in Hq. destruct (merge_right_spec b' post Hl' Hq) as (_ & Hm & Hmb).
  split.
  - apply spaced_app. split; [done|]. by apply Hm.
  - intros a. specialize (Hb a). rewrite !in_regions_app, Hmb. tauto.
Qed.

(** Giving back what was just taken restores the list. *)
Lemma fl_alloc_insert need lb fl b fl' :
  fl_alloc need fl = Some (b, fl') -> 0 < need -> spaced lb fl -> fl_insert b fl' = fl.
Proof.
  unfold fl_alloc. destruct (first_fit need fl) as [[[pre r] post]|] eqn:E; [|done].
  apply first_fit_Some in E as (-> & Hr & _). destruct (take_block need r) as [b0 rest] eqn:Et.
  intros [= <- <-] Hn Hsp.
  apply take_block_spec in Et as (Ha & Hb & He & Hrest); [|lia]. unfold MIN_BLOCK in *.
  pose proof Hsp as (Hsp1 & Hlt & Hl & Hsp2)%spaced_mid.
  pose proof (spaced_last _ _ Hsp1).
  unfold fl_insert. rewrite (fl_span_eq lb); [|done|lia|].
  - unfold merge_left.
    assert (Hml : match last pre with
       | Some p => if r_end p =? r_addr b0 then (take (length pre - 1) pre, Region (r_addr p) (r_len p + r_len b0)) else (pre, b0)
       | None => (pre, b0) end = (pre, b0)).
    { unfold last_end in Hlt. destruct (last pre) as [p|]; [|done].
      by destruct (Z.eqb_spec (r_end p) (r_addr b0)); [lia|]. }
    rewrite Hml. f_equal. destruct Hrest as [[-> ->]|(-> & Hm & Hlb)]; simpl.
    + unfold merge_right. destruct post as [|n post]; [done|]. simpl in Hsp2. destruct Hsp2 as (? & _).
      by destruct (Z.eqb_spec (r_end r) (r_addr n)); [lia|].
    + rewrite Z.eqb_refl. f_equal. rewrite Ha. unfold r_end in *. destruct r; simpl in *.
      f_equal. lia.
  - rewrite Ha. destruct Hrest as [[-> ->]|(-> & Hm & Hlb)]; simpl.
    + eapply spaced_weaken; [|exact Hsp2]. unfold r_end. lia.
    + split_and!; [unfold r_end; lia|lia|]. eapply spaced_weaken; [|exact Hsp2]. unfold r_end. simpl. lia.
Qed.

(** A spaced list that covers an interval is that interval: coalescing leaves
    no seam. *)
Lemma spaced_cover lo hi fl :
  lo < hi -> spaced (lo - 1) fl -> (forall a, in_regions a fl <-> lo <= a < hi) ->
  fl = [Region lo (hi - lo)].
Proof.
  intros Hlt Hsp Hc. destruct fl as [|r fl].
  { exfalso. destruct (Hc lo) as [_ H]. by apply (in_regions_nil lo), H. }
  simpl in Hsp. destruct Hsp as (H1 & H2 & H3).
  assert (Hlo : r_addr r = lo).
  { destruct (proj2 (Hc lo) ltac:(lia)) as (s & Hs & Hin).
    apply elem_of_cons in Hs as [->|Hs]; [unfold in_region in Hin; lia|].
    destruct (spaced_In _ _ _ H3 Hs). unfold in_region, r_end in *. lia. }
  assert (Hend : r_end r = hi).
  { destruct (Z.lt_trichotomy (r_end r) hi) as [Hl|[?|Hl]]; [|done|].
    - exfalso. destruct (proj2 (Hc (r_end r))) as (s & Hs & Hin); [unfold r_end in *; lia|].
      apply elem_of_cons in Hs as [->|Hs]; [unfold in_region in Hin; lia|].
      destruct (spaced_In _ _ _ H3 Hs). unfold in_region in *. lia.
    - exfalso. assert (lo <= r_end r - 1 < hi); [|lia]. apply Hc, in_regions_cons. left.
      unfold in_region, r_end in *. lia. }
  destruct fl as [|s fl].
  - destruct r as [ra rl]. unfold r_end in *. simpl in *. do 2 f_equal; lia.
  - exfalso. simpl in H3. destruct H3 as (H3 & H4 & _). assert (lo <= r_addr s < hi); [|lia].
    apply Hc. rewrite !in_regions_cons. right; left. unfold in_region, r_end. lia.
Qed.
