(* ===== verification/HeapInv.v ===== *)
(** The heap invariant: how a free list and a set of used blocks are laid out
    in linear memory, and the proof that [do_alloc] and [yos_free]'s insertion
    implement the free-list contract of [FreeList.v]. *)
From S2P Require Import Prelude Memory Ctx Alloc FreeList.

(** * The list in memory *)

(** [seg m p l q]: following [next] from [p] visits the regions of [l], each
    with its size in its header, and arrives at [q]. *)
Fixpoint seg (m : memory) (p : Z) (l : list region) (q : Z) : Prop :=
  match l with
  | [] => p = q
  | r :: l' => p = r_addr r /\ blk_size m p = r_len r /\ seg m (blk_next m p) l' q
  end.

(** The header bytes of a block. *)
Definition hdr_agree (m m' : memory) (r : region) : Prop :=
  agree_on (r_addr r) (r_addr r + 8) m m'.

Lemma blk_size_agree m m' r :
  hdr_agree m m' r -> blk_size m' (r_addr r) = blk_size m (r_addr r).
Proof. intros H. apply ld32_agree. eapply agree_on_sub; [| |exact H]; lia. Qed.

Lemma blk_next_agree m m' r :
  hdr_agree m m' r -> blk_next m' (r_addr r) = blk_next m (r_addr r).
Proof. intros H. apply ld32_agree. eapply agree_on_sub; [| |exact H]; lia. Qed.

Lemma seg_agree m m' l p q :
  (forall r, r ∈ l -> hdr_agree m m' r) -> seg m p l q -> seg m' p l q.
Proof.
  revert p. induction l as [|r l IH]; intros p H; simpl; [done|].
  intros (-> & H1 & H2). split_and!; [done| |].
  - rewrite (blk_size_agree m); [done|]. apply H. by left.
  - rewrite (blk_next_agree m) by (apply H; by left).
    apply IH; [|done]. intros s Hs. apply H. by right.
Qed.

Lemma seg_app m p l1 l2 q : seg m p (l1 ++ l2) q <-> exists x, seg m p l1 x /\ seg m x l2 q.
Proof.
  revert p. induction l1 as [|r l1 IH]; intros p; simpl.
  - split; [by eauto|]. intros (x & -> & H). done.
  - rewrite IH. split.
    + intros (? & ? & x & ? & ?). by exists x.
    + intros (x & (? & ? & ?) & ?). split_and!; [done|done|by exists x].
Qed.

Lemma seg_snoc m p l r q :
  seg m p (l ++ [r]) q <->
  seg m p l (r_addr r) /\ blk_size m (r_addr r) = r_len r /\ blk_next m (r_addr r) = q.
Proof. rewrite seg_app. simpl. split; [intros (x & ? & -> & ? & ?)|intros (? & ? & ?); exists (r_addr r)]; done. Qed.

(** The offset of the last block, or [d]. *)
Definition last_addr (d : Z) (l : list region) : Z :=
  match last l with Some r => r_addr r | None => d end.

Lemma last_addr_cons d r l : last_addr d (r :: l) = last_addr (r_addr r) l.
Proof. unfold last_addr. rewrite last_cons. by destruct (last l). Qed.

(** * The two walks *)

Lemma alloc_walk m need l prev p :
  seg m p l 0 -> Forall (fun r => 0 < r_addr r) l ->
  loop_nat (alloc_walk_step m need) (S (length l)) (prev, p) =
  inr (match first_fit need l with
       | None => None
       | Some (pre, r, _) => Some (last_addr prev pre, r_addr r)
       end).
Proof.
  revert prev p. induction l as [|r l IH]; intros prev p; [by intros ->|].
  intros (-> & H1 & H2) [Hp Hl]%Forall_cons.
  change (S (length (r :: l))) with (S (S (length l))).
  cbn [loop_nat]. unfold alloc_walk_step at 1.
  destruct (Z.eqb_spec (r_addr r) 0); [lia|]. rewrite H1. cbn [first_fit].
  destruct (need <=? r_len r); [done|].
  change (match alloc_walk_step m need (r_addr r, blk_next m (r_addr r)) with
          | inl s' => loop_nat (alloc_walk_step m need) (length l) s' | inr x => inr x end)
    with (loop_nat (alloc_walk_step m need) (S (length l)) (r_addr r, blk_next m (r_addr r))).
  rewrite (IH (r_addr r) _ H2 Hl). destruct (first_fit need l) as [[[pre x] post]|]; [|done].
  by rewrite last_addr_cons.
Qed.

(** A walk of [n] nodes answers first fit on the first [n] nodes. *)
Lemma alloc_walk_prefix m need n l prev p :
  seg m p l 0 -> Forall (fun r => 0 < r_addr r) l ->
  match loop_nat (alloc_walk_step m need) n (prev, p) with
  | inl _ | inr None => first_fit need (take n l) = None
  | inr (Some (_, cur)) => first_fit need (take n l) <> None /\ exists r, r ∈ l /\ cur = r_addr r
  end.
Proof.
  revert l prev p. induction n as [|n IH]; intros l prev p; [done|].
  destruct l as [|r l]; [by intros ->|].
  intros (-> & H1 & H2) [Hp Hl]%Forall_cons. cbn [loop_nat take first_fit]. unfold alloc_walk_step at 1.
  destruct (Z.eqb_spec (r_addr r) 0); [lia|]. rewrite H1.
  destruct (need <=? r_len r); [split; [done|exists r; split; [by left|done]]|].
  specialize (IH l (r_addr r) _ H2 Hl).
  destruct (loop_nat _ n _) as [|[[? cur]|]]; [by rewrite IH| |by rewrite IH].
  destruct IH as (Hf & x & Hx & ->). split; [by destruct (first_fit _ _) as [[[??]?]|]|].
  exists x. split; [by right|done].
Qed.

(** A bounded loop either stops at the result the unbounded one reaches or
    runs out of iterations, which needs as many as that. *)
Lemma loop_for_cases {A B} (step : A -> A + B) p n s r :
  loop_nat step n s = inr r ->
  loop_for step p s = inr r \/ (Zpos p < Z.of_nat n /\ exists s', loop_for step p s = inl s').
Proof.
  intros Hn. destruct (Z.le_gt_cases (Z.of_nat n) (Zpos p)).
  - left. by eapply loop_for_reaches.
  - rewrite loop_for_nat. destruct (loop_nat step (Pos.to_nat p) s) as [s'|r'] eqn:E; [by right; eauto|].
    left. f_equal. pose proof (loop_nat_mono step (Pos.to_nat p) n s r' ltac:(lia) E). congruence.
Qed.

(** The insertion point: [free_walk_step] stops between the two parts of
    [fl_span], unless the offset is inside a block of the list. *)
Lemma free_walk m a l prev p :
  seg m p l 0 -> Forall (fun r => 0 < r_addr r /\ 0 < r_len r /\ r_end r < 4294967296) l ->
  (forall r, r ∈ l -> r_addr r < a -> r_end r <= a) ->
  loop_nat (free_walk_step m a) (S (length l)) (prev, p) =
  inr (Some (last_addr prev (fl_span a l).1, match (fl_span a l).2 with [] => 0 | r :: _ => r_addr r end)).
Proof.
  revert prev p. induction l as [|r l IH]; intros prev p; [by intros ->|].
  intros (-> & H1 & H2) [(Hp & Hl & He) Hf]%Forall_cons Hout.
  change (S (length (r :: l))) with (S (S (length l))).
  cbn [loop_nat]. unfold free_walk_step at 1.
  destruct (Z.eqb_spec (r_addr r) 0); [lia|]. simpl negb. cbn [andb fl_span].
  destruct (Z.ltb_spec (r_addr r) a) as [Hlt|]; [|done].
  rewrite H1. pose proof (Hout r ltac:(by left) Hlt) as Hra. unfold r_end in *.
  rewrite u32_small by lia. destruct (Z.ltb_spec a (r_addr r + r_len r)); [lia|].
  change (match free_walk_step m a (r_addr r, blk_next m (r_addr r)) with
          | inl s' => loop_nat (free_walk_step m a) (length l) s' | inr x => inr x end)
    with (loop_nat (free_walk_step m a) (S (length l)) (r_addr r, blk_next m (r_addr r))).
  rewrite (IH (r_addr r) _ H2 Hf) by (intros; apply Hout; [by right|done]).
  destruct (fl_span a l) as [pre post]. simpl. by rewrite last_addr_cons.
Qed.

(** Inside a block of the list the walk reports the double free, at its start
    it stops with [cur = a]. *)
Lemma free_walk_inside m a lb l prev p r :
  seg m p l 0 -> Forall (fun x => 0 < r_addr x /\ 0 < r_len x /\ r_end x < 4294967296) l ->
  spaced lb l -> r ∈ l -> in_region a r ->
  exists x, loop_nat (free_walk_step m a) (S (length l)) (prev, p) = inr x /\
    match x with None => True | Some (_, cur) => cur = a end.
Proof.
  revert lb prev p. induction l as [|y l IH]; intros lb prev p; [by intros _ _ _ ?%elem_of_nil|].
  intros (-> & H1 & H2) [(Hp & Hl & He) Hf]%Forall_cons (Hs1 & Hs2 & Hs3) Hr Hin.
  change (S (length (y :: l))) with (S (S (length l))).
  cbn [loop_nat]. unfold free_walk_step at 1.
  destruct (Z.eqb_spec (r_addr y) 0); [lia|]. simpl negb. cbn [andb].
  rewrite H1. unfold r_end in He. rewrite u32_small by lia.
  apply elem_of_cons in Hr as [->|Hr].
  - unfold in_region, r_end in Hin. destruct (Z.ltb_spec (r_addr y) a).
    + destruct (Z.ltb_spec a (r_addr y + r_len y)); [|lia]. by exists None.
    + eexists; split; [done|]. simpl. lia.
  - destruct (spaced_In _ _ _ Hs3 Hr). unfold in_region, r_end in *.
    destruct (Z.ltb_spec (r_addr y) a); [|lia].
    destruct (Z.ltb_spec a (r_addr y + r_len y)); [lia|].
    change (match free_walk_step m a (r_addr y, blk_next m (r_addr y)) with
            | inl s' => loop_nat (free_walk_step m a) (length l) s' | inr x => inr x end)
      with (loop_nat (free_walk_step m a) (S (length l)) (r_addr y, blk_next m (r_addr y))).
    by apply (IH (r_addr y + r_len y)).
Qed.

(** * The invariant *)

Definition blk_ok (lo hi : Z) (b : region) : Prop :=
  MIN_BLOCK <= r_len b /\ r_addr b mod 16 = 0 /\ r_len b mod 16 = 0 /\ lo <= r_addr b /\ r_end b <= hi.

(** [fl]: the free list in order; [ul]: the blocks handed out.  Together they
    tile the heap, so no byte is ever lost. *)
Record heap_ok (c : exec_ctx) (fl ul : list region) : Prop := {
  hp_lo : 0 < alloc_lo c /\ alloc_lo c mod 16 = 0;
  hp_hi : alloc_lo c < alloc_hi c < 2147483648 /\ alloc_hi c <= memory_size c <= UINT32_MAX;
  hp_seg : seg (mem c) (alloc_free_head c) fl 0;
  hp_sp : spaced (alloc_lo c - 1) fl;
  hp_free : Forall (blk_ok (alloc_lo c) (alloc_hi c)) fl;
  hp_used : Forall (blk_ok (alloc_lo c) (alloc_hi c)) ul;
  hp_hdr : Forall (fun b => blk_size (mem c) (r_addr b) = r_len b) ul;
  hp_pw : pairwise ul;
  hp_disj : forall a, in_regions a fl -> ~ in_regions a ul;
  hp_cover : forall a, in_regions a fl \/ in_regions a ul <-> alloc_lo c <= a < alloc_hi c
}.

(** Memory changed at most inside the regions of [l]. *)
Definition same_outside (l : list region) (m m' : memory) : Prop :=
  forall a, ~ in_regions a l -> ld8 m' a = ld8 m a.

Lemma same_outside_refl l m : same_outside l m m.
Proof. by intros a _. Qed.

Lemma same_outside_trans l1 l2 m1 m2 m3 :
  same_outside l1 m1 m2 -> same_outside l2 m2 m3 ->
  (forall a, in_regions a l1 \/ in_regions a l2 -> in_regions a l1) -> same_outside l1 m1 m3.
Proof. intros H1 H2 Hs a Ha. rewrite H2, H1; [done..|]. intros ?. apply Ha, Hs. by right. Qed.

Lemma same_outside_sub l1 l2 m m' :
  (forall a, in_regions a l1 -> in_regions a l2) -> same_outside l1 m m' -> same_outside l2 m m'.
Proof. intros Hs H a Ha. apply H. intros ?. by apply Ha, Hs. Qed.

(** A header store stays inside its block. *)
Lemma same_outside_st32 m r o v l :
  r ∈ l -> r_addr r <= o -> o + 4 <= r_end r -> same_outside l m (st32 m o v).
Proof.
  intros Hr H1 H2 a Ha. assert (Hn : ~ in_region a r) by (intros ?; apply Ha; by exists r).
  unfold in_region in Hn. apply (st32_frame m o v a (a + 1)); lia.
Qed.

Lemma same_outside_store m0 m r o v l :
  r ∈ l -> r_addr r <= o -> o + 4 <= r_end r -> same_outside l m0 m -> same_outside l m0 (st32 m o v).
Proof.
  intros Hr H1 H2 H. eapply same_outside_trans; [exact H|by eapply same_outside_st32|]. tauto.
Qed.

Lemma same_outside_hdr l m m' r :
  8 <= r_len r -> (forall s, s ∈ l -> disjoint_r s r) -> same_outside l m m' -> hdr_agree m m' r.
Proof.
  intros Hl Hd H a Ha. apply H. intros (s & Hs & Hin).
  eapply disjoint_r_bytes; [by apply Hd|exact Hin|]. unfold in_region, r_end. lia.
Qed.

Lemma heap_ok_pos c fl ul : heap_ok c fl ul -> Forall (fun r => 0 < r_addr r) fl.
Proof.
  intros [Hlo ? ? ? Hf ? ? ? ? ?]. eapply Forall_impl; [exact Hf|]. intros r (_ & _ & _ & ? & _). lia.
Qed.

Lemma heap_ok_bounds c fl ul :
  heap_ok c fl ul -> Forall (fun r => 0 < r_addr r /\ 0 < r_len r /\ r_end r < 4294967296) (fl ++ ul).
Proof.
  intros [Hlo Hhi ? ? Hf Hu ? ? ? ?]. apply Forall_app. split;
    [eapply Forall_impl; [exact Hf|]|eapply Forall_impl; [exact Hu|]];
    intros r (H1 & _ & _ & ? & ?); unfold MIN_BLOCK in *; lia.
Qed.

(** * Relinking the predecessor *)

Definition set_link (c : exec_ctx) (prev v : Z) : exec_ctx :=
  if negb (prev =? 0) then set_mem (blk_set_next (mem c) prev v) c else set_alloc_free_head v c.

Lemma set_link_seg c pre q v :
  seg (mem c) (alloc_free_head c) pre q -> spaced 0 pre -> Forall (fun r => 8 <= r_len r) pre ->
  0 <= v < 4294967296 ->
  let c' := set_link c (last_addr 0 pre) v in
  seg (mem c') (alloc_free_head c') pre v /\ same_outside pre (mem c) (mem c') /\
  c' = set_mem (mem c') (set_alloc_free_head (alloc_free_head c') c).
Proof.
  intros Hs Hsp Hl Hv. unfold set_link.
  destruct pre as [|r pre _] using rev_ind.
  - simpl. split_and!; [done|apply same_outside_refl|by destruct c].
  - unfold last_addr. rewrite last_snoc. apply Forall_app in Hl as [Hlp [Hr _]%Forall_cons].
    apply spaced_app in Hsp as (Hp & Hlt & _). pose proof (spaced_last _ _ Hp).
    destruct (Z.eqb_spec (r_addr r) 0); [lia|]. simpl.
    assert (Ho : same_outside [r] (mem c) (blk_set_next (mem c) (r_addr r) v)).
    { apply same_outside_st32 with r; [by left|lia|unfold r_end; lia]. }
    apply seg_snoc in Hs as (H1 & H2 & _). split_and!; [|eapply same_outside_sub; [|exact Ho]|by destruct c].
    + apply seg_snoc. split_and!.
      * eapply seg_agree; [|exact H1]. intros s Hs.
        apply st32_frame. pose proof (spaced_last_In _ _ _ Hp Hs). pose proof (spaced_In _ _ _ Hp Hs).
        rewrite Forall_forall in Hlp. specialize (Hlp s Hs). unfold r_end in *. lia.
      * unfold blk_size, blk_set_next. by rewrite ld32_st32_ne by lia.
      * unfold blk_next, blk_set_next. rewrite ld32_st32. by apply u32_small.
    + intros a. rewrite in_regions_app, in_regions_cons, in_regions_nil. tauto.
Qed.

(** * [do_alloc] *)

Lemma fl_alloc_blk_ok need lo hi fl b fl' :
  fl_alloc need fl = Some (b, fl') -> Forall (blk_ok lo hi) fl -> MIN_BLOCK <= need -> need mod 16 = 0 ->
  blk_ok lo hi b /\ Forall (blk_ok lo hi) fl' /\ need <= r_len b < need + MIN_BLOCK.
Proof.
  unfold fl_alloc. destruct (first_fit need fl) as [[[pre r] post]|] eqn:E; [|done].
  apply first_fit_Some in E as (-> & Hr & _). destruct (take_block need r) as [b0 rest] eqn:Et.
  intros [= <- <-] (Hp & [(R1 & R2 & R3 & R4 & R5) Hq]%Forall_cons)%Forall_app Hn Hm.
  apply take_block_spec in Et as (Ha & Hb & He & Hrest); [|unfold MIN_BLOCK in *; lia].
  assert (Hb0 : r_len b0 mod 16 = 0) by (by destruct Hrest as [[_ ->]|(_ & _ & ->)]).
  unfold blk_ok, r_end in *. split_and!; try lia; try congruence.
  apply Forall_app. split; [done|]. apply Forall_app. split; [|done].
  destruct Hrest as [[-> ->]|(-> & Hm' & _)]; [constructor|]. constructor; [|constructor].
  simpl. split_and!; [lia|mlia|mlia|lia|lia].
Qed.

(** The split: the header writes on the chosen block. *)
Lemma take_block_mem m r post need b rest :
  take_block need r = (b, rest) -> 32 <= need <= r_len r -> 0 <= r_addr r -> r_end r < 2147483648 ->
  blk_size m (r_addr r) = r_len r -> seg m (blk_next m (r_addr r)) post 0 -> spaced (r_end r) post ->
  Forall (fun x => 8 <= r_len x) post ->
  let '(m1, after_next) :=
    if u32 (need + MIN_BLOCK) <=? r_len r then
      let split := u32 (r_addr r + need) in
      (blk_set_size (blk_set_next (blk_set_size m split (u32 (r_len r - need))) split (blk_next m (r_addr r)))
         (r_addr r) need, split)
    else (m, blk_next m (r_addr r)) in
  seg m1 after_next (rest ++ post) 0 /\ blk_size m1 (r_addr b) = r_len b /\
  same_outside [r] m m1 /\ 0 <= after_next < 4294967296.
Proof.
  intros Ht Hn Hp He Hsz Hseg Hsp Hl. unfold take_block, MIN_BLOCK, r_end in *.
  rewrite (u32_small (need + 32)) by lia.
  destruct (Z.leb_spec (need + 32) (r_len r)); simplify_eq.
  - rewrite (u32_small (r_addr r + need)), (u32_small (r_len r - need)) by lia.
    remember (r_addr r + need) as sp eqn:Esp. set (nx := blk_next m (r_addr r)) in *.
    unfold blk_set_size, blk_set_next.
    assert (Ho : same_outside [r] m
       (st32 (st32 (st32 m sp (r_len r - need)) (sp + 4) nx) (r_addr r) need)).
    { do 3 (apply same_outside_store with r; [by left|unfold r_end; lia..|]). apply same_outside_refl. }
    split_and!; [| |done|lia|lia].
    + cbn [app seg]. split_and!; [done| |].
      * cbn [r_addr r_len]. unfold blk_size. rewrite ld32_st32_ne, ld32_st32_ne, ld32_st32 by lia. apply u32_small. lia.
      * assert (Hx : blk_next (st32 (st32 (st32 m sp (r_len r - need)) (sp + 4) nx) (r_addr r) need) sp = nx).
        { unfold blk_next. rewrite ld32_st32_ne, ld32_st32 by lia. apply u32_small, ld32_range. }
        rewrite Hx. eapply seg_agree; [|exact Hseg]. intros s Hs.
        eapply same_outside_hdr; [| |exact Ho].
        -- rewrite Forall_forall in Hl. by apply Hl.
        -- intros y ->%list_elem_of_singleton. left. destruct (spaced_In _ _ _ Hsp Hs). unfold r_end. lia.
    + cbn [r_addr r_len]. unfold blk_size. rewrite ld32_st32. apply u32_small. lia.
  - split_and!; [done|done|apply same_outside_refl|apply ld32_range..].
Qed.

(** Rebuilding the invariant when only memory and the list head change. *)
Lemma heap_ok_intro c fl ul c' fl' ul' :
  heap_ok c fl ul ->
  c' = set_mem (mem c') (set_alloc_free_head (alloc_free_head c') c) ->
  seg (mem c') (alloc_free_head c') fl' 0 -> spaced (alloc_lo c - 1) fl' ->
  Forall (blk_ok (alloc_lo c) (alloc_hi c)) (fl' ++ ul') ->
  Forall (fun b => blk_size (mem c') (r_addr b) = r_len b) ul' ->
  pairwise ul' -> (forall a, in_regions a fl' -> ~ in_regions a ul') ->
  (forall a, in_regions a fl' \/ in_regions a ul' <-> in_regions a fl \/ in_regions a ul) ->
  heap_ok c' fl' ul'.
Proof.
  intros [? ? ? ? ? ? ? ? ? Hc] He Hs Hsp [Hf Hu]%Forall_app Hh Hp Hd Hb.
  rewrite He. split; simpl; try done. intros a. by rewrite Hb.
Qed.

(** The header of a used block is outside the free list. *)
Lemma used_hdr_agree c fl ul m' b :
  heap_ok c fl ul -> b ∈ ul -> same_outside fl (mem c) m' -> hdr_agree (mem c) m' b.
Proof.
  intros [? ? ? ? Hf Hu ? ? Hd ?] Hb Ho. rewrite Forall_forall in Hu. destruct (Hu b Hb) as (Hl & _).
  unfold MIN_BLOCK in Hl. intros a Ha. apply Ho. intros Hin. apply (Hd a Hin). exists b. split; [done|].
  unfold in_region, r_end. lia.
Qed.

Lemma used_hdrs_agree c fl ul m' ul' :
  heap_ok c fl ul -> (forall b, b ∈ ul' -> b ∈ ul) -> same_outside fl (mem c) m' ->
  Forall (fun b => blk_size m' (r_addr b) = r_len b) ul'.
Proof.
  intros Hok Hsub Ho. apply Forall_forall. intros b Hb.
  rewrite (blk_size_agree (mem c)) by (eapply used_hdr_agree; eauto).
  pose proof (hp_hdr _ _ _ Hok) as Hh. rewrite Forall_forall in Hh. by apply Hh, Hsub.
Qed.

Definition WALK_MAX : Z := 4194304.

Lemma do_alloc_spec c fl ul need :
  heap_ok c fl ul -> MIN_BLOCK <= need < 4294967296 -> need mod 16 = 0 ->
  let '(p, c') := do_alloc c need in
  (p = 0 /\ c' = c /\ (fl_alloc need fl = None \/ WALK_MAX <= Z.of_nat (length fl))) \/
  (exists b fl', fl_alloc need fl = Some (b, fl') /\ p = r_addr b + 8 /\ need <= r_len b < need + MIN_BLOCK /\
     heap_ok c' fl' (b :: ul) /\ same_outside fl (mem c) (mem c') /\
     c' = set_mem (mem c') (set_alloc_free_head (alloc_free_head c') c)).
Proof.
  intros Hok Hn Hm. unfold MIN_BLOCK in Hn.
  pose proof (alloc_walk (mem c) need fl 0 _ (hp_seg _ _ _ Hok) (heap_ok_pos _ _ _ Hok)) as Hw.
  unfold do_alloc.
  destruct (loop_for_cases _ 4194304 _ _ _ Hw) as [->|[Hlong [s' ->]]]; cycle 1.
  { left. split_and!; [done..|]. right. unfold WALK_MAX. lia. }
  destruct (first_fit need fl) as [[[pre r] post]|] eqn:E.
  2: { left. split_and!; [done..|]. left. unfold fl_alloc. by rewrite E. }
  apply first_fit_Some in E as Hff. destruct Hff as (-> & Hr & _).
  destruct (take_block need r) as [b rest] eqn:Et.
  assert (Hal : fl_alloc need (pre ++ r :: post) = Some (b, pre ++ rest ++ post)).
  { unfold fl_alloc. by rewrite E, Et. }
  pose proof (heap_ok_bounds _ _ _ Hok) as [Hbd _]%Forall_app.
  destruct (fl_alloc_blk_ok _ _ _ _ _ _ Hal (hp_free _ _ _ Hok) ltac:(unfold MIN_BLOCK; lia) Hm)
    as (Hbok & Hfok & Hbl).
  destruct (fl_alloc_spaced _ _ _ _ _ Hal ltac:(lia) (hp_sp _ _ _ Hok)) as [Hsp' _].
  destruct (fl_alloc_bytes _ _ _ _ _ Hal ltac:(lia) (hp_sp _ _ _ Hok)) as [Hby Hbd'].
  pose proof (take_block_spec _ _ _ _ Et ltac:(lia)) as (Hba & _ & _ & Hrest).
  pose proof Hok as [Hlo Hhi Hseg Hsp Hf Hu Hh Hpw Hd Hc].
  apply seg_app in Hseg as (x & Hs1 & -> & Hsz & Hs2).
  pose proof Hsp as (Hp1 & Hp2 & Hp3 & Hp4)%spaced_mid.
  apply Forall_app in Hf as [Hfp [(R1 & R2 & R3 & R4 & R5) Hfq]%Forall_cons]. unfold MIN_BLOCK in R1.
  assert (H8 : forall l, Forall (blk_ok (alloc_lo c) (alloc_hi c)) l -> Forall (fun x => 8 <= r_len x) l).
  { intros l Hl. eapply Forall_impl; [exact Hl|]. intros y (? & _). unfold MIN_BLOCK in *. lia. }
  pose proof (take_block_mem (mem c) r post need b rest Et ltac:(lia) ltac:(lia) ltac:(lia)
    Hsz Hs2 Hp4 (H8 _ Hfq)) as Ht.
  rewrite Hsz. cbn zeta in Ht |- *.
  destruct (if u32 (need + MIN_BLOCK) <=? r_len r then _ else _) as [m1 after] eqn:Eif.
  destruct Ht as (Ht1 & Ht2 & Ht3 & Ht4).
  assert (Hpre1 : seg m1 (alloc_free_head c) pre (r_addr r)).
  { eapply seg_agree; [|exact Hs1]. intros y Hy. eapply same_outside_hdr; [| |exact Ht3].
    - pose proof (H8 _ Hfp) as H8p. rewrite Forall_forall in H8p. by apply H8p.
    - intros z ->%list_elem_of_singleton. right. pose proof (spaced_last_In _ _ _ Hp1 Hy). lia. }
  pose proof (set_link_seg (set_mem m1 c) pre (r_addr r) after Hpre1
    ltac:(eapply spaced_weaken; [|exact Hp1]; lia) (H8 _ Hfp) Ht4) as (Hk1 & Hk2 & Hk3).
  set (c' := set_link (set_mem m1 c) (last_addr 0 pre) after) in *.
  assert (Hc' : (if negb (last_addr 0 pre =? 0)
     then set_mem (blk_set_next m1 (last_addr 0 pre) after) c
     else set_alloc_free_head after (set_mem m1 c)) = c').
  { subst c'. unfold set_link. by destruct (negb (last_addr 0 pre =? 0)). }
  rewrite Hc', u32_small by (unfold HDR_SIZE, r_end in *; lia). right.
  exists b, (pre ++ rest ++ post).
  assert (Hall : same_outside (pre ++ r :: post) (mem c) (mem c')).
  { eapply same_outside_trans with (l2 := pre ++ r :: post); [| |tauto].
    - eapply same_outside_sub; [|exact Ht3]. intros a. rewrite !in_regions_app, !in_regions_cons, in_regions_nil. tauto.
    - eapply same_outside_sub; [|exact Hk2]. intros a. rewrite !in_regions_app. tauto. }
  split_and!; [done|unfold HDR_SIZE; lia|lia|lia| |done|done].
  assert (Hafter : forall y, r_addr r <= r_addr y -> 8 <= r_len y -> hdr_agree m1 (mem c') y).
  { intros y Hy Hl. eapply same_outside_hdr; [done| |exact Hk2].
    intros z Hz. left. pose proof (spaced_last_In _ _ _ Hp1 Hz). lia. }
  eapply heap_ok_intro; [exact Hok|exact Hk3| |done| | | | |].
  - apply seg_app. exists after. split; [done|]. eapply seg_agree; [|exact Ht1].
    intros y Hy. apply Hafter.
    + apply elem_of_app in Hy as [Hy|Hy].
      * destruct Hrest as [[-> _]|(-> & _)]; [by apply elem_of_nil in Hy|].
        apply list_elem_of_singleton in Hy as ->. simpl. unfold r_end. lia.
      * pose proof (spaced_In _ _ _ Hp4 Hy). unfold r_end in *. lia.
    + pose proof (H8 _ Hfok) as H8f. rewrite Forall_forall in H8f. apply H8f.
      rewrite elem_of_app. by right.
  - apply Forall_app. split; [done|]. by constructor.
  - constructor.
    + rewrite (blk_size_agree m1); [done|]. apply Hafter; [lia|lia].
    + eapply used_hdrs_agree; [exact Hok|done|done].
  - split; [|done]. intros s Hs. rewrite Forall_forall in Hu. destruct (Hu s Hs) as (Hsl & _).
    unfold MIN_BLOCK in Hsl. apply bytes_disjoint_r; [lia|lia|].
    intros a Ha1 Ha2. apply (Hd a); [apply Hby; by left|by exists s].
  - intros a Ha. rewrite in_regions_cons. intros [?|?]; [by eapply Hbd'|].
    apply (Hd a); [apply Hby; by right|done].
  - intros a. rewrite in_regions_cons, Hby. tauto.
Qed.

(** * [yos_free]'s insertion *)

Definition head_addr (l : list region) : Z := match l with [] => 0 | r :: _ => r_addr r end.

Lemma seg_head m p l : seg m p l 0 -> p = head_addr l.
Proof. destruct l; [done|]. by intros (? & _). Qed.

Lemma free_link_left_spec c lb pre b cur pre' b' :
  seg (mem c) (alloc_free_head c) pre cur -> spaced lb pre -> 0 <= lb -> last_end lb pre <= r_addr b ->
  lb < r_addr b -> r_end b < 4294967296 -> 8 <= r_len b -> Forall (fun r => 8 <= r_len r) pre ->
  blk_size (mem c) (r_addr b) = r_len b -> 0 <= cur < 4294967296 ->
  merge_left pre b = (pre', b') ->
  let '(c1, o, s) := free_link_left c (last_addr 0 pre) cur (r_addr b) (r_len b) in
  o = r_addr b' /\ s = r_len b' /\ seg (mem c1) (alloc_free_head c1) (pre' ++ [b']) cur /\
  same_outside (b :: pre) (mem c) (mem c1) /\
  c1 = set_mem (mem c1) (set_alloc_free_head (alloc_free_head c1) c).
Proof.
  intros Hs Hsp Hlb Hle Hlt He Hlen H8 Hsz Hcur Hm. unfold free_link_left, merge_left in *.
  unfold r_end in He.
  destruct pre as [|p pre _] using rev_ind.
  { simpl in *. simplify_eq. split_and!; try done; [cbn [app seg]; split_and!; [done| |]|].
    - unfold blk_size, blk_set_next. by rewrite ld32_st32_ne by lia.
    - unfold blk_next, blk_set_next. rewrite ld32_st32. by apply u32_small.
    - apply same_outside_store with b'; [by left|lia|unfold r_end; lia|apply same_outside_refl]. }
  unfold last_addr, last_end in *. rewrite last_snoc in Hm, Hle |- *.
  apply Forall_app in H8 as [H8 [Hp8 _]%Forall_cons]. apply seg_snoc in Hs as (Hs1 & Hs2 & Hs3).
  apply spaced_app in Hsp as (Hp1 & Hp2 & Hp3 & _). pose proof (spaced_last _ _ Hp1). unfold r_end in Hle.
  rewrite Forall_forall in H8.
  assert (Hpre : forall y, y ∈ pre -> r_addr y + 8 <= r_addr p).
  { intros y Hy. pose proof (spaced_last_In _ _ _ Hp1 Hy). specialize (H8 y Hy). unfold r_end in *. lia. }
  destruct (Z.eqb_spec (r_addr p) 0); [lia|]. simpl negb. cbn [andb]. cbv iota.
  rewrite Hs2, u32_small by lia. unfold r_end in Hm.
  destruct (Z.eqb_spec (r_addr p + r_len p) (r_addr b)).
  - rewrite length_app in Hm. simpl in Hm. replace (length pre + 1 - 1)%nat with (length pre) in Hm by lia.
    rewrite take_app_length in Hm. simplify_eq. rewrite u32_small by lia. simpl. split_and!; try done.
    + apply seg_snoc. simpl. split_and!.
      * eapply seg_agree; [|exact Hs1]. intros y Hy. apply st32_frame. left. by apply Hpre.
      * unfold blk_size, blk_set_size. rewrite ld32_st32. apply u32_small. lia.
      * unfold blk_next, blk_set_size. by rewrite ld32_st32_ne by lia.
    + apply same_outside_store with p; [|lia|unfold r_end; lia|apply same_outside_refl].
      right. apply elem_of_app. right. by left.
  - simplify_eq. simpl. split_and!; try done.
    + rewrite <-app_assoc. apply seg_app. exists (r_addr p). unfold blk_set_next. split.
      * eapply seg_agree; [|exact Hs1]. intros y Hy. specialize (Hpre y Hy).
        eapply agree_on_trans; apply st32_frame; lia.
      * cbn [app seg]. unfold blk_size, blk_next.
        assert (Hn : forall v, ld32 (st32 (st32 (mem c) (r_addr p + 4) (r_addr b')) (r_addr b' + 4) v) (r_addr p + 4) = r_addr b').
        { intros v. rewrite ld32_st32_ne, ld32_st32 by lia. apply u32_small. lia. }
        rewrite Hn, ld32_st32. unfold blk_next in Hcur. rewrite u32_small by lia.
        split_and!; [done| |done| |done]; by rewrite !ld32_st32_ne by lia.
    + apply same_outside_store with b'; [by left|lia|unfold r_end; lia|].
      apply same_outside_store with p; [|lia|unfold r_end; lia|apply same_outside_refl].
      right. apply elem_of_app. right. by left.
Qed.

Lemma free_link_right_spec c lb pre b post :
  seg (mem c) (alloc_free_head c) (pre ++ b :: post) 0 -> spaced lb pre -> last_end lb pre < r_addr b ->
  0 <= lb -> spaced (r_end b - 1) post -> 8 <= r_len b -> r_end b < 2147483648 ->
  Forall (fun r => 8 <= r_len r /\ r_end r < 2147483648) post -> Forall (fun r => 8 <= r_len r) pre ->
  let c' := free_link_right c (head_addr post) (r_addr b) (r_len b) in
  seg (mem c') (alloc_free_head c') (pre ++ merge_right b post) 0 /\
  same_outside [b] (mem c) (mem c') /\
  c' = set_mem (mem c') (set_alloc_free_head (alloc_free_head c') c).
Proof.
  intros Hs Hsp Hlt Hlb Hpost Hl He H8 H8p. unfold free_link_right, merge_right, r_end in *.
  pose proof (spaced_last _ _ Hsp). unfold r_end in *.
  destruct post as [|n post]; simpl; [by split_and!; [|apply same_outside_refl|destruct c]|].
  apply Forall_cons in H8 as [[Hn8 Hne] H8]. simpl in Hpost. destruct Hpost as (P1 & P2 & P3).
  rewrite u32_small by lia. destruct (Z.eqb_spec (r_addr n) 0); [lia|]. simpl negb. cbn [andb].
  destruct (Z.eqb_spec (r_addr b + r_len b) (r_addr n));
    [|by split_and!; [|apply same_outside_refl|destruct c]].
  apply seg_app in Hs as (x & Hs1 & -> & Hs2 & Hs3 & Hs4 & Hs5). rewrite Hs3 in Hs4, Hs5. rewrite Hs4, u32_small by lia.
  rewrite Forall_forall in H8, H8p. simpl.
  unfold blk_set_next, blk_set_size. split_and!.
  - apply seg_app. exists (r_addr b). split.
    + eapply seg_agree; [|exact Hs1]. intros y Hy. pose proof (spaced_last_In _ _ _ Hsp Hy).
      specialize (H8p y Hy). unfold r_end in *. eapply agree_on_trans; apply st32_frame; lia.
    + cbn [seg r_addr r_len]. unfold blk_size. split_and!; [done| |].
      * rewrite ld32_st32_ne, ld32_st32 by lia. apply u32_small. lia.
      * unfold blk_next. rewrite ld32_st32, u32_small by apply ld32_range.
        eapply seg_agree; [|exact Hs5]. intros y Hy.
        destruct (spaced_In _ _ _ P3 Hy). unfold r_end in *. eapply agree_on_trans; apply st32_frame; lia.
  - do 2 (apply same_outside_store with b; [by left|lia|unfold r_end; lia|]). apply same_outside_refl.
  - done.
Qed.

Lemma merge_left_blk_ok lo hi pre b pre' b' :
  merge_left pre b = (pre', b') -> Forall (blk_ok lo hi) pre -> blk_ok lo hi b ->
  Forall (blk_ok lo hi) pre' /\ blk_ok lo hi b'.
Proof.
  unfold merge_left. intros H Hp Hb. destruct pre as [|p pre _] using rev_ind; [by simplify_eq/=|].
  rewrite last_snoc in H. pose proof Hp as [Hp' [(P1 & P2 & P3 & P4 & P5) _]%Forall_cons]%Forall_app.
  destruct (Z.eqb_spec (r_end p) (r_addr b)); simplify_eq; [|done].
  split; [by apply Forall_take|]. destruct Hb as (B1 & B2 & B3 & B4 & B5).
  unfold blk_ok, r_end, MIN_BLOCK in *. simpl. split_and!; [lia|done|mlia|lia|lia].
Qed.

Lemma merge_right_blk_ok lo hi b post :
  blk_ok lo hi b -> Forall (blk_ok lo hi) post -> Forall (blk_ok lo hi) (merge_right b post).
Proof.
  intros Hb Hp. destruct post as [|n post]; [by constructor|]. simpl.
  destruct (Z.eqb_spec (r_end b) (r_addr n)); [|by constructor].
  apply Forall_cons in Hp as [(P1 & P2 & P3 & P4 & P5) Hp]. constructor; [|done].
  destruct Hb as (B1 & B2 & B3 & B4 & B5).
  unfold blk_ok, r_end, MIN_BLOCK in *. simpl. split_and!; [lia|done|mlia|lia|lia].
Qed.

#[export] Instance heap_ok_perm c fl : Proper ((≡ₚ) ==> iff) (heap_ok c fl).
Proof.
  assert (H : forall u1 u2, u1 ≡ₚ u2 -> heap_ok c fl u1 -> heap_ok c fl u2).
  { intros u1 u2 Hp [? ? ? ? ? ? ? ? ? ?]. split; try done; try by rewrite <-Hp.
    - intros a Ha. by rewrite <-Hp; auto.
    - intros a. by rewrite <-Hp. }
  intros u1 u2 Hp. split; by apply H.
Qed.

Lemma free_link_spec c fl b ul :
  heap_ok c fl (b :: ul) ->
  let '(pre, post) := fl_span (r_addr b) fl in
  let c' := free_link c (last_addr 0 pre) (head_addr post) (r_addr b) (r_len b) in
  heap_ok c' (fl_insert b fl) ul /\ same_outside (b :: fl) (mem c) (mem c') /\
  c' = set_mem (mem c') (set_alloc_free_head (alloc_free_head c') c).
Proof.
  intros Hok. destruct (fl_span (r_addr b) fl) as [pre post] eqn:Es.
  pose proof Hok as [Hlo Hhi Hseg Hsp Hf Hu Hh Hpw Hd Hc].
  apply Forall_cons in Hu as [(B1 & B2 & B3 & B4 & B5) Hu]. unfold MIN_BLOCK in B1.
  apply Forall_cons in Hh as [Hbs Hh].
  assert (Hdb : forall a, in_region a b -> ~ in_regions a fl).
  { intros a Ha Hfa. apply (Hd a Hfa), in_regions_cons. by left. }
  destruct (fl_insert_spec _ b fl Hsp ltac:(lia) ltac:(lia) Hdb) as [Hisp Hib].
  pose proof (fl_span_fits _ _ _ _ _ Es Hsp ltac:(lia) ltac:(lia) Hdb) as (Hp & Hle & Hq).
  pose proof (fl_span_app _ _ _ _ Es) as ->. unfold fl_insert in *. rewrite Es in *.
  apply seg_app in Hseg as (x & Hs1 & Hs2). pose proof (seg_head _ _ _ Hs2) as ->.
  assert (H8 : Forall (fun r => 8 <= r_len r /\ r_end r < 2147483648 /\ 0 <= r_addr r) (pre ++ post)).
  { eapply Forall_impl; [exact Hf|]. intros y (? & ? & ? & ? & ?). unfold MIN_BLOCK in *. lia. }
  apply Forall_app in H8 as [H8p H8q].
  assert (Hcur : 0 <= head_addr post < 4294967296).
  { destruct post as [|n post]; simpl; [lia|]. apply Forall_cons in H8q as [(? & ? & ?) _]. unfold r_end in *. lia. }
  assert (H8p' : Forall (fun r => 8 <= r_len r) pre) by (eapply Forall_impl; [exact H8p|]; tauto).
  destruct (merge_left pre b) as [pre' b'] eqn:Em.
  pose proof (free_link_left_spec c (alloc_lo c - 1) pre b (head_addr post) pre' b' Hs1 Hp ltac:(lia) Hle
    ltac:(lia) ltac:(lia) ltac:(lia) H8p' Hbs Hcur Em) as HL.
  unfold free_link. destruct (free_link_left c _ _ _ _) as [[c1 o] s].
  destruct HL as (-> & -> & Hk1 & Hk2 & Hk3).
  destruct (merge_left_spec _ _ _ _ _ Em Hp Hle ltac:(lia) ltac:(lia)) as (Hp' & Hlt & Hl' & He & Hmb).
  apply Forall_app in Hf as [Hfp Hfq].
  destruct (merge_left_blk_ok _ _ _ _ _ _ Em Hfp ltac:(done)) as [Hfp' Hb'].
  assert (Hs2' : seg (mem c1) (head_addr post) post 0).
  { eapply seg_agree; [|exact Hs2]. intros y Hy. rewrite Forall_forall in H8q.
    destruct (H8q y Hy) as (? & ? & ?). destruct (spaced_In _ _ _ Hq Hy).
    eapply same_outside_hdr; [lia| |exact Hk2]. intros z [->|Hz]%elem_of_cons; left; [lia|].
    pose proof (spaced_last_In _ _ _ Hp Hz). unfold r_end in *. lia. }
  assert (Hs' : seg (mem c1) (alloc_free_head c1) (pre' ++ b' :: post) 0).
  { rewrite cons_middle, app_assoc. apply seg_app. by exists (head_addr post). }
  assert (Hge : forall l, Forall (blk_ok (alloc_lo c) (alloc_hi c)) l -> Forall (fun r => 8 <= r_len r) l).
  { intros l Hl. eapply Forall_impl; [exact Hl|]. intros y (? & _). unfold MIN_BLOCK in *. lia. }
  pose proof (free_link_right_spec c1 (alloc_lo c - 1) pre' b' post Hs' Hp' Hlt ltac:(lia)
    ltac:(by rewrite He) ltac:(destruct Hb'; unfold MIN_BLOCK in *; lia) ltac:(lia)
    ltac:(eapply Forall_impl; [exact H8q|]; intros ? (? & ? & ?); done) (Hge _ Hfp')) as (Hr1 & Hr2 & Hr3).
  set (c' := free_link_right c1 (head_addr post) (r_addr b') (r_len b')) in *.
  assert (Hframe : c' = set_mem (mem c') (set_alloc_free_head (alloc_free_head c') c)).
  { rewrite Hr3 at 1. rewrite Hk3. done. }
  assert (Hsame : same_outside (b :: pre ++ post) (mem c) (mem c')).
  { eapply same_outside_trans with (l2 := b :: pre ++ post); [| |tauto].
    - eapply same_outside_sub; [|exact Hk2]. intros a. rewrite !in_regions_cons, in_regions_app. tauto.
    - eapply same_outside_sub; [|exact Hr2]. intros a. specialize (Hmb a).
      rewrite !in_regions_cons, in_regions_app, in_regions_nil. tauto. }
  split_and!; [|done|done].
  eapply heap_ok_intro; [exact Hok|exact Hframe|exact Hr1|exact Hisp| | | | |].
  - rewrite <-app_assoc. apply Forall_app. split; [done|]. apply Forall_app. split; [|done].
    by apply merge_right_blk_ok.
  - apply Forall_forall. intros y Hy. rewrite Forall_forall in Hh, Hu.
    destruct (Hu y Hy) as (Hyl & _). unfold MIN_BLOCK in Hyl.
    rewrite (blk_size_agree (mem c)); [by apply Hh|].
    eapply same_outside_hdr; [lia| |exact Hsame]. intros z [->|Hz]%elem_of_cons; [by apply Hpw|].
    apply bytes_disjoint_r; [|lia|].
    + assert (Hz8 : 8 <= r_len z); [|lia]. pose proof (Hge _ (proj2 (Forall_app _ _ _) (conj Hfp Hfq))) as Hg.
      rewrite Forall_forall in Hg. by apply Hg.
    + intros a Ha1 Ha2. apply (Hd a); [by exists z|]. apply in_regions_cons. right. by exists y.
  - apply Hpw.
  - intros a. rewrite Hib. intros [Ha|Ha] Hu'; [|by apply (Hd a Ha), in_regions_cons; right].
    destruct Hu' as (s & Hs & Hsa). eapply disjoint_r_bytes; [by apply Hpw|exact Ha|exact Hsa].
  - intros a. rewrite Hib, in_regions_cons. tauto.
Qed.
