(* ===== verification/AllocProps.v ===== *)
(** What the guest heap guarantees: specifications of malloc, free, calloc,
    realloc and posix_memalign on the invariant of [HeapInv.v], traces of a
    client that keeps the malloc contract, and the 32-bit wrap-arounds. *)
From S2P Require Import Prelude Memory Ctx Alloc FreeList HeapInv.

Lemma land_15 x : Z.land x 15 = x mod 16.
Proof. change 15 with (Z.ones 4). by rewrite Z.land_ones. Qed.

Lemma align_up_16 x : align_up x 16 = u32 (x + 15) - u32 (x + 15) mod 16.
Proof. unfold align_up. exact (land_lnot_pow2 _ 4 ltac:(lia)). Qed.

(** The largest request whose block size does not wrap. *)
Definition MALLOC_MAX : Z := 4294967272.

Lemma malloc_need_spec size :
  0 <= size <= MALLOC_MAX ->
  size + 8 <= malloc_need size < Z.max size 1 + 8 + 32 /\ MIN_BLOCK <= malloc_need size < 4294967296 /\
  malloc_need size mod 16 = 0.
Proof.
  unfold MALLOC_MAX, malloc_need, HDR_SIZE, MIN_BLOCK, ALIGN. intros H.
  rewrite align_up_16.
  assert (Hs : forall s, 0 < s <= 4294967272 -> u32 (u32 (s + 8) + 15) = s + 23).
  { intros s Hs. rewrite (u32_small (s + 8)), u32_small by lia. lia. }
  destruct (Z.eqb_spec size 0) as [->|].
  - by vm_compute.
  - rewrite Hs by lia. zcase; mlia.
Qed.

Lemma malloc_need_wrap size :
  MALLOC_MAX < size < 4294967296 -> malloc_need size = MIN_BLOCK.
Proof.
  unfold MALLOC_MAX, malloc_need, HDR_SIZE, MIN_BLOCK, ALIGN, u32. intros H.
  rewrite align_up_16. unfold u32. destruct (Z.eqb_spec size 0); [lia|]. zcase; [done|]. mlia.
Qed.

(** * Initialisation *)

(** A context whose heap has not been carved yet. *)
Record heap_fresh (c : exec_ctx) : Prop := {
  hf_lo : alloc_lo c = 0;
  hf_hi : alloc_hi c = 0;
  hf_brk : 0 < heap_end c <= memory_size c / 2;
  hf_size : memory_size c <= UINT32_MAX
}.

Lemma alloc_init_spec c c1 :
  heap_fresh c -> alloc_init_locked c = Some c1 ->
  heap_ok c1 [Region (alloc_lo c1) (alloc_hi c1 - alloc_lo c1)] [] /\
  heap_end c <= alloc_lo c1 /\ heap_end c1 = alloc_hi c1 /\ alloc_hi c1 <= memory_size c / 2 /\
  same_outside [Region (alloc_lo c1) (alloc_hi c1 - alloc_lo c1)] (mem c) (mem c1).
Proof.
  intros [Hlo Hhi Hb Hs]. unfold alloc_init_locked. rewrite Hhi. cbn [negb Z.eqb].
  unfold UINT32_MAX, ALIGN in *. rewrite align_up_16, (u32_small (heap_end c + 15)) by mlia.
  change 4095 with (2 ^ 12 - 1). rewrite land_lnot_pow2 by lia. change (2 ^ 12) with 4096.
  set (lo := heap_end c + 15 - (heap_end c + 15) mod 16).
  set (hi := memory_size c / 2 - (memory_size c / 2) mod 4096).
  assert (Hlo' : heap_end c <= lo <= heap_end c + 15 /\ lo mod 16 = 0) by (subst lo; mlia).
  assert (Hhi' : hi <= memory_size c / 2 /\ hi mod 16 = 0 /\ hi < 2147483648) by (subst hi; mlia).
  clearbody lo hi. rewrite (u32_small (lo + 1048576)) by mlia.
  destruct (Z.leb_spec hi (lo + 1048576)); intros [= <-]. rewrite u32_small by mlia.
  unfold blk_set_size, blk_set_next. cbn [alloc_lo alloc_hi heap_end mem set_heap_end set_mem set_alloc_free_head set_alloc_hi set_alloc_lo].
  split_and!; [|lia|done|lia|].
  - split; simpl; unfold blk_ok, r_end, MIN_BLOCK, UINT32_MAX; simpl.
    + lia.
    + mlia.
    + split_and!; [done| |].
      * unfold blk_size. rewrite ld32_st32_ne, ld32_st32 by lia. apply u32_small. lia.
      * unfold blk_next. rewrite ld32_st32. by apply u32_small.
    + lia.
    + constructor; [|constructor]. simpl. mlia.
    + constructor.
    + constructor.
    + done.
    + intros a _ Ha. by apply in_regions_nil in Ha.
    + intros a. rewrite in_regions_cons, !in_regions_nil. unfold in_region, r_end. simpl. lia.
  - do 2 (eapply same_outside_store; [by left|simpl; lia|unfold r_end; simpl; lia|]). apply same_outside_refl.
Qed.

(** Where the heap is put: from the brk, rounded up to 16, to half of memory,
    rounded down to a page. *)
Definition arena_lo (c : exec_ctx) : Z := (heap_end c + 15) / 16 * 16.
Definition arena_hi (c : exec_ctx) : Z := memory_size c / 2 / 4096 * 4096.

Lemma alloc_init_cases c :
  heap_fresh c ->
  match alloc_init_locked c with
  | None => arena_hi c <= arena_lo c + 1048576
  | Some c1 => arena_lo c + 1048576 < arena_hi c /\ alloc_lo c1 = arena_lo c /\ alloc_hi c1 = arena_hi c
  end.
Proof.
  intros [Hlo Hhi Hb Hs]. unfold alloc_init_locked. rewrite Hhi. cbn [negb Z.eqb].
  unfold UINT32_MAX, ALIGN, arena_lo, arena_hi in *.
  rewrite align_up_16, (u32_small (heap_end c + 15)) by mlia.
  change 4095 with (2 ^ 12 - 1). rewrite land_lnot_pow2 by lia. change (2 ^ 12) with 4096.
  replace (heap_end c + 15 - (heap_end c + 15) mod 16) with ((heap_end c + 15) / 16 * 16) by mlia.
  replace (memory_size c / 2 - (memory_size c / 2) mod 4096) with (memory_size c / 2 / 4096 * 4096) by mlia.
  rewrite (u32_small ((heap_end c + 15) / 16 * 16 + 1048576)) by mlia.
  destruct (Z.leb_spec (memory_size c / 2 / 4096 * 4096) ((heap_end c + 15) / 16 * 16 + 1048576)); [done|].
  simpl. done.
Qed.

Lemma alloc_init_done c fl ul : heap_ok c fl ul -> alloc_init_locked c = Some c.
Proof.
  intros [? Hhi ? ? ? ? ? ? ? ?]. unfold alloc_init_locked.
  destruct (Z.eqb_spec (alloc_hi c) 0); [lia|done].
Qed.

(** * malloc *)

(** What a successful allocation of [b], returned as [p], does. *)
Definition allocated (c c' : exec_ctx) (fl fl' ul : list region) (b : region) (p size : Z) : Prop :=
  p = r_addr b + HDR_SIZE /\ size <= r_end b - p /\ heap_ok c' fl' (b :: ul) /\
  fl_alloc (malloc_need size) fl = Some (b, fl') /\ same_outside fl (mem c) (mem c') /\
  c' = set_mem (mem c') (set_alloc_free_head (alloc_free_head c') c).

Definition no_fit (fl : list region) (size : Z) : Prop :=
  fl_alloc (malloc_need size) fl = None \/ WALK_MAX <= Z.of_nat (length fl).

Lemma malloc_spec c fl ul size :
  heap_ok c fl ul -> 0 <= size <= MALLOC_MAX ->
  let '(p, c') := yos_malloc c size in
  (p = 0 /\ c' = c /\ no_fit fl size) \/ exists b fl', allocated c c' fl fl' ul b p size.
Proof.
  intros Hok Hsz. destruct (malloc_need_spec size Hsz) as (H1 & H2 & H3).
  unfold yos_malloc. rewrite (alloc_init_done _ _ _ Hok).
  pose proof (do_alloc_spec c fl ul _ Hok H2 H3) as Hd.
  destruct (do_alloc c (malloc_need size)) as [p c'].
  destruct Hd as [Hd|(b & fl' & Ha & -> & Hl & Hok' & Hs & Hf)]; [by left|right].
  exists b, fl'. unfold allocated, HDR_SIZE, r_end. split_and!; try done. lia.
Qed.

(** The 32-bit block size of any request. *)
Lemma malloc_need_range size :
  0 <= size < 4294967296 -> MIN_BLOCK <= malloc_need size < 4294967296 /\ malloc_need size mod 16 = 0.
Proof.
  intros Hs. destruct (Z.le_gt_cases size MALLOC_MAX).
  - destruct (malloc_need_spec size) as (? & ? & ?); [lia|]. done.
  - rewrite malloc_need_wrap by lia. by vm_compute.
Qed.

(** The walk fails exactly when none of the nodes it may visit fits. *)
Lemma do_alloc_fails c fl ul need :
  heap_ok c fl ul ->
  (do_alloc c need).1 = 0 <-> Forall (fun r => r_len r < need) (take (Z.to_nat WALK_MAX) fl).
Proof.
  intros Hok. rewrite <-first_fit_None. unfold do_alloc, WALK_MAX. rewrite loop_for_nat, Z2Nat.inj_pos.
  pose proof (alloc_walk_prefix (mem c) need (Pos.to_nat 4194304) fl 0 _
    (hp_seg _ _ _ Hok) (heap_ok_pos _ _ _ Hok)) as Hw.
  destruct (loop_nat _ _ _) as [|[[prev cur]|]]; [done| |done].
  destruct Hw as (Hne & r & Hr & ->). split; [|done].
  pose proof (hp_free _ _ _ Hok) as Hf. rewrite Forall_forall in Hf.
  destruct (Hf r Hr) as (R1 & R2 & R3 & R4 & R5). pose proof (hp_lo _ _ _ Hok). pose proof (hp_hi _ _ _ Hok).
  unfold HDR_SIZE, r_end, MIN_BLOCK in *.
  destruct (if u32 (need + _) <=? _ then _ else _) as [m1 after]. simpl.
  rewrite u32_small by lia. lia.
Qed.

(** The bytes of the used blocks do not change. *)
Lemma used_bytes c fl ul m' a :
  heap_ok c fl ul -> same_outside fl (mem c) m' -> in_regions a ul -> ld8 m' a = ld8 (mem c) a.
Proof. intros Hok Hs Ha. apply Hs. intros Hf. by apply (hp_disj _ _ _ Hok a). Qed.

(** * free *)

(** The pointers that stand for block [b]: the one malloc returned, or one
    posix_memalign shifted. *)
Definition ptr_ok (m : memory) (b : region) (p : Z) : Prop :=
  p = r_addr b + HDR_SIZE \/
  (p mod 16 = 0 /\ r_addr b + HDR_SIZE + 4 <= p < r_end b /\ ld32 m (p - 4) = r_addr b + HDR_SIZE).

Lemma unshift_spec c fl ul b p :
  heap_ok c fl (b :: ul) -> ptr_ok (mem c) b p -> unshift_user_off c p = r_addr b + HDR_SIZE.
Proof.
  intros [Hlo Hhi ? ? ? Hu Hh ? ? ?] Hp. apply Forall_cons in Hu as [(B1 & B2 & B3 & B4 & B5) _].
  apply Forall_cons in Hh as [Hb _]. unfold unshift_user_off. rewrite land_15.
  unfold ptr_ok, HDR_SIZE, MIN_BLOCK, r_end in *. destruct Hp as [->|(Hm & Hr & Hl)].
  - destruct (Z.eqb_spec ((r_addr b + 8) mod 16) 0).
    + exfalso. mlia.
    + cbn [negb]. reflexivity.
  - rewrite Hl, Hm, !u32_small by (rewrite ?u32_small by lia; lia). cbn [Z.eqb negb].
    replace (r_addr b + 8 - 8) with (r_addr b) by lia. rewrite Hb, u32_small by lia.
    unfold MIN_BLOCK, r_end in *.
    repeat match goal with |- context [?x <? ?y] => destruct (Z.ltb_spec x y); [mlia|] 
      | |- context [?x <=? ?y] => destruct (Z.leb_spec x y); [mlia|] end. done.
Qed.

Lemma spaced_length lb fl : spaced lb fl -> Z.of_nat (length fl) <= last_end lb fl - lb.
Proof.
  revert lb. induction fl as [|r fl IH]; intros lb; [unfold last_end; simpl; lia|].
  intros (H1 & H2 & H3). specialize (IH _ H3).
  assert (last_end lb (r :: fl) = last_end (r_end r) fl) as ->.
  { unfold last_end. rewrite last_cons. by destruct (last fl). }
  change (length (r :: fl)) with (S (length fl)). unfold r_end in *. lia.
Qed.

Lemma free_list_short c fl ul : heap_ok c fl ul -> Z.of_nat (S (length fl)) <= 4294967296.
Proof.
  intros Hok. pose proof (spaced_length _ _ (hp_sp _ _ _ Hok)).
  destruct Hok as [Hlo Hhi ? ? Hf ? ? ? ? ?]. unfold last_end in *.
  destruct (last fl) as [r|] eqn:E; [|lia]. apply last_Some_elem_of in E.
  rewrite Forall_forall in Hf. destruct (Hf r E) as (_ & _ & _ & _ & ?). lia.
Qed.

Lemma inside_heap c fl ul b p :
  heap_ok c fl (b :: ul) -> ptr_ok (mem c) b p -> p <> 0 /\ outside_heap c p = false.
Proof.
  intros [Hlo Hhi ? ? ? Hu ? ? ? ?] Hp. apply Forall_cons in Hu as [(B1 & B2 & B3 & B4 & B5) _].
  unfold outside_heap, HDR_SIZE, MIN_BLOCK, r_end in *. rewrite u32_small by lia.
  assert (r_addr b + 8 <= p < r_addr b + r_len b).
  { destruct Hp as [->|(_ & ? & _)]; unfold r_end, HDR_SIZE in *; lia. }
  split; [lia|]. destruct (Z.ltb_spec p (alloc_lo c + 8)), (Z.leb_spec (alloc_hi c) p); done || lia.
Qed.

Lemma free_spec c fl ul b p :
  heap_ok c fl (b :: ul) -> ptr_ok (mem c) b p ->
  exists c', yos_free c p = Some c' /\ heap_ok c' (fl_insert b fl) ul /\
    same_outside (b :: fl) (mem c) (mem c') /\
    c' = set_mem (mem c') (set_alloc_free_head (alloc_free_head c') c).
Proof.
  intros Hok Hp. destruct (inside_heap _ _ _ _ _ Hok Hp) as [Hp0 Hout].
  pose proof (unshift_spec _ _ _ _ _ Hok Hp) as Hun.
  pose proof (free_list_short _ _ _ Hok) as Hlen.
  pose proof (heap_ok_bounds _ _ _ Hok) as [Hbd _]%Forall_app.
  pose proof (free_link_spec _ _ _ _ Hok) as Hlink.
  pose proof Hok as [Hlo Hhi Hseg Hsp _ Hu Hh _ Hd _].
  apply Forall_cons in Hu as [(B1 & B2 & B3 & B4 & B5) _]. apply Forall_cons in Hh as [Hb _].
  assert (Hin : forall r, r ∈ fl -> r_addr r < r_addr b -> r_end r <= r_addr b).
  { intros r Hr Hlt. destruct (Z.le_gt_cases (r_end r) (r_addr b)); [done|]. exfalso.
    apply (Hd (r_addr b)); [exists r; split; [done|unfold in_region; lia]|].
    apply in_regions_cons. left. unfold in_region, r_end, MIN_BLOCK in *. lia. }
  pose proof (free_walk (mem c) (r_addr b) fl 0 _ Hseg Hbd Hin) as Hw.
  unfold yos_free. apply Z.eqb_neq in Hp0. rewrite Hp0, Hout, Hun.
  unfold HDR_SIZE, MIN_BLOCK, r_end in *. replace (r_addr b + 8 - 8) with (r_addr b) by lia.
  rewrite (u32_small (r_addr b)), Hb, u32_small by lia.
  destruct (Z.ltb_spec (r_len b) 32); [lia|]. destruct (Z.ltb_spec (alloc_hi c) (r_addr b + r_len b)); [lia|].
  cbn [orb]. rewrite (loop_for_reaches _ _ _ _ _ Hlen Hw).
  destruct (fl_span (r_addr b) fl) as [pre post] eqn:Es. cbn [fst snd].
  assert (Hhd : head_addr post <> r_addr b).
  { apply fl_span_app in Es as ->. destruct post as [|n post]; simpl; [lia|]. intros He.
    apply (Hd (r_addr b)).
    - apply in_regions_app. right. apply in_regions_cons. left. rewrite <-He.
      rewrite Forall_app, Forall_cons in Hbd. destruct Hbd as [_ [(? & ? & ?) _]].
      unfold in_region, r_end in *. lia.
    - apply in_regions_cons. left. unfold in_region, r_end. lia. }
  change (match post with [] => 0 | r :: _ => r_addr r end) with (head_addr post).
  apply Z.eqb_neq in Hhd. rewrite Hhd. eauto.
Qed.

(** * Stores to payloads *)

Definition payload (b : region) : region := Region (r_addr b + HDR_SIZE) (r_len b - HDR_SIZE).

Lemma pairwise_neq ul s b a :
  pairwise ul -> s ∈ ul -> b ∈ ul -> s <> b -> in_region a s -> in_region a b -> False.
Proof.
  intros Hp Hs Hb Hne. apply list_elem_of_split in Hs as (l1 & l2 & ->).
  rewrite <-Permutation_middle in Hp, Hb. destruct Hp as [Hp _].
  apply elem_of_cons in Hb as [->|Hb]; [done|]. apply disjoint_r_bytes. by apply Hp.
Qed.

(** A change that spares every header keeps the heap: inside the heap only the
    payloads of used blocks are written. *)
Lemma heap_ok_writes c fl ul m' :
  heap_ok c fl ul ->
  (forall a, alloc_lo c <= a < alloc_hi c -> ~ in_regions a (map payload ul) -> ld8 m' a = ld8 (mem c) a) ->
  heap_ok (set_mem m' c) fl ul.
Proof.
  intros Hok Hs. pose proof Hok as [Hlo Hhi Hseg Hsp Hf Hu Hh Hpw Hd Hc].
  assert (Hin : forall a b, in_region a (payload b) -> r_addr b + 8 <= a /\ in_region a b).
  { unfold in_region, payload, r_end, HDR_SIZE. simpl. lia. }
  assert (Hps : forall a, in_regions a (map payload ul) -> exists b, b ∈ ul /\ r_addr b + 8 <= a /\ in_region a b).
  { intros a (p & Hp & Ha). apply list_elem_of_fmap in Hp as (b & -> & Hb). exists b. split; [done|]. by apply Hin. }
  rewrite Forall_forall in Hu, Hf.
  eapply heap_ok_intro; [exact Hok|by destruct c| |done| | |done|done|done]; simpl.
  - eapply seg_agree; [|exact Hseg]. intros r Hr a Ha.
    destruct (Hf r Hr) as (R1 & _ & _ & R4 & R5). unfold MIN_BLOCK, r_end in *.
    apply Hs; [lia|]. intros (b & Hb & _ & Hab)%Hps.
    apply (Hd a); [exists r|exists b]; split; [done| |done..].
    unfold in_region, r_end. lia.
  - apply Forall_app. by rewrite !Forall_forall.
  - apply Forall_forall. intros s Hs'. rewrite Forall_forall in Hh. rewrite <-(Hh s Hs').
    destruct (Hu s Hs') as (R1 & _ & _ & R4 & R5). unfold MIN_BLOCK, r_end in *.
    apply blk_size_agree. intros a Ha. apply Hs; [lia|]. intros (b & Hb & Hba & Hab)%Hps.
    destruct (decide (s = b)) as [->|Hne]; [lia|].
    eapply (pairwise_neq ul s b); [done..| |done]. unfold in_region, r_end. lia.
Qed.

Lemma heap_ok_write c fl ul b m' :
  heap_ok c fl ul -> b ∈ ul ->
  (forall a, alloc_lo c <= a < alloc_hi c -> ~ in_region a (payload b) -> ld8 m' a = ld8 (mem c) a) ->
  heap_ok (set_mem m' c) fl ul.
Proof.
  intros Hok Hb Hs. apply heap_ok_writes; [done|]. intros a Ha Hn. apply Hs; [done|]. intros Hp. apply Hn.
  exists (payload b). split; [|done]. by apply list_elem_of_fmap_2.
Qed.

Lemma heap_ok_payload c fl ul b m' :
  heap_ok c fl ul -> b ∈ ul -> same_outside [payload b] (mem c) m' -> heap_ok (set_mem m' c) fl ul.
Proof.
  intros Hok Hb Hs. apply (heap_ok_write _ _ _ b); [done..|]. intros a _ Ha. apply Hs.
  rewrite in_regions_cons, in_regions_nil. tauto.
Qed.

Lemma in_payload a b : in_region a (payload b) <-> r_addr b + HDR_SIZE <= a < r_end b.
Proof. unfold in_region, payload, r_end. simpl. lia. Qed.

Lemma same_outside_memset l m a v n :
  (forall x, a <= x < a + n -> in_regions x l) -> same_outside l m (memset m a v n).
Proof.
  intros Hi x Hx. apply ld8_memset_out.
  destruct (Z.lt_ge_cases x a); [by left|]. destruct (Z.lt_ge_cases x (a + n)); [|by right].
  exfalso. apply Hx, Hi. lia.
Qed.

Lemma same_outside_memcpy l m dst src n :
  (forall x, dst <= x < dst + n -> in_regions x l) -> same_outside l m (memcpy m dst src n).
Proof.
  intros Hi x Hx. apply (memcpy_frame m dst src n x (x + 1)); [|lia].
  destruct (Z.lt_ge_cases x dst); [left; lia|]. destruct (Z.lt_ge_cases x (dst + n)); [|by right].
  exfalso. apply Hx, Hi. lia.
Qed.

Lemma used_blk c fl ul b :
  heap_ok c fl ul -> b ∈ ul ->
  blk_ok (alloc_lo c) (alloc_hi c) b /\ blk_size (mem c) (r_addr b) = r_len b.
Proof.
  intros [? ? ? ? ? Hu Hh ? ? ?] Hb. rewrite Forall_forall in Hu, Hh. split; [by apply Hu|by apply Hh].
Qed.

Lemma heap_ok_lo c fl ul : heap_ok c fl ul -> 0 < alloc_lo c /\ alloc_hi c < 2147483648.
Proof. intros [? ? ? ? ? ? ? ? ? ?]. lia. Qed.

Lemma alloc_inside c fl ul size b fl' a :
  heap_ok c fl ul -> fl_alloc (malloc_need size) fl = Some (b, fl') -> 0 <= size <= MALLOC_MAX ->
  in_region a b -> in_regions a fl.
Proof.
  intros Hok Hfa Hs Hb. destruct (malloc_need_spec size Hs) as (_ & H & _). unfold MIN_BLOCK in H.
  destruct (fl_alloc_bytes _ _ _ _ _ Hfa ltac:(lia) (hp_sp _ _ _ Hok)) as [Hby _]. apply Hby. by left.
Qed.

(** * calloc *)

Lemma calloc_spec c fl ul nmemb size :
  heap_ok c fl ul -> 0 <= nmemb -> 0 <= size -> nmemb * size <= MALLOC_MAX ->
  let '(p, c') := yos_calloc c nmemb size in
  (p = 0 /\ c' = c /\ no_fit fl (nmemb * size)) \/
  exists b fl', p = r_addr b + HDR_SIZE /\ nmemb * size <= r_end b - p /\ heap_ok c' fl' (b :: ul) /\
    same_outside fl (mem c) (mem c') /\ (forall a, p <= a < r_end b -> ld8 (mem c') a = 0) /\
    c' = set_mem (mem c') (set_alloc_free_head (alloc_free_head c') c).
Proof.
  intros Hok Hn Hs Hm. unfold yos_calloc, mul_overflows.
  assert (negb (nmemb =? 0) && (UINT32_MAX / nmemb <? size) = false) as ->.
  { destruct (Z.eqb_spec nmemb 0); [done|]. cbn [negb andb]. apply Z.ltb_ge.
    apply Z.div_le_lower_bound; unfold UINT32_MAX, MALLOC_MAX in *; lia. }
  rewrite u32_small by (unfold MALLOC_MAX in *; lia).
  pose proof (malloc_spec c fl ul (nmemb * size) Hok ltac:(lia)) as Ha.
  destruct (yos_malloc c (nmemb * size)) as [p c1].
  destruct Ha as [(-> & -> & Hno)|(b & fl' & Hp & Hle & Hok1 & Hfa & Hso & Hf)]; [by left|].
  destruct (used_blk c1 fl' (b :: ul) b Hok1 ltac:(by left)) as [(B1 & B2 & B3 & B4 & B5) Hsz].
  destruct (heap_ok_lo _ _ _ Hok1) as [L1 L2]. unfold HDR_SIZE, MIN_BLOCK in *.
  destruct (Z.eqb_spec p 0); [unfold r_end in *; lia|]. rewrite Hp.
  replace (r_addr b + 8 - 8) with (r_addr b) by lia. rewrite (u32_small (r_addr b)), Hsz by (unfold r_end in *; lia).
  destruct (Z.ltb_spec 8 (r_len b)); [|lia].
  destruct (Z.ltb_spec (r_len b - 8) (nmemb * size)); [unfold r_end in *; lia|]. right. exists b, fl'.
  assert (Hpay : same_outside [payload b] (mem c1) (memset (mem c1) (r_addr b + 8) 0 (r_len b - 8))).
  { apply same_outside_memset. intros x Hx. rewrite in_regions_cons, in_payload. left.
    unfold r_end, HDR_SIZE. lia. }
  assert (Hbfl : forall a, in_region a b -> in_regions a fl).
  { intros a Ha. eapply alloc_inside; [exact Hok|exact Hfa|lia|done]. }
  simpl. split_and!; [done|lia|by eapply heap_ok_payload; [..|left|]| | |by rewrite Hf].
  - intros a Ha. rewrite Hpay, Hso; [done..|]. rewrite in_regions_cons, in_regions_nil, in_payload.
    intros [Hi|[]]. apply Ha, Hbfl. unfold in_region, HDR_SIZE in *. lia.
  - intros a Ha. rewrite ld8_memset_in; [done|]. unfold r_end in Ha. lia.
Qed.

(** * realloc *)

Lemma insert_bytes c fl b ul a :
  heap_ok c fl (b :: ul) -> in_regions a (b :: fl) -> ~ in_regions a ul.
Proof.
  intros [? ? ? ? ? ? ? Hpw Hd ?] Hin Hu. apply in_regions_cons in Hin as [Hb|Hf].
  - destruct Hu as (s & Hs & Ha). eapply disjoint_r_bytes; [by apply Hpw|exact Hb|exact Ha].
  - apply (Hd a Hf), in_regions_cons. by right.
Qed.

Lemma realloc_spec c fl ul b newsize :
  heap_ok c fl (b :: ul) -> 0 < newsize <= MALLOC_MAX ->
  let p := r_addr b + HDR_SIZE in
  exists q c', yos_realloc c p newsize = Some (q, c') /\
  ((q = 0 /\ c' = c /\ no_fit fl newsize) \/
   (q = p /\ c' = c /\ newsize <= r_end b - p) \/
   (exists b2 fl', q = r_addr b2 + HDR_SIZE /\ newsize <= r_end b2 - q /\
      heap_ok c' (fl_insert b fl') (b2 :: ul) /\ disjoint_r b2 b /\
      (forall i, 0 <= i < r_end b - p -> ld8 (mem c') (q + i) = ld8 (mem c) (p + i)) /\
      (forall a, in_regions a ul -> ld8 (mem c') a = ld8 (mem c) a) /\
      c' = set_mem (mem c') (set_alloc_free_head (alloc_free_head c') c))).
Proof.
  intros Hok Hn p. assert (Hp : ptr_ok (mem c) b p) by by left.
  destruct (inside_heap _ _ _ _ _ Hok Hp) as [Hp0 Hout].
  destruct (used_blk c fl (b :: ul) b Hok ltac:(by left)) as [(B1 & B2 & B3 & B4 & B5) Hsz].
  destruct (heap_ok_lo _ _ _ Hok) as [L1 L2].
  unfold yos_realloc. apply Z.eqb_neq in Hp0. rewrite Hp0, Hout.
  destruct (Z.eqb_spec newsize 0); [lia|]. rewrite (unshift_spec _ _ _ _ _ Hok Hp). fold p.
  unfold MIN_BLOCK, r_end, HDR_SIZE in *. replace (u32 (p - 8)) with (r_addr b) by (rewrite u32_small; lia).
  rewrite Hsz, !u32_small by lia.
  destruct (Z.ltb_spec (r_len b) 8); [lia|]. destruct (Z.ltb_spec (alloc_hi c) (r_addr b + r_len b)); [lia|].
  cbn [orb]. destruct (Z.leb_spec newsize (r_len b - 8)).
  { exists p, c. split; [done|]. right; left. split_and!; [done|done|lia]. }
  pose proof (malloc_spec c fl (b :: ul) newsize Hok ltac:(lia)) as Ha.
  destruct (yos_malloc c newsize) as [q c1].
  destruct Ha as [(-> & -> & Hno)|(b2 & fl' & Hq & Hle & Hok1 & Hfa & Hso & Hf)].
  { exists 0, c. split; [done|]. by left. }
  unfold MIN_BLOCK, r_end, HDR_SIZE in *.
  destruct (used_blk c1 fl' (b2 :: b :: ul) b2 Hok1 ltac:(by left)) as [(D1 & D2 & D3 & D4 & D5) Hsz2].
  destruct (heap_ok_lo _ _ _ Hok1) as [M1 M2]. unfold MIN_BLOCK, r_end in *.
  destruct (Z.eqb_spec q 0); [lia|].
  set (m2 := memcpy (mem c1) q p (r_len b - 8)).
  assert (Hpay : same_outside [payload b2] (mem c1) m2).
  { apply same_outside_memcpy. intros x Hx. rewrite in_regions_cons, in_payload. left. unfold r_end, HDR_SIZE. lia. }
  pose proof (heap_ok_payload _ _ _ b2 m2 Hok1 ltac:(by left) Hpay) as Hok2.
  rewrite (Permutation_swap b b2 ul) in Hok2.
  destruct (free_spec _ _ _ b p Hok2 ltac:(by left)) as (c3 & -> & Hok3 & Hso3 & Hf3).
  exists q, c3. split; [done|]. right; right. exists b2, fl'.
  assert (Hpb : forall i, 0 <= i < r_addr b + r_len b - p -> in_regions (p + i) (b :: ul)).
  { intros i Hi. apply in_regions_cons. left. unfold in_region, r_end. lia. }
  assert (Hd2 : disjoint_r b2 b) by (apply (hp_pw _ _ _ Hok1); by left).
  split_and!; [done|lia|done|done| | |].
  - intros i Hi. rewrite Hso3; simpl.
    + subst m2. rewrite ld8_memcpy_in by lia. replace (p + (q + i - q)) with (p + i) by lia.
      apply Hso. intros Hfl. by apply (hp_disj _ _ _ Hok _ Hfl), Hpb.
    + intros Hin. eapply (insert_bytes _ _ _ _ (q + i) Hok2 Hin).
      apply in_regions_cons. left. unfold in_region, r_end. lia.
  - intros a Ha. rewrite Hso3; simpl.
    + rewrite Hpay.
      * apply Hso. intros Hfl. apply (hp_disj _ _ _ Hok _ Hfl), in_regions_cons. by right.
      * rewrite in_regions_cons, in_regions_nil, in_payload. intros [Hi|[]].
        apply (hp_disj _ _ _ Hok a); [|apply in_regions_cons; by right].
        eapply alloc_inside; [exact Hok|exact Hfa|lia|]. unfold in_region, HDR_SIZE in *. lia.
    + intros Hin. eapply (insert_bytes _ _ _ _ a Hok2 Hin). apply in_regions_cons. by right.
  - rewrite Hf3 at 1. simpl. by rewrite Hf.
Qed.

(** * posix_memalign *)

Lemma ptr_ok_same m m' b p :
  ptr_ok m b p -> (forall a, in_region a b -> a < p -> ld8 m' a = ld8 m a) -> ptr_ok m' b p.
Proof.
  intros [->|(H1 & H2 & H3)] Hs; [by left|right]. split_and!; [done|lia|lia|].
  rewrite <-H3. apply ld32_agree. intros a Ha. apply Hs; [|lia].
  unfold in_region, r_end, HDR_SIZE in *. lia.
Qed.

Lemma pow2_sub k : 2 <= k <= 31 -> 4 <= 2 ^ k <= 2147483648 /\ Z.land (2 ^ k) (2 ^ k - 1) = 0.
Proof.
  intros Hk. split.
  - change 4 with (2 ^ 2). change 2147483648 with (2 ^ 31). split; apply Z.pow_le_mono_r; lia.
  - replace (2 ^ k - 1) with (Z.ones k) by (rewrite Z.ones_equiv; lia).
    rewrite Z.land_ones by lia. apply Z_mod_same_full.
Qed.

(** The shifted pointer: aligned, past the back-pointer slot, within the slack. *)
Lemma aligned_spec raw k :
  4 <= k <= 31 -> raw mod 16 = 8 -> 0 < raw -> raw + 2 ^ k < 4294967296 ->
  let a := Z.land (u32 (raw + 2 ^ k - 1)) (Z.lnot (2 ^ k - 1)) in
  let p := if a =? raw then u32 (raw + 2 ^ k) else a in
  p = a /\ p mod 2 ^ k = 0 /\ p mod 16 = 0 /\ raw + 8 <= p < raw + 2 ^ k.
Proof.
  intros Hk Hr Hp Hlt a p. assert (Hpow : 2 ^ k = 16 * 2 ^ (k - 4)).
  { replace k with (4 + (k - 4)) at 1 by lia. rewrite Z.pow_add_r by lia. done. }
  pose proof (Z.pow_pos_nonneg 2 (k - 4) ltac:(lia) ltac:(lia)) as Hpos.
  assert (Ha : a = 2 ^ k * ((raw + 2 ^ k - 1) / 2 ^ k)).
  { unfold a. rewrite u32_small, land_lnot_pow2 by lia. rewrite Z.mod_eq by lia. lia. }
  assert (Hb : raw <= a < raw + 2 ^ k).
  { pose proof (Z.mod_pos_bound (raw + 2 ^ k - 1) (2 ^ k) ltac:(lia)).
    pose proof (Z.div_mod (raw + 2 ^ k - 1) (2 ^ k) ltac:(lia)). lia. }
  assert (Hm : a mod 16 = 0).
  { rewrite Ha, Hpow, <-Z.mul_assoc, Z.mul_comm. apply Z_mod_mult. }
  assert (Hne : a <> raw) by (intros He; rewrite He in Hm; lia).
  apply Z.eqb_neq in Hne. unfold p. rewrite Hne. apply Z.eqb_neq in Hne.
  split_and!; [done| |done|mlia|lia]. rewrite Ha, Z.mul_comm. apply Z_mod_mult.
Qed.

Lemma memalign_spec c fl ul memptr k size :
  heap_ok c fl ul -> 0 < memptr -> memptr + 4 <= memory_size c ->
  memptr + 4 <= alloc_lo c \/ alloc_hi c <= memptr ->
  2 <= k <= 31 -> 0 <= size -> size + 2 ^ k <= MALLOC_MAX ->
  let '(r, c') := yos_posix_memalign c memptr (2 ^ k) size in
  (r = ENOMEM /\ c' = c) \/
  (r = 0 /\ exists b fl', let p := ld32 (mem c') memptr in
     p mod 2 ^ k = 0 /\ ptr_ok (mem c') b p /\ p + size <= r_end b /\
     heap_ok c' fl' (b :: ul) /\
     (forall a, ~ in_regions a fl -> ~ (memptr <= a < memptr + 4) -> ld8 (mem c') a = ld8 (mem c) a) /\
     c' = set_mem (mem c') (set_alloc_free_head (alloc_free_head c') c)).
Proof.
  intros Hok Hmp Hms Hout Hk Hs0 Hmax. destruct (pow2_sub k Hk) as [Hal Hland].
  unfold yos_posix_memalign. rewrite (u32_small (2 ^ k - 1)), Hland by lia.
  destruct (Z.eqb_spec memptr 0); [lia|]. destruct (Z.ltb_spec (memory_size c) (memptr + 4)); [lia|].
  destruct (Z.ltb_spec (2 ^ k) 4); [lia|]. cbn [orb negb Z.eqb].
  assert (Hout' : forall m v a, alloc_lo c <= a < alloc_hi c -> ld8 (st32 m memptr v) a = ld8 m a).
  { intros m v a Ha. apply (st32_frame m memptr v a (a + 1)); lia. }
  assert (Hany : forall m v a, ~ (memptr <= a < memptr + 4) -> ld8 (st32 m memptr v) a = ld8 m a).
  { intros m v a Ha. apply (st32_frame m memptr v a (a + 1)); lia. }
  unfold HDR_SIZE. destruct (Z.leb_spec (2 ^ k) 8).
  - set (sz := if size =? 0 then 1 else size). assert (Hsz : size <= sz <= MALLOC_MAX /\ 0 <= sz).
    { subst sz. destruct (Z.eqb_spec size 0); unfold MALLOC_MAX in *; lia. }
    pose proof (malloc_spec c fl ul sz Hok ltac:(lia)) as Ha. destruct (yos_malloc c sz) as [p c1].
    destruct Ha as [(-> & -> & _)|(b & fl' & Hp & Hle & Hok1 & Hfa & Hso & Hf)]; [by left|].
    destruct (used_blk c1 fl' (b :: ul) b Hok1 ltac:(by left)) as [(B1 & B2 & B3 & B4 & B5) _].
    destruct (heap_ok_lo _ _ _ Hok1) as [L1 L2]. unfold MIN_BLOCK, HDR_SIZE, r_end in *.
    destruct (Z.eqb_spec p 0); [lia|]. right. split; [done|]. exists b, fl'.
    cbn [mem set_mem]. rewrite ld32_st32, u32_small by lia. split_and!.
    + rewrite Hp. assert (2 ^ k = 4 \/ 2 ^ k = 8) as [-> | ->]; [|mlia|mlia].
      assert (k = 2 \/ k = 3) as [-> | ->]; [|by left|by right].
      assert (k < 4); [|lia]. apply (Z.pow_lt_mono_r_iff 2); lia.
    + by left.
    + lia.
    + apply (heap_ok_write c1 _ _ b); [done|by left|]. intros a Ha _. apply Hout'. by rewrite Hf in Ha.
    + intros a Ha Hm. rewrite Hany by done. by apply Hso.
    + by rewrite Hf.
  - assert (Hk4 : 4 <= k). { destruct (Z.le_gt_cases 4 k); [done|]. exfalso.
      assert (2 ^ k <= 2 ^ 3) by (apply Z.pow_le_mono_r; lia). lia. }
    destruct (Z.eqb_spec (size + 2 ^ k) 0); [lia|].
    destruct (Z.ltb_spec UINT32_MAX (size + 2 ^ k)); [unfold UINT32_MAX, MALLOC_MAX in *; lia|].
    pose proof (malloc_spec c fl ul (size + 2 ^ k) Hok ltac:(lia)) as Ha.
    destruct (yos_malloc c (size + 2 ^ k)) as [raw c1].
    destruct Ha as [(-> & -> & _)|(b & fl' & Hp & Hle & Hok1 & Hfa & Hso & Hf)]; [by left|].
    destruct (used_blk c1 fl' (b :: ul) b Hok1 ltac:(by left)) as [(B1 & B2 & B3 & B4 & B5) _].
    destruct (heap_ok_lo _ _ _ Hok1) as [L1 L2]. unfold MIN_BLOCK, HDR_SIZE, r_end in *.
    destruct (Z.eqb_spec raw 0); [lia|].
    pose proof (aligned_spec raw k ltac:(lia) ltac:(rewrite Hp; mlia) ltac:(lia) ltac:(lia)) as (_ & A2 & A3 & A4).
    cbn zeta in A2, A3, A4 |- *.
    set (p := if _ =? raw then u32 (raw + 2 ^ k) else _) in *. clearbody p.
    right. split; [done|]. exists b, fl'. cbn [mem set_mem].
    rewrite ld32_st32, u32_small by lia.
    assert (Hslot : forall a, ~ in_region a (payload b) -> ld8 (st32 (mem c1) (p - 4) raw) a = ld8 (mem c1) a).
    { intros a Ha. apply (st32_frame (mem c1) (p - 4) raw a (a + 1)); [|lia].
      unfold in_region, payload, r_end, HDR_SIZE in Ha. simpl in Ha. lia. }
    assert (Hlo1 : alloc_lo c1 = alloc_lo c /\ alloc_hi c1 = alloc_hi c) by (by rewrite Hf).
    split_and!; [done| |unfold r_end; lia| | |by rewrite Hf].
    + right. unfold HDR_SIZE, r_end. split_and!; [done|lia|lia|].
      rewrite ld32_st32_ne by lia. rewrite ld32_st32, u32_small by lia. lia.
    + apply (heap_ok_write c1 _ _ b); [done|by left|]. intros a Ha Hna. rewrite Hout' by lia. by apply Hslot.
    + intros a Ha Hm. rewrite Hany by done. rewrite Hslot; [by apply Hso|].
      rewrite in_payload. unfold HDR_SIZE, r_end. intros Hi. apply Ha.
      eapply alloc_inside; [exact Hok|exact Hfa|lia|]. unfold in_region, r_end. lia.
Qed.

(** * Traces *)

(** A client's view: the context and the pointers it holds, each with the block
    it stands for. *)
Definition hstate : Type := exec_ctx * list (region * Z).

(** The block of a pointer malloc just returned, read from its header. *)
Definition block_of (c : exec_ctx) (p : Z) : region :=
  Region (p - HDR_SIZE) (blk_size (mem c) (p - HDR_SIZE)).

(** A client that keeps the contract: frees and stores only what it holds. *)
Inductive heap_step : hstate -> hstate -> Prop :=
| hs_malloc c hs size p c' :
    0 <= size <= MALLOC_MAX -> yos_malloc c size = (p, c') ->
    heap_step (c, hs) (c', if p =? 0 then hs else (block_of c' p, p) :: hs)
| hs_calloc c hs nmemb size p c' :
    0 <= nmemb -> 0 <= size -> nmemb * size <= MALLOC_MAX -> yos_calloc c nmemb size = (p, c') ->
    heap_step (c, hs) (c', if p =? 0 then hs else (block_of c' p, p) :: hs)
| hs_realloc c hs1 hs2 b newsize q c' :
    0 < newsize <= MALLOC_MAX -> yos_realloc c (r_addr b + HDR_SIZE) newsize = Some (q, c') ->
    heap_step (c, hs1 ++ (b, r_addr b + HDR_SIZE) :: hs2)
              (c', if q =? 0 then hs1 ++ (b, r_addr b + HDR_SIZE) :: hs2
                   else if q =? r_addr b + HDR_SIZE then hs1 ++ (b, r_addr b + HDR_SIZE) :: hs2
                   else (block_of c' q, q) :: hs1 ++ hs2)
| hs_free c hs1 hs2 b p c' :
    yos_free c p = Some c' -> heap_step (c, hs1 ++ (b, p) :: hs2) (c', hs1 ++ hs2)
| hs_store c hs b p a v :
    (b, p) ∈ hs -> p <= a < r_end b -> heap_step (c, hs) (set_mem (st8 (mem c) a v) c, hs).

Definition heap_inv (s : hstate) : Prop :=
  exists fl, heap_ok s.1 fl (map fst s.2) /\ Forall (fun h => ptr_ok (mem s.1) h.1 h.2) s.2.

Lemma block_of_used c fl ul b p :
  heap_ok c fl ul -> b ∈ ul -> p = r_addr b + HDR_SIZE -> block_of c p = b.
Proof.
  intros Hok Hb ->. destruct (used_blk _ _ _ _ Hok Hb) as [_ Hs]. unfold block_of, HDR_SIZE.
  replace (r_addr b + 8 - 8) with (r_addr b) by lia. rewrite Hs. by destruct b.
Qed.

(** Pointers stay valid when their blocks keep their bytes. *)
Lemma ptrs_ok_same m m' hs :
  (forall a, in_regions a (map fst hs) -> ld8 m' a = ld8 m a) ->
  Forall (fun h : region * Z => ptr_ok m h.1 h.2) hs -> Forall (fun h => ptr_ok m' h.1 h.2) hs.
Proof.
  intros Hs Hp. rewrite Forall_forall in Hp |- *. intros h Hh. eapply ptr_ok_same; [by apply Hp|].
  intros a Ha _. apply Hs. exists h.1. split; [|done]. by apply (list_elem_of_fmap_2 fst).
Qed.

Lemma heap_inv_alloc c fl hs c' fl' b p :
  heap_ok c fl (map fst hs) -> Forall (fun h => ptr_ok (mem c) h.1 h.2) hs ->
  p = r_addr b + HDR_SIZE -> heap_ok c' fl' (b :: map fst hs) -> same_outside fl (mem c) (mem c') ->
  heap_inv (c', (block_of c' p, p) :: hs).
Proof.
  intros Hok Hps Hp Hok' Hso. exists fl'. simpl.
  rewrite (block_of_used c' fl' (b :: map fst hs) b p) by (done || by left).
  split; [done|]. constructor; [by left|]. eapply ptrs_ok_same; [|exact Hps].
  intros a Ha. by eapply used_bytes.
Qed.

Lemma heap_step_inv s s' : heap_step s s' -> heap_inv s -> heap_inv s'.
Proof.
  intros Hst (fl & Hok & Hps). destruct Hst as [c hs size p c' Hs Hm|c hs nmemb size p c' Hn Hs Hm Hc
    |c hs1 hs2 b newsize q c' Hs Hr|c hs1 hs2 b p c' Hf|c hs b p a v Hb Ha]; simpl in *.
  - pose proof (malloc_spec c fl _ size Hok Hs) as Hsp. rewrite Hm in Hsp.
    destruct Hsp as [(-> & -> & _)|(b & fl' & Hp & _ & Hok' & _ & Hso & _)]; [by exists fl|].
    destruct (Z.eqb_spec p 0) as [->|]; [|by eapply heap_inv_alloc].
    destruct (used_blk _ _ _ b Hok' ltac:(by left)) as [(_ & _ & _ & B4 & _) _].
    destruct (heap_ok_lo _ _ _ Hok'). unfold HDR_SIZE in *. lia.
  - pose proof (calloc_spec c fl _ nmemb size Hok Hn Hs Hm) as Hsp. rewrite Hc in Hsp.
    destruct Hsp as [(-> & -> & _)|(b & fl' & Hp & _ & Hok' & Hso & _)]; [by exists fl|].
    destruct (Z.eqb_spec p 0) as [->|]; [|by eapply heap_inv_alloc].
    destruct (used_blk _ _ _ b Hok' ltac:(by left)) as [(_ & _ & _ & B4 & _) _].
    destruct (heap_ok_lo _ _ _ Hok'). unfold HDR_SIZE in *. lia.
  - assert (Hok1 : heap_ok c fl (b :: map fst (hs1 ++ hs2))).
    { revert Hok. rewrite !map_app. simpl. by rewrite <-Permutation_middle. }
    assert (Hps1 : Forall (fun h => ptr_ok (mem c) h.1 h.2) (hs1 ++ hs2)).
    { rewrite Forall_app, Forall_cons in Hps. rewrite Forall_app. tauto. }
    destruct (realloc_spec c fl _ b newsize Hok1 Hs) as (q' & c2 & Hr' & Hcase).
    rewrite Hr in Hr'. symmetry in Hr'. simplify_eq.
    destruct (heap_ok_lo _ _ _ Hok1) as [L1 _].
    destruct Hcase as [(-> & -> & _)|[(-> & -> & _)|(b2 & fl' & Hq & _ & Hok' & Hd2 & _ & Hso & Hf)]].
    + by exists fl.
    + rewrite Z.eqb_refl. destruct (_ =? 0); by exists fl.
    + destruct (used_blk _ _ _ b2 Hok' ltac:(by left)) as [(B1 & _ & _ & B4 & _) _].
      assert (Hl : alloc_lo c' = alloc_lo c) by (by rewrite Hf). unfold MIN_BLOCK, HDR_SIZE in *.
      destruct (Z.eqb_spec q 0); [lia|]. rewrite (block_of_used _ _ _ b2 q Hok') by (done || by left).
      assert (Hnew : heap_inv (c', (b2, q) :: hs1 ++ hs2)).
      { exists (fl_insert b fl'). simpl. split; [done|]. constructor; [by left|]. by eapply ptrs_ok_same. }
      destruct (Z.eqb_spec q (r_addr b + 8)) as [->|]; [|done].
      exfalso. pose proof (used_blk _ _ _ b Hok1 ltac:(by left)) as [(? & _) _].
      unfold disjoint_r, r_end, MIN_BLOCK in *. lia.
  - assert (Hok1 : heap_ok c fl (b :: map fst (hs1 ++ hs2))).
    { revert Hok. rewrite !map_app. simpl. by rewrite <-Permutation_middle. }
    rewrite Forall_app, Forall_cons in Hps. destruct Hps as (P1 & Pb & P2). simpl in Pb.
    destruct (free_spec _ _ _ _ _ Hok1 Pb) as (c2 & Hf2 & Hok2 & Hso & _). rewrite Hf in Hf2. simplify_eq.
    exists (fl_insert b fl). split; [done|]. simpl. eapply ptrs_ok_same; [|apply Forall_app; split; eassumption].
    intros x Hx. apply Hso. intros Hin. by eapply insert_bytes.
  - assert (Hbu : b ∈ map fst hs) by (by apply (list_elem_of_fmap_2 fst _ (b, p))).
    pose proof Hps as Hps'. rewrite Forall_forall in Hps'. pose proof (Hps' _ Hb) as Hpb. simpl in Hpb.
    assert (Hap : in_region a (payload b)).
    { rewrite in_payload. destruct Hpb as [->|(_ & ? & _)]; lia. }
    exists fl. simpl. split.
    + apply (heap_ok_write _ _ _ b); [done..|]. intros x _ Hx. rewrite ld8_st8.
      destruct (Z.eqb_spec x a); [by subst|done].
    + apply Forall_forall. intros h Hh. eapply ptr_ok_same; [by apply Hps'|].
      intros x Hx Hlt. rewrite ld8_st8. destruct (Z.eqb_spec x a) as [->|]; [|done]. exfalso.
      apply list_elem_of_split in Hb as (h1 & h2 & ->).
      pose proof (hp_pw _ _ _ Hok) as Hpw. rewrite map_app in Hpw. simpl in Hpw.
      rewrite <-Permutation_middle, <-map_app in Hpw. destruct Hpw as [Hpw _].
      rewrite <-Permutation_middle in Hh. apply elem_of_cons in Hh as [->|Hh]; [simpl in *; lia|].
      eapply disjoint_r_bytes; [apply Hpw, (list_elem_of_fmap_2 fst _ _ Hh)| |exact Hx].
      unfold in_region, payload, r_end, HDR_SIZE in *. simpl in Hap. lia.
Qed.
