(* ===== verification/AllocThms.v ===== *)
(** The guest heap's properties: what a client of malloc and friends may rely
    on, and where 32-bit arithmetic breaks the contract.  The lemmas are in
    [AllocProps.v]. *)
From S2P Require Import Prelude Memory Ctx Alloc FreeList HeapInv AllocProps.

(** The heap a program starts with, once carved. *)
Definition carved (c : exec_ctx) : Prop :=
  exists c0, heap_fresh c0 /\ alloc_init_locked c0 = Some c.

Lemma carved_ok c :
  carved c -> heap_ok c [Region (alloc_lo c) (alloc_hi c - alloc_lo c)] [].
Proof. intros (c0 & Hf & Hi). by destruct (alloc_init_spec _ _ Hf Hi). Qed.

Lemma heap_reach_inv c hs s :
  carved c -> hs = [] -> rtc heap_step (c, hs) s -> heap_inv s.
Proof.
  intros Hc -> Hr. assert (Hi : heap_inv (c, [])).
  { eexists. split; [by apply carved_ok|constructor]. }
  remember (c, []) as s0 eqn:E. clear E Hc. induction Hr as [|x y z Hxy _ IH]; [done|].
  apply IH. by eapply heap_step_inv.
Qed.

(** C1: Whatever a client does through malloc, calloc, realloc, free and
    stores to what it holds, starting from a freshly carved heap: the blocks it
    holds are disjoint, lie inside the heap and carry their size, and free
    returns on every pointer it holds (its unbounded list walk terminates). *)
Theorem heap_reachable_safe c0 c hs :
  carved c0 -> rtc heap_step (c0, []) (c, hs) ->
  pairwise (map fst hs) /\
  (forall b p, (b, p) ∈ hs ->
     alloc_lo c <= r_addr b /\ r_addr b + HDR_SIZE <= p < r_end b /\ r_end b <= alloc_hi c <= memory_size c /\
     blk_size (mem c) (r_addr b) = r_len b /\ exists c', yos_free c p = Some c').
Proof.
  intros Hc Hr. destruct (heap_reach_inv _ _ _ Hc eq_refl Hr) as (fl & Hok & Hps). simpl in *.
  split; [by apply Hok|]. intros b p Hb.
  apply list_elem_of_split in Hb as (h1 & h2 & ->).
  assert (Hok1 : heap_ok c fl (b :: map fst (h1 ++ h2))).
  { revert Hok. rewrite !map_app. simpl. by rewrite <-Permutation_middle. }
  rewrite Forall_app, Forall_cons in Hps. destruct Hps as (_ & Hp & _). simpl in Hp.
  destruct (used_blk _ _ _ b Hok1 ltac:(by left)) as [(B1 & B2 & B3 & B4 & B5) Hsz].
  destruct (free_spec _ _ _ _ _ Hok1 Hp) as (c' & Hf & _).
  pose proof (hp_hi _ _ _ Hok1) as [_ Hms]. unfold MIN_BLOCK, HDR_SIZE in *.
  split_and!; [done| | |done|lia|done|by exists c'];
    destruct Hp as [->|(_ & ? & _)]; unfold r_end, HDR_SIZE in *; lia.
Qed.

(** What [yos_malloc] answers from a heap [c1] with the free list [fl] and the
    used blocks [ul]. *)
Definition malloc_answers (c1 : exec_ctx) (fl ul : list region) (size : Z) (a : Z * exec_ctx) : Prop :=
  let '(p, c') := a in
  (p = 0 <-> Forall (fun r => r_len r < malloc_need size) (take (Z.to_nat WALK_MAX) fl)) /\
  (p = 0 -> c' = c1) /\
  (p <> 0 -> exists b fl', p = r_addr b + HDR_SIZE /\ p mod 16 = 8 /\
     alloc_lo c1 <= r_addr b /\ p < r_end b <= alloc_hi c1 /\
     (size <= MALLOC_MAX -> p + size <= r_end b) /\
     (MALLOC_MAX < size -> r_len b < 64) /\
     heap_ok c' fl' (b :: ul) /\ (forall u, u ∈ ul -> disjoint_r b u) /\
     (forall x, ~ in_regions x fl -> ld8 (mem c') x = ld8 (mem c1) x)).

Lemma do_alloc_answers c fl ul size :
  heap_ok c fl ul -> 0 <= size < 4294967296 ->
  malloc_answers c fl ul size (do_alloc c (malloc_need size)).
Proof.
  intros Hok Hs. destruct (malloc_need_range size Hs) as [Hr Hm].
  pose proof (do_alloc_spec c fl ul _ Hok Hr Hm) as Hd.
  pose proof (do_alloc_fails c fl ul (malloc_need size) Hok) as Hno.
  unfold malloc_answers. destruct (do_alloc c (malloc_need size)) as [p c']. split; [exact Hno|].
  destruct Hd as [(-> & -> & _)|(b & fl' & _ & -> & Hl & Hok' & Hso & He)]; [done|].
  destruct (used_blk _ _ _ b Hok' ltac:(by left)) as [(B1 & B2 & B3 & B4 & B5) _].
  assert (Hb : alloc_lo c' = alloc_lo c /\ alloc_hi c' = alloc_hi c) by (by rewrite He).
  pose proof (heap_ok_lo _ _ _ Hok) as [? _]. unfold HDR_SIZE, r_end, MIN_BLOCK in *.
  split; [lia|]. intros _. exists b, fl'. do 4 (split; [done || mlia|]). split.
  { intros Hmax. destruct (malloc_need_spec size ltac:(lia)) as [? _]. lia. }
  split; [intros Hmax; rewrite malloc_need_wrap in Hl by lia; unfold MIN_BLOCK in Hl; lia|].
  split; [done|]. split; [apply (hp_pw _ _ _ Hok')|exact Hso].
Qed.

(** C5: [yos_malloc] of any 32-bit size.  On a heap that has been carved it
    answers 0 exactly when none of the first 2^22 free blocks has the size
    needed, and then changes nothing; else a pointer congruent to 8 modulo 16,
    in a block inside the heap and disjoint from every used block, writing
    only to memory that was free.  The block holds [size] bytes up to
    [MALLOC_MAX]; above it the 32-bit sum of alloc.c:156 wraps and the block
    has fewer than 64 bytes.  The first call carves the heap between the brk
    and half of memory, or answers 0 without effect when less than 1 MiB is
    left there; then it answers as above from the one free block. *)
Theorem malloc_contract c size :
  0 <= size < 4294967296 ->
  (forall fl ul, heap_ok c fl ul -> malloc_answers c fl ul size (yos_malloc c size)) /\
  (heap_fresh c -> arena_hi c <= arena_lo c + 1048576 -> yos_malloc c size = (0, c)) /\
  (heap_fresh c -> arena_lo c + 1048576 < arena_hi c -> exists c1,
     alloc_lo c1 = arena_lo c /\ alloc_hi c1 = arena_hi c /\ heap_end c1 = arena_hi c /\
     (forall x, ~ (arena_lo c <= x < arena_hi c) -> ld8 (mem c1) x = ld8 (mem c) x) /\
     malloc_answers c1 [Region (arena_lo c) (arena_hi c - arena_lo c)] [] size (yos_malloc c size)).
Proof.
  intros Hs. split; [|split].
  - intros fl ul Hok. unfold yos_malloc. rewrite (alloc_init_done _ _ _ Hok). by apply do_alloc_answers.
  - intros Hf Hle. pose proof (alloc_init_cases c Hf) as Hc. unfold yos_malloc.
    destruct (alloc_init_locked c); [lia|done].
  - intros Hf Hlt. pose proof (alloc_init_cases c Hf) as Hc. unfold yos_malloc.
    destruct (alloc_init_locked c) as [c1|] eqn:Hi; [|lia]. destruct Hc as (_ & <- & <-).
    destruct (alloc_init_spec c c1 Hf Hi) as (Hok & _ & He & _ & Hso).
    exists c1. split; [done|]. split; [done|]. split; [done|]. split; [|by apply do_alloc_answers].
    intros x Hx. apply Hso. rewrite in_regions_cons, in_regions_nil. unfold in_region, r_end. simpl. lia.
Qed.

(** C7: Freeing what malloc just returned restores the free list exactly,
    whichever block was split or used whole: no fragmentation is left behind. *)
Theorem malloc_free_roundtrip c fl ul size p c1 :
  heap_ok c fl ul -> 0 <= size <= MALLOC_MAX -> yos_malloc c size = (p, c1) -> p <> 0 ->
  exists c2, yos_free c1 p = Some c2 /\ heap_ok c2 fl ul /\
    (forall a, in_regions a ul -> ld8 (mem c2) a = ld8 (mem c) a).
Proof.
  intros Hok Hs Hm Hp. pose proof (malloc_spec c fl ul size Hok Hs) as Hsp. rewrite Hm in Hsp.
  destruct Hsp as [(-> & _)|(b & fl' & Hpb & _ & Hok' & Hfa & Hso & _)]; [done|].
  destruct (free_spec _ _ _ _ p Hok' ltac:(by left)) as (c2 & Hf & Hok2 & Hso2 & _).
  destruct (malloc_need_spec size Hs) as (_ & Hn & _). unfold MIN_BLOCK in Hn.
  rewrite (fl_alloc_insert _ _ _ _ _ Hfa ltac:(lia) (hp_sp _ _ _ Hok)) in Hok2.
  exists c2. split_and!; [done|done|]. intros a Ha. rewrite Hso2.
  - by eapply used_bytes.
  - intros Hin. by eapply (insert_bytes _ _ _ _ a Hok').
Qed.

(** C6: [yos_free] of a pointer in use (as malloc or posix_memalign returned
    it) returns, implements address-ordered coalescing insertion, and touches
    no byte of the blocks still in use. *)
Theorem free_refines_insert c fl ul b p :
  heap_ok c fl (b :: ul) -> ptr_ok (mem c) b p ->
  exists c', yos_free c p = Some c' /\ heap_ok c' (fl_insert b fl) ul /\
    (forall a, in_regions a ul -> ld8 (mem c') a = ld8 (mem c) a) /\
    (forall a, ~ (alloc_lo c <= a < alloc_hi c) -> ld8 (mem c') a = ld8 (mem c) a).
Proof.
  intros Hok Hp. destruct (free_spec _ _ _ _ _ Hok Hp) as (c' & Hf & Hok' & Hso & _).
  exists c'. split_and!; [done|done| |].
  - intros a Ha. apply Hso. intros Hin. by eapply (insert_bytes _ _ _ _ a Hok).
  - intros a Ha. apply Hso. intros Hin. apply Ha, (hp_cover _ _ _ Hok). revert Hin.
    rewrite !in_regions_cons. tauto.
Qed.

(** No byte is ever lost: when a client has given everything back, the
    free list is a single block that spans the whole heap. *)
Theorem all_freed_one_block c0 c :
  carved c0 -> rtc heap_step (c0, []) (c, []) ->
  alloc_free_head c = alloc_lo c /\ blk_size (mem c) (alloc_lo c) = alloc_hi c - alloc_lo c /\
  blk_next (mem c) (alloc_lo c) = 0.
Proof.
  intros Hc Hr. destruct (heap_reach_inv _ _ _ Hc eq_refl Hr) as (fl & Hok & _). simpl in *.
  pose proof Hok as [Hlo Hhi Hseg Hsp ? ? ? ? ? Hcov].
  assert (fl = [Region (alloc_lo c) (alloc_hi c - alloc_lo c)]) as ->.
  { apply spaced_cover; [lia|done|]. intros a. rewrite <-Hcov, in_regions_nil. tauto. }
  simpl in Hseg. destruct Hseg as (H1 & H2 & H3). rewrite H1 in H2, H3. done.
Qed.

(** A double free, or a free of any block-aligned address inside free
    memory, changes nothing. *)
Theorem double_free_ignored c fl ul p :
  heap_ok c fl ul -> p mod 16 = 8 -> in_regions (p - HDR_SIZE) fl -> yos_free c p = Some c.
Proof.
  intros Hok Hm (r & Hr & Hin). pose proof (free_list_short _ _ _ Hok) as Hlen.
  pose proof (heap_ok_bounds _ _ _ Hok) as [Hbd _]%Forall_app.
  pose proof Hok as [Hlo Hhi Hseg Hsp Hf _ _ _ _ _]. rewrite Forall_forall in Hf.
  destruct (Hf r Hr) as (R1 & R2 & R3 & R4 & R5). unfold in_region, HDR_SIZE, MIN_BLOCK, r_end in *.
  destruct (free_walk_inside (mem c) (p - 8) _ fl 0 _ r Hseg Hbd Hsp Hr ltac:(unfold in_region, r_end; lia))
    as (x & Hw & Hx).
  unfold yos_free, outside_heap, unshift_user_off, HDR_SIZE. rewrite land_15, Hm. cbn [Z.eqb negb].
  destruct (Z.eqb_spec p 0); [done|]. rewrite (u32_small (p - 8)) by lia.
  destruct (_ || _); [done|]. destruct (_ || _); [done|].
  rewrite (loop_for_reaches _ _ _ _ _ Hlen Hw). destruct x as [[prev cur]|]; [|done]. by rewrite Hx, Z.eqb_refl.
Qed.

(** [yos_calloc] returns zeroed memory up to the end of the block, or fails
    without changing anything. *)
Theorem calloc_zeroed c fl ul nmemb size :
  heap_ok c fl ul -> 0 <= nmemb -> 0 <= size -> nmemb * size <= MALLOC_MAX ->
  let '(p, c') := yos_calloc c nmemb size in
  (p = 0 /\ c' = c) \/
  exists b fl', p = r_addr b + HDR_SIZE /\ p + nmemb * size <= r_end b /\ heap_ok c' fl' (b :: ul) /\
    (forall a, p <= a < r_end b -> ld8 (mem c') a = 0) /\
    (forall a, in_regions a ul -> ld8 (mem c') a = ld8 (mem c) a).
Proof.
  intros Hok Hn Hs Hm. pose proof (calloc_spec c fl ul nmemb size Hok Hn Hs Hm) as Hc.
  destruct (yos_calloc c nmemb size) as [p c'].
  destruct Hc as [(-> & -> & _)|(b & fl' & Hp & Hle & Hok' & Hso & Hz & _)]; [by left|right].
  exists b, fl'. split_and!; [done|lia|done|done|]. intros a. by eapply used_bytes.
Qed.

(** [yos_realloc] of a malloc pointer: it fails and changes nothing, stays
    in place, or moves to a block that starts with the whole old payload and
    frees the old one; the other blocks keep their bytes. *)
Theorem realloc_keeps_contents c fl ul b newsize :
  heap_ok c fl (b :: ul) -> 0 < newsize <= MALLOC_MAX ->
  let p := r_addr b + HDR_SIZE in
  exists q c', yos_realloc c p newsize = Some (q, c') /\
  ((q = 0 /\ c' = c) \/
   (exists b' fl', q = r_addr b' + HDR_SIZE /\ q + newsize <= r_end b' /\ heap_ok c' fl' (b' :: ul) /\
      (forall i, 0 <= i < r_end b - p -> ld8 (mem c') (q + i) = ld8 (mem c) (p + i)) /\
      (forall a, in_regions a ul -> ld8 (mem c') a = ld8 (mem c) a))).
Proof.
  intros Hok Hs p. destruct (realloc_spec c fl ul b newsize Hok Hs) as (q & c' & Hr & Hc). fold p in Hr, Hc.
  exists q, c'. split; [done|]. destruct Hc as [(-> & -> & _)|[(-> & -> & Hle)|(b2 & fl' & Hq & Hle & Hok' & _ & Hcp & Hso & _)]].
  - by left.
  - right. exists b, fl. split_and!; [done|lia|done|done|done].
  - right. exists b2, (fl_insert b fl'). split_and!; [done|lia|done|done|done].
Qed.

(** [yos_posix_memalign] stores a pointer with the requested alignment and
    room for [size] bytes, and [yos_free] recovers the block from that shifted
    pointer, restoring the free list. *)
Theorem memalign_then_free c fl ul memptr k size :
  heap_ok c fl ul -> 0 < memptr -> memptr + 4 <= memory_size c ->
  memptr + 4 <= alloc_lo c \/ alloc_hi c <= memptr ->
  2 <= k <= 31 -> 0 <= size -> size + 2 ^ k <= MALLOC_MAX ->
  let '(r, c') := yos_posix_memalign c memptr (2 ^ k) size in
  (r = ENOMEM /\ c' = c) \/
  (r = 0 /\ exists b fl' c2, let p := ld32 (mem c') memptr in
     p mod 2 ^ k = 0 /\ r_addr b + HDR_SIZE <= p /\ p + size <= r_end b /\ heap_ok c' fl' (b :: ul) /\
     yos_free c' p = Some c2 /\ heap_ok c2 (fl_insert b fl') ul).
Proof.
  intros Hok H1 H2 H3 H4 H5 H6.
  pose proof (memalign_spec c fl ul memptr k size Hok H1 H2 H3 H4 H5 H6) as Hm.
  destruct (yos_posix_memalign c memptr (2 ^ k) size) as [r c'].
  destruct Hm as [Hm|(-> & b & fl' & Ha & Hp & Hle & Hok' & _)]; [by left|right].
  destruct (free_spec _ _ _ _ _ Hok' Hp) as (c2 & Hf & Hok2 & _).
  split; [done|]. exists b, fl', c2. split_and!; try done.
  destruct Hp as [->|(_ & ? & _)]; lia.
Qed.

(** The block size of a request above [MALLOC_MAX] wraps round to the
    minimum: malloc answers it as it answers a one-byte request, so a non-null
    result addresses a block of fewer than 64 bytes. *)
Theorem malloc_huge_wraps c fl ul size :
  heap_ok c fl ul -> MALLOC_MAX < size < 4294967296 ->
  yos_malloc c size = yos_malloc c 1 /\
  ((yos_malloc c size).1 <> 0 -> exists b fl',
     (yos_malloc c size).1 = r_addr b + HDR_SIZE /\ r_len b < 64 /\ heap_ok (yos_malloc c size).2 fl' (b :: ul)).
Proof.
  intros Hok Hs. assert (He : yos_malloc c size = yos_malloc c 1).
  { unfold yos_malloc. by rewrite malloc_need_wrap. }
  split; [done|]. rewrite He. intros Hp.
  pose proof (do_alloc_spec c fl ul (malloc_need 1) Hok ltac:(by vm_compute) eq_refl) as Hd.
  unfold yos_malloc in *. rewrite (alloc_init_done _ _ _ Hok) in *.
  destruct (do_alloc c (malloc_need 1)) as [p c']. simpl in *.
  destruct Hd as [(-> & _)|(b & fl' & _ & -> & Hl & Hok' & _)]; [done|].
  exists b, fl'. split_and!; [done| |done]. change (malloc_need 1) with 32 in Hl. unfold MIN_BLOCK in Hl. lia.
Qed.

(** [yos_realloc] of a pointer posix_memalign shifted answers a request
    that fits with the raw block pointer, a different address, and moves
    nothing: the contents are no longer where the caller is told they are. *)
Theorem realloc_shifted_not_preserved c fl ul b p newsize :
  heap_ok c fl (b :: ul) -> ptr_ok (mem c) b p -> p <> r_addr b + HDR_SIZE ->
  0 < newsize <= r_len b - HDR_SIZE ->
  yos_realloc c p newsize = Some (r_addr b + HDR_SIZE, c).
Proof.
  intros Hok Hp Hne Hs. destruct (inside_heap _ _ _ _ _ Hok Hp) as [Hp0 Hout].
  destruct (used_blk c fl (b :: ul) b Hok ltac:(by left)) as [(B1 & B2 & B3 & B4 & B5) Hsz].
  destruct (heap_ok_lo _ _ _ Hok) as [L1 L2].
  unfold yos_realloc. apply Z.eqb_neq in Hp0. rewrite Hp0, Hout, (unshift_spec _ _ _ _ _ Hok Hp).
  unfold MIN_BLOCK, r_end, HDR_SIZE in *. destruct (Z.eqb_spec newsize 0); [lia|].
  replace (r_addr b + 8 - 8) with (r_addr b) by lia.
  rewrite (u32_small (r_addr b)), Hsz, !u32_small by lia.
  destruct (Z.ltb_spec (r_len b) 8); [lia|]. destruct (Z.ltb_spec (alloc_hi c) (r_addr b + r_len b)); [lia|].
  cbn [orb]. by destruct (Z.leb_spec newsize (r_len b - 8)); [|lia].
Qed.

(** [yos_aligned_alloc] and [yos_memalign] accept a 16-byte alignment and
    return a pointer that is never 16-aligned. *)
Theorem aligned_alloc_16_misaligned c fl ul size :
  heap_ok c fl ul -> 0 <= size <= MALLOC_MAX ->
  let '(p, c') := yos_memalign c 16 size in p = 0 \/ p mod 16 = 8.
Proof.
  intros Hok Hs. unfold yos_memalign, yos_aligned_alloc, ALIGN. cbn.
  pose proof (malloc_spec c fl ul size Hok Hs) as Hm. destruct (yos_malloc c size) as [p c'].
  destruct Hm as [(-> & _)|(b & fl' & Hp & _ & Hok' & _)]; [by left|right].
  destruct (used_blk _ _ _ b Hok' ltac:(by left)) as [(B1 & B2 & _) _]. unfold HDR_SIZE in Hp. rewrite Hp. mlia.
Qed.

(** * Witnesses *)

(** A 4 MiB image whose brk is at 64 KiB. *)
Definition image : exec_ctx := ExecCtx (fun _ => 0) 4194304 65536 0 [] [] 0 0 0 0.

Lemma image_fresh : heap_fresh image.
Proof. split; vm_compute; try done; split; done. Qed.

Definition heap0 : exec_ctx := match alloc_init_locked image with Some c => c | None => image end.

Lemma heap0_carved : carved heap0.
Proof. exists image. split; [apply image_fresh|reflexivity]. Qed.

Lemma heap0_ok : heap_ok heap0 [Region 65536 2031616] [].
Proof. exact (carved_ok heap0 heap0_carved). Qed.

(** One block of 112 bytes in use. *)
Definition heap1 : exec_ctx := (yos_malloc heap0 100).2.

Lemma pair_fst {A B} (x : A * B) a : x.1 = a -> x = (a, x.2).
Proof. by destruct x; intros <-. Qed.

Lemma heap1_eq : yos_malloc heap0 100 = (65544, heap1).
Proof. apply pair_fst. by vm_compute. Qed.

Lemma heap1_ok : heap_ok heap1 [Region 65648 2031504] [Region 65536 112].
Proof.
  pose proof (malloc_spec heap0 _ _ 100 heap0_ok ltac:(by vm_compute)) as H.
  rewrite heap1_eq in H.
  destruct H as [[? _]|(b & fl' & Hp & _ & Hok & Hfa & _)]; [done|].
  vm_compute in Hfa. by simplify_eq.
Qed.

Lemma heap1_step : heap_step (heap0, []) (heap1, [(Region 65536 112, 65544)]).
Proof.
  pose proof (hs_malloc heap0 [] 100 65544 heap1 ltac:(by vm_compute) heap1_eq) as H.
  assert (Hb : block_of heap1 65544 = Region 65536 112) by by vm_compute.
  rewrite Hb in H. exact H.
Qed.

Lemma heap_reachable_safe_witness :
  exists c', yos_free heap1 65544 = Some c'.
Proof.
  assert (Hs : rtc heap_step (heap0, []) (heap1, [(Region 65536 112, 65544)])).
  { eapply rtc_l; [apply heap1_step|apply rtc_refl]. }
  apply (heap_reachable_safe heap0 heap1 _ heap0_carved Hs) with (b := Region 65536 112). by left.
Defined.

(** A second call, the first call, and a first call with too little memory. *)
Lemma malloc_contract_witness :
  ((yos_malloc heap1 50).1 = 65656 /\ ld8 (mem (yos_malloc heap1 50).2) 65600 = ld8 (mem heap1) 65600) /\
  (exists c1, alloc_hi c1 = 2097152 /\
     malloc_answers c1 [Region 65536 2031616] [] 50 (yos_malloc image 50)) /\
  yos_malloc (ExecCtx (fun _ => 0) 2097152 65536 0 [] [] 0 0 0 0) 50 =
    (0, ExecCtx (fun _ => 0) 2097152 65536 0 [] [] 0 0 0 0).
Proof.
  split; [|split].
  - split; [by vm_compute|].
    destruct (malloc_contract heap1 50 ltac:(by vm_compute)) as [H _]. specialize (H _ _ heap1_ok).
    rewrite (pair_fst (yos_malloc heap1 50) 65656 ltac:(by vm_compute)) in H.
    destruct H as (_ & _ & H). destruct (H ltac:(done)) as (b & fl' & _ & _ & _ & _ & _ & _ & _ & _ & Hb).
    apply Hb. intros (r & ->%list_elem_of_singleton & [Hr _]). simpl in Hr. lia.
  - destruct (malloc_contract image 50 ltac:(by vm_compute)) as (_ & _ & H).
    destruct (H image_fresh ltac:(by vm_compute)) as (c1 & _ & Hhi & _ & _ & Ha). by exists c1.
  - destruct (malloc_contract (ExecCtx (fun _ => 0) 2097152 65536 0 [] [] 0 0 0 0) 50 ltac:(by vm_compute))
      as (_ & H & _).
    apply H; [|by vm_compute]. split; by vm_compute.
Defined.

Lemma malloc_free_roundtrip_witness :
  exists c2, yos_free (yos_malloc heap1 50).2 65656 = Some c2 /\ heap_ok c2 [Region 65648 2031504] [Region 65536 112].
Proof.
  destruct (malloc_free_roundtrip heap1 _ _ 50 65656 (yos_malloc heap1 50).2 heap1_ok
    ltac:(by vm_compute) (pair_fst (yos_malloc heap1 50) 65656 ltac:(by vm_compute)) ltac:(done)) as (c2 & H1 & H2 & _).
  exact (ex_intro _ c2 (conj H1 H2)).
Defined.

Lemma free_refines_insert_witness :
  exists c', yos_free heap1 65544 = Some c' /\ heap_ok c' [Region 65536 2031616] [].
Proof.
  destruct (free_refines_insert heap1 _ _ _ 65544 heap1_ok ltac:(by left)) as (c' & H1 & H2 & _).
  exact (ex_intro _ c' (conj H1 H2)).
Defined.

Lemma all_freed_one_block_witness :
  exists c, yos_free heap1 65544 = Some c /\ blk_size (mem c) (alloc_lo c) = alloc_hi c - alloc_lo c.
Proof.
  destruct (yos_free heap1 65544) as [c|] eqn:E; [|by vm_compute in E].
  exists c. split; [done|]. apply (all_freed_one_block heap0 c heap0_carved).
  eapply rtc_l; [apply heap1_step|eapply rtc_l; [|apply rtc_refl]].
  exact (hs_free heap1 [] [] (Region 65536 112) 65544 c E).
Defined.

Lemma double_free_ignored_witness :
  yos_free heap1 70008 = Some heap1.
Proof.
  apply (double_free_ignored heap1 _ _ 70008 heap1_ok eq_refl).
  exists (Region 65648 2031504). split; [by left|]. by vm_compute.
Defined.

Lemma calloc_zeroed_witness :
  (yos_calloc heap1 5 8).1 = 65656 /\ ld8 (mem (yos_calloc heap1 5 8).2) 65690 = 0.
Proof.
  split; [by vm_compute|].
  pose proof (calloc_zeroed heap1 _ _ 5 8 heap1_ok ltac:(lia) ltac:(lia) ltac:(by vm_compute)) as H.
  rewrite (pair_fst (yos_calloc heap1 5 8) 65656 ltac:(by vm_compute)) in H.
  destruct H as [[? _]|(b & fl' & Hp & Hle & _ & Hz & _)]; [done|].
  apply Hz. lia.
Defined.

Lemma realloc_keeps_contents_witness :
  exists q c', yos_realloc heap1 65544 200 = Some (q, c') /\ q = 65656.
Proof.
  destruct (realloc_keeps_contents heap1 _ _ _ 200 heap1_ok ltac:(by vm_compute)) as (q & c' & H & _).
  exists q, c'. split; [exact H|]. change (r_addr (Region 65536 112) + HDR_SIZE) with 65544 in H.
  assert (Hq : option_map fst (yos_realloc heap1 65544 200) = Some 65656) by by vm_compute.
  rewrite H in Hq. exact (Some_inj _ _ Hq).
Defined.

Definition heap2 : exec_ctx := (yos_posix_memalign heap1 1024 (2 ^ 6) 100).2.

Lemma heap2_eq : yos_posix_memalign heap1 1024 (2 ^ 6) 100 = (0, heap2).
Proof. apply pair_fst. by vm_compute. Qed.

Lemma memalign_then_free_witness :
  (yos_posix_memalign heap1 1024 (2 ^ 6) 100).1 = 0 /\ ld32 (mem heap2) 1024 = 65664 /\
  exists c2, yos_free heap2 65664 = Some c2.
Proof.
  split; [by vm_compute|]. split; [by vm_compute|].
  pose proof (memalign_then_free heap1 _ _ 1024 6 100 heap1_ok ltac:(lia) ltac:(by vm_compute)
    ltac:(left; by vm_compute) ltac:(lia) ltac:(lia) ltac:(by vm_compute)) as H.
  rewrite heap2_eq in H.
  destruct H as [[? _]|(_ & b & fl' & c2 & _ & _ & _ & _ & Hf & _)]; [done|]. exists c2.
  assert (Hp : ld32 (mem heap2) 1024 = 65664) by by vm_compute.
  rewrite <-Hp. exact Hf.
Defined.

Lemma malloc_huge_wraps_witness :
  (yos_malloc heap1 4294967295).1 = 65656.
Proof.
  destruct (malloc_huge_wraps heap1 _ _ 4294967295 heap1_ok ltac:(by vm_compute)) as [-> _].
  by vm_compute.
Defined.

Lemma aligned_alloc_16_misaligned_witness :
  (yos_memalign heap1 16 40).1 = 65656 /\ 65656 mod 16 = 8.
Proof.
  pose proof (aligned_alloc_16_misaligned heap1 _ _ 40 heap1_ok ltac:(by vm_compute)) as H.
  rewrite (pair_fst (yos_memalign heap1 16 40) 65656 ltac:(by vm_compute)) in H.
  destruct H as [?|H]; [done|]. split; [by vm_compute|exact H].
Defined.

Lemma heap2_ok : exists fl, heap_ok heap2 fl [Region 65648 176; Region 65536 112] /\
  ptr_ok (mem heap2) (Region 65648 176) 65664.
Proof.
  pose proof (memalign_spec heap1 _ _ 1024 6 100 heap1_ok ltac:(lia) ltac:(by vm_compute)
    ltac:(left; by vm_compute) ltac:(lia) ltac:(lia) ltac:(by vm_compute)) as H.
  rewrite heap2_eq in H.
  destruct H as [[? _]|(_ & b & fl' & H)]; [done|].
  assert (Hp : ld32 (mem heap2) 1024 = 65664) by by vm_compute. rewrite Hp in H. cbn zeta in H.
  destruct H as (_ & Hpo & _ & Hok & _ & _).
  destruct (used_blk _ _ _ b Hok ltac:(by left)) as [_ Hsz].
  assert (Hb : b = Region 65648 176); [|subst b; exact (ex_intro _ fl' (conj Hok Hpo))].
  destruct b as [a n]. destruct Hpo as [Ha|(_ & _ & Ha)]; cbn [r_addr r_len] in *.
  - exfalso. destruct (used_blk _ _ _ _ Hok ltac:(by left)) as [(_ & Hm & _) _]. simpl in Hm.
    unfold HDR_SIZE in Ha. assert (a = 65656) as Ea by lia. rewrite Ea in Hm. discriminate Hm.
  - assert (ld32 (mem heap2) (65664 - 4) = 65656) as Hl by by vm_compute. rewrite Hl in Ha.
    unfold HDR_SIZE in Ha. assert (a = 65648) as -> by lia. f_equal. rewrite <-Hsz. by vm_compute.
Qed.

Lemma realloc_shifted_not_preserved_witness :
  exists q, yos_realloc heap2 65664 120 = Some (q, heap2) /\ q <> 65664.
Proof.
  destruct heap2_ok as (fl & Hok & Hp). exists 65656. split; [|done].
  exact (realloc_shifted_not_preserved heap2 fl _ (Region 65648 176) 65664 120 Hok Hp ltac:(done) ltac:(by vm_compute)).
Defined.
