(* ===== verification/Runtime.v ===== *)
(** The runtime that guest processes share (src/src/yos/types.h): the process
    table, the per-process signal and descriptor state, and a log of what the
    program asks of the host.  A pointer to a slot or to a context is its index,
    so two names for one object see each other's writes. *)
From S2P Require Import Prelude Memory Ctx.

Definition YOS_MAX_PROCS : Z := 256.
Definition YOS_NSIG : Z := 32.

Inductive yos_proc_state_t : Type :=
| YOS_PROC_FREE
| YOS_PROC_READY
| YOS_PROC_RUNNING
| YOS_PROC_ZOMBIE.

#[export] Instance yos_proc_state_eq_dec : EqDecision yos_proc_state_t.
Proof. solve_decision. Defined.

(** What reaches the host: thread wake-ups, raw signals, closed descriptors and
    streams, condition broadcasts, calls of guest handlers. *)
Inductive event : Type :=
| Ev_wake (slot : nat)
| Ev_host_kill (slot : nat) (sig : Z)
| Ev_close (hfd : Z)
| Ev_fclose (stream : Z)
| Ev_broadcast (slot : nat)
| Ev_any_exit
| Ev_vfork_done (slot : nat)
| Ev_kqueue_exit (pid : Z)
| Ev_handler (ctx : nat) (signum idx : Z).

(** [thread]: whether the slot has a host thread; [ctx_handle]: the context
    running the process. *)
Record yos_proc : Type := Proc {
  pid : Z;
  ppid : Z;
  pgid : Z;
  sid : Z;
  tgid : Z;
  tid_address : Z;
  state : yos_proc_state_t;
  exit_code : Z;
  term_sig : Z;
  exited : bool;
  vfork_parent_pid : Z;
  vfork_child_done : bool;
  thread : bool;
  ctx_handle : option nat;
  was_orphaned : bool;
}.

Definition set_pid (v : Z) (x : yos_proc) : yos_proc :=
  Proc v (ppid x) (pgid x) (sid x) (tgid x) (tid_address x) (state x) (exit_code x) (term_sig x) (exited x) (vfork_parent_pid x) (vfork_child_done x) (thread x) (ctx_handle x) (was_orphaned x).
Definition set_ppid (v : Z) (x : yos_proc) : yos_proc :=
  Proc (pid x) v (pgid x) (sid x) (tgid x) (tid_address x) (state x) (exit_code x) (term_sig x) (exited x) (vfork_parent_pid x) (vfork_child_done x) (thread x) (ctx_handle x) (was_orphaned x).
Definition set_pgid (v : Z) (x : yos_proc) : yos_proc :=
  Proc (pid x) (ppid x) v (sid x) (tgid x) (tid_address x) (state x) (exit_code x) (term_sig x) (exited x) (vfork_parent_pid x) (vfork_child_done x) (thread x) (ctx_handle x) (was_orphaned x).
Definition set_sid (v : Z) (x : yos_proc) : yos_proc :=
  Proc (pid x) (ppid x) (pgid x) v (tgid x) (tid_address x) (state x) (exit_code x) (term_sig x) (exited x) (vfork_parent_pid x) (vfork_child_done x) (thread x) (ctx_handle x) (was_orphaned x).
Definition set_tgid (v : Z) (x : yos_proc) : yos_proc :=
  Proc (pid x) (ppid x) (pgid x) (sid x) v (tid_address x) (state x) (exit_code x) (term_sig x) (exited x) (vfork_parent_pid x) (vfork_child_done x) (thread x) (ctx_handle x) (was_orphaned x).
Definition set_tid_address (v : Z) (x : yos_proc) : yos_proc :=
  Proc (pid x) (ppid x) (pgid x) (sid x) (tgid x) v (state x) (exit_code x) (term_sig x) (exited x) (vfork_parent_pid x) (vfork_child_done x) (thread x) (ctx_handle x) (was_orphaned x).
Definition set_state (v : yos_proc_state_t) (x : yos_proc) : yos_proc :=
  Proc (pid x) (ppid x) (pgid x) (sid x) (tgid x) (tid_address x) v (exit_code x) (term_sig x) (exited x) (vfork_parent_pid x) (vfork_child_done x) (thread x) (ctx_handle x) (was_orphaned x).
Definition set_exit_code (v : Z) (x : yos_proc) : yos_proc :=
  Proc (pid x) (ppid x) (pgid x) (sid x) (tgid x) (tid_address x) (state x) v (term_sig x) (exited x) (vfork_parent_pid x) (vfork_child_done x) (thread x) (ctx_handle x) (was_orphaned x).
Definition set_term_sig (v : Z) (x : yos_proc) : yos_proc :=
  Proc (pid x) (ppid x) (pgid x) (sid x) (tgid x) (tid_address x) (state x) (exit_code x) v (exited x) (vfork_parent_pid x) (vfork_child_done x) (thread x) (ctx_handle x) (was_orphaned x).
Definition set_exited (v : bool) (x : yos_proc) : yos_proc :=
  Proc (pid x) (ppid x) (pgid x) (sid x) (tgid x) (tid_address x) (state x) (exit_code x) (term_sig x) v (vfork_parent_pid x) (vfork_child_done x) (thread x) (ctx_handle x) (was_orphaned x).
Definition set_vfork_parent_pid (v : Z) (x : yos_proc) : yos_proc :=
  Proc (pid x) (ppid x) (pgid x) (sid x) (tgid x) (tid_address x) (state x) (exit_code x) (term_sig x) (exited x) v (vfork_child_done x) (thread x) (ctx_handle x) (was_orphaned x).
Definition set_vfork_child_done (v : bool) (x : yos_proc) : yos_proc :=
  Proc (pid x) (ppid x) (pgid x) (sid x) (tgid x) (tid_address x) (state x) (exit_code x) (term_sig x) (exited x) (vfork_parent_pid x) v (thread x) (ctx_handle x) (was_orphaned x).
Definition set_thread (v : bool) (x : yos_proc) : yos_proc :=
  Proc (pid x) (ppid x) (pgid x) (sid x) (tgid x) (tid_address x) (state x) (exit_code x) (term_sig x) (exited x) (vfork_parent_pid x) (vfork_child_done x) v (ctx_handle x) (was_orphaned x).
Definition set_ctx_handle (v : option nat) (x : yos_proc) : yos_proc :=
  Proc (pid x) (ppid x) (pgid x) (sid x) (tgid x) (tid_address x) (state x) (exit_code x) (term_sig x) (exited x) (vfork_parent_pid x) (vfork_child_done x) (thread x) v (was_orphaned x).
Definition set_was_orphaned (v : bool) (x : yos_proc) : yos_proc :=
  Proc (pid x) (ppid x) (pgid x) (sid x) (tgid x) (tid_address x) (state x) (exit_code x) (term_sig x) (exited x) (vfork_parent_pid x) (vfork_child_done x) (thread x) (ctx_handle x) v.

(** The part of [struct yos_exec_ctx] that processes and signals use.
    [file_slots] holds host streams, 0 for an empty slot. *)
Record yos_ctx : Type := YosCtx {
  g_exec : exec_ctx;
  g_proc : option nat;
  sig_handlers : list Z;
  sig_ignore_mask : Z;
  sig_mask : Z;
  sig_pending : Z;
  fd_map : list Z;
  file_slots : list Z;
  is_child : bool;
  is_forkpty_child : bool;
}.

Definition set_g_exec (v : exec_ctx) (x : yos_ctx) : yos_ctx :=
  YosCtx v (g_proc x) (sig_handlers x) (sig_ignore_mask x) (sig_mask x) (sig_pending x) (fd_map x) (file_slots x) (is_child x) (is_forkpty_child x).
Definition set_g_proc (v : option nat) (x : yos_ctx) : yos_ctx :=
  YosCtx (g_exec x) v (sig_handlers x) (sig_ignore_mask x) (sig_mask x) (sig_pending x) (fd_map x) (file_slots x) (is_child x) (is_forkpty_child x).
Definition set_sig_handlers (v : list Z) (x : yos_ctx) : yos_ctx :=
  YosCtx (g_exec x) (g_proc x) v (sig_ignore_mask x) (sig_mask x) (sig_pending x) (fd_map x) (file_slots x) (is_child x) (is_forkpty_child x).
Definition set_sig_ignore_mask (v : Z) (x : yos_ctx) : yos_ctx :=
  YosCtx (g_exec x) (g_proc x) (sig_handlers x) v (sig_mask x) (sig_pending x) (fd_map x) (file_slots x) (is_child x) (is_forkpty_child x).
Definition set_sig_mask (v : Z) (x : yos_ctx) : yos_ctx :=
  YosCtx (g_exec x) (g_proc x) (sig_handlers x) (sig_ignore_mask x) v (sig_pending x) (fd_map x) (file_slots x) (is_child x) (is_forkpty_child x).
Definition set_sig_pending (v : Z) (x : yos_ctx) : yos_ctx :=
  YosCtx (g_exec x) (g_proc x) (sig_handlers x) (sig_ignore_mask x) (sig_mask x) v (fd_map x) (file_slots x) (is_child x) (is_forkpty_child x).
Definition set_fd_map (v : list Z) (x : yos_ctx) : yos_ctx :=
  YosCtx (g_exec x) (g_proc x) (sig_handlers x) (sig_ignore_mask x) (sig_mask x) (sig_pending x) v (file_slots x) (is_child x) (is_forkpty_child x).
Definition set_file_slots (v : list Z) (x : yos_ctx) : yos_ctx :=
  YosCtx (g_exec x) (g_proc x) (sig_handlers x) (sig_ignore_mask x) (sig_mask x) (sig_pending x) (fd_map x) v (is_child x) (is_forkpty_child x).
Definition set_is_child (v : bool) (x : yos_ctx) : yos_ctx :=
  YosCtx (g_exec x) (g_proc x) (sig_handlers x) (sig_ignore_mask x) (sig_mask x) (sig_pending x) (fd_map x) (file_slots x) v (is_forkpty_child x).
Definition set_is_forkpty_child (v : bool) (x : yos_ctx) : yos_ctx :=
  YosCtx (g_exec x) (g_proc x) (sig_handlers x) (sig_ignore_mask x) (sig_mask x) (sig_pending x) (fd_map x) (file_slots x) (is_child x) v.

(** [struct yos_runtime], the contexts it reaches, and the process-wide mask of
    signals the host handler latched ([g_host_pending_signals]). *)
Record yos_runtime : Type := Runtime {
  procs : list yos_proc;
  next_pid : Z;
  ctxs : list yos_ctx;
  host_pending : Z;
  log : list event;
}.

Definition set_procs (v : list yos_proc) (x : yos_runtime) : yos_runtime :=
  Runtime v (next_pid x) (ctxs x) (host_pending x) (log x).
Definition set_next_pid (v : Z) (x : yos_runtime) : yos_runtime :=
  Runtime (procs x) v (ctxs x) (host_pending x) (log x).
Definition set_ctxs (v : list yos_ctx) (x : yos_runtime) : yos_runtime :=
  Runtime (procs x) (next_pid x) v (host_pending x) (log x).
Definition set_host_pending (v : Z) (x : yos_runtime) : yos_runtime :=
  Runtime (procs x) (next_pid x) (ctxs x) v (log x).
Definition set_log (v : list event) (x : yos_runtime) : yos_runtime :=
  Runtime (procs x) (next_pid x) (ctxs x) (host_pending x) v.

Definition emit (e : event) (rt : yos_runtime) : yos_runtime := set_log (log rt ++ [e]) rt.
Definition upd_proc (i : nat) (f : yos_proc -> yos_proc) (rt : yos_runtime) : yos_runtime :=
  set_procs (alter f i (procs rt)) rt.
Definition upd_ctx (i : nat) (f : yos_ctx -> yos_ctx) (rt : yos_runtime) : yos_runtime :=
  set_ctxs (alter f i (ctxs rt)) rt.

(** How a call that may end the calling thread comes back. *)
Inductive flow : Type :=
| Running (rt : yos_runtime)
| ThreadExit (rt : yos_runtime)
| HostExit (code : Z) (rt : yos_runtime).

Definition flow_rt (f : flow) : yos_runtime :=
  match f with Running rt | ThreadExit rt | HostExit _ rt => rt end.

Definition flow_bind (f : flow) (k : yos_runtime -> flow) : flow :=
  match f with Running rt => k rt | _ => f end.

(** Bit [n] of a mask. *)
Definition bit (n : Z) : Z := Z.shiftl 1 n.

Lemma lookup_upd_ctx i f rt : ctxs (upd_ctx i f rt) !! i = f <$> ctxs rt !! i.
Proof. apply list_lookup_alter_eq. Qed.

Lemma lookup_upd_ctx_ne i j f rt : i <> j -> ctxs (upd_ctx i f rt) !! j = ctxs rt !! j.
Proof. apply list_lookup_alter_ne. Qed.

Lemma lookup_upd_proc i f rt : procs (upd_proc i f rt) !! i = f <$> procs rt !! i.
Proof. apply list_lookup_alter_eq. Qed.

Lemma lookup_upd_proc_ne i j f rt : i <> j -> procs (upd_proc i f rt) !! j = procs rt !! j.
Proof. apply list_lookup_alter_ne. Qed.
