(* ===== verification/ProcTable.v ===== *)
(** The process table (src/src/yos/impl/proc/proc.c): allocation, lookup,
    signal delivery to a slot, exit and its clean-up, waiting, and the identity
    calls.  Each section under [proc_lock] is one atomic step.

    fork and execve are in Fork.v and Exec.v.  Not modelled: clone, the clocks,
    resource limits, and the diagnostic line [yos_exit] writes for a failed
    exec. *)
From S2P Require Import Prelude Memory Ctx Runtime.

Definition SIGHUP_FB : Z := 1.
Definition SIGKILL_FB : Z := 9.
Definition SIGCHLD_FB : Z := 20.

(** [memset(p, 0, sizeof( *p))] and the field writes of [yos_proc_alloc]. *)
Definition new_proc (pid ppid : Z) : yos_proc :=
  Proc pid ppid pid pid pid 0 YOS_PROC_READY 0 0 false (-1) false false None false.

Definition is_free (p : yos_proc) : bool := bool_decide (state p = YOS_PROC_FREE).
Definition is_zombie (p : yos_proc) : bool := bool_decide (state p = YOS_PROC_ZOMBIE).

(** The first slot that satisfies a test, as the table scans do. *)
Fixpoint find_slot (f : yos_proc -> bool) (l : list yos_proc) (i : nat) : option nat :=
  match l with
  | [] => None
  | p :: l' => if f p then Some i else find_slot f l' (S i)
  end.

Definition yos_proc_alloc (rt : yos_runtime) (ppid : Z) : option nat * yos_runtime :=
  match find_slot is_free (procs rt) 0 with
  | None => (None, rt)
  | Some i =>
      (Some i, set_next_pid (s32 (next_pid rt + 1))
                 (upd_proc i (fun _ => new_proc (next_pid rt) ppid) rt))
  end.

Definition yos_proc_find (rt : yos_runtime) (pid_ : Z) : option nat :=
  find_slot (fun p => (pid p =? pid_) && negb (is_free p)) (procs rt) 0.

Section Host.

(** [pthread_kill]'s result: the host's. *)
Variable pthread_kill : yos_proc -> Z -> Z.

(** The job-control signals [deliver_to_proc] drops. *)
Definition job_control (sig : Z) : bool :=
  (sig =? 17) || (sig =? 18) || (sig =? 19) || (sig =? 21) || (sig =? 22).

(** [__atomic_or_fetch(&target->sig_pending, 1u << sig, ...)] *)
Definition post_pending (c : nat) (sig : Z) (rt : yos_runtime) : yos_runtime :=
  upd_ctx c (fun x => set_sig_pending (Z.lor (sig_pending x) (bit sig)) x) rt.

Definition deliver_to_proc (rt : yos_runtime) (i : nat) (sig : Z) : Z * yos_runtime :=
  match procs rt !! i with
  | None => (- ESRCH, rt)
  | Some p =>
      if is_free p || is_zombie p then (- ESRCH, rt)
      else if sig =? 0 then (0, rt)
      else if negb (thread p) then (- ESRCH, rt)
      else if job_control sig then (0, rt)
      else if sig =? 9 then
        let rt1 := match ctx_handle p with Some c => post_pending c 9 rt | None => rt end in
        (0, emit (Ev_wake i) rt1)
      else
        let rt1 := match ctx_handle p with
                   | Some c => if (0 <? sig) && (sig <? 32) then post_pending c sig rt else rt
                   | None => rt
                   end in
        let rc := pthread_kill p 12 in
        (if rc =? 0 then 0 else - rc, emit (Ev_wake i) rt1)
  end.

Definition yos_proc_kill_by_pid (rt : yos_runtime) (pid_ sig : Z) : Z * yos_runtime :=
  match yos_proc_find rt pid_ with
  | None => (- ESRCH, rt)
  | Some i => deliver_to_proc rt i sig
  end.

(** * Exit *)

(** The descriptors and streams of the exiting process. *)
Definition close_fds (ci : nat) (rt : yos_runtime) : yos_runtime :=
  match ctxs rt !! ci with
  | None => rt
  | Some c =>
      let rt1 := foldl (fun r hfd => if 3 <=? hfd then emit (Ev_close hfd) r else r) rt (fd_map c) in
      upd_ctx ci (fun x => set_fd_map (map (fun hfd => if 3 <=? hfd then -1 else hfd) (fd_map x)) x) rt1
  end.

Definition close_files (ci : nat) (rt : yos_runtime) : yos_runtime :=
  match ctxs rt !! ci with
  | None => rt
  | Some c =>
      let rt1 := foldl (fun r fp => if fp =? 0 then r else emit (Ev_fclose fp) r) rt (file_slots c) in
      upd_ctx ci (fun x => set_file_slots (map (fun _ => 0) (file_slots x)) x) rt1
  end.

Definition is_orphan (exiting : Z) (p : yos_proc) : bool :=
  negb (is_free p) && (ppid p =? exiting) && negb (pid p =? exiting).

(** Reparenting to init. *)
Definition reparent (exiting : Z) (p : yos_proc) : yos_proc :=
  if is_orphan exiting p then set_was_orphaned true (set_ppid 1 p) else p.

Definition ignores_sigchld (rt : yos_runtime) (parent : Z) (p : yos_proc) : bool :=
  negb (is_free p) && (pid p =? parent) &&
  match ctx_handle p with
  | Some c => match ctxs rt !! c with
              | Some x => negb (Z.land (sig_ignore_mask x) (bit SIGCHLD_FB) =? 0)
              | None => false
              end
  | None => false
  end.

(** The auto-reap of the exiting slot. *)
Definition auto_reap (ignored : bool) (p : yos_proc) : yos_proc :=
  if ignored && is_zombie p then set_ctx_handle None (set_state YOS_PROC_FREE p) else p.

Definition yos_proc_post_exit_cleanup (rt : yos_runtime) (ci : nat) : yos_runtime :=
  match ctxs rt !! ci with
  | None => rt
  | Some c =>
      match g_proc c with
      | None => rt
      | Some slot =>
          match procs rt !! slot with
          | None => rt
          | Some me =>
              let rt1 := close_files ci (close_fds ci rt) in
              let orphans := map pid (List.filter (is_orphan (pid me)) (procs rt1)) in
              let ignored := was_orphaned me || existsb (ignores_sigchld rt1 (ppid me)) (procs rt1) in
              let rt2 := set_procs (map (reparent (pid me)) (procs rt1)) rt1 in
              let rt3 := upd_proc slot (auto_reap ignored) rt2 in
              let rt4 := foldl (fun r q => (yos_proc_kill_by_pid r q SIGHUP_FB).2) rt3 orphans in
              if is_forkpty_child c then (yos_proc_kill_by_pid rt4 (ppid me) SIGCHLD_FB).2 else rt4
          end
      end
  end.

(** The exit record, written only over a live state. *)
Definition mark_exited (code : Z) (p : yos_proc) : yos_proc :=
  match state p with
  | YOS_PROC_READY | YOS_PROC_RUNNING => set_exited true (set_exit_code code (set_state YOS_PROC_ZOMBIE p))
  | _ => p
  end.

(** Releasing a vfork parent. *)
Definition vfork_release (slot : nat) (rt : yos_runtime) : yos_runtime :=
  match procs rt !! slot with
  | None => rt
  | Some me =>
      if 0 <? vfork_parent_pid me then
        let rt1 := match yos_proc_find rt (vfork_parent_pid me) with
                   | Some pi => emit (Ev_vfork_done pi) (upd_proc pi (set_vfork_child_done true) rt)
                   | None => rt
                   end in
        upd_proc slot (set_vfork_parent_pid (-1)) rt1
      else rt
  end.

(** CLONE_CHILD_CLEARTID: zero the guest's tid word. *)
Definition clear_tid (slot ci : nat) (rt : yos_runtime) : yos_runtime :=
  match procs rt !! slot, ctxs rt !! ci with
  | Some me, Some c =>
      if negb (tid_address me =? 0) && (u32 (tid_address me + 4) <=? memory_size (g_exec c))
      then upd_ctx ci (fun x => set_g_exec (set_mem (st32 (mem (g_exec x)) (tid_address me) 0) (g_exec x)) x) rt
      else rt
  | _, _ => rt
  end.

Definition yos_exit (rt : yos_runtime) (ci : nat) (code : Z) : flow :=
  match ctxs rt !! ci with
  | None => Running rt
  | Some c =>
      let rt1 :=
        match g_proc c with
        | None => rt
        | Some slot =>
            let r1 := clear_tid slot ci (vfork_release slot rt) in
            let r2 := emit (Ev_broadcast slot) (upd_proc slot (mark_exited code) r1) in
            emit Ev_any_exit (yos_proc_post_exit_cleanup r2 ci)
        end in
      if is_child c then
        ThreadExit (match g_proc c with
                    | Some slot => match procs rt1 !! slot with
                                   | Some p => emit (Ev_kqueue_exit (pid p)) rt1
                                   | None => rt1
                                   end
                    | None => rt1
                    end)
      else HostExit code rt1
  end.

Definition yos_proc_exit_group (rt : yos_runtime) (ci : nat) (error_code : Z) : flow :=
  yos_exit rt ci error_code.

End Host.

(** * Waiting *)

Section Wait.

Variable remap_errno_h2g : Z -> Z.

Definition WNOHANG : Z := 1.

Definition pid_matches (want : Z) (p : yos_proc) : bool := (want =? -1) || (pid p =? want).

Definition find_zombie_child (rt : yos_runtime) (ppid_ want : Z) : option nat :=
  find_slot (fun p => is_zombie p && (ppid p =? ppid_) && pid_matches want p) (procs rt) 0.

Definition has_children (rt : yos_runtime) (ppid_ want : Z) : bool :=
  existsb (fun p => negb (is_free p) && (ppid p =? ppid_) && pid_matches want p) (procs rt).

(** The status word of a reaped process. *)
Definition wait_status (p : yos_proc) : Z :=
  if term_sig p =? 0 then Z.shiftl (Z.land (exit_code p) 255) 8 else Z.land (term_sig p) 127.

Definition upd_exec (ci : nat) (f : exec_ctx -> exec_ctx) (rt : yos_runtime) : yos_runtime :=
  upd_ctx ci (fun x => set_g_exec (f (g_exec x)) x) rt.

(** Free the slot and report. *)
Definition reap (rt : yos_runtime) (ci slot : nat) (stat_addr : Z) : Z * yos_runtime :=
  match procs rt !! slot, ctxs rt !! ci with
  | Some child, Some c =>
      let rt1 := upd_proc slot (set_state YOS_PROC_FREE) rt in
      (pid child,
       if negb (stat_addr =? 0) && (stat_addr <? u32 (memory_size (g_exec c) - 4))
       then upd_exec ci (fun e => set_mem (st32 (mem e) stat_addr (wait_status child)) e) rt1
       else rt1)
  | _, _ => (0, rt)
  end.

(** The blocking loop: [env] is what the rest of the system does to the runtime
    during each sleep.  [None]: still asleep when [env] ends. *)
Fixpoint wait_loop (env : list (yos_runtime -> yos_runtime)) (rt : yos_runtime)
    (ci : nat) (my_pid want stat_addr : Z) : option (Z * yos_runtime) :=
  match find_zombie_child rt my_pid want with
  | Some slot => Some (reap rt ci slot stat_addr)
  | None =>
      match env with
      | [] => None
      | f :: env' => wait_loop env' (f rt) ci my_pid want stat_addr
      end
  end.

Definition my_proc (rt : yos_runtime) (ci : nat) : option yos_proc :=
  match ctxs rt !! ci with
  | Some c => match g_proc c with Some slot => procs rt !! slot | None => None end
  | None => None
  end.

Definition yos_waitpid (env : list (yos_runtime -> yos_runtime)) (rt : yos_runtime)
    (ci : nat) (want stat_addr options : Z) : option (Z * yos_runtime) :=
  match my_proc rt ci with
  | None => None
  | Some me =>
      if negb (has_children rt (pid me) want) then
        Some (-1, upd_exec ci (fun e => write_errno remap_errno_h2g e ECHILD) rt)
      else
        match find_zombie_child rt (pid me) want with
        | None => if Z.land options WNOHANG =? 0 then wait_loop env rt ci (pid me) want stat_addr
                  else Some (0, rt)
        | Some slot => Some (reap rt ci slot stat_addr)
        end
  end.

Definition yos_wait env rt ci stat_addr := yos_waitpid env rt ci (-1) stat_addr 0.

(** [wait3] zeroes the rusage first. *)
Definition yos_wait3 env (rt : yos_runtime) (ci : nat) (stat_addr options ru : Z) :=
  let rt1 := match ctxs rt !! ci with
             | Some c => if negb (ru =? 0) && (u32 (ru + 72) <=? memory_size (g_exec c))
                         then upd_exec ci (fun e => set_mem (memset (mem e) ru 0 72) e) rt else rt
             | None => rt
             end in
  yos_waitpid env rt1 ci (-1) stat_addr options.

Definition yos_wait4 env (rt : yos_runtime) (ci : nat) (want stat_addr options ru : Z) :=
  yos_waitpid env rt ci want stat_addr options.

End Wait.

(** * Identity *)

Definition yos_getpid (rt : yos_runtime) (ci : nat) : Z :=
  match my_proc rt ci with Some p => tgid p | None => 1 end.
Definition yos_getppid (rt : yos_runtime) (ci : nat) : Z :=
  match my_proc rt ci with Some p => ppid p | None => 0 end.
Definition yos_getpgrp (rt : yos_runtime) (ci : nat) : Z :=
  match my_proc rt ci with Some p => pgid p | None => 1 end.
Definition yos_gettid (rt : yos_runtime) (ci : nat) : Z :=
  match my_proc rt ci with Some p => pid p | None => 1 end.

Definition slot_of (rt : yos_runtime) (ci : nat) : option nat :=
  match ctxs rt !! ci with Some c => g_proc c | None => None end.

Definition yos_getsid (rt : yos_runtime) (ci : nat) (pid_ : Z) : Z :=
  if pid_ =? 0 then match my_proc rt ci with Some p => sid p | None => 1 end
  else match yos_proc_find rt pid_ with
       | Some i => match procs rt !! i with Some p => sid p | None => - ESRCH end
       | None => - ESRCH
       end.

Definition yos_getpgid (rt : yos_runtime) (ci : nat) (pid_ : Z) : Z :=
  if pid_ =? 0 then match my_proc rt ci with Some p => pgid p | None => 1 end
  else match yos_proc_find rt pid_ with
       | Some i => match procs rt !! i with Some p => pgid p | None => - ESRCH end
       | None => - ESRCH
       end.

Definition yos_setpgid (rt : yos_runtime) (ci : nat) (pid_ pgid_ : Z) : Z * yos_runtime :=
  match slot_of rt ci with
  | None => (- ESRCH, rt)
  | Some me =>
      match (if pid_ =? 0 then Some me else yos_proc_find rt pid_) with
      | None => (- ESRCH, rt)
      | Some i =>
          match procs rt !! i with
          | None => (- ESRCH, rt)
          | Some target =>
              let new_pgid := if pgid_ =? 0 then pid target else pgid_ in
              if new_pgid <=? 0 then (- EINVAL, rt) else (0, upd_proc i (set_pgid new_pgid) rt)
          end
      end
  end.

Definition yos_setsid (rt : yos_runtime) (ci : nat) : Z * yos_runtime :=
  match slot_of rt ci with
  | None => (- ESRCH, rt)
  | Some i =>
      match procs rt !! i with
      | None => (- ESRCH, rt)
      | Some p =>
          if (pgid p =? pid p) && (sid p =? pid p) then (sid p, rt)
          else (pid p, upd_proc i (fun q => set_pgid (pid q) (set_sid (pid q) q)) rt)
      end
  end.

Definition yos_proc_set_tid_address (rt : yos_runtime) (ci : nat) (tidptr : Z) : Z * yos_runtime :=
  match slot_of rt ci with
  | None => (1, rt)
  | Some i =>
      match procs rt !! i with
      | None => (1, rt)
      | Some p => (pid p, upd_proc i (set_tid_address tidptr) rt)
      end
  end.
