(* ===== verification/Sigset.v ===== *)
(** Guest signal sets (src/src/yos/impl/proc/sig.c, signal.c): the 16-byte
    FreeBSD [sigset_t] in linear memory, the signal-number tables and the
    conversions to and from the host's sets.

    A host [sigset_t] is opaque in the C code ([sigemptyset], [sigaddset],
    [sigismember]); it is modelled by the mask of its members, bit [h] for host
    signal [h]. *)
From S2P Require Import Prelude Memory Ctx.

Definition YOS_FBSD_SIGSET_BYTES : Z := 16.

(** 64-bit bound check of sig.c. *)
Definition yos_sigset_bound (c : exec_ctx) (off : Z) : bool :=
  if off =? 0 then false else off + YOS_FBSD_SIGSET_BYTES <=? memory_size c.

Definition yos_sigset_signo_ok (signo : Z) : bool := (1 <=? signo) && (signo <=? 128).

(** [bits[b / 32]] and the mask [1u << (b % 32)] of signal [signo]. *)
Definition sig_word (off signo : Z) : Z := off + 4 * ((signo - 1) / 32).
Definition sig_bit (signo : Z) : Z := Z.shiftl 1 ((signo - 1) mod 32).

Section Sigset.

Variable remap_errno_h2g : Z -> Z.

Definition yos_sigemptyset (c : exec_ctx) (set_off : Z) : Z * exec_ctx :=
  if negb (yos_sigset_bound c set_off) then errno_neg remap_errno_h2g c EFAULT
  else (0, set_mem (memset (mem c) set_off 0 YOS_FBSD_SIGSET_BYTES) c).

Definition yos_sigfillset (c : exec_ctx) (set_off : Z) : Z * exec_ctx :=
  if negb (yos_sigset_bound c set_off) then errno_neg remap_errno_h2g c EFAULT
  else (0, set_mem (memset (mem c) set_off 255 YOS_FBSD_SIGSET_BYTES) c).

Definition yos_sigaddset (c : exec_ctx) (set_off signo : Z) : Z * exec_ctx :=
  if negb (yos_sigset_bound c set_off) then errno_neg remap_errno_h2g c EFAULT
  else if negb (yos_sigset_signo_ok signo) then errno_neg remap_errno_h2g c EINVAL
  else
    let a := sig_word set_off signo in
    (0, set_mem (st32 (mem c) a (Z.lor (ld32 (mem c) a) (sig_bit signo))) c).

Definition yos_sigdelset (c : exec_ctx) (set_off signo : Z) : Z * exec_ctx :=
  if negb (yos_sigset_bound c set_off) then errno_neg remap_errno_h2g c EFAULT
  else if negb (yos_sigset_signo_ok signo) then errno_neg remap_errno_h2g c EINVAL
  else
    let a := sig_word set_off signo in
    (0, set_mem (st32 (mem c) a (Z.ldiff (ld32 (mem c) a) (sig_bit signo))) c).

Definition yos_sigismember (c : exec_ctx) (set_off signo : Z) : Z * exec_ctx :=
  if negb (yos_sigset_bound c set_off) then errno_neg remap_errno_h2g c EFAULT
  else if negb (yos_sigset_signo_ok signo) then errno_neg remap_errno_h2g c EINVAL
  else
    (Z.land (Z.shiftr (ld32 (mem c) (sig_word set_off signo)) ((signo - 1) mod 32)) 1, c).

(** * The raw functions of signal.c

    The same operations with a 32-bit bound check and -1 without errno. *)
Definition sigset_at (c : exec_ctx) (off : Z) : option Z :=
  if off =? 0 then None
  else if memory_size c <? u32 (off + YOS_FBSD_SIGSET_BYTES) then None
  else Some off.

(** [s[0] = s[1] = s[2] = s[3] = v], stored right to left. *)
Definition set_words (m : memory) (off v : Z) : memory :=
  st32 (st32 (st32 (st32 m (off + 12) v) (off + 8) v) (off + 4) v) off v.

Definition m3_yos_sigemptyset (c : exec_ctx) (set_off : Z) : Z * exec_ctx :=
  match sigset_at c set_off with
  | None => (-1, c)
  | Some s => (0, set_mem (set_words (mem c) s 0) c)
  end.

Definition m3_yos_sigfillset (c : exec_ctx) (set_off : Z) : Z * exec_ctx :=
  match sigset_at c set_off with
  | None => (-1, c)
  | Some s => (0, set_mem (set_words (mem c) s UINT32_MAX) c)
  end.

(** [s[bit >> 5]] with [1u << (bit & 31)]. *)
Definition raw_word (off signo : Z) : Z := off + 4 * Z.shiftr (signo - 1) 5.
Definition raw_shift (signo : Z) : Z := Z.land (signo - 1) 31.

Definition m3_yos_sigaddset (c : exec_ctx) (set_off signo : Z) : Z * exec_ctx :=
  match sigset_at c set_off with
  | None => (-1, c)
  | Some s =>
      if (signo <? 1) || (128 <? signo) then (-1, c)
      else
        let a := raw_word s signo in
        (0, set_mem (st32 (mem c) a (Z.lor (ld32 (mem c) a) (Z.shiftl 1 (raw_shift signo)))) c)
  end.

Definition m3_yos_sigdelset (c : exec_ctx) (set_off signo : Z) : Z * exec_ctx :=
  match sigset_at c set_off with
  | None => (-1, c)
  | Some s =>
      if (signo <? 1) || (128 <? signo) then (-1, c)
      else
        let a := raw_word s signo in
        (0, set_mem (st32 (mem c) a (Z.ldiff (ld32 (mem c) a) (Z.shiftl 1 (raw_shift signo)))) c)
  end.

Definition m3_yos_sigismember (c : exec_ctx) (set_off signo : Z) : Z * exec_ctx :=
  match sigset_at c set_off with
  | None => (-1, c)
  | Some s =>
      if (signo <? 1) || (128 <? signo) then (-1, c)
      else (Z.land (Z.shiftr (ld32 (mem c) (raw_word s signo)) (raw_shift signo)) 1, c)
  end.

End Sigset.

(** * Low words *)

Definition read_fbsd_sigset_lo (c : exec_ctx) (off : Z) : Z :=
  if (off =? 0) || (memory_size c <? off + YOS_FBSD_SIGSET_BYTES) then 0 else ld32 (mem c) off.

Definition write_fbsd_sigset_lo (c : exec_ctx) (off lo : Z) : exec_ctx :=
  if (off =? 0) || (memory_size c <? off + YOS_FBSD_SIGSET_BYTES) then c
  else set_mem (memset (st32 (mem c) off lo) (off + 4) 0 (YOS_FBSD_SIGSET_BYTES - 4)) c.

(** * Signal numbers

    FreeBSD 1..32 to Linux; 0 for a signal Linux lacks. *)
Definition fbsd_to_host_signo (fb : Z) : Z :=
  match fb with
  | 1 => 1 | 2 => 2 | 3 => 3 | 4 => 4 | 5 => 5 | 6 => 6 | 7 => 0 | 8 => 8
  | 9 => 9 | 10 => 7 | 11 => 11 | 12 => 31 | 13 => 13 | 14 => 14 | 15 => 15 | 16 => 23
  | 17 => 19 | 18 => 20 | 19 => 18 | 20 => 17 | 21 => 21 | 22 => 22 | 23 => 29 | 24 => 24
  | 25 => 25 | 26 => 26 | 27 => 27 | 28 => 28 | 29 => 0 | 30 => 10 | 31 => 12 | 32 => 0
  | _ => 0
  end.

Definition host_to_fbsd_signo (h : Z) : Z :=
  match find (fun fb => fbsd_to_host_signo fb =? h) (seqZ 1 32) with Some fb => fb | None => 0 end.

(** Byte [b >> 3] of the set, bit [b & 7]. *)
Definition fb_test (m : memory) (fb b : Z) : bool :=
  negb (Z.land (ld8 m (fb + Z.shiftr b 3)) (Z.shiftl 1 (Z.land b 7)) =? 0).

Definition fbsd_sigset_to_host (m : memory) (fb : Z) : Z :=
  foldl (fun host fbsig =>
           if fb_test m fb (fbsig - 1) then
             let h := fbsd_to_host_signo fbsig in
             if 0 <? h then Z.lor host (Z.shiftl 1 h) else host
           else host) 0 (seqZ 1 32).

(** Linux's NSIG. *)
Definition NSIG : Z := 65.

Definition host_sigset_to_fbsd (host : Z) (m : memory) (fb : Z) : memory :=
  foldl (fun m h =>
           if Z.testbit host h then
             let fbsig := host_to_fbsd_signo h in
             if 0 <? fbsig then
               let b := fbsig - 1 in
               st8 m (fb + Z.shiftr b 3) (Z.lor (ld8 m (fb + Z.shiftr b 3)) (Z.shiftl 1 (Z.land b 7)))
             else m
           else m) (memset m fb 0 YOS_FBSD_SIGSET_BYTES) (seqZ 1 (NSIG - 1)).

(** * The host waits of sig-linux.c *)

Section HostWait.

Variable remap_errno_h2g : Z -> Z.

(** The host's [sigwaitinfo] and [sigtimedwait]: a host signal, or the negated
    errno.  [None]: no timeout. *)
Variable sigwaitinfo : Z -> Z.
Variable sigtimedwait : Z -> option (Z * Z) -> Z.

Definition YOS_FBSD_SIGINFO_BYTES : Z := 64.
Definition YOS_FBSD_TIMESPEC_BYTES : Z := 8.

Definition sigwait_result (c : exec_ctx) (info_off rc : Z) : Z * exec_ctx :=
  if rc <? 0 then errno_neg remap_errno_h2g c (- rc)
  else
    let c1 := if info_off =? 0 then c
              else set_mem (memset (mem c) info_off 0 YOS_FBSD_SIGINFO_BYTES) c in
    let fbsig := host_to_fbsd_signo rc in
    (if 0 <? fbsig then fbsig else rc, c1).

Definition yos_sigwaitinfo (c : exec_ctx) (set_off info_off : Z) : Z * exec_ctx :=
  if negb (yos_sigset_bound c set_off) then errno_neg remap_errno_h2g c EFAULT
  else if negb (info_off =? 0) && (memory_size c <? info_off + YOS_FBSD_SIGINFO_BYTES)
  then errno_neg remap_errno_h2g c EFAULT
  else sigwait_result c info_off (sigwaitinfo (fbsd_sigset_to_host (mem c) set_off)).

Definition yos_sigtimedwait (c : exec_ctx) (set_off info_off timeout_off : Z) : Z * exec_ctx :=
  if negb (yos_sigset_bound c set_off) then errno_neg remap_errno_h2g c EFAULT
  else if negb (info_off =? 0) && (memory_size c <? info_off + YOS_FBSD_SIGINFO_BYTES)
  then errno_neg remap_errno_h2g c EFAULT
  else
    let host := fbsd_sigset_to_host (mem c) set_off in
    if timeout_off =? 0 then sigwait_result c info_off (sigtimedwait host None)
    else if memory_size c <? timeout_off + YOS_FBSD_TIMESPEC_BYTES then errno_neg remap_errno_h2g c EFAULT
    else
      let ts := (s32 (ld32 (mem c) timeout_off), s32 (ld32 (mem c) (timeout_off + 4))) in
      sigwait_result c info_off (sigtimedwait host (Some ts)).

(** The host's pending set, or the negated errno. *)
Variable sigpending : Z + Z.

Definition yos_sigpending (c : exec_ctx) (set_off : Z) : Z * exec_ctx :=
  if set_off =? 0 then errno_neg remap_errno_h2g c EFAULT
  else if negb (yos_sigset_bound c set_off) then errno_neg remap_errno_h2g c EFAULT
  else match sigpending with
       | inr e => errno_neg remap_errno_h2g c e
       | inl host => (0, set_mem (host_sigset_to_fbsd host (mem c) set_off) c)
       end.

Definition YOS_SS_DISABLE : Z := 4.
Definition YOS_FBSD_STACK_T_BYTES : Z := 12.

Definition yos_sigaltstack (c : exec_ctx) (ss_off oss_off : Z) : Z * exec_ctx :=
  if negb (ss_off =? 0) && (memory_size c <? ss_off + YOS_FBSD_STACK_T_BYTES)
  then errno_neg remap_errno_h2g c EFAULT
  else if oss_off =? 0 then (0, c)
  else if memory_size c <? oss_off + YOS_FBSD_STACK_T_BYTES then errno_neg remap_errno_h2g c EFAULT
  else (0, set_mem (st32 (memset (mem c) oss_off 0 YOS_FBSD_STACK_T_BYTES) (oss_off + 8) YOS_SS_DISABLE) c).

End HostWait.
