(* ===== verification/Sig.v ===== *)
(** Signal dispositions, masks, pending sets and delivery
    (src/src/yos/impl/proc/sig.c), and kill (proc.c).

    A guest handler is guest code: [run_handler] is what running it does to the
    system, and may itself end the thread. *)
From S2P Require Import Prelude Memory Ctx Runtime ProcTable Sigset.

(** * Dispositions *)

Definition YOS_SIG_ERR : Z := 4294967295.

Definition handler_of (c : yos_ctx) (signum : Z) : Z :=
  default 0 (sig_handlers c !! Z.to_nat signum).

Definition signum_ok (signum : Z) : bool := (0 <? signum) && (signum <? YOS_NSIG).

Definition signum_bit (signum : Z) : Z := if signum_ok signum then bit signum else 0.

Definition record_handler (c : yos_ctx) (signum handler_idx : Z) : yos_ctx :=
  if negb (signum_ok signum) then c
  else if handler_idx =? 0 then
    set_sig_handlers (<[Z.to_nat signum := 0]> (sig_handlers c))
      (set_sig_ignore_mask (Z.ldiff (sig_ignore_mask c) (bit signum)) c)
  else if handler_idx =? 1 then
    set_sig_handlers (<[Z.to_nat signum := 0]> (sig_handlers c))
      (set_sig_ignore_mask (Z.lor (sig_ignore_mask c) (bit signum)) c)
  else
    set_sig_handlers (<[Z.to_nat signum := handler_idx]> (sig_handlers c))
      (set_sig_ignore_mask (Z.ldiff (sig_ignore_mask c) (bit signum)) c).

Definition ignored (c : yos_ctx) (signum : Z) : bool :=
  negb (Z.land (sig_ignore_mask c) (bit signum) =? 0).

(** The FreeBSD-ABI value of the current disposition. *)
Definition prev_abi (c : yos_ctx) (signum : Z) : Z :=
  if ignored c signum then 1 else handler_of c signum.

Definition default_action_is_terminate (signum : Z) : bool :=
  match signum with
  | 1 | 2 | 3 | 4 | 5 | 6 | 7 | 8 | 9 | 10 | 11 | 12 | 13 | 14 | 15
  | 24 | 25 | 26 | 27 | 30 | 31 => true
  | _ => false
  end.

Definition yos_signal (rt : yos_runtime) (ci : nat) (signum handler : Z) : Z * yos_runtime :=
  match ctxs rt !! ci with
  | None => (YOS_SIG_ERR, rt)
  | Some c =>
      if negb (signum_ok signum) then (YOS_SIG_ERR, rt)
      else (prev_abi c signum, upd_ctx ci (fun x => record_handler x signum handler) rt)
  end.

(** [yos_signal_set_pending]: what the host's signal handler latches. *)
Definition yos_signal_set_pending (rt : yos_runtime) (fbsd_signum : Z) : yos_runtime :=
  if negb (signum_ok fbsd_signum) then rt
  else set_host_pending (Z.lor (host_pending rt) (bit fbsd_signum)) rt.

(** [__builtin_ctz] of a non-zero word. *)
Definition bits_of (m : Z) : list Z := filter (fun s => Z.testbit m s = true) (seqZ 0 32).
Definition ctz (m : Z) : option Z := head (bits_of m).

Section Deliver.

Variable remap_errno_h2g : Z -> Z.
Variable pthread_kill : yos_proc -> Z -> Z.

(** Whether the guest's function table has a callable entry at [idx]. *)
Variable table_fn : nat -> Z -> bool.
Variable run_handler : nat -> Z -> Z -> yos_runtime -> flow.

Definition sig_terminate (signum : Z) (p : yos_proc) : yos_proc :=
  set_exited true (set_term_sig signum (set_exit_code 0 (set_state YOS_PROC_ZOMBIE p))).

Definition invoke_signal_handler (rt : yos_runtime) (ci : nat) (signum : Z) : flow :=
  match ctxs rt !! ci with
  | None => Running rt
  | Some c =>
      if negb (signum_ok signum) then Running rt
      else if ignored c signum then Running rt
      else
        let idx := handler_of c signum in
        if idx =? 0 then
          if default_action_is_terminate signum then
            match g_proc c with
            | None => Running rt
            | Some slot =>
                match procs rt !! slot with
                | None => Running rt
                | Some p =>
                    let rt1 := emit (Ev_broadcast slot) (upd_proc slot (sig_terminate signum) rt) in
                    if pid p <=? 1 then HostExit (128 + signum) rt1
                    else ThreadExit (yos_proc_post_exit_cleanup pthread_kill rt1 ci)
                end
            end
          else Running rt
        else if table_fn ci idx then run_handler ci idx signum (emit (Ev_handler ci signum idx) rt)
        else Running rt
  end.

(** * The pump *)

(** Move what the host latched to this process. *)
Definition pump_fetch (rt : yos_runtime) (ci : nat) : yos_runtime :=
  upd_ctx ci (fun x => set_sig_pending (Z.lor (sig_pending x) (host_pending rt)) x)
    (set_host_pending 0 rt).

Definition pump_kill (rt : yos_runtime) (c : yos_ctx) : flow :=
  match g_proc c with
  | None => ThreadExit rt
  | Some slot =>
      match procs rt !! slot with
      | None => ThreadExit rt
      | Some p =>
          let rt1 := emit (Ev_broadcast slot) (upd_proc slot (sig_terminate SIGKILL_FB) rt) in
          if pid p <=? 1 then HostExit (128 + 9) rt1 else ThreadExit rt1
      end
  end.

(** One delivery: the lowest pending unblocked signal. *)
Definition pump_step (ci : nat) (rt : yos_runtime) : yos_runtime + flow :=
  match ctxs rt !! ci with
  | None => inr (Running rt)
  | Some c =>
      match ctz (Z.ldiff (sig_pending c) (sig_mask c)) with
      | None => inr (Running rt)
      | Some s =>
          let rt1 := upd_ctx ci (fun x => set_sig_pending (Z.ldiff (sig_pending x) (bit s)) x) rt in
          match invoke_signal_handler rt1 ci s with
          | Running rt2 => inl rt2
          | f => inr f
          end
      end
  end.

(** The loop ends when nothing is deliverable; handlers that raise again keep
    it going.  [None]: more than [2^32] deliveries. *)
Definition yos_signal_pump (rt : yos_runtime) (ci : nat) : option flow :=
  let rt1 := pump_fetch rt ci in
  match ctxs rt1 !! ci with
  | None => Some (Running rt)
  | Some c =>
      if negb (Z.land (sig_pending c) (bit SIGKILL_FB) =? 0) then Some (pump_kill rt1 c)
      else match loop_for (pump_step ci) 4294967296 rt1 with
           | inl _ => None
           | inr f => Some f
           end
  end.

(** * Masks *)

Definition unblockable : Z := Z.lor (bit 9) (bit 17).

Definition yos_errno (rt : yos_runtime) (ci : nat) (e : Z) : Z * flow :=
  (-1, Running (upd_exec ci (fun x => write_errno remap_errno_h2g x e) rt)).

Definition with_pump (r : Z) (rt : yos_runtime) (ci : nat) : option (Z * flow) :=
  match ctxs rt !! ci with
  | None => Some (r, Running rt)
  | Some c =>
      if Z.ldiff (sig_pending c) (sig_mask c) =? 0 then Some (r, Running rt)
      else option_map (fun f => (r, f)) (yos_signal_pump rt ci)
  end.

(** The new mask, or [None] for a bad [how]. *)
Definition mask_op (how prev s : Z) : option Z :=
  if how =? 1 then Some (Z.lor prev s)
  else if how =? 2 then Some (Z.ldiff prev s)
  else if how =? 3 then Some s
  else None.

Definition sigmask_apply (rt : yos_runtime) (ci : nat) (how set_off oset_off : Z) : option (Z * flow) :=
  match ctxs rt !! ci with
  | None => None
  | Some c =>
      let prev := sig_mask c in
      let s := Z.ldiff (u32 (Z.shiftl (read_fbsd_sigset_lo (g_exec c) set_off) 1)) unblockable in
      match (if set_off =? 0 then Some prev else mask_op how prev s) with
      | None => Some (yos_errno rt ci EINVAL)
      | Some m =>
          let rt1 := upd_ctx ci (set_sig_mask m) rt in
          let rt2 := if oset_off =? 0 then rt1
                     else upd_exec ci (fun e => write_fbsd_sigset_lo e oset_off (Z.shiftr prev 1)) rt1 in
          with_pump 0 rt2 ci
      end
  end.

Definition yos_sig_rt_sigprocmask (rt : yos_runtime) (ci : nat) (how set oset sigsetsize : Z) :=
  sigmask_apply rt ci how set oset.
Definition yos_sigprocmask (rt : yos_runtime) (ci : nat) (how set oset : Z) :=
  sigmask_apply rt ci how set oset.

(** The host's own mask is also set, for hosts that look at it; the guest's
    state is complete without it. *)
Definition yos_pthread_sigmask (rt : yos_runtime) (ci : nat) (how set_off oset_off : Z) : option (Z * flow) :=
  match ctxs rt !! ci with
  | None => None
  | Some c =>
      if negb (set_off =? 0) && negb (yos_sigset_bound (g_exec c) set_off) then Some (EFAULT, Running rt)
      else if negb (oset_off =? 0) && negb (yos_sigset_bound (g_exec c) oset_off) then Some (EFAULT, Running rt)
      else match sigmask_apply rt ci how set_off oset_off with
           | None => None
           | Some (rc, f) =>
               Some (if rc <? 0 then
                       match ctxs (flow_rt f) !! ci with
                       | Some c1 => if errno_off (g_exec c1) =? 0 then EINVAL
                                    else s32 (ld32 (mem (g_exec c1)) (errno_off (g_exec c1)))
                       | None => EINVAL
                       end
                     else 0, f)
           end
  end.

(** * sigaction *)

Definition yos_sig_rt_sigaction (rt : yos_runtime) (ci : nat) (signum act oldact sigsetsize : Z) : Z * yos_runtime :=
  match ctxs rt !! ci with
  | None => (-1, rt)
  | Some c =>
      let e := g_exec c in
      if negb (signum_ok signum) then (-1, upd_exec ci (fun x => write_errno remap_errno_h2g x EINVAL) rt)
      else
        let prev := prev_abi c signum in
        let rt1 := if negb (act =? 0) && (u32 (act + 4) <=? memory_size e)
                   then upd_ctx ci (fun x => record_handler x signum (ld32 (mem e) act)) rt else rt in
        let rt2 := if negb (oldact =? 0) && (u32 (oldact + 24) <=? memory_size e)
                   then upd_exec ci (fun x => set_mem (st32 (memset (mem x) oldact 0 24) oldact prev) x) rt1
                   else rt1 in
        (0, rt2)
  end.

Definition yos_sigaction (rt : yos_runtime) (ci : nat) (signum act oldact : Z) : Z * yos_runtime :=
  yos_sig_rt_sigaction rt ci signum act oldact 0.

(** * Waiting for a signal *)

(** The poll of [yos_sigsuspend]: [env i] is what the others do during the
    [i]-th sleep. *)
Fixpoint suspend_poll (n : nat) (i : nat) (env : nat -> yos_runtime -> yos_runtime)
    (rt : yos_runtime) (ci : nat) (my_pid : Z) : option flow :=
  match n with
  | O => Some (Running rt)
  | S n' =>
      match find_zombie_child rt my_pid (-1) with
      | Some _ =>
          yos_signal_pump (upd_ctx ci (fun x => set_sig_pending (Z.lor (sig_pending x) (bit 20)) x) rt) ci
      | None =>
          match ctxs rt !! ci with
          | None => Some (Running rt)
          | Some c =>
              if negb (Z.ldiff (sig_pending c) (sig_mask c) =? 0) then Some (Running rt)
              else suspend_poll n' (S i) env (env i rt) ci my_pid
          end
      end
  end.

Definition yos_sigsuspend (env : nat -> yos_runtime -> yos_runtime) (rt : yos_runtime) (ci : nat)
    (mask_off : Z) : option (Z * flow) :=
  match ctxs rt !! ci, my_proc rt ci with
  | Some c, Some me =>
      let saved := sig_mask c in
      let rt1 := if mask_off =? 0 then rt
                 else upd_ctx ci (set_sig_mask (Z.ldiff (read_fbsd_sigset_lo (g_exec c) mask_off) unblockable)) rt in
      match yos_signal_pump rt1 ci with
      | Some (Running rt2) =>
          match suspend_poll 200 0 env rt2 ci (pid me) with
          | Some (Running rt3) => Some (yos_errno (upd_ctx ci (set_sig_mask saved) rt3) ci EINTR)
          | Some f => Some (0, f)
          | None => None
          end
      | Some f => Some (0, f)
      | None => None
      end
  | _, _ => Some (yos_errno rt ci EINVAL)
  end.

(** The spin of [yos_sigwait]; [env] as for waitpid. *)
Fixpoint sigwait_loop (env : list (yos_runtime -> yos_runtime)) (rt : yos_runtime) (ci : nat)
    (want_lo sig_out_off : Z) : option (Z * flow) :=
  match ctxs rt !! ci with
  | None => None
  | Some c =>
      match ctz (Z.land (sig_pending c) want_lo) with
      | Some s =>
          Some (0, Running (upd_exec ci (fun e => set_mem (st32 (mem e) sig_out_off s) e)
                     (upd_ctx ci (fun x => set_sig_pending (Z.ldiff (sig_pending x) (bit s)) x) rt)))
      | None =>
          if negb (Z.land (sig_pending c) (bit SIGKILL_FB) =? 0)
          then option_map (fun f => (EINTR, f)) (yos_signal_pump rt ci)
          else match env with
               | [] => None
               | f :: env' => sigwait_loop env' (f rt) ci want_lo sig_out_off
               end
      end
  end.

Definition yos_sigwait (env : list (yos_runtime -> yos_runtime)) (rt : yos_runtime) (ci : nat)
    (set_off sig_out_off : Z) : option (Z * flow) :=
  match ctxs rt !! ci with
  | None => None
  | Some c =>
      let e := g_exec c in
      if negb (yos_sigset_bound e set_off) then Some (EFAULT, Running rt)
      else if (sig_out_off =? 0) || (memory_size e <? sig_out_off + 4) then Some (EFAULT, Running rt)
      else
        let want_fbsd := read_fbsd_sigset_lo e set_off in
        if want_fbsd =? 0 then Some (EINVAL, Running rt)
        else sigwait_loop env rt ci (u32 (Z.shiftl want_fbsd 1)) sig_out_off
  end.

(** * kill (proc.c) *)

Definition group_match (my_pgid pid_ : Z) (p : yos_proc) : bool :=
  negb (is_free p) && negb (is_zombie p) &&
  (if pid_ =? 0 then pgid p =? my_pgid
   else if pid_ =? -1 then negb (pid p =? 1)
   else pgid p =? - pid_).

(** The group loop: a raw host signal to every matching thread. *)
Definition kill_group (rt : yos_runtime) (my_pgid pid_ sig : Z) : Z * Z * yos_runtime :=
  foldl (fun '(found, last_err, r) i =>
           match procs rt !! i with
           | Some p =>
               if group_match my_pgid pid_ p then
                 let rc := if sig =? 0 then 0 else pthread_kill p sig in
                 (found + 1, if rc =? 0 then last_err else - rc,
                  if sig =? 0 then r else emit (Ev_host_kill i sig) r)
               else (found, last_err, r)
           | None => (found, last_err, r)
           end) (0, 0, rt) (seq 0 (length (procs rt))).

Definition yos_kill (rt : yos_runtime) (ci : nat) (pid_ sig : Z) : option (Z * flow) :=
  if 0 <? pid_ then
    match yos_proc_find rt pid_ with
    | None => Some (yos_errno rt ci ESRCH)
    | Some t =>
        let '(rc, rt1) := deliver_to_proc pthread_kill rt t sig in
        if rc <? 0 then Some (yos_errno rt1 ci (- rc))
        else if bool_decide (slot_of rt ci = Some t) then option_map (fun f => (rc, f)) (yos_signal_pump rt1 ci)
        else Some (rc, Running rt1)
    end
  else
    let my_pgid := match my_proc rt ci with Some p => pgid p | None => 0 end in
    let '(found, last_err, rt1) := kill_group rt my_pgid pid_ sig in
    if found =? 0 then Some (yos_errno rt1 ci ESRCH)
    else if negb (last_err =? 0) then Some (yos_errno rt1 ci (- last_err))
    else Some (0, Running rt1).

Definition yos_tkill (rt : yos_runtime) (tid sig : Z) : Z * yos_runtime :=
  if tid <=? 0 then (- ESRCH, rt)
  else match yos_proc_find rt tid with
       | None => (- ESRCH, rt)
       | Some t => deliver_to_proc pthread_kill rt t sig
       end.

Definition yos_tgkill (rt : yos_runtime) (tgid_ tid sig : Z) : Z * yos_runtime :=
  if tid <=? 0 then (- ESRCH, rt)
  else match yos_proc_find rt tid with
       | None => (- ESRCH, rt)
       | Some t =>
           match procs rt !! t with
           | Some p => if (0 <? tgid_) && negb (tgid_ =? pid p) then (- ESRCH, rt)
                       else deliver_to_proc pthread_kill rt t sig
           | None => (- ESRCH, rt)
           end
       end.

End Deliver.
