(* ===== verification/Fixtures.v ===== *)
(** A small running system on which the theorems about processes and signals
    are evaluated: init, a shell with a zombie and a running child, four free
    slots, and a context for each thread. *)
From S2P Require Import Prelude Memory Ctx Runtime ProcTable Sigset Sig.

Definition demo_exec : exec_ctx :=
  ExecCtx (st32 (fun _ => 0) 512 (Z.shiftl 1 14)) 65536 0 0 [] [] 0 0 0 64.

Definition demo_ctx (slot : nat) (handlers : list Z) (mask pending : Z) : yos_ctx :=
  YosCtx demo_exec (Some slot) handlers 0 mask pending ([0; 1; 2; 7; -1; 9]) [0; 4096] true false.

(** Signals 10, 14 and 15 have handlers and are pending; 10 is blocked. *)
Definition demo_handlers : list Z := <[14%nat := 40]> (<[15%nat := 50]> (<[10%nat := 60]> (replicate 32 0))).

Definition demo_init : yos_proc := Proc 1 0 1 1 1 0 YOS_PROC_RUNNING 0 0 false (-1) false true (Some 0%nat) false.
Definition demo_shell : yos_proc := Proc 2 1 2 2 2 0 YOS_PROC_RUNNING 0 0 false (-1) false true (Some 1%nat) false.
Definition demo_dead : yos_proc := Proc 3 2 2 2 3 0 YOS_PROC_ZOMBIE 7 0 true (-1) false true None false.
Definition demo_child : yos_proc := Proc 4 2 2 2 4 0 YOS_PROC_RUNNING 0 0 false (-1) false true (Some 2%nat) false.
Definition demo_free : yos_proc := Proc 0 0 0 0 0 0 YOS_PROC_FREE 0 0 false (-1) false false None false.

Definition demo_shell_ctx : yos_ctx :=
  demo_ctx 1 demo_handlers (bit 10) (Z.lor (bit 10) (Z.lor (bit 14) (bit 15))).

Definition demo : yos_runtime :=
  Runtime (demo_init :: demo_shell :: demo_dead :: demo_child :: replicate 4 demo_free) 5
    [demo_ctx 0 (replicate 32 0) 0 0; demo_shell_ctx; demo_ctx 3 (replicate 32 0) 0 0] 0 [].

(** The shell after it recorded its exit. *)
Definition demo_exiting : yos_runtime := upd_proc 1 (mark_exited 3) demo.

(** The zombie's slot freed. *)
Definition demo_reaped : yos_runtime := upd_proc 2 (set_state YOS_PROC_FREE) demo.

(** The same system with SIGKILL pending for the child. *)
Definition demo_killed : yos_runtime := post_pending 2 9 demo.

(** A host whose [pthread_kill] succeeds, a guest table that holds every
    index, and handlers that return. *)
Definition demo_pk : yos_proc -> Z -> Z := fun _ _ => 0.
Definition demo_table : nat -> Z -> bool := fun _ _ => true.
Definition demo_run : nat -> Z -> Z -> yos_runtime -> flow := fun _ _ _ rt => Running rt.
