(* ===== verification/SigsetProps.v ===== *)
(** Guest signal sets behave as sets of signals 1..128; the raw functions of
    signal.c agree with sig.c; the number tables and the set conversions are
    inverse where the host has the signal. *)
From S2P Require Import Prelude Memory Ctx Sigset.

(** * Bits *)

Lemma land_1_testbit w k : 0 <= k -> Z.land (Z.shiftr w k) 1 = Z.b2z (Z.testbit w k).
Proof.
  intros Hk. change 1 with (Z.ones 1) at 1. rewrite Z.land_ones, Z.testbit_spec', Z.shiftr_div_pow2 by lia.
  by rewrite Z.pow_1_r.
Qed.

Lemma u32_testbit x k : 0 <= k < 32 -> Z.testbit (u32 x) k = Z.testbit x k.
Proof. intros. unfold u32. change 4294967296 with (2 ^ 32). apply Z.mod_pow2_bits_low. lia. Qed.

Lemma u8_testbit x k : 0 <= k < 8 -> Z.testbit (u8 x) k = Z.testbit x k.
Proof. intros. unfold u8. change 256 with (2 ^ 8). apply Z.mod_pow2_bits_low. lia. Qed.

Lemma shiftl_1_testbit n k : 0 <= n -> 0 <= k -> Z.testbit (Z.shiftl 1 n) k = (n =? k).
Proof. intros. rewrite Z.shiftl_1_l. apply Z.pow2_bits_eqb. lia. Qed.

Lemma land_bit_testbit x n : 0 <= n -> negb (Z.land x (Z.shiftl 1 n) =? 0) = Z.testbit x n.
Proof.
  intros Hn. destruct (Z.testbit x n) eqn:E.
  - apply negb_true_iff, Z.eqb_neq. intros H.
    assert (Z.testbit (Z.land x (Z.shiftl 1 n)) n = false) as Hf by (by rewrite H, Z.bits_0).
    rewrite Z.land_spec, E, shiftl_1_testbit, Z.eqb_refl in Hf by lia. done.
  - apply negb_false_iff, Z.eqb_eq. apply Z.bits_inj'. intros k Hk.
    rewrite Z.land_spec, Z.bits_0, shiftl_1_testbit by lia.
    destruct (Z.eqb_spec n k) as [<-|]; [by rewrite E|by rewrite andb_false_r].
Qed.

(** * Membership *)

Definition in_set (m : memory) (off s : Z) : bool :=
  Z.testbit (ld32 m (sig_word off s)) ((s - 1) mod 32).

Lemma yos_sigismember_spec h2g c off s :
  yos_sigset_bound c off = true -> 1 <= s <= 128 ->
  yos_sigismember h2g c off s = (Z.b2z (in_set (mem c) off s), c).
Proof.
  intros Hb Hs. unfold yos_sigismember, yos_sigset_signo_ok. rewrite Hb.
  destruct (Z.leb_spec 1 s), (Z.leb_spec s 128); try lia. cbn [negb andb].
  by rewrite land_1_testbit by (apply Z.mod_pos_bound; lia).
Qed.

(** Two signals share word and bit only when equal. *)
Lemma sig_pos_inj s t : (s - 1) / 32 = (t - 1) / 32 -> (s - 1) mod 32 = (t - 1) mod 32 -> s = t.
Proof. intros. mlia. Qed.

Lemma in_set_update m off s t (f : Z -> Z) (v : bool) :
  (forall x k, 0 <= k < 32 -> Z.testbit (f x) k = if (s - 1) mod 32 =? k then v else Z.testbit x k) ->
  in_set (st32 m (sig_word off s) (f (ld32 m (sig_word off s)))) off t =
  if s =? t then v else in_set m off t.
Proof.
  intros Hf. unfold in_set, sig_word.
  pose proof (Z.mod_pos_bound (t - 1) 32 ltac:(lia)) as Ht.
  destruct (Z.eqb_spec ((s - 1) / 32) ((t - 1) / 32)) as [He|Hne].
  - rewrite He, ld32_st32, u32_testbit, Hf by lia.
    destruct (Z.eqb_spec ((s - 1) mod 32) ((t - 1) mod 32)) as [Hm|Hm].
    + rewrite (sig_pos_inj s t He Hm). by rewrite Z.eqb_refl.
    + destruct (Z.eqb_spec s t) as [->|]; [done|done].
  - rewrite ld32_st32_ne by lia. destruct (Z.eqb_spec s t) as [->|]; [done|done].
Qed.

Lemma bound_in c off s : yos_sigset_bound c off = true -> 1 <= s <= 128 ->
  0 <> off /\ off <= sig_word off s /\ sig_word off s + 4 <= off + 16.
Proof.
  unfold yos_sigset_bound, sig_word, YOS_FBSD_SIGSET_BYTES.
  destruct (Z.eqb_spec off 0); [done|]. intros _ Hs. split; [lia|]. mlia.
Qed.

Lemma ld32_const m a v : (forall b, a <= b < a + 4 -> ld8 m b = v) -> ld32 m a = v * 16843009.
Proof. intros H. unfold ld32. rewrite !H by lia. lia. Qed.

Lemma testbit_m1 k : 0 <= k < 32 -> Z.testbit 4294967295 k = true.
Proof. intros. change 4294967295 with (Z.ones 32). apply Z.ones_spec_low. lia. Qed.

(** The set operations of sig.c are those of sets of signals 1..128: adding
    and deleting change the membership of that signal only, the empty set has
    no member, the full set has all. *)
Theorem sigset_algebra h2g c off s t :
  yos_sigset_bound c off = true -> 1 <= s <= 128 -> 1 <= t <= 128 ->
  (yos_sigismember h2g (yos_sigaddset h2g c off s).2 off t).1 =
    (if s =? t then 1 else (yos_sigismember h2g c off t).1) /\
  (yos_sigismember h2g (yos_sigdelset h2g c off s).2 off t).1 =
    (if s =? t then 0 else (yos_sigismember h2g c off t).1) /\
  (yos_sigismember h2g (yos_sigemptyset h2g c off).2 off t).1 = 0 /\
  (yos_sigismember h2g (yos_sigfillset h2g c off).2 off t).1 = 1.
Proof.
  intros Hb Hs Ht.
  assert (Hbm : forall m', yos_sigset_bound (set_mem m' c) off = true) by done.
  assert (Hok : yos_sigset_signo_ok s = true).
  { unfold yos_sigset_signo_ok. destruct (Z.leb_spec 1 s), (Z.leb_spec s 128); done || lia. }
  destruct (bound_in c off t Hb Ht) as (_ & Hw1 & Hw2).
  pose proof (Z.mod_pos_bound (s - 1) 32 ltac:(lia)). pose proof (Z.mod_pos_bound (t - 1) 32 ltac:(lia)).
  split_and!.
  - unfold yos_sigaddset. rewrite Hb, Hok. cbn [negb snd].
    rewrite !yos_sigismember_spec by done. cbn [fst mem set_mem].
    rewrite (in_set_update _ _ _ _ (fun x => Z.lor x (sig_bit s)) true); [by destruct (s =? t)|].
    intros x k Hk. unfold sig_bit. rewrite Z.lor_spec, shiftl_1_testbit by lia.
    destruct (_ =? k); [apply orb_true_r|apply orb_false_r].
  - unfold yos_sigdelset. rewrite Hb, Hok. cbn [negb snd].
    rewrite !yos_sigismember_spec by done. cbn [fst mem set_mem].
    rewrite (in_set_update _ _ _ _ (fun x => Z.ldiff x (sig_bit s)) false); [by destruct (s =? t)|].
    intros x k Hk. unfold sig_bit. rewrite Z.ldiff_spec, shiftl_1_testbit by lia.
    destruct (_ =? k); [apply andb_false_r|apply andb_true_r].
  - unfold yos_sigemptyset. rewrite Hb. cbn [negb snd]. rewrite yos_sigismember_spec by done.
    cbn [fst mem set_mem]. unfold in_set. rewrite (ld32_const _ _ 0); [by rewrite Z.bits_0|].
    intros b Hb'. rewrite ld8_memset_in; [done|]. unfold YOS_FBSD_SIGSET_BYTES. lia.
  - unfold yos_sigfillset. rewrite Hb. cbn [negb snd]. rewrite yos_sigismember_spec by done.
    cbn [fst mem set_mem]. unfold in_set. rewrite (ld32_const _ _ 255).
    + change (255 * 16843009) with 4294967295. by rewrite testbit_m1.
    + intros b Hb'. rewrite ld8_memset_in; [done|]. unfold YOS_FBSD_SIGSET_BYTES. lia.
Qed.

(** * The raw functions *)

Lemma raw_word_eq off s : 1 <= s -> raw_word off s = sig_word off s.
Proof. intros. unfold raw_word, sig_word. by rewrite Z.shiftr_div_pow2. Qed.

Lemma raw_shift_eq s : raw_shift s = (s - 1) mod 32.
Proof. unfold raw_shift. change 31 with (Z.ones 5). by rewrite Z.land_ones. Qed.

Lemma ld8_st32_in m a v b : a <= b < a + 4 -> ld8 (st32 m a v) b = u8 (v / 256 ^ (b - a)).
Proof.
  intros Hb. unfold ld8, st32.
  assert (b = a \/ b = a + 1 \/ b = a + 2 \/ b = a + 3) as [-> |[-> |[-> | ->]]] by lia;
    repeat (zcase; [try lia|try lia]); rewrite ?u8_idemp; f_equal;
    rewrite ?Z.sub_diag, ?Z.pow_0_r, ?Z.div_1_r; [done|..];
    match goal with |- context [256 ^ ?e] => replace e with (e) by lia end.
  - replace (a + 1 - a) with 1 by lia. done.
  - replace (a + 2 - a) with 2 by lia. done.
  - replace (a + 3 - a) with 3 by lia. done.
Qed.

Lemma set_words_byte m off v w b :
  (forall i, 0 <= i < 4 -> u8 (v / 256 ^ i) = w) -> off <= b < off + 16 -> ld8 (set_words m off v) b = w.
Proof.
  intros Hv Hb. unfold set_words.
  destruct (Z.lt_ge_cases b (off + 4)); [rewrite ld8_st32_in by lia; apply Hv; lia|].
  rewrite (st32_frame _ off v b (b + 1)) by lia.
  destruct (Z.lt_ge_cases b (off + 8)); [rewrite ld8_st32_in by lia; apply Hv; lia|].
  rewrite (st32_frame _ (off + 4) v b (b + 1)) by lia.
  destruct (Z.lt_ge_cases b (off + 12)); [rewrite ld8_st32_in by lia; apply Hv; lia|].
  rewrite (st32_frame _ (off + 8) v b (b + 1)) by lia.
  rewrite ld8_st32_in by lia. apply Hv. lia.
Qed.

Lemma set_words_memset m off v w b :
  (forall i, 0 <= i < 4 -> u8 (v / 256 ^ i) = u8 w) ->
  ld8 (set_words m off v) b = ld8 (memset m off w 16) b.
Proof.
  intros Hv. destruct (decide (off <= b < off + 16)).
  - rewrite (set_words_byte _ _ _ (u8 w)) by done. by rewrite ld8_memset_in.
  - rewrite ld8_memset_out by lia. unfold set_words.
    rewrite !(st32_frame _ _ v b (b + 1)) by lia. done.
Qed.

(** Where the 32-bit bound check does not wrap, the raw functions of
    signal.c return what sig.c's return on success and leave the same bytes. *)
Theorem raw_sigset_equiv h2g c off s :
  yos_sigset_bound c off = true -> 0 <= off < 4294967280 -> 1 <= s <= 128 ->
  m3_yos_sigaddset c off s = yos_sigaddset h2g c off s /\
  m3_yos_sigdelset c off s = yos_sigdelset h2g c off s /\
  m3_yos_sigismember c off s = yos_sigismember h2g c off s /\
  (forall b, ld8 (mem (m3_yos_sigemptyset c off).2) b = ld8 (mem (yos_sigemptyset h2g c off).2) b) /\
  (forall b, ld8 (mem (m3_yos_sigfillset c off).2) b = ld8 (mem (yos_sigfillset h2g c off).2) b).
Proof.
  intros Hb Hw Hs. pose proof (bound_in c off s Hb Hs) as (H0 & _ & _).
  assert (Hat : sigset_at c off = Some off).
  { unfold yos_sigset_bound, YOS_FBSD_SIGSET_BYTES in Hb. unfold sigset_at, YOS_FBSD_SIGSET_BYTES.
    destruct (Z.eqb_spec off 0); [done|]. destruct (Z.leb_spec (off + 16) (memory_size c)); [|done].
    rewrite u32_small by lia. by destruct (Z.ltb_spec (memory_size c) (off + 16)); [lia|]. }
  assert (Hr : (s <? 1) || (128 <? s) = false).
  { by destruct (Z.ltb_spec s 1), (Z.ltb_spec 128 s); [lia..|]. }
  assert (Hok : yos_sigset_signo_ok s = true).
  { unfold yos_sigset_signo_ok. by destruct (Z.leb_spec 1 s), (Z.leb_spec s 128); [|lia..]. }
  unfold m3_yos_sigaddset, m3_yos_sigdelset, m3_yos_sigismember, m3_yos_sigemptyset, m3_yos_sigfillset,
    yos_sigaddset, yos_sigdelset, yos_sigismember, yos_sigemptyset, yos_sigfillset.
  rewrite Hat, Hr, Hb, Hok, (raw_word_eq off s), raw_shift_eq by lia. cbn [negb snd mem set_mem].
  split_and!; [done..| |]; intros b; apply set_words_memset; intros i Hi;
    assert (i = 0 \/ i = 1 \/ i = 2 \/ i = 3) as [-> |[-> |[-> | ->]]] by lia; done.
Qed.

(** * Numbers and conversions *)

(** A property of the 32 signals, by evaluation. *)
Lemma forall_signals (P : Z -> bool) :
  forallb P (seqZ 1 32) = true -> forall s, 1 <= s <= 32 -> P s = true.
Proof.
  intros H s Hs. apply (proj1 (forallb_forall P _) H). apply list_elem_of_In, elem_of_seqZ. lia.
Qed.

Lemma signo_inverse s :
  1 <= s <= 32 -> fbsd_to_host_signo s <> 0 ->
  host_to_fbsd_signo (fbsd_to_host_signo s) = s /\ 0 < fbsd_to_host_signo s < 65.
Proof.
  intros Hs Hn.
  pose proof (forall_signals (fun s => (fbsd_to_host_signo s =? 0) ||
    ((host_to_fbsd_signo (fbsd_to_host_signo s) =? s) && (0 <? fbsd_to_host_signo s) && (fbsd_to_host_signo s <? 65)))
    eq_refl s Hs) as H. cbn beta in H.
  apply orb_true_iff in H as [H|H]; [lia|].
  rewrite !andb_true_iff, Z.eqb_eq, !Z.ltb_lt in H. tauto.
Qed.

Lemma fb_test_spec m fb b : 0 <= b -> fb_test m fb b = Z.testbit (ld8 m (fb + b / 8)) (b mod 8).
Proof.
  intros Hb. unfold fb_test. rewrite Z.shiftr_div_pow2 by lia. change (2 ^ 3) with 8.
  change 7 with (Z.ones 3). rewrite Z.land_ones by lia. change (2 ^ 3) with 8.
  apply land_bit_testbit, Z.mod_pos_bound. lia.
Qed.

(** The host set collects the translated members. *)
Lemma to_host_testbit m fb l acc h :
  0 <= h ->
  Z.testbit (foldl (fun host fbsig =>
     if fb_test m fb (fbsig - 1) then
       let x := fbsd_to_host_signo fbsig in if 0 <? x then Z.lor host (Z.shiftl 1 x) else host
     else host) acc l) h =
  Z.testbit acc h || existsb (fun s => fb_test m fb (s - 1) && (0 <? fbsd_to_host_signo s) && (fbsd_to_host_signo s =? h)) l.
Proof.
  intros Hh. revert acc. induction l as [|s l IH]; intros acc; simpl; [by rewrite orb_false_r|].
  rewrite IH. destruct (fb_test m fb (s - 1)); [|done].
  destruct (Z.ltb_spec 0 (fbsd_to_host_signo s)); [|done]. cbn [andb].
  rewrite Z.lor_spec, shiftl_1_testbit by lia. by rewrite orb_assoc.
Qed.

Definition put_bit (m : memory) (fb b : Z) : memory :=
  st8 m (fb + Z.shiftr b 3) (Z.lor (ld8 m (fb + Z.shiftr b 3)) (Z.shiftl 1 (Z.land b 7))).

Lemma put_bit_test m fb b k :
  0 <= b -> 0 <= k -> fb_test (put_bit m fb b) fb k = (b =? k) || fb_test m fb k.
Proof.
  intros Hb Hk. rewrite !fb_test_spec by done. unfold put_bit.
  rewrite Z.shiftr_div_pow2 by lia. change (2 ^ 3) with 8.
  change 7 with (Z.ones 3). rewrite Z.land_ones by lia. change (2 ^ 3) with 8.
  pose proof (Z.mod_pos_bound b 8 ltac:(lia)). pose proof (Z.mod_pos_bound k 8 ltac:(lia)).
  rewrite ld8_st8. destruct (Z.eqb_spec (fb + k / 8) (fb + b / 8)) as [He|Hne].
  - rewrite He, u8_testbit, Z.lor_spec, shiftl_1_testbit by lia. rewrite orb_comm. f_equal.
    destruct (Z.eqb_spec (b mod 8) (k mod 8)), (Z.eqb_spec b k); try done; exfalso; mlia.
  - destruct (Z.eqb_spec b k) as [->|]; [done|done].
Qed.

Lemma from_host_test host l m fb k :
  0 <= k -> (forall h, h ∈ l -> 0 <= h) ->
  fb_test (foldl (fun m h =>
     if Z.testbit host h then
       let fbsig := host_to_fbsd_signo h in
       if 0 <? fbsig then
         let b := fbsig - 1 in
         st8 m (fb + Z.shiftr b 3) (Z.lor (ld8 m (fb + Z.shiftr b 3)) (Z.shiftl 1 (Z.land b 7)))
       else m
     else m) m l) fb k =
  fb_test m fb k || existsb (fun h => Z.testbit host h && (host_to_fbsd_signo h =? k + 1)) l.
Proof.
  intros Hk. revert m. induction l as [|h l IH]; intros m Hl; simpl; [by rewrite orb_false_r|].
  rewrite IH by (intros; apply Hl; by right). destruct (Z.testbit host h); [|done]. cbn [andb].
  destruct (Z.ltb_spec 0 (host_to_fbsd_signo h)).
  - change (st8 _ _ _) with (put_bit m fb (host_to_fbsd_signo h - 1)).
    rewrite put_bit_test by lia. rewrite (orb_comm (_ =? k)), <-orb_assoc. f_equal. f_equal.
    destruct (Z.eqb_spec (host_to_fbsd_signo h - 1) k), (Z.eqb_spec (host_to_fbsd_signo h) (k + 1)); done || lia.
  - destruct (Z.eqb_spec (host_to_fbsd_signo h) (k + 1)); [lia|done].
Qed.

Lemma fbsd_to_host_member m fb h :
  0 <= h ->
  Z.testbit (fbsd_sigset_to_host m fb) h = true <->
  exists s, 1 <= s <= 32 /\ fb_test m fb (s - 1) = true /\ 0 < fbsd_to_host_signo s /\ fbsd_to_host_signo s = h.
Proof.
  intros Hh. unfold fbsd_sigset_to_host. rewrite to_host_testbit, Z.bits_0 by lia. cbn [orb].
  rewrite existsb_exists. split.
  - intros (s & Hs & Ht). apply list_elem_of_In, elem_of_seqZ in Hs.
    rewrite !andb_true_iff, Z.ltb_lt, Z.eqb_eq in Ht. exists s. split; [lia|tauto].
  - intros (s & Hs & Ht & Hp & He). exists s. split; [apply list_elem_of_In, elem_of_seqZ; lia|].
    rewrite !andb_true_iff, Z.ltb_lt, Z.eqb_eq. tauto.
Qed.

Lemma memset_fb_test m fb s : 1 <= s <= 32 -> fb_test (memset m fb 0 16) fb (s - 1) = false.
Proof.
  intros Hs. rewrite fb_test_spec, ld8_memset_in by mlia. change (u8 0) with 0. apply Z.bits_0.
Qed.

Lemma host_to_fbsd_member host m fb s :
  1 <= s <= 32 ->
  fb_test (host_sigset_to_fbsd host m fb) fb (s - 1) = true <->
  exists h, 1 <= h < 65 /\ Z.testbit host h = true /\ host_to_fbsd_signo h = s.
Proof.
  intros Hs. unfold host_sigset_to_fbsd, YOS_FBSD_SIGSET_BYTES. rewrite from_host_test; [|lia|].
  2: { intros h Hh. apply elem_of_seqZ in Hh. lia. }
  rewrite memset_fb_test by done. cbn [orb]. rewrite existsb_exists. unfold NSIG. split.
  - intros (h & Hh & Ht). apply list_elem_of_In, elem_of_seqZ in Hh.
    rewrite andb_true_iff, Z.eqb_eq in Ht. exists h. split; [lia|]. split; [tauto|lia].
  - intros (h & Hh & Ht & He). exists h. split; [apply list_elem_of_In, elem_of_seqZ; lia|].
    rewrite andb_true_iff, Z.eqb_eq. split; [done|lia].
Qed.

(** Every signal Linux has comes back from the number tables, and a set
    converted to the host and back keeps exactly the members that have a host
    number, whatever memory held before. *)
Theorem sigset_host_roundtrip m fb m' fb' s :
  1 <= s <= 32 ->
  (fbsd_to_host_signo s <> 0 -> host_to_fbsd_signo (fbsd_to_host_signo s) = s) /\
  fb_test (host_sigset_to_fbsd (fbsd_sigset_to_host m fb) m' fb') fb' (s - 1) =
    fb_test m fb (s - 1) && negb (fbsd_to_host_signo s =? 0).
Proof.
  intros Hs. split; [by intros Hn; destruct (signo_inverse s Hs Hn)|].
  apply eq_true_iff_eq. rewrite host_to_fbsd_member, andb_true_iff, negb_true_iff, Z.eqb_neq by done. split.
  - intros (h & Hh & Ht & Hg). apply fbsd_to_host_member in Ht as (s' & Hs' & Ht & Hp & He); [|lia].
    subst h. destruct (signo_inverse s' Hs' ltac:(lia)) as [Hi _].
    assert (s' = s) as -> by congruence. split; [done|lia].
  - intros [Ht Hn]. destruct (signo_inverse s Hs Hn) as [Hi Hr]. exists (fbsd_to_host_signo s).
    split; [lia|]. split; [|done]. apply fbsd_to_host_member; [lia|]. exists s. split; [lia|]. split; [done|]. split; [lia|done].
Qed.

(** * Witnesses *)

Definition sig_ctx : exec_ctx := ExecCtx (fun _ => 0) 65536 0 0 [] [] 0 0 0 0.

Lemma sigset_algebra_witness :
  (yos_sigismember id (yos_sigaddset id sig_ctx 256 33).2 256 33).1 = 1 /\
  (yos_sigismember id (yos_sigaddset id sig_ctx 256 33).2 256 1).1 = 0.
Proof.
  split.
  - exact (proj1 (sigset_algebra id sig_ctx 256 33 33 eq_refl ltac:(lia) ltac:(lia))).
  - exact (proj1 (sigset_algebra id sig_ctx 256 33 1 eq_refl ltac:(lia) ltac:(lia))).
Defined.

Lemma raw_sigset_equiv_witness :
  m3_yos_sigaddset sig_ctx 256 20 = yos_sigaddset id sig_ctx 256 20.
Proof. exact (proj1 (raw_sigset_equiv id sig_ctx 256 20 eq_refl ltac:(lia) ltac:(lia))). Defined.

Lemma sigset_host_roundtrip_witness :
  host_to_fbsd_signo (fbsd_to_host_signo 30) = 30.
Proof. exact (proj1 (sigset_host_roundtrip (fun _ => 0) 0 (fun _ => 0) 0 30 ltac:(lia)) ltac:(done)). Defined.
