(* ===== verification/SigProps.v ===== *)
(** Signal delivery: what the pump delivers and in which order, what
    sigprocmask, signal and kill do to the masks and dispositions, and where
    sigsuspend and group kill part from them. *)
From stdpp Require Import sorting.
From S2P Require Import Prelude Memory Ctx Runtime ProcTable Sigset Sig SigsetProps Fixtures.

(** * The set bits of a word *)

Lemma bit_testbit n k : 0 <= n -> 0 <= k -> Z.testbit (bit n) k = (n =? k).
Proof. apply shiftl_1_testbit. Qed.

Lemma elem_of_bits m s : s ∈ bits_of m <-> 0 <= s < 32 /\ Z.testbit m s = true.
Proof. unfold bits_of. rewrite list_elem_of_filter, elem_of_seqZ. split; intros []; split; done || lia. Qed.

Lemma bits_NoDup m : NoDup (bits_of m).
Proof. apply NoDup_filter, NoDup_seqZ. Qed.

Lemma bits_of_ldiff m s : 0 <= s -> bits_of (Z.ldiff m (bit s)) = filter (fun k => k <> s) (bits_of m).
Proof.
  intros Hs. unfold bits_of. rewrite list_filter_filter. apply filter_ext_in.
  intros k Hk. apply elem_of_seqZ in Hk.
  rewrite Z.ldiff_spec, bit_testbit by lia. rewrite andb_true_iff, negb_true_iff, Z.eqb_neq.
  split; intros []; split; done || lia.
Qed.

Lemma bits_cons m s l : bits_of m = s :: l -> bits_of (Z.ldiff m (bit s)) = l.
Proof.
  intros H. assert (Hs : s ∈ bits_of m) by (rewrite H; by left). apply elem_of_bits in Hs as [Hs _].
  rewrite bits_of_ldiff, H by lia. pose proof (bits_NoDup m) as Hn. rewrite H in Hn.
  apply NoDup_cons in Hn as [Hn _]. rewrite filter_cons_False by auto.
  apply filter_all. by intros k Hk ->.
Qed.

(** * The pump *)

Section Pump.
Variable pthread_kill : yos_proc -> Z -> Z.
Variable table_fn : nat -> Z -> bool.
Variable run_handler : nat -> Z -> Z -> yos_runtime -> flow.

(** Handlers that return and touch no signal state. *)
Definition quiet : Prop :=
  forall ci idx s rt, exists rt', run_handler ci idx s rt = Running rt' /\
    ctxs rt' = ctxs rt /\ log rt' = log rt /\ host_pending rt' = host_pending rt /\ procs rt' = procs rt.

Definition calls_handler (ci : nat) (c : yos_ctx) (s : Z) : bool :=
  signum_ok s && negb (ignored c s) && negb (handler_of c s =? 0) && table_fn ci (handler_of c s).

(** The default action would end the process. *)
Definition fatal (c : yos_ctx) (s : Z) : bool :=
  signum_ok s && negb (ignored c s) && (handler_of c s =? 0) && default_action_is_terminate s.

Definition handler_events (ci : nat) (c : yos_ctx) (l : list Z) : list event :=
  map (fun s => Ev_handler ci s (handler_of c s)) (List.filter (calls_handler ci c) l).

Definition set_pending_of (w : Z) (c : yos_ctx) : yos_ctx := set_sig_pending w c.

Lemma invoke_quiet rt ci c s :
  quiet -> ctxs rt !! ci = Some c -> fatal c s = false ->
  exists rt', invoke_signal_handler pthread_kill table_fn run_handler rt ci s = Running rt' /\
    ctxs rt' = ctxs rt /\ host_pending rt' = host_pending rt /\ log rt' = log rt ++ handler_events ci c [s] /\
    procs rt' = procs rt.
Proof.
  intros Hq Hc Hf. unfold invoke_signal_handler, handler_events. rewrite Hc. simpl List.filter.
  unfold fatal, calls_handler in *.
  destruct (signum_ok s); cbn [negb andb] in *; [|by exists rt; rewrite app_nil_r].
  destruct (ignored c s); cbn [negb andb] in *; [by exists rt; rewrite app_nil_r|].
  destruct (Z.eqb_spec (handler_of c s) 0) as [He|He]; cbn [negb andb] in *.
  - rewrite Hf. by exists rt; rewrite app_nil_r.
  - destruct (table_fn ci (handler_of c s)); [|by exists rt; rewrite app_nil_r].
    destruct (Hq ci (handler_of c s) s (emit (Ev_handler ci s (handler_of c s)) rt)) as (rt' & -> & H1 & H2 & H3 & H4).
    exists rt'. by rewrite H1, H2, H3, H4.
Qed.

Lemma pump_loop rt ci c l :
  quiet -> ctxs rt !! ci = Some c -> bits_of (Z.ldiff (sig_pending c) (sig_mask c)) = l ->
  Forall (fun s => fatal c s = false) l ->
  exists rt' w, loop_nat (pump_step pthread_kill table_fn run_handler ci) (S (length l)) rt = inr (Running rt') /\
    ctxs rt' !! ci = Some (set_sig_pending w c) /\ host_pending rt' = host_pending rt /\
    log rt' = log rt ++ handler_events ci c l /\ procs rt' = procs rt /\
    (forall k, 0 <= k -> Z.testbit w k = Z.testbit (sig_pending c) k && negb (bool_decide (k ∈ l))).
Proof.
  intros Hq. revert rt c. induction l as [|s l IH]; intros rt c Hc Hl Hf.
  - exists rt, (sig_pending c). cbn [length loop_nat]. unfold pump_step, ctz. rewrite Hc, Hl. cbn [head].
    split_and!; [done|by destruct c|done|by rewrite app_nil_r|done|].
    intros k _. by rewrite andb_true_r.
  - apply Forall_cons in Hf as [Hs Hf].
    assert (Hsb : s ∈ bits_of (Z.ldiff (sig_pending c) (sig_mask c))) by (rewrite Hl; by left).
    apply elem_of_bits in Hsb as [Hs0 Hsb]. rewrite Z.ldiff_spec in Hsb.
    change (S (length (s :: l))) with (S (S (length l))). cbn [loop_nat].
    unfold pump_step at 1, ctz. rewrite Hc, Hl. cbn [head].
    set (c1 := set_sig_pending (Z.ldiff (sig_pending c) (bit s)) c).
    set (rt1 := upd_ctx ci (fun x => set_sig_pending (Z.ldiff (sig_pending x) (bit s)) x) rt).
    assert (Hc1 : ctxs rt1 !! ci = Some c1) by (unfold rt1; by rewrite lookup_upd_ctx, Hc).
    destruct (invoke_quiet rt1 ci c1 s Hq Hc1 Hs) as (rt2 & -> & H2 & H3 & H4 & H5).
    assert (Hl1 : bits_of (Z.ldiff (sig_pending c1) (sig_mask c1)) = l).
    { rewrite <-(bits_cons _ _ _ Hl). f_equal. simpl. apply Z.bits_inj'. intros k Hk.
      rewrite !Z.ldiff_spec. by destruct (Z.testbit (sig_pending c) k), (Z.testbit (bit s) k), (Z.testbit (sig_mask c) k). }
    change (match pump_step pthread_kill table_fn run_handler ci rt2 with
            | inl s' => loop_nat (pump_step pthread_kill table_fn run_handler ci) (length l) s'
            | inr r => inr r end)
      with (loop_nat (pump_step pthread_kill table_fn run_handler ci) (S (length l)) rt2).
    destruct (IH rt2 c1 ltac:(by rewrite H2) Hl1 Hf) as (rt' & w & Hloop & Hc' & Hh & Hlog & Hpr & Hw).
    exists rt', w. split_and!; [done|done|by rewrite Hh, H3| |by rewrite Hpr, H5|].
    + rewrite Hlog, H4. unfold rt1. simpl. rewrite <-app_assoc. f_equal.
      unfold handler_events. cbn [List.filter]. change (handler_of c1) with (handler_of c).
      change (calls_handler ci c1) with (calls_handler ci c). by destruct (calls_handler ci c s).
    + intros k Hk. rewrite Hw by done. simpl. rewrite Z.ldiff_spec, bit_testbit by lia.
      destruct (Z.eqb_spec s k) as [->|Hne].
      * rewrite andb_false_r. cbn [andb]. rewrite bool_decide_true by (by left). by rewrite andb_false_r.
      * cbn [negb]. rewrite andb_true_r. f_equal. f_equal. apply bool_decide_ext.
        rewrite elem_of_cons. split; [by right|intros [->|]; done].
Qed.

Lemma bits_length m : Z.of_nat (length (bits_of m)) <= 32.
Proof.
  unfold bits_of. pose proof (length_filter (fun s => Z.testbit m s = true) (seqZ 0 32)) as H.
  rewrite length_seqZ in H. lia.
Qed.

(** The pump on a process that nothing deliverable kills. *)
Lemma pump_spec rt ci c :
  quiet -> ctxs rt !! ci = Some c ->
  let w := Z.lor (sig_pending c) (host_pending rt) in
  let l := bits_of (Z.ldiff w (sig_mask c)) in
  Z.testbit w 9 = false -> Forall (fun s => fatal c s = false) l ->
  exists rt' w', yos_signal_pump pthread_kill table_fn run_handler rt ci = Some (Running rt') /\
    ctxs rt' !! ci = Some (set_sig_pending w' c) /\ host_pending rt' = 0 /\
    log rt' = log rt ++ handler_events ci c l /\ procs rt' = procs rt /\
    (forall k, 0 <= k < 32 -> Z.testbit w' k = Z.testbit w k && Z.testbit (sig_mask c) k).
Proof.
  intros Hq Hc w l H9 Hf. unfold yos_signal_pump.
  set (rt1 := pump_fetch rt ci). set (c1 := set_sig_pending w c).
  assert (Hc1 : ctxs rt1 !! ci = Some c1) by (unfold rt1, pump_fetch; by rewrite lookup_upd_ctx; simpl; rewrite Hc).
  rewrite Hc1.
  assert (Hk : negb (Z.land (sig_pending c1) (bit SIGKILL_FB) =? 0) = false).
  { unfold bit, SIGKILL_FB. rewrite land_bit_testbit by lia. exact H9. }
  rewrite Hk. destruct (pump_loop rt1 ci c1 l Hq Hc1 eq_refl Hf) as (rt' & w' & Hloop & Hc' & Hh & Hlog & Hpr & Hw).
  assert (Hlen : Z.of_nat (S (length l)) <= 4294967296).
  { pose proof (bits_length (Z.ldiff w (sig_mask c))). unfold l. lia. }
  rewrite (loop_for_reaches _ _ _ _ _ Hlen Hloop).
  exists rt', w'. split_and!; [done|done|done|done|done|]. intros k Hk'. rewrite Hw by lia. simpl.
  destruct (Z.testbit w k) eqn:Ew; [|done]. cbn [andb].
  destruct (Z.testbit (sig_mask c) k) eqn:Em.
  - rewrite bool_decide_false; [done|]. intros Hin. apply elem_of_bits in Hin as [_ Hin].
    rewrite Z.ldiff_spec, Em, andb_false_r in Hin. done.
  - rewrite bool_decide_true; [done|]. apply elem_of_bits. split; [done|]. by rewrite Z.ldiff_spec, Ew, Em.
Qed.

(** ** Handlers that do other work *)

(** The signal state of a thread. *)
Definition sig_state (c : yos_ctx) :=
  (sig_mask c, sig_pending c, sig_handlers c, sig_ignore_mask c, g_proc c).

(** The handler calls made on the thread [ci], with the table index called. *)
Definition deliveries (ci : nat) (l : list event) : list (Z * Z) :=
  omap (fun e => match e with
                 | Ev_handler i s idx => if Nat.eqb i ci then Some (s, idx) else None
                 | _ => None
                 end) l.

(** Handlers that return and leave their own thread's signal state and process
    slot alone, and do not pump themselves; memory, descriptors, errno, other
    threads, other processes, the host's latch and the log are theirs to
    change. *)
Definition keeps_signals (ci : nat) : Prop :=
  forall idx s rt c, ctxs rt !! ci = Some c ->
  exists rt' c', run_handler ci idx s rt = Running rt' /\ ctxs rt' !! ci = Some c' /\
    sig_state c' = sig_state c /\ deliveries ci (log rt') = deliveries ci (log rt) /\
    forall slot, g_proc c = Some slot -> pid <$> procs rt' !! slot = pid <$> procs rt !! slot.

(** Handlers that raise no signal of the host. *)
Definition leaves_latch (ci : nat) : Prop :=
  forall idx s rt rt', run_handler ci idx s rt = Running rt' -> host_pending rt' = host_pending rt.

Definition handled (ci : nat) (c : yos_ctx) (l : list Z) : list (Z * Z) :=
  map (fun s => (s, handler_of c s)) (List.filter (calls_handler ci c) l).

(** The default action ends process [slot] with signal [s]. *)
Definition ended_by (ci slot : nat) (p s : Z) (rt : yos_runtime) : flow :=
  let rt1 := emit (Ev_broadcast slot) (upd_proc slot (sig_terminate s) rt) in
  if p <=? 1 then HostExit (128 + s) rt1 else ThreadExit (yos_proc_post_exit_cleanup pthread_kill rt1 ci).

Lemma sig_state_eq c c' :
  sig_state c' = sig_state c ->
  (forall s, fatal c' s = fatal c s) /\ (forall ci s, calls_handler ci c' s = calls_handler ci c s) /\
  (forall s, handler_of c' s = handler_of c s).
Proof. intros H. injection H as _ _ Hh Hi _. by unfold fatal, calls_handler, ignored, handler_of; rewrite Hh, Hi. Qed.

Lemma deliveries_app ci l1 l2 : deliveries ci (l1 ++ l2) = deliveries ci l1 ++ deliveries ci l2.
Proof. apply omap_app. Qed.

Lemma handled_cons ci c s l : handled ci c (s :: l) = handled ci c [s] ++ handled ci c l.
Proof. unfold handled. simpl. by destruct (calls_handler ci c s). Qed.

Lemma invoke_keeps rt ci c s :
  keeps_signals ci -> ctxs rt !! ci = Some c -> fatal c s = false ->
  exists rt' c', invoke_signal_handler pthread_kill table_fn run_handler rt ci s = Running rt' /\
    ctxs rt' !! ci = Some c' /\ sig_state c' = sig_state c /\
    deliveries ci (log rt') = deliveries ci (log rt) ++ handled ci c [s] /\
    (forall slot, g_proc c = Some slot -> pid <$> procs rt' !! slot = pid <$> procs rt !! slot) /\
    (leaves_latch ci -> host_pending rt' = host_pending rt).
Proof.
  intros Hq Hc Hf. unfold invoke_signal_handler, handled. rewrite Hc. simpl List.filter.
  unfold fatal, calls_handler in *.
  assert (Hidle : exists rt' c', Running rt = Running rt' /\ ctxs rt' !! ci = Some c' /\ sig_state c' = sig_state c /\
    deliveries ci (log rt') = deliveries ci (log rt) ++ [] /\
    (forall slot, g_proc c = Some slot -> pid <$> procs rt' !! slot = pid <$> procs rt !! slot) /\
    (leaves_latch ci -> host_pending rt' = host_pending rt)).
  { exists rt, c. by rewrite app_nil_r. }
  destruct (signum_ok s); cbn [negb andb] in *; [|exact Hidle].
  destruct (ignored c s); cbn [negb andb] in *; [exact Hidle|].
  destruct (Z.eqb_spec (handler_of c s) 0) as [He|He]; cbn [negb andb] in *; [by rewrite Hf|].
  destruct (table_fn ci (handler_of c s)); [|exact Hidle].
  destruct (Hq (handler_of c s) s (emit (Ev_handler ci s (handler_of c s)) rt) c Hc) as (rt' & c' & Hr & H1 & H2 & H3 & H4).
  rewrite Hr.
  exists rt', c'. split_and!; [done..| |done|by intros Hlatch; rewrite (Hlatch _ _ _ _ Hr)].
  rewrite H3. simpl log. rewrite deliveries_app. simpl. by rewrite Nat.eqb_refl.
Qed.

(** The signals [l] below the first fatal one are taken in turn. *)
Lemma pump_prefix l rt ci c rest n :
  keeps_signals ci -> ctxs rt !! ci = Some c -> bits_of (Z.ldiff (sig_pending c) (sig_mask c)) = l ++ rest ->
  Forall (fun s => fatal c s = false) l ->
  exists rt' c' w, loop_nat (pump_step pthread_kill table_fn run_handler ci) (length l + n) rt =
      loop_nat (pump_step pthread_kill table_fn run_handler ci) n rt' /\
    ctxs rt' !! ci = Some c' /\ sig_state c' = sig_state (set_sig_pending w c) /\
    bits_of (Z.ldiff w (sig_mask c)) = rest /\
    deliveries ci (log rt') = deliveries ci (log rt) ++ handled ci c l /\
    (forall slot, g_proc c = Some slot -> pid <$> procs rt' !! slot = pid <$> procs rt !! slot) /\
    (leaves_latch ci -> host_pending rt' = host_pending rt) /\
    (forall k, 0 <= k -> Z.testbit w k = Z.testbit (sig_pending c) k && negb (bool_decide (k ∈ l))).
Proof.
  intros Hq. revert rt c. induction l as [|s l IH]; intros rt c Hc Hl Hf.
  - exists rt, c, (sig_pending c). rewrite app_nil_r. split_and!; [done..|]. intros k _. by rewrite andb_true_r.
  - apply Forall_cons in Hf as [Hs Hf]. cbn [app] in Hl.
    assert (Hsb : s ∈ bits_of (Z.ldiff (sig_pending c) (sig_mask c))) by (rewrite Hl; by left).
    apply elem_of_bits in Hsb as [Hs0 Hsb]. rewrite Z.ldiff_spec in Hsb.
    cbn [length Nat.add loop_nat]. unfold pump_step at 1, ctz. rewrite Hc, Hl. cbn [head].
    set (c1 := set_sig_pending (Z.ldiff (sig_pending c) (bit s)) c).
    set (rt1 := upd_ctx ci _ rt).
    assert (Hc1 : ctxs rt1 !! ci = Some c1) by (unfold rt1; by rewrite lookup_upd_ctx, Hc).
    destruct (invoke_keeps rt1 ci c1 s Hq Hc1 Hs) as (rt2 & c2 & -> & H1 & H2 & H3 & H4 & H4').
    destruct (sig_state_eq c1 c2 H2) as (Ef & Ec & Ehd). injection H2 as Em Ep Eh Ei Eg.
    assert (Hl2 : bits_of (Z.ldiff (sig_pending c2) (sig_mask c2)) = l ++ rest).
    { rewrite Ep, Em, <-(bits_cons _ _ _ Hl). f_equal. simpl. apply Z.bits_inj'. intros k Hk.
      rewrite !Z.ldiff_spec. by destruct (Z.testbit (sig_pending c) k), (Z.testbit (bit s) k), (Z.testbit (sig_mask c) k). }
    assert (Hf2 : Forall (fun k => fatal c2 k = false) l) by (by eapply Forall_impl; [exact Hf|]; intros k; rewrite Ef).
    destruct (IH rt2 c2 H1 Hl2 Hf2) as (rt' & c' & w & -> & G1 & G2 & G3 & G4 & G5 & G5' & G6).
    exists rt', c', w. split_and!; [done|done| |by rewrite <-G3, Em| | | |].
    + rewrite G2. unfold sig_state. simpl. by rewrite Em, Eh, Ei, Eg.
    + rewrite G4, H3, <-app_assoc, (handled_cons ci c). do 2 f_equal.
      unfold handled. rewrite (filter_ext _ _ (Ec ci)). apply map_ext. intros k. by rewrite Ehd.
    + intros slot Hg. rewrite G5 by (by rewrite Eg). by rewrite H4.
    + intros Hlatch. by rewrite G5', H4'.
    + intros k Hk. rewrite G6, Ep by done. simpl. rewrite Z.ldiff_spec, bit_testbit by lia.
      destruct (Z.eqb_spec s k) as [->|Hne].
      * rewrite andb_false_r. cbn [andb]. rewrite bool_decide_true by (by left). by rewrite andb_false_r.
      * cbn [negb]. rewrite andb_true_r. f_equal. f_equal. apply bool_decide_ext.
        rewrite elem_of_cons. split; [by right|intros [->|]; done].
Qed.

(** What the pump answers: with SIGKILL pending, the end of the process; with
    a fatal signal among the deliverable ones, the end of the process after
    those below it; otherwise the thread goes on. *)
Definition pumped (rt : yos_runtime) (ci : nat) (c : yos_ctx) (slot : nat) (p w : Z) (l : list Z) (f : flow) : Prop :=
  (Z.testbit w 9 = true ->
     (forall rt', f <> Running rt') /\ deliveries ci (log (flow_rt f)) = deliveries ci (log rt) /\
     procs (flow_rt f) = alter (sig_terminate 9) slot (procs rt)) /\
  (forall before s rest, Z.testbit w 9 = false -> l = before ++ s :: rest ->
     Forall (fun k => fatal c k = false) before -> fatal c s = true ->
     exists rt', f = ended_by ci slot p s rt' /\
       deliveries ci (log rt') = deliveries ci (log rt) ++ handled ci c before) /\
  (Z.testbit w 9 = false -> Forall (fun k => fatal c k = false) l ->
     exists rt' c' w', f = Running rt' /\ ctxs rt' !! ci = Some c' /\
       sig_state c' = sig_state (set_sig_pending w' c) /\
       deliveries ci (log rt') = deliveries ci (log rt) ++ handled ci c l /\
       (leaves_latch ci -> host_pending rt' = 0) /\
       forall k, 0 <= k < 32 -> Z.testbit w' k = Z.testbit w k && Z.testbit (sig_mask c) k).

(** The pump's loop, with fuel to spare. *)
Lemma pump_loop_for rt ci n f :
  (n <= 33)%nat -> loop_nat (pump_step pthread_kill table_fn run_handler ci) n rt = inr f ->
  loop_for (pump_step pthread_kill table_fn run_handler ci) 4294967296 rt = inr f.
Proof. intros Hn. apply loop_for_reaches. lia. Qed.

Lemma bits_short m : (length (bits_of m) <= 32)%nat.
Proof. pose proof (bits_length m). lia. Qed.

Lemma pump_step_fatal rt ci c s l slot p :
  ctxs rt !! ci = Some c -> bits_of (Z.ldiff (sig_pending c) (sig_mask c)) = s :: l -> fatal c s = true ->
  g_proc c = Some slot -> pid <$> procs rt !! slot = Some p ->
  exists rt', pump_step pthread_kill table_fn run_handler ci rt = inr (ended_by ci slot p s rt') /\ log rt' = log rt.
Proof.
  intros Hc Hl Hf Hg Hp. unfold pump_step, ctz. rewrite Hc, Hl. cbn [head].
  set (rt1 := upd_ctx ci _ rt). exists rt1. split; [|done].
  unfold invoke_signal_handler. assert (ctxs rt1 !! ci = Some (set_sig_pending (Z.ldiff (sig_pending c) (bit s)) c)) as ->.
  { unfold rt1. by rewrite lookup_upd_ctx, Hc. }
  unfold fatal in Hf. apply andb_prop in Hf as [Hf Ht]. apply andb_prop in Hf as [Hf He]. apply andb_prop in Hf as [Ho Hi].
  change (ignored (set_sig_pending _ c) s) with (ignored c s). change (handler_of (set_sig_pending _ c) s) with (handler_of c s).
  rewrite Ho, He, Ht. apply negb_true_iff in Hi. rewrite Hi. cbn [negb]. simpl g_proc. rewrite Hg.
  change (procs rt1) with (procs rt). destruct (procs rt !! slot) as [q|]; [|done]. simpl in Hp. simplify_eq.
  unfold ended_by. by destruct (pid q <=? 1).
Qed.

Lemma pump_pumped rt ci c slot p :
  keeps_signals ci -> ctxs rt !! ci = Some c -> g_proc c = Some slot -> procs rt !! slot = Some p ->
  let w := Z.lor (sig_pending c) (host_pending rt) in
  exists f, yos_signal_pump pthread_kill table_fn run_handler rt ci = Some f /\
    pumped rt ci c slot (pid p) w (bits_of (Z.ldiff w (sig_mask c))) f.
Proof.
  intros Hq Hc Hg Hp w. set (l := bits_of _). unfold yos_signal_pump.
  set (rt1 := pump_fetch rt ci). set (c1 := set_sig_pending w c).
  assert (Hc1 : ctxs rt1 !! ci = Some c1) by (unfold rt1, pump_fetch; by rewrite lookup_upd_ctx; simpl; rewrite Hc).
  rewrite Hc1. unfold bit at 1, SIGKILL_FB at 1. rewrite land_bit_testbit by lia. change (sig_pending c1) with w.
  destruct (Z.testbit w 9) eqn:H9.
  { eexists. split; [done|]. split_and!; [|intros; congruence..]. intros _. unfold pump_kill. change (g_proc c1) with (g_proc c).
    rewrite Hg. change (procs rt1) with (procs rt). rewrite Hp. destruct (pid p <=? 1); simpl; split_and!; try done;
      by rewrite deliveries_app, app_nil_r. }
  pose proof (bits_short (Z.ldiff w (sig_mask c))) as Hlen. fold l in Hlen.
  assert (Hp1 : pid <$> procs rt1 !! slot = Some (pid p)) by (change (procs rt1) with (procs rt); by rewrite Hp).
  destruct (decide (Forall (fun k => fatal c k = false) l)) as [Hall|Hsome].
  - destruct (pump_prefix l rt1 ci c1 [] 1 Hq Hc1 ltac:(by rewrite app_nil_r) Hall)
      as (rt' & c' & w' & Hloop & G1 & G2 & G3 & G4 & _ & G5 & G6).
    assert (pump_step pthread_kill table_fn run_handler ci rt' = inr (Running rt')) as Hend.
    { unfold pump_step, ctz. rewrite G1. injection G2 as Em Ep _ _ _. rewrite Ep, Em. simpl in G3. by rewrite G3. }
    cbn [loop_nat] in Hloop. rewrite Hend in Hloop. rewrite (pump_loop_for _ _ (length l + 1) _ ltac:(lia) Hloop).
    eexists. split; [done|]. split_and!; [intros; congruence| |].
    + intros before s rest _ Hs _ Hfs. rewrite Hs in Hall. apply Forall_app in Hall as [_ Hall].
      apply Forall_cons in Hall as [Hall _]. by rewrite Hall in Hfs.
    + intros _ _. exists rt', c', w'. split_and!; [done..|by intros Hlatch; rewrite G5|]. intros k Hk. rewrite G6 by lia.
      change (sig_pending c1) with w. destruct (Z.testbit w k) eqn:Ew; [|done]. cbn [andb].
      destruct (Z.testbit (sig_mask c) k) eqn:Em.
      * rewrite bool_decide_false; [done|]. intros Hin. apply elem_of_bits in Hin as [_ Hin].
        by rewrite Z.ldiff_spec, Em, andb_false_r in Hin.
      * rewrite bool_decide_true; [done|]. apply elem_of_bits. split; [done|]. by rewrite Z.ldiff_spec, Ew, Em.
  - assert (exists before s rest, l = before ++ s :: rest /\ Forall (fun k => fatal c k = false) before /\ fatal c s = true)
      as (before & s & rest & Hl & Hb & Hs).
    { clear -Hsome. induction l as [|k l IH]; [by destruct Hsome|]. destruct (fatal c k) eqn:E; [by exists [], k, l|].
      destruct IH as (b & s & r & -> & H1 & H2); [intros H; apply Hsome; by constructor|].
      exists (k :: b), s, r. split_and!; [done|by constructor|done]. }
    destruct (pump_prefix before rt1 ci c1 (s :: rest) 1 Hq Hc1 Hl Hb)
      as (rt' & c' & w' & Hloop & G1 & G2 & G3 & G4 & G5 & _).
    destruct (sig_state_eq _ _ G2) as (Ef & _ & _). injection G2 as Em Ep _ _ Eg.
    destruct (pump_step_fatal rt' ci c' s rest slot (pid p) G1 ltac:(by rewrite Ep, Em) ltac:(by rewrite Ef) ltac:(by rewrite Eg)
      ltac:(by rewrite (G5 slot Hg))) as (rt2 & Hend & Hlog).
    cbn [loop_nat] in Hloop. rewrite Hend in Hloop.
    rewrite (pump_loop_for _ _ (length before + 1) _ ltac:(rewrite Hl, length_app in Hlen; simpl in Hlen; lia) Hloop).
    eexists. split; [done|]. split_and!; [intros; congruence| |done].
    intros before2 s2 rest2 _ Hl2 Hb2 Hs2.
    assert (before2 = before /\ s2 = s) as [-> ->].
    { rewrite Hl in Hl2. clear -Hl2 Hb Hb2 Hs Hs2. revert before2 Hb2 Hl2. induction Hb as [|k b Hk Hb IH]; intros [|k2 b2] Hb2 Hl2;
        simplify_eq/=; [done|apply Forall_cons in Hb2 as [? _]; congruence|congruence|].
      apply Forall_cons in Hb2 as [_ Hb2]. by destruct (IH b2 Hb2) as [-> ->]. }
    exists rt2. by rewrite Hlog, G4.
Qed.

End Pump.

(** * Properties *)

Lemma bits_sorted m : StronglySorted Z.lt (bits_of m).
Proof.
  assert (H : forall n a, StronglySorted Z.lt (map (fun i => Z.of_nat i + a) (seq 0 n))).
  { induction n as [|n IH]; intros a; [constructor|]. simpl. rewrite <-seq_shift, map_map. constructor.
    - rewrite (map_ext _ (fun i => Z.of_nat i + (a + 1))) by (intros; lia). apply IH.
    - apply Forall_map, Forall_forall. intros i _. lia. }
  assert (Hf : forall l, StronglySorted Z.lt l -> StronglySorted Z.lt (filter (fun s => Z.testbit m s = true) l)).
  { induction 1 as [|x l Hl IH Hx]; [constructor|]. rewrite filter_cons. case_decide; [|done].
    constructor; [done|]. rewrite Forall_forall in *. intros y [_ Hy]%list_elem_of_filter. by apply Hx. }
  apply Hf, (H 32%nat 0).
Qed.

(** C11: The pump takes the pending signals that are not blocked, each exactly
    once and in ascending order, and runs the handler of those that have one.
    Without a fatal one among them the thread goes on with exactly the blocked
    ones pending, the mask and the dispositions as they were, and the host's
    latch drained.  The first one whose default action is fatal ends the
    process with that signal, after the handlers of those below it and of no
    other.  With SIGKILL pending the process ends and no handler runs, blocked
    or not.  The handlers may do anything but change their own thread's
    signal state or leave it: a handler that raises, unblocks or installs
    signals for its own thread, or does not return, is outside this theorem. *)
Theorem pump_delivers_in_order pthread_kill table_fn run_handler rt ci c slot p :
  keeps_signals run_handler ci -> ctxs rt !! ci = Some c -> g_proc c = Some slot -> procs rt !! slot = Some p ->
  let w := Z.lor (sig_pending c) (host_pending rt) in
  let l := bits_of (Z.ldiff w (sig_mask c)) in
  (exists f, yos_signal_pump pthread_kill table_fn run_handler rt ci = Some f /\
    pumped pthread_kill table_fn run_handler rt ci c slot (pid p) w l f) /\
  StronglySorted Z.lt l /\ NoDup l /\
  (forall s, s ∈ l <-> 0 <= s < 32 /\ Z.testbit w s = true /\ Z.testbit (sig_mask c) s = false).
Proof.
  intros Hq Hc Hg Hp w l. split_and!; [by apply pump_pumped|apply bits_sorted|apply bits_NoDup|].
  intros s. unfold l. rewrite elem_of_bits, Z.ldiff_spec, andb_true_iff, negb_true_iff. done.
Qed.

(** SIGKILL cannot be blocked, ignored or caught: once it is pending the
    pump ends the thread (the host for pid 1), records the zombie with signal
    9, and runs no handler, whatever the mask and the dispositions.  No other
    slot changes: unlike an exit, the children are not inherited by init. *)
Theorem sigkill_unstoppable pthread_kill table_fn run_handler rt ci c slot p :
  ctxs rt !! ci = Some c -> g_proc c = Some slot -> procs rt !! slot = Some p ->
  Z.testbit (sig_pending c) 9 = true ->
  exists f, yos_signal_pump pthread_kill table_fn run_handler rt ci = Some f /\
    (forall rt', f <> Running rt') /\
    procs (flow_rt f) = alter (sig_terminate 9) slot (procs rt) /\
    log (flow_rt f) = log rt ++ [Ev_broadcast slot].
Proof.
  intros Hc Hg Hp H9. unfold yos_signal_pump. set (rt1 := pump_fetch rt ci).
  assert (Hc1 : ctxs rt1 !! ci = Some (set_sig_pending (Z.lor (sig_pending c) (host_pending rt)) c)).
  { unfold rt1, pump_fetch. rewrite lookup_upd_ctx. simpl. by rewrite Hc. }
  rewrite Hc1. unfold bit at 1, SIGKILL_FB at 1. rewrite land_bit_testbit by lia. simpl sig_pending.
  rewrite Z.lor_spec, H9. cbn [orb]. eexists. split; [done|]. unfold pump_kill. simpl g_proc. rewrite Hg.
  change (procs rt1) with (procs rt). rewrite Hp.
  destruct (pid p <=? 1); simpl; split_and!; done.
Qed.

(** Blocked, by the process mask. *)
Definition blocked (c : yos_ctx) (s : Z) : bool := Z.testbit (sig_mask c) s.

Lemma in_set_lo m off s : 1 <= s <= 32 -> in_set m off s = Z.testbit (ld32 m off) (s - 1).
Proof.
  intros Hs. unfold in_set, sig_word. rewrite Z.div_small, Z.mod_small by lia. f_equal. f_equal. lia.
Qed.

Lemma read_lo c off : yos_sigset_bound c off = true -> read_fbsd_sigset_lo c off = ld32 (mem c) off.
Proof.
  unfold yos_sigset_bound, read_fbsd_sigset_lo. destruct (Z.eqb_spec off 0); [done|].
  unfold YOS_FBSD_SIGSET_BYTES. destruct (Z.leb_spec (off + 16) (memory_size c)); [|done].
  by destruct (Z.ltb_spec (memory_size c) (off + 16)); [lia|].
Qed.

Lemma unblockable_bit s : 0 <= s -> Z.testbit unblockable s = (s =? 9) || (s =? 17).
Proof.
  intros Hs. unfold unblockable. rewrite Z.lor_spec, !bit_testbit by lia.
  by rewrite (Z.eqb_sym 9 s), (Z.eqb_sym 17 s).
Qed.

(** The mask a guest set denotes. *)
Definition set_mask (m : memory) (off s : Z) : bool := in_set m off s && negb ((s =? 9) || (s =? 17)).

Lemma mask_of_set c off s :
  yos_sigset_bound c off = true -> 1 <= s < 32 ->
  Z.testbit (Z.ldiff (u32 (Z.shiftl (read_fbsd_sigset_lo c off) 1)) unblockable) s = set_mask (mem c) off s.
Proof.
  intros Hb Hs. unfold set_mask.
  rewrite Z.ldiff_spec, unblockable_bit, u32_testbit, Z.shiftl_spec, read_lo, in_set_lo by (done || lia). done.
Qed.

Lemma write_lo_in_set c off v s :
  yos_sigset_bound c off = true -> 0 <= v < 4294967296 -> 1 <= s <= 128 ->
  in_set (mem (write_fbsd_sigset_lo c off v)) off s = if s <=? 32 then Z.testbit v (s - 1) else false.
Proof.
  intros Hb Hv Hs. pose proof (bound_in c off s Hb Hs) as (H0 & H1 & H2).
  unfold yos_sigset_bound, YOS_FBSD_SIGSET_BYTES in Hb. unfold write_fbsd_sigset_lo, YOS_FBSD_SIGSET_BYTES.
  destruct (Z.eqb_spec off 0); [lia|]. destruct (Z.leb_spec (off + 16) (memory_size c)); [|done].
  destruct (Z.ltb_spec (memory_size c) (off + 16)); [lia|]. cbn [orb mem set_mem].
  change (16 - 4) with 12. destruct (Z.leb_spec s 32).
  - rewrite in_set_lo by lia. rewrite (ld32_agree (st32 (mem c) off v)); [|apply memset_frame; lia].
    by rewrite ld32_st32, u32_small.
  - unfold in_set. rewrite (ld32_const _ _ 0); [apply Z.bits_0|].
    intros b Hb'. rewrite ld8_memset_in; [done|]. unfold sig_word in *. mlia.
Qed.

(** The members of the set at [off]; a set that does not fit in the memory
    reads as the empty one. *)
Definition asked (c : exec_ctx) (off s : Z) : bool := yos_sigset_bound c off && set_mask (mem c) off s.

Lemma mask_of_asked c off s :
  off <> 0 -> 1 <= s < 32 ->
  Z.testbit (Z.ldiff (u32 (Z.shiftl (read_fbsd_sigset_lo c off) 1)) unblockable) s = asked c off s.
Proof.
  intros H0 Hs. unfold asked. destruct (yos_sigset_bound c off) eqn:E; [by apply mask_of_set|].
  unfold yos_sigset_bound, YOS_FBSD_SIGSET_BYTES in E. unfold read_fbsd_sigset_lo, YOS_FBSD_SIGSET_BYTES.
  destruct (Z.eqb_spec off 0); [done|]. destruct (Z.leb_spec (off + 16) (memory_size c)); [done|].
  destruct (Z.ltb_spec (memory_size c) (off + 16)); [|lia]. by rewrite Z.ldiff_spec, Z.bits_0.
Qed.

(** What the old set leaves in the memory: the signals of [m] where the set
    fits, and nothing outside it. *)
Definition old_set_written (m : Z) (c0 c : exec_ctx) (off : Z) : Prop :=
  (yos_sigset_bound c0 off = true ->
     forall s, 1 <= s <= 128 -> in_set (mem c) off s = (s <? 32) && Z.testbit m s) /\
  (yos_sigset_bound c0 off = false -> c = c0) /\
  (forall a, ~ (off <= a < off + YOS_FBSD_SIGSET_BYTES) -> ld8 (mem c) a = ld8 (mem c0) a).

Lemma write_lo_written c off m :
  0 <= m < 4294967296 -> old_set_written m c (write_fbsd_sigset_lo c off (Z.shiftr m 1)) off.
Proof.
  intros Hm. split_and!.
  - intros Hb s Hs. rewrite write_lo_in_set; [|done| |done].
    + destruct (Z.leb_spec s 32), (Z.ltb_spec s 32); try lia; cbn [andb].
      * rewrite Z.shiftr_spec by lia. f_equal. lia.
      * rewrite Z.shiftr_spec by lia. assert (s = 32) as -> by lia.
        rewrite <-(Z.mod_small m (2 ^ 32)) by (change (2 ^ 32) with 4294967296; lia).
        apply Z.mod_pow2_bits_high. lia.
    + rewrite Z.shiftr_div_pow2 by lia. change (2 ^ 1) with 2. mlia.
  - unfold yos_sigset_bound, write_fbsd_sigset_lo, YOS_FBSD_SIGSET_BYTES.
    destruct (Z.eqb_spec off 0); [done|]. destruct (Z.leb_spec (off + 16) (memory_size c)); [done|].
    by destruct (Z.ltb_spec (memory_size c) (off + 16)); [|lia].
  - intros a Ha. unfold write_fbsd_sigset_lo, YOS_FBSD_SIGSET_BYTES in *. destruct (_ || _); [done|].
    cbn [mem set_mem]. symmetry.
    rewrite (memset_frame (st32 (mem c) off (Z.shiftr m 1)) (off + 4) 0 12 a (a + 1)) by lia.
    symmetry; apply (st32_frame _ _ _ a (a + 1)); lia.
Qed.

(** C25: [sigprocmask] is set algebra on the guest's own [sigset_t]: block adds
    its members, unblock removes them, setmask installs them, SIGKILL and
    SIGSTOP excepted.  A null set asks for nothing: the mask stays, whatever
    [how] is.  A set out of the memory reads as the empty one, unlike
    [pthread_sigmask]'s EFAULT.  The old set written out has exactly the
    signals that were blocked, and no byte outside it changes; a null or
    out-of-memory old set writes nothing.  Pending signals, processes and log
    are kept; then what became deliverable is pumped.  A bad [how] with a set
    changes nothing but errno. *)
Theorem sigprocmask_semantics h2g pthread_kill table_fn run_handler rt ci c how set_off oset_off :
  ctxs rt !! ci = Some c -> 0 <= sig_mask c < 4294967296 ->
  let call := yos_sigprocmask h2g pthread_kill table_fn run_handler rt ci how set_off oset_off in
  (set_off = 0 \/ 1 <= how <= 3 -> exists rt2 c2,
     call = with_pump pthread_kill table_fn run_handler 0 rt2 ci /\ ctxs rt2 !! ci = Some c2 /\
     sig_pending c2 = sig_pending c /\ procs rt2 = procs rt /\ log rt2 = log rt /\
     (forall s, 1 <= s < 32 -> blocked c2 s =
        if set_off =? 0 then blocked c s
        else if how =? 1 then blocked c s || asked (g_exec c) set_off s
        else if how =? 2 then blocked c s && negb (asked (g_exec c) set_off s)
        else asked (g_exec c) set_off s) /\
     old_set_written (sig_mask c) (g_exec c) (g_exec c2) oset_off) /\
  (set_off <> 0 -> ~ (1 <= how <= 3) -> call = Some (yos_errno h2g rt ci EINVAL)).
Proof.
  intros Hc Hm. unfold yos_sigprocmask, sigmask_apply. rewrite Hc.
  set (sm := Z.ldiff _ unblockable).
  assert (Hsm : set_off <> 0 -> forall s, 1 <= s < 32 -> Z.testbit sm s = asked (g_exec c) set_off s).
  { intros H0 s Hs. by apply mask_of_asked. }
  assert (Hfin : forall m, exists rt2 c2,
    with_pump pthread_kill table_fn run_handler 0
      (if oset_off =? 0 then upd_ctx ci (set_sig_mask m) rt
       else upd_exec ci (fun e => write_fbsd_sigset_lo e oset_off (Z.shiftr (sig_mask c) 1)) (upd_ctx ci (set_sig_mask m) rt)) ci
    = with_pump pthread_kill table_fn run_handler 0 rt2 ci /\ ctxs rt2 !! ci = Some c2 /\
    sig_pending c2 = sig_pending c /\ procs rt2 = procs rt /\ log rt2 = log rt /\ sig_mask c2 = m /\
    old_set_written (sig_mask c) (g_exec c) (g_exec c2) oset_off).
  { intros m. destruct (Z.eqb_spec oset_off 0) as [->|]; eexists _, _; (split; [done|]).
    - rewrite lookup_upd_ctx, Hc. by split_and!.
    - unfold upd_exec. rewrite !lookup_upd_ctx, Hc. cbn [fmap option_fmap option_map].
      do 5 (split; [done|]). by apply write_lo_written. }
  split.
  - intros Hh. destruct (Z.eqb_spec set_off 0) as [H0|H0].
    { destruct (Hfin (sig_mask c)) as (rt2 & c2 & -> & F1 & F2 & F3 & F4 & F5 & F6). exists rt2, c2.
      do 5 (split; [done|]). split; [|done]. intros s Hs. unfold blocked. by rewrite F5. }
    assert (exists m, mask_op how (sig_mask c) sm = Some m /\ forall s, Z.testbit m s =
      if how =? 1 then blocked c s || Z.testbit sm s
      else if how =? 2 then blocked c s && negb (Z.testbit sm s) else Z.testbit sm s) as (m & -> & Hbits).
    { assert (how = 1 \/ how = 2 \/ how = 3) as [-> |[-> | ->]] by lia; cbn; eexists; (split; [done|]); intros s;
        unfold blocked; [apply Z.lor_spec|apply Z.ldiff_spec|done]. }
    destruct (Hfin m) as (rt2 & c2 & -> & F1 & F2 & F3 & F4 & F5 & F6). exists rt2, c2.
    do 5 (split; [done|]). split; [|done]. intros s Hs. unfold blocked at 1. by rewrite F5, Hbits, Hsm.
  - intros H0 Hh. destruct (Z.eqb_spec set_off 0); [done|]. unfold mask_op.
    destruct (Z.eqb_spec how 1); [lia|]. destruct (Z.eqb_spec how 2); [lia|].
    by destruct (Z.eqb_spec how 3); [lia|].
Qed.

Lemma signum_ok_spec s : signum_ok s = true <-> 0 < s < 32.
Proof. unfold signum_ok, YOS_NSIG. rewrite andb_true_iff, !Z.ltb_lt. done. Qed.

Lemma ignored_testbit c s : 0 <= s -> ignored c s = Z.testbit (sig_ignore_mask c) s.
Proof. intros. unfold ignored. by apply land_bit_testbit. Qed.

Lemma record_handler_abi c s h t :
  0 < s < 32 -> 0 < t < 32 -> length (sig_handlers c) = 32%nat -> 0 <= h ->
  prev_abi (record_handler c s h) t = if s =? t then h else prev_abi c t.
Proof.
  intros Hs Ht Hl Hh. unfold record_handler, prev_abi.
  rewrite (proj2 (signum_ok_spec s) Hs). cbn [negb].
  assert (Hn : forall v, default 0 (<[Z.to_nat s := v]> (sig_handlers c) !! Z.to_nat t) =
                         if s =? t then v else handler_of c t).
  { intros v. unfold handler_of. destruct (Z.eqb_spec s t) as [->|].
    - by rewrite list_lookup_insert_eq by lia.
    - by rewrite list_lookup_insert_ne by lia. }
  assert (Hi : forall x, ignored (set_sig_handlers x c) t = ignored c t) by done.
  rewrite !ignored_testbit by lia.
  destruct (Z.eqb_spec h 0) as [->|]; [|destruct (Z.eqb_spec h 1) as [->|]];
    cbn [sig_ignore_mask set_sig_ignore_mask set_sig_handlers];
    rewrite ?Z.ldiff_spec, ?Z.lor_spec, !bit_testbit by lia;
    unfold handler_of at 1; cbn [sig_handlers set_sig_handlers]; rewrite Hn;
    (destruct (s =? t); cbn [negb]; rewrite ?andb_true_r, ?andb_false_r, ?orb_true_r, ?orb_false_r; done).
Qed.

(** [signal] returns the disposition that was installed last for that very
    signal, SIG_DFL and SIG_IGN included, leaves the other signals alone, and
    refuses signals outside 1..31 without a change. *)
Theorem signal_returns_installed rt ci c s h h2 t :
  ctxs rt !! ci = Some c -> length (sig_handlers c) = 32%nat -> 0 <= h -> 0 < t < 32 ->
  let '(old, rt1) := yos_signal rt ci s h in
  (0 < s < 32 -> old = prev_abi c s /\ (yos_signal rt1 ci s h2).1 = h /\
     (t <> s -> (yos_signal rt1 ci t h2).1 = prev_abi c t)) /\
  (~ (0 < s < 32) -> old = YOS_SIG_ERR /\ rt1 = rt).
Proof.
  intros Hc Hl Hh Ht. unfold yos_signal at 1. rewrite Hc.
  destruct (signum_ok s) eqn:E; cbn [negb].
  - apply signum_ok_spec in E. split; [|done]. intros _.
    unfold yos_signal. rewrite lookup_upd_ctx, Hc. cbn [fmap option_fmap option_map].
    rewrite (proj2 (signum_ok_spec s) E), (proj2 (signum_ok_spec t) Ht). cbn [negb fst].
    rewrite !record_handler_abi by done. rewrite Z.eqb_refl. split_and!; [done..|].
    intros Hne. by destruct (Z.eqb_spec s t); [subst|].
  - assert (~ (0 < s < 32)) by (rewrite <-signum_ok_spec, E; done). split; [done|]. done.
Qed.

Lemma suspend_poll_idle pthread_kill table_fn run_handler n i rt ci my_pid :
  find_zombie_child rt my_pid (-1) = None ->
  suspend_poll pthread_kill table_fn run_handler n i (fun _ r => r) rt ci my_pid = Some (Running rt).
Proof.
  intros Hz. revert i. induction n as [|n IH]; intros i; [done|]. cbn [suspend_poll]. rewrite Hz.
  destruct (ctxs rt !! ci) as [c|]; [|done]. destruct (negb _); [done|apply IH].
Qed.

(** [sigsuspend] in an otherwise idle system: it returns -1, restores the
    mask, and runs the handler of a pending signal [s] exactly when the guest's
    set does not hold [s + 1]: the set is installed one position off, because
    sigprocmask shifts the guest's word and sigsuspend does not. *)
Theorem sigsuspend_mask_off_by_one h2g pthread_kill table_fn run_handler rt ci c me mask_off :
  quiet run_handler -> ctxs rt !! ci = Some c -> my_proc rt ci = Some me ->
  yos_sigset_bound (g_exec c) mask_off = true ->
  let w := Z.lor (sig_pending c) (host_pending rt) in
  Z.testbit w 9 = false -> Forall (fun s => fatal c s = false) (bits_of w) -> find_zombie_child rt (pid me) (-1) = None ->
  exists rt', yos_sigsuspend h2g pthread_kill table_fn run_handler (fun _ r => r) rt ci mask_off = Some (-1, Running rt') /\
  (exists c', ctxs rt' !! ci = Some c' /\ sig_mask c' = sig_mask c) /\
  forall s, 0 <= s < 32 -> s <> 9 -> s <> 17 -> Z.testbit w s = true -> calls_handler table_fn ci c s = true ->
    (Ev_handler ci s (handler_of c s) ∈ drop (length (log rt)) (log rt') <->
     in_set (mem (g_exec c)) mask_off (s + 1) = false).
Proof.
  intros Hq Hc Hme Hb w H9 Hf Hz. unfold yos_sigsuspend. rewrite Hc, Hme.
  destruct (bound_in _ _ 1 Hb ltac:(lia)) as (H0 & _). destruct (Z.eqb_spec mask_off 0); [lia|].
  set (rt1 := upd_ctx ci (set_sig_mask _) rt).
  set (c1 := set_sig_mask (Z.ldiff (read_fbsd_sigset_lo (g_exec c) mask_off) unblockable) c).
  assert (Hc1 : ctxs rt1 !! ci = Some c1) by (unfold rt1; by rewrite lookup_upd_ctx, Hc).
  destruct (pump_spec pthread_kill table_fn run_handler rt1 ci c1 Hq Hc1 H9)
    as (rt2 & w2 & -> & Hc2 & _ & Hlog & Hpr & _).
  { apply Forall_forall. intros k Hk. rewrite Forall_forall in Hf. apply (Hf k).
    apply elem_of_bits in Hk as [Hk0 Hk]. rewrite Z.ldiff_spec, andb_true_iff in Hk. apply elem_of_bits. by destruct Hk. }
  assert (Hz2 : find_zombie_child rt2 (pid me) (-1) = None) by (unfold find_zombie_child; by rewrite Hpr).
  rewrite suspend_poll_idle by done. eexists. split; [done|]. split.
  { eexists. unfold upd_exec. rewrite !lookup_upd_ctx, Hc2. by split. }
  intros s Hs Hs9 Hs17 Hw Hcall.
  change (log (upd_exec ci ?f (upd_ctx ci ?g rt2))) with (log rt2).
  rewrite Hlog. change (log rt1) with (log rt). rewrite drop_app_length.
  unfold handler_events. change (handler_of c1) with (handler_of c). change (calls_handler table_fn ci c1) with (calls_handler table_fn ci c).
  change (Z.lor (sig_pending c1) (host_pending rt1)) with w.
  assert (Hbit : Z.testbit (sig_mask c1) s = in_set (mem (g_exec c)) mask_off (s + 1)).
  { cbn [sig_mask c1 set_sig_mask]. rewrite Z.ldiff_spec, unblockable_bit, read_lo, in_set_lo by (done || lia).
    replace (s + 1 - 1) with s by lia. destruct (Z.eqb_spec s 9); [done|]. destruct (Z.eqb_spec s 17); [done|].
    by rewrite andb_true_r. }
  split.
  - intros (k & He & Hk)%list_elem_of_fmap. simplify_eq. apply list_elem_of_In, filter_In in Hk as [Hk _].
    apply list_elem_of_In, elem_of_bits in Hk as [_ Hk]. rewrite Z.ldiff_spec, Hbit in Hk.
    by destruct (in_set _ _ _); [rewrite andb_false_r in Hk|].
  - intros Hin. apply list_elem_of_fmap. exists s. split; [done|]. apply list_elem_of_In, filter_In. split; [|done].
    apply list_elem_of_In, elem_of_bits. split; [done|]. by rewrite Z.ldiff_spec, Hbit, Hin, Hw.
Qed.

(** * Witnesses *)

Lemma demo_quiet : quiet demo_run.
Proof. intros ci idx s rt. by exists rt. Qed.

(** Handlers that write to their memory and raise a signal for the child. *)
Definition busy_run (ci : nat) (idx s : Z) (rt : yos_runtime) : flow :=
  Running (emit Ev_any_exit (upd_ctx 2 (set_sig_pending 2) (upd_exec 1 (fun e => set_mem (st32 (mem e) 900 s) e) rt))).

Lemma busy_keeps : keeps_signals busy_run 1.
Proof.
  intros idx s rt c Hc. unfold busy_run. eexists _, _. split; [done|]. cbn [emit]. unfold upd_exec. simpl ctxs.
  rewrite list_lookup_alter_ne, list_lookup_alter_eq, Hc by done. split; [done|]. split; [done|].
  simpl log. rewrite deliveries_app. simpl. by rewrite app_nil_r.
Qed.

(** SIGTERM (15) at its default disposition. *)
Definition demo_term_ctx : yos_ctx := set_sig_handlers (<[15%nat := 0]> demo_handlers) demo_shell_ctx.
Definition demo_term : yos_runtime := upd_ctx 1 (set_sig_handlers (<[15%nat := 0]> demo_handlers)) demo.

Lemma pump_delivers_in_order_witness :
  (exists rt', yos_signal_pump demo_pk demo_table busy_run demo 1 = Some (Running rt') /\
    deliveries 1 (log rt') = [(14, 40); (15, 50)]) /\
  (exists rt', yos_signal_pump demo_pk demo_table busy_run demo_term 1 = Some (ended_by demo_pk 1 1 2 15 rt') /\
    deliveries 1 (log rt') = [(14, 40)]).
Proof.
  split.
  - destruct (pump_delivers_in_order demo_pk demo_table busy_run demo 1 demo_shell_ctx 1 demo_shell busy_keeps eq_refl eq_refl
      eq_refl) as ((f & H1 & _ & _ & H2) & _).
    destruct (H2 eq_refl ltac:(by apply (bool_decide_eq_true_1 _); vm_compute)) as (rt' & c' & w' & -> & _ & _ & H3 & _).
    exact (ex_intro _ rt' (conj H1 H3)).
  - destruct (pump_delivers_in_order demo_pk demo_table busy_run demo_term 1 demo_term_ctx 1 demo_shell busy_keeps eq_refl
      eq_refl eq_refl) as ((f & H1 & _ & H2 & _) & _).
    destruct (H2 [14] 15 [] eq_refl ltac:(by vm_compute) ltac:(by apply (bool_decide_eq_true_1 _); vm_compute) eq_refl)
      as (rt' & -> & H3).
    exact (ex_intro _ rt' (conj H1 H3)).
Defined.

Lemma sigkill_unstoppable_witness :
  exists f, yos_signal_pump demo_pk demo_table demo_run demo_killed 2 = Some f /\
    log (flow_rt f) = [Ev_broadcast 3].
Proof.
  destruct (sigkill_unstoppable demo_pk demo_table demo_run demo_killed 2 (demo_ctx 3 (replicate 32 0) 0 (bit 9)) 3
    demo_child eq_refl eq_refl eq_refl eq_refl) as (f & H1 & _ & _ & H2).
  exact (ex_intro _ f (conj H1 H2)).
Defined.

(** Block the set at 512 and write the old one to 768; then a null set with a
    bad [how], and a null old set. *)
Lemma sigprocmask_semantics_witness :
  (exists rt2 c2, yos_sigprocmask id demo_pk demo_table demo_run demo 1 1 512 768 =
    with_pump demo_pk demo_table demo_run 0 rt2 1 /\ ctxs rt2 !! 1%nat = Some c2 /\ blocked c2 15 = true /\
    in_set (mem (g_exec c2)) 768 10 = true) /\
  (exists rt2 c2, yos_sigprocmask id demo_pk demo_table demo_run demo 1 77 0 0 =
    with_pump demo_pk demo_table demo_run 0 rt2 1 /\ ctxs rt2 !! 1%nat = Some c2 /\ blocked c2 15 = false /\
    g_exec c2 = demo_exec).
Proof.
  split.
  - destruct (proj1 (sigprocmask_semantics id demo_pk demo_table demo_run demo 1 demo_shell_ctx 1 512 768 eq_refl
      ltac:(by vm_compute)) ltac:(lia)) as (rt2 & c2 & H1 & H2 & _ & _ & _ & H3 & H4 & _).
    exact (ex_intro _ rt2 (ex_intro _ c2 (conj H1 (conj H2 (conj (H3 15 ltac:(lia)) (H4 eq_refl 10 ltac:(lia))))))).
  - destruct (proj1 (sigprocmask_semantics id demo_pk demo_table demo_run demo 1 demo_shell_ctx 77 0 0 eq_refl
      ltac:(by vm_compute)) ltac:(lia)) as (rt2 & c2 & H1 & H2 & _ & _ & _ & H3 & _ & H4 & _).
    exact (ex_intro _ rt2 (ex_intro _ c2 (conj H1 (conj H2 (conj (H3 15 ltac:(lia)) (H4 eq_refl)))))).
Defined.

Lemma signal_returns_installed_witness :
  (yos_signal (yos_signal demo 1 14 1).2 1 14 0).1 = 1.
Proof.
  pose proof (signal_returns_installed demo 1 demo_shell_ctx 14 1 0 15 eq_refl eq_refl ltac:(lia) ltac:(lia)) as H.
  exact (proj1 (proj2 (proj1 H ltac:(lia)))).
Defined.

(** Bit 14 of the guest's set is signal 15: sigsuspend defers signal 14
    instead, and runs the handler of the signal 15 it was asked to block. *)
Lemma sigsuspend_mask_off_by_one_witness :
  in_set (mem (g_exec demo_shell_ctx)) 512 15 = true /\
  exists rt', yos_sigsuspend id demo_pk demo_table demo_run (fun _ r => r) demo_reaped 1 512 = Some (-1, Running rt') /\
    Ev_handler 1 15 50 ∈ drop 0 (log rt').
Proof.
  split; [by vm_compute|].
  destruct (sigsuspend_mask_off_by_one id demo_pk demo_table demo_run demo_reaped 1 demo_shell_ctx demo_shell 512 demo_quiet
    eq_refl eq_refl eq_refl ltac:(by vm_compute) ltac:(by apply (bool_decide_eq_true_1 _); vm_compute) eq_refl) as (rt' & H1 & _ & H2).
  exact (ex_intro _ rt' (conj H1 (proj2 (H2 15 ltac:(lia) ltac:(lia) ltac:(lia) ltac:(by vm_compute) ltac:(by vm_compute))
    ltac:(by vm_compute)))).
Defined.
