(* ===== verification/ProcProps.v ===== *)
(** The process table: pids stay unique and are never reused, exit and wait hand
    the status over exactly once, orphans are inherited and hung up, and what a
    blocked waitpid and a group kill do not do. *)
From S2P Require Import Prelude Memory Ctx Runtime ProcTable Sigset Sig Fixtures.

(** * Lifecycle *)

(** The transitions of one slot that keep its process. *)
Definition state_le (s s' : yos_proc_state_t) : Prop :=
  match s, s' with
  | YOS_PROC_FREE, YOS_PROC_FREE => True
  | YOS_PROC_FREE, _ => False
  | YOS_PROC_ZOMBIE, YOS_PROC_ZOMBIE | YOS_PROC_ZOMBIE, YOS_PROC_FREE => True
  | YOS_PROC_ZOMBIE, _ => False
  | _, _ => True
  end.

(** Slots keep their pid and only move forward in the lifecycle. *)
Record tame (rt rt' : yos_runtime) : Prop := {
  tm_len : length (procs rt') = length (procs rt);
  tm_next : next_pid rt' = next_pid rt;
  tm_slot : forall i p p', procs rt !! i = Some p -> procs rt' !! i = Some p' ->
            pid p' = pid p /\ state_le (state p) (state p')
}.

Lemma state_le_refl s : state_le s s.
Proof. by destruct s. Qed.

Lemma state_le_trans s1 s2 s3 : state_le s1 s2 -> state_le s2 s3 -> state_le s1 s3.
Proof. by destruct s1, s2, s3. Qed.

#[export] Instance tame_refl : Reflexive tame.
Proof. intros rt. split; [done..|]. intros i p p' H1 H2. simplify_eq. split; [done|apply state_le_refl]. Qed.

#[export] Instance tame_trans : Transitive tame.
Proof.
  intros r1 r2 r3 [L1 N1 S1] [L2 N2 S2]. split; [congruence..|]. intros i p p' H1 H3.
  assert (is_Some (procs r2 !! i)) as [q Hq].
  { apply lookup_lt_is_Some. rewrite L1. by eapply lookup_lt_Some. }
  destruct (S1 i p q H1 Hq), (S2 i q p' Hq H3). split; [congruence|by eapply state_le_trans].
Qed.

Lemma tame_procs rt rt' : procs rt' = procs rt -> next_pid rt' = next_pid rt -> tame rt rt'.
Proof.
  intros H1 H2. split; [by rewrite H1|done|]. rewrite H1. intros i p p' Hp Hp'. simplify_eq.
  split; [done|apply state_le_refl].
Qed.

Lemma tame_upd_proc rt i f :
  (forall p, procs rt !! i = Some p -> pid (f p) = pid p /\ state_le (state p) (state (f p))) ->
  tame rt (upd_proc i f rt).
Proof.
  intros Hf. split; [apply length_alter|done|]. intros j p p' Hp Hp'.
  destruct (decide (i = j)) as [<-|Hne].
  - rewrite lookup_upd_proc, Hp in Hp'. simplify_eq/=. by apply Hf.
  - rewrite lookup_upd_proc_ne in Hp' by done. simplify_eq. split; [done|apply state_le_refl].
Qed.

Lemma tame_emit e rt : tame rt (emit e rt).
Proof. by apply tame_procs. Qed.

Lemma tame_upd_ctx i f rt : tame rt (upd_ctx i f rt).
Proof. by apply tame_procs. Qed.

Create HintDb tame.
#[export] Hint Resolve tame_refl tame_emit tame_upd_ctx state_le_refl : tame.

Lemma tame_foldl {A} (f : yos_runtime -> A -> yos_runtime) l rt :
  (forall r x, tame r (f r x)) -> tame rt (foldl f rt l).
Proof.
  intros Hf. revert rt. induction l as [|x l IH]; intros rt; simpl; [reflexivity|].
  etrans; [apply Hf|apply IH].
Qed.

Lemma tame_post_pending c sig rt : tame rt (post_pending c sig rt).
Proof. apply tame_upd_ctx. Qed.

Lemma tame_deliver pk rt i sig : tame rt (deliver_to_proc pk rt i sig).2.
Proof.
  unfold deliver_to_proc. destruct (procs rt !! i) as [p|]; [|reflexivity].
  destruct (is_free p || is_zombie p); [reflexivity|]. destruct (sig =? 0); [reflexivity|].
  destruct (negb (thread p)); [reflexivity|]. destruct (job_control sig); [reflexivity|].
  destruct (sig =? 9); cbn [snd].
  - destruct (ctx_handle p); [|apply tame_emit]. etrans; [apply tame_post_pending|apply tame_emit].
  - destruct (ctx_handle p); [|apply tame_emit]. destruct (_ && _); [|apply tame_emit].
    etrans; [apply tame_post_pending|apply tame_emit].
Qed.

Lemma tame_kill_by_pid pk rt q sig : tame rt (yos_proc_kill_by_pid pk rt q sig).2.
Proof.
  unfold yos_proc_kill_by_pid. destruct (yos_proc_find rt q); [apply tame_deliver|reflexivity].
Qed.

Lemma tame_close_fds ci rt : tame rt (close_fds ci rt).
Proof.
  unfold close_fds. destruct (ctxs rt !! ci); [|reflexivity]. etrans; [|apply tame_upd_ctx].
  apply tame_foldl. intros r x. destruct (3 <=? x); [apply tame_emit|reflexivity].
Qed.

Lemma tame_close_files ci rt : tame rt (close_files ci rt).
Proof.
  unfold close_files. destruct (ctxs rt !! ci); [|reflexivity]. etrans; [|apply tame_upd_ctx].
  apply tame_foldl. intros r x. destruct (x =? 0); [reflexivity|apply tame_emit].
Qed.

Lemma reparent_pid e p : pid (reparent e p) = pid p.
Proof. unfold reparent. by destruct (is_orphan e p). Qed.

Lemma reparent_state e p : state (reparent e p) = state p.
Proof. unfold reparent. by destruct (is_orphan e p). Qed.

Lemma tame_reparent e rt : tame rt (set_procs (map (reparent e) (procs rt)) rt).
Proof.
  split; simpl; [by rewrite length_map|done|]. intros i p p' Hp Hp'. rewrite list_lookup_fmap, Hp in Hp'.
  simplify_eq/=. rewrite reparent_pid, reparent_state. split; [done|apply state_le_refl].
Qed.

Lemma tame_auto_reap slot b rt : tame rt (upd_proc slot (auto_reap b) rt).
Proof.
  apply tame_upd_proc. intros p _. unfold auto_reap, is_zombie.
  destruct b; cbn [andb]; [|split; [done|apply state_le_refl]].
  case_bool_decide as Hz; [|split; [done|apply state_le_refl]]. simpl. by rewrite Hz.
Qed.

Lemma tame_cleanup pk rt ci : tame rt (yos_proc_post_exit_cleanup pk rt ci).
Proof.
  unfold yos_proc_post_exit_cleanup. destruct (ctxs rt !! ci) as [c|]; [|reflexivity].
  destruct (g_proc c) as [slot|]; [|reflexivity]. destruct (procs rt !! slot) as [me|]; [|reflexivity].
  set (rt1 := close_files ci (close_fds ci rt)).
  assert (H1 : tame rt rt1) by (etrans; [apply tame_close_fds|apply tame_close_files]).
  set (rt3 := upd_proc slot _ _).
  assert (H3 : tame rt rt3).
  { etrans; [exact H1|]. etrans; [apply tame_reparent|]. apply tame_auto_reap. }
  set (rt4 := foldl _ rt3 _).
  assert (H4 : tame rt rt4).
  { etrans; [exact H3|]. apply tame_foldl. intros. apply tame_kill_by_pid. }
  destruct (is_forkpty_child c); [|done]. etrans; [exact H4|]. apply tame_kill_by_pid.
Qed.

Lemma tame_vfork_release slot rt : tame rt (vfork_release slot rt).
Proof.
  unfold vfork_release. destruct (procs rt !! slot) as [me|]; [|reflexivity].
  destruct (0 <? _); [|reflexivity]. etrans; [|apply tame_upd_proc; intros; split; [done|apply state_le_refl]].
  destruct (yos_proc_find _ _); [|reflexivity]. etrans; [|apply tame_emit].
  apply tame_upd_proc. intros; split; [done|apply state_le_refl].
Qed.

Lemma tame_clear_tid slot ci rt : tame rt (clear_tid slot ci rt).
Proof.
  unfold clear_tid. destruct (procs rt !! slot); [|reflexivity]. destruct (ctxs rt !! ci); [|reflexivity].
  destruct (_ && _); [apply tame_upd_ctx|reflexivity].
Qed.

Lemma tame_mark_exited slot code rt : tame rt (upd_proc slot (mark_exited code) rt).
Proof.
  apply tame_upd_proc. intros p _. unfold mark_exited. destruct (state p) eqn:E; simpl; rewrite ?E; by split.
Qed.

Lemma tame_exit pk rt ci code : tame rt (flow_rt (yos_exit pk rt ci code)).
Proof.
  unfold yos_exit. destruct (ctxs rt !! ci) as [c|]; [|reflexivity].
  set (rt1 := match g_proc c with None => rt | Some _ => _ end).
  assert (H : tame rt rt1).
  { unfold rt1. destruct (g_proc c) as [slot|]; [|reflexivity]. etrans; [|apply tame_emit].
    etrans; [|apply tame_cleanup]. etrans; [|apply tame_emit]. etrans; [|apply tame_mark_exited].
    etrans; [apply tame_vfork_release|apply tame_clear_tid]. }
  destruct (is_child c); [|done]. simpl. destruct (g_proc c) as [slot|]; [|done].
  destruct (procs rt1 !! slot); [|done]. etrans; [exact H|apply tame_emit].
Qed.

Lemma tame_reap rt ci slot a p :
  procs rt !! slot = Some p -> is_zombie p = true -> tame rt (reap rt ci slot a).2.
Proof.
  intros Hp Hz. unfold is_zombie in Hz. apply bool_decide_eq_true in Hz.
  unfold reap. rewrite Hp. destruct (ctxs rt !! ci); [|reflexivity]. cbn [snd].
  assert (H : tame rt (upd_proc slot (set_state YOS_PROC_FREE) rt)).
  { apply tame_upd_proc. intros q Hq. simplify_eq. split; [done|]. by rewrite Hz. }
  destruct (_ && _); [|done]. etrans; [exact H|apply tame_upd_ctx].
Qed.

Lemma tame_terminate rt slot sig :
  (forall p, procs rt !! slot = Some p -> is_free p = false) ->
  tame rt (upd_proc slot (sig_terminate sig) rt).
Proof.
  intros Hf. apply tame_upd_proc. intros p Hp. split; [done|]. specialize (Hf p Hp).
  unfold is_free in Hf. apply bool_decide_eq_false in Hf. by destruct (state p).
Qed.

(** * The invariant *)

Definition live (rt : yos_runtime) (P : Z) : Prop :=
  exists i p, procs rt !! i = Some p /\ is_free p = false /\ pid p = P.

Record table_ok (rt : yos_runtime) : Prop := {
  to_unique : forall i j p q, procs rt !! i = Some p -> procs rt !! j = Some q ->
              is_free p = false -> is_free q = false -> pid p = pid q -> i = j;
  to_range : forall i p, procs rt !! i = Some p -> is_free p = false -> 0 < pid p < next_pid rt;
  to_next : 0 < next_pid rt
}.

Lemma is_free_spec p : is_free p = false <-> state p <> YOS_PROC_FREE.
Proof. unfold is_free. apply bool_decide_eq_false. Qed.

Lemma tame_live_slot rt rt' i p' :
  tame rt rt' -> procs rt' !! i = Some p' -> is_free p' = false ->
  exists p, procs rt !! i = Some p /\ pid p' = pid p /\ is_free p = false.
Proof.
  intros [L N S] Hp' Hf. assert (is_Some (procs rt !! i)) as [p Hp].
  { apply lookup_lt_is_Some. rewrite <-L. by eapply lookup_lt_Some. }
  destruct (S i p p' Hp Hp') as [Hpid Hs]. exists p. split_and!; [done|done|].
  apply is_free_spec. apply is_free_spec in Hf. intros He. rewrite He in Hs. by destruct (state p').
Qed.

Lemma tame_ok rt rt' : tame rt rt' -> table_ok rt -> table_ok rt'.
Proof.
  intros Ht [U R N]. pose proof (tm_next _ _ Ht) as Hn. split.
  - intros i j p' q' Hp Hq Fp Fq He.
    destruct (tame_live_slot _ _ _ _ Ht Hp Fp) as (p & ? & ? & ?).
    destruct (tame_live_slot _ _ _ _ Ht Hq Fq) as (q & ? & ? & ?).
    eapply U; [done|done|done|done|congruence].
  - intros i p' Hp Fp. destruct (tame_live_slot _ _ _ _ Ht Hp Fp) as (p & H1 & -> & H3).
    rewrite Hn. by eapply R.
  - by rewrite Hn.
Qed.

Lemma tame_dead rt rt' P : tame rt rt' -> live rt' P -> live rt P.
Proof.
  intros Ht (i & p' & Hp & Fp & <-). destruct (tame_live_slot _ _ _ _ Ht Hp Fp) as (p & H1 & H2 & H3).
  by exists i, p.
Qed.

Lemma find_slot_Some f l i k :
  find_slot f l k = Some i -> exists p, l !! (i - k)%nat = Some p /\ f p = true /\ (k <= i)%nat.
Proof.
  revert k. induction l as [|p l IH]; intros k; simpl; [done|]. destruct (f p) eqn:E.
  - intros [= ->]. exists p. by rewrite Nat.sub_diag.
  - intros H. destruct (IH _ H) as (q & Hq & Hf & Hle). exists q. split_and!; [|done|lia].
    replace (i - k)%nat with (S (i - S k)) by lia. done.
Qed.

Lemma find_slot_0 f l i : find_slot f l 0 = Some i -> exists p, l !! i = Some p /\ f p = true.
Proof. intros H. destruct (find_slot_Some _ _ _ _ H) as (p & Hp & Hf & _). rewrite Nat.sub_0_r in Hp. by exists p. Qed.

Lemma find_slot_None f l k : find_slot f l k = None <-> Forall (fun p => f p = false) l.
Proof.
  revert k. induction l as [|p l IH]; intros k; simpl; [done|]. rewrite Forall_cons.
  destruct (f p); [split; [done|by intros []]|]. rewrite IH. split; [by split|by intros []].
Qed.

Lemma proc_alloc_spec rt pp i rt' :
  yos_proc_alloc rt pp = (Some i, rt') -> next_pid rt < 2147483647 -> 0 < next_pid rt ->
  procs rt' !! i = Some (new_proc (next_pid rt) pp) /\ next_pid rt' = next_pid rt + 1 /\
  (forall j, j <> i -> procs rt' !! j = procs rt !! j) /\
  (exists p, procs rt !! i = Some p /\ is_free p = true).
Proof.
  unfold yos_proc_alloc. destruct (find_slot is_free (procs rt) 0) as [k|] eqn:E; [|done].
  intros [= <- <-] Hn Hp. apply find_slot_0 in E as (p & Hk & Hf).
  split_and!.
  - change (procs (set_next_pid ?v ?r)) with (procs r). by rewrite lookup_upd_proc, Hk.
  - simpl. apply s32_small. lia.
  - intros j Hj. change (procs (set_next_pid ?v ?r)) with (procs r). by apply lookup_upd_proc_ne.
  - by exists p.
Qed.

Lemma alloc_ok rt pp i rt' :
  yos_proc_alloc rt pp = (Some i, rt') -> next_pid rt < 2147483647 -> table_ok rt ->
  table_ok rt' /\ (forall P, live rt' P -> live rt P \/ P = next_pid rt).
Proof.
  intros Ha Hn [U R N]. destruct (proc_alloc_spec _ _ _ _ Ha Hn N) as (H1 & H2 & H3 & _).
  assert (Hnew : forall j q, procs rt' !! j = Some q -> is_free q = false ->
    (j = i /\ pid q = next_pid rt) \/ (j <> i /\ procs rt !! j = Some q)).
  { intros j q Hq Fq. destruct (decide (j = i)) as [->|Hne]; [left|right].
    - rewrite H1 in Hq. by simplify_eq/=.
    - rewrite H3 in Hq by done. done. }
  split; [split|].
  - intros j k p q Hp Hq Fp Fq He.
    destruct (Hnew j p Hp Fp) as [[-> Hpp]|[? Hp']], (Hnew k q Hq Fq) as [[-> Hqq]|[? Hq']]; try done.
    + pose proof (R _ _ Hq' Fq). lia.
    + pose proof (R _ _ Hp' Fp). lia.
    + by eapply U.
  - intros j p Hp Fp. rewrite H2. destruct (Hnew j p Hp Fp) as [[-> ->]|[? Hp']]; [lia|].
    pose proof (R _ _ Hp' Fp). lia.
  - lia.
  - intros P (j & p & Hp & Fp & <-). destruct (Hnew j p Hp Fp) as [[_ ->]|[? Hp']]; [by right|left]. by exists j, p.
Qed.

(** * Traces *)

Lemma tame_waitpid h2g rt ci want a opt r rt' :
  yos_waitpid h2g [] rt ci want a opt = Some (r, rt') -> tame rt rt'.
Proof.
  unfold yos_waitpid, find_zombie_child. destruct (my_proc rt ci) as [me|]; [|done].
  destruct (negb _); [intros [= <- <-]; apply tame_upd_ctx|].
  set (fz := fun p => is_zombie p && _ && _).
  assert (Hreap : forall slot, find_slot fz (procs rt) 0 = Some slot -> tame rt (reap rt ci slot a).2).
  { intros slot Hs. apply find_slot_0 in Hs as (p & Hp & Hz). unfold fz in Hz.
    rewrite !andb_true_iff in Hz. eapply tame_reap; [exact Hp|tauto]. }
  cbn [wait_loop]. unfold find_zombie_child. fold fz. destruct (find_slot fz (procs rt) 0) as [slot|] eqn:E.
  - intros [= He]. specialize (Hreap _ eq_refl). by rewrite He in Hreap.
  - destruct (Z.land opt WNOHANG =? 0); [done|]. by intros [= <- <-].
Qed.

Lemma tame_setpgid rt ci q g : tame rt (yos_setpgid rt ci q g).2.
Proof.
  unfold yos_setpgid. destruct (slot_of rt ci) as [me|]; [|reflexivity].
  destruct (if q =? 0 then Some me else yos_proc_find rt q) as [i|]; [|reflexivity].
  destruct (procs rt !! i) as [t|]; [|reflexivity]. destruct (_ <=? 0); [reflexivity|].
  apply tame_upd_proc. intros; split; [done|apply state_le_refl].
Qed.

Lemma tame_setsid rt ci : tame rt (yos_setsid rt ci).2.
Proof.
  unfold yos_setsid. destruct (slot_of rt ci) as [i|]; [|reflexivity].
  destruct (procs rt !! i) as [p|]; [|reflexivity]. destruct (_ && _); [reflexivity|].
  apply tame_upd_proc. intros; split; [done|apply state_le_refl].
Qed.

Section Steps.
Variable pthread_kill : yos_proc -> Z -> Z.
Variable h2g : Z -> Z.

(** What happens to the table: a new process, its start, and the calls. *)
Inductive proc_step (rt : yos_runtime) : yos_runtime -> Prop :=
| ps_alloc pp i rt' :
    next_pid rt < 2147483647 -> yos_proc_alloc rt pp = (Some i, rt') -> proc_step rt rt'
| ps_start i c p :
    procs rt !! i = Some p -> state p = YOS_PROC_READY ->
    proc_step rt (upd_proc i (fun q => set_ctx_handle (Some c) (set_thread true (set_state YOS_PROC_RUNNING q))) rt)
| ps_exit ci code : proc_step rt (flow_rt (yos_exit pthread_kill rt ci code))
| ps_kill q sig : proc_step rt (yos_proc_kill_by_pid pthread_kill rt q sig).2
| ps_wait ci want a opt r rt' : yos_waitpid h2g [] rt ci want a opt = Some (r, rt') -> proc_step rt rt'
| ps_setpgid ci q g : proc_step rt (yos_setpgid rt ci q g).2
| ps_setsid ci : proc_step rt (yos_setsid rt ci).2
| ps_ctx ci f : proc_step rt (upd_ctx ci f rt).

Lemma proc_step_cases rt rt' :
  proc_step rt rt' ->
  tame rt rt' \/ exists pp i, next_pid rt < 2147483647 /\ yos_proc_alloc rt pp = (Some i, rt').
Proof.
  intros H. destruct H as [pp i rt' Hn Ha|i c p Hp Hs|ci code|q sig|ci want a opt r rt' Hw|ci q g|ci|ci f].
  - right. eauto.
  - left. apply tame_upd_proc. intros q Hq. simplify_eq. split; [done|]. simpl. by rewrite Hs.
  - left. apply tame_exit.
  - left. apply tame_kill_by_pid.
  - left. by eapply tame_waitpid.
  - left. apply tame_setpgid.
  - left. apply tame_setsid.
  - left. apply tame_upd_ctx.
Qed.

Lemma proc_step_inv rt rt' P :
  proc_step rt rt' -> table_ok rt ->
  table_ok rt' /\ next_pid rt <= next_pid rt' /\ (P < next_pid rt -> live rt' P -> live rt P).
Proof.
  intros [Ht|(pp & i & Hn & Ha)]%proc_step_cases Hok.
  - split_and!; [by eapply tame_ok|rewrite (tm_next _ _ Ht); lia|]. intros _. by apply tame_dead.
  - destruct (alloc_ok _ _ _ _ Ha Hn Hok) as [Hok' Hl].
    destruct (proc_alloc_spec _ _ _ _ Ha Hn (to_next _ Hok)) as (_ & H2 & _). split_and!; [done|lia|].
    intros HP HL. destruct (Hl P HL); [done|lia].
Qed.
End Steps.

(** C15: Along any trace of allocation, start, exit, kill, wait and the identity
    calls, two live processes never share a pid, every live pid is below the
    counter, and a pid that has died never comes back. *)
Theorem pids_unique_never_reused pthread_kill h2g rt0 rt P :
  table_ok rt0 -> rtc (proc_step pthread_kill h2g) rt0 rt ->
  (forall i j p q, procs rt !! i = Some p -> procs rt !! j = Some q -> state p <> YOS_PROC_FREE ->
     state q <> YOS_PROC_FREE -> pid p = pid q -> i = j) /\
  (forall i p, procs rt !! i = Some p -> state p <> YOS_PROC_FREE -> 0 < pid p < next_pid rt) /\
  (P < next_pid rt0 -> ~ live rt0 P -> ~ live rt P).
Proof.
  intros Hok Hr.
  assert (H : table_ok rt /\ next_pid rt0 <= next_pid rt /\ (P < next_pid rt0 -> live rt P -> live rt0 P)).
  { clear -Hok Hr. induction Hr as [|x y z Hxy _ IH]; [split_and!; [done|lia|done]|].
    destruct (proc_step_inv _ _ _ _ P Hxy Hok) as (Hoky & Hn & Hl).
    destruct (IH Hoky) as (Hz & Hn' & Hl'). split_and!; [done|lia|]. intros HP HL.
    apply Hl; [done|]. apply Hl'; [lia|done]. }
  destruct H as ([U R N] & _ & Hl). split_and!.
  - intros i j p q Hp Hq Fp Fq. apply U; [done|done|by apply is_free_spec|by apply is_free_spec].
  - intros i p Hp Fp. apply (R i); [done|by apply is_free_spec].
  - intros HP Hnl HL. by apply Hnl, Hl.
Qed.

(** * Waiting *)

Lemma pid_matches_self p : pid_matches (pid p) p = true.
Proof. unfold pid_matches. rewrite Z.eqb_refl. apply orb_true_r. Qed.

Lemma has_children_false rt pp want :
  has_children rt pp want = false <->
  forall i p, procs rt !! i = Some p -> is_free p = false -> ppid p = pp -> pid_matches want p = false.
Proof.
  unfold has_children. rewrite <-not_true_iff_false, existsb_exists. split.
  - intros H i p Hp Hf He. destruct (pid_matches want p) eqn:E; [|done]. exfalso. apply H. exists p.
    split; [by eapply list_elem_of_In, list_elem_of_lookup_2|]. by rewrite Hf, E, He, Z.eqb_refl.
  - intros H (p & Hp & Hb). apply list_elem_of_In, list_elem_of_lookup in Hp as (i & Hp).
    rewrite !andb_true_iff, negb_true_iff, Z.eqb_eq in Hb. destruct Hb as [[Hf He] Hm].
    by rewrite (H i p Hp Hf He) in Hm.
Qed.

(** The table holds at most one live process of a pid, so the search for it as
    a zombie child cannot miss it. *)
Lemma zombie_child_found rt slot p :
  table_ok rt -> procs rt !! slot = Some p -> state p = YOS_PROC_ZOMBIE ->
  find_zombie_child rt (ppid p) (pid p) = Some slot /\ has_children rt (ppid p) (pid p) = true.
Proof.
  intros Hok Hp Hz. assert (Hfp : is_free p = false) by (apply is_free_spec; by rewrite Hz).
  assert (Hzp : is_zombie p = true) by (by apply bool_decide_eq_true). pose proof (to_range _ Hok _ _ Hp Hfp) as Hrange. split.
  - unfold find_zombie_child. destruct (find_slot _ (procs rt) 0) as [k|] eqn:E.
    + apply find_slot_0 in E as (q & Hq & Hb). rewrite !andb_true_iff in Hb. destruct Hb as [[Hzq _] Hm].
      unfold pid_matches in Hm. destruct (Z.eqb_spec (pid p) (-1)); [lia|]. cbn [orb] in Hm. f_equal.
      eapply (to_unique _ Hok); [done|done| |done|lia]. apply is_free_spec.
      unfold is_zombie in Hzq. apply bool_decide_eq_true in Hzq. by rewrite Hzq.
    + exfalso. apply find_slot_None in E. rewrite Forall_forall in E.
      specialize (E p (list_elem_of_lookup_2 _ _ _ Hp)). cbn beta in E. by rewrite Hzp, Z.eqb_refl, pid_matches_self in E.
  - destruct (has_children rt (ppid p) (pid p)) eqn:E; [done|].
    rewrite has_children_false in E. specialize (E slot p Hp Hfp eq_refl). by rewrite pid_matches_self in E.
Qed.

(** The status word, decoded as WEXITSTATUS and WTERMSIG do. *)
Lemma wait_status_range p : 0 <= wait_status p < 4294967296.
Proof.
  unfold wait_status. destruct (term_sig p =? 0).
  - change 255 with (Z.ones 8). rewrite Z.land_ones, Z.shiftl_mul_pow2 by lia. change (2 ^ 8) with 256. mlia.
  - change 127 with (Z.ones 7). rewrite Z.land_ones by lia. change (2 ^ 7) with 128. mlia.
Qed.

Lemma wait_status_exit p :
  term_sig p = 0 -> Z.land (Z.shiftr (wait_status p) 8) 255 = Z.land (exit_code p) 255 /\ Z.land (wait_status p) 127 = 0.
Proof.
  intros Ht. unfold wait_status. rewrite Ht. cbn [Z.eqb]. split.
  - rewrite Z.shiftr_shiftl_l, Z.shiftl_0_r by lia. by rewrite <-Z.land_assoc.
  - change 127 with (Z.ones 7). rewrite Z.land_ones, Z.shiftl_mul_pow2 by lia. change (2 ^ 8) with (2 * 2 ^ 7).
    rewrite Z.mul_assoc. apply Z_mod_mult.
Qed.

Lemma wait_status_signal p : 0 < term_sig p < 128 -> Z.land (wait_status p) 127 = term_sig p.
Proof.
  intros Ht. unfold wait_status. destruct (Z.eqb_spec (term_sig p) 0); [lia|].
  rewrite <-Z.land_assoc. change (Z.land 127 127) with (Z.ones 7). rewrite Z.land_ones by lia.
  apply Z.mod_small. change (2 ^ 7) with 128. lia.
Qed.

(** The tables after a child was reaped. *)
Lemma reap_spec rt ci c slot p a :
  procs rt !! slot = Some p -> ctxs rt !! ci = Some c -> 0 < a < u32 (memory_size (g_exec c) - 4) ->
  exists rt' c', reap rt ci slot a = (pid p, rt') /\ ctxs rt' !! ci = Some c' /\ g_proc c' = g_proc c /\
    ld32 (mem (g_exec c')) a = wait_status p /\
    forall j, procs rt' !! j = if decide (j = slot) then Some (set_state YOS_PROC_FREE p) else procs rt !! j.
Proof.
  intros Hp Hc Ha. unfold reap. rewrite Hp, Hc, (proj2 (Z.eqb_neq a 0)), (proj2 (Z.ltb_lt a _)) by lia. cbn [negb andb].
  eexists _, _. split_and!; [done|unfold upd_exec; rewrite lookup_upd_ctx; simpl; by rewrite Hc|done| |].
  - simpl. rewrite ld32_st32. apply u32_small, wait_status_range.
  - intros j. change (procs (upd_exec ?i ?f ?r)) with (procs r). case_decide as Hj.
    + subst j. by rewrite lookup_upd_proc, Hp.
    + by apply lookup_upd_proc_ne.
Qed.

Lemma reaped_dead rt rt' slot p :
  table_ok rt -> procs rt !! slot = Some p -> state p = YOS_PROC_ZOMBIE ->
  (forall j, procs rt' !! j = if decide (j = slot) then Some (set_state YOS_PROC_FREE p) else procs rt !! j) -> ~ live rt' (pid p).
Proof.
  intros Hok Hp Hz Hpr (j & q & Hq & Fq & Hpq). rewrite Hpr in Hq. case_decide as Hj; simplify_eq/=.
  apply Hj. eapply (to_unique _ Hok); [done..| |done]. apply is_free_spec. by rewrite Hz.
Qed.

Lemma no_dead_children rt pp want : want <> -1 -> ~ live rt want -> has_children rt pp want = false.
Proof.
  intros Hw Hd. apply has_children_false. intros j q Hq Fq _. unfold pid_matches.
  rewrite (proj2 (Z.eqb_neq want (-1))) by done. cbn [orb]. apply Z.eqb_neq. intros He. apply Hd. by exists j, q.
Qed.

(** C27: A zombie child is reaped exactly once: waitpid returns its pid and the
    status word of its exit code or of the signal that ended it, frees the
    slot, and the next waitpid for that pid is ECHILD. *)
Theorem waitpid_reaps_once h2g env rt ci c me slot p a opt :
  table_ok rt -> ctxs rt !! ci = Some c -> my_proc rt ci = Some me -> slot_of rt ci <> Some slot ->
  procs rt !! slot = Some p -> state p = YOS_PROC_ZOMBIE -> ppid p = pid me ->
  0 < a < u32 (memory_size (g_exec c) - 4) ->
  exists rt' c',
    yos_waitpid h2g env rt ci (pid p) a opt = Some (pid p, rt') /\
    ctxs rt' !! ci = Some c' /\ ld32 (mem (g_exec c')) a = wait_status p /\
    (term_sig p = 0 -> Z.land (Z.shiftr (ld32 (mem (g_exec c')) a) 8) 255 = Z.land (exit_code p) 255 /\
                       Z.land (ld32 (mem (g_exec c')) a) 127 = 0) /\
    (0 < term_sig p < 128 -> Z.land (ld32 (mem (g_exec c')) a) 127 = term_sig p) /\
    ~ live rt' (pid p) /\
    yos_waitpid h2g env rt' ci (pid p) a opt =
      Some (-1, upd_exec ci (fun e => write_errno h2g e ECHILD) rt').
Proof.
  intros Hok Hc Hme Hne Hp Hz Hpp Ha. destruct (zombie_child_found rt slot p Hok Hp Hz) as [Hfind Hhas]. rewrite Hpp in Hfind, Hhas.
  destruct (reap_spec rt ci c slot p a Hp Hc Ha) as (rt' & c' & Hreap & Hc' & Hg & Hld & Hpr).
  pose proof (reaped_dead rt rt' slot p Hok Hp Hz Hpr) as Hdead.
  exists rt', c'. split_and!; [|done|done| | |done|].
  - unfold yos_waitpid. rewrite Hme, Hhas, Hfind. cbn [negb]. by rewrite Hreap.
  - rewrite Hld. apply wait_status_exit.
  - rewrite Hld. apply wait_status_signal.
  - assert (exists me', my_proc rt' ci = Some me') as (me' & Hme').
    { unfold my_proc, slot_of in *. rewrite Hc in Hme, Hne. rewrite Hc', Hg. destruct (g_proc c) as [ms|]; [|done].
      rewrite Hpr. case_decide; [congruence|]. by exists me. }
    unfold yos_waitpid. rewrite Hme', no_dead_children; [done| |done].
    assert (Hfp : is_free p = false) by (apply is_free_spec; by rewrite Hz). pose proof (to_range _ Hok _ _ Hp Hfp). lia.
Qed.

(** A waitpid that was already asleep when its last child vanished (reaped
    by init's rule or by an ignored SIGCHLD) never wakes, although a fresh call
    in the same state returns ECHILD at once: the sleeping loop looks only for
    zombies. *)
Theorem waitpid_sleeps_past_last_child h2g env rt ci me want a opt n :
  my_proc rt ci = Some me -> has_children rt (pid me) want = false ->
  wait_loop (replicate n (fun r => r)) rt ci (pid me) want a = None /\
  yos_waitpid h2g env rt ci want a opt = Some (-1, upd_exec ci (fun e => write_errno h2g e ECHILD) rt).
Proof.
  intros Hme Hno.
  assert (Hz : find_zombie_child rt (pid me) want = None).
  { apply find_slot_None, Forall_forall. intros p Hp. apply list_elem_of_lookup in Hp as (i & Hp).
    rewrite has_children_false in Hno. destruct (is_zombie p) eqn:Ez; [|done]. cbn [andb].
    destruct (Z.eqb_spec (ppid p) (pid me)) as [He|]; [|done]. cbn [andb]. apply (Hno i p Hp); [|done].
    apply is_free_spec. apply bool_decide_eq_true in Ez. by rewrite Ez. }
  split.
  - induction n as [|n IH]; simpl; by rewrite Hz.
  - unfold yos_waitpid. by rewrite Hme, Hno.
Qed.

(** * Exit *)

Lemma ctxs_deliver_procs pk rt i sig : procs (deliver_to_proc pk rt i sig).2 = procs rt.
Proof.
  unfold deliver_to_proc. destruct (procs rt !! i) as [p|]; [|done].
  destruct (is_free p || is_zombie p); [done|]. destruct (sig =? 0); [done|]. destruct (negb (thread p)); [done|].
  destruct (job_control sig); [done|]. destruct (sig =? 9); simpl.
  - by destruct (ctx_handle p).
  - destruct (ctx_handle p); [|done]. by destruct (_ && _).
Qed.

Lemma kill_by_pid_procs pk rt q sig : procs (yos_proc_kill_by_pid pk rt q sig).2 = procs rt.
Proof. unfold yos_proc_kill_by_pid. destruct (yos_proc_find rt q); [apply ctxs_deliver_procs|done]. Qed.

Lemma foldl_kill_procs pk rt l sig :
  procs (foldl (fun r q => (yos_proc_kill_by_pid pk r q sig).2) rt l) = procs rt.
Proof.
  revert rt. induction l as [|q l IH]; intros rt; simpl; [done|]. by rewrite IH, kill_by_pid_procs.
Qed.

(** A context only gains pending bits. *)
Definition more_pending (rt rt' : yos_runtime) : Prop :=
  forall k x, ctxs rt !! k = Some x -> exists x', ctxs rt' !! k = Some x' /\ fd_map x' = fd_map x /\
    forall s, 0 <= s -> Z.testbit (sig_pending x) s = true -> Z.testbit (sig_pending x') s = true.

#[export] Instance more_pending_refl : Reflexive more_pending.
Proof. intros rt k x Hx. by exists x. Qed.

#[export] Instance more_pending_trans : Transitive more_pending.
Proof.
  intros r1 r2 r3 H12 H23 k x Hx. destruct (H12 k x Hx) as (y & Hy & E1 & S1).
  destruct (H23 k y Hy) as (z & Hz & E2 & S2). exists z. split_and!; [done|congruence|]. auto.
Qed.

Lemma more_pending_post c sig rt : 0 <= sig -> more_pending rt (post_pending c sig rt).
Proof.
  intros Hs k x Hx. unfold post_pending. destruct (decide (c = k)) as [->|Hne].
  - rewrite lookup_upd_ctx, Hx. eexists. split_and!; [done|done|]. intros s Hs' Hb. simpl.
    by rewrite Z.lor_spec, Hb.
  - rewrite lookup_upd_ctx_ne by done. by exists x.
Qed.

Lemma more_pending_emit e rt : more_pending rt (emit e rt).
Proof. intros k x Hx. by exists x. Qed.

Lemma more_pending_deliver pk rt i sig : more_pending rt (deliver_to_proc pk rt i sig).2.
Proof.
  unfold deliver_to_proc. destruct (procs rt !! i) as [p|]; [|reflexivity].
  destruct (is_free p || is_zombie p); [reflexivity|]. destruct (sig =? 0); [reflexivity|].
  destruct (negb (thread p)); [reflexivity|]. destruct (job_control sig); [reflexivity|].
  destruct (sig =? 9); cbn [snd].
  - etrans; [|apply more_pending_emit]. destruct (ctx_handle p); [|reflexivity].
    by apply more_pending_post.
  - etrans; [|apply more_pending_emit]. destruct (ctx_handle p); [|reflexivity].
    destruct (Z.ltb_spec 0 sig); [|reflexivity]. destruct (sig <? 32); [|reflexivity].
    apply more_pending_post. lia.
Qed.

Lemma more_pending_kill pk rt q sig : more_pending rt (yos_proc_kill_by_pid pk rt q sig).2.
Proof. unfold yos_proc_kill_by_pid. destruct (yos_proc_find rt q); [apply more_pending_deliver|reflexivity]. Qed.

Lemma more_pending_foldl pk rt l sig :
  more_pending rt (foldl (fun r q => (yos_proc_kill_by_pid pk r q sig).2) rt l).
Proof.
  revert rt. induction l as [|q l IH]; intros rt; simpl; [reflexivity|]. etrans; [apply more_pending_kill|apply IH].
Qed.

Lemma find_live rt i p :
  table_ok rt -> procs rt !! i = Some p -> is_free p = false -> yos_proc_find rt (pid p) = Some i.
Proof.
  intros Hok Hp Hf. unfold yos_proc_find. destruct (find_slot _ (procs rt) 0) as [k|] eqn:E.
  - apply find_slot_0 in E as (q & Hq & Hb). rewrite andb_true_iff, Z.eqb_eq, negb_true_iff in Hb.
    destruct Hb as [He Fq]. f_equal. by eapply (to_unique _ Hok).
  - exfalso. apply find_slot_None in E. rewrite Forall_forall in E.
    specialize (E p (list_elem_of_lookup_2 _ _ _ Hp)). cbn beta in E. by rewrite Z.eqb_refl, Hf in E.
Qed.

(** What a signal to a live process with a thread and a context posts. *)
Lemma deliver_posts pk rt i p k x sig :
  procs rt !! i = Some p -> is_free p = false -> is_zombie p = false -> thread p = true ->
  ctx_handle p = Some k -> ctxs rt !! k = Some x -> 0 < sig < 32 -> job_control sig = false ->
  exists rt1, (deliver_to_proc pk rt i sig).2 = emit (Ev_wake i) rt1 /\ rt1 = post_pending k sig rt.
Proof.
  intros Hp Hf Hz Ht Hk Hx Hs Hj. unfold deliver_to_proc. rewrite Hp, Hf, Hz. cbn [orb].
  destruct (Z.eqb_spec sig 0); [lia|]. rewrite Ht, Hj, Hk. cbn [negb].
  destruct (Z.eqb_spec sig 9) as [->|]; [by eexists|].
  destruct (Z.ltb_spec 0 sig), (Z.ltb_spec sig 32); try lia. cbn [andb]. by eexists.
Qed.

Lemma foldl_kill_posts pk l rt i p k x sig :
  table_ok rt -> procs rt !! i = Some p -> is_free p = false -> is_zombie p = false -> thread p = true ->
  ctx_handle p = Some k -> is_Some (ctxs rt !! k) -> 0 < sig < 32 -> job_control sig = false -> pid p ∈ l ->
  ctxs (foldl (fun r q => (yos_proc_kill_by_pid pk r q sig).2) rt l) !! k = Some x ->
  Z.testbit (sig_pending x) sig = true.
Proof.
  revert rt. induction l as [|q l IH]; intros rt Hok Hp Hf Hz Ht Hk [y Hy] Hs Hj Hin Hx; [by apply elem_of_nil in Hin|].
  simpl in Hx. apply elem_of_cons in Hin as [<-|Hin].
  - unfold yos_proc_kill_by_pid at 2 in Hx. rewrite (find_live _ _ _ Hok Hp Hf) in Hx.
    destruct (deliver_posts pk rt i p k y sig Hp Hf Hz Ht Hk Hy Hs Hj) as (rt1 & He & ->). rewrite He in Hx.
    assert (Hy1 : ctxs (emit (Ev_wake i) (post_pending k sig rt)) !! k =
                  Some (set_sig_pending (Z.lor (sig_pending y) (bit sig)) y)).
    { change (ctxs (emit ?e ?r)) with (ctxs r). unfold post_pending. by rewrite lookup_upd_ctx, Hy. }
    destruct (more_pending_foldl pk _ l sig _ _ Hy1) as (x' & Hx' & _ & Hp'). rewrite Hx in Hx'. simplify_eq.
    apply Hp'; [lia|]. simpl. rewrite Z.lor_spec. unfold bit. rewrite Z.shiftl_1_l, Z.pow2_bits_true by lia. apply orb_true_r.
  - eapply IH; [by eapply tame_ok; [apply tame_kill_by_pid|]|by rewrite kill_by_pid_procs|done..| |done|done|done|exact Hx].
    destruct (more_pending_kill pk rt q sig k y Hy) as (z & Hz' & _). by exists z.
Qed.

Lemma kill_ctxs_length pk rt q sig :
  length (ctxs (yos_proc_kill_by_pid pk rt q sig).2) = length (ctxs rt).
Proof.
  unfold yos_proc_kill_by_pid, deliver_to_proc, post_pending, upd_ctx.
  destruct (yos_proc_find rt q) as [i|]; [|done]. destruct (procs rt !! i) as [p|]; [|done].
  destruct (is_free p || is_zombie p); [done|]. destruct (sig =? 0); [done|]. destruct (negb (thread p)); [done|].
  destruct (job_control sig); [done|]. destruct (sig =? 9); simpl; destruct (ctx_handle p); try done; simpl.
  - apply length_alter.
  - destruct (_ && _); [apply length_alter|done].
Qed.

Lemma foldl_kill_ctxs_length pk rt l sig :
  length (ctxs (foldl (fun r q => (yos_proc_kill_by_pid pk r q sig).2) rt l)) = length (ctxs rt).
Proof.
  revert rt. induction l as [|q l IH]; intros rt; simpl; [done|]. by rewrite IH, kill_ctxs_length.
Qed.

Lemma foldl_emit_ctxs {A} (f : yos_runtime -> A -> yos_runtime) l rt :
  (forall r x, ctxs (f r x) = ctxs r /\ procs (f r x) = procs r) ->
  ctxs (foldl f rt l) = ctxs rt /\ procs (foldl f rt l) = procs rt.
Proof.
  intros Hf. revert rt. induction l as [|x l IH]; intros rt; simpl; [done|].
  destruct (IH (f rt x)) as [-> ->]. apply Hf.
Qed.

Definition drop_fds (x : yos_ctx) : yos_ctx :=
  set_file_slots (map (fun _ => 0) (file_slots x)) (set_fd_map (map (fun hfd => if 3 <=? hfd then -1 else hfd) (fd_map x)) x).

Lemma existsb_ext' {A} (f g : A -> bool) l : (forall x, f x = g x) -> existsb f l = existsb g l.
Proof. intros H. induction l as [|x l IH]; simpl; [done|]. by rewrite H, IH. Qed.

Lemma alter_alter {A} (f g : A -> A) i (l : list A) : alter f i (alter g i l) = alter (fun x => f (g x)) i l.
Proof. revert i. induction l as [|x l IH]; intros [|i]; simpl; [done..|]. f_equal. apply IH. Qed.

Lemma close_all_spec ci c rt :
  ctxs rt !! ci = Some c ->
  procs (close_files ci (close_fds ci rt)) = procs rt /\
  next_pid (close_files ci (close_fds ci rt)) = next_pid rt /\
  ctxs (close_files ci (close_fds ci rt)) = alter drop_fds ci (ctxs rt).
Proof.
  intros Hc. unfold close_fds. rewrite Hc.
  destruct (foldl_emit_ctxs (fun r hfd => if 3 <=? hfd then emit (Ev_close hfd) r else r) (fd_map c) rt) as [F1 F2].
  { intros r x. by destruct (3 <=? x). }
  set (rt0 := foldl _ rt (fd_map c)) in *.
  assert (N0 : next_pid rt0 = next_pid rt).
  { apply (tm_next rt rt0). apply tame_foldl. intros r x. destruct (3 <=? x); [apply tame_emit|reflexivity]. }
  set (rt1 := upd_ctx ci _ rt0).
  assert (Hc1 : ctxs rt1 !! ci = Some (set_fd_map (map (fun hfd => if 3 <=? hfd then -1 else hfd) (fd_map c)) c)).
  { unfold rt1. rewrite lookup_upd_ctx, F1. by rewrite Hc. }
  unfold close_files. rewrite Hc1.
  set (c1 := set_fd_map _ c) in *.
  destruct (foldl_emit_ctxs (fun r fp => if fp =? 0 then r else emit (Ev_fclose fp) r) (file_slots c1) rt1) as [G1 G2].
  { intros r x. by destruct (x =? 0). }
  set (rt2 := foldl _ rt1 (file_slots c1)) in *.
  assert (N2 : next_pid rt2 = next_pid rt1).
  { apply (tm_next rt1 rt2). apply tame_foldl. intros r x. destruct (x =? 0); [reflexivity|apply tame_emit]. }
  simpl. rewrite G1, G2, N2. unfold rt1. simpl. rewrite F1, F2, N0. split_and!; [done..|].
  etrans; [apply alter_alter|reflexivity].
Qed.

(** What the closing loops ask of the host. *)
Lemma foldl_emit_log {A} (P : A -> bool) (E : A -> event) l rt :
  log (foldl (fun r x => if P x then emit (E x) r else r) rt l) = log rt ++ map E (List.filter P l).
Proof.
  revert rt. induction l as [|x l IH]; intros rt; cbn [foldl List.filter map]; [by rewrite app_nil_r|]. rewrite IH. destruct (P x); [|done].
  unfold emit. cbn [log set_log map]. by rewrite <-app_assoc.
Qed.

Lemma close_all_log ci c rt :
  ctxs rt !! ci = Some c ->
  log (close_files ci (close_fds ci rt)) =
  log rt ++ map Ev_close (List.filter (fun h => 3 <=? h) (fd_map c)) ++ map Ev_fclose (List.filter (fun fp => negb (fp =? 0)) (file_slots c)).
Proof.
  intros Hc. unfold close_fds. rewrite Hc.
  pose proof (foldl_emit_log (fun h => 3 <=? h) Ev_close (fd_map c) rt) as L1.
  destruct (foldl_emit_ctxs (fun r hfd => if 3 <=? hfd then emit (Ev_close hfd) r else r) (fd_map c) rt) as [F1 _].
  { intros r x. by destruct (3 <=? x). }
  set (rt0 := foldl _ rt (fd_map c)) in *. set (rt1 := upd_ctx ci _ rt0).
  assert (Hc1 : ctxs rt1 !! ci = Some (set_fd_map (map (fun hfd => if 3 <=? hfd then -1 else hfd) (fd_map c)) c)).
  { unfold rt1. rewrite lookup_upd_ctx, F1. by rewrite Hc. }
  unfold close_files. rewrite Hc1. cbn [file_slots set_fd_map]. change (log (upd_ctx ci ?f ?r)) with (log r).
  pose proof (foldl_emit_log (fun fp => negb (fp =? 0)) Ev_fclose (file_slots c) rt1) as L2.
  transitivity (log (foldl (fun r x => if negb (x =? 0) then emit (Ev_fclose x) r else r) rt1 (file_slots c))).
  - apply (f_equal log). clear. generalize rt1. induction (file_slots c) as [|x l IH]; intros r; [done|]. cbn [foldl]. rewrite IH. by destruct (x =? 0).
  - rewrite L2. change (log rt1) with (log rt0). by rewrite L1, <-app_assoc.
Qed.

(** The threads that a signal wakes. *)
Definition wakes (rt : yos_runtime) (sig q : Z) : list event :=
  match yos_proc_find rt q with
  | Some i => match procs rt !! i with
              | Some p => if is_free p || is_zombie p || (sig =? 0) || negb (thread p) || job_control sig then [] else [Ev_wake i]
              | None => []
              end
  | None => []
  end.

Lemma kill_log pk rt q sig : log (yos_proc_kill_by_pid pk rt q sig).2 = log rt ++ wakes rt sig q.
Proof.
  unfold yos_proc_kill_by_pid, wakes. destruct (yos_proc_find rt q) as [i|]; [|by rewrite app_nil_r]. unfold deliver_to_proc.
  destruct (procs rt !! i) as [p|]; [|by rewrite app_nil_r]. destruct (is_free p || is_zombie p); cbn [orb]; [by rewrite app_nil_r|].
  destruct (sig =? 0); cbn [orb]; [by rewrite app_nil_r|]. destruct (negb (thread p)); cbn [orb]; [by rewrite app_nil_r|].
  destruct (job_control sig); [by rewrite app_nil_r|]. destruct (sig =? 9); destruct (ctx_handle p); try done. cbn [snd]. by destruct (_ && _).
Qed.

Lemma foldl_kill_log pk l rt sig :
  log (foldl (fun r q => (yos_proc_kill_by_pid pk r q sig).2) rt l) = log rt ++ flat_map (wakes rt sig) l.
Proof.
  revert rt. induction l as [|q l IH]; intros rt; cbn [foldl flat_map]; [by rewrite app_nil_r|]. rewrite IH, kill_log, <-app_assoc. f_equal. f_equal.
  apply flat_map_ext. intros a. unfold wakes, yos_proc_find. by rewrite kill_by_pid_procs.
Qed.

Lemma wakes_only rt sig q : Forall (fun e => exists i, e = Ev_wake i) (wakes rt sig q).
Proof. unfold wakes. destruct (yos_proc_find rt q); [|done]. destruct (procs rt !! _); [|done]. destruct (_ || _); [done|]. repeat constructor. by eexists. Qed.

Lemma reparent_self p : reparent (pid p) p = p.
Proof. unfold reparent, is_orphan. by rewrite Z.eqb_refl, andb_false_r. Qed.

(** The clean-up in three steps: closing and reparenting up to [rt3], SIGHUP to
    the orphans [l], and whatever else it signals. *)
Lemma cleanup_shape pk rt ci c slot me :
  table_ok rt -> ctxs rt !! ci = Some c -> g_proc c = Some slot -> procs rt !! slot = Some me ->
  let rt' := yos_proc_post_exit_cleanup pk rt ci in
  let reaped := was_orphaned me || existsb (ignores_sigchld rt (ppid me)) (procs rt) in
  let l := map pid (List.filter (is_orphan (pid me)) (procs rt)) in
  exists rt3, table_ok rt3 /\ ctxs rt3 !! ci = Some (drop_fds c) /\
    (forall i, procs rt3 !! i = (if decide (i = slot) then auto_reap reaped else id) <$> (reparent (pid me) <$> procs rt !! i)) /\
    procs rt' = procs rt3 /\ length (ctxs rt') = length (ctxs rt3) /\
    more_pending (foldl (fun r q => (yos_proc_kill_by_pid pk r q SIGHUP_FB).2) rt3 l) rt' /\
    exists more, Forall (fun e => exists i, e = Ev_wake i) more /\
      log rt' = log rt ++ (map Ev_close (List.filter (fun h => 3 <=? h) (fd_map c)) ++
        map Ev_fclose (List.filter (fun fp => negb (fp =? 0)) (file_slots c))) ++ flat_map (wakes rt3 SIGHUP_FB) l ++ more.
Proof.
  intros Hok Hc Hg Hme rt' reaped l. destruct (close_all_spec ci c rt Hc) as (C1 & C2 & C3).
  assert (Ert : rt' = yos_proc_post_exit_cleanup pk rt ci) by done. clearbody rt'.
  unfold yos_proc_post_exit_cleanup in Ert. rewrite Hc, Hg, Hme in Ert. cbv zeta in Ert.
  set (rt1 := close_files ci (close_fds ci rt)) in *.
  assert (Hign : existsb (ignores_sigchld rt1 (ppid me)) (procs rt1) = existsb (ignores_sigchld rt (ppid me)) (procs rt)).
  { rewrite C1. apply existsb_ext'. intros p. unfold ignores_sigchld. rewrite C3. f_equal.
    destruct (ctx_handle p) as [k|]; [|done]. destruct (decide (ci = k)) as [<-|Hne].
    - rewrite list_lookup_alter_eq. by destruct (ctxs rt !! ci).
    - by rewrite list_lookup_alter_ne by done. }
  rewrite Hign, C1 in Ert. fold reaped l in Ert. set (rt2 := set_procs (map (reparent (pid me)) (procs rt)) rt1) in *.
  exists (upd_proc slot (auto_reap reaped) rt2). split_and!.
  - apply (tame_ok rt2); [apply tame_auto_reap|]. unfold rt2. rewrite <-C1. apply (tame_ok rt1); [apply tame_reparent|].
    apply (tame_ok rt); [by apply tame_procs|done].
  - change (ctxs rt1 !! ci = Some (drop_fds c)). by rewrite C3, list_lookup_alter_eq, Hc.
  - intros i. case_decide as Hi.
    + subst i. rewrite lookup_upd_proc. unfold rt2. simpl. by rewrite list_lookup_fmap.
    + rewrite lookup_upd_proc_ne by done. unfold rt2. simpl. rewrite list_lookup_fmap. by destruct (procs rt !! i).
  - rewrite Ert. destruct (is_forkpty_child c); rewrite ?kill_by_pid_procs; apply foldl_kill_procs.
  - rewrite Ert. destruct (is_forkpty_child c); rewrite ?kill_ctxs_length; apply foldl_kill_ctxs_length.
  - rewrite Ert. destruct (is_forkpty_child c); [apply more_pending_kill|reflexivity].
  - pose proof (close_all_log ci c rt Hc) as Hlog. fold rt1 in Hlog. rewrite Ert. destruct (is_forkpty_child c).
    + eexists. split; [apply wakes_only|]. rewrite kill_log, foldl_kill_log. change (log (upd_proc slot _ rt2)) with (log rt1). rewrite Hlog, <-!app_assoc. done.
    + exists []. split; [done|]. rewrite foldl_kill_log. change (log (upd_proc slot _ rt2)) with (log rt1). rewrite Hlog, <-!app_assoc. by rewrite app_nil_r.
Qed.

(** A child is told apart from its zombie parent by its slot. *)
Lemma child_is_orphan rt slot me i q :
  table_ok rt -> procs rt !! slot = Some me -> state me = YOS_PROC_ZOMBIE -> i <> slot -> procs rt !! i = Some q ->
  state q <> YOS_PROC_FREE -> ppid q = pid me -> is_orphan (pid me) q = true.
Proof.
  intros Hok Hme Hz Hi Hq Hs Hpp. unfold is_orphan. apply is_free_spec in Hs as Hfq. rewrite Hfq, Hpp, Z.eqb_refl. cbn [negb andb].
  apply negb_true_iff, Z.eqb_neq. intros He. apply Hi. eapply (to_unique _ Hok); [done|done|done| |done].
  apply is_free_spec. by rewrite Hz.
Qed.

(** A running process among those signalled has the signal pending at the end. *)
Lemma signalled_pending pk rt3 rt' l i q k x :
  table_ok rt3 -> procs rt3 !! i = Some q -> state q <> YOS_PROC_FREE -> state q <> YOS_PROC_ZOMBIE -> thread q = true -> ctx_handle q = Some k ->
  pid q ∈ l -> length (ctxs rt') = length (ctxs rt3) ->
  more_pending (foldl (fun r q => (yos_proc_kill_by_pid pk r q SIGHUP_FB).2) rt3 l) rt' ->
  ctxs rt' !! k = Some x -> Z.testbit (sig_pending x) SIGHUP_FB = true.
Proof.
  intros Hok3 Hq3 Hnf Hnz Hth Hk Hin Hlen Hmp Hx. set (rt4 := foldl _ rt3 l) in *.
  assert (Hk3 : is_Some (ctxs rt3 !! k)) by (apply lookup_lt_is_Some; apply lookup_lt_Some in Hx; lia).
  assert (Hk4 : is_Some (ctxs rt4 !! k)).
  { destruct Hk3 as [y Hy]. destruct (more_pending_foldl pk rt3 l SIGHUP_FB k y Hy) as (z & Hz' & _). by exists z. }
  destruct Hk4 as [y Hy]. destruct (Hmp k y Hy) as (x' & Hx' & _ & Hb). rewrite Hx in Hx'. simplify_eq.
  apply Hb; [done|]. eapply (foldl_kill_posts pk l rt3 i _ k y SIGHUP_FB Hok3 Hq3); try done.
  - by apply is_free_spec.
  - unfold is_zombie. by apply bool_decide_eq_false_2.
Qed.

(** C38: The clean-up of an exiting process.  Its slot is freed exactly when it
    was orphaned or its parent ignores SIGCHLD.  The host is asked to close every
    descriptor of its table above 2 and then every open stream, each once and
    nothing else, and the table keeps none of them.  Every child is handed to
    init and marked; one that is no zombie and has a thread is woken, with SIGHUP
    pending in its context.  No live process but itself still names it as parent. *)
Theorem exit_cleanup_contract pk rt ci c slot me :
  table_ok rt -> ctxs rt !! ci = Some c -> g_proc c = Some slot -> procs rt !! slot = Some me ->
  state me = YOS_PROC_ZOMBIE -> pid me <> 1 ->
  let rt' := yos_proc_post_exit_cleanup pk rt ci in
  let reaped := was_orphaned me || existsb (ignores_sigchld rt (ppid me)) (procs rt) in
  exists woken,
  log rt' = log rt ++ (map Ev_close (List.filter (fun h => 3 <=? h) (fd_map c)) ++
    map Ev_fclose (List.filter (fun fp => negb (fp =? 0)) (file_slots c))) ++ woken /\
  Forall (fun e => exists i, e = Ev_wake i) woken /\
  (exists me', procs rt' !! slot = Some me' /\
     state me' = if reaped then YOS_PROC_FREE else YOS_PROC_ZOMBIE) /\
  (forall i q, i <> slot -> procs rt !! i = Some q -> state q <> YOS_PROC_FREE -> ppid q = pid me ->
     procs rt' !! i = Some (set_was_orphaned true (set_ppid 1 q)) /\
     (state q <> YOS_PROC_ZOMBIE -> thread q = true -> Ev_wake i ∈ woken /\
        forall k x, ctx_handle q = Some k -> ctxs rt' !! k = Some x -> Z.testbit (sig_pending x) SIGHUP_FB = true)) /\
  (forall i q, i <> slot -> procs rt' !! i = Some q -> state q <> YOS_PROC_FREE -> ppid q <> pid me) /\
  (exists c', ctxs rt' !! ci = Some c' /\ fd_map c' = map (fun h => if 3 <=? h then -1 else h) (fd_map c)).
Proof.
  intros Hok Hc Hg Hme Hz Hp1 rt' reaped.
  destruct (cleanup_shape pk rt ci c slot me Hok Hc Hg Hme) as (rt3 & Hok3 & Hc3 & H3 & Hpr & Hlen & Hmp & more & Hmore & Hlog).
  fold rt' in Hpr, Hlen, Hmp, Hlog. fold reaped in H3. pose proof (child_is_orphan rt slot me) as Horph.
  eexists. split; [exact Hlog|]. split_and!.
  - apply Forall_app. split; [|done]. apply Forall_flat_map, Forall_forall. intros q _. apply wakes_only.
  - rewrite Hpr, H3, Hme. case_decide; [|done]. cbn [fmap option_fmap option_map]. rewrite reparent_self. eexists. split; [done|].
    unfold auto_reap, is_zombie. rewrite Hz. case_bool_decide; [|done]. by destruct reaped.
  - intros i q Hi Hq Hs Hpp. pose proof (Horph i q Hok Hme Hz Hi Hq Hs Hpp) as Ho.
    assert (Hq3 : procs rt3 !! i = Some (set_was_orphaned true (set_ppid 1 q))).
    { rewrite H3, Hq. case_decide; [done|]. cbn [fmap option_fmap option_map id]. unfold reparent. by rewrite Ho. }
    assert (Hin : pid q ∈ map pid (List.filter (is_orphan (pid me)) (procs rt))).
    { apply list_elem_of_fmap. exists q. split; [done|].
      apply list_elem_of_In, filter_In. split; [by eapply list_elem_of_In, list_elem_of_lookup_2|done]. }
    split; [by rewrite Hpr|]. intros Hnz Hth. split.
    + apply elem_of_app. left. apply list_elem_of_In, in_flat_map. exists (pid q). split; [by apply list_elem_of_In|]. unfold wakes.
      assert (Hf : yos_proc_find rt3 (pid q) = Some i) by (apply (find_live rt3 i _ Hok3 Hq3); by apply is_free_spec).
      rewrite Hf, Hq3. unfold is_zombie. cbn [state set_was_orphaned set_ppid thread]. rewrite (bool_decide_eq_false_2 (state q = YOS_PROC_ZOMBIE)) by done.
      rewrite (proj2 (is_free_spec (set_was_orphaned true (set_ppid 1 q)))) by done. rewrite Hth. by left.
    + intros k x Hk Hx. by refine (signalled_pending pk rt3 rt' _ i _ k x Hok3 Hq3 Hs Hnz Hth Hk Hin Hlen Hmp Hx).
  - intros i q Hi Hq Hs Hpp. rewrite Hpr, H3 in Hq. case_decide; [done|].
    destruct (procs rt !! i) as [q0|] eqn:Hq0; [|done]. cbn [fmap option_fmap option_map id] in Hq. simplify_eq.
    rewrite reparent_state in Hs. destruct (is_orphan (pid me) q0) eqn:Ho; unfold reparent in Hpp; rewrite Ho in Hpp; simpl in Hpp; [done|].
    by rewrite (Horph i q0 Hok Hme Hz Hi Hq0 Hs Hpp) in Ho.
  - destruct (more_pending_foldl pk rt3 (map pid (List.filter (is_orphan (pid me)) (procs rt))) SIGHUP_FB ci _ Hc3) as (y & Hy & Hfd & _).
    destruct (Hmp ci y Hy) as (x & Hx & Hfd' & _). exists x. split; [done|]. by rewrite Hfd', Hfd.
Qed.

(** * Witnesses *)

Lemma demo_ok : table_ok demo.
Proof.
  split; [| |done].
  - intros i j p q Hp Hq Fp Fq He.
    do 8 (destruct i as [|i]; [do 8 (destruct j as [|j]; [by simplify_eq/=|]); done|]). done.
  - intros i p Hp Fp. do 8 (destruct i as [|i]; [by simplify_eq/=|]). done.
Qed.

Lemma demo_exiting_ok : table_ok demo_exiting.
Proof. apply (tame_ok demo); [apply tame_mark_exited|apply demo_ok]. Qed.

Lemma demo_reaped_ok : table_ok demo_reaped.
Proof.
  apply (tame_ok demo); [|apply demo_ok]. apply tame_upd_proc. intros p [= <-]. by split.
Qed.

Lemma demo_reaped_dead : ~ live demo_reaped 3.
Proof. intros (i & p & Hp & Fp & Hq). do 8 (destruct i as [|i]; [by simplify_eq/=|]). done. Qed.

Lemma pids_unique_never_reused_witness :
  (exists p, procs (yos_proc_alloc demo_reaped 2).2 !! 2%nat = Some p /\ pid p = 5) /\
  ~ live (yos_proc_alloc demo_reaped 2).2 3.
Proof.
  split; [exact (ex_intro _ (new_proc 5 2) (conj eq_refl eq_refl))|].
  exact (proj2 (proj2 (pids_unique_never_reused demo_pk id demo_reaped (yos_proc_alloc demo_reaped 2).2 3
    demo_reaped_ok (rtc_once _ _ (ps_alloc demo_pk id demo_reaped 2 2 (yos_proc_alloc demo_reaped 2).2 ltac:(done) eq_refl))))
    ltac:(done) demo_reaped_dead).
Defined.

Lemma waitpid_reaps_once_witness :
  exists rt', yos_waitpid id [] demo 1 3 1024 0 = Some (3, rt') /\ ~ live rt' 3.
Proof.
  destruct (waitpid_reaps_once id [] demo 1 demo_shell_ctx demo_shell 2 demo_dead 1024 0 demo_ok
    eq_refl eq_refl ltac:(done) eq_refl eq_refl eq_refl ltac:(by vm_compute))
    as (rt' & c' & H1 & _ & _ & _ & _ & H2 & _).
  exact (ex_intro _ rt' (conj H1 H2)).
Defined.

Lemma waitpid_sleeps_past_last_child_witness :
  wait_loop (replicate 3 (fun r => r)) demo 2 4 (-1) 0 = None.
Proof. exact (proj1 (waitpid_sleeps_past_last_child id [] demo 2 demo_child (-1) 0 0 3 eq_refl eq_refl)). Defined.

Lemma exit_cleanup_contract_witness :
  let rt' := yos_proc_post_exit_cleanup demo_pk demo_exiting 1 in
  (exists me', procs rt' !! 1%nat = Some me' /\ state me' = YOS_PROC_ZOMBIE) /\
  exists woken, log rt' = [Ev_close 7; Ev_close 9; Ev_fclose 4096] ++ woken /\ Ev_wake 3 ∈ woken.
Proof.
  destruct (exit_cleanup_contract demo_pk demo_exiting 1 demo_shell_ctx 1 (mark_exited 3 demo_shell)
    demo_exiting_ok eq_refl eq_refl eq_refl eq_refl ltac:(done)) as (woken & Hlog & _ & Hslot & Hch & _).
  split; [exact Hslot|]. exists woken. split; [exact Hlog|].
  exact (proj1 (proj2 (Hch 3%nat demo_child ltac:(lia) eq_refl ltac:(done) eq_refl) ltac:(done) eq_refl)).
Defined.
