(* ===== verification/KillProps.v ===== *)
(** kill: what a signal to one process posts, and what a signal to a group
    does not. *)
From S2P Require Import Prelude Memory Ctx Runtime ProcTable Sigset Sig ProcProps Fixtures.

Section Kill.
Variable remap_errno_h2g : Z -> Z.
Variable pthread_kill : yos_proc -> Z -> Z.
Variable table_fn : nat -> Z -> bool.
Variable run_handler : nat -> Z -> Z -> yos_runtime -> flow.

Local Abbreviation kill := (yos_kill remap_errno_h2g pthread_kill table_fn run_handler).

(** [kill] of another live process: signal 0 and the job-control signals
    change nothing; any other signal up to 31 becomes pending in that process's
    context and in no other, and its thread is woken; the error of the wake-up,
    if any, is reported. *)
Theorem kill_posts_pending rt ci i p k x sig :
  table_ok rt -> procs rt !! i = Some p -> state p = YOS_PROC_RUNNING -> thread p = true ->
  ctx_handle p = Some k -> ctxs rt !! k = Some x -> slot_of rt ci <> Some i -> 0 <= pthread_kill p 12 ->
  (sig = 0 \/ job_control sig = true -> kill rt ci (pid p) sig = Some (0, Running rt)) /\
  (0 < sig < 32 -> job_control sig = false ->
     exists rt', ctxs rt' = <[k := set_sig_pending (Z.lor (sig_pending x) (bit sig)) x]> (ctxs rt) /\
       procs rt' = procs rt /\ log rt' = log rt ++ [Ev_wake i] /\
       kill rt ci (pid p) sig =
         Some (if (sig =? 9) || (pthread_kill p 12 =? 0) then (0, Running rt')
               else yos_errno remap_errno_h2g rt' ci (pthread_kill p 12))).
Proof.
  intros Hok Hp Hs Ht Hk Hx Hne Hpk.
  assert (Hf : is_free p = false) by (apply is_free_spec; by rewrite Hs).
  assert (Hz : is_zombie p = false) by (unfold is_zombie; by rewrite Hs).
  pose proof (to_range _ Hok _ _ Hp Hf) as Hr. unfold yos_kill.
  destruct (Z.ltb_spec 0 (pid p)); [|lia]. rewrite (find_live _ _ _ Hok Hp Hf).
  unfold deliver_to_proc. rewrite Hp, Hf, Hz, Ht, Hk. cbn [orb negb].
  rewrite (bool_decide_false _ Hne). split.
  - intros [-> |Hj]; [done|]. rewrite Hj. by destruct (sig =? 0).
  - intros Hsig Hj. rewrite Hj. destruct (Z.eqb_spec sig 0); [lia|].
    exists (emit (Ev_wake i) (post_pending k sig rt)). split_and!; [|done|done|].
    { cbn [ctxs emit set_log post_pending upd_ctx set_ctxs]. apply list_eq. intros j.
      destruct (decide (k = j)) as [<-|Hj'].
      - rewrite list_lookup_alter_eq, list_lookup_insert_eq by (by eapply lookup_lt_Some). by rewrite Hx.
      - by rewrite list_lookup_alter_ne, list_lookup_insert_ne. }
    destruct (Z.eqb_spec sig 9) as [->|]; [done|]. cbn [orb].
    destruct (Z.ltb_spec 0 sig); [|lia]. destruct (Z.ltb_spec sig 32); [|lia]. cbn [andb].
    destruct (Z.eqb_spec (pthread_kill p 12) 0) as [_|]; [done|].
    destruct (Z.ltb_spec (- pthread_kill p 12) 0); [|lia]. by rewrite Z.opp_involutive.
Qed.

Definition group_slots (rt : yos_runtime) (my_pgid pid_ : Z) (l : list nat) : list nat :=
  List.filter (fun i => match procs rt !! i with Some p => group_match my_pgid pid_ p | None => false end) l.

Lemma kill_group_spec rt my_pgid pid_ sig :
  sig <> 0 ->
  let '(found, _, rt') := kill_group pthread_kill rt my_pgid pid_ sig in
  let l := group_slots rt my_pgid pid_ (seq 0 (length (procs rt))) in
  found = Z.of_nat (length l) /\ rt' = set_log (log rt ++ map (fun i => Ev_host_kill i sig) l) rt.
Proof.
  intros Hs. unfold kill_group. destruct (Z.eqb_spec sig 0) as [|_]; [done|].
  match goal with |- context [foldl ?f _ _] => set (F := f) end.
  assert (H : forall l f e lg, let '(f', _, r') := foldl F (f, e, set_log lg rt) l in
    f' = f + Z.of_nat (length (group_slots rt my_pgid pid_ l)) /\
    r' = set_log (lg ++ map (fun i => Ev_host_kill i sig) (group_slots rt my_pgid pid_ l)) rt).
  { induction l as [|i l IH]; intros f e lg; simpl.
    - split; [lia|]. by rewrite app_nil_r.
    - destruct (procs rt !! i) as [p|]; [|apply IH]. destruct (group_match my_pgid pid_ p); [|apply IH].
      cbn [length map]. change (emit ?ev (set_log ?l0 rt)) with (set_log (l0 ++ [ev]) rt).
      specialize (IH (f + 1) (if pthread_kill p sig =? 0 then e else - pthread_kill p sig) (lg ++ [Ev_host_kill i sig])).
      destruct (foldl F _ l) as [[f' e'] r']. destruct IH as [-> ->]. split; [lia|]. by rewrite <-app_assoc. }
  specialize (H (seq 0 (length (procs rt))) 0 0 (log rt)).
  assert (E : set_log (log rt) rt = rt) by (by destruct rt). rewrite E in H.
  destruct (foldl F _ _) as [[f' e'] r']. exact H.
Qed.

(** [kill] of a group (pid 0, -1 or below): every matching thread, and the
    caller's own when it matches, gets the guest's signal number as a raw host
    signal, and no context's pending set changes: the guest-level delivery that
    a kill of one process goes through is bypassed. *)
Theorem kill_group_bypasses_pending rt ci pid_ sig :
  pid_ <= 0 -> sig <> 0 ->
  let my_pgid := match my_proc rt ci with Some p => pgid p | None => 0 end in
  let l := group_slots rt my_pgid pid_ (seq 0 (length (procs rt))) in
  exists r rt', kill rt ci pid_ sig = Some (r, Running rt') /\ procs rt' = procs rt /\
    map sig_pending (ctxs rt') = map sig_pending (ctxs rt) /\
    log rt' = log rt ++ map (fun i => Ev_host_kill i sig) l /\ (l = [] -> r = -1) /\
    (forall i p, procs rt !! i = Some p -> pid_ = -1 -> state p = YOS_PROC_RUNNING -> pid p <> 1 ->
       Ev_host_kill i sig ∈ log rt').
Proof.
  intros Hp Hs my_pgid l. unfold yos_kill. destruct (Z.ltb_spec 0 pid_); [lia|].
  fold my_pgid. pose proof (kill_group_spec rt my_pgid pid_ sig Hs) as HG. fold l in HG.
  destruct (kill_group _ rt my_pgid pid_ sig) as [[f e] r']. destruct HG as [-> ->].
  set (rt1 := set_log _ rt).
  assert (Hall : forall r2, log r2 = log rt1 -> forall i p, procs rt !! i = Some p -> pid_ = -1 ->
     state p = YOS_PROC_RUNNING -> pid p <> 1 -> Ev_host_kill i sig ∈ log r2).
  { intros r2 -> i p Hi -> Hr H1. cbn [log rt1 set_log]. apply elem_of_app. right.
    apply list_elem_of_fmap. exists i. split; [done|]. apply list_elem_of_In, filter_In. split.
    - apply list_elem_of_In, elem_of_seq. apply lookup_lt_Some in Hi. lia.
    - rewrite Hi. unfold group_match, is_free, is_zombie. rewrite Hr. cbn. by apply negb_true_iff, Z.eqb_neq. }
  assert (Herr : forall en, exists rt2, yos_errno remap_errno_h2g rt1 ci en = (-1, Running rt2) /\ procs rt2 = procs rt /\
     map sig_pending (ctxs rt2) = map sig_pending (ctxs rt) /\ log rt2 = log rt1).
  { intros en. eexists. split; [done|]. split; [done|]. split; [|done]. unfold upd_exec, upd_ctx. cbn [ctxs set_ctxs rt1 set_log].
    apply list_eq. intros j. rewrite !list_lookup_fmap.
    destruct (decide (ci = j)) as [<-|Hj].
    - rewrite list_lookup_alter_eq. by destruct (ctxs rt !! ci).
    - by rewrite list_lookup_alter_ne. }
  destruct (Z.eqb_spec (Z.of_nat (length l)) 0) as [H0|H0].
  - destruct (Herr ESRCH) as (rt2 & -> & H1 & H2 & H3). exists (-1), rt2. split_and!; [done|done|done|by rewrite H3|done|by apply Hall].
  - destruct (negb (e =? 0)).
    + destruct (Herr (- e)) as (rt2 & -> & H1 & H2 & H3). exists (-1), rt2. split_and!; [done|done|done|by rewrite H3|done|by apply Hall].
    + exists 0, rt1. split_and!; [done|done|done|done| |by apply Hall]. intros ->. by destruct H0.
Qed.
End Kill.

(** * Witnesses *)

Lemma kill_posts_pending_witness :
  yos_kill id demo_pk demo_table demo_run demo 1 4 0 = Some (0, Running demo).
Proof.
  exact (proj1 (kill_posts_pending id demo_pk demo_table demo_run demo 1 3 demo_child 2
    (demo_ctx 3 (replicate 32 0) 0 0) 0 demo_ok eq_refl eq_refl eq_refl eq_refl eq_refl ltac:(done) ltac:(done)) (or_introl eq_refl)).
Defined.

Lemma kill_group_bypasses_pending_witness :
  exists r rt', yos_kill id demo_pk demo_table demo_run demo 1 (-1) 15 = Some (r, Running rt') /\
    map sig_pending (ctxs rt') = map sig_pending (ctxs demo).
Proof.
  destruct (kill_group_bypasses_pending id demo_pk demo_table demo_run demo 1 (-1) 15 ltac:(done) ltac:(done))
    as (r & rt' & H1 & _ & H2 & _).
  exact (ex_intro _ r (ex_intro _ rt' (conj H1 H2))).
Defined.
