(* ===== verification/Path.v ===== *)
(** Paths (src/src/yos/impl/io/io.c): the current directory of a guest, which
    the host never learns, and the lexical canonicalisation of the paths the
    descriptor table records.  A path is the list of its characters, without
    the terminating NUL. *)
From Stdlib Require Import Ascii.
From stdpp Require Import strings.
From S2P Require Import Prelude.

Definition path : Type := list ascii.

Definition PATH_MAX : Z := 4096.
Definition slash : ascii := "/"%char.
Definition dot : ascii := "."%char.

Definition zlen {A} (l : list A) : Z := Z.of_nat (length l).

(** [snprintf(abs, sizeof abs, ...)] and [strncpy(dst, src, PATH_MAX - 1)]. *)
Definition clip (p : path) : path := take (Z.to_nat (PATH_MAX - 1)) p.

Definition is_slash (c : ascii) : bool := Ascii.eqb c slash.
Definition ends_slash (p : path) : bool := match last p with Some c => is_slash c | None => false end.
Definition is_abs (p : path) : bool := match p with c :: _ => is_slash c | [] => false end.

(** * canon_abs_path *)

(** [while ( *in == '/') in++;] *)
Fixpoint skip_slashes (l : path) : path :=
  match l with c :: l' => if is_slash c then skip_slashes l' else l | [] => [] end.

(** The segment that starts at [in], and what follows it. *)
Fixpoint segment (l : path) : path * path :=
  match l with
  | [] => ([], [])
  | c :: l' => if is_slash c then ([], l) else let '(s, r) := segment l' in (c :: s, r)
  end.

(** [while (out > tmp + 1 && out[-1] != '/') out--;], on the reversed buffer. *)
Fixpoint drop_segment (out : path) : path :=
  match out with
  | c :: out' => if (1 <? zlen out) && negb (is_slash c) then drop_segment out' else out
  | [] => []
  end.

(** The output buffer [tmp .. out], last character first. *)
Definition canon_segment (out seg : path) : option path :=
  if bool_decide (seg = [dot]) then Some out
  else if bool_decide (seg = [dot; dot]) then
    Some (if 1 <? zlen out then drop_segment (tail out) else out)
  else if PATH_MAX <=? zlen out + zlen seg + 1 then None
  else Some (slash :: rev seg ++ out).

(** The outer loop; [fuel] bounds the number of segments. *)
Fixpoint canon_loop (fuel : nat) (out inp : path) : path :=
  match fuel with
  | O => out
  | S f =>
      match skip_slashes inp with
      | [] => out
      | l =>
          let '(seg, rest) := segment l in
          match canon_segment out seg with
          | None => out
          | Some out' => canon_loop f out' rest
          end
      end
  end.

Definition canon_abs_path (p : path) : path :=
  match p with
  | c :: inp =>
      if is_slash c then
        let out := canon_loop (S (length inp)) [slash] inp in
        rev (if (1 <? zlen out) && match out with c' :: _ => is_slash c' | [] => false end then tail out else out)
      else p
  | [] => p
  end.

(** * Resolution against the tracked directory *)

Section Resolve.

(** [yos_plat_translate_path]: the platform's. *)
Variable translate_path : path -> path.

Definition yos_path_resolve (cwd p : path) : path :=
  match p with
  | [] => p
  | _ =>
      if is_abs p then translate_path p
      else match cwd with
           | [] => translate_path p
           | _ =>
               if PATH_MAX <=? zlen cwd then p
               else
                 let buf := if negb (ends_slash cwd) && negb (match last cwd with Some c => Ascii.eqb c "\"%char | None => false end)
                               && (zlen cwd + 1 <? PATH_MAX)
                            then cwd ++ [slash] else cwd in
                 if PATH_MAX <? zlen buf + zlen p + 1 then p else translate_path (buf ++ p)
           end
  end.

Definition AT_FDCWD : Z := -100.

Definition yos_path_resolve_at (cwd : path) (host_dfd : Z) (p : path) : path :=
  if host_dfd =? AT_FDCWD then yos_path_resolve cwd p else p.

(** The absolute path that an opened descriptor records. *)
Definition recorded_path (cwd p : path) : path :=
  canon_abs_path
    (clip (if is_abs p then p
           else match cwd with [] => p | _ => cwd ++ (if ends_slash cwd then [] else [slash]) ++ p end)).

(** The join with the directory behind a descriptor. *)
Definition openat_join (base p : path) : path :=
  clip (base ++ (match base with [] => [] | _ => if ends_slash base then [] else [slash] end) ++ p).

(** [yos_chdir] after the target was found to be a directory. *)
Definition chdir_cwd (cwd p : path) : path :=
  if is_abs p then clip p
  else
    let c1 := match cwd with
              | [] => cwd
              | _ => if ends_slash cwd then cwd else cwd ++ take (Z.to_nat (PATH_MAX - zlen cwd - 1)) [slash]
              end in
    c1 ++ take (Z.to_nat (PATH_MAX - zlen c1 - 1)) p.

End Resolve.
