(* ===== verification/PathProps.v ===== *)
(** Canonical paths: [canon_abs_path] computes the normal form of the list of
    segments, and that form is a fixed point. *)
From Stdlib Require Import Ascii.
From Stdlib Require Import String.
From stdpp Require Import strings.
From S2P Require Import Prelude Path.

(** * Segments *)

Fixpoint split (l : path) : list path :=
  match l with
  | [] => [[]]
  | c :: l' => if is_slash c then [] :: split l'
               else match split l' with s :: r => (c :: s) :: r | [] => [[c]] end
  end.

(** The non-empty segments of a path. *)
Definition segments (l : path) : list path := filter (fun s => s <> []) (split l).

Definition push (stack : list path) (seg : path) : list path :=
  if bool_decide (seg = [dot]) then stack
  else if bool_decide (seg = [dot; dot]) then tail stack
  else seg :: stack.

(** What the segments denote, root first. *)
Definition normal (l : path) : list path := rev (foldl push [] (segments l)).

Definition render (segs : list path) : path :=
  match segs with [] => [slash] | _ => concat (map (cons slash) segs) end.

Definition seg_ok (s : path) : Prop := s <> [] /\ Forall (fun c => is_slash c = false) s.

Definition seg_clean (s : path) : Prop := seg_ok s /\ s <> [dot] /\ s <> [dot; dot].

Lemma split_app s l : Forall (fun c => is_slash c = false) s -> split (s ++ slash :: l) = s :: split l.
Proof.
  induction 1 as [|c s Hc _ IH]; simpl; [done|]. by rewrite Hc, IH.
Qed.

Lemma split_seg s : Forall (fun c => is_slash c = false) s -> split s = [s].
Proof. induction 1 as [|c s Hc _ IH]; simpl; [done|]. by rewrite Hc, IH. Qed.

Lemma segments_slash l : segments (slash :: l) = segments l.
Proof. done. Qed.

Lemma segments_skip l : segments (skip_slashes l) = segments l.
Proof.
  induction l as [|c l IH]; simpl; [done|]. destruct (is_slash c) eqn:E; [|done].
  unfold segments at 2. simpl. rewrite E. exact IH.
Qed.

Lemma skip_length l : (length (skip_slashes l) <= length l)%nat.
Proof. induction l as [|c l IH]; simpl; [done|]. destruct (is_slash c); simpl; lia. Qed.

Lemma skip_head l : match skip_slashes l with c :: _ => is_slash c = false | [] => True end.
Proof. induction l as [|c l IH]; simpl; [done|]. by destruct (is_slash c) eqn:E. Qed.

(** [rest] is empty or starts at the slash that ended the segment. *)
Lemma segment_spec l seg rest :
  segment l = (seg, rest) ->
  l = seg ++ rest /\ Forall (fun c => is_slash c = false) seg /\
  match rest with c :: _ => is_slash c = true | [] => True end.
Proof.
  revert seg. induction l as [|c l IH]; simpl; intros seg; [by intros [= <- <-]|].
  destruct (is_slash c) eqn:E; [by intros [= <- <-]|].
  destruct (segment l) as [s r]. intros [= <- <-]. destruct (IH s eq_refl) as (-> & H1 & H2). by repeat constructor.
Qed.

Lemma is_slash_eq c : is_slash c = true -> c = slash.
Proof. apply Ascii.eqb_eq. Qed.

Lemma segments_cons seg rest :
  seg_ok seg -> match rest with c :: _ => is_slash c = true | [] => True end ->
  segments (seg ++ rest) = seg :: segments rest.
Proof.
  intros [Hne Hs] Hr. unfold segments. destruct rest as [|c rest].
  - rewrite app_nil_r, split_seg by done. by rewrite filter_cons_True.
  - apply is_slash_eq in Hr as ->. rewrite split_app by done. by rewrite filter_cons_True.
Qed.

(** * The output buffer *)

(** The reversed buffer that holds a stack of segments, top first. *)
Fixpoint buf_of (st : list path) : path :=
  match st with [] => [slash] | s :: st' => slash :: rev s ++ buf_of st' end.

Lemma buf_head st : exists t, buf_of st = slash :: t.
Proof. destruct st; by eexists. Qed.

Lemma buf_pos st : 1 <= zlen (buf_of st).
Proof. destruct (buf_head st) as [t ->]. unfold zlen. simpl. lia. Qed.

Lemma zlen_app {A} (l k : list A) : zlen (l ++ k) = zlen l + zlen k.
Proof. unfold zlen. rewrite length_app. lia. Qed.

Lemma zlen_cons {A} (x : A) l : zlen (x :: l) = zlen l + 1.
Proof. unfold zlen. simpl. lia. Qed.

Lemma zlen_rev {A} (l : list A) : zlen (rev l) = zlen l.
Proof. unfold zlen. by rewrite length_rev. Qed.

Lemma zlen_nonneg {A} (l : list A) : 0 <= zlen l.
Proof. unfold zlen. lia. Qed.

Lemma buf_cons_len s st : zlen (buf_of (s :: st)) = zlen (buf_of st) + zlen s + 1.
Proof. simpl. rewrite zlen_cons, zlen_app, zlen_rev. lia. Qed.

Lemma drop_segment_buf t st : Forall (fun c => is_slash c = false) t -> drop_segment (t ++ buf_of st) = buf_of st.
Proof.
  induction 1 as [|c t Hc _ IH]; cbn [app].
  - destruct (buf_head st) as [t ->]. cbn [drop_segment]. by rewrite andb_false_r.
  - cbn [drop_segment]. rewrite Hc, zlen_cons, zlen_app. pose proof (buf_pos st). pose proof (zlen_nonneg t).
    destruct (Z.ltb_spec 1 (zlen t + zlen (buf_of st) + 1)); [|lia]. exact IH.
Qed.

Lemma canon_segment_push st seg :
  Forall seg_ok st -> zlen (buf_of st) + zlen seg + 1 < PATH_MAX ->
  canon_segment (buf_of st) seg = Some (buf_of (push st seg)).
Proof.
  intros Hst Hlen. unfold canon_segment, push. case_bool_decide; [done|]. case_bool_decide.
  - f_equal. destruct st as [|s st]; [done|]. apply Forall_cons in Hst as [[_ Hs] _].
    rewrite buf_cons_len. pose proof (buf_pos st). pose proof (zlen_nonneg s).
    destruct (Z.ltb_spec 1 (zlen (buf_of st) + zlen s + 1)); [|lia]. cbn [tail buf_of].
    by apply drop_segment_buf, Forall_rev.
  - by destruct (Z.leb_spec PATH_MAX (zlen (buf_of st) + zlen seg + 1)); [lia|].
Qed.

Lemma push_ok st seg : Forall seg_ok st -> seg_ok seg -> Forall seg_ok (push st seg).
Proof.
  intros Hst Hs. unfold push. case_bool_decide; [done|]. case_bool_decide; [|by constructor].
  destruct st; [done|]. by apply Forall_cons in Hst as [].
Qed.

Lemma push_len st seg : seg_ok seg -> zlen (buf_of (push st seg)) <= zlen (buf_of st) + zlen seg + 1.
Proof.
  intros Hs. pose proof (zlen_nonneg seg). unfold push. case_bool_decide; [lia|]. case_bool_decide.
  - destruct st as [|s st]; [simpl; lia|]. rewrite buf_cons_len. pose proof (zlen_nonneg s). simpl. lia.
  - by rewrite buf_cons_len.
Qed.

(** The loop pushes every segment, and the buffer stays below the bound. *)
Lemma canon_loop_spec fuel st inp n :
  (length inp < fuel)%nat -> Forall seg_ok st ->
  zlen (buf_of st) <= n + 1 -> (skip_slashes inp <> [] -> zlen (buf_of st) + zlen (skip_slashes inp) <= n) ->
  n < PATH_MAX - 1 ->
  exists st', canon_loop fuel (buf_of st) inp = buf_of st' /\ st' = foldl push st (segments inp) /\
    Forall seg_ok st' /\ zlen (buf_of st') <= n + 1.
Proof.
  revert st inp. induction fuel as [|f IH]; intros st inp Hf Hst Hb Hn HM; [lia|].
  cbn [canon_loop]. rewrite <-(segments_skip inp).
  pose proof (skip_length inp) as Hl. pose proof (skip_head inp) as Hh.
  destruct (skip_slashes inp) as [|c l] eqn:E; [by exists st|].
  specialize (Hn ltac:(done)). destruct (segment (c :: l)) as [seg rest] eqn:Es.
  apply segment_spec in Es as (Hcl & Hseg & Hrest).
  assert (Hok : seg_ok seg).
  { split; [|done]. intros ->. destruct rest as [|c' r]; [done|]. simpl in Hcl. simplify_eq. congruence. }
  rewrite Hcl in *. rewrite segments_cons by done. cbn [foldl].
  rewrite zlen_app in Hn. rewrite length_app in Hl. pose proof (zlen_nonneg rest).
  rewrite canon_segment_push by (done || lia).
  pose proof (push_len st seg Hok) as Hp.
  apply IH; [|by apply push_ok|lia| |done].
  - destruct Hok as [Hne _]. destruct seg; [done|]. simpl in Hl. lia.
  - intros Hr. destruct rest as [|c' r]; [done|]. cbn [skip_slashes]. rewrite Hrest.
    rewrite zlen_cons in Hn. pose proof (skip_length r). unfold zlen in *. lia.
Qed.

Lemma rev_buf st : rev (buf_of st) = concat (map (cons slash) (rev st)) ++ [slash].
Proof.
  induction st as [|s st IH]; [done|]. cbn [buf_of rev]. rewrite rev_app_distr, rev_involutive, IH.
  rewrite map_app, concat_app. simpl. rewrite app_nil_r, <-!app_assoc. done.
Qed.

Lemma buf_render st :
  rev (if (1 <? zlen (buf_of st)) && match buf_of st with c :: _ => is_slash c | [] => false end
       then tail (buf_of st) else buf_of st) = render (rev st).
Proof.
  destruct st as [|s st]; [done|].
  rewrite buf_cons_len. pose proof (buf_pos st). pose proof (zlen_nonneg s).
  destruct (Z.ltb_spec 1 (zlen (buf_of st) + zlen s + 1)); [|lia]. cbn [andb].
  pose proof (rev_buf (s :: st)) as Hr. cbn [buf_of] in Hr |- *. simpl is_slash. cbn [tail]. cbn [rev] in Hr.
  apply app_inv_tail in Hr. rewrite Hr.
  unfold render. by destruct (rev st ++ [s]) eqn:E; [destruct (rev st)|cbn [rev]; rewrite E].
Qed.

Lemma canon_render p :
  is_abs p = true -> zlen p < PATH_MAX - 1 ->
  canon_abs_path p = render (normal p) /\ zlen (render (normal p)) <= zlen p /\ Forall seg_ok (foldl push [] (segments p)).
Proof.
  destruct p as [|c inp]; [done|]. intros Hc Hlen. cbn [is_abs] in Hc. cbn [canon_abs_path]. rewrite Hc.
  apply is_slash_eq in Hc as ->. rewrite zlen_cons in *.
  destruct (canon_loop_spec (S (length inp)) [] inp (zlen inp + 1)) as (st & H1 & H2 & H3 & H4).
  { lia. } { constructor. } { unfold zlen. cbn [buf_of length]. lia. }
  { intros _. pose proof (skip_length inp). unfold zlen. cbn [buf_of length]. lia. } { lia. }
  cbn [buf_of] in H1. rewrite H1. rewrite segments_slash, <-H2. unfold normal. rewrite segments_slash, <-H2, buf_render.
  split_and!; [done| |done]. destruct st as [|s st].
  - simpl. unfold zlen. simpl. lia.
  - assert (E : render (rev (s :: st)) ++ [slash] = rev (buf_of (s :: st))).
    { rewrite rev_buf. unfold render. destruct (rev (s :: st)) eqn:Er; [|done].
      apply (f_equal length) in Er. rewrite length_rev in Er. done. }
    apply (f_equal zlen) in E. rewrite zlen_app, zlen_rev in E. change (zlen [slash]) with 1 in E. lia.
Qed.

Lemma push_clean st segs :
  Forall seg_clean st -> Forall seg_ok segs -> Forall seg_clean (foldl push st segs).
Proof.
  intros Hst Hs. revert st Hst. induction Hs as [|s segs Hs _ IH]; intros st Hst; [done|]. cbn [foldl]. apply IH.
  unfold push. case_bool_decide; [done|]. case_bool_decide.
  - destruct st; [done|]. by apply Forall_cons in Hst as [].
  - by constructor.
Qed.

Lemma push_all_clean st segs : Forall seg_clean segs -> foldl push st segs = rev segs ++ st.
Proof.
  intros Hs. revert st. induction Hs as [|s segs Hs _ IH]; intros st; [done|]. cbn [foldl rev]. rewrite IH, <-app_assoc.
  destruct Hs as (_ & H1 & H2). unfold push. by rewrite !bool_decide_false.
Qed.

Lemma split_ok l : Forall (Forall (fun c => is_slash c = false)) (split l).
Proof.
  induction l as [|c l IH]; simpl; [by repeat constructor|]. destruct (is_slash c) eqn:E; [by constructor|].
  destruct (split l) as [|s r]; [by repeat constructor|]. apply Forall_cons in IH as []. by repeat constructor.
Qed.

Lemma segments_ok l : Forall seg_ok (segments l).
Proof.
  apply Forall_forall. intros s Hs. apply list_elem_of_filter in Hs as [Hne Hs].
  pose proof (split_ok l) as H. rewrite Forall_forall in H. split; [done|]. by apply H.
Qed.

Lemma segments_render segs : Forall seg_ok segs -> segments (render segs) = segs.
Proof.
  destruct segs as [|s0 segs0]; [done|]. unfold render. generalize (s0 :: segs0). clear s0 segs0.
  induction 1 as [|s segs Hs Hall IH]; [done|]. simpl.
  change (segments (slash :: s ++ ?r)) with (segments (s ++ r)).
  rewrite segments_cons; [by rewrite IH|done|]. by destruct segs.
Qed.

Lemma normal_clean p : Forall seg_clean (normal p).
Proof. apply Forall_rev, push_clean; [constructor|apply segments_ok]. Qed.

Lemma clean_ok l : Forall seg_clean l -> Forall seg_ok l.
Proof. intros H. eapply Forall_impl; [exact H|]. by intros s []. Qed.

(** C24: For an absolute path that fits, [canon_abs_path] is the normal form of
    its segments: no empty, [.] or [..] segment and no trailing slash is left,
    it is no longer than its input, and canonicalising again changes nothing. *)
Theorem canon_abs_path_normal_form p :
  is_abs p = true -> zlen p < PATH_MAX - 1 ->
  let q := canon_abs_path p in
  q = render (normal p) /\ segments q = normal p /\ Forall seg_clean (segments q) /\
  zlen q <= zlen p /\ is_abs q = true /\ canon_abs_path q = q.
Proof.
  intros Ha Hl q. destruct (canon_render p Ha Hl) as (Hq & Hlen & _). fold q in Hq.
  pose proof (normal_clean p) as Hc.
  assert (Hs : segments q = normal p) by (rewrite Hq; by apply segments_render, clean_ok).
  assert (Hqa : is_abs q = true) by (rewrite Hq; unfold render; by destruct (normal p)).
  split_and!; [done|done|by rewrite Hs|by rewrite Hq|done|].
  destruct (canon_render q Hqa) as (-> & _ & _); [rewrite Hq; lia|].
  unfold normal at 1. rewrite Hs, push_all_clean by done. by rewrite app_nil_r, rev_involutive, <-Hq.
Qed.

(** * Witness *)

Definition demo_path : path := String.list_ascii_of_string "/a//b/../c/./d/".

Lemma canon_abs_path_normal_form_witness :
  canon_abs_path demo_path = String.list_ascii_of_string "/a/c/d" /\ canon_abs_path (canon_abs_path demo_path) = canon_abs_path demo_path.
Proof.
  split; [by vm_compute|].
  exact (proj2 (proj2 (proj2 (proj2 (proj2 (canon_abs_path_normal_form demo_path eq_refl ltac:(by vm_compute))))))).
Defined.
