(* ===== verification/FdTable.v ===== *)
(** The descriptor table of a guest process (src/src/yos/impl/io/io.c,
    impl/libc/posix.c): allocation, assignment, closing, duplication, fork, the
    descriptors opened by path, and the translation of commands and flags.

    The guests of a runtime are threads of one host process, so their tables
    name descriptors of one host table: the host's open set is part of the
    state, and what a host call answers is an argument of the operation. *)
From stdpp Require Import gmap.
From S2P Require Import Prelude Memory Ctx Path.

Definition YOS_FD_MAX : Z := 256.
Definition YOS_FBSD_AT_FDCWD : Z := -100.
Definition YOS_FD_FCLOSE_TOMB : Z := -2.

Record fd_ctx : Type := FdCtx {
  f_exec : exec_ctx;
  fds : list Z;
  fd_paths : list (option path);
  cwd : path;
  fd_table_inited : bool;
}.

Definition set_f_exec (v : exec_ctx) (c : fd_ctx) : fd_ctx :=
  FdCtx v (fds c) (fd_paths c) (cwd c) (fd_table_inited c).
Definition set_cwd (v : path) (c : fd_ctx) : fd_ctx :=
  FdCtx (f_exec c) (fds c) (fd_paths c) v (fd_table_inited c).
Definition set_slot (i : nat) (h : Z) (p : option path) (c : fd_ctx) : fd_ctx :=
  FdCtx (f_exec c) (<[i := h]> (fds c)) (<[i := p]> (fd_paths c)) (cwd c) (fd_table_inited c).

(** The host's open descriptors, every [close] issued so far, and a table. *)
Record world : Type := World {
  host_open : gset Z;
  closes : list Z;
  tab : fd_ctx;
}.

Definition upd_tab (f : fd_ctx -> fd_ctx) (w : world) : world := World (host_open w) (closes w) (f (tab w)).

(** A host call created [h]. *)
Definition host_opened (h : Z) (w : world) : world :=
  if h <? 0 then w else World ({[h]} ∪ host_open w) (closes w) (tab w).

Definition slot_fd (c : fd_ctx) (wfd : Z) : Z := default (-1) (fds c !! Z.to_nat wfd).
Definition slot_path (c : fd_ctx) (wfd : Z) : option path := default None (fd_paths c !! Z.to_nat wfd).

Section FdTable.

Variable remap_errno_h2g : Z -> Z.

(** What the host's [close] of a descriptor answers, and its errno. *)
Variable close_rc : Z -> Z.
Variable close_errno : Z -> Z.

Definition yos_plat_close (h : Z) (w : world) : world :=
  World (host_open w ∖ {[h]}) (closes w ++ [h]) (tab w).

Definition fd_errno (w : world) (e : Z) : Z * world :=
  let '(r, x) := errno_neg remap_errno_h2g (f_exec (tab w)) e in (r, upd_tab (set_f_exec x) w).

Definition fd_errno_check (w : world) (rc e : Z) : Z * world :=
  if rc <? 0 then fd_errno w e else (rc, w).

(** [dups i]: the answer of [fcntl(i, F_DUPFD, 3)]. *)
Definition yos_fd_table_init (dups : Z -> Z) (w : world) : world :=
  let c := tab w in
  if fd_table_inited c then w
  else
    let w0 := upd_tab (fun _ => FdCtx (f_exec c) (replicate 256 (-1)) (fd_paths c) (cwd c) true) w in
    foldl (fun r i =>
             let d := dups i in
             upd_tab (fun t => FdCtx (f_exec t) (<[Z.to_nat i := if 0 <=? d then d else i]> (fds t)) (fd_paths t) (cwd t) true)
               (host_opened d r)) w0 (seqZ 0 3).

Definition yos_fd_get (w : world) (wfd : Z) : Z * world :=
  if (wfd =? AT_FDCWD) || (wfd =? YOS_FBSD_AT_FDCWD) then (AT_FDCWD, w)
  else if (wfd <? 0) || (YOS_FD_MAX <=? wfd) then fd_errno w EBADF
  else
    let hfd := slot_fd (tab w) wfd in
    if hfd <? 0 then fd_errno w EBADF else (hfd, w).

Definition yos_xlate_dfd (w : world) (wfd : Z) : Z * world := yos_fd_get w wfd.

Definition yos_fd_translate (w : world) (fd : Z) : Z * world :=
  let '(hfd, w1) := yos_fd_get w fd in (if hfd <? 0 then fd else hfd, w1).

(** The lowest slot that holds exactly -1. *)
Definition free_slot (l : list Z) : option nat := fst <$> list_find (fun h => h = -1) l.

Definition yos_fd_alloc (w : world) (host_fd : Z) : Z * world :=
  if host_fd <? 0 then (host_fd, w)
  else match free_slot (fds (tab w)) with
       | Some i => (Z.of_nat i, upd_tab (set_slot i host_fd None) w)
       | None => (- EMFILE, yos_plat_close host_fd w)
       end.

Definition yos_fd_alloc_with_path (w : world) (host_fd : Z) (p : option path) : Z * world :=
  let '(wfd, w1) := yos_fd_alloc w host_fd in
  match p with
  | Some q =>
      if wfd <? 0 then (wfd, w1)
      else (wfd, upd_tab (fun c => set_slot (Z.to_nat wfd) (slot_fd c wfd) (Some (recorded_path (cwd c) q)) c) w1)
  | None => (wfd, w1)
  end.

Definition yos_fd_assign (w : world) (newfd host_fd : Z) : Z * world :=
  if host_fd <? 0 then (host_fd, w)
  else if (newfd <? 0) || (YOS_FD_MAX <=? newfd) then fd_errno (yos_plat_close host_fd w) EBADF
  else
    let old := slot_fd (tab w) newfd in
    let w1 := if (0 <=? old) && negb (old =? host_fd) then yos_plat_close old w else w in
    (newfd, upd_tab (set_slot (Z.to_nat newfd) host_fd None) w1).

Definition yos_fd_close (w : world) (wfd : Z) : Z * world :=
  if (wfd <? 0) || (YOS_FD_MAX <=? wfd) then fd_errno w EBADF
  else
    let hfd := slot_fd (tab w) wfd in
    if hfd <? 0 then fd_errno w EBADF
    else fd_errno_check (upd_tab (set_slot (Z.to_nat wfd) (-1) None) (yos_plat_close hfd w)) (close_rc hfd) (close_errno hfd).

Definition yos_fd_release_slot (w : world) (wfd : Z) : world :=
  if (wfd <? 0) || (YOS_FD_MAX <=? wfd) then w
  else upd_tab (set_slot (Z.to_nat wfd) YOS_FD_FCLOSE_TOMB None) w.

(** The body of the closing loops. *)
Definition close_slot (w : world) (i : Z) : world :=
  let hfd := slot_fd (tab w) i in
  if hfd <? 0 then w else upd_tab (set_slot (Z.to_nat i) (-1) None) (yos_plat_close hfd w).

Definition yos_closefrom (w : world) (lowfd : Z) : world :=
  let lo := if lowfd <? 0 then 0 else lowfd in
  foldl close_slot w (seqZ lo (YOS_FD_MAX - lo)).

Definition yos_close_range (w : world) (lowfd maxfd flags : Z) : Z * world :=
  if YOS_FD_MAX <=? lowfd then (0, w)
  else
    let hi := if YOS_FD_MAX <=? maxfd then YOS_FD_MAX - 1 else maxfd in
    (0, foldl close_slot w (seqZ lowfd (hi + 1 - lowfd))).

(** [r], [e]: what the host's call answered, and its errno. *)
Definition yos_dup (w : world) (wfd r e : Z) : Z * world :=
  let '(hfd, w1) := yos_fd_get w wfd in
  if hfd <? 0 then fd_errno w1 EBADF
  else if r <? 0 then fd_errno w1 e
  else
    let '(new_wfd, w2) := yos_fd_alloc (host_opened r w1) r in
    if new_wfd <? 0 then fd_errno (yos_plat_close r w2) EMFILE
    else
      match slot_path (tab w2) wfd with
      | Some p => (new_wfd, upd_tab (fun c => set_slot (Z.to_nat new_wfd) (slot_fd c new_wfd) (Some p) c) w2)
      | None => (new_wfd, w2)
      end.

(** [dup2] and [dup3] after the host's duplicate: assign, and carry the path. *)
Definition dup_assign (w : world) (oldfd newfd host_new : Z) : Z * world :=
  let carry := if (0 <=? oldfd) && (oldfd <? YOS_FD_MAX) then slot_path (tab w) oldfd else None in
  let '(r, w1) := yos_fd_assign (host_opened host_new w) newfd host_new in
  match carry with
  | Some p => if 0 <=? r then (r, upd_tab (fun c => set_slot (Z.to_nat r) (slot_fd c r) (Some p) c) w1) else (r, w1)
  | None => (r, w1)
  end.

Definition yos_dup2 (w : world) (oldfd newfd r e : Z) : Z * world :=
  let '(host_old, w1) := yos_fd_get w oldfd in
  if host_old <? 0 then (host_old, w1)
  else if oldfd =? newfd then (newfd, w1)
  else if r <? 0 then fd_errno w1 e
  else dup_assign w1 oldfd newfd r.

Definition F_DUPFD : Z := 0.
Definition F_DUPFD_CLOEXEC : Z := 1030.
Definition O_CLOEXEC : Z := 524288.

(** [ans]: the answer of [fcntl(host_old, cmd, 0)] for each command. *)
Definition yos_dup3 (w : world) (oldfd newfd flags : Z) (ans : Z -> Z) (e : Z) : Z * world :=
  let '(host_old, w1) := yos_fd_get w oldfd in
  if host_old <? 0 then (host_old, w1)
  else if oldfd =? newfd then fd_errno w1 EINVAL
  else
    let r := ans (if Z.land flags O_CLOEXEC =? 0 then F_DUPFD else F_DUPFD_CLOEXEC) in
    if r <? 0 then fd_errno w1 e else dup_assign w1 oldfd newfd r.

(** [pipe(hfds)] answered [h0], [h1]; a negative [h0] is a failure. *)
Definition yos_pipe (w : world) (fildes h0 h1 e : Z) : Z * world :=
  if (fildes =? 0) || (memory_size (f_exec (tab w)) <=? fildes) then fd_errno w EFAULT
  else if h0 <? 0 then fd_errno w e
  else
    let '(r, w1) := yos_fd_alloc (host_opened h1 (host_opened h0 w)) h0 in
    if r <? 0 then (r, yos_plat_close h1 w1)
    else
      let '(x, w2) := yos_fd_alloc w1 h1 in
      if x <? 0 then (x, (yos_fd_close w2 r).2)
      else (0, upd_tab (fun c => set_f_exec (set_mem (st32 (st32 (mem (f_exec c)) fildes r) (fildes + 4) x) (f_exec c)) c) w2).

(** [ans h]: the answer of the host's duplicate of [h]. *)
Definition fork_slot (ans : Z -> Z) (phfd : Z) : Z :=
  if phfd <? 0 then -1 else if 0 <=? ans phfd then ans phfd else -1.

Definition yos_fd_fork_dup (ans : Z -> Z) (child parent : fd_ctx) : fd_ctx :=
  FdCtx (f_exec child) (map (fork_slot ans) (fds parent))
    (zip_with (fun h p => if h <? 0 then None else p) (fds parent) (fd_paths parent))
    (cwd child) (fd_table_inited child).

(** * Opening by path *)

Definition yos_open_host (w : world) (s : path) (r e : Z) : Z * world :=
  if r <? 0 then fd_errno w e else yos_fd_alloc_with_path (host_opened r w) r (Some s).

Definition yos_creat (translate_path : path -> path) (w : world) (s : path) (r e : Z) : Z * world :=
  yos_open_host w (yos_path_resolve translate_path (cwd (tab w)) s) r e.

(** [yos_openat] past the mount table. *)
Definition yos_openat (translate_path : path -> path) (w : world) (dfd : Z) (path_in : path) (r e : Z) : Z * world :=
  let '(host_dfd, w1) := if dfd =? AT_FDCWD then (AT_FDCWD, w) else yos_fd_get w dfd in
  if (host_dfd <? 0) && negb (host_dfd =? AT_FDCWD) then (host_dfd, w1)
  else
    let p := yos_path_resolve_at translate_path (cwd (tab w1)) host_dfd path_in in
    if r <? 0 then fd_errno w1 e
    else
      let record :=
        if is_abs p then p
        else if (dfd =? YOS_FBSD_AT_FDCWD) || (dfd =? AT_FDCWD) then p
        else match (if (0 <=? dfd) && (dfd <? YOS_FD_MAX) then slot_path (tab w1) dfd else None) with
             | Some base => openat_join base p
             | None => p
             end in
      let '(wfd, w2) := yos_fd_alloc_with_path (host_opened r w1) r (Some record) in
      if wfd <? 0 then (wfd, yos_plat_close r w2) else (wfd, w2).

(** * The tracked directory *)

Definition ENOTDIR : Z := 20.

(** [st]: what stat answered, an errno or whether it is a directory. *)
Definition yos_chdir (w : world) (s : path) (st : Z + bool) : Z * world :=
  match st with
  | inl e => fd_errno w e
  | inr false => fd_errno w ENOTDIR
  | inr true => (0, upd_tab (fun c => set_cwd (chdir_cwd (cwd c) s) c) w)
  end.

Definition yos_fchdir (w : world) (wfd : Z) (st : Z + bool) : Z * world :=
  let '(hfd, w1) := yos_fd_get w wfd in
  if hfd <? 0 then fd_errno w1 EBADF
  else match st with
       | inl e => fd_errno w1 e
       | inr false => fd_errno w1 ENOTDIR
       | inr true =>
           match (if (0 <=? wfd) && (wfd <? YOS_FD_MAX) then slot_path (tab w1) wfd else None) with
           | Some p => (0, upd_tab (set_cwd (clip p)) w1)
           | None => (0, w1)
           end
       end.

End FdTable.
