(* ===== verification/FdProps.v ===== *)
(** The descriptor tables: every host descriptor has one owner, no operation
    leaks a descriptor or closes one that is not its own, and what allocation,
    dup2, tombstones and the tracked directory do on every branch. *)
From stdpp Require Import gmap.
From S2P Require Import Prelude Memory Ctx Path PathProps FdTable.

(** * Ownership *)

(** The host descriptors a table names. *)
Definition owned (c : fd_ctx) : gset Z := list_to_set (filter (fun h => 0 <= h) (fds c)).

Lemma elem_of_owned c h : h ∈ owned c <-> 0 <= h /\ exists i, fds c !! i = Some h.
Proof.
  unfold owned. rewrite elem_of_list_to_set, list_elem_of_filter, list_elem_of_lookup. done.
Qed.

Record tab_ok (c : fd_ctx) : Prop := {
  tk_len : length (fds c) = 256%nat;
  tk_plen : length (fd_paths c) = 256%nat;
  tk_inj : forall i j h, fds c !! i = Some h -> fds c !! j = Some h -> 0 <= h -> i = j
}.

Record world_ok (w : world) : Prop := {
  wk_tab : tab_ok (tab w);
  wk_open : owned (tab w) ⊆ host_open w
}.

(** The open descriptors that are somebody else's. *)
Definition others (w : world) : gset Z := host_open w ∖ owned (tab w).

(** An operation that keeps the books: the table stays well formed, and no
    descriptor outside it is opened or closed. *)
Definition keeps (w w' : world) : Prop := world_ok w' /\ others w' = others w.

Lemma slot_lookup c i : tab_ok c -> 0 <= i < 256 -> fds c !! Z.to_nat i = Some (slot_fd c i).
Proof.
  intros [Hl _ _] Hi. unfold slot_fd. destruct (fds c !! Z.to_nat i) eqn:E; [done|].
  apply lookup_ge_None in E. lia.
Qed.

Lemma set_slot_ok c i h p :
  tab_ok c -> (0 <= h -> forall j, fds c !! j = Some h -> j = i) -> tab_ok (set_slot i h p c).
Proof.
  intros [L P I] Hh. split; simpl; [by rewrite length_insert..|].
  intros j k g Hj Hk Hg. destruct (decide (i = j)) as [<-|], (decide (i = k)) as [<-|]; [done| | |].
  - assert (is_Some (fds c !! i)) as [x Hx].
    { apply lookup_lt_is_Some. apply lookup_lt_Some in Hj. by rewrite length_insert in Hj. }
    rewrite list_lookup_insert_eq in Hj by (by eapply lookup_lt_Some). rewrite list_lookup_insert_ne in Hk by done.
    simplify_eq. symmetry. by apply Hh.
  - assert (is_Some (fds c !! i)) as [x Hx].
    { apply lookup_lt_is_Some. apply lookup_lt_Some in Hk. by rewrite length_insert in Hk. }
    rewrite list_lookup_insert_eq in Hk by (by eapply lookup_lt_Some). rewrite list_lookup_insert_ne in Hj by done.
    simplify_eq. by apply Hh.
  - rewrite list_lookup_insert_ne in Hj, Hk by done. by eapply I.
Qed.

Lemma owned_set_slot c i old h p :
  tab_ok c -> fds c !! i = Some old ->
  owned (set_slot i h p c) = (owned c ∖ {[old]}) ∪ (if 0 <=? h then {[h]} else ∅).
Proof.
  intros [L P I] Ho. apply set_eq. intros g. rewrite elem_of_union, elem_of_difference, !elem_of_owned, elem_of_singleton.
  assert (Hi : (i < length (fds c))%nat) by (by eapply lookup_lt_Some).
  transitivity (0 <= g /\ ((exists j, j <> i /\ fds c !! j = Some g) \/ g = h)).
  { simpl. split.
    - intros [Hg [j Hj]]. split; [done|]. destruct (decide (j = i)) as [->|].
      + rewrite list_lookup_insert_eq in Hj by done. simplify_eq. by right.
      + rewrite list_lookup_insert_ne in Hj by done. left. by exists j.
    - intros [Hg [(j & Hj & Hl)| ->]]; (split; [done|]).
      + exists j. by rewrite list_lookup_insert_ne.
      + exists i. by rewrite list_lookup_insert_eq. }
  split.
  - intros [Hg [(j & Hj & Hl)| ->]].
    + left. split; [split; [done|by exists j]|]. intros ->. apply Hj. by eapply I.
    + right. destruct (Z.leb_spec 0 h); [set_solver|lia].
  - intros [[[Hg [j Hl]] Hne]|Hg].
    + split; [done|]. left. exists j. split; [intros ->; by simplify_eq|done].
    + destruct (Z.leb_spec 0 h); [|set_solver]. apply elem_of_singleton in Hg as ->. split; [done|by right].
Qed.

Lemma keeps_refl w : world_ok w -> keeps w w.
Proof. done. Qed.

Lemma keeps_trans w1 w2 w3 : keeps w1 w2 -> keeps w2 w3 -> keeps w1 w3.
Proof. intros [_ E] [H E']. split; [done|by rewrite E', E]. Qed.

(** Operations that touch neither the slots nor the host. *)
Lemma keeps_same w w' :
  world_ok w -> host_open w' = host_open w -> fds (tab w') = fds (tab w) ->
  length (fd_paths (tab w')) = length (fd_paths (tab w)) -> keeps w w'.
Proof.
  intros [[L P I] O] Hh Hf Hp. assert (Ho : owned (tab w') = owned (tab w)) by (unfold owned; by rewrite Hf).
  split; [split; [split|]|].
  - by rewrite Hf. - by rewrite Hp. - by rewrite Hf. - by rewrite Ho, Hh. - unfold others. by rewrite Ho, Hh.
Qed.

Lemma fd_errno_tab h2g w e :
  host_open (fd_errno h2g w e).2 = host_open w /\ fds (tab (fd_errno h2g w e).2) = fds (tab w) /\
  fd_paths (tab (fd_errno h2g w e).2) = fd_paths (tab w) /\ cwd (tab (fd_errno h2g w e).2) = cwd (tab w) /\
  closes (fd_errno h2g w e).2 = closes w /\ (fd_errno h2g w e).1 = -1.
Proof. by split_and!. Qed.

Lemma keeps_errno h2g w e : world_ok w -> keeps w (fd_errno h2g w e).2.
Proof. intros H. by apply keeps_same. Qed.

Lemma keeps_path w i p : world_ok w -> 0 <= i < 256 -> keeps w (upd_tab (fun c => set_slot (Z.to_nat i) (slot_fd c i) p c) w).
Proof.
  intros H Hi. apply keeps_same; [done|done| |simpl; apply length_insert]. simpl.
  apply list_insert_id. apply slot_lookup; [apply H|done].
Qed.

Lemma keeps_close_slot w i hfd :
  world_ok w -> 0 <= i < 256 -> slot_fd (tab w) i = hfd -> 0 <= hfd ->
  forall v, v < 0 -> keeps w (upd_tab (set_slot (Z.to_nat i) v None) (yos_plat_close hfd w)).
Proof.
  intros [T O] Hi Hs Hh v Hv. pose proof (slot_lookup _ _ T Hi) as Hl. rewrite Hs in Hl.
  assert (Ho : owned (set_slot (Z.to_nat i) v None (tab w)) = owned (tab w) ∖ {[hfd]}).
  { rewrite (owned_set_slot _ _ hfd) by done. destruct (Z.leb_spec 0 v); [lia|]. set_solver. }
  split; [split|]; simpl.
  - apply set_slot_ok; [done|lia].
  - rewrite Ho. set_solver.
  - unfold others. simpl. rewrite Ho. assert (hfd ∈ owned (tab w)) by (apply elem_of_owned; by eauto).
    apply set_eq. intros x. rewrite !elem_of_difference, elem_of_singleton. destruct (decide (x = hfd)) as [->|]; set_solver.
Qed.

(** Taking over a descriptor that nobody owned. *)
Lemma take_slot w i old h p :
  world_ok w -> (i < 256)%nat -> fds (tab w) !! i = Some old -> 0 <= h -> h ∈ others w ->
  let w1 := if 0 <=? old then yos_plat_close old w else w in
  world_ok (upd_tab (set_slot i h p) w1) /\ others (upd_tab (set_slot i h p) w1) = others w ∖ {[h]}.
Proof.
  intros [T O] Hi Hl Hh Ho w1. unfold others in Ho. apply elem_of_difference in Ho as [Hop Hnot].
  assert (Htab : tab w1 = tab w) by (unfold w1; by destruct (0 <=? old)).
  assert (How : owned (set_slot i h p (tab w)) = (owned (tab w) ∖ {[old]}) ∪ {[h]}).
  { rewrite (owned_set_slot _ _ old) by done. by destruct (Z.leb_spec 0 h); [|lia]. }
  assert (Hold : 0 <= old -> old ∈ owned (tab w)) by (intros; apply elem_of_owned; by eauto).
  assert (Hneg : old < 0 -> old ∉ owned (tab w)) by (intros ? []%elem_of_owned; lia).
  assert (Hopen : host_open w1 = if 0 <=? old then host_open w ∖ {[old]} else host_open w) by (unfold w1; by destruct (0 <=? old)).
  split; [split|]; simpl; rewrite ?Htab.
  - apply set_slot_ok; [done|]. intros _ j Hj. exfalso. apply Hnot, elem_of_owned. by eauto.
  - rewrite How, Hopen. destruct (Z.leb_spec 0 old); [|set_solver]. specialize (Hold ltac:(done)).
    assert (h <> old) by (intros ->; done). set_solver.
  - unfold others. simpl. rewrite Htab, How, Hopen. apply set_eq. intros x.
    destruct (Z.leb_spec 0 old) as [H0|H0].
    + specialize (Hold H0). destruct (decide (x = old)), (decide (x = h)); set_solver.
    + specialize (Hneg H0). destruct (decide (x = old)), (decide (x = h)); set_solver.
Qed.

Lemma free_slot_spec l i :
  free_slot l = Some i -> l !! i = Some (-1) /\ forall j h, (j < i)%nat -> l !! j = Some h -> h <> -1.
Proof.
  unfold free_slot. destruct (list_find _ l) as [[k h]|] eqn:E; [|done]. intros [= <-].
  apply list_find_Some in E as (H1 & -> & H2). split; [done|]. intros j h Hj Hl. by eapply H2.
Qed.

Lemma free_slot_None l : free_slot l = None -> Forall (fun h => h <> -1) l.
Proof.
  unfold free_slot. destruct (list_find _ l) as [[k h]|] eqn:E; [done|]. intros _. by apply list_find_None in E.
Qed.

Lemma close_other w h :
  world_ok w -> h ∈ others w ->
  world_ok (yos_plat_close h w) /\ others (yos_plat_close h w) = others w ∖ {[h]}.
Proof.
  unfold others. intros [T O] [H1 H2]%elem_of_difference. split; [split; [done|]|]; simpl; set_solver.
Qed.

Lemma alloc_keeps w h :
  world_ok w -> h ∈ others w -> 0 <= h ->
  world_ok (yos_fd_alloc w h).2 /\ others (yos_fd_alloc w h).2 = others w ∖ {[h]}.
Proof.
  intros Hw Ho Hh. unfold yos_fd_alloc. destruct (Z.ltb_spec h 0); [lia|].
  destruct (free_slot (fds (tab w))) as [i|] eqn:E; simpl.
  - apply free_slot_spec in E as [Hl _]. pose proof (lookup_lt_Some _ _ _ Hl) as Hi.
    rewrite (tk_len _ (wk_tab _ Hw)) in Hi. by apply (take_slot w i (-1)).
  - by apply close_other.
Qed.

Lemma alloc_range w h : world_ok w -> 0 <= h -> (yos_fd_alloc w h).1 < 0 \/ 0 <= (yos_fd_alloc w h).1 < 256.
Proof.
  intros Hw Hh. unfold yos_fd_alloc. destruct (Z.ltb_spec h 0); [lia|].
  destruct (free_slot (fds (tab w))) as [i|] eqn:E; simpl; [right|left; unfold EMFILE; lia].
  apply free_slot_spec in E as [Hl _]. apply lookup_lt_Some in Hl. rewrite (tk_len _ (wk_tab _ Hw)) in Hl. lia.
Qed.

Lemma assign_keeps h2g w newfd h :
  world_ok w -> h ∈ others w -> 0 <= h ->
  world_ok (yos_fd_assign h2g w newfd h).2 /\ others (yos_fd_assign h2g w newfd h).2 = others w ∖ {[h]}.
Proof.
  intros Hw Ho Hh. unfold yos_fd_assign. destruct (Z.ltb_spec h 0); [lia|].
  assert (Hne : forall i, slot_fd (tab w) i <> h).
  { intros i <-. unfold others in Ho. apply elem_of_difference in Ho as [_ Hn]. apply Hn, elem_of_owned. split; [done|].
    unfold slot_fd in *. destruct (fds (tab w) !! Z.to_nat i) eqn:E; [by eauto|simpl in Hh; lia]. }
  unfold YOS_FD_MAX. destruct (Z.ltb_spec newfd 0); [|destruct (Z.leb_spec 256 newfd)]; cbn [orb].
  - destruct (close_other w h Hw Ho) as [Hc1 Hc2]. destruct (keeps_errno h2g _ EBADF Hc1) as [K1 K2]. by rewrite K2.
  - destruct (close_other w h Hw Ho) as [Hc1 Hc2]. destruct (keeps_errno h2g _ EBADF Hc1) as [K1 K2]. by rewrite K2.
  - destruct (Z.eqb_spec (slot_fd (tab w) newfd) h) as [He|_]; [by destruct (Hne newfd)|]. cbn [negb snd]. rewrite andb_true_r.
    apply (take_slot w (Z.to_nat newfd) (slot_fd (tab w) newfd)); [done|lia| |done|done].
    apply slot_lookup; [apply Hw|lia].
Qed.

Lemma opened_others w r :
  world_ok w -> 0 <= r -> r ∉ host_open w ->
  world_ok (host_opened r w) /\ others (host_opened r w) = others w ∪ {[r]} /\ r ∈ others (host_opened r w).
Proof.
  intros [T O] Hr Hn. unfold host_opened. destruct (Z.ltb_spec r 0); [lia|]. unfold others.
  split; [split; simpl; [done|set_solver]|]. simpl. split; set_solver.
Qed.
