(* ===== verification/FdThms.v ===== *)
(** Theorems on the descriptor tables of a whole runtime. *)
From stdpp Require Import gmap.
From S2P Require Import Prelude Memory Ctx Path PathProps FdTable FdProps.

(** A host call that creates descriptors answers an error or a fresh one. *)
Definition fresh_answer (w : world) (r : Z) : Prop := r < 0 \/ r ∉ host_open w.

Section Steps.
Variable remap_errno_h2g : Z -> Z.
Variable close_rc close_errno : Z -> Z.
Variable translate_path : path -> path.

Local Abbreviation fd_close := (yos_fd_close remap_errno_h2g close_rc close_errno).

(** One call of a guest on its own table. *)
Inductive fd_op (w : world) : world -> Prop :=
| op_open s r e : fresh_answer w r -> fd_op w (yos_open_host remap_errno_h2g w s r e).2
| op_creat s r e : fresh_answer w r -> fd_op w (yos_creat remap_errno_h2g translate_path w s r e).2
| op_openat d s r e : fresh_answer w r -> fd_op w (yos_openat remap_errno_h2g translate_path w d s r e).2
| op_dup fd r e : fresh_answer w r -> fd_op w (yos_dup remap_errno_h2g w fd r e).2
| op_dup2 o n r e : fresh_answer w r -> fd_op w (yos_dup2 remap_errno_h2g w o n r e).2
| op_dup3 o n f ans e : (forall c, fresh_answer w (ans c)) -> fd_op w (yos_dup3 remap_errno_h2g w o n f ans e).2
| op_pipe a h0 h1 e : fresh_answer w h0 -> (0 <= h0 -> 0 <= h1 /\ (h1 ∉ host_open w) /\ h1 <> h0) ->
    fd_op w (yos_pipe remap_errno_h2g close_rc close_errno w a h0 h1 e).2
| op_close fd : fd_op w (fd_close w fd).2
| op_closefrom lo : fd_op w (yos_closefrom w lo)
| op_close_range lo hi f : 0 <= lo -> fd_op w (yos_close_range w lo hi f).2
| op_fclose fd : 0 <= fd < 256 -> 0 <= slot_fd (tab w) fd ->
    fd_op w (yos_fd_release_slot (yos_plat_close (slot_fd (tab w) fd) w) fd)
| op_chdir s st : fd_op w (yos_chdir remap_errno_h2g w s st).2
| op_fchdir fd st : fd_op w (yos_fchdir remap_errno_h2g w fd st).2.

Lemma get_keeps w fd : world_ok w -> keeps w (yos_fd_get remap_errno_h2g w fd).2.
Proof.
  intros Hw. unfold yos_fd_get. destruct (_ || _); [done|]. destruct (_ || _); [by apply keeps_errno|].
  destruct (_ <? 0); [by apply keeps_errno|done].
Qed.

Lemma get_range w fd : 0 <= (yos_fd_get remap_errno_h2g w fd).1 -> 0 <= fd < 256.
Proof.
  unfold yos_fd_get, AT_FDCWD, YOS_FBSD_AT_FDCWD, YOS_FD_MAX. destruct (_ || _); cbn [fst]; [lia|].
  destruct (Z.ltb_spec fd 0); [simpl; lia|]. destruct (Z.leb_spec 256 fd); [simpl; lia|]. lia.
Qed.

Lemma get_open w fd : host_open (yos_fd_get remap_errno_h2g w fd).2 = host_open w.
Proof.
  unfold yos_fd_get. destruct (_ || _); [done|]. destruct (_ || _); [done|]. by destruct (_ <? 0).
Qed.

Lemma difference_undo (X : gset Z) r : r ∉ X -> (X ∪ {[r]}) ∖ {[r]} = X.
Proof. intros Hr. apply set_eq. intros x. destruct (decide (x = r)) as [->|]; set_solver. Qed.

Lemma not_other w r : r ∉ host_open w -> r ∉ others w.
Proof. unfold others. set_solver. Qed.

(** A fresh descriptor, then its allocation. *)
Lemma alloc_fresh_keeps w r :
  world_ok w -> 0 <= r -> r ∉ host_open w -> keeps w (yos_fd_alloc (host_opened r w) r).2.
Proof.
  intros Hw Hr Hn. destruct (opened_others w r Hw Hr Hn) as (H1 & H2 & H3).
  destruct (alloc_keeps _ r H1 H3 Hr) as [H4 H5]. split; [done|]. rewrite H5, H2. by apply difference_undo, not_other.
Qed.

Lemma alloc_path_keeps w r s :
  world_ok w -> 0 <= r -> r ∉ host_open w -> keeps w (yos_fd_alloc_with_path (host_opened r w) r (Some s)).2.
Proof.
  intros Hw Hr Hn. pose proof (alloc_fresh_keeps w r Hw Hr Hn) as K.
  destruct (opened_others w r Hw Hr Hn) as (Hw1 & _ & _).
  pose proof (alloc_range _ r Hw1 Hr) as R. unfold yos_fd_alloc_with_path.
  destruct (yos_fd_alloc (host_opened r w) r) as [wfd w1]. simpl in K, R. destruct (Z.ltb_spec wfd 0); [done|].
  eapply keeps_trans; [exact K|]. cbn [snd].
  change (upd_tab _ w1) with (upd_tab (fun c => set_slot (Z.to_nat wfd) (slot_fd c wfd) (Some (recorded_path (cwd c) s)) c) w1).
  apply (keeps_path w1 wfd (Some (recorded_path (cwd (tab w1)) s))); [apply K|lia].
Qed.

Lemma alloc_path_failed w r s :
  0 <= r -> (yos_fd_alloc_with_path w r (Some s)).1 < 0 ->
  host_open (yos_fd_alloc_with_path w r (Some s)).2 = host_open w ∖ {[r]}.
Proof.
  intros Hr. unfold yos_fd_alloc_with_path, yos_fd_alloc. destruct (Z.ltb_spec r 0); [lia|].
  destruct (free_slot _) as [i|]; simpl; [|done]. destruct (Z.ltb_spec (Z.of_nat i) 0); simpl; lia.
Qed.

(** Closing again what is not open leaves the open set alone. *)
Lemma close_again w w1 r : keeps w w1 -> r ∉ host_open w1 -> keeps w (yos_plat_close r w1).
Proof.
  intros K Hr. eapply keeps_trans; [exact K|]. apply keeps_same; [apply K| |done|done]. simpl.
  apply set_eq. intros x. set_solver.
Qed.

Lemma open_keeps w s r e : world_ok w -> fresh_answer w r -> keeps w (yos_open_host remap_errno_h2g w s r e).2.
Proof.
  intros Hw Hf. unfold yos_open_host. destruct (Z.ltb_spec r 0); [by apply keeps_errno|].
  destruct Hf; [lia|]. by apply alloc_path_keeps.
Qed.

Lemma fresh_same w w1 r : host_open w1 = host_open w -> fresh_answer w r -> 0 <= r -> r ∉ host_open w1.
Proof. intros -> [?|?]; [lia|done]. Qed.

Lemma openat_keeps w d s r e :
  world_ok w -> fresh_answer w r -> keeps w (yos_openat remap_errno_h2g translate_path w d s r e).2.
Proof.
  intros Hw Hf. unfold yos_openat.
  assert (K1 : keeps w (if d =? AT_FDCWD then (AT_FDCWD, w) else yos_fd_get remap_errno_h2g w d).2)
    by (destruct (d =? AT_FDCWD); [done|by apply get_keeps]).
  assert (O1 : host_open (if d =? AT_FDCWD then (AT_FDCWD, w) else yos_fd_get remap_errno_h2g w d).2 = host_open w)
    by (destruct (d =? AT_FDCWD); [done|apply get_open]).
  destruct (if d =? AT_FDCWD then _ else _) as [hd w1]. cbn [snd] in K1, O1.
  destruct (_ && _); [done|]. destruct (Z.ltb_spec r 0); [eapply keeps_trans; [exact K1|apply keeps_errno, K1]|].
  pose proof (fresh_same _ _ _ O1 Hf ltac:(lia)) as Hn.
  set (rec := if is_abs _ then _ else _). pose proof (alloc_path_keeps w1 r rec (proj1 K1) ltac:(lia) Hn) as K2.
  pose proof (alloc_path_failed (host_opened r w1) r rec ltac:(lia)) as F.
  destruct (yos_fd_alloc_with_path _ _ _) as [wfd w2]. cbn [fst snd] in *.
  assert (K : keeps w w2) by (by eapply keeps_trans). destruct (Z.ltb_spec wfd 0); [|done].
  apply close_again; [done|]. rewrite F by done. set_solver.
Qed.

Lemma dup_keeps w fd r e : world_ok w -> fresh_answer w r -> keeps w (yos_dup remap_errno_h2g w fd r e).2.
Proof.
  intros Hw Hf. unfold yos_dup. pose proof (get_keeps w fd Hw) as K1. pose proof (get_open w fd) as O1.
  destruct (yos_fd_get remap_errno_h2g w fd) as [hfd w1]. cbn [snd] in K1, O1.
  destruct (hfd <? 0); [eapply keeps_trans; [exact K1|apply keeps_errno, K1]|].
  destruct (Z.ltb_spec r 0); [eapply keeps_trans; [exact K1|apply keeps_errno, K1]|].
  pose proof (fresh_same _ _ _ O1 Hf ltac:(lia)) as Hn.
  pose proof (alloc_fresh_keeps w1 r (proj1 K1) ltac:(lia) Hn) as K2.
  destruct (opened_others w1 r (proj1 K1) ltac:(lia) Hn) as (Hw2 & _ & _).
  pose proof (alloc_range _ r Hw2 ltac:(lia)) as R.
  assert (F : (yos_fd_alloc (host_opened r w1) r).1 < 0 -> r ∉ host_open (yos_fd_alloc (host_opened r w1) r).2).
  { unfold yos_fd_alloc. destruct (Z.ltb_spec r 0); [lia|]. destruct (free_slot _); simpl; [lia|]. set_solver. }
  destruct (yos_fd_alloc _ _) as [n w2]. cbn [fst snd] in *.
  assert (K : keeps w w2) by (by eapply keeps_trans). destruct (Z.ltb_spec n 0).
  - assert (K3 : keeps w (yos_plat_close r w2)) by (apply close_again; [done|by apply F]).
    eapply keeps_trans; [exact K3|]. apply keeps_errno, K3.
  - destruct (slot_path (tab w2) fd); [|done]. eapply keeps_trans; [exact K|]. apply keeps_path; [apply K|lia].
Qed.

Lemma assign_range h2g w n h : 0 <= h -> 0 <= (yos_fd_assign h2g w n h).1 -> 0 <= (yos_fd_assign h2g w n h).1 < 256.
Proof.
  intros Hh. unfold yos_fd_assign, YOS_FD_MAX. destruct (Z.ltb_spec h 0); [lia|].
  destruct (Z.ltb_spec n 0); [simpl; lia|]. destruct (Z.leb_spec 256 n); simpl; lia.
Qed.

Lemma dup_assign_keeps w o n r :
  world_ok w -> 0 <= r -> r ∉ host_open w -> keeps w (dup_assign remap_errno_h2g w o n r).2.
Proof.
  intros Hw Hr Hn. destruct (opened_others w r Hw Hr Hn) as (H1 & H2 & H3). unfold dup_assign.
  destruct (assign_keeps remap_errno_h2g _ n r H1 H3 Hr) as [H4 H5].
  pose proof (assign_range remap_errno_h2g (host_opened r w) n r Hr) as R.
  destruct (yos_fd_assign _ _ n r) as [x w1]. cbn [fst snd] in *.
  assert (K : keeps w w1) by (split; [done|]; rewrite H5, H2; by apply difference_undo, not_other).
  destruct (if _ && _ then _ else _) as [p|]; [|done]. destruct (Z.leb_spec 0 x); [|done].
  eapply keeps_trans; [exact K|]. apply keeps_path; [done|]. by apply R.
Qed.

Lemma dup2_keeps w o n r e : world_ok w -> fresh_answer w r -> keeps w (yos_dup2 remap_errno_h2g w o n r e).2.
Proof.
  intros Hw Hf. unfold yos_dup2. pose proof (get_keeps w o Hw) as K1. pose proof (get_open w o) as O1.
  destruct (yos_fd_get remap_errno_h2g w o) as [h w1]. cbn [snd] in K1, O1.
  destruct (h <? 0); [done|]. destruct (o =? n); [done|].
  destruct (Z.ltb_spec r 0); [eapply keeps_trans; [exact K1|apply keeps_errno, K1]|].
  eapply keeps_trans; [exact K1|]. apply dup_assign_keeps; [apply K1|done|]. by eapply fresh_same.
Qed.

Lemma dup3_keeps w o n f ans e :
  world_ok w -> (forall c, fresh_answer w (ans c)) -> keeps w (yos_dup3 remap_errno_h2g w o n f ans e).2.
Proof.
  intros Hw Hf. unfold yos_dup3. pose proof (get_keeps w o Hw) as K1. pose proof (get_open w o) as O1.
  destruct (yos_fd_get remap_errno_h2g w o) as [h w1]. cbn [snd] in K1, O1.
  destruct (h <? 0); [done|]. destruct (o =? n); [eapply keeps_trans; [exact K1|apply keeps_errno, K1]|].
  set (c := if _ =? 0 then _ else _). specialize (Hf c).
  destruct (Z.ltb_spec (ans c) 0); [eapply keeps_trans; [exact K1|apply keeps_errno, K1]|].
  eapply keeps_trans; [exact K1|]. apply dup_assign_keeps; [apply K1|done|]. by eapply fresh_same.
Qed.

Lemma close_keeps w fd : world_ok w -> keeps w (fd_close w fd).2.
Proof.
  intros Hw. unfold yos_fd_close, YOS_FD_MAX. destruct (Z.ltb_spec fd 0); [by apply keeps_errno|].
  destruct (Z.leb_spec 256 fd); [by apply keeps_errno|]. cbn [orb].
  destruct (Z.ltb_spec (slot_fd (tab w) fd) 0); [by apply keeps_errno|].
  assert (K : keeps w (upd_tab (set_slot (Z.to_nat fd) (-1) None) (yos_plat_close (slot_fd (tab w) fd) w)))
    by (apply keeps_close_slot; done || lia).
  unfold fd_errno_check. destruct (_ <? 0); [|done]. eapply keeps_trans; [exact K|]. apply keeps_errno, K.
Qed.

Lemma close_slots_keep l w : world_ok w -> Forall (fun i => 0 <= i < 256) l -> keeps w (foldl close_slot w l).
Proof.
  intros Hw Hl. revert w Hw. induction Hl as [|i l Hi _ IH]; intros w Hw; [done|]. cbn [foldl].
  assert (K : keeps w (close_slot w i)).
  { unfold close_slot. destruct (Z.ltb_spec (slot_fd (tab w) i) 0); [done|]. by apply keeps_close_slot. }
  eapply keeps_trans; [exact K|]. apply IH, K.
Qed.

Lemma pipe_keeps w a h0 h1 e :
  world_ok w -> fresh_answer w h0 -> (0 <= h0 -> 0 <= h1 /\ (h1 ∉ host_open w) /\ h1 <> h0) ->
  keeps w (yos_pipe remap_errno_h2g close_rc close_errno w a h0 h1 e).2.
Proof.
  intros Hw Hf H1. unfold yos_pipe. destruct (_ || _); [by apply keeps_errno|].
  destruct (Z.ltb_spec h0 0); [by apply keeps_errno|]. destruct (H1 ltac:(lia)) as (Hh1 & Hn1 & Hne).
  destruct Hf as [?|Hn0]; [lia|].
  destruct (opened_others w h0 Hw ltac:(lia) Hn0) as (A1 & A2 & A3).
  assert (Hn1' : h1 ∉ host_open (host_opened h0 w)).
  { unfold host_opened. destruct (Z.ltb_spec h0 0); [lia|]. simpl. set_solver. }
  destruct (opened_others _ h1 A1 Hh1 Hn1') as (B1 & B2 & B3).
  assert (C3 : h0 ∈ others (host_opened h1 (host_opened h0 w))) by (rewrite B2; set_solver).
  destruct (alloc_keeps _ h0 B1 C3 ltac:(lia)) as [D1 D2].
  assert (E3 : h1 ∈ others (yos_fd_alloc (host_opened h1 (host_opened h0 w)) h0).2) by (rewrite D2, B2; set_solver).
  destruct (yos_fd_alloc _ h0) as [r w1]. cbn [snd] in *.
  assert (Hfin : (others w1 ∖ {[h1]} : gset Z) = others w).
  { rewrite D2, B2, A2. pose proof (not_other _ _ Hn0). pose proof (not_other _ _ Hn1).
    apply set_eq. intros x. destruct (decide (x = h0)), (decide (x = h1)); set_solver. }
  destruct (Z.ltb_spec r 0).
  - destruct (close_other w1 h1 D1 E3) as [G1 G2]. split; [done|]. cbn [snd]. by rewrite G2, Hfin.
  - destruct (alloc_keeps w1 h1 D1 E3 Hh1) as [G1 G2]. destruct (yos_fd_alloc w1 h1) as [x w2]. cbn [snd] in *.
    assert (K : keeps w w2) by (split; [done|by rewrite G2, Hfin]). destruct (Z.ltb_spec x 0).
    + eapply keeps_trans; [exact K|]. apply close_keeps, K.
    + eapply keeps_trans; [exact K|]. by apply keeps_same; [apply K|..].
Qed.

Lemma fd_op_keeps w w' : world_ok w -> fd_op w w' -> keeps w w'.
Proof.
  intros Hw []; auto using open_keeps, openat_keeps, dup_keeps, dup2_keeps, dup3_keeps, pipe_keeps, close_keeps.
  - by apply open_keeps.
  - unfold yos_closefrom, YOS_FD_MAX. apply close_slots_keep; [done|]. apply Forall_forall. intros i Hi%elem_of_seqZ.
    destruct (Z.ltb_spec lo 0); lia.
  - unfold yos_close_range, YOS_FD_MAX. destruct (Z.leb_spec 256 lo); [done|]. apply close_slots_keep; [done|].
    apply Forall_forall. intros i Hi%elem_of_seqZ. destruct (Z.leb_spec 256 hi); lia.
  - unfold yos_fd_release_slot, YOS_FD_MAX. destruct (Z.ltb_spec fd 0); [lia|]. destruct (Z.leb_spec 256 fd); [lia|].
    cbn [orb]. apply keeps_close_slot; done || lia.
  - unfold yos_chdir. destruct st as [?|[]]; [by apply keeps_errno| |by apply keeps_errno]. by apply keeps_same.
  - unfold yos_fchdir. pose proof (get_keeps w fd Hw) as K1. destruct (yos_fd_get _ w fd) as [h w1]. cbn [snd] in K1.
    destruct (h <? 0); [eapply keeps_trans; [exact K1|apply keeps_errno, K1]|].
    destruct st as [?|[]]; try (eapply keeps_trans; [exact K1|apply keeps_errno, K1]).
    destruct (if _ && _ then _ else _); [|done]. eapply keeps_trans; [exact K1|]. by apply keeps_same; [apply K1|..].
Qed.

(** ** What a call does to the host, in order *)

(** It closes open descriptors, none twice, and opens nothing. *)
Definition tidy (w w' : world) : Prop :=
  exists l, closes w' = closes w ++ l /\ NoDup l /\ (forall h, h ∈ l -> h ∈ host_open w) /\
    host_open w' = host_open w ∖ list_to_set l.

(** It opens new descriptors first; a call that finds its table full may close
    the new one twice. *)
Definition traced (w w' : world) : Prop :=
  exists R : gset Z, R ## host_open w /\
    (tidy (World (R ∪ host_open w) (closes w) (tab w)) w' \/
     exists r, R = {[r]} /\ closes w' = closes w ++ [r; r] /\ host_open w' = host_open w /\
       free_slot (fds (tab w)) = None /\ fds (tab w') = fds (tab w)).

Lemma tidy_same w w' : closes w' = closes w -> host_open w' = host_open w -> tidy w w'.
Proof. intros Ec Eo. exists []. rewrite Ec, Eo, app_nil_r. split_and!; [done|by apply NoDup_nil|by intros h ?%elem_of_nil|set_solver]. Qed.

Lemma tidy_trans w1 w2 w3 : tidy w1 w2 -> tidy w2 w3 -> tidy w1 w3.
Proof.
  intros (l & C1 & N1 & O1 & E1) (k & C2 & N2 & O2 & E2). exists (l ++ k). split_and!.
  - by rewrite C2, C1, app_assoc.
  - apply NoDup_app. split_and!; [done| |done]. intros h Hl Hk. specialize (O2 h Hk). rewrite E1 in O2. set_solver.
  - intros h [Hl|Hk]%elem_of_app; [by apply O1|]. specialize (O2 h Hk). rewrite E1 in O2. set_solver.
  - rewrite E2, E1, list_to_set_app_L. set_solver.
Qed.

Lemma tidy_errno w w1 e : tidy w w1 -> tidy w (fd_errno remap_errno_h2g w1 e).2.
Proof. intros H. eapply tidy_trans; [exact H|]. by apply tidy_same. Qed.

Lemma tidy_close w h f : h ∈ host_open w -> tidy w (upd_tab f (yos_plat_close h w)).
Proof.
  intros H. exists [h]. split_and!; [done|apply NoDup_singleton|by intros x ->%list_elem_of_singleton|]. cbn. set_solver.
Qed.

Lemma tidy_close' w h : h ∈ host_open w -> tidy w (yos_plat_close h w).
Proof. intros H. exact (tidy_close w h (fun t => t) H). Qed.

Lemma tidy_tab w w1 f : tidy w w1 -> tidy w (upd_tab f w1).
Proof. intros H. eapply tidy_trans; [exact H|]. by apply tidy_same. Qed.

Lemma traced_tidy w w' : tidy w w' -> traced w w'.
Proof. intros (l & H). exists ∅. split; [set_solver|]. left. exists l. cbn. by rewrite (left_id_L ∅ (∪)). Qed.

Lemma traced_from w w1 w' :
  host_open w1 = host_open w -> closes w1 = closes w -> fds (tab w1) = fds (tab w) -> traced w1 w' -> traced w w'.
Proof.
  intros Eo Ec Ef (R & D & H). exists R. rewrite Eo in *. split; [done|]. rewrite <- Ef, <- Ec.
  destruct H as [(l & H)|H]; [left; by exists l|by right].
Qed.

Lemma traced_opened w r w' : 0 <= r -> r ∉ host_open w -> tidy (host_opened r w) w' -> traced w w'.
Proof.
  intros Hr Hn H. exists {[r]}. split; [set_solver|]. left. unfold host_opened in H. by destruct (Z.ltb_spec r 0); [lia|].
Qed.

Lemma get_same w fd : let w1 := (yos_fd_get remap_errno_h2g w fd).2 in
  host_open w1 = host_open w /\ closes w1 = closes w /\ fds (tab w1) = fds (tab w).
Proof.
  unfold yos_fd_get. destruct (_ || _); [done|]. destruct (_ || _); [done|]. by destruct (_ <? 0).
Qed.

Lemma get_tidy w fd : tidy w (yos_fd_get remap_errno_h2g w fd).2.
Proof. destruct (get_same w fd) as (A & B & _). by apply tidy_same. Qed.

Lemma alloc_tidy w h : 0 <= h -> h ∈ host_open w -> tidy w (yos_fd_alloc w h).2.
Proof.
  intros Hh Ho. unfold yos_fd_alloc. destruct (Z.ltb_spec h 0); [lia|]. destruct (free_slot _); cbn [snd]; [by apply tidy_same|by apply tidy_close'].
Qed.

Lemma alloc_path_tidy w h p : 0 <= h -> h ∈ host_open w -> tidy w (yos_fd_alloc_with_path w h p).2.
Proof.
  intros Hh Ho. unfold yos_fd_alloc_with_path. pose proof (alloc_tidy w h Hh Ho) as H. destruct (yos_fd_alloc w h) as [x w1].
  destruct p; [|done]. destruct (x <? 0); [done|]. by apply tidy_tab.
Qed.

(** A failed allocation has found no free slot. *)
Lemma alloc_full w h : 0 <= h -> (yos_fd_alloc w h).1 < 0 ->
  yos_fd_alloc w h = (- EMFILE, yos_plat_close h w) /\ free_slot (fds (tab w)) = None.
Proof.
  intros Hh. unfold yos_fd_alloc. destruct (Z.ltb_spec h 0); [lia|]. destruct (free_slot _); cbn [fst]; [lia|done].
Qed.

Lemma alloc_path_full w h p : 0 <= h -> (yos_fd_alloc_with_path w h p).1 < 0 ->
  closes (yos_fd_alloc_with_path w h p).2 = closes w ++ [h] /\ host_open (yos_fd_alloc_with_path w h p).2 = host_open w ∖ {[h]} /\
  free_slot (fds (tab w)) = None /\ fds (tab (yos_fd_alloc_with_path w h p).2) = fds (tab w).
Proof.
  intros Hh. pose proof (alloc_full w h Hh) as F. unfold yos_fd_alloc_with_path. destruct (yos_fd_alloc w h) as [x w1]. cbn [fst] in F.
  destruct p as [q|]; cbn [fst snd]; [destruct (Z.ltb_spec x 0); cbn [fst snd]; [|lia]|]; intros Hx; destruct (F Hx) as [[= -> ->] ?]; done.
Qed.

Lemma assign_tidy w n h : world_ok w -> 0 <= h -> h ∈ others w -> tidy w (yos_fd_assign remap_errno_h2g w n h).2.
Proof.
  intros Hw Hh Ho. pose proof (proj1 (elem_of_difference _ _ _) Ho) as [Hop Hno]. unfold yos_fd_assign, YOS_FD_MAX. destruct (Z.ltb_spec h 0); [lia|].
  destruct (Z.ltb_spec n 0); [|destruct (Z.leb_spec 256 n)]; cbn [orb]; [by apply tidy_errno, tidy_close'..|]. cbn [snd]. apply tidy_tab.
  destruct (Z.leb_spec 0 (slot_fd (tab w) n)); cbn [andb]; [|by apply tidy_same]. destruct (negb _); [|by apply tidy_same].
  apply tidy_close', (wk_open _ Hw), elem_of_owned. split; [done|]. exists (Z.to_nat n). apply slot_lookup; [apply Hw|lia].
Qed.

Lemma slot_open w i : world_ok w -> 0 <= i < 256 -> 0 <= slot_fd (tab w) i -> slot_fd (tab w) i ∈ host_open w.
Proof. intros Hw Hi Hs. apply (wk_open _ Hw), elem_of_owned. split; [done|]. exists (Z.to_nat i). by apply slot_lookup; [apply Hw|]. Qed.

Lemma close_tidy w fd : world_ok w -> tidy w (fd_close w fd).2.
Proof.
  intros Hw. unfold yos_fd_close, YOS_FD_MAX. destruct (Z.ltb_spec fd 0); [by apply tidy_errno, tidy_same|].
  destruct (Z.leb_spec 256 fd); [by apply tidy_errno, tidy_same|]. cbn [orb].
  destruct (Z.ltb_spec (slot_fd (tab w) fd) 0); [by apply tidy_errno, tidy_same|].
  pose proof (tidy_close w (slot_fd (tab w) fd) (set_slot (Z.to_nat fd) (-1) None) (slot_open w fd Hw ltac:(lia) ltac:(lia))) as Hc.
  unfold fd_errno_check. destruct (_ <? 0); [by apply tidy_errno|done].
Qed.

Lemma close_slots_tidy l w : world_ok w -> Forall (fun i => 0 <= i < 256) l -> tidy w (foldl close_slot w l).
Proof.
  intros Hw Hl. revert w Hw. induction Hl as [|i l Hi _ IH]; intros w Hw; [by apply tidy_same|]. cbn [foldl].
  assert (keeps w (close_slot w i) /\ tidy w (close_slot w i)) as [K T].
  { unfold close_slot. destruct (Z.ltb_spec (slot_fd (tab w) i) 0); [split; [done|by apply tidy_same]|].
    split; [by apply keeps_close_slot|]. apply tidy_close, slot_open; [done|done|lia]. }
  eapply tidy_trans; [exact T|]. apply IH, K.
Qed.

Lemma openat_traced w d s r e : fresh_answer w r -> traced w (yos_openat remap_errno_h2g translate_path w d s r e).2.
Proof.
  intros Hf. unfold yos_openat.
  assert (G : let w1 := (if d =? AT_FDCWD then (AT_FDCWD, w) else yos_fd_get remap_errno_h2g w d).2 in
    host_open w1 = host_open w /\ closes w1 = closes w /\ fds (tab w1) = fds (tab w)) by (destruct (d =? AT_FDCWD); [done|apply get_same]).
  destruct (if d =? AT_FDCWD then _ else _) as [hd w1]. destruct G as (Go & Gc & Gf). cbn [snd] in *.
  destruct (_ && _); [by apply traced_tidy, tidy_same|]. destruct (Z.ltb_spec r 0); [by apply traced_tidy, tidy_errno, tidy_same|].
  pose proof (fresh_same _ _ _ Go Hf ltac:(lia)) as Hn. set (rec := if is_abs _ then _ else _).
  apply (traced_from w w1); [done..|].
  assert (Hin : r ∈ host_open (host_opened r w1)) by (unfold host_opened; destruct (Z.ltb_spec r 0); [lia|]; cbn; set_solver).
  pose proof (alloc_path_tidy (host_opened r w1) r (Some rec) ltac:(lia) Hin) as T.
  pose proof (alloc_path_full (host_opened r w1) r (Some rec) ltac:(lia)) as F.
  destruct (yos_fd_alloc_with_path _ _ _) as [x w2]. cbn [fst snd] in *. destruct (Z.ltb_spec x 0); [|apply (traced_opened w1 r _); done || lia].
  destruct (F ltac:(lia)) as (Fc & Fo & Ff & Ft). unfold host_opened in *. destruct (Z.ltb_spec r 0); [lia|]. cbn [closes host_open tab] in *.
  exists {[r]}. split; [set_solver|]. right. exists r. cbn [snd closes host_open tab yos_plat_close]. rewrite Fc, Fo, <- app_assoc. split_and!; [done|done|set_solver|done|done].
Qed.

Lemma dup_traced w fd r e : fresh_answer w r -> traced w (yos_dup remap_errno_h2g w fd r e).2.
Proof.
  intros Hf. unfold yos_dup. pose proof (get_same w fd) as G. destruct (yos_fd_get remap_errno_h2g w fd) as [h w1]. destruct G as (Go & Gc & Gf). cbn [snd] in *.
  destruct (h <? 0); [by apply traced_tidy, tidy_errno, tidy_same|]. destruct (Z.ltb_spec r 0); [by apply traced_tidy, tidy_errno, tidy_same|].
  pose proof (fresh_same _ _ _ Go Hf ltac:(lia)) as Hn. apply (traced_from w w1); [done..|].
  assert (Hin : r ∈ host_open (host_opened r w1)) by (unfold host_opened; destruct (Z.ltb_spec r 0); [lia|]; cbn; set_solver).
  pose proof (alloc_tidy (host_opened r w1) r ltac:(lia) Hin) as T. pose proof (alloc_full (host_opened r w1) r ltac:(lia)) as F.
  destruct (yos_fd_alloc _ _) as [x w2]. cbn [fst snd] in *. destruct (Z.ltb_spec x 0).
  - destruct (F ltac:(lia)) as [[= -> ->] Ff]. unfold host_opened in *. destruct (Z.ltb_spec r 0); [lia|]. cbn [tab] in Ff.
    exists {[r]}. split; [set_solver|]. right. exists r. cbn. rewrite <- app_assoc. split_and!; [done|done|set_solver|done|done].
  - apply (traced_opened w1 r); [lia|done|]. destruct (slot_path _ fd); [|done]. by apply tidy_tab.
Qed.

Lemma dup_assign_traced w o n r : world_ok w -> 0 <= r -> r ∉ host_open w -> traced w (dup_assign remap_errno_h2g w o n r).2.
Proof.
  intros Hw Hr Hn. destruct (opened_others w r Hw Hr Hn) as (H1 & _ & H3). apply (traced_opened w r _ Hr Hn). unfold dup_assign.
  pose proof (assign_tidy _ n r H1 Hr H3) as T. destruct (yos_fd_assign _ _ n r) as [x w1].
  destruct (if _ && _ then _ else _) as [p|]; [|done]. destruct (0 <=? x); [by apply tidy_tab|done].
Qed.

Lemma pipe_traced w a h0 h1 e :
  world_ok w -> fresh_answer w h0 -> (0 <= h0 -> 0 <= h1 /\ (h1 ∉ host_open w) /\ h1 <> h0) ->
  traced w (yos_pipe remap_errno_h2g close_rc close_errno w a h0 h1 e).2.
Proof.
  intros Hw Hf H1. unfold yos_pipe. destruct (_ || _); [by apply traced_tidy, tidy_errno, tidy_same|].
  destruct (Z.ltb_spec h0 0); [by apply traced_tidy, tidy_errno, tidy_same|]. destruct (H1 ltac:(lia)) as (Hh1 & Hn1 & Hne). destruct Hf as [?|Hn0]; [lia|].
  destruct (opened_others w h0 Hw ltac:(lia) Hn0) as (A1 & A2 & A3).
  assert (E0 : host_opened h0 w = World ({[h0]} ∪ host_open w) (closes w) (tab w)) by (unfold host_opened; by destruct (Z.ltb_spec h0 0); [lia|]).
  assert (E1 : host_opened h1 (host_opened h0 w) = World ({[h1]} ∪ ({[h0]} ∪ host_open w)) (closes w) (tab w)) by (rewrite E0; unfold host_opened; by destruct (Z.ltb_spec h1 0); [lia|]).
  assert (Hn1' : h1 ∉ host_open (host_opened h0 w)) by (rewrite E0; cbn; set_solver).
  destruct (opened_others _ h1 A1 Hh1 Hn1') as (B1 & B2 & B3).
  assert (C3 : h0 ∈ others (host_opened h1 (host_opened h0 w))) by (rewrite B2; set_solver).
  destruct (alloc_keeps _ h0 B1 C3 ltac:(lia)) as [D1 D2].
  assert (E3 : h1 ∈ others (yos_fd_alloc (host_opened h1 (host_opened h0 w)) h0).2) by (rewrite D2, B2; set_solver).
  rewrite E1 in *. exists {[h1; h0]}. split; [set_solver|]. left. rewrite <- (assoc_L (∪)).
  set (w0 := World ({[h1]} ∪ ({[h0]} ∪ host_open w)) (closes w) (tab w)) in *. assert (T : tidy w0 (yos_fd_alloc w0 h0).2) by (apply alloc_tidy; [lia|cbn; set_solver]).
  destruct (yos_fd_alloc w0 h0) as [r w1]. cbn [snd] in *. pose proof (proj1 (proj1 (elem_of_difference _ _ _) E3)) as E3'. destruct (r <? 0).
  - eapply tidy_trans; [exact T|]. by apply tidy_close'.
  - destruct (alloc_keeps w1 h1 D1 E3 Hh1) as [G1 _]. pose proof (alloc_tidy w1 h1 Hh1 E3') as T2. destruct (yos_fd_alloc w1 h1) as [x w2]. cbn [snd] in *.
    pose proof (tidy_trans _ _ _ T T2) as T3. destruct (x <? 0); cbn [snd]; [|by apply tidy_tab]. eapply tidy_trans; [exact T3|]. by apply close_tidy.
Qed.

Lemma fd_op_traced w w' : world_ok w -> fd_op w w' -> traced w w'.
Proof.
  intros Hw [].
  1-2: unfold yos_creat, yos_open_host; destruct (Z.ltb_spec r 0); [by apply traced_tidy, tidy_errno, tidy_same|];
    match goal with H : fresh_answer _ _ |- _ => destruct H as [?|Hn]; [lia|] end; apply (traced_opened w r); [done|done|];
    apply alloc_path_tidy; [done|]; unfold host_opened; destruct (Z.ltb_spec r 0); [lia|]; cbn; set_solver.
  - by apply openat_traced.
  - by apply dup_traced.
  - unfold yos_dup2. pose proof (get_keeps w o Hw) as K1. pose proof (get_same w o) as G. destruct (yos_fd_get _ w o) as [h w1]. destruct G as (Go & Gc & Gf). cbn [snd] in *.
    destruct (h <? 0); [by apply traced_tidy, tidy_same|]. destruct (o =? n); [by apply traced_tidy, tidy_same|].
    destruct (Z.ltb_spec r 0); [by apply traced_tidy, tidy_errno, tidy_same|]. apply (traced_from w w1); [done..|].
    apply dup_assign_traced; [apply K1|done|]. by eapply fresh_same.
  - unfold yos_dup3. pose proof (get_keeps w o Hw) as K1. pose proof (get_same w o) as G. destruct (yos_fd_get _ w o) as [h w1]. destruct G as (Go & Gc & Gf). cbn [snd] in *.
    destruct (h <? 0); [by apply traced_tidy, tidy_same|]. destruct (o =? n); [by apply traced_tidy, tidy_errno, tidy_same|].
    set (c := if _ =? 0 then _ else _). match goal with H : forall c, fresh_answer _ _ |- _ => specialize (H c); rename H into Hf end.
    destruct (Z.ltb_spec (ans c) 0); [by apply traced_tidy, tidy_errno, tidy_same|]. apply (traced_from w w1); [done..|].
    apply dup_assign_traced; [apply K1|done|]. by eapply fresh_same.
  - by apply pipe_traced.
  - by apply traced_tidy, close_tidy.
  - apply traced_tidy. unfold yos_closefrom, YOS_FD_MAX. apply close_slots_tidy; [done|]. apply Forall_forall. intros i Hi%elem_of_seqZ.
    destruct (Z.ltb_spec lo 0); lia.
  - apply traced_tidy. unfold yos_close_range, YOS_FD_MAX. destruct (Z.leb_spec 256 lo); [by apply tidy_same|]. apply close_slots_tidy; [done|].
    apply Forall_forall. intros i Hi%elem_of_seqZ. destruct (Z.leb_spec 256 hi); lia.
  - apply traced_tidy. unfold yos_fd_release_slot, YOS_FD_MAX. destruct (Z.ltb_spec fd 0); [lia|]. destruct (Z.leb_spec 256 fd); [lia|].
    cbn [orb]. apply tidy_close, slot_open; done || lia.
  - apply traced_tidy. unfold yos_chdir. destruct st as [?|[]]; by apply tidy_same.
  - apply traced_tidy. unfold yos_fchdir. pose proof (get_tidy w fd) as K1. destruct (yos_fd_get _ w fd) as [h w1]. cbn [snd] in K1.
    destruct (h <? 0); [by apply tidy_errno|]. destruct st as [?|[]]; [by apply tidy_errno| |by apply tidy_errno].
    destruct (if _ && _ then _ else _); [by apply tidy_tab|done].
Qed.
End Steps.
