(* ===== verification/FdSystem.v ===== *)
(** The tables of a whole runtime, and what single calls promise: one owner per
    host descriptor, lowest-slot allocation, dup2 on every branch, the double
    close of a failed dup, tombstones, and the directory that fchdir tracks. *)
From stdpp Require Import gmap.
From S2P Require Import Prelude Memory Ctx Path PathProps FdTable FdProps FdThms.

(** * Many guests, one host table *)

(** A guest: its table, and the closes that its current call has still to do.
    [true]: the call has closed this number before. *)
Record fd_guest : Type := FdGuest { g_tab : fd_ctx; g_todo : list (Z * bool) }.

Record fd_sys : Type := FdSys { sys_open : gset Z; sys_guests : list fd_guest }.

Fixpoint mark (seen l : list Z) : list (Z * bool) :=
  match l with [] => [] | h :: l' => (h, bool_decide (h ∈ seen)) :: mark (h :: seen) l' end.

(** The descriptors that a guest is about to close for the first time, and all
    that are its own. *)
Definition firsts (todo : list (Z * bool)) : list Z := (filter (fun p => p.2 = false) todo).*1.
Definition held (g : fd_guest) : gset Z := owned (g_tab g) ∪ list_to_set (firsts (g_todo g)).

Record guest_ok (g : fd_guest) : Prop := {
  go_tab : tab_ok (g_tab g);
  go_nodup : NoDup (firsts (g_todo g));
  go_apart : forall h, h ∈ firsts (g_todo g) -> h ∉ owned (g_tab g);
  go_full : forall h, (h, true) ∈ g_todo g -> free_slot (fds (g_tab g)) = None
}.

Record sys_ok (s : fd_sys) : Prop := {
  sk_guest : forall i g, sys_guests s !! i = Some g -> guest_ok g;
  sk_open : forall i g, sys_guests s !! i = Some g -> held g ⊆ sys_open s;
  sk_disj : forall i j g k, sys_guests s !! i = Some g -> sys_guests s !! j = Some k -> i <> j -> held g ## held k
}.


Section System.
Variable remap_errno_h2g : Z -> Z.
Variable close_rc close_errno : Z -> Z.
Variable translate_path : path -> path.

(** A call of a guest opens its descriptors and updates the guest's table, which
    no other guest sees, in one step; each close that it asks of the host is a
    step of its own, and other guests may run in between. *)
Inductive sys_step (s : fd_sys) : fd_sys -> Prop :=
| st_call i t w' :
    sys_guests s !! i = Some (FdGuest t []) ->
    fd_op remap_errno_h2g close_rc close_errno translate_path (World (sys_open s) [] t) w' ->
    sys_step s (FdSys (sys_open s ∪ host_open w' ∪ list_to_set (closes w')) (<[i := FdGuest (tab w') (mark [] (closes w'))]> (sys_guests s)))
| st_close i t h b l :
    sys_guests s !! i = Some (FdGuest t ((h, b) :: l)) ->
    sys_step s (FdSys (sys_open s ∖ {[h]}) (<[i := FdGuest t l]> (sys_guests s)))
| st_fork i parent child ans :
    sys_guests s !! i = Some (FdGuest parent []) ->
    (forall h, h ∈ owned parent -> 0 <= ans h -> ans h ∉ sys_open s) ->
    (forall h g, h ∈ owned parent -> g ∈ owned parent -> 0 <= ans h -> ans h = ans g -> h = g) ->
    sys_step s (FdSys (sys_open s ∪ owned (yos_fd_fork_dup ans child parent))
                  (sys_guests s ++ [FdGuest (yos_fd_fork_dup ans child parent) []])).
















(** * Single calls *)

(** Allocation takes the lowest slot that is free and not tombstoned, keeps
    every other slot, and when there is none closes the descriptor it was
    given, exactly once, and answers -EMFILE. *)
Theorem fd_alloc_lowest w h :
  tab_ok (tab w) -> 0 <= h ->
  let '(r, w') := yos_fd_alloc w h in
  (0 <= r < 256 /\ slot_fd (tab w) r = -1 /\ slot_fd (tab w') r = h /\ slot_path (tab w') r = None /\
     (forall j, 0 <= j < r -> slot_fd (tab w) j <> -1) /\
     (forall j, 0 <= j < 256 -> j <> r -> slot_fd (tab w') j = slot_fd (tab w) j) /\ closes w' = closes w) \/
  (r = - EMFILE /\ (forall j, 0 <= j < 256 -> slot_fd (tab w) j <> -1) /\ tab w' = tab w /\ closes w' = closes w ++ [h]).
Proof.
  intros T Hh. unfold yos_fd_alloc. destruct (Z.ltb_spec h 0); [lia|]. destruct (free_slot (fds (tab w))) as [i|] eqn:E.
  - apply free_slot_spec in E as [Hl Hlow]. pose proof (lookup_lt_Some _ _ _ Hl) as Hi. pose proof (tk_len _ T) as L.
    pose proof (tk_plen _ T) as PL. rewrite L in Hi. left. unfold slot_fd, slot_path. cbn [tab upd_tab set_slot fds fd_paths closes].
    rewrite Nat2Z.id, Hl. split_and!; [lia|lia|done| | | | |done].
    + by rewrite list_lookup_insert_eq by lia.
    + by rewrite list_lookup_insert_eq by lia.
    + intros j Hj. destruct (fds (tab w) !! Z.to_nat j) as [x|] eqn:Ex; [|apply lookup_ge_None in Ex; lia].
      apply (Hlow (Z.to_nat j)); [lia|done].
    + intros j Hj Hne. by rewrite list_lookup_insert_ne by lia.
  - right. split_and!; [done| |done|done]. intros j Hj. apply free_slot_None in E. rewrite Forall_forall in E.
    apply E. eapply list_elem_of_lookup_2. by apply slot_lookup.
Qed.

Lemma slot_set_eq c i h p : tab_ok c -> 0 <= i < 256 -> slot_fd (set_slot (Z.to_nat i) h p c) i = h /\ slot_path (set_slot (Z.to_nat i) h p c) i = p.
Proof.
  intros [L P _] Hi. unfold slot_fd, slot_path. cbn [fds fd_paths set_slot].
  by rewrite !list_lookup_insert_eq by lia.
Qed.

Lemma slot_set_ne c i j h p : 0 <= i -> 0 <= j -> i <> j -> slot_fd (set_slot (Z.to_nat i) h p c) j = slot_fd c j.
Proof. intros. unfold slot_fd. cbn [fds set_slot]. by rewrite list_lookup_insert_ne by lia. Qed.

Lemma get_valid w fd :
  0 <= fd < 256 -> 0 <= slot_fd (tab w) fd -> yos_fd_get remap_errno_h2g w fd = (slot_fd (tab w) fd, w).
Proof.
  intros Hf Hs. unfold yos_fd_get, AT_FDCWD, YOS_FBSD_AT_FDCWD, YOS_FD_MAX.
  destruct (Z.eqb_spec fd (-100)); [lia|]. destruct (Z.ltb_spec fd 0); [lia|]. destruct (Z.leb_spec 256 fd); [lia|].
  cbn [orb]. by destruct (Z.ltb_spec (slot_fd (tab w) fd) 0); [lia|].
Qed.

Lemma opened_tab r w : tab (host_opened r w) = tab w /\ closes (host_opened r w) = closes w.
Proof. unfold host_opened. by destruct (r <? 0). Qed.

(** Assignment to a slot in range, of a descriptor the table does not own, and
    out of range. *)
Lemma assign_in_range w n r :
  tab_ok (tab w) -> 0 <= n < 256 -> 0 <= r -> r ∉ owned (tab w) ->
  exists w', yos_fd_assign remap_errno_h2g w n r = (n, w') /\ tab w' = set_slot (Z.to_nat n) r None (tab w) /\
    closes w' = closes w ++ (if 0 <=? slot_fd (tab w) n then [slot_fd (tab w) n] else []).
Proof.
  intros T Hin Hr Hn. unfold yos_fd_assign, YOS_FD_MAX.
  destruct (Z.ltb_spec r 0); [lia|]. destruct (Z.ltb_spec n 0); [lia|]. destruct (Z.leb_spec 256 n); [lia|]. cbn [orb].
  assert (Hnr : slot_fd (tab w) n <> r).
  { intros He. apply Hn, elem_of_owned. split; [done|]. exists (Z.to_nat n). rewrite <-He. by apply slot_lookup. }
  rewrite (proj2 (Z.eqb_neq (slot_fd (tab w) n) r)) by done. cbn [negb]. rewrite andb_true_r.
  eexists. split; [done|]. destruct (0 <=? slot_fd (tab w) n); cbn [tab upd_tab closes yos_plat_close]; [done|by rewrite app_nil_r].
Qed.

Lemma assign_outside w n r :
  ~ (0 <= n < 256) -> 0 <= r ->
  exists w', yos_fd_assign remap_errno_h2g w n r = (-1, w') /\ fds (tab w') = fds (tab w) /\ closes w' = closes w ++ [r].
Proof.
  intros Hout Hr. unfold yos_fd_assign, YOS_FD_MAX. destruct (Z.ltb_spec r 0); [lia|].
  replace ((n <? 0) || (256 <=? n)) with true by (destruct (Z.ltb_spec n 0), (Z.leb_spec 256 n); done || lia).
  destruct (fd_errno_tab remap_errno_h2g (yos_plat_close r w) EBADF) as (_ & E1 & _ & _ & E2 & E3).
  destruct (fd_errno _ _ _) as [x w']. cbn [fst snd] in *. exists w'. by rewrite E3, E1, E2.
Qed.

(** [dup2] of an open descriptor: onto itself it changes nothing; onto
    another slot in range it makes the slot name the host's duplicate, carries
    the recorded path, keeps every other slot, and closes what the slot named
    before, and nothing else; out of range it closes the duplicate and fails. *)
Theorem dup2_semantics w o n r e :
  tab_ok (tab w) -> 0 <= o < 256 -> 0 <= slot_fd (tab w) o -> 0 <= r -> r ∉ owned (tab w) ->
  let '(x, w') := yos_dup2 remap_errno_h2g w o n r e in
  (n = o -> x = o /\ w' = w) /\
  (n <> o -> 0 <= n < 256 ->
     x = n /\ slot_fd (tab w') n = r /\ slot_path (tab w') n = slot_path (tab w) o /\
     (forall j, 0 <= j < 256 -> j <> n -> slot_fd (tab w') j = slot_fd (tab w) j) /\
     closes w' = closes w ++ (if 0 <=? slot_fd (tab w) n then [slot_fd (tab w) n] else [])) /\
  (~ (0 <= n < 256) -> x = -1 /\ fds (tab w') = fds (tab w) /\ closes w' = closes w ++ [r]).
Proof.
  intros T Ho Hs Hr Hn. unfold yos_dup2. rewrite get_valid by done.
  destruct (Z.ltb_spec (slot_fd (tab w) o) 0); [lia|]. destruct (Z.eqb_spec o n) as [<-|Hne]; [split_and!; [done|done|lia]|].
  destruct (Z.ltb_spec r 0); [lia|]. unfold dup_assign, YOS_FD_MAX. rewrite (proj2 (Z.leb_le 0 o)), (proj2 (Z.ltb_lt o 256)) by lia. cbn [andb].
  destruct (opened_tab r w) as [Ht Hcl]. rewrite <-Ht in T, Hn. rewrite <-Hcl, <-Ht in *. destruct (decide (0 <= n < 256)) as [Hin|Hout].
  - destruct (assign_in_range (host_opened r w) n r T Hin Hr Hn) as (w1 & -> & Ht1 & Hc1).
    pose proof (slot_set_eq (tab (host_opened r w)) n r None T Hin) as [S1 S2].
    destruct (slot_path (tab (host_opened r w)) o) as [p|].
    + rewrite (proj2 (Z.leb_le 0 n)) by lia. split_and!; [done| |lia]. intros _ _. cbn [tab upd_tab closes]. rewrite Ht1.
      assert (T2 : tab_ok (set_slot (Z.to_nat n) r None (tab (host_opened r w)))).
      { apply set_slot_ok; [done|]. intros _ j Hj. exfalso. apply Hn, elem_of_owned. by eauto. }
      rewrite S1. destruct (slot_set_eq _ n r (Some p) T2 Hin) as [-> ->]. split_and!; [done|done|done| |done].
      intros j Hj Hjn. by rewrite !slot_set_ne by lia.
    + split_and!; [done| |lia]. intros _ _. rewrite Ht1, S1, S2. split_and!; [done|done|done| |done].
      intros j Hj Hjn. by rewrite slot_set_ne by lia.
  - destruct (assign_outside (host_opened r w) n r Hout Hr) as (w1 & -> & E1 & E2).
    destruct (slot_path _ o); cbn [Z.leb Z.compare]; (split_and!; [done|lia|done]).
Qed.

(** [dup] on a full table closes the host's duplicate twice: once in the
    allocation, which owns it, and once more in its own error path, when the
    number may already name another thread's descriptor. *)
Theorem dup_full_double_close w fd r e :
  tab_ok (tab w) -> 0 <= fd < 256 -> 0 <= slot_fd (tab w) fd -> 0 <= r -> free_slot (fds (tab w)) = None ->
  exists w', yos_dup remap_errno_h2g w fd r e = (-1, w') /\ closes w' = closes w ++ [r; r] /\ fds (tab w') = fds (tab w).
Proof.
  intros T Hf Hs Hr Hfull. unfold yos_dup. rewrite get_valid by done.
  destruct (Z.ltb_spec (slot_fd (tab w) fd) 0); [lia|]. destruct (Z.ltb_spec r 0); [lia|].
  unfold yos_fd_alloc, host_opened. destruct (Z.ltb_spec r 0); [lia|]. cbn [tab]. rewrite Hfull. cbn [Z.ltb].
  eexists. split; [done|]. cbn [closes tab upd_tab set_f_exec fds yos_plat_close fd_errno errno_neg snd].
  by rewrite <-app_assoc.
Qed.

(** After the stream of a descriptor is closed its number is a tombstone:
    close fails without a host call, allocation never returns it, and only an
    explicit dup2 onto it brings it back. *)
Theorem tombstone_until_assigned w fd h :
  tab_ok (tab w) -> 0 <= fd < 256 -> 0 <= h -> h ∉ owned (tab w) ->
  let w1 := yos_fd_release_slot w fd in
  (yos_fd_close remap_errno_h2g close_rc close_errno w1 fd).1 = -1 /\
  closes (yos_fd_close remap_errno_h2g close_rc close_errno w1 fd).2 = closes w /\
  (yos_fd_alloc w1 h).1 <> fd /\
  slot_fd (tab (yos_fd_assign remap_errno_h2g w1 fd h).2) fd = h.
Proof.
  intros T Hf Hh Hn w1. unfold w1, yos_fd_release_slot, YOS_FD_MAX.
  destruct (Z.ltb_spec fd 0); [lia|]. destruct (Z.leb_spec 256 fd); [lia|]. cbn [orb].
  set (c := set_slot (Z.to_nat fd) YOS_FD_FCLOSE_TOMB None (tab w)).
  destruct (slot_set_eq (tab w) fd YOS_FD_FCLOSE_TOMB None T Hf) as [S1 _]. fold c in S1.
  assert (Tc : tab_ok c) by (apply set_slot_ok; [done|unfold YOS_FD_FCLOSE_TOMB; lia]).
  assert (Hl : fds c !! Z.to_nat fd = Some YOS_FD_FCLOSE_TOMB) by (rewrite <-S1; by apply slot_lookup).
  unfold yos_fd_close, yos_fd_assign, YOS_FD_MAX. cbn [tab upd_tab]. fold c.
  destruct (Z.ltb_spec fd 0); [lia|]. destruct (Z.leb_spec 256 fd); [lia|]. cbn [orb]. rewrite S1.
  split_and!; [done|done| |].
  - unfold yos_fd_alloc. destruct (Z.ltb_spec h 0); [lia|]. cbn [tab upd_tab]. fold c.
    destruct (free_slot (fds c)) as [i|] eqn:E; cbn [fst]; [|unfold EMFILE; lia].
    apply free_slot_spec in E as [Hi _]. intros <-. rewrite Nat2Z.id in Hl. rewrite Hi in Hl. done.
  - destruct (Z.ltb_spec h 0); [lia|]. cbn [snd upd_tab]. unfold YOS_FD_FCLOSE_TOMB. cbn [Z.leb Z.compare andb tab].
    by apply slot_set_eq.
Qed.

(** A directory opened by path and then made current with [fchdir] gives
    exactly the canonical form of that path, taken from the guest's own
    directory when it was relative, whatever the host's directory is. *)
Theorem open_fchdir_canonical w s r e :
  tab_ok (tab w) -> 0 <= r -> free_slot (fds (tab w)) <> None ->
  is_abs (cwd (tab w)) = true -> s <> [] ->
  let full := if is_abs s then s else cwd (tab w) ++ (if ends_slash (cwd (tab w)) then [] else [slash]) ++ s in
  zlen full < PATH_MAX - 1 ->
  exists fd w1 w2, yos_open_host remap_errno_h2g w s r e = (fd, w1) /\ 0 <= fd < 256 /\
    yos_fchdir remap_errno_h2g w1 fd (inr true) = (0, w2) /\ cwd (tab w2) = render (normal full).
Proof.
  intros T Hr Hfree Hcwd Hs full Hlen.
  assert (Hfa : is_abs full = true).
  { unfold full. destruct (is_abs s) eqn:Es; [done|]. by destruct (cwd (tab w)). }
  assert (Hclip : forall p, zlen p < PATH_MAX -> clip p = p).
  { intros p Hp. unfold clip. apply take_ge. unfold zlen in Hp. lia. }
  assert (Hrec : recorded_path (cwd (tab w)) s = render (normal full)).
  { unfold recorded_path. destruct (canon_render full Hfa Hlen) as [<- _]. f_equal.
    rewrite <-(Hclip full) by lia. f_equal. unfold full. destruct (is_abs s); [done|]. by destruct (cwd (tab w)). }
  unfold yos_open_host. destruct (Z.ltb_spec r 0); [lia|].
  unfold yos_fd_alloc_with_path, yos_fd_alloc, host_opened. destruct (Z.ltb_spec r 0); [lia|]. cbn [tab].
  destruct (free_slot (fds (tab w))) as [i|] eqn:E; [|done]. apply free_slot_spec in E as [Hl _].
  apply lookup_lt_Some in Hl. rewrite (tk_len _ T) in Hl. destruct (Z.ltb_spec (Z.of_nat i) 0); [lia|].
  remember (Z.of_nat i) as fd eqn:Efd. assert (Hfd : 0 <= fd < 256) by lia. assert (i = Z.to_nat fd) as -> by lia. clear Efd.
  set (c1 := set_slot (Z.to_nat fd) r None (tab w)).
  set (c2 := set_slot (Z.to_nat fd) (slot_fd c1 fd) (Some (recorded_path (cwd c1) s)) c1).
  eexists fd, (World ({[r]} ∪ host_open w) (closes w) c2), _. split; [done|]. split; [done|].
  assert (Hs2 : slot_fd c2 fd = r /\ slot_path c2 fd = Some (render (normal full))).
  { unfold c2, slot_fd, slot_path, c1. cbn [fds fd_paths set_slot cwd].
    pose proof (tk_len _ T). pose proof (tk_plen _ T).
    rewrite !list_lookup_insert_eq by (rewrite ?length_insert; lia). by rewrite Hrec. }
  destruct Hs2 as [Hs2 Hp2]. unfold yos_fchdir. rewrite get_valid by (done || (cbn [tab]; lia)). cbn [tab].
  rewrite Hs2. destruct (Z.ltb_spec r 0); [lia|]. unfold YOS_FD_MAX.
  destruct (Z.leb_spec 0 fd); [|lia]. destruct (Z.ltb_spec fd 256); [|lia]. cbn [andb]. rewrite Hp2. split; [done|].
  cbn [tab upd_tab cwd set_cwd]. apply Hclip. destruct (canon_render full Hfa Hlen) as (_ & ? & _). lia.
Qed.
End System.

(** * Witnesses *)

Lemma inj_of_NoDup (l : list Z) :
  NoDup (filter (fun h => 0 <= h) l) ->
  forall i j h, l !! i = Some h -> l !! j = Some h -> 0 <= h -> i = j.
Proof.
  induction l as [|x l IH]; intros Hn i j h Hi Hj Hh; [done|].
  assert (Hin : forall k, l !! k = Some x -> 0 <= x -> False).
  { intros k Hk Hx. rewrite filter_cons_True in Hn by done. apply NoDup_cons in Hn as [Hn _].
    apply Hn, list_elem_of_filter. split; [done|]. by eapply list_elem_of_lookup_2. }
  assert (Hl : NoDup (filter (fun h => 0 <= h) l)).
  { destruct (decide (0 <= x)); [rewrite filter_cons_True in Hn by done; by apply NoDup_cons in Hn as []|].
    by rewrite filter_cons_False in Hn. }
  destruct i as [|i], j as [|j]; simpl in *; simplify_eq; [done| | |].
  - exfalso. by eapply Hin.
  - exfalso. by eapply Hin.
  - f_equal. by eapply IH.
Qed.

(** The three streams of a guest; the table of a second one is full. *)
Definition demo_fds : fd_ctx :=
  FdCtx (ExecCtx (fun _ => 0) 65536 0 0 [] [] 0 0 0 0) ([10; 11; 12] ++ replicate 253 (-1)) (replicate 256 None) [slash] true.
Definition demo_world : world := World {[0; 1; 2; 10; 11; 12]} [] demo_fds.
Definition full_world : world :=
  World {[0; 1; 2; 10]} [] (FdCtx (f_exec demo_fds) (10 :: replicate 255 YOS_FD_FCLOSE_TOMB) (replicate 256 None) [slash] true).
(** A guest with its streams, and one whose table is full. *)
Definition demo_full : fd_ctx := FdCtx (f_exec demo_fds) (13 :: replicate 255 YOS_FD_FCLOSE_TOMB) (replicate 256 None) [slash] true.
Definition demo_sys : fd_sys := FdSys {[0; 1; 2; 10; 11; 12; 13]} [FdGuest demo_fds []; FdGuest demo_full []].

Lemma demo_tab_ok : tab_ok demo_fds.
Proof. split; [done|done|]. apply inj_of_NoDup. apply (bool_decide_eq_true_1 _). by vm_compute. Qed.

Lemma full_tab_ok : tab_ok (tab full_world).
Proof. split; [done|done|]. apply inj_of_NoDup. apply (bool_decide_eq_true_1 _). by vm_compute. Qed.

Lemma demo_full_ok : tab_ok demo_full.
Proof. split; [done|done|]. apply inj_of_NoDup. apply (bool_decide_eq_true_1 _). by vm_compute. Qed.

Lemma demo_sys_ok : sys_ok demo_sys.
Proof.
  split.
  - intros [|[|i]] t Ht; [| |done]; injection Ht as <-; (split; cbn [g_tab g_todo]; [|by apply NoDup_nil|by intros ? ?%elem_of_nil|by intros ? ?%elem_of_nil]);
      [apply demo_tab_ok|apply demo_full_ok].
  - intros [|[|i]] t Ht; [| |done]; injection Ht as <-; apply (bool_decide_eq_true_1 _); by vm_compute.
  - assert (H : held (FdGuest demo_fds []) ## held (FdGuest demo_full [])) by (apply (bool_decide_eq_true_1 _); by vm_compute).
    intros [|[|i]] [|[|j]] t u Ht Hu Hne; try done; injection Ht as <-; injection Hu as <-; done.
Qed.

Lemma demo_not_owned h : bool_decide (h ∈ owned demo_fds) = false -> h ∉ owned demo_fds.
Proof. apply bool_decide_eq_false_1. Qed.

(** The full guest calls dup: the host answers 20, and 20 is to be closed twice.
    After the first close the other guest opens a file, and is given 20. *)
Definition demo_dup : world := (yos_dup id (World (sys_open demo_sys) [] demo_full) 0 20 0).2.
Definition demo_sys1 : fd_sys := FdSys (sys_open demo_sys ∪ host_open demo_dup ∪ {[20]}) [FdGuest demo_fds []; FdGuest (tab demo_dup) [(20, false); (20, true)]].
Definition demo_sys2 : fd_sys := FdSys (sys_open demo_sys1 ∖ {[20]}) [FdGuest demo_fds []; FdGuest (tab demo_dup) [(20, true)]].
Definition demo_open : world := (yos_open_host id (World (sys_open demo_sys2) [] demo_fds) demo_path 20 0).2.
Definition demo_sys3 : fd_sys :=
  FdSys (sys_open demo_sys2 ∪ host_open demo_open ∪ ∅) [FdGuest (tab demo_open) []; FdGuest (tab demo_dup) [(20, true)]].

Lemma demo_run (h2g : Z -> Z) : h2g = id -> rtc (sys_step h2g (fun _ => 0) (fun _ => 0) id) demo_sys demo_sys3.
Proof.
  intros ->. eapply rtc_l; [|eapply rtc_l; [|eapply rtc_once]].
  - apply (st_call id (fun _ => 0) (fun _ => 0) id demo_sys 1 demo_full demo_dup eq_refl).
    apply op_dup. right. apply (bool_decide_eq_true_1 _). by vm_compute.
  - exact (st_close id (fun _ => 0) (fun _ => 0) id demo_sys1 1 (tab demo_dup) 20 false [(20, true)] eq_refl).
  - apply (st_call id (fun _ => 0) (fun _ => 0) id demo_sys2 0 demo_fds demo_open eq_refl).
    apply op_open. right. apply (bool_decide_eq_true_1 _). by vm_compute.
Qed.

(** The way out is taken: the second close of the full guest hits the file that
    the other one has just opened. *)
Theorem double_close_hits_stranger :
  exists s s' g, sys_ok s /\ rtc (sys_step id (fun _ => 0) (fun _ => 0) id) s s' /\
    sys_guests s' !! 0%nat = Some g /\ fds (g_tab g) !! 3%nat = Some 20 /\ 20 ∉ sys_open s'.
Proof.
  exists demo_sys. eexists _, _. split; [apply demo_sys_ok|]. split.
  - eapply rtc_r; [by apply demo_run|]. exact (st_close id (fun _ => 0) (fun _ => 0) id demo_sys3 1 (tab demo_dup) 20 true [] eq_refl).
  - split; [reflexivity|]. split; [by vm_compute|]. cbn [sys_open]. set_solver.
Qed.


Lemma fd_alloc_lowest_witness :
  exists r w', yos_fd_alloc demo_world 20 = (r, w') /\ (slot_fd (tab w') r = 20 \/ closes w' = [20]).
Proof.
  pose proof (fd_alloc_lowest demo_world 20 demo_tab_ok ltac:(lia)) as H.
  destruct (yos_fd_alloc demo_world 20) as [r w']. refine (ex_intro _ r (ex_intro _ w' (conj eq_refl _))).
  destruct H as [(_ & _ & H & _)|(_ & _ & _ & H)]; [exact (or_introl H)|exact (or_intror H)].
Defined.

Lemma dup2_semantics_witness : (yos_dup2 id demo_world 0 0 20 0).1 = 0.
Proof.
  pose proof (dup2_semantics id demo_world 0 0 20 0 demo_tab_ok ltac:(lia) ltac:(by vm_compute) ltac:(lia)
    (demo_not_owned 20 ltac:(by vm_compute))) as H.
  destruct (yos_dup2 id demo_world 0 0 20 0) as [x w'] eqn:E. exact (proj1 (proj1 H eq_refl)).
Defined.

Lemma dup_full_double_close_witness :
  exists w', yos_dup id full_world 0 20 0 = (-1, w') /\ closes w' = [20; 20].
Proof.
  destruct (dup_full_double_close id full_world 0 20 0 full_tab_ok ltac:(lia) ltac:(by vm_compute) ltac:(lia) ltac:(by vm_compute))
    as (w' & H1 & H2 & _).
  exact (ex_intro _ w' (conj H1 H2)).
Defined.

Lemma tombstone_until_assigned_witness : (yos_fd_alloc (yos_fd_release_slot demo_world 3) 20).1 <> 3.
Proof.
  exact (proj1 (proj2 (proj2 (tombstone_until_assigned id (fun _ => 0) (fun _ => 0) demo_world 3 20 demo_tab_ok ltac:(lia) ltac:(lia)
    (demo_not_owned 20 ltac:(by vm_compute)))))).
Defined.

Lemma open_fchdir_canonical_witness :
  exists fd w1 w2, yos_open_host id demo_world demo_path 20 0 = (fd, w1) /\
    yos_fchdir id w1 fd (inr true) = (0, w2) /\ cwd (tab w2) = render (normal demo_path).
Proof.
  destruct (open_fchdir_canonical id demo_world demo_path 20 0 demo_tab_ok ltac:(lia) ltac:(by vm_compute) eq_refl ltac:(done)
    ltac:(by vm_compute)) as (fd & w1 & w2 & H1 & _ & H2 & H3).
  exact (ex_intro _ fd (ex_intro _ w1 (ex_intro _ w2 (conj H1 (conj H2 H3))))).
Defined.
