(* ===== verification/Fcntl.v ===== *)
(** Fcntl and the open and at flags (src/src/yos/impl/io/io.c): FreeBSD's
    numbers on the guest's side, Linux's on the host's. *)
From stdpp Require Import gmap.
From S2P Require Import Prelude Memory Ctx Path PathProps FdTable FdProps.

(** * Commands *)

Definition FB_F_DUPFD : Z := 0.
Definition FB_F_SETFL : Z := 4.
Definition FB_F_GETFL : Z := 3.
Definition FB_F_DUPFD_CLOEXEC : Z := 17.

Definition F_GETFD : Z := 1.
Definition F_SETFD : Z := 2.
Definition F_GETFL : Z := 3.
Definition F_SETFL : Z := 4.
Definition F_SETOWN : Z := 8.

Definition fcntl_cmd_fb_to_lx (cmd : Z) : Z :=
  match cmd with
  | 0 => F_DUPFD
  | 1 => F_GETFD
  | 2 => F_SETFD
  | 3 => F_GETFL
  | 4 => F_SETFL
  | 5 => 9
  | 6 => F_SETOWN
  | 11 => 5
  | 12 => 6
  | 13 => 7
  | 17 => F_DUPFD_CLOEXEC
  | _ => cmd
  end.

(** * Flags *)

(** [if (f & a) r |= b;] for each pair of a table, in order. *)
Definition remap (table : list (Z * Z)) (f r : Z) : Z :=
  foldl (fun r '(a, b) => if Z.land f a =? 0 then r else Z.lor r b) r table.

Definition FB_O_EXEC : Z := 0x40000.
Definition FB_O_CLOEXEC : Z := 0x100000.
Definition FB_O_PATH : Z := 0x400000.

(** NONBLOCK, APPEND, ASYNC, SYNC, NOFOLLOW, CREAT, TRUNC, EXCL, NOCTTY,
    DIRECT, DIRECTORY, EXEC, CLOEXEC, PATH. *)
Definition oflags_table : list (Z * Z) :=
  [(0x4, 0x800); (0x8, 0x400); (0x40, 0x2000); (0x80, 0x101000); (0x100, 0x20000); (0x200, 0x40); (0x400, 0x200);
   (0x800, 0x80); (0x8000, 0x100); (0x10000, 0x4000); (0x20000, 0x10000); (FB_O_EXEC, 0x200000);
   (FB_O_CLOEXEC, 0x80000); (FB_O_PATH, 0x200000)].

Definition oflags_fb_to_lx (f : Z) : Z := remap oflags_table f (Z.land f 3).

Definition oflags_back : list (Z * Z) :=
  [(0x800, 0x4); (0x400, 0x8); (0x2000, 0x40); (0x101000, 0x80); (0x20000, 0x100); (0x40, 0x200); (0x200, 0x400);
   (0x80, 0x800); (0x100, 0x8000); (0x4000, 0x10000); (0x10000, 0x20000); (0x80000, FB_O_CLOEXEC);
   (0x200000, FB_O_PATH)].

Definition oflags_lx_to_fb (f : Z) : Z := remap oflags_back f (Z.land f 3).

(** EACCESS, SYMLINK_NOFOLLOW, SYMLINK_FOLLOW, REMOVEDIR, EMPTY_PATH. *)
Definition yos_at_flags_fb_to_lx (f : Z) : Z :=
  remap [(0x100, 0x200); (0x200, 0x100); (0x400, 0x400); (0x800, 0x200); (0x4000, 0x1000)] f 0.

(** * fcntl *)

Section Fcntl.
Variable remap_errno_h2g : Z -> Z.

(** The integer behind the guest's va_list. *)
Definition fcntl_arg (c : exec_ctx) (hcmd arg : Z) : Z :=
  if (hcmd =? F_DUPFD) || (hcmd =? F_DUPFD_CLOEXEC) || (hcmd =? F_SETFD) || (hcmd =? F_SETFL) || (hcmd =? F_SETOWN)
  then if negb (arg =? 0) && (u32 (arg + 4) <=? memory_size c) then s32 (ld32 (mem c) (u32 arg)) else arg
  else arg.

(** [ans hfd hcmd arg]: what the host's fcntl answers; [e]: its errno. *)
Definition yos_fcntl (ans : Z -> Z -> Z -> Z) (e : Z) (w : world) (fd cmd arg : Z) : Z * world :=
  let '(hfd, w1) := yos_fd_get remap_errno_h2g w fd in
  if hfd <? 0 then fd_errno remap_errno_h2g w1 EBADF
  else
    let hcmd := fcntl_cmd_fb_to_lx cmd in
    let real_arg := fcntl_arg (f_exec (tab w1)) hcmd arg in
    if (hcmd =? F_DUPFD) || (hcmd =? F_DUPFD_CLOEXEC) then
      let r := ans hfd hcmd real_arg in
      if r <? 0 then fd_errno remap_errno_h2g w1 e else yos_fd_alloc (host_opened r w1) r
    else if hcmd =? F_SETFL then
      fd_errno_check remap_errno_h2g w1 (ans hfd hcmd (oflags_fb_to_lx real_arg)) e
    else if hcmd =? F_GETFL then
      let r := ans hfd hcmd 0 in
      if r <? 0 then fd_errno remap_errno_h2g w1 e else (oflags_lx_to_fb r, w1)
    else fd_errno_check remap_errno_h2g w1 (ans hfd hcmd real_arg) e.

End Fcntl.

(** * Properties *)

(** fcntl: the flags that survive a trip to the host and back, and the minimum
    that F_DUPFD does not honour. *)

(** The guest flags that have a host equivalent of their own. *)
Definition portable : Z := 0x538fcf.

(** A flag word, rebuilt from its access mode and one boolean per entry. *)
Definition has (f a : Z) : bool := negb (Z.land f a =? 0).

Fixpoint remap_b (table : list (Z * Z)) (bs : list bool) (r : Z) : Z :=
  match table, bs with
  | (_, b) :: t, x :: bs' => remap_b t bs' (if x then Z.lor r b else r)
  | _, _ => r
  end.

Lemma remap_bools table f r : remap table f r = remap_b table (map (fun '(a, _) => has f a) table) r.
Proof.
  unfold remap. revert r. induction table as [|[a b] t IH]; intros r; [done|]. cbn [foldl map remap_b]. rewrite IH.
  unfold has. by destruct (Z.land f a =? 0).
Qed.

(** Every boolean vector of a length. *)
Fixpoint all_bools (n : nat) (p : list bool -> bool) : bool :=
  match n with O => p [] | S n' => all_bools n' (fun bs => p (true :: bs)) && all_bools n' (fun bs => p (false :: bs)) end.

Lemma all_bools_spec n p bs : all_bools n p = true -> length bs = n -> p bs = true.
Proof.
  revert p bs. induction n as [|n IH]; intros p bs H Hl; simpl in H.
  - by destruct bs.
  - apply andb_true_iff in H as [H1 H2]. destruct bs as [|[] bs]; [done| |]; injection Hl as Hl.
    + by apply (IH (fun bs => p (true :: bs))).
    + by apply (IH (fun bs => p (false :: bs))).
Qed.

(** [portable], as its access mode and the flags that are single bits. *)
Definition guest_bits : list Z := map fst oflags_table.

Definition rebuild (acc : Z) (bs : list bool) : Z :=
  foldl (fun r '(a, x) => if x : bool then Z.lor r a else r) acc (zip (filter (fun a => a <> FB_O_EXEC) guest_bits) bs).

Lemma land_pow2 f k : 0 <= k -> Z.land f (2 ^ k) = if has f (2 ^ k) then 2 ^ k else 0.
Proof.
  intros Hk. assert (E : Z.land f (2 ^ k) = if Z.testbit f k then 2 ^ k else 0).
  { apply Z.bits_inj'. intros n Hn. rewrite Z.land_spec, Z.pow2_bits_eqb by done. destruct (Z.eqb_spec k n) as [<-|].
    - rewrite andb_true_r. destruct (Z.testbit f k) eqn:E; [by rewrite Z.pow2_bits_true|by rewrite Z.bits_0].
    - rewrite andb_false_r. destruct (Z.testbit f k); [by rewrite Z.pow2_bits_false|by rewrite Z.bits_0]. }
  unfold has. rewrite E. destruct (Z.testbit f k); [|done].
  destruct (Z.eqb_spec (2 ^ k) 0); [|done]. pose proof (Z.pow_pos_nonneg 2 k). lia.
Qed.

Lemma land_bits f l acc :
  Forall (fun a => exists k, 0 <= k /\ a = 2 ^ k) l ->
  Z.land f (foldl Z.lor acc l) = foldl (fun r '(a, x) => if x : bool then Z.lor r a else r) (Z.land f acc) (zip l (map (has f) l)).
Proof.
  intros Hl. revert acc. induction Hl as [|a l (k & Hk & ->) _ IH]; intros acc; [done|]. cbn [foldl zip zip_with map].
  rewrite IH, Z.land_lor_distr_r, land_pow2 by done. destruct (has f (2 ^ k)); [done|]. by rewrite Z.lor_0_r.
Qed.

Lemma land_portable f :
  Z.land f portable = rebuild (Z.land f 3) (map (has f) (filter (fun a => a <> FB_O_EXEC) guest_bits)).
Proof.
  unfold rebuild. rewrite <-land_bits; [f_equal|].
  assert (H : Forall (fun a => a = 2 ^ Z.log2 a) (filter (fun a => a <> FB_O_EXEC) guest_bits))
    by (apply (bool_decide_eq_true_1 _); by vm_compute).
  eapply Forall_impl; [exact H|]. intros a Ha. exists (Z.log2 a). split; [apply Z.log2_nonneg|done].
Qed.

(** The round trip on every vector, in the order of [oflags_table]. *)
Lemma trip_all :
  forallb (fun acc => all_bools 14 (fun bs =>
    oflags_lx_to_fb (remap_b oflags_table bs acc) =?
      Z.lor (rebuild acc (take 11 bs ++ drop 12 bs)) (if nth 11 bs false then FB_O_PATH else 0))) [0; 1; 2; 3] = true.
Proof. by vm_compute. Qed.

Definition table_has (f : Z) : list bool := map (fun '(a, _) => has f a) oflags_table.

Lemma table_bits f :
  take 11 (table_has f) ++ drop 12 (table_has f) = map (has f) (filter (fun a => a <> FB_O_EXEC) guest_bits).
Proof. reflexivity. Qed.

Lemma table_exec f : nth 11 (table_has f) false = has f FB_O_EXEC.
Proof. reflexivity. Qed.

(** Open flags translated to the host and read back (F_SETFL, F_GETFL) are
    the guest's own, for every combination of the flags with a host
    equivalent; O_EXEC comes back as O_PATH, and the others are dropped. *)
Theorem oflags_roundtrip f :
  oflags_lx_to_fb (oflags_fb_to_lx f) = Z.lor (Z.land f portable) (if has f FB_O_EXEC then FB_O_PATH else 0).
Proof.
  unfold oflags_fb_to_lx. rewrite remap_bools, land_portable. fold (table_has f).
  assert (Hacc : Z.land f 3 ∈ [0; 1; 2; 3]).
  { change 3 with (Z.ones 2) at 1. rewrite Z.land_ones by lia. change (2 ^ 2) with 4.
    pose proof (Z.mod_pos_bound f 4 ltac:(lia)). assert (f mod 4 = 0 \/ f mod 4 = 1 \/ f mod 4 = 2 \/ f mod 4 = 3) as C by lia.
    destruct C as [-> |[-> |[-> | ->]]]; set_solver. }
  pose proof trip_all as H. rewrite forallb_forall in H. apply list_elem_of_In in Hacc. specialize (H _ Hacc).
  apply (all_bools_spec _ _ (table_has f)) in H; [|done].
  apply Z.eqb_eq in H. rewrite table_bits, table_exec in H. exact H.
Qed.

Section DupFd.
Variable remap_errno_h2g : Z -> Z.

(** [fcntl(fd, F_DUPFD, min)] and its CLOEXEC form hand the minimum to the
    host only: when a slot is free the guest gets the lowest one, also below
    [min], while POSIX asks for the lowest one at or above it. *)
Theorem dupfd_ignores_minimum ans e w fd cmd arg i :
  cmd = FB_F_DUPFD \/ cmd = FB_F_DUPFD_CLOEXEC ->
  0 <= fd < 256 -> 0 <= slot_fd (tab w) fd -> free_slot (fds (tab w)) = Some i ->
  0 <= ans (slot_fd (tab w) fd) (fcntl_cmd_fb_to_lx cmd) (fcntl_arg (f_exec (tab w)) (fcntl_cmd_fb_to_lx cmd) arg) ->
  (yos_fcntl remap_errno_h2g ans e w fd cmd arg).1 = Z.of_nat i /\
  (i = 0%nat -> forall min, 0 < min -> (yos_fcntl remap_errno_h2g ans e w fd cmd arg).1 < min).
Proof.
  intros Hcmd Hf Hs Hfree Ha.
  assert (E : (yos_fcntl remap_errno_h2g ans e w fd cmd arg).1 = Z.of_nat i).
  { unfold yos_fcntl, yos_fd_get, AT_FDCWD, YOS_FBSD_AT_FDCWD, YOS_FD_MAX.
    destruct (Z.eqb_spec fd (-100)); [lia|]. destruct (Z.ltb_spec fd 0); [lia|]. destruct (Z.leb_spec 256 fd); [lia|].
    cbn [orb]. destruct (Z.ltb_spec (slot_fd (tab w) fd) 0); [lia|].
    assert (Hc : (fcntl_cmd_fb_to_lx cmd =? F_DUPFD) || (fcntl_cmd_fb_to_lx cmd =? F_DUPFD_CLOEXEC) = true)
      by (destruct Hcmd as [-> | ->]; done).
    destruct (Z.ltb_spec (slot_fd (tab w) fd) 0); [lia|]. rewrite Hc.
    set (r := ans _ _ _) in *. destruct (Z.ltb_spec r 0); [lia|]. unfold yos_fd_alloc, host_opened.
    destruct (Z.ltb_spec r 0); [lia|]. cbn [tab]. by rewrite Hfree. }
  split; [done|]. intros -> min Hm. rewrite E. simpl. lia.
Qed.
End DupFd.

(** * Witness *)

Definition dup_world : world :=
  World {[10]} [] (FdCtx (ExecCtx (fun _ => 0) 65536 0 0 [] [] 0 0 0 0) (-1 :: 10 :: replicate 254 (-1)) (replicate 256 None) [slash] true).

Lemma dupfd_ignores_minimum_witness : (yos_fcntl id (fun _ _ _ => 20) 0 dup_world 1 FB_F_DUPFD 10).1 = 0.
Proof.
  exact (proj1 (dupfd_ignores_minimum id (fun _ _ _ => 20) 0 dup_world 1 FB_F_DUPFD 10 0 (or_introl eq_refl) ltac:(lia)
    ltac:(by vm_compute) eq_refl ltac:(lia))).
Defined.
