(* ===== verification/GuestHeap.v ===== *)
(** What the heap of a guest promises to the components that allocate in it:
    a type class whose laws a client is proved against, and its instance for
    the allocator of alloc.c. *)
From S2P Require Import Prelude Memory Ctx Alloc FreeList HeapInv AllocProps AllocThms.

(** An operation that keeps the buffers [ps] and everything the allocator does
    not manage. *)
Record kept (territory : exec_ctx -> Z -> Prop) (c c' : exec_ctx) (ps : list region) : Prop := {
  kp_size : memory_size c' = memory_size c;
  kp_errno : errno_off c' = errno_off c;
  kp_terr : forall a, territory c' a <-> territory c a;
  kp_bytes : forall a, in_regions a ps \/ ~ territory c a -> ld8 (mem c') a = ld8 (mem c) a
}.

(** [heap_inv c ps]: the buffers [ps] are allocated, each handed out at its
    first byte.  [territory]: the bytes the allocator may write. *)
Class GuestHeap (malloc : exec_ctx -> Z -> Z * exec_ctx) (free : exec_ctx -> Z -> option exec_ctx) : Type := {
  heap_inv : exec_ctx -> list region -> Prop;
  territory : exec_ctx -> Z -> Prop;
  gh_bounds : forall c ps, heap_inv c ps ->
    pairwise ps /\ Forall (fun p => 0 < r_addr p /\ r_end p <= memory_size c) ps /\
    (forall a, in_regions a ps -> territory c a);
  gh_perm : forall c ps qs, ps ≡ₚ qs -> heap_inv c ps -> heap_inv c qs;
  gh_malloc : forall c ps n, heap_inv c ps -> 0 < n <= MALLOC_MAX ->
    malloc c n = (0, c) \/
    exists p c', malloc c n = (r_addr p, c') /\ n <= r_len p /\ heap_inv c' (p :: ps) /\ kept territory c c' ps;
  gh_free : forall c p ps, heap_inv c (p :: ps) ->
    exists c', free c (r_addr p) = Some c' /\ heap_inv c' ps /\ kept territory c c' ps;
  gh_write : forall c ps m', heap_inv c ps ->
    (forall a, territory c a -> ~ in_regions a ps -> ld8 m' a = ld8 (mem c) a) ->
    heap_inv (set_mem m' c) ps /\ forall a, territory (set_mem m' c) a <-> territory c a
}.

(** * The allocator of alloc.c *)

Definition alloc_inv (c : exec_ctx) (ps : list region) : Prop :=
  exists fl ul, heap_ok c fl ul /\ ps = map payload ul.

Definition alloc_territory (c : exec_ctx) (a : Z) : Prop := alloc_lo c <= a < alloc_hi c.

Lemma in_payloads a ul : in_regions a (map payload ul) -> in_regions a ul.
Proof.
  intros (p & Hp & Ha). apply list_elem_of_fmap in Hp as (b & -> & Hb). exists b. split; [done|].
  unfold in_region, payload, r_end, HDR_SIZE in *. simpl in *. lia.
Qed.

Lemma pairwise_payload ul : pairwise ul -> pairwise (map payload ul).
Proof.
  induction ul as [|b ul IH]; [done|]. intros [H1 H2]. split; [|by apply IH].
  intros s Hs. apply list_elem_of_fmap in Hs as (b' & -> & Hb'). specialize (H1 b' Hb').
  unfold disjoint_r, r_end, payload, HDR_SIZE in *. simpl. lia.
Qed.

Lemma alloc_kept c c' fl ul :
  heap_ok c fl ul -> same_outside fl (mem c) (mem c') ->
  c' = set_mem (mem c') (set_alloc_free_head (alloc_free_head c') c) ->
  kept alloc_territory c c' (map payload ul).
Proof.
  intros Hok Hs He. split; [by rewrite He|by rewrite He|intros a; by rewrite He|].
  intros a Ha. apply Hs. intros Hf. destruct Ha as [Ha|Ha].
  - by apply (hp_disj _ _ _ Hok a), in_payloads.
  - apply Ha, (hp_cover _ _ _ Hok). by left.
Qed.

Lemma alloc_bounds c ps :
  alloc_inv c ps -> pairwise ps /\ Forall (fun p => 0 < r_addr p /\ r_end p <= memory_size c) ps /\
    (forall a, in_regions a ps -> alloc_territory c a).
Proof.
  intros (fl & ul & Hok & ->). split_and!.
  - apply pairwise_payload, Hok.
  - apply Forall_forall. intros p Hp. apply list_elem_of_fmap in Hp as (b & -> & Hb).
    destruct (used_blk _ _ _ _ Hok Hb) as [(H1 & _ & _ & H2 & H3) _]. pose proof (hp_lo _ _ _ Hok). pose proof (hp_hi _ _ _ Hok).
    unfold payload, r_end, HDR_SIZE in *. simpl. lia.
  - intros a Ha%in_payloads. apply (hp_cover _ _ _ Hok). by right.
Qed.

Lemma heap_ok_perm c fl ul ul' : ul ≡ₚ ul' -> heap_ok c fl ul -> heap_ok c fl ul'.
Proof.
  intros Hp Hok. pose proof Hok as [Hlo Hhi Hseg Hsp Hf Hu Hh Hpw Hd Hc].
  assert (Hr : forall a, in_regions a ul' <-> in_regions a ul).
  { intros a. unfold in_regions. split; intros (r & Hr & Ha); exists r; [by rewrite Hp|by rewrite <-Hp]. }
  split; try done.
  - by rewrite <-Hp. - by rewrite <-Hp. - by rewrite <-Hp.
  - intros a Ha. rewrite Hr. by apply Hd.
  - intros a. rewrite Hr. apply Hc.
Qed.

Lemma alloc_perm c ps qs : ps ≡ₚ qs -> alloc_inv c ps -> alloc_inv c qs.
Proof.
  intros Hp (fl & ul & Hok & ->). symmetry in Hp. apply Permutation_map_inv in Hp as (ul' & -> & Hp).
  exists fl, ul'. split; [|done]. by eapply heap_ok_perm.
Qed.

Lemma alloc_malloc c ps n :
  alloc_inv c ps -> 0 < n <= MALLOC_MAX ->
  yos_malloc c n = (0, c) \/
  exists p c', yos_malloc c n = (r_addr p, c') /\ n <= r_len p /\ alloc_inv c' (p :: ps) /\ kept alloc_territory c c' ps.
Proof.
  intros (fl & ul & Hok & ->) Hn. pose proof (malloc_spec c fl ul n Hok ltac:(lia)) as H.
  destruct (yos_malloc c n) as [p c']. destruct H as [(-> & -> & _)|(b & fl' & -> & H1 & H2 & _ & H3 & H4)]; [by left|right].
  exists (payload b), c'. split_and!; [done| |by exists fl', (b :: ul)|by eapply alloc_kept].
  unfold payload, r_end in *. simpl. lia.
Qed.

Lemma alloc_free c p ps :
  alloc_inv c (p :: ps) ->
  exists c', yos_free c (r_addr p) = Some c' /\ alloc_inv c' ps /\ kept alloc_territory c c' ps.
Proof.
  intros (fl & [|b ul] & Hok & He); [done|]. injection He as -> ->.
  destruct (free_spec c fl ul b (r_addr (payload b)) Hok) as (c' & H1 & H2 & H3 & H4); [by left|].
  exists c'. split_and!; [done|by exists (fl_insert b fl), ul|].
  assert (Hd : forall a, in_regions a ul -> ~ in_region a b).
  { intros a (s & Hs & Ha) Hb. pose proof (hp_pw _ _ _ Hok) as [Hp _]. specialize (Hp s Hs).
    by apply (disjoint_r_bytes b s a Hp). }
  split; [by rewrite H4|by rewrite H4|intros a; by rewrite H4|]. intros a Ha. apply H3.
  rewrite in_regions_cons. intros [Hb|Hf]; destruct Ha as [Ha|Ha].
  - apply (Hd a); [by apply in_payloads|done].
  - apply Ha, (hp_cover _ _ _ Hok). right. exists b. split; [by left|done].
  - apply (hp_disj _ _ _ Hok a Hf). apply in_regions_cons. right. by apply in_payloads.
  - apply Ha, (hp_cover _ _ _ Hok). by left.
Qed.

Lemma alloc_write c ps m' :
  alloc_inv c ps -> (forall a, alloc_territory c a -> ~ in_regions a ps -> ld8 m' a = ld8 (mem c) a) ->
  alloc_inv (set_mem m' c) ps /\ forall a, alloc_territory (set_mem m' c) a <-> alloc_territory c a.
Proof.
  intros (fl & ul & Hok & ->) Hw. split; [|done]. exists fl, ul. split; [|done]. by apply heap_ok_writes.
Qed.

#[export] Instance alloc_guest_heap : GuestHeap yos_malloc yos_free := {
  heap_inv := alloc_inv;
  territory := alloc_territory;
  gh_bounds := alloc_bounds;
  gh_perm := alloc_perm;
  gh_malloc := alloc_malloc;
  gh_free := alloc_free;
  gh_write := alloc_write
}.

(** * What every client uses *)

Section Clients.
Context {malloc : exec_ctx -> Z -> Z * exec_ctx} {free : exec_ctx -> Z -> option exec_ctx}.
Context {GH : GuestHeap malloc free}.

Lemma kept_refl c ps : kept territory c c ps.
Proof. done. Qed.

Lemma kept_trans c1 c2 c3 ps : kept territory c1 c2 ps -> kept territory c2 c3 ps -> kept territory c1 c3 ps.
Proof.
  intros [A1 B1 C1 D1] [A2 B2 C2 D2]. split; [congruence..| |].
  - intros a. rewrite C2. apply C1.
  - intros a Ha. rewrite D2, D1; [done|done|]. by rewrite C1.
Qed.

Lemma kept_sub c c' ps qs : kept territory c c' ps -> (forall p, p ∈ qs -> p ∈ ps) -> kept territory c c' qs.
Proof.
  intros [A B C D] Hs. split; [done..|]. intros a [(p & Hp & Ha)|Ha]; apply D; [left|by right].
  exists p. auto.
Qed.

(** A store inside one buffer. *)
Lemma write_buffer c b ps m' :
  heap_inv c (b :: ps) -> (forall a, ~ in_region a b -> ld8 m' a = ld8 (mem c) a) ->
  heap_inv (set_mem m' c) (b :: ps) /\ kept territory c (set_mem m' c) ps.
Proof.
  intros Hi Hw. destruct (gh_write c (b :: ps) m' Hi) as [H1 H2].
  { intros a _ Ha. apply Hw. intros Hb. apply Ha, in_regions_cons. by left. }
  split; [done|]. split; [done..|]. intros a Ha. apply Hw. intros Hb.
  destruct (gh_bounds _ _ Hi) as ([Hd _] & _ & Ht). destruct Ha as [(p & Hp & Hin)|Hn].
  - by apply (disjoint_r_bytes b p a (Hd p Hp)).
  - apply Hn, Ht, in_regions_cons. by left.
Qed.

(** A word the program may store to: in its own buffers, or outside the heap. *)
Definition program_word (c : exec_ctx) (ps : list region) (a : Z) : Prop :=
  forall x, a <= x < a + 4 -> in_regions x ps \/ ~ territory c x.

Lemma store_word c ps qs a v :
  heap_inv c qs -> (forall r, r ∈ ps -> r ∈ qs) -> program_word c ps a ->
  heap_inv (set_mem (st32 (mem c) a v) c) qs /\ forall x, territory (set_mem (st32 (mem c) a v) c) x <-> territory c x.
Proof.
  intros Hi Hsub Hw. apply gh_write; [done|]. intros x Ht Hn. apply (st32_frame (mem c) a v x (x + 1)); [|lia].
  destruct (Z.le_gt_cases (x + 1) a); [by left|right]. destruct (Z.le_gt_cases (a + 4) x); [done|]. exfalso.
  destruct (Hw x ltac:(lia)) as [(r & Hr & Hin)|Ho]; [|done]. apply Hn. exists r. auto.
Qed.
End Clients.

(** * A concrete heap *)

(** A concrete guest heap with one buffer in use, at which the theorems of the
    heap's clients are evaluated. *)

Lemma heap1_inv : heap_inv (GuestHeap := alloc_guest_heap) heap1 [payload (Region 65536 112)].
Proof. exists [Region 65648 2031504], [Region 65536 112]. split; [exact heap1_ok|done]. Qed.

Lemma heap1_lo : alloc_lo heap1 = 65536.
Proof. by vm_compute. Qed.

Lemma heap1_word ps : program_word (GH := alloc_guest_heap) heap1 ps 1024.
Proof. intros x Hx. right. change (~ (alloc_lo heap1 <= x < alloc_hi heap1)). rewrite heap1_lo. lia. Qed.
