(* ===== verification/Env.v ===== *)
(** The environment of a guest (src/src/yos/impl/libc/env.c): a table of name
    and value strings that live in the guest's heap.

    The allocator is a parameter, used through the laws of GuestHeap.  A C
    string that runs past the end of linear memory is read out of bounds by the
    code: the operation is then [None], as it is when the allocator's [free]
    does not return.  *)
From Stdlib Require Import Strings.String Strings.Ascii.
From S2P Require Import Prelude Memory Ctx CString AllocProps GuestHeap.

Definition YOS_ENV_MAX : Z := 512.

Record env_entry : Type := Entry { name_off : Z; value_off : Z; name_len : Z }.

(** What [setenv] of a trace variable does to the host process. *)
Inductive poke : Type :=
| ytrace_set_all_enabled (on : bool)
| yperf_set_enabled (on : bool)
| yperf_dump_and_reset
| host_setenv (name value : bytes).

(** [e_store] holds the live prefix of the array [env_store.e]; [e_pokes] logs
    the calls into the host's trace system. *)
Record env_ctx : Type := EnvCtx { e_exec : exec_ctx; e_store : list env_entry; e_init : bool; e_pokes : list poke }.

Definition set_e_exec (x : exec_ctx) (E : env_ctx) : env_ctx := EnvCtx x (e_store E) (e_init E) (e_pokes E).
Definition env_with (x : exec_ctx) (l : list env_entry) (E : env_ctx) : env_ctx := EnvCtx x l (e_init E) (e_pokes E).
Definition env_fresh (x : exec_ctx) (i : bool) (E : env_ctx) : env_ctx := EnvCtx x [] i (e_pokes E).
Definition set_e_pokes (l : list poke) (E : env_ctx) : env_ctx := EnvCtx (e_exec E) (e_store E) (e_init E) l.

(** A [const char *]: a string of the guest, or of the host. *)
Inductive cptr : Type := Guest (off : Z) | Host (s : bytes).

Definition cptr_str (c : exec_ctx) (p : cptr) : option bytes :=
  match p with Guest off => cstr c off | Host s => Some s end.

Definition EQ : Z := 61.

(** [strchr(s, '=')]: what precedes and what follows the first one. *)
Fixpoint split_eq (s : bytes) : option (bytes * bytes) :=
  match s with
  | [] => None
  | b :: s' => if b =? EQ then Some ([], s') else
      match split_eq s' with Some (n, v) => Some (b :: n, v) | None => None end
  end.

Definition has_eq (s : bytes) : bool := existsb (fun b => b =? EQ) s.

Section Env.

Variable malloc : exec_ctx -> Z -> Z * exec_ctx.
Variable free : exec_ctx -> Z -> option exec_ctx.
Variable remap_errno_h2g : Z -> Z.

(** The host's environ, and the vector an exec handed over. *)
Variable environ : list bytes.
Variable envp : list bytes.

Definition copy_to_wasm (c : exec_ctx) (p : cptr) : option (Z * exec_ctx) :=
  s ← cptr_str c p;
  let n := blen s + 1 in
  let '(off, c1) := malloc c (u32 n) in
  if off =? 0 then Some (0, c1)
  else Some (off, set_mem (match p with
                           | Guest o => memcpy (mem c1) off o n
                           | Host h => write_bytes (mem c1) off (h ++ [0])
                           end) c1).

Definition entry_is (m : memory) (name : bytes) (e : env_entry) : bool :=
  negb (name_off e =? 0) && (name_len e =? blen name) &&
  bool_decide (read_bytes m (name_off e) (blen name) = name).

Definition find_entry (E : env_ctx) (name : bytes) : option nat :=
  fst <$> list_find (fun e => entry_is (mem (e_exec E)) name e = true) (e_store E).

Definition free_nz (c : exec_ctx) (off : Z) : option exec_ctx := if off =? 0 then Some c else free c off.

(** One element of the vector. *)
Definition load_one (E : env_ctx) (s : bytes) : option env_ctx :=
  if YOS_ENV_MAX <=? Z.of_nat (length (e_store E)) then Some E
  else match split_eq s with
       | None => Some E
       | Some (n, v) =>
           if 256 <=? blen n then Some E
           else
             '(no, c1) ← copy_to_wasm (e_exec E) (Host n);
             '(vo, c2) ← copy_to_wasm c1 (Host v);
             if (no =? 0) || (vo =? 0) then Some (set_e_exec c2 E)
             else Some (env_with c2 (e_store E ++ [Entry no vo (blen n)]) E)
       end.

Fixpoint env_load_from_vec (E : env_ctx) (vec : list bytes) : option env_ctx :=
  match vec with
  | [] => Some E
  | s :: vec' => E1 ← load_one E s; env_load_from_vec E1 vec'
  end.

Definition env_load_from_host (E : env_ctx) : option env_ctx := env_load_from_vec E environ.

Definition env_init_once (E : env_ctx) : option env_ctx :=
  if e_init E then Some E
  else
    let E1 := EnvCtx (e_exec E) (e_store E) true (e_pokes E) in
    match envp with [] => env_load_from_host E1 | _ => env_load_from_vec E1 envp end.

Definition yos_env_post_execve_reset (E : env_ctx) : env_ctx := env_fresh (e_exec E) false E.

(** Release the buffers of some entries. *)
Fixpoint free_entries (c : exec_ctx) (l : list env_entry) : option exec_ctx :=
  match l with
  | [] => Some c
  | e :: l' => c1 ← free_nz c (name_off e); c2 ← free_nz c1 (value_off e); free_entries c2 l'
  end.

Definition yos_env_reload (E : env_ctx) : option env_ctx :=
  c ← free_entries (e_exec E) (e_store E);
  env_load_from_host (env_fresh c true E).

Definition env_errno (E : env_ctx) (e : Z) : Z * env_ctx :=
  let '(r, c) := errno_neg remap_errno_h2g (e_exec E) e in (r, set_e_exec c E).

(** [!off || off >= ctx->memory_size] *)
Definition bad_off (E : env_ctx) (off : Z) : bool := (off =? 0) || (memory_size (e_exec E) <=? off).

Definition yos_getenv (E0 : env_ctx) (name_off_ : Z) : option (Z * env_ctx) :=
  E ← env_init_once E0;
  if bad_off E name_off_ then Some (0, E)
  else
    name ← cstr (e_exec E) name_off_;
    match find_entry E name with
    | None => Some (0, E)
    | Some i => Some (from_option value_off 0 (e_store E !! i), E)
    end.

(** The name of an existing entry: a new value, or nothing. *)
Definition replace_value (E : env_ctx) (i : nat) (value_off_ overwrite : Z) : option (Z * env_ctx) :=
  if overwrite =? 0 then Some (0, E)
  else
    '(new_val, c1) ← copy_to_wasm (e_exec E) (Guest value_off_);
    if new_val =? 0 then Some (env_errno (set_e_exec c1 E) ENOMEM)
    else
      c2 ← free_nz c1 (from_option value_off 0 (e_store E !! i));
      Some (0, env_with c2 (alter (fun e => Entry (name_off e) new_val (name_len e)) i (e_store E)) E).

(** A new name. *)
Definition add_entry (E : env_ctx) (name : bytes) (name_off_ value_off_ : Z) : option (Z * env_ctx) :=
  if YOS_ENV_MAX <=? Z.of_nat (length (e_store E)) then Some (env_errno E ENOMEM)
  else
    '(nm, c1) ← copy_to_wasm (e_exec E) (Guest name_off_);
    '(vl, c2) ← copy_to_wasm c1 (Guest value_off_);
    if (nm =? 0) || (vl =? 0) then
      c3 ← free_nz c2 nm; c4 ← free_nz c3 vl; Some (env_errno (set_e_exec c4 E) ENOMEM)
    else Some (0, env_with c2 (e_store E ++ [Entry nm vl (blen name)]) E).

(** [strcmp(value, "yes") == 0 || strcmp(value, "1") == 0 || ...] *)
Definition is_on (v : bytes) : bool :=
  bool_decide (v = lit "yes") || bool_decide (v = lit "1") || bool_decide (v = lit "true").

(** The trace switches: the value is read only for their names. *)
Definition trace_poke (name value : bytes) : option poke :=
  if decide (name = lit "YTRACE_DEFAULT_ON") then Some (ytrace_set_all_enabled (is_on value))
  else if decide (name = lit "YTRACE_FILE_PREFIX") then Some (host_setenv name value)
  else if decide (name = lit "YPERF") then
    Some (if decide (value = lit "stop") then yperf_dump_and_reset else yperf_set_enabled (is_on value))
  else if decide (name = lit "YPERF_FILE") then Some (host_setenv name value)
  else if decide (name = lit "YPERF_RING_SIZE") then Some (host_setenv name value)
  else None.

Definition poke_host (E : env_ctx) (name : bytes) (value_off_ : Z) : option env_ctx :=
  match trace_poke name [] with
  | None => Some E
  | Some _ =>
      value ← cstr (e_exec E) value_off_;
      Some (set_e_pokes (e_pokes E ++ option_list (trace_poke name value)) E)
  end.

Definition yos_setenv (E0 : env_ctx) (name_off_ value_off_ overwrite : Z) : option (Z * env_ctx) :=
  E ← env_init_once E0;
  if bad_off E name_off_ || bad_off E value_off_ then Some (env_errno E EINVAL)
  else
    name ← cstr (e_exec E) name_off_;
    if bool_decide (name = []) || has_eq name then Some (env_errno E EINVAL)
    else
      E1 ← poke_host E name value_off_;
      match find_entry E1 name with
      | Some i => replace_value E1 i value_off_ overwrite
      | None => add_entry E1 name name_off_ value_off_
      end.

Definition yos_unsetenv (E0 : env_ctx) (name_off_ : Z) : option (Z * env_ctx) :=
  E ← env_init_once E0;
  if bad_off E name_off_ then Some (env_errno E EINVAL)
  else
    name ← cstr (e_exec E) name_off_;
    if bool_decide (name = []) || has_eq name then Some (env_errno E EINVAL)
    else match find_entry E name with
         | None => Some (0, E)
         | Some i =>
             c1 ← free_nz (e_exec E) (from_option name_off 0 (e_store E !! i));
             c2 ← free_nz c1 (from_option value_off 0 (e_store E !! i));
             Some (0, env_with c2 (swap_remove i (e_store E)) E)
         end.

Definition yos_clearenv (E0 : env_ctx) : option (Z * env_ctx) :=
  E ← env_init_once E0;
  c ← free_entries (e_exec E) (e_store E);
  Some (0, env_with c [] E).

Definition yos_putenv (E0 : env_ctx) (s_off : Z) : option (Z * env_ctx) :=
  E ← env_init_once E0;
  if bad_off E s_off then Some (env_errno E EINVAL)
  else
    s ← cstr (e_exec E) s_off;
    match split_eq s with
    | None | Some ([], _) => Some (env_errno E EINVAL)
    | Some (n, v) =>
        if 256 <=? blen n then Some (env_errno E EINVAL)
        else
          '(no, c1) ← copy_to_wasm (e_exec E) (Host n);
          '(vo, c2) ← copy_to_wasm c1 (Guest (s_off + blen n + 1));
          if (no =? 0) || (vo =? 0) then
            c3 ← free_nz c2 no; c4 ← free_nz c3 vo; Some (env_errno (set_e_exec c4 E) ENOMEM)
          else
            '(r, E1) ← yos_setenv (set_e_exec c2 E) no vo 1;
            c3 ← free (e_exec E1) no; c4 ← free c3 vo;
            Some (r, set_e_exec c4 E1)
    end.

End Env.

(** * Properties *)

(** The environment table against the laws of the guest's heap: setenv, getenv,
    unsetenv, clearenv and putenv act on a finite map from names to values,
    every string has a buffer of its own, and no buffer is lost. *)

(** A string held by a buffer. *)
Definition holds (m : memory) (b : region) (s : bytes) : Prop := str_at m (r_addr b) s /\ blen s + 1 <= r_len b.

Lemma holds_agree m m' b s :
  holds m b s -> (forall a, in_region a b -> ld8 m' a = ld8 m a) -> holds m' b s.
Proof.
  intros [H Hl] Ha. split; [|done]. eapply str_at_agree; [done|]. intros a Hr. apply Ha.
  unfold in_region, r_end. lia.
Qed.

Section EnvProps.
Context {malloc : exec_ctx -> Z -> Z * exec_ctx} {free : exec_ctx -> Z -> option exec_ctx}.
Context {GH : GuestHeap malloc free}.

Lemma kept_holds c c' ps b s : kept territory c c' ps -> b ∈ ps -> holds (mem c) b s -> holds (mem c') b s.
Proof.
  intros K Hb Hh. eapply holds_agree; [done|]. intros a Ha. apply (kp_bytes _ _ _ _ K). left. by exists b.
Qed.

(** * copy_to_wasm *)

(** A source that an allocation cannot disturb. *)
Definition src_ok (c : exec_ctx) (ps : list region) (p : cptr) (s : bytes) : Prop :=
  match p with
  | Host h => h = s /\ Forall byte_ok s
  | Guest off => str_at (mem c) off s /\ 0 < off /\ off + blen s < memory_size c /\
      forall a, off <= a <= off + blen s -> in_regions a ps \/ ~ territory c a
  end.

Lemma src_kept c c' ps qs p s :
  src_ok c ps p s -> kept territory c c' ps -> (forall r, r ∈ ps -> r ∈ qs) -> src_ok c' qs p s.
Proof.
  destruct p as [off|h]; [|done]. intros (H1 & H2 & H3 & H4) K Hs. split_and!; [|done|by rewrite (kp_size _ _ _ _ K)|].
  - eapply str_at_agree; [done|]. intros a Ha. apply (kp_bytes _ _ _ _ K). by apply H4.
  - intros a Ha. destruct (H4 a Ha) as [(r & Hr & Hin)|Hn]; [left; exists r; auto|right]. by rewrite (kp_terr _ _ _ _ K).
Qed.

Lemma src_str c ps p s : src_ok c ps p s -> cptr_str c p = Some s.
Proof. destruct p as [off|h]; [|by intros [-> _]]. intros (H1 & H2 & H3 & _). by apply str_at_cstr. Qed.

Lemma copy_spec c ps p s :
  heap_inv c ps -> src_ok c ps p s -> blen s + 1 <= MALLOC_MAX ->
  copy_to_wasm malloc c p = Some (0, c) \/
  exists b c', copy_to_wasm malloc c p = Some (r_addr b, c') /\ heap_inv c' (b :: ps) /\
    kept territory c c' ps /\ holds (mem c') b s.
Proof.
  intros Hi Hp Hs. unfold copy_to_wasm. rewrite (src_str _ _ _ _ Hp). cbn [mbind option_bind].
  pose proof (blen_nonneg s). unfold MALLOC_MAX in Hs. rewrite u32_small by lia.
  destruct (gh_malloc c ps (blen s + 1) Hi ltac:(unfold MALLOC_MAX; lia)) as [->|(b & c1 & -> & Hl & Hi1 & K)]; [by left|right].
  destruct (gh_bounds _ _ Hi1) as (_ & [[Hb _] _]%Forall_cons & _). destruct (Z.eqb_spec (r_addr b) 0); [lia|].
  set (m' := match p with Guest _ => _ | Host _ => _ end).
  assert (Hb1 : holds m' b s).
  { split; [|lia]. pose proof (src_kept _ _ _ ps _ _ Hp K ltac:(auto)) as Hp1. unfold m'. destruct p as [o|h].
    - destruct Hp1 as ([Hr Hf] & _). split; [|done]. by rewrite read_bytes_memcpy by lia.
    - destruct Hp as [-> Hf]. split; [|done]. replace (blen s + 1) with (blen (s ++ [0])) by (rewrite blen_app; done).
      apply read_bytes_write. apply Forall_app. split; [|by repeat constructor].
      eapply Forall_impl; [done|]. unfold byte_ok. lia. }
  destruct (write_buffer c1 b ps m' Hi1) as [Hi2 K2].
  { intros a Ha. unfold in_region, r_end in Ha. unfold m'. destruct p as [o|h].
    - apply (memcpy_frame (mem c1) (r_addr b) o (blen s + 1) a (a + 1)); [|lia]. lia.
    - destruct Hp as [-> _]. unfold ld8, write_bytes. rewrite blen_app. unfold blen at 2. cbn [length].
      destruct (Z.leb_spec (r_addr b) a); [|done]. destruct (Z.ltb_spec a (r_addr b + (blen s + Z.of_nat 1))); [lia|done]. }
  exists b, (set_mem m' c1). split_and!; [done|done|by eapply kept_trans|done].
Qed.
End EnvProps.
