(* ===== verification/EnvThms.v ===== *)
(** The environment as a finite map: what setenv, getenv, unsetenv and clearenv
    do to it and to the buffers of the heap. *)
From S2P Require Import Prelude Memory Ctx CString Alloc FreeList HeapInv AllocProps AllocThms GuestHeap Env.

(** One variable with its two buffers. *)
Record slot : Type := Slot { s_key : bytes; s_val : bytes; s_kbuf : region; s_vbuf : region }.

Definition entry_of (s : slot) : env_entry := Entry (r_addr (s_kbuf s)) (r_addr (s_vbuf s)) (blen (s_key s)).
Definition bufs (l : list slot) : list region := flat_map (fun s => [s_kbuf s; s_vbuf s]) l.
Definition slot_ok (m : memory) (s : slot) : Prop := holds m (s_kbuf s) (s_key s) /\ holds m (s_vbuf s) (s_val s).

(** The map that the slots denote. *)
Definition bound (l : list slot) (k v : bytes) : Prop := exists s, s ∈ l /\ s_key s = k /\ s_val s = v.

Lemma bufs_app l k : bufs (l ++ k) = bufs l ++ bufs k.
Proof. apply flat_map_app. Qed.

Lemma bufs_perm l k : l ≡ₚ k -> bufs l ≡ₚ bufs k.
Proof. intros H. unfold bufs. by apply Permutation_flat_map. Qed.

Lemma bufs_elem l s : s ∈ l -> s_kbuf s ∈ bufs l /\ s_vbuf s ∈ bufs l.
Proof.
  intros Hs. unfold bufs. rewrite !list_elem_of_In, !in_flat_map.
  split; exists s; (split; [by apply list_elem_of_In|simpl; tauto]).
Qed.

Lemma bound_perm l l' k v : l ≡ₚ l' -> bound l k v <-> bound l' k v.
Proof. intros H. unfold bound. by split; intros (s & Hs & E); exists s; rewrite H in *. Qed.

Lemma bound_cons s l k v : bound (s :: l) k v <-> (k = s_key s /\ v = s_val s) \/ bound l k v.
Proof.
  unfold bound. split.
  - intros (x & [->|Hx]%elem_of_cons & <- & <-); [by left|right; by exists x].
  - intros [[-> ->]|(x & Hx & E)]; [exists s; by split; [left|]|exists x; split; [by right|done]].
Qed.

Lemma alter_middle {A} (f : A -> A) l1 x l2 : alter f (length l1) (l1 ++ x :: l2) = l1 ++ f x :: l2.
Proof. induction l1 as [|y l1 IH]; simpl; [done|]. f_equal. exact IH. Qed.

Lemma swap_remove_map {A B} (f : A -> B) i l : swap_remove i (map f l) = map f (swap_remove i l).
Proof.
  unfold swap_remove. change (map f l) with (f <$> l). rewrite fmap_last. destruct (last l) as [x|]; [|done].
  cbn [fmap option_fmap option_map]. rewrite <-list_fmap_insert, <-fmap_take. by rewrite length_map.
Qed.

Lemma set_e_exec_id E : set_e_exec (e_exec E) E = E.
Proof. by destruct E. Qed.

Section EnvThms.
Context {malloc : exec_ctx -> Z -> Z * exec_ctx} {free : exec_ctx -> Z -> option exec_ctx}.
Context {GH : GuestHeap malloc free}.
Context (remap_errno_h2g : Z -> Z) (environ envp : list bytes).

(** The guest's errno cell is not heap memory. *)
Definition errno_ok (c : exec_ctx) : Prop :=
  errno_off c = 0 \/ forall a, errno_off c <= a < errno_off c + 4 -> ~ territory c a.

(** [guest]: the buffers that the program itself allocated. *)
Record env_ok (E : env_ctx) (slots : list slot) (guest : list region) : Prop := {
  eo_init : e_init E = true;
  eo_store : e_store E = map entry_of slots;
  eo_heap : heap_inv (e_exec E) (bufs slots ++ guest);
  eo_slots : Forall (slot_ok (mem (e_exec E))) slots;
  eo_keys : NoDup (map s_key slots);
  eo_len : Z.of_nat (length slots) <= YOS_ENV_MAX;
  eo_errno : errno_ok (e_exec E)
}.

(** The program's own buffers keep their bytes. *)
Definition guest_kept (guest : list region) (c c' : exec_ctx) : Prop :=
  forall a, in_regions a guest -> ld8 (mem c') a = ld8 (mem c) a.

Lemma kept_errno_ok c c' ps : kept territory c c' ps -> errno_ok c -> errno_ok c'.
Proof.
  intros [_ He Ht _]. unfold errno_ok. rewrite He. intros [H|H]; [by left|right]. intros a Ha. rewrite Ht. by apply H.
Qed.

Lemma kept_slots c c' ps l :
  kept territory c c' ps -> (forall s, s ∈ l -> s_kbuf s ∈ ps /\ s_vbuf s ∈ ps) ->
  Forall (slot_ok (mem c)) l -> Forall (slot_ok (mem c')) l.
Proof.
  intros K Hs. rewrite !Forall_forall. intros H s Hin. destruct (H s Hin) as [H1 H2]. destruct (Hs s Hin).
  split; by eapply kept_holds.
Qed.

Lemma kept_guest c c' ps guest :
  kept territory c c' ps -> (forall r, r ∈ guest -> r ∈ ps) -> guest_kept guest c c'.
Proof. intros K Hs a (r & Hr & Ha). apply (kp_bytes _ _ _ _ K). left. exists r. auto. Qed.

(** Reporting an error spares the heap and its strings. *)
Lemma errno_env E slots guest e :
  env_ok E slots guest ->
  exists E', env_errno remap_errno_h2g E e = (-1, E') /\ env_ok E' slots guest /\
    guest_kept guest (e_exec E) (e_exec E').
Proof.
  intros [H1 H2 H3 H4 H5 H6 H7]. unfold env_errno, errno_neg.
  set (m' := mem (write_errno remap_errno_h2g (e_exec E) e)).
  eexists. split; [done|]. rewrite (write_errno_set remap_errno_h2g (e_exec E) e). fold m'.
  assert (Hw : forall a, territory (e_exec E) a -> ld8 m' a = ld8 (mem (e_exec E)) a).
  { intros a Ha. unfold m'. destruct H7 as [H0|Hn].
    - unfold write_errno. by rewrite H0.
    - apply (write_errno_frame remap_errno_h2g (e_exec E) e a (a + 1)); [|lia].
      destruct (Z.le_gt_cases (a + 1) (errno_off (e_exec E))); [by left|right].
      destruct (Z.le_gt_cases (errno_off (e_exec E) + 4) a); [done|]. destruct (Hn a); [lia|done]. }
  destruct (gh_write (e_exec E) (bufs slots ++ guest) m' H3 ltac:(auto)) as [G1 G2].
  destruct (gh_bounds _ _ H3) as (_ & _ & Ht).
  assert (Hb : forall a, in_regions a (bufs slots ++ guest) -> ld8 m' a = ld8 (mem (e_exec E)) a) by auto.
  split.
  - split; [done|done|done| |done|done|].
    + eapply Forall_impl; [apply Forall_and; split; [apply H4|apply Forall_forall; intros s; exact id]|].
      intros s [[S1 S2] Hin]. destruct (bufs_elem _ _ Hin) as [B1 B2].
      split; (eapply holds_agree; [done|]); intros a Ha; apply Hb; eexists; (split; [|done]); apply elem_of_app; by left.
    + destruct H7 as [H0|Hn]; [by left|right]. intros a Ha. cbn [e_exec set_e_exec]. rewrite G2. by apply Hn.
  - intros a (r & Hr & Ha). apply Hb. exists r. split; [|done]. apply elem_of_app. by right.
Qed.

Lemma entry_is_key E slots guest name s :
  env_ok E slots guest -> s ∈ slots -> entry_is (mem (e_exec E)) name (entry_of s) = true <-> s_key s = name.
Proof.
  intros Hok Hs. pose proof (eo_slots _ _ _ Hok) as H. rewrite Forall_forall in H. destruct (H s Hs) as [[Hk _] _].
  destruct (bufs_elem _ _ Hs) as [Hb _]. destruct (gh_bounds _ _ (eo_heap _ _ _ Hok)) as (_ & Hpos & _).
  rewrite Forall_forall in Hpos. destruct (Hpos (s_kbuf s)) as [Hp _]; [apply elem_of_app; by left|].
  unfold entry_is, entry_of. cbn [name_off name_len]. destruct (Z.eqb_spec (r_addr (s_kbuf s)) 0); [lia|]. cbn [negb andb].
  rewrite andb_true_iff, Z.eqb_eq, bool_decide_eq_true. split.
  - intros [Hl Hr]. by apply (str_at_prefix _ _ _ _ Hk) in Hr.
  - intros <-. split; [done|]. by apply (str_at_prefix _ _ _ _ Hk).
Qed.

Lemma find_entry_Some E slots guest name i :
  env_ok E slots guest -> find_entry E name = Some i ->
  exists l1 s l2, slots = l1 ++ s :: l2 /\ i = length l1 /\ s_key s = name /\ e_store E !! i = Some (entry_of s).
Proof.
  intros Hok Hf. unfold find_entry in Hf. destruct (list_find _ _) as [[j e]|] eqn:F; [|done]. injection Hf as ->.
  apply list_find_Some in F as (Hi & He & _). pose proof Hi as Hi'. rewrite (eo_store _ _ _ Hok), list_lookup_fmap in Hi.
  destruct (slots !! i) as [s|] eqn:Hs; [|done]. simpl in Hi. injection Hi as <-.
  apply (entry_is_key _ _ _ _ _ Hok) in He; [|by eapply list_elem_of_lookup_2].
  apply list_elem_of_split_length in Hs as (l1 & l2 & -> & ->). by exists l1, s, l2.
Qed.

Lemma find_entry_None E slots guest name :
  env_ok E slots guest -> find_entry E name = None -> forall v, ~ bound slots name v.
Proof.
  intros Hok Hf v (s & Hs & Hk & _). unfold find_entry in Hf. destruct (list_find _ _) as [[j e]|] eqn:F; [done|].
  apply list_find_None in F. rewrite (eo_store _ _ _ Hok), Forall_forall in F. apply (F (entry_of s)).
  - by apply list_elem_of_fmap_2.
  - by apply (entry_is_key _ _ _ _ _ Hok).
Qed.

Lemma init_done E slots guest : env_ok E slots guest -> env_init_once malloc environ envp E = Some E.
Proof. intros Hok. unfold env_init_once. by rewrite (eo_init _ _ _ Hok). Qed.

Lemma src_good E ps off s : src_ok (e_exec E) ps (Guest off) s -> bad_off E off = false /\ cstr (e_exec E) off = Some s.
Proof.
  intros (H1 & H2 & H3 & _). split; [|by apply str_at_cstr]. unfold bad_off. pose proof (blen_nonneg s).
  destruct (Z.eqb_spec off 0); [lia|]. by destruct (Z.leb_spec (memory_size (e_exec E)) off); [lia|].
Qed.

Lemma bufs_middle l1 s l2 : bufs (l1 ++ s :: l2) ≡ₚ s_kbuf s :: s_vbuf s :: bufs (l1 ++ l2).
Proof. rewrite !bufs_app. simpl. by rewrite <-!Permutation_middle. Qed.

(** * setenv *)

(** The new map: [name] takes [value], unless it is bound and kept. *)
Definition set_result (ow : Z) (slots slots' : list slot) (name value : bytes) : Prop :=
  forall k v, bound slots' k v <->
    (k = name /\ ((ow = 0 /\ bound slots name v) \/ ((ow <> 0 \/ forall u, ~ bound slots name u) /\ v = value))) \/
    (k <> name /\ bound slots k v).

Lemma bound_key_unique l1 s l2 v :
  NoDup (map s_key (l1 ++ s :: l2)) -> ~ bound (l1 ++ l2) (s_key s) v.
Proof.
  intros Hn (x & Hx & Hk & _). rewrite map_app in Hn. cbn [map] in Hn. rewrite <-Permutation_middle in Hn.
  apply NoDup_cons in Hn as [Hn _]. apply Hn. rewrite <-map_app, <-Hk. by apply list_elem_of_fmap_2.
Qed.

Lemma replace_ok E guest l1 s l2 name voff value ow :
  env_ok E (l1 ++ s :: l2) guest -> s_key s = name -> e_store E !! length l1 = Some (entry_of s) ->
  src_ok (e_exec E) guest (Guest voff) value -> blen value + 1 <= MALLOC_MAX ->
  exists r E' slots', replace_value malloc free remap_errno_h2g E (length l1) voff ow = Some (r, E') /\
    env_ok E' slots' guest /\ guest_kept guest (e_exec E) (e_exec E') /\
    ((r = 0 /\ set_result ow (l1 ++ s :: l2) slots' name value) \/ (r = -1 /\ slots' = l1 ++ s :: l2)).
Proof.
  intros Hok <- Hlook Hv Hlen. unfold replace_value. destruct (Z.eqb_spec ow 0) as [->|Hne].
  { exists 0, E, (l1 ++ s :: l2). split_and!; [done|done|by intros a _|]. left. split; [done|]. intros k v.
    assert (Hb : bound (l1 ++ s :: l2) (s_key s) (s_val s)) by (exists s; split; [apply elem_of_app; right; by left|done]).
    destruct (decide (k = s_key s)) as [->|]; [|tauto]. split; [by left; split; [|left]|].
    intros [[_ [[_ H]|[[H|H] _]]]|[H _]]; [done|done| |done]. by destruct (H _ Hb). }
  pose proof Hok as [H1 H2 H3 H4 H5 H6 H7].
  pose proof (gh_perm _ _ _ (Permutation_app_tail guest (bufs_middle l1 s l2)) H3) as Hp. cbn [app] in Hp.
  set (ps := s_kbuf s :: s_vbuf s :: bufs (l1 ++ l2) ++ guest) in Hp.
  assert (Hg : forall r, r ∈ guest -> r ∈ ps) by (intros r Hr; unfold ps; rewrite !elem_of_cons, elem_of_app; auto).
  assert (Hv1 : src_ok (e_exec E) ps (Guest voff) value).
  { eapply src_kept; [exact Hv|apply kept_refl|done]. }
  destruct (copy_spec _ ps _ _ Hp Hv1 Hlen) as [->|(b & c1 & -> & Hi & K & Hb)]; cbn [mbind option_bind].
  { destruct (errno_env E _ guest ENOMEM Hok) as (E' & HE & Hok' & Hgk). exists (-1), E', (l1 ++ s :: l2).
    split_and!; [|done|done|by right]. cbn [Z.eqb]. by rewrite set_e_exec_id, HE. }
  destruct (gh_bounds _ _ Hi) as (_ & Hpos & _). pose proof Hpos as [[Hb0 _] Hpos']%Forall_cons.
  apply Forall_cons in Hpos' as [_ [[Hvb _] _]%Forall_cons].
  destruct (Z.eqb_spec (r_addr b) 0); [lia|]. rewrite Hlook. cbn [from_option value_off entry_of]. unfold free_nz.
  destruct (Z.eqb_spec (r_addr (s_vbuf s)) 0); [lia|].
  destruct (gh_free c1 (s_vbuf s) (b :: s_kbuf s :: bufs (l1 ++ l2) ++ guest)) as (c2 & -> & Hi2 & K2).
  { eapply gh_perm; [|exact Hi]. unfold ps. symmetry. apply (Permutation_middle [b; s_kbuf s]). }
  set (s' := Slot (s_key s) value (s_kbuf s) b).
  eexists 0, _, (l1 ++ s' :: l2). split; [done|].
  assert (K1 : kept territory (e_exec E) c2 (s_kbuf s :: bufs (l1 ++ l2) ++ guest)).
  { eapply kept_trans; eapply kept_sub; [exact K| |exact K2|].
    - intros r Hr. unfold ps. rewrite !elem_of_cons in *. tauto.
    - intros r Hr. apply elem_of_cons. by right. }
  split_and!.
  - split; cbn [e_init e_store e_exec].
    + done.
    + rewrite H2, !map_app. cbn [map]. change (map entry_of l1) with (entry_of <$> l1).
      rewrite <-(length_fmap entry_of l1). etrans; [apply alter_middle|done].
    + eapply gh_perm; [|exact Hi2]. rewrite (bufs_middle l1 s' l2). unfold s'. cbn [s_kbuf s_vbuf app]. apply Permutation_swap.
    + rewrite Forall_app, Forall_cons in H4 |- *. destruct H4 as (F1 & [Fk Fv] & F2).
      assert (Hsub : forall x (l : list slot), x ∈ l -> (forall y, y ∈ l -> y ∈ l1 ++ l2) ->
                s_kbuf x ∈ s_kbuf s :: bufs (l1 ++ l2) ++ guest /\ s_vbuf x ∈ s_kbuf s :: bufs (l1 ++ l2) ++ guest).
      { intros x l Hx Hl. destruct (bufs_elem (l1 ++ l2) x (Hl x Hx)). rewrite !elem_of_cons, !elem_of_app. auto. }
      split_and!.
      * eapply (kept_slots _ _ _ l1 K1); [|done]. intros x Hx. apply (Hsub x l1 Hx). intros y Hy. apply elem_of_app. by left.
      * split; [by eapply (kept_holds _ _ _ _ _ K1); [by left|]|]. cbn [s_vbuf s_val s'].
        eapply (kept_holds _ _ _ _ _ K2); [by left|done].
      * eapply (kept_slots _ _ _ l2 K1); [|done]. intros x Hx. apply (Hsub x l2 Hx). intros y Hy. apply elem_of_app. by right.
    + rewrite map_app in *. done.
    + rewrite length_app in *. done.
    + by eapply kept_errno_ok.
  - eapply kept_guest; [exact K1|]. intros r Hr. rewrite elem_of_cons, elem_of_app. auto.
  - left. split; [done|]. intros k v.
    rewrite (bound_perm _ (s' :: l1 ++ l2)) by (symmetry; apply Permutation_middle).
    rewrite !(bound_perm (l1 ++ s :: l2) (s :: l1 ++ l2)) by (symmetry; apply Permutation_middle).
    rewrite !bound_cons. cbn [s_key s_val s']. pose proof (bound_key_unique l1 s l2 v H5) as Hu.
    destruct (decide (k = s_key s)) as [->|]; [|tauto]. split.
    + intros [[_ ->]|Hb2]; [left; split; [done|right; split; [by left|done]]|done].
    + intros [[_ [[? _]|[_ ->]]]|[? _]]; [done|by left|done].
Qed.
(** Two copies, or nothing: what [add_entry] and [putenv] do first. *)
Lemma free_nz_spec c b ps :
  heap_inv c (b :: ps) -> exists c', free_nz free c (r_addr b) = Some c' /\ heap_inv c' ps /\ kept territory c c' ps.
Proof.
  intros Hi. destruct (gh_bounds _ _ Hi) as (_ & [[Hb _] _]%Forall_cons & _). unfold free_nz.
  destruct (Z.eqb_spec (r_addr b) 0); [lia|]. by apply gh_free.
Qed.

Lemma copy_pair c ps p1 s1 p2 s2 :
  heap_inv c ps -> src_ok c ps p1 s1 -> src_ok c ps p2 s2 ->
  blen s1 + 1 <= MALLOC_MAX -> blen s2 + 1 <= MALLOC_MAX ->
  exists o1 c1 o2 c2, copy_to_wasm malloc c p1 = Some (o1, c1) /\ copy_to_wasm malloc c1 p2 = Some (o2, c2) /\
    ((exists b1 b2, o1 = r_addr b1 /\ o2 = r_addr b2 /\ 0 < o1 /\ 0 < o2 /\ heap_inv c2 (b2 :: b1 :: ps) /\
        kept territory c c2 ps /\ holds (mem c2) b1 s1 /\ holds (mem c2) b2 s2) \/
     ((o1 =? 0) || (o2 =? 0) = true /\
        exists c3 c4, free_nz free c2 o1 = Some c3 /\ free_nz free c3 o2 = Some c4 /\ heap_inv c4 ps /\ kept territory c c4 ps)).
Proof.
  intros Hi Hs1 Hs2 Hl1 Hl2.
  destruct (copy_spec c ps p1 s1 Hi Hs1 Hl1) as [E1|(b1 & c1 & E1 & Hi1 & K1 & H1)].
  - destruct (copy_spec c ps p2 s2 Hi Hs2 Hl2) as [E2|(b2 & c2 & E2 & Hi2 & K2 & H2)].
    + exists 0, c, 0, c. split_and!; [done|done|]. right. split; [done|]. exists c, c. by split_and!.
    + destruct (free_nz_spec c2 b2 ps Hi2) as (c4 & F & Hi4 & K4).
      exists 0, c, (r_addr b2), c2. split_and!; [done|done|]. right. split; [done|]. exists c2, c4.
      split_and!; [done|done|done|by eapply kept_trans].
  - assert (Hs2' : src_ok c1 (b1 :: ps) p2 s2) by (eapply src_kept; [done|done|intros r Hr; by right]).
    destruct (gh_bounds _ _ Hi1) as (_ & [[Hb1 _] _]%Forall_cons & _).
    destruct (copy_spec c1 (b1 :: ps) p2 s2 Hi1 Hs2' Hl2) as [E2|(b2 & c2 & E2 & Hi2 & K2 & H2)].
    + destruct (free_nz_spec c1 b1 ps Hi1) as (c4 & F & Hi4 & K4).
      exists (r_addr b1), c1, 0, c1. split_and!; [done|done|]. right. split; [by rewrite orb_true_r|].
      exists c4, c4. split_and!; [done|done|done|by eapply kept_trans].
    + destruct (gh_bounds _ _ Hi2) as (_ & [[Hb2 _] _]%Forall_cons & _).
      exists (r_addr b1), c1, (r_addr b2), c2. split_and!; [done|done|]. left. exists b1, b2.
      split_and!; [done|done|lia|lia|done| |by eapply (kept_holds _ _ _ _ _ K2); [by left|]|done].
      eapply kept_trans; [done|]. eapply kept_sub; [done|]. intros r Hr. by right.
Qed.

Lemma slots_kept c c' l guest :
  kept territory c c' (bufs l ++ guest) -> Forall (slot_ok (mem c)) l -> Forall (slot_ok (mem c')) l.
Proof.
  intros K. apply (kept_slots _ _ _ _ K). intros s Hs. destruct (bufs_elem _ _ Hs). rewrite !elem_of_app. auto.
Qed.

(** A context that differs in its memory only. *)
Lemma env_ok_kept E c' slots guest :
  env_ok E slots guest -> heap_inv c' (bufs slots ++ guest) -> kept territory (e_exec E) c' (bufs slots ++ guest) ->
  env_ok (set_e_exec c' E) slots guest.
Proof.
  intros [H1 H2 H3 H4 H5 H6 H7] Hi K. split; try done; [by eapply slots_kept|by eapply kept_errno_ok].
Qed.

Lemma app_guest (slots : list slot) guest r : r ∈ guest -> r ∈ bufs slots ++ guest.
Proof. intros Hr. apply elem_of_app. by right. Qed.

Lemma src_env E slots guest p s :
  src_ok (e_exec E) guest p s -> src_ok (e_exec E) (bufs slots ++ guest) p s.
Proof. intros H. eapply src_kept; [exact H|apply kept_refl|apply app_guest]. Qed.

Lemma add_ok E slots guest name value noff voff ow :
  env_ok E slots guest -> (forall v, ~ bound slots name v) ->
  src_ok (e_exec E) guest (Guest noff) name -> src_ok (e_exec E) guest (Guest voff) value ->
  blen name + 1 <= MALLOC_MAX -> blen value + 1 <= MALLOC_MAX ->
  exists r E' slots', add_entry malloc free remap_errno_h2g E name noff voff = Some (r, E') /\
    env_ok E' slots' guest /\ guest_kept guest (e_exec E) (e_exec E') /\
    ((r = 0 /\ set_result ow slots slots' name value) \/ (r = -1 /\ slots' = slots)).
Proof.
  intros Hok Hnew Hn Hv Hln Hlv. unfold add_entry. rewrite (eo_store _ _ _ Hok), length_map.
  assert (Hfail : forall E1, env_ok E1 slots guest -> guest_kept guest (e_exec E) (e_exec E1) ->
    exists E', env_errno remap_errno_h2g E1 ENOMEM = (-1, E') /\ env_ok E' slots guest /\ guest_kept guest (e_exec E) (e_exec E')).
  { intros E1 Hok1 Hg. destruct (errno_env E1 slots guest ENOMEM Hok1) as (E' & H1 & H2 & H3).
    exists E'. split_and!; [done|done|]. intros a Ha. by rewrite H3, Hg. }
  destruct (Z.leb_spec YOS_ENV_MAX (Z.of_nat (length slots))).
  { destruct (Hfail E Hok ltac:(by intros a _)) as (E' & -> & H1 & H2). exists (-1), E', slots. split_and!; [done..|by right]. }
  destruct (copy_pair _ _ _ _ _ _ (eo_heap _ _ _ Hok) (src_env _ _ _ _ _ Hn) (src_env _ _ _ _ _ Hv) Hln Hlv)
    as (o1 & c1 & o2 & c2 & -> & E2 & Hcase). cbn [mbind option_bind]. rewrite E2. cbn [mbind option_bind].
  destruct Hcase as [(b1 & b2 & -> & -> & P1 & P2 & Hi & K & Hb1 & Hb2)|(-> & c3 & c4 & -> & F4 & Hi & K)].
  - destruct (Z.eqb_spec (r_addr b1) 0); [lia|]. destruct (Z.eqb_spec (r_addr b2) 0); [lia|]. cbn [orb].
    pose proof Hok as [H1 H2 H3 H4 H5 H6 H7].
    eexists 0, _, (slots ++ [Slot name value b1 b2]). split; [done|]. split_and!.
    + split; cbn [e_init e_store e_exec].
      * done.
      * by rewrite map_app.
      * eapply gh_perm; [|exact Hi]. rewrite bufs_app. cbn [bufs flat_map s_kbuf s_vbuf app].
        rewrite Permutation_swap, <-app_assoc. cbn [app]. by rewrite <-!Permutation_middle.
      * apply Forall_app. split; [by eapply slots_kept|]. apply Forall_singleton. by split.
      * rewrite map_app. cbn [map s_key]. rewrite <-Permutation_cons_append. apply NoDup_cons. split; [|done].
        intros Hin. apply list_elem_of_fmap in Hin as (s & Hs & Hin). apply (Hnew (s_val s)). by exists s.
      * rewrite length_app. cbn [length]. lia.
      * by eapply kept_errno_ok.
    + eapply kept_guest; [exact K|]. apply app_guest.
    + left. split; [done|]. intros k v.
      rewrite (bound_perm _ (Slot name value b1 b2 :: slots)) by (symmetry; apply Permutation_cons_append).
      rewrite bound_cons. cbn [s_key s_val]. pose proof (Hnew v). destruct (decide (k = name)) as [->|]; [|tauto].
      split; [intros [[_ ->]|?]; [left; split; [done|right; split; [by right|done]]|done]|].
      intros [[_ [[_ ?]|[_ ->]]]|[? _]]; [done|by left|done].
  - cbn [mbind option_bind]. rewrite F4. cbn [mbind option_bind].
    destruct (Hfail (set_e_exec c4 E)) as (E' & -> & H1 & H2).
    + by apply env_ok_kept.
    + eapply kept_guest; [exact K|]. apply app_guest.
    + exists (-1), E', slots. split_and!; [done..|by right].
Qed.

(** The trace switches touch neither the map nor the guest. *)
Lemma poke_host_ok E slots guest name voff value :
  env_ok E slots guest -> src_ok (e_exec E) guest (Guest voff) value ->
  exists E1, poke_host E name voff = Some E1 /\ env_ok E1 slots guest /\ e_exec E1 = e_exec E.
Proof.
  intros Hok Hv. unfold poke_host. destruct (trace_poke name []); [|by exists E].
  destruct (src_good _ _ _ _ Hv) as [_ ->]. cbn [mbind option_bind]. eexists. split; [done|]. split; [|done].
  by destruct Hok.
Qed.

(** * The operations *)

Lemma setenv_ok E slots guest name value noff voff ow :
  env_ok E slots guest ->
  src_ok (e_exec E) guest (Guest noff) name -> src_ok (e_exec E) guest (Guest voff) value ->
  blen name + 1 <= MALLOC_MAX -> blen value + 1 <= MALLOC_MAX -> name <> [] -> has_eq name = false ->
  exists r E' slots', yos_setenv malloc free remap_errno_h2g environ envp E noff voff ow = Some (r, E') /\
    env_ok E' slots' guest /\ guest_kept guest (e_exec E) (e_exec E') /\
    ((r = 0 /\ set_result ow slots slots' name value) \/ (r = -1 /\ slots' = slots)).
Proof.
  intros Hok Hn Hv Hln Hlv Hne Heq. unfold yos_setenv. rewrite (init_done _ _ _ Hok). cbn [mbind option_bind].
  destruct (src_good _ _ _ _ Hn) as [-> ->]. destruct (src_good _ _ _ _ Hv) as [-> _]. cbn [orb mbind option_bind].
  rewrite (bool_decide_false _ Hne), Heq. cbn [orb].
  destruct (poke_host_ok E slots guest name voff value Hok Hv) as (E1 & -> & Hok1 & He). cbn [mbind option_bind].
  rewrite <-He in Hn, Hv |- *.
  destruct (find_entry E1 name) as [i|] eqn:F; [|eapply add_ok; eauto using find_entry_None].
  destruct (find_entry_Some _ _ _ _ _ Hok1 F) as (l1 & s & l2 & -> & -> & Hk & Hl). by apply replace_ok.
Qed.

(** C26: [setenv] on an environment that denotes a map: with a non-empty name
    free of '=' it always returns, either 0 with the name bound to the value
    (to what it was bound to, when it was and overwriting was not asked) and
    every other name as before, or -1 with the map unchanged; the environment
    stays well formed, so every buffer is accounted for, and the program's own
    buffers keep their bytes. *)
Theorem setenv_updates_map E slots guest name value noff voff ow :
  env_ok E slots guest ->
  src_ok (e_exec E) guest (Guest noff) name -> src_ok (e_exec E) guest (Guest voff) value ->
  blen name + 1 <= MALLOC_MAX -> blen value + 1 <= MALLOC_MAX -> name <> [] -> has_eq name = false ->
  exists r E' slots', yos_setenv malloc free remap_errno_h2g environ envp E noff voff ow = Some (r, E') /\
    env_ok E' slots' guest /\ guest_kept guest (e_exec E) (e_exec E') /\
    ((r = 0 /\ set_result ow slots slots' name value) \/ (r = -1 /\ slots' = slots)).
Proof. apply setenv_ok. Qed.

(** [getenv] answers 0 exactly for an unbound name, and otherwise the
    address of the NUL-terminated value that the map binds to it; it changes
    nothing. *)
Theorem getenv_finds_bound E slots guest name noff :
  env_ok E slots guest -> src_ok (e_exec E) guest (Guest noff) name ->
  exists p, yos_getenv malloc environ envp E noff = Some (p, E) /\
    (p = 0 <-> forall v, ~ bound slots name v) /\
    (forall v, bound slots name v -> cstr (e_exec E) p = Some v).
Proof.
  intros Hok Hn. unfold yos_getenv. rewrite (init_done _ _ _ Hok). cbn [mbind option_bind].
  destruct (src_good _ _ _ _ Hn) as [-> ->]. cbn [mbind option_bind].
  destruct (find_entry E name) as [i|] eqn:F.
  - destruct (find_entry_Some _ _ _ _ _ Hok F) as (l1 & s & l2 & -> & -> & <- & ->). cbn [from_option].
    pose proof Hok as [H1 H2 H3 H4 H5 H6 H7]. assert (Hin : s ∈ l1 ++ s :: l2) by (apply elem_of_app; right; by left).
    rewrite Forall_forall in H4. destruct (H4 s Hin) as [_ [Hv Hvl]]. destruct (bufs_elem _ _ Hin) as [_ Hb].
    destruct (gh_bounds _ _ H3) as (_ & Hpos & _). rewrite Forall_forall in Hpos.
    destruct (Hpos (s_vbuf s)) as [P1 P2]; [apply elem_of_app; by left|]. unfold r_end in P2.
    exists (value_off (entry_of s)). split; [done|]. cbn [value_off entry_of]. split.
    + split; [lia|]. intros Hno. exfalso. apply (Hno (s_val s)). by exists s.
    + intros v Hb'. rewrite (bound_perm _ (s :: l1 ++ l2)), bound_cons in Hb' by (symmetry; apply Permutation_middle).
      destruct Hb' as [[_ ->]|Hb']; [|by apply (bound_key_unique l1 s l2 v H5) in Hb'].
      apply str_at_cstr; [done|]. lia.
  - exists 0. pose proof (find_entry_None _ _ _ _ Hok F) as Hno. split_and!; [done|done|]. intros v Hv. by apply Hno in Hv.
Qed.

(** [unsetenv] removes exactly the name, returns both of its buffers to the
    heap, and succeeds also when there was nothing to remove. *)
Theorem unsetenv_removes E slots guest name noff :
  env_ok E slots guest -> src_ok (e_exec E) guest (Guest noff) name -> name <> [] -> has_eq name = false ->
  exists E' slots', yos_unsetenv malloc free remap_errno_h2g environ envp E noff = Some (0, E') /\
    env_ok E' slots' guest /\ guest_kept guest (e_exec E) (e_exec E') /\
    forall k v, bound slots' k v <-> k <> name /\ bound slots k v.
Proof.
  intros Hok Hn Hne Heq. unfold yos_unsetenv. rewrite (init_done _ _ _ Hok). cbn [mbind option_bind].
  destruct (src_good _ _ _ _ Hn) as [-> ->]. cbn [mbind option_bind]. rewrite (bool_decide_false _ Hne), Heq. cbn [orb].
  destruct (find_entry E name) as [i|] eqn:F.
  - destruct (find_entry_Some _ _ _ _ _ Hok F) as (l1 & s & l2 & Hsl & Hi & <- & Hlook). rewrite Hlook. cbn [from_option name_off value_off entry_of].
    pose proof Hok as [H1 H2 H3 H4 H5 H6 H7].
    assert (Hsi : slots !! i = Some s) by (rewrite Hsl, Hi; by apply list_lookup_middle).
    pose proof (swap_remove_Permutation i slots s Hsi) as Hperm. set (slots' := swap_remove i slots) in *.
    assert (Hb : bufs slots ++ guest ≡ₚ s_kbuf s :: s_vbuf s :: bufs slots' ++ guest).
    { by rewrite (bufs_perm _ _ Hperm). }
    pose proof (gh_perm _ _ _ Hb H3) as Hi0.
    destruct (free_nz_spec _ _ _ Hi0) as (c1 & -> & Hi1 & K1). cbn [mbind option_bind].
    destruct (free_nz_spec _ _ _ Hi1) as (c2 & -> & Hi2 & K2). cbn [mbind option_bind].
    assert (K : kept territory (e_exec E) c2 (bufs slots' ++ guest)).
    { eapply kept_trans; [|done]. eapply kept_sub; [exact K1|]. intros r Hr. by right. }
    eexists _, slots'. split; [done|]. split_and!.
    + split; cbn [e_init e_store e_exec].
      * done.
      * rewrite H2. apply swap_remove_map.
      * done.
      * rewrite Hperm in H4. apply Forall_cons in H4 as [_ H4]. by eapply slots_kept.
      * rewrite Hperm in H5. by apply NoDup_cons in H5 as [].
      * apply Permutation_length in Hperm. cbn [length] in Hperm. lia.
      * by eapply kept_errno_ok.
    + eapply kept_guest; [exact K|]. apply app_guest.
    + intros k v. rewrite (bound_perm slots (s :: slots') k v Hperm), bound_cons.
      assert (Hu : ~ bound slots' (s_key s) v).
      { intros (x & Hx & Hk & _). rewrite Hperm in H5. apply NoDup_cons in H5 as [Hnot _]. apply Hnot. rewrite <-Hk.
        by apply list_elem_of_fmap_2. }
      destruct (decide (k = s_key s)) as [->|]; tauto.
  - exists E, slots. split_and!; [done|done|by intros a _|]. intros k v. pose proof (find_entry_None _ _ _ _ Hok F) as Hno.
    split; [|by intros []]. intros Hb. split; [|done]. intros ->. by apply Hno in Hb.
Qed.

Lemma free_entries_spec c l guest :
  heap_inv c (bufs l ++ guest) ->
  exists c', free_entries free c (map entry_of l) = Some c' /\ heap_inv c' guest /\ kept territory c c' guest.
Proof.
  revert c. induction l as [|s l IH]; intros c Hi; [by exists c|].
  cbn [map free_entries name_off value_off entry_of]. change (bufs (s :: l) ++ guest) with (s_kbuf s :: s_vbuf s :: bufs l ++ guest) in Hi.
  destruct (free_nz_spec _ _ _ Hi) as (c1 & -> & Hi1 & K1). cbn [mbind option_bind].
  destruct (free_nz_spec _ _ _ Hi1) as (c2 & -> & Hi2 & K2). cbn [mbind option_bind].
  destruct (IH c2 Hi2) as (c' & -> & Hi' & K'). exists c'. split_and!; [done|done|].
  eapply kept_trans; [|exact K']. eapply kept_trans; eapply kept_sub; [exact K1| |exact K2|].
  - intros r Hr. right. by apply app_guest.
  - apply app_guest.
Qed.

(** [clearenv] empties the map and gives every buffer back: what the heap
    holds afterwards is exactly the program's own. *)
Theorem clearenv_frees_all E slots guest :
  env_ok E slots guest ->
  exists E', yos_clearenv malloc free environ envp E = Some (0, E') /\ env_ok E' [] guest /\
    heap_inv (e_exec E') guest /\ guest_kept guest (e_exec E) (e_exec E').
Proof.
  intros Hok. unfold yos_clearenv. rewrite (init_done _ _ _ Hok). cbn [mbind option_bind].
  pose proof Hok as [H1 H2 H3 H4 H5 H6 H7]. rewrite H2. destruct (free_entries_spec _ _ _ H3) as (c' & -> & Hi & K). cbn [mbind option_bind].
  eexists. split; [done|]. split_and!; [|done|by eapply kept_guest].
  split; cbn [e_init e_store e_exec]; [done|done|done|by constructor|by constructor|cbn; unfold YOS_ENV_MAX; lia|by eapply kept_errno_ok].
Qed.
Lemma split_eq_spec s n v : split_eq s = Some (n, v) -> s = n ++ EQ :: v /\ has_eq n = false.
Proof.
  revert n. induction s as [|b s IH]; intros n; [done|]. cbn [split_eq]. destruct (Z.eqb_spec b EQ) as [->|Hb].
  - by intros [= <- <-].
  - destruct (split_eq s) as [[n' v']|]; [|done]. intros [= <- <-]. destruct (IH n' eq_refl) as [-> H]. split; [done|].
    unfold has_eq in *. cbn [existsb]. rewrite H. by destruct (Z.eqb_spec b EQ).
Qed.

Lemma str_at_drop m off l r : str_at m off (l ++ r) -> str_at m (off + blen l) r.
Proof.
  revert off. induction l as [|b l IH]; intros off H; [unfold blen; cbn [length]; by rewrite Z.add_0_r|].
  cbn [app] in H. apply str_at_cons in H as (_ & _ & H). apply IH in H. rewrite blen_cons. by replace (off + (blen l + 1)) with (off + 1 + blen l) by lia.
Qed.

(** A buffer that holds a string is a good source while it is the program's. *)
Lemma src_buffer c ps guest b s : heap_inv c ps -> b ∈ ps -> b ∈ guest -> holds (mem c) b s -> src_ok c guest (Guest (r_addr b)) s.
Proof.
  intros Hi Hb Hg [Hs Hl]. destruct (gh_bounds _ _ Hi) as (_ & Hpos & _). rewrite Forall_forall in Hpos.
  destruct (Hpos b Hb) as [P1 P2]. unfold r_end in P2. split_and!; [done|lia|lia|]. intros a Ha. left. exists b.
  split; [done|]. unfold in_region, r_end. lia.
Qed.

(** The two temporary copies go back to the heap. *)
Lemma free_temps E slots guest b1 b2 :
  env_ok E slots (b2 :: b1 :: guest) ->
  exists c3 c4, free (e_exec E) (r_addr b1) = Some c3 /\ free c3 (r_addr b2) = Some c4 /\
    env_ok (set_e_exec c4 E) slots guest /\ kept territory (e_exec E) c4 (bufs slots ++ guest).
Proof.
  intros Hok. pose proof (eo_heap _ _ _ Hok) as Hi.
  destruct (gh_free (e_exec E) b1 (b2 :: bufs slots ++ guest)) as (c3 & F3 & Hi3 & K3).
  { eapply gh_perm; [|exact Hi]. rewrite <-!Permutation_middle. apply Permutation_swap. }
  destruct (gh_free c3 b2 (bufs slots ++ guest) Hi3) as (c4 & F4 & Hi4 & K4).
  assert (K : kept territory (e_exec E) c4 (bufs slots ++ guest)).
  { eapply kept_trans; [|exact K4]. eapply kept_sub; [exact K3|]. intros x Hx. by right. }
  exists c3, c4. split_and!; [done|done| |done].
  destruct Hok as [H1 H2 H3 H4 H5 H6 H7]. split; try done; [by eapply slots_kept|by eapply kept_errno_ok].
Qed.

(** [putenv] of NAME=VALUE acts on the map as an overwriting [setenv] of
    the two parts, and frees the two temporary copies it makes on the way. *)
Theorem putenv_is_setenv E slots guest s n v soff :
  env_ok E slots guest -> src_ok (e_exec E) guest (Guest soff) s -> split_eq s = Some (n, v) ->
  n <> [] -> blen n < 256 -> blen v + 1 <= MALLOC_MAX ->
  exists r E' slots', yos_putenv malloc free remap_errno_h2g environ envp E soff = Some (r, E') /\
    env_ok E' slots' guest /\ guest_kept guest (e_exec E) (e_exec E') /\
    ((r = 0 /\ set_result 1 slots slots' n v) \/ (r = -1 /\ slots' = slots)).
Proof.
  intros Hok Hs Hsp Hne Hn256 Hlv. unfold yos_putenv. rewrite (init_done _ _ _ Hok). cbn [mbind option_bind].
  destruct (src_good _ _ _ _ Hs) as [-> ->]. cbn [mbind option_bind]. rewrite Hsp.
  destruct (split_eq_spec _ _ _ Hsp) as [-> Heq]. destruct n as [|n0 n']; [done|]. set (n := n0 :: n') in *.
  destruct (Z.leb_spec 256 (blen n)); [lia|].
  assert (Hn : src_ok (e_exec E) guest (Host n) n).
  { split; [done|]. destruct Hs as [[_ Hb] _]. by apply Forall_app in Hb as []. }
  assert (Hv : src_ok (e_exec E) guest (Guest (soff + blen n + 1)) v).
  { destruct Hs as (H1 & H2 & H3 & H4). rewrite blen_app, blen_cons in H3, H4. pose proof (blen_nonneg n).
    split_and!; [|lia|lia|intros a Ha; apply H4; lia]. apply str_at_drop in H1. by apply str_at_cons in H1 as (_ & _ & H1). }
  destruct (copy_pair _ _ _ _ _ _ (eo_heap _ _ _ Hok) (src_env _ _ _ _ _ Hn) (src_env _ _ _ _ _ Hv) ltac:(unfold MALLOC_MAX; lia) Hlv)
    as (o1 & c1 & o2 & c2 & -> & E2 & Hcase). cbn [mbind option_bind]. rewrite E2. cbn [mbind option_bind].
  destruct Hcase as [(b1 & b2 & -> & -> & P1 & P2 & Hi & K & Hb1 & Hb2)|(-> & c3 & c4 & -> & F4 & Hi & K)]; cycle 1.
  { cbn [mbind option_bind]. rewrite F4. cbn [mbind option_bind].
    destruct (errno_env (set_e_exec c4 E) slots guest ENOMEM) as (E' & -> & H1 & H2); [by apply env_ok_kept|].
    exists (-1), E', slots. split_and!; [done|done| |by right]. intros a Ha. rewrite H2 by done.
    apply (kept_guest _ _ _ _ K (app_guest slots guest)). done. }
  destruct (Z.eqb_spec (r_addr b1) 0); [lia|]. destruct (Z.eqb_spec (r_addr b2) 0); [lia|]. cbn [orb].
  set (guest2 := b2 :: b1 :: guest).
  assert (Hi2 : heap_inv c2 (bufs slots ++ guest2)).
  { eapply gh_perm; [|exact Hi]. unfold guest2. by rewrite <-!Permutation_middle. }
  assert (Hok2 : env_ok (set_e_exec c2 E) slots guest2).
  { pose proof Hok as [H1 H2 H3 H4 H5 H6 H7]. split; try done; [by eapply slots_kept|by eapply kept_errno_ok]. }
  destruct (setenv_ok (set_e_exec c2 E) slots guest2 n v (r_addr b1) (r_addr b2) 1 Hok2) as (r & E1 & slots' & -> & Hok1 & Hg & Hres);
    [eapply src_buffer; [exact Hi|right; by left|right; by left|done]|eapply src_buffer; [exact Hi|by left|by left|done]
    |unfold MALLOC_MAX; lia|done|done|done|]. cbn [mbind option_bind].
  destruct (free_temps _ _ _ _ _ Hok1) as (c3 & c4 & -> & F4 & Hok4 & K'). cbn [mbind option_bind]. rewrite F4. cbn [mbind option_bind].
  exists r, (set_e_exec c4 E1), slots'. split_and!; [done|done| |done].
  intros a Ha. cbn [e_exec set_e_exec]. rewrite (kept_guest _ _ _ guest K' (app_guest slots' guest) a Ha).
  rewrite (Hg a); [|destruct Ha as (q & Hq & Ha); exists q; split; [right; by right|done]].
  apply (kept_guest _ _ _ guest K (app_guest slots guest) a Ha).
Qed.
End EnvThms.

(** * A concrete heap with one variable set, at which each theorem of EnvThms applies *)

(** The heap of alloc.c with two blocks in use. *)
Definition two_blocks : exec_ctx := (yos_malloc heap1 50).2.
Definition block1 : region := Region 65536 112.
Definition block2 : region := Region 65648 64.

Lemma two_blocks_ok : heap_ok two_blocks [Region 65712 2031440] [block2; block1].
Proof.
  pose proof (malloc_spec heap1 _ _ 50 heap1_ok ltac:(by vm_compute)) as H.
  rewrite (pair_fst (yos_malloc heap1 50) 65656 ltac:(by vm_compute)) in H.
  destruct H as [[? _]|(b & fl' & Hp & _ & Hok & Hfa & _)]; [done|].
  vm_compute in Hfa. by simplify_eq.
Qed.

(** HOME=/ in the two blocks; strings of the program below the heap. *)
Definition HOME : bytes := [72; 79; 77; 69].
Definition root : bytes := [47].
Definition USER : bytes := [85; 83; 69; 82].

Definition home_mem : memory :=
  write_bytes (write_bytes (write_bytes (write_bytes (write_bytes (mem two_blocks)
    65544 (HOME ++ [0])) 65656 (root ++ [0])) 1024 (USER ++ [0])) 1040 (HOME ++ [0])) 1056 (USER ++ [61] ++ root ++ [0]).

Definition home_ctx : exec_ctx := set_mem home_mem two_blocks.
Definition home_slot : slot := Slot HOME root (payload block1) (payload block2).
Definition home_env : env_ctx := EnvCtx home_ctx [entry_of home_slot] true [].

Lemma two_blocks_bounds : alloc_lo two_blocks = 65536 /\ alloc_hi two_blocks = 2097152 /\ memory_size two_blocks = 4194304 /\ errno_off two_blocks = 0.
Proof. by vm_compute. Qed.

Lemma home_mem_spares a :
  65536 <= a -> ~ in_regions a [payload block1; payload block2] -> ld8 home_mem a = ld8 (mem two_blocks) a.
Proof.
  intros Ha Hn. rewrite !in_regions_cons in Hn. unfold in_region, payload, r_end, block1, block2, HDR_SIZE in Hn. cbn [r_addr r_len] in Hn.
  unfold home_mem. rewrite !write_bytes_other; [done|unfold blen; simpl; lia..].
Qed.

Lemma home_heap : alloc_inv home_ctx (bufs [home_slot] ++ []).
Proof.
  assert (H0 : alloc_inv two_blocks [payload block1; payload block2]).
  { exists [Region 65712 2031440], [block1; block2]. split; [|done].
    eapply heap_ok_perm; [|exact two_blocks_ok]. apply Permutation_swap. }
  refine (proj1 (alloc_write _ _ home_mem H0 _)). intros a Ha Hn. apply home_mem_spares; [|done].
  unfold alloc_territory in Ha. destruct two_blocks_bounds as (E & _). rewrite E in Ha. lia.
Qed.

Lemma home_ok : env_ok home_env [home_slot] [].
Proof.
  split; [exact eq_refl|exact eq_refl|exact home_heap| | |by vm_compute|left; by vm_compute].
  - constructor; [|constructor]. split; (split; [split; [by vm_compute|repeat constructor; by vm_compute]|by vm_compute]).
  - cbn. constructor; [intros H; inversion H|constructor].
Qed.

(** Strings below the heap are good sources. *)
Lemma home_src off s :
  read_bytes home_mem off (blen s + 1) = s ++ [0] -> Forall byte_ok s -> 0 < off -> off + blen s < 65536 ->
  src_ok home_ctx [] (Guest off) s.
Proof.
  intros H1 H2 H3 H4. unfold src_ok. split_and!; [by split|done| |].
  - change (memory_size home_ctx) with (memory_size two_blocks). destruct two_blocks_bounds as (_ & _ & -> & _). lia.
  - intros a Ha. right. change (~ (alloc_lo two_blocks <= a < alloc_hi two_blocks)).
    destruct two_blocks_bounds as (-> & _ & _ & _). lia.
Qed.

Lemma src_USER : src_ok home_ctx [] (Guest 1024) USER.
Proof. apply home_src; [by vm_compute|repeat constructor; by vm_compute|lia|by vm_compute]. Qed.

Lemma src_HOME : src_ok home_ctx [] (Guest 1040) HOME.
Proof. apply home_src; [by vm_compute|repeat constructor; by vm_compute|lia|by vm_compute]. Qed.

Lemma src_assign : src_ok home_ctx [] (Guest 1056) (USER ++ [61] ++ root).
Proof. apply home_src; [by vm_compute|repeat constructor; by vm_compute|lia|by vm_compute]. Qed.

Lemma home_bound : bound [home_slot] HOME root.
Proof. exists home_slot. split; [by left|done]. Qed.

Lemma setenv_updates_map_witness :
  exists r E', yos_setenv yos_malloc yos_free id [] [] home_env 1024 1040 1 = Some (r, E') /\ (r = 0 \/ r = -1).
Proof.
  destruct (setenv_updates_map id [] [] home_env [home_slot] [] USER HOME 1024 1040 1 home_ok src_USER src_HOME
    ltac:(by vm_compute) ltac:(by vm_compute) ltac:(done) ltac:(by vm_compute)) as (r & E' & sl & H & _ & _ & Hr).
  exists r, E'. split; [exact H|]. destruct Hr as [[-> _]|[-> _]]; [by left|by right].
Defined.

Lemma getenv_finds_bound_witness :
  exists p, yos_getenv yos_malloc [] [] home_env 1040 = Some (p, home_env) /\ cstr home_ctx p = Some root.
Proof.
  destruct (getenv_finds_bound [] [] home_env [home_slot] [] HOME 1040 home_ok src_HOME) as (p & H & _ & Hp).
  exists p. split; [exact H|]. exact (Hp root home_bound).
Defined.

Lemma unsetenv_removes_witness :
  exists E' slots', yos_unsetenv yos_malloc yos_free id [] [] home_env 1040 = Some (0, E') /\ ~ bound slots' HOME root.
Proof.
  destruct (unsetenv_removes id [] [] home_env [home_slot] [] HOME 1040 home_ok src_HOME ltac:(done) ltac:(by vm_compute))
    as (E' & slots' & H & _ & _ & Hb).
  exists E', slots'. split; [exact H|]. intros Hh. apply Hb in Hh as [Hn _]. exact (Hn eq_refl).
Defined.

Lemma clearenv_frees_all_witness :
  exists E', yos_clearenv yos_malloc yos_free [] [] home_env = Some (0, E') /\ alloc_inv (e_exec E') [].
Proof.
  destruct (clearenv_frees_all [] [] home_env [home_slot] [] home_ok) as (E' & H & _ & Hi & _).
  exists E'. split; [exact H|exact Hi].
Defined.

Lemma putenv_is_setenv_witness :
  exists r E', yos_putenv yos_malloc yos_free id [] [] home_env 1056 = Some (r, E') /\ (r = 0 \/ r = -1).
Proof.
  destruct (putenv_is_setenv id [] [] home_env [home_slot] [] (USER ++ [61] ++ root) USER root 1056 home_ok src_assign
    ltac:(by vm_compute) ltac:(done) ltac:(by vm_compute) ltac:(by vm_compute)) as (r & E' & sl & H & _ & _ & Hr).
  exists r, E'. split; [exact H|]. destruct Hr as [[-> _]|[-> _]]; [by left|by right].
Defined.
