(* ===== verification/Futex.v ===== *)
(** Threads over shared cells (src/src/wasm3/source/m3_atomic.c): the atomic
    operations of linear memory, the wait/notify queue behind every blocking
    primitive of pthread.c, and the interleaving of a set of threads.

    A cell is a 32-bit word of linear memory at an offset; each C11 atomic
    operation is one step.  [m3Atomic_Wait32] and [m3Atomic_Notify] run under
    one host mutex, so entering the queue, looking again after a wake-up and
    notifying are one step each. *)
From S2P Require Import Prelude.

Record shared : Type := Shared { cell : Z -> Z; g_notify_gen : Z }.

Definition store (a v : Z) (s : shared) : shared :=
  Shared (fun x => if x =? a then u32 v else cell s x) (g_notify_gen s).

(** [__atomic_compare_exchange_n]: the value found, and the cell updated when it
    is the expected one. *)
Definition cas (a expected desired : Z) (s : shared) : Z * shared :=
  (cell s a, if cell s a =? expected then store a desired s else s).

Definition exchange (a v : Z) (s : shared) : Z * shared := (cell s a, store a v s).
Definition fetch_add (a v : Z) (s : shared) : Z * shared := (cell s a, store a (cell s a + v) s).

(** [m3Atomic_Notify] with a positive count: one queue for every address, and
    every waiter is woken. *)
Definition m3Atomic_Notify (s : shared) : shared := Shared (cell s) (u64 (g_notify_gen s + 1)).

(** [m3Atomic_Wait32] up to its first sleep: the code 1 when the cell has
    another value, else the generation the waiter parks at. *)
Definition wait_enter (s : shared) (a expected : Z) : Z + Z :=
  if cell s a =? expected then inr (g_notify_gen s) else inl 1.

(** What makes a parked thread run: a broadcast since it parked, a spurious
    wake-up of the condition variable, or its deadline. *)
Inductive wake : Type := Signalled | Spurious | Timeout.

(** One turn of a parked waiter: [None] when it does not run, [Some None] when it
    goes back to sleep, [Some (Some r)] when [m3Atomic_Wait32] returns [r]. *)
Definition wait_turn (w : wake) (timed : bool) (s : shared) (a expected start : Z) : option (option Z) :=
  match w with
  | Timeout => if timed then Some (Some 2) else None
  | Signalled => if g_notify_gen s =? start then None else Some (Some 0)
  | Spurious => Some (if (g_notify_gen s =? start) && (cell s a =? expected) then None else Some 0)
  end.

Lemma store_same a v s : cell (store a v s) a = u32 v.
Proof. simpl. by rewrite Z.eqb_refl. Qed.

Lemma store_other a v s b : b <> a -> cell (store a v s) b = cell s b.
Proof. intros H. simpl. by destruct (Z.eqb_spec b a). Qed.

Lemma u64_succ_ne g : u64 (g + 1) <> g.
Proof. unfold u64. mlia. Qed.

(** * Threads *)

Section Threads.
Context {T : Type}.

(** One step of a thread inside the host; [None]: it is blocked. *)
Variable run : wake -> shared -> T -> option (shared * T).

(** What the guest code of a thread may do next: enter a call. *)
Variable enter : T -> T -> Prop.

Record sys : Type := Sys { sh : shared; threads : list T }.

Inductive step (s : sys) : sys -> Prop :=
| step_run w i t sh' t' : threads s !! i = Some t -> run w (sh s) t = Some (sh', t') ->
    step s (Sys sh' (<[i:=t']> (threads s)))
| step_enter i t t' : threads s !! i = Some t -> enter t t' ->
    step s (Sys (sh s) (<[i:=t']> (threads s)))
| step_elsewhere : step s (Sys (m3Atomic_Notify (sh s)) (threads s)).

(** The steps at which a 64-bit counter does not wrap. *)
Definition step_nowrap (s s' : sys) : Prop := step s s' /\ g_notify_gen (sh s) <= g_notify_gen (sh s').

(** * Counting over the threads *)

Definition tally (f : T -> Z) (l : list T) : Z := foldr (fun t n => f t + n) 0 l.

Lemma tally_insert f l i t t' : l !! i = Some t -> tally f (<[i:=t']> l) = tally f l - f t + f t'.
Proof.
  revert i. induction l as [|x l IH]; intros [|i]; simpl; [done|done|intros [= ->]; lia|].
  intros H. rewrite (IH _ H). lia.
Qed.

Lemma tally_lookup f l i t : (forall x, 0 <= f x) -> l !! i = Some t -> f t <= tally f l.
Proof.
  intros Hf. assert (Hn : forall k, 0 <= tally f k). { intros k. induction k as [|x k IH]; simpl; [lia|]. pose proof (Hf x). lia. }
  revert i. induction l as [|x l IH]; intros [|i]; simpl; [done|done|intros [= ->]; specialize (Hn l); lia|].
  intros H. specialize (IH _ H). pose proof (Hf x). lia.
Qed.

(** Two threads that count one each are two in the tally. *)
Lemma tally_two f l i j t u :
  (forall x, 0 <= f x) -> l !! i = Some t -> l !! j = Some u -> i <> j -> f t + f u <= tally f l.
Proof.
  intros Hf. revert i j. induction l as [|x l IH]; intros [|i] [|j]; simpl; try done.
  - intros [= ->] Hj _. pose proof (tally_lookup f l j u Hf Hj). lia.
  - intros Hi [= ->] _. pose proof (tally_lookup f l i t Hf Hi). lia.
  - intros Hi Hj Hne. pose proof (IH i j Hi Hj ltac:(congruence)). pose proof (Hf x). lia.
Qed.

Lemma tally_ext f g l : (forall t, t ∈ l -> f t = g t) -> tally f l = tally g l.
Proof.
  induction l as [|x l IH]; intros H; simpl; [done|]. rewrite (H x) by (by left). f_equal. apply IH.
  intros t Ht. apply H. by right.
Qed.

Lemma tally_zero f l : (forall t, t ∈ l -> f t = 0) -> tally f l = 0.
Proof. intros H. rewrite (tally_ext f (fun _ => 0) l H). clear H. by induction l. Qed.

(** A tally to which one thread alone contributes. *)
Lemma tally_single f l i t :
  l !! i = Some t -> (forall j u, l !! j = Some u -> j <> i -> f u = 0) -> tally f l = f t.
Proof.
  revert i. induction l as [|x l IH]; intros [|i]; simpl; [done|done| |].
  - intros [= ->] Ho. rewrite tally_zero; [lia|]. intros u Hu. apply list_elem_of_lookup in Hu as [j Hj]. by apply (Ho (S j) u Hj).
  - intros Hi Ho. rewrite (IH i Hi); [rewrite (Ho 0%nat x eq_refl); [lia|done]|]. intros j u Hj Hne. apply (Ho (S j) u Hj). congruence.
Qed.

(** Invariants by induction over a trace. *)
Lemma rtc_invariant (R : sys -> sys -> Prop) (I : sys -> Prop) s s' :
  (forall x y, I x -> R x y -> I y) -> rtc R s s' -> I s -> I s'.
Proof. intros Hstep H. induction H; [done|]. intros Hi. eauto. Qed.

(** A property of every thread survives a step of one thread. *)
Lemma Forall_insert_thread (P : T -> Prop) l i t : Forall P l -> P t -> Forall P (<[i:=t]> l).
Proof. intros Hl Ht. by apply Forall_insert. Qed.

Lemma lookup_after (l : list T) (i j : nat) (t' u : T) : <[i:=t']> l !! j = Some u -> (i = j /\ u = t') \/ (i <> j /\ l !! j = Some u).
Proof.
  intros H. destruct (decide (i = j)) as [->|Hne].
  - apply list_lookup_insert_Some in H as [(_ & -> & _)|[? _]]; [by left|done].
  - rewrite list_lookup_insert_ne in H by done. by right.
Qed.
End Threads.

(** * No lost wake-up, once and for all

    A blocking primitive puts its threads to sleep on a cell.  [fine]: the cell
    says that somebody will notify later; [helper]: a thread that is about to
    notify or to look at the cell again; [good]: what the primitive's own
    invariant says of a thread. *)
Record Sleeps {T : Type} (run : wake -> shared -> T -> option (shared * T)) (enter : T -> T -> Prop)
    (fine : shared -> Prop) (asleep helper : shared -> T -> Prop) (parked_le : Z -> T -> Prop) (good : shared -> T -> Prop) : Prop := {
  sl_new : forall w s t s' t', good s t -> run w s t = Some (s', t') -> g_notify_gen s' = g_notify_gen s ->
    asleep s' t' -> asleep s t \/ fine s';
  sl_fine : forall w s t s' t', good s t -> run w s t = Some (s', t') -> fine s -> fine s' \/ helper s' t';
  sl_helper : forall w s t s' t', good s t -> run w s t = Some (s', t') -> g_notify_gen s' = g_notify_gen s ->
    helper s t -> fine s' \/ helper s' t';
  sl_parked : forall w s t s' t', good s t -> run w s t = Some (s', t') -> parked_le (g_notify_gen s) t -> parked_le (g_notify_gen s) t';
  sl_mono : forall g g' t, g <= g' -> parked_le g t -> parked_le g' t;
  sl_awake : forall g s t, parked_le g t -> g < g_notify_gen s -> ~ asleep s t;
  sl_gen : forall s s' t, g_notify_gen s' = g_notify_gen s -> (asleep s' t <-> asleep s t) /\ (helper s' t <-> helper s t);
  sl_enter : forall s t t', enter t t' -> (forall g, parked_le g t') /\ ~ asleep s t' /\ ~ helper s t
}.

Section Wake.
Context {T : Type} {run : wake -> shared -> T -> option (shared * T)} {enter : T -> T -> Prop}.
Context {fine : shared -> Prop} {asleep helper : shared -> T -> Prop} {parked_le : Z -> T -> Prop} {good : shared -> T -> Prop}.
Context (SL : Sleeps run enter fine asleep helper parked_le good).

Definition awaited (x : @sys T) : Prop :=
  Forall (parked_le (g_notify_gen (sh x))) (threads x) /\
  forall t, t ∈ threads x -> asleep (sh x) t -> fine (sh x) \/ exists u, u ∈ threads x /\ helper (sh x) u.

Lemma awaited_run x i w t s' t' :
  Forall (good (sh x)) (threads x) -> awaited x -> threads x !! i = Some t -> run w (sh x) t = Some (s', t') ->
  g_notify_gen (sh x) <= g_notify_gen s' -> awaited (Sys s' (<[i:=t']> (threads x))).
Proof.
  intros Hd [Hp Hw] Hi Hr Hle. rewrite Forall_forall in Hd, Hp. pose proof (list_elem_of_lookup_2 _ _ _ Hi) as Hin.
  pose proof (Hd t Hin) as Hgt. pose proof (sl_parked _ _ _ _ _ _ _ SL _ _ _ _ _ Hgt Hr (Hp t Hin)) as Hpt'.
  assert (Hall : Forall (parked_le (g_notify_gen (sh x))) (<[i:=t']> (threads x))) by (apply Forall_insert; [by apply Forall_forall|done]).
  split; cbn [threads sh].
  { eapply Forall_impl; [exact Hall|]. intros u Hu. by eapply (sl_mono _ _ _ _ _ _ _ SL). }
  intros u Hu Ha. rewrite Forall_forall in Hall. pose proof (Hall u Hu) as Hpu.
  destruct (Z.eq_dec (g_notify_gen s') (g_notify_gen (sh x))) as [Hg|Hg].
  2: { exfalso. by apply (sl_awake _ _ _ _ _ _ _ SL (g_notify_gen (sh x)) s' u Hpu ltac:(lia)). }
  assert (Hold : fine (sh x) \/ fine s' \/ exists v, v ∈ threads x /\ helper (sh x) v).
  { apply list_elem_of_lookup in Hu as [j Hj]. apply lookup_after in Hj as [[<- ->]|[Hne Hj]].
    - destruct (sl_new _ _ _ _ _ _ _ SL _ _ _ _ _ Hgt Hr Hg Ha) as [Ho|Ho]; [|by auto]. destruct (Hw t Hin Ho); auto.
    - apply (sl_gen _ _ _ _ _ _ _ SL _ _ u Hg) in Ha. destruct (Hw u (list_elem_of_lookup_2 _ _ _ Hj) Ha); auto. }
  destruct Hold as [H2|[H2|(v & Hv & Hh)]]; [|by left|].
  - destruct (sl_fine _ _ _ _ _ _ _ SL _ _ _ _ _ Hgt Hr H2) as [|Hh]; [by left|right]. exists t'. split; [|done].
    eapply list_elem_of_lookup_2, list_lookup_insert_eq, lookup_lt_Some, Hi.
  - apply list_elem_of_lookup in Hv as [j Hj]. destruct (decide (i = j)) as [<-|Hne].
    + rewrite Hj in Hi. injection Hi as ->. destruct (sl_helper _ _ _ _ _ _ _ SL _ _ _ _ _ Hgt Hr Hg Hh) as [|Hh']; [by left|right].
      exists t'. split; [|done]. eapply list_elem_of_lookup_2, list_lookup_insert_eq, lookup_lt_Some, Hj.
    + right. exists v. split; [|by apply (sl_gen _ _ _ _ _ _ _ SL _ _ v Hg)]. apply list_elem_of_lookup. exists j.
      by rewrite list_lookup_insert_ne.
Qed.

Lemma awaited_enter x i t t' :
  awaited x -> threads x !! i = Some t -> enter t t' -> awaited (Sys (sh x) (<[i:=t']> (threads x))).
Proof.
  intros [Hp Hw] Hi He. destruct (sl_enter _ _ _ _ _ _ _ SL (sh x) _ _ He) as (Hq & Hna & Hnh).
  split; cbn [threads sh]; [by apply Forall_insert|]. intros u Hu Ha.
  apply list_elem_of_lookup in Hu as [j Hj]. apply lookup_after in Hj as [[<- ->]|[Hne Hj]]; [done|].
  destruct (Hw u (list_elem_of_lookup_2 _ _ _ Hj) Ha) as [|(v & Hv & Hh)]; [by left|right].
  apply list_elem_of_lookup in Hv as [k Hk]. destruct (decide (i = k)) as [<-|Hk'].
  - rewrite Hk in Hi. injection Hi as ->. done.
  - exists v. split; [|done]. apply list_elem_of_lookup. exists k. by rewrite list_lookup_insert_ne.
Qed.

Lemma awaited_step x y :
  Forall (good (sh x)) (threads x) -> awaited x -> step_nowrap run enter x y -> awaited y.
Proof.
  intros Hgood Hw [Hs Hg]. destruct Hs as [w i t s' t' Hi Hr|i t t' Hi Hc|]; [by eapply awaited_run|by eapply awaited_enter|].
  destruct Hw as [Hp _]. simpl in Hg. pose proof (u64_succ_ne (g_notify_gen (sh x))).
  split; cbn [threads sh g_notify_gen m3Atomic_Notify].
  - eapply Forall_impl; [exact Hp|]. intros t Ht. by eapply (sl_mono _ _ _ _ _ _ _ SL).
  - intros t Ht Ha. exfalso. rewrite Forall_forall in Hp. eapply (sl_awake _ _ _ _ _ _ _ SL); [by apply Hp| |exact Ha]. simpl. lia.
Qed.
End Wake.

(** * Schedules *)

(** Executable schedules: a list of turns of the threads and of guest calls,
    evaluated, is a run of the step relation of Futex. *)

Section Schedule.
Context {T A : Type} (run : wake -> shared -> T -> option (shared * T)) (begin_call : A -> T -> option T).

(** Thread [i] runs, or its guest code enters a call. *)
Definition turn (a : nat * option A) (x : @sys T) : option (@sys T) :=
  t ← threads x !! a.1;
  match a.2 with
  | Some c => t' ← begin_call c t; Some (Sys (sh x) (<[a.1:=t']> (threads x)))
  | None => '(s', t') ← run Signalled (sh x) t; Some (Sys s' (<[a.1:=t']> (threads x)))
  end.

Fixpoint play (l : list (nat * option A)) (x : @sys T) : option (@sys T) :=
  match l with [] => Some x | a :: l' => y ← turn a x; play l' y end.

(** The calls the guest code may make, and a counter that must not wrap. *)
Context (enter : T -> T -> Prop) (allowed : T -> A -> bool) (meter : shared -> Z).
Hypothesis allowed_enter : forall t c t', begin_call c t = Some t' -> allowed t c = true -> enter t t'.

Definition call_ok (a : nat * option A) (x : @sys T) : bool :=
  match a.2, threads x !! a.1 with Some c, Some t => allowed t c | _, _ => true end.

Fixpoint fair (l : list (nat * option A)) (x : @sys T) : bool :=
  match l with
  | [] => true
  | a :: l' => call_ok a x && match turn a x with Some y => (meter (sh x) <=? meter (sh y)) && fair l' y | None => false end
  end.

Lemma turn_step a x y : turn a x = Some y -> call_ok a x = true -> step run enter x y.
Proof.
  unfold call_ok, turn. destruct a as [i [c|]]; cbn [fst snd]; destruct (threads x !! i) as [t|] eqn:Hi; try done; cbn [mbind option_bind].
  - destruct (begin_call c t) as [t'|] eqn:Hb; [|done]. intros [= <-] Hf. apply (step_enter _ _ _ i t); [done|]. by eapply allowed_enter.
  - destruct (run Signalled (sh x) t) as [[s' t']|] eqn:Hr; [|done]. intros [= <-] _. by apply (step_run _ _ _ Signalled i t).
Qed.

Lemma play_rtc l x y :
  play l x = Some y -> fair l x = true -> rtc (fun x y => step run enter x y /\ meter (sh x) <= meter (sh y)) x y.
Proof.
  revert x. induction l as [|a l IH]; intros x; cbn [play fair]; [intros [= <-] _; apply rtc_refl|].
  intros Hp Hf. apply andb_true_iff in Hf as [Hf Ht]. destruct (turn a x) as [z|] eqn:E; [|done].
  apply andb_true_iff in Ht as [Hg Ht]. apply Z.leb_le in Hg. eapply rtc_l; [split; [by eapply turn_step|done]|]. by apply IH.
Qed.
End Schedule.

(** [k] turns of thread [i]. *)
Definition turns {A} (i k : nat) : list (nat * option A) := repeat (i, None) k.

(** A run without a counter is a run. *)
Lemma rtc_forget {T} (run : wake -> shared -> T -> option (shared * T)) (enter : T -> T -> Prop) (P : sys -> sys -> Prop) x y :
  rtc (fun x y => step run enter x y /\ P x y) x y -> rtc (step run enter) x y.
Proof. intros H. induction H as [|x z y [Hs _] _ IH]; [apply rtc_refl|]. by eapply rtc_l. Qed.
