(* ===== verification/Pthread.v ===== *)
(** The blocking primitives of pthread.c (src/src/yos/impl/proc/pthread.c) over
    the cells of Futex: the three-state mutex, spinlocks, condition variables
    and barriers, which call the mutex inside.

    A call is a program counter that carries the C locals; [run] is the next
    atomic operation of the function.  [held] is a ghost: the locks the thread
    has taken and not yet released. *)
From stdpp Require Import gmap.
From S2P Require Import Prelude Futex.

Definition EBUSY_FB : Z := 16.
Definition ETIMEDOUT_LX : Z := 110.

(** * The mutex *)

Inductive lock_pc : Type := LCas | LXchg | LWait | LPark (start : Z).
Inductive unlock_pc : Type := UXchg | UNotify.

(** [mu_lock_cell]: [inr] when it returns 0. *)
Definition mu_lock_cell (w : wake) (s : shared) (m : Z) (l : lock_pc) : option (shared * (lock_pc + unit)) :=
  match l with
  | LCas => let '(c, s') := cas m 0 1 s in
      Some (s', if c =? 0 then inr tt else if c =? 2 then inl LWait else inl LXchg)
  | LXchg => let '(c, s') := exchange m 2 s in
      Some (s', if c =? 0 then inr tt else inl LWait)
  | LWait => Some (s, match wait_enter s m 2 with inl _ => inl LXchg | inr start => inl (LPark start) end)
  | LPark start =>
      match wait_turn w false s m 2 start with
      | None => None
      | Some None => Some (s, inl (LPark start))
      | Some (Some _) => Some (s, inl LXchg)
      end
  end.

Definition mu_unlock_cell (s : shared) (m : Z) (u : unlock_pc) : shared * (unlock_pc + unit) :=
  match u with
  | UXchg => let '(prev, s') := exchange m 0 s in (s', if prev =? 2 then inl UNotify else inr tt)
  | UNotify => (m3Atomic_Notify s, inr tt)
  end.

(** * The calls *)

(** Where a call goes on once the mutex is taken or released. *)
Inductive kont : Type :=
| KRet (r : Z)                                (* the caller returns r *)
| KCond (c seq m : Z) (timed : bool)          (* cond_wait, mutex released *)
| KArrive (b : Z)                             (* barrier_wait, first lock *)
| KBarSleep (b gen seq : Z)                   (* barrier_wait, before sleeping *)
| KBarTest (b gen : Z).                       (* barrier_wait, after sleeping *)

(** The words of a barrier. *)
Definition b_gen (b : Z) : Z := b + 4.
Definition b_arrived (b : Z) : Z := b + 8.
Definition b_count (b : Z) : Z := b + 12.
Definition b_seq (b : Z) : Z := b + 16.

Inductive pc : Type :=
| Guest
| InLock (m : Z) (l : lock_pc) (k : kont)
| InUnlock (m : Z) (u : unlock_pc) (k : kont)
| TryLock (m : Z)
| SpinLock (m : Z)
| SpinTry (m : Z)
| SpinUnlock (m : Z)
| Stores (l : list (Z * Z))                   (* the stores of an init function *)
| CondLoad (c m : Z) (timed : bool)
| CondWait (c seq m : Z) (timed : bool)
| CondPark (c seq m : Z) (timed : bool) (start : Z)
| CondAdd (c : Z)
| CondNotify
| BarGen (b : Z)
| BarArrived (b gen : Z)
| BarCount (b gen arrived : Z)
| BarStore (b gen arrived count : Z)
| BarReset (b : Z)
| BarNext (b : Z)
| BarSeqAdd (b : Z)
| BarNotify (b : Z)
| BarTest (b gen : Z)
| BarSeq (b gen : Z)
| BarWait (b gen seq : Z)
| BarPark (b gen seq start : Z).

Record thread : Type := Thread { at_ : pc; held : gset Z; result : Z }.

Definition goto (p : pc) (t : thread) : thread := Thread p (held t) (result t).
Definition ret (r : Z) (t : thread) : thread := Thread Guest (held t) r.
Definition acquire (m : Z) (t : thread) : thread := Thread (at_ t) (held t ∪ {[m]}) (result t).
Definition release (m : Z) (t : thread) : thread := Thread (at_ t) (held t ∖ {[m]}) (result t).

Definition resume (k : kont) (t : thread) : thread :=
  match k with
  | KRet r => ret r t
  | KCond c seq m timed => goto (CondWait c seq m timed) t
  | KArrive b => goto (BarGen b) t
  | KBarSleep b gen seq => goto (BarWait b gen seq) t
  | KBarTest b gen => goto (BarTest b gen) t
  end.

(** The code that [cond_wait] and [cond_timedwait] return after the relock. *)
Definition cond_rc (timed : bool) (r : Z) : Z := if timed && (r =? 2) then ETIMEDOUT_LX else 0.

(** [host_pthread_spin_lock], [_trylock] and [_unlock]. *)
Definition run_spin (s : shared) (t : thread) : option (shared * thread) :=
  match at_ t with
  | SpinLock m =>
      let '(c, s') := cas m 0 1 s in
      Some (s', if c =? 0 then ret 0 (acquire m t) else t)
  | SpinTry m =>
      let '(c, s') := cas m 0 1 s in
      Some (s', if c =? 0 then ret 0 (acquire m t) else ret EBUSY_FB t)
  | SpinUnlock m => Some (store m 0 s, ret 0 (release m t))
  | _ => None
  end.

(** [host_pthread_cond_wait], [_timedwait], [_signal] and [_broadcast]. *)
Definition run_cond (w : wake) (s : shared) (t : thread) : option (shared * thread) :=
  match at_ t with
  | CondLoad c m timed => Some (s, goto (InUnlock m UXchg (KCond c (cell s c) m timed)) t)
  | CondWait c seq m timed =>
      match wait_enter s c seq with
      | inl r => Some (s, goto (InLock m LCas (KRet (cond_rc timed r))) t)
      | inr start => Some (s, goto (CondPark c seq m timed start) t)
      end
  | CondPark c seq m timed start =>
      match wait_turn w timed s c seq start with
      | None => None
      | Some None => Some (s, t)
      | Some (Some r) => Some (s, goto (InLock m LCas (KRet (cond_rc timed r))) t)
      end
  | CondAdd c => Some ((fetch_add c 1 s).2, goto CondNotify t)
  | CondNotify => Some (m3Atomic_Notify s, ret 0 t)
  | _ => None
  end.

(** [host_pthread_barrier_wait]. *)
Definition run_barrier (w : wake) (s : shared) (t : thread) : option (shared * thread) :=
  match at_ t with
  | BarGen b => Some (s, goto (BarArrived b (cell s (b_gen b))) t)
  | BarArrived b gen => Some (s, goto (BarCount b gen (u32 (cell s (b_arrived b) + 1))) t)
  | BarCount b gen arrived => Some (s, goto (BarStore b gen arrived (cell s (b_count b))) t)
  | BarStore b gen arrived count =>
      Some (store (b_arrived b) arrived s,
            goto (if arrived =? count then BarReset b else BarTest b gen) t)
  | BarReset b => Some (store (b_arrived b) 0 s, goto (BarNext b) t)
  | BarNext b => Some ((fetch_add (b_gen b) 1 s).2, goto (BarSeqAdd b) t)
  | BarSeqAdd b => Some ((fetch_add (b_seq b) 1 s).2, goto (BarNotify b) t)
  | BarNotify b => Some (m3Atomic_Notify s, goto (InUnlock b UXchg (KRet (-1))) t)
  | BarTest b gen =>
      Some (s, goto (if cell s (b_gen b) =? gen then BarSeq b gen else InUnlock b UXchg (KRet 0)) t)
  | BarSeq b gen => Some (s, goto (InUnlock b UXchg (KBarSleep b gen (cell s (b_seq b)))) t)
  | BarWait b gen seq =>
      match wait_enter s (b_seq b) seq with
      | inl _ => Some (s, goto (InLock b LCas (KBarTest b gen)) t)
      | inr start => Some (s, goto (BarPark b gen seq start) t)
      end
  | BarPark b gen seq start =>
      match wait_turn w false s (b_seq b) seq start with
      | None => None
      | Some None => Some (s, t)
      | Some (Some _) => Some (s, goto (InLock b LCas (KBarTest b gen)) t)
      end
  | _ => None
  end.

(** The next atomic operation of a thread. *)
Definition run (w : wake) (s : shared) (t : thread) : option (shared * thread) :=
  match at_ t with
  | Guest => None
  | InLock m l k =>
      match mu_lock_cell w s m l with
      | None => None
      | Some (s', inl l') => Some (s', goto (InLock m l' k) t)
      | Some (s', inr _) => Some (s', resume k (acquire m t))
      end
  | InUnlock m u k =>
      let t' := match u with UXchg => release m t | UNotify => t end in
      match mu_unlock_cell s m u with
      | (s', inl u') => Some (s', goto (InUnlock m u' k) t')
      | (s', inr _) => Some (s', resume k t')
      end
  | TryLock m =>
      let '(c, s') := cas m 0 1 s in
      Some (s', if c =? 0 then ret 0 (acquire m t) else ret EBUSY_FB t)
  | SpinLock _ | SpinTry _ | SpinUnlock _ => run_spin s t
  | Stores [] => Some (s, ret 0 t)
  | Stores ((a, v) :: l) => Some (store a v s, goto (Stores l) t)
  | CondLoad _ _ _ | CondWait _ _ _ _ | CondPark _ _ _ _ _ | CondAdd _ | CondNotify => run_cond w s t
  | _ => run_barrier w s t
  end.

(** * The imports *)

(** The guest's call.  A pointer is [None] for a null one. *)
Inductive api : Type :=
| host_pthread_mutex_init (cell : option Z)
| host_pthread_mutex_destroy (cell : option Z)
| host_pthread_mutex_lock (cell : option Z)
| host_pthread_mutex_trylock (cell : option Z)
| host_pthread_mutex_unlock (cell : option Z)
| host_pthread_spin_init (cell : option Z)
| host_pthread_spin_destroy (cell : option Z)
| host_pthread_spin_lock (cell : option Z)
| host_pthread_spin_trylock (cell : option Z)
| host_pthread_spin_unlock (cell : option Z)
| host_pthread_cond_init (c : option Z)
| host_pthread_cond_destroy (c : option Z)
| host_pthread_cond_wait (c m : option Z)
| host_pthread_cond_timedwait (c m ts : option Z)
| host_pthread_cond_signal (c : option Z)
| host_pthread_cond_broadcast (c : option Z)
| host_pthread_barrier_init (b : option Z) (count : Z)
| host_pthread_barrier_destroy (b : option Z)
| host_pthread_barrier_wait (b : option Z).

(** The first program counter, or the code returned at once. *)
Definition at_cell (p : option Z) (bad : Z) (f : Z -> pc) : Z + pc :=
  match p with Some a => inr (f a) | None => inl bad end.

Definition entry (c : api) : Z + pc :=
  match c with
  | host_pthread_mutex_init p | host_pthread_mutex_destroy p => at_cell p 0 (fun m => Stores [(m, 0)])
  | host_pthread_mutex_lock p => at_cell p (-1) (fun m => InLock m LCas (KRet 0))
  | host_pthread_mutex_trylock p => at_cell p (-1) TryLock
  | host_pthread_mutex_unlock p => at_cell p (-1) (fun m => InUnlock m UXchg (KRet 0))
  | host_pthread_spin_init p => at_cell p EINVAL (fun m => Stores [(m, 0)])
  | host_pthread_spin_destroy _ => inl 0
  | host_pthread_spin_lock p => at_cell p EINVAL SpinLock
  | host_pthread_spin_trylock p => at_cell p EINVAL SpinTry
  | host_pthread_spin_unlock p => at_cell p EINVAL SpinUnlock
  | host_pthread_cond_init p => at_cell p 0 (fun c => Stores [(c, 0)])
  | host_pthread_cond_destroy _ => inl 0
  | host_pthread_cond_wait p q =>
      match p, q with Some c, Some m => inr (CondLoad c m false) | _, _ => inl (-1) end
  | host_pthread_cond_timedwait p q ts =>
      match p, q, ts with Some c, Some m, Some _ => inr (CondLoad c m true) | _, _, _ => inl (-1) end
  | host_pthread_cond_signal p | host_pthread_cond_broadcast p => at_cell p (-1) CondAdd
  | host_pthread_barrier_init p count =>
      if count =? 0 then inl EINVAL
      else at_cell p EINVAL (fun b => Stores [(b, 0); (b_gen b, 0); (b_arrived b, 0); (b_count b, count); (b_seq b, 0)])
  | host_pthread_barrier_destroy _ => inl 0
  | host_pthread_barrier_wait p => at_cell p EINVAL (fun b => InLock b LCas (KArrive b))
  end.

Definition start_call (c : api) (t : thread) : thread :=
  match entry c with inl r => ret r t | inr p => goto p t end.

(** A call that guest code makes. *)
Definition begin_call (c : api) (t : thread) : option thread :=
  match at_ t with Guest => Some (start_call c t) | _ => None end.
