(* ===== verification/MutexProps.v ===== *)
(** Mutual exclusion and no lost wake-up of the mutex and the spinlock, also
    where condition variables and barriers take the mutex inside. *)
From stdpp Require Import gmap.
From S2P Require Import Prelude Futex Pthread.

Section Mutex.
(** The lock under study. *)
Context (m : Z).

Definition is_holder (t : thread) : Prop := m ∈ held t.
Definition owner (t : thread) : Z := if decide (m ∈ held t) then 1 else 0.
Definition nz (v : Z) : Z := if v =? 0 then 0 else 1.

(** * The client's discipline

    The lock is released by its holder only, and its cell is not at the same
    time a word of something else. *)

Definition words_clear (b : Z) : Prop :=
  b_gen b <> m /\ b_arrived b <> m /\ b_count b <> m /\ b_seq b <> m.

Definition kont_ok (l : Z) (k : kont) : Prop :=
  match k with
  | KRet _ => True
  | KCond c _ _ _ => c <> m
  | KArrive b | KBarSleep b _ _ | KBarTest b _ => l = b /\ words_clear b
  end.

(** What follows a release. *)
Definition after_unlock (k : kont) : Prop :=
  match k with KArrive _ | KBarTest _ _ => False | _ => True end.

Definition in_barrier (b : Z) (t : thread) : Prop := words_clear b /\ (b = m -> is_holder t).

Definition disciplined (t : thread) : Prop :=
  match at_ t with
  | Guest | TryLock _ | SpinLock _ | SpinTry _ | CondNotify => True
  | InLock l _ k => kont_ok l k
  | InUnlock l UXchg k => kont_ok l k /\ after_unlock k /\ (l = m -> is_holder t)
  | InUnlock l UNotify k => kont_ok l k /\ after_unlock k
  | SpinUnlock l => l = m -> is_holder t
  | Stores l => Forall (fun e => fst e <> m) l
  | CondLoad c l _ => c <> m /\ (l = m -> is_holder t)
  | CondWait c _ _ _ | CondPark c _ _ _ _ | CondAdd c => c <> m
  | BarGen b | BarArrived b _ | BarCount b _ _ | BarStore b _ _ _ | BarReset b | BarNext b
  | BarSeqAdd b | BarNotify b | BarTest b _ | BarSeq b _ => in_barrier b t
  | BarWait b _ _ | BarPark b _ _ _ => words_clear b
  end.

(** The guest enters a call that keeps the discipline. *)
Definition client (t t' : thread) : Prop :=
  at_ t = Guest /\ exists c, t' = start_call c t /\ disciplined t'.

(** * One step of one thread *)

Lemma owner_bounds t : 0 <= owner t <= 1.
Proof. unfold owner. case_decide; lia. Qed.

Lemma owner_held t t' : held t' = held t -> owner t' = owner t.
Proof. unfold owner. by intros ->. Qed.

Lemma owner_acquire t : owner (acquire m t) = 1.
Proof. unfold owner. rewrite decide_True; [done|]. simpl. set_solver. Qed.

Lemma owner_acquire_other l t : l <> m -> owner (acquire l t) = owner t.
Proof. intros H. unfold owner. simpl. destruct (decide (m ∈ held t)), (decide (m ∈ held t ∪ {[l]})); set_solver. Qed.

Lemma owner_release t : owner (release m t) = 0.
Proof. unfold owner. rewrite decide_False; [done|]. simpl. set_solver. Qed.

Lemma owner_release_other l t : l <> m -> owner (release l t) = owner t.
Proof. intros H. unfold owner. simpl. destruct (decide (m ∈ held t)), (decide (m ∈ held t ∖ {[l]})); set_solver. Qed.

Lemma holder_owner t : is_holder t <-> owner t = 1.
Proof. unfold is_holder, owner. case_decide; split; done. Qed.

Lemma held_resume k t : held (resume k t) = held t.
Proof. by destruct k. Qed.

Lemma resume_disciplined l k t :
  kont_ok l k -> (l = m -> match k with KArrive _ | KBarTest _ _ => is_holder t | _ => True end) -> disciplined (resume k t).
Proof.
  destruct k as [r|c seq l' timed|b|b gen seq|b gen]; simpl; intros Hk Hh; try done; unfold disciplined, in_barrier; simpl.
  - destruct Hk as [-> Hw]. split; [done|]. intros ->. by apply Hh.
  - by destruct Hk.
  - destruct Hk as [-> Hw]. split; [done|]. intros ->. by apply Hh.
Qed.

(** What a step does to the lock's books: the holder count moves with the cell. *)
Definition balanced (s s' : shared) (t t' : thread) : Prop :=
  owner t' + nz (cell s m) = owner t + nz (cell s' m).

Lemma balanced_same s s' t t' : cell s' m = cell s m -> held t' = held t -> balanced s s' t t'.
Proof. unfold balanced. intros -> ?. by rewrite (owner_held t t'). Qed.

Lemma taken s s' t t' :
  owner t <= nz (cell s m) -> cell s m = 0 -> cell s' m <> 0 -> owner t' = 1 -> balanced s s' t t'.
Proof.
  unfold balanced, nz. pose proof (owner_bounds t). intros Hle H0 H1 ->. rewrite H0 in *. simpl in *.
  destruct (Z.eqb_spec (cell s' m) 0); lia.
Qed.

Lemma cas_spec l s c s' :
  cas l 0 1 s = (c, s') ->
  c = cell s l /\ (cell s l = 0 -> cell s' l = 1) /\ (cell s l <> 0 -> s' = s) /\ (l <> m -> cell s' m = cell s m).
Proof.
  unfold cas. intros [= <- <-]. destruct (Z.eqb_spec (cell s l) 0) as [E|E]; split_and!; try done.
  - intros _. by rewrite store_same.
  - intros Hl. by rewrite store_other.
Qed.

(** A compare-and-swap from 0 to 1 that takes the lock when it succeeds. *)
Lemma cas_taken l s c s' t :
  cas l 0 1 s = (c, s') -> owner t <= nz (cell s m) ->
  if c =? 0 then balanced s s' t (acquire l t) else balanced s s' t t.
Proof.
  intros Hc Hle. destruct (cas_spec _ _ _ _ Hc) as (-> & H0 & H1 & H2). destruct (Z.eqb_spec (cell s l) 0) as [E|E].
  - destruct (decide (l = m)) as [->|Hl].
    + apply taken; [done|done| |apply owner_acquire]. rewrite H0 by done. done.
    + unfold balanced. rewrite owner_acquire_other, H2 by done. done.
  - rewrite (H1 E). by apply balanced_same.
Qed.

Lemma lock_local w s l lp r s' t :
  mu_lock_cell w s l lp = Some (s', r) -> owner t <= nz (cell s m) ->
  match r with inl _ => balanced s s' t t | inr _ => balanced s s' t (acquire l t) end.
Proof.
  intros Hr Hle. destruct lp as [| | |start]; cbn [mu_lock_cell] in Hr.
  - destruct (cas l 0 1 s) as [c s1] eqn:Hc. injection Hr as <- <-. pose proof (cas_taken _ _ _ _ t Hc Hle) as H.
    destruct (c =? 0); [done|]. by destruct (c =? 2).
  - simpl in Hr. injection Hr as <- <-. destruct (decide (l = m)) as [->|Hl].
    + destruct (Z.eqb_spec (cell s m) 0) as [E|E].
      * apply taken; [done|done| |apply owner_acquire]. by rewrite store_same.
      * unfold balanced, nz. rewrite store_same. destruct (Z.eqb_spec (cell s m) 0); [done|]. simpl. lia.
    + destruct (cell s l =? 0); unfold balanced; rewrite store_other by done; [|done]. by rewrite owner_acquire_other.
  - injection Hr as <- <-. by destruct (wait_enter s l 2).
  - destruct (wait_turn w false s l 2 start) as [[x|]|]; [| |done]; by injection Hr as <- <-.
Qed.

Lemma released s t : owner t = 1 -> owner t <= nz (cell s m) -> balanced s (store m 0 s) t (release m t).
Proof.
  intros H1 Hle. unfold balanced. rewrite owner_release, H1. unfold nz in *. rewrite store_same.
  destruct (Z.eqb_spec (cell s m) 0); simpl in *; lia.
Qed.

Lemma unlock_local s l t : (l = m -> is_holder t) -> owner t <= nz (cell s m) -> balanced s (store l 0 s) t (release l t).
Proof.
  intros Hh Hle. destruct (decide (l = m)) as [->|Hl].
  - apply released; [|done]. by apply holder_owner, Hh.
  - unfold balanced. by rewrite owner_release_other, store_other.
Qed.

Lemma balanced_held s s' t t1 t2 : held t2 = held t1 -> balanced s s' t t1 -> balanced s s' t t2.
Proof. intros He. unfold balanced. by rewrite (owner_held t1 t2). Qed.

Lemma step_lock w s l lp k t s' t' :
  at_ t = InLock l lp k -> disciplined t -> owner t <= nz (cell s m) -> run w s t = Some (s', t') ->
  disciplined t' /\ balanced s s' t t'.
Proof.
  intros Hat Hd Hle Hr. unfold run, run_spin, run_cond, run_barrier in Hr. rewrite Hat in Hr. unfold disciplined in Hd. rewrite Hat in Hd.
  destruct (mu_lock_cell w s l lp) as [[s1 [l1|[]]]|] eqn:E; [| |done]; injection Hr as <- <-;
    pose proof (lock_local _ _ _ _ _ _ t E Hle) as Hb; simpl in Hb.
  - split; [done|]. by eapply balanced_held; [|exact Hb].
  - split; [|by eapply balanced_held; [|exact Hb]; rewrite held_resume].
    apply (resume_disciplined l); [done|]. intros ->. destruct k; try done; unfold is_holder; simpl; set_solver.
Qed.

Lemma step_unlock w s l u k t s' t' :
  at_ t = InUnlock l u k -> disciplined t -> owner t <= nz (cell s m) -> run w s t = Some (s', t') ->
  disciplined t' /\ balanced s s' t t'.
Proof.
  intros Hat Hd Hle Hr. unfold run, run_spin, run_cond, run_barrier in Hr. rewrite Hat in Hr. unfold disciplined in Hd. rewrite Hat in Hd.
  destruct u; simpl in Hr.
  - destruct Hd as (Hok & Hk & Hh). pose proof (unlock_local s l t Hh Hle) as Hb.
    destruct (cell s l =? 2); injection Hr as <- <-.
    + split; [done|]. by eapply balanced_held; [|exact Hb].
    + split; [apply (resume_disciplined l); [done|by destruct k]|]. eapply balanced_held; [|exact Hb]. by rewrite held_resume.
  - destruct Hd as [Hok Hk]. injection Hr as <- <-. split; [apply (resume_disciplined l); [done|by destruct k]|].
    apply balanced_same; [done|by rewrite held_resume].
Qed.

Lemma step_cas w s l t s' t' :
  at_ t = TryLock l \/ at_ t = SpinLock l \/ at_ t = SpinTry l -> owner t <= nz (cell s m) ->
  run w s t = Some (s', t') -> disciplined t' /\ balanced s s' t t'.
Proof.
  intros Hat Hle Hr. destruct (cas l 0 1 s) as [c s1] eqn:E. pose proof (cas_taken _ _ _ _ t E Hle) as H.
  unfold run, run_spin, run_cond, run_barrier in Hr. destruct Hat as [Hat|[Hat|Hat]]; rewrite Hat, E in Hr; injection Hr as <- <-;
    destruct (c =? 0); (split; [unfold disciplined; simpl; rewrite ?Hat; done|by eapply balanced_held; [|exact H]]).
Qed.

(** Nothing stored into the lock, nothing taken or released. *)
Definition quiet (s s' : shared) (t t' : thread) : Prop := cell s' m = cell s m /\ held t' = held t.

Lemma step_stores w s l t s' t' :
  at_ t = Stores l -> disciplined t -> run w s t = Some (s', t') -> disciplined t' /\ quiet s s' t t'.
Proof.
  intros Hat Hd Hr. unfold run, run_spin, run_cond, run_barrier in Hr. rewrite Hat in Hr. unfold disciplined in Hd. rewrite Hat in Hd.
  destruct l as [|[a v] l]; injection Hr as <- <-; [split; [done|done]|].
  apply Forall_cons in Hd as [Ha Hl]. split; [done|]. split; [by apply store_other|done].
Qed.

(** A step that stores nothing into the lock and takes or releases nothing. *)
Ltac step_elsewhere :=
  match goal with Hr : Some _ = Some _ |- _ => injection Hr as <- <- end;
  split; [done|split; [|done]]; try done; apply store_other; done.

Lemma step_cond w s t s' t' :
  match at_ t with CondLoad _ _ _ | CondWait _ _ _ _ | CondPark _ _ _ _ _ | CondAdd _ | CondNotify => True | _ => False end ->
  disciplined t -> run w s t = Some (s', t') -> disciplined t' /\ quiet s s' t t'.
Proof.
  intros Hc Hd Hr. unfold run, run_spin, run_cond, run_barrier in Hr. unfold disciplined in Hd. destruct (at_ t) eqn:Hat; try done.
  - destruct Hd as [H1 H2]. step_elsewhere.
  - destruct (wait_enter s c seq); step_elsewhere.
  - destruct (wait_turn w timed s c seq start) as [[r|]|]; [step_elsewhere| |done].
    injection Hr as <- <-. split; [unfold disciplined; by rewrite Hat|done].
  - step_elsewhere.
  - step_elsewhere.
Qed.

Lemma step_barrier w s t s' t' :
  match at_ t with
  | BarGen _ | BarArrived _ _ | BarCount _ _ _ | BarStore _ _ _ _ | BarReset _ | BarNext _ | BarSeqAdd _ | BarNotify _
  | BarTest _ _ | BarSeq _ _ | BarWait _ _ _ | BarPark _ _ _ _ => True
  | _ => False
  end ->
  disciplined t -> run w s t = Some (s', t') -> disciplined t' /\ quiet s s' t t'.
Proof.
  intros Hc Hd Hr. unfold run, run_spin, run_cond, run_barrier in Hr. unfold disciplined in Hd. destruct (at_ t) eqn:Hat; try done;
    try (destruct Hd as [(Hg & Ha & Hn & Hs) Hh]; step_elsewhere).
  - destruct Hd as [Hw Hh]. injection Hr as <- <-. split; [by destruct (arrived =? count)|].
    split; [|done]. apply store_other. destruct Hw as (_ & Ha & _). congruence.
  - destruct Hd as [Hw Hh]. injection Hr as <- <-. split; [|done].
    unfold disciplined. cbn [at_ goto]. destruct (cell s (b_gen b) =? gen); [done|]. simpl. split; [done|].
    split; [done|]. intros ->. by apply Hh.
  - destruct (wait_enter s (b_seq b) seq); step_elsewhere.
  - destruct (wait_turn w false s (b_seq b) seq start) as [[r|]|]; [step_elsewhere| |done].
    injection Hr as <- <-. split; [unfold disciplined; by rewrite Hat|done].
Qed.

(** The steps that take or release a lock. *)
Definition own_pc (t : thread) : bool :=
  match at_ t with InLock _ _ _ | InUnlock _ _ _ | TryLock _ | SpinLock _ | SpinTry _ | SpinUnlock _ => true | _ => false end.

Lemma step_quiet w s t s' t' :
  own_pc t = false -> disciplined t -> run w s t = Some (s', t') -> disciplined t' /\ quiet s s' t t'.
Proof.
  intros Ho Hd Hr. unfold own_pc in Ho. destruct (at_ t) eqn:Hat; try done;
    try (by eapply step_cond; [rewrite Hat| |]); try (by eapply step_barrier; [rewrite Hat| |]).
  - unfold run, run_spin, run_cond, run_barrier in Hr. by rewrite Hat in Hr.
  - by eapply step_stores.
Qed.

(** Every step keeps the discipline and the balance. *)
Lemma run_local w s t s' t' :
  disciplined t -> owner t <= nz (cell s m) -> run w s t = Some (s', t') -> disciplined t' /\ balanced s s' t t'.
Proof.
  intros Hd Hle Hr. destruct (own_pc t) eqn:Ho.
  - unfold own_pc in Ho. destruct (at_ t) eqn:Hat; try done; try (by eapply step_lock); try (by eapply step_unlock);
      try (by eapply step_cas; [|exact Hle|exact Hr]; eauto).
    unfold run, run_spin, run_cond, run_barrier in Hr. unfold disciplined in Hd. rewrite Hat in Hr, Hd. injection Hr as <- <-. split; [done|].
    eapply balanced_held; [|by apply unlock_local]. done.
  - destruct (step_quiet _ _ _ _ _ Ho Hd Hr) as [H1 [H2 H3]]. split; [done|]. by apply balanced_same.
Qed.

(** * The whole system *)

Definition lock_inv (x : sys) : Prop :=
  Forall disciplined (threads x) /\ tally owner (threads x) = nz (cell (sh x) m).

Lemma lock_inv_step x y : lock_inv x -> step run client x y -> lock_inv y.
Proof.
  intros [Hd Ht] Hs. destruct Hs as [w i t s' t' Hi Hr|i t t' Hi [Hg (c & -> & Hc)]|].
  - rewrite Forall_forall in Hd. pose proof (Hd t (list_elem_of_lookup_2 _ _ _ Hi)) as Hdt.
    assert (Hle : owner t <= nz (cell (sh x) m)).
    { rewrite <-Ht. by eapply tally_lookup; [apply owner_bounds|]. }
    destruct (run_local _ _ _ _ _ Hdt Hle Hr) as [H1 H2]. split.
    + apply Forall_insert; [by apply Forall_forall|done].
    + cbn [threads sh]. rewrite (tally_insert _ _ _ _ _ Hi). unfold balanced in H2. lia.
  - split; [by apply Forall_insert|]. cbn [threads sh]. rewrite (tally_insert _ _ _ _ _ Hi), Ht.
    rewrite (owner_held t (start_call c t)); [lia|]. unfold start_call. by destruct (entry c).
  - by split.
Qed.

(** Threads outside the host that hold nothing, and a free lock. *)
Definition fresh (x : sys) : Prop :=
  Forall (fun t => at_ t = Guest /\ held t = ∅) (threads x) /\ cell (sh x) m = 0.

Lemma fresh_inv x : fresh x -> lock_inv x.
Proof.
  intros [Hf H0]. rewrite Forall_forall in Hf. split.
  - apply Forall_forall. intros t Ht. destruct (Hf t Ht) as [Hg _]. unfold disciplined. by rewrite Hg.
  - rewrite H0. apply tally_zero. intros t Ht. destruct (Hf t Ht) as [_ Hh]. unfold owner. rewrite Hh.
    by destruct (decide (m ∈ ∅)).
Qed.

Lemma reachable_inv x y : fresh x -> rtc (step run client) x y -> lock_inv y.
Proof. intros Hf Hr. eapply rtc_invariant; [apply lock_inv_step|exact Hr|by apply fresh_inv]. Qed.

(** * Waking up

    Here the lock is a mutex: no spin release clears its cell unannounced. *)

Definition no_spin (t : thread) : Prop := match at_ t with SpinUnlock l => l <> m | _ => True end.

(** Parked on the mutex, with no broadcast since. *)
Definition asleep (s : shared) (t : thread) : Prop :=
  match at_ t with InLock l (LPark start) _ => l = m /\ start = g_notify_gen s | _ => False end.

(** About to announce the release, or awake and about to try again. *)
Definition helper (s : shared) (t : thread) : Prop :=
  match at_ t with
  | InUnlock l UNotify _ => l = m
  | InLock l (LXchg | LWait) _ => l = m
  | InLock l (LPark start) _ => l = m /\ start <> g_notify_gen s
  | _ => False
  end.

Definition parked_le (g : Z) (t : thread) : Prop :=
  match at_ t with InLock _ (LPark start) _ => start <= g | _ => True end.

Definition mutex_client (t t' : thread) : Prop := client t t' /\ no_spin t'.

Lemma resume_not_parked k t :
  match at_ (resume k t) with InLock _ _ _ | InUnlock _ _ _ | SpinUnlock _ => False | _ => True end.
Proof. by destruct k. Qed.

(** A thread parks on a lock only from [LWait], over a cell at 2. *)
Lemma parked_from w s t s' t' l start k :
  run w s t = Some (s', t') -> at_ t' = InLock l (LPark start) k ->
  at_ t = InLock l (LPark start) k \/ (start = g_notify_gen s /\ cell s' l = 2).
Proof.
  intros Hr Ht'. destruct (at_ t) as [|l0 lp k0|l0 u k0| | | | |ws| | | | | | | | | | | | | | | | |] eqn:Hat; unfold run, run_spin, run_cond, run_barrier in Hr; rewrite Hat in Hr.
  2: {
    destruct (mu_lock_cell w s l0 lp) as [[s1 [l1|[]]]|] eqn:E; [| |done]; injection Hr as <- <-.
    - simpl in Ht'. injection Ht' as -> -> ->. destruct lp as [| | |st]; simpl in E.
      + by destruct (cell s l =? 0), (cell s l =? 2).
      + by destruct (cell s l =? 0).
      + unfold wait_enter in E. destruct (Z.eqb_spec (cell s l) 2); [|done]. injection E as <- <-. by right.
      + destruct (wait_turn w false s l 2 st) as [[r|]|]; try done. injection E as <- <-. by left.
    - by destruct k0. }
  2: { destruct u; simpl in Hr; [destruct (cell s l0 =? 2)|]; injection Hr as <- <-; [done|by destruct k0|by destruct k0]. }
  all: exfalso; simplify_eq/=; repeat (case_match; simplify_eq/=); congruence.
Qed.

(** A thread falls asleep only over a cell at 2. *)
Lemma sleep_new w s t s' t' :
  run w s t = Some (s', t') -> g_notify_gen s' = g_notify_gen s -> asleep s' t' -> asleep s t \/ cell s' m = 2.
Proof.
  intros Hr Hg Ha. unfold asleep in Ha.
  destruct (at_ t') as [|l [| | |start] k| | | | | | | | | | | | | | | | | | | | | | |] eqn:Ht'; try done. destruct Ha as [-> ->].
  destruct (parked_from _ _ _ _ _ _ _ _ Hr Ht') as [H|[_ H]]; [left|by right]. unfold asleep. by rewrite H, Hg.
Qed.

Lemma parked_le_run w s t s' t' :
  run w s t = Some (s', t') -> parked_le (g_notify_gen s) t -> parked_le (g_notify_gen s) t'.
Proof.
  intros Hr Hp. unfold parked_le. destruct (at_ t') as [|l [| | |start] k| | | | | | | | | | | | | | | | | | | | | | |] eqn:Ht'; try done.
  destruct (parked_from _ _ _ _ _ _ _ _ Hr Ht') as [H|[-> _]]; [|lia]. unfold parked_le in Hp. by rewrite H in Hp.
Qed.

Lemma no_spin_run w s t s' t' : run w s t = Some (s', t') -> no_spin t'.
Proof.
  intros Hr. unfold no_spin. destruct (at_ t') eqn:Ht'; try done. exfalso. unfold run, run_spin, run_cond, run_barrier in Hr.
  destruct (at_ t) as [|l0 lp k0|l0 u k0| | | | |ws| | | | | | | | | | | | | | | | |] eqn:Hat.
  2: { destruct (mu_lock_cell w s l0 lp) as [[s1 [l1|[]]]|]; [| |done]; injection Hr as <- <-; [done|by destruct k0]. }
  2: { destruct u; simpl in Hr; [destruct (cell s l0 =? 2)|]; injection Hr as <- <-; [done|by destruct k0|by destruct k0]. }
  all: simplify_eq/=; repeat (case_match; simplify_eq/=); congruence.
Qed.

(** A helper goes on helping, or leaves the cell at 2. *)
Lemma helper_stays w s t s' t' :
  helper s t -> run w s t = Some (s', t') -> g_notify_gen s' = g_notify_gen s -> cell s' m = 2 \/ helper s' t'.
Proof.
  intros Hh Hr Hg. unfold helper in Hh. unfold run, run_spin, run_cond, run_barrier in Hr. destruct (at_ t) as [|l lp k|l [|] k| | | | | | | | | | | | | | | | | | | | | |] eqn:Hat; try done.
  - destruct lp as [| | |start]; [done| | |]; cbn [mu_lock_cell] in Hr.
    + subst l. simpl in Hr. left. destruct (cell s m =? 0); injection Hr as <- <-; by rewrite store_same.
    + subst l. unfold wait_enter in Hr. destruct (Z.eqb_spec (cell s m) 2); injection Hr as <- <-; [by left|by right].
    + destruct Hh as [-> Hne]. apply not_eq_sym, Z.eqb_neq in Hne. right.
      destruct w; simpl in Hr; rewrite ?Hne in Hr; try done; by injection Hr as <- <-.
  - injection Hr as <- <-. exfalso. simpl in Hg. by apply (u64_succ_ne (g_notify_gen s)).
Qed.

(** A cell at 2 stays at 2 until a release that is about to be announced. *)
Lemma two_stays w s t s' t' :
  disciplined t -> no_spin t -> run w s t = Some (s', t') -> cell s m = 2 -> cell s' m = 2 \/ helper s' t'.
Proof.
  intros Hd Hn Hr H2. destruct (own_pc t) eqn:Ho.
  2: { destruct (step_quiet _ _ _ _ _ Ho Hd Hr) as (_ & -> & _). by left. }
  assert (Hcas : forall l, cell (cas l 0 1 s).2 m = 2).
  { intros l. destruct (cas l 0 1 s) as [c s1] eqn:E. destruct (cas_spec _ _ _ _ E) as (_ & _ & H3 & H4). cbn [snd]. destruct (decide (l = m)) as [->|Hl]; [|by rewrite H4].
    rewrite H3; [done|]. by rewrite H2. }
  assert (Hx : forall l v, l <> m -> cell (store l v s) m = 2) by (intros; by rewrite store_other).
  unfold own_pc in Ho. unfold run, run_spin, run_cond, run_barrier in Hr. unfold no_spin in Hn. destruct (at_ t) as [|l lp k|l [|] k|l|l|l|l|ws| | | | | | | | | | | | | | | | |] eqn:Hat; try done.
  - left. destruct lp as [| | |start]; simpl in Hr.
    + specialize (Hcas l). unfold cas in Hcas. simpl in Hcas.
      destruct (cell s l =? 0); [|destruct (cell s l =? 2)]; injection Hr as <- <-; exact Hcas.
    + assert (cell (store l 2 s) m = 2). { destruct (decide (l = m)) as [->|]; [by rewrite store_same|by apply Hx]. }
      destruct (cell s l =? 0); by simplify_eq.
    + destruct (wait_enter s l 2); by simplify_eq.
    + destruct (wait_turn w false s l 2 start) as [[r|]|]; by simplify_eq.
  - simpl in Hr. destruct (decide (l = m)) as [->|Hl].
    + rewrite H2 in Hr. injection Hr as <- <-. by right.
    + left. specialize (Hx l 0 Hl). destruct (cell s l =? 2); by simplify_eq.
  - simpl in Hr. injection Hr as <- <-. by left.
  - left. specialize (Hcas l). injection Hr as <- <-. exact Hcas.
  - left. specialize (Hcas l). injection Hr as <- <-. exact Hcas.
  - left. specialize (Hcas l). injection Hr as <- <-. exact Hcas.
  - left. simplify_eq. by apply Hx.
Qed.

Lemma parked_le_mono g g' t : g <= g' -> parked_le g t -> parked_le g' t.
Proof. unfold parked_le. intros ?. destruct (at_ t) as [|l [| | |start] k| | | | | | | | | | | | | | | | | | | | | | |]; try done; lia. Qed.

(** After any notify nobody is asleep. *)
Lemma awake_after g s t : parked_le g t -> g < g_notify_gen s -> ~ asleep s t.
Proof.
  unfold parked_le, asleep. intros Hp Hg Ha. destruct (at_ t) as [|l [| | |start] k| | | | | | | | | | | | | | | | | | | | | | |]; try done.
  destruct Ha as [-> ->]. lia.
Qed.

Lemma same_gen_status s s' t :
  g_notify_gen s' = g_notify_gen s -> (asleep s' t <-> asleep s t) /\ (helper s' t <-> helper s t).
Proof. unfold asleep, helper. by intros ->. Qed.

Lemma entry_not_parked c : match entry c with inr (InLock _ (LPark _) _) => False | _ => True end.
Proof.
  destruct c; cbn [entry]; unfold at_cell;
    repeat match goal with |- context [match ?p with Some _ => _ | None => _ end] => destruct p end; try done.
  all: by destruct (count =? 0).
Qed.

Definition wakeful (_ : shared) (t : thread) : Prop := disciplined t /\ no_spin t.

Lemma mutex_sleeps :
  Sleeps run mutex_client (fun s => cell s m = 2) asleep helper parked_le wakeful.
Proof.
  split.
  - intros w s t s' t' _ Hr Hg Ha. by eapply sleep_new.
  - intros w s t s' t' [Hd Hn] Hr H2. by eapply two_stays.
  - intros w s t s' t' _ Hr Hg Hh. by eapply helper_stays.
  - intros w s t s' t' _ Hr Hp. by eapply parked_le_run.
  - apply parked_le_mono.
  - apply awake_after.
  - apply same_gen_status.
  - intros s t t' [[Hg (c & -> & Hd)] Hn]. pose proof (entry_not_parked c) as He.
    unfold start_call, parked_le, asleep, helper. rewrite Hg. destruct (entry c) as [r|p]; [split_and!; [done|by intros []..]|].
    cbn [at_ goto]. destruct p as [|l [| | |st] k| | | | | | | | | | | | | | | | | | | | | | |]; (split_and!; [done|by intros []..]).
Qed.

Definition wake_inv (x : sys) : Prop := Forall no_spin (threads x) /\ awaited (fine := fun s => cell s m = 2) (asleep := asleep) (helper := helper) (parked_le := parked_le) x.

Lemma no_spin_step x y : Forall no_spin (threads x) -> step run mutex_client x y -> Forall no_spin (threads y).
Proof.
  intros Hn Hs. destruct Hs as [w i t s' t' Hi Hr|i t t' Hi [_ Hc]|]; [|by apply Forall_insert|done].
  apply Forall_insert; [done|by eapply no_spin_run].
Qed.

Lemma wake_step x y :
  lock_inv x /\ wake_inv x -> step_nowrap run mutex_client x y -> lock_inv y /\ wake_inv y.
Proof.
  intros [Hl [Hn Hw]] [Hs Hg]. split; [|split].
  - eapply lock_inv_step; [exact Hl|]. destruct Hs as [w i t s' t' Hi Hr|i t t' Hi [Hc _]|]; by econstructor.
  - by eapply no_spin_step.
  - eapply (awaited_step mutex_sleeps); [|exact Hw|by split]. apply Forall_and. split; [apply Hl|done].
Qed.

Lemma fresh_wake x : fresh x -> wake_inv x.
Proof.
  intros [Hf _]. rewrite Forall_forall in Hf. split; [|split].
  - apply Forall_forall. intros t Ht. destruct (Hf t Ht) as [Hg _]. unfold no_spin. by rewrite Hg.
  - apply Forall_forall. intros t Ht. destruct (Hf t Ht) as [Hg _]. unfold parked_le. by rewrite Hg.
  - intros t Ht Ha. destruct (Hf t Ht) as [Hg _]. unfold asleep in Ha. by rewrite Hg in Ha.
Qed.

(** A helper can take a step by itself. *)
Lemma helper_runs s t : helper s t -> is_Some (run Signalled s t).
Proof.
  unfold helper, run. destruct (at_ t) as [|l [| | |start] k|l [|] k| | | | | | | | | | | | | | | | | | | | | |]; try done; intros H.
  - simpl. by destruct (cell s l =? 0).
  - simpl. by destruct (wait_enter s l 2).
  - destruct H as [_ H]. simpl. apply not_eq_sym, Z.eqb_neq in H. rewrite H. by eexists.
Qed.
End Mutex.

(** * Properties *)

(** C3: Mutual exclusion.  Whatever a set of threads does with mutexes,
    spinlocks, condition variables and barriers, as long as each releases only
    what it holds and does not reuse the cell of lock [m] for something else,
    at most one thread holds [m] at any time, and the cell is zero exactly when
    none does.  The acquisitions inside cond_wait and barrier_wait count. *)
Theorem mutex_exclusion m x y :
  fresh m x -> rtc (step run (client m)) x y ->
  tally (owner m) (threads y) <= 1 /\
  (cell (sh y) m = 0 <-> forall t, t ∈ threads y -> m ∉ held t) /\
  (forall i j t u, threads y !! i = Some t -> threads y !! j = Some u -> m ∈ held t -> m ∈ held u -> i = j).
Proof.
  intros Hf Hr. destruct (reachable_inv m x y Hf Hr) as [_ Ht]. unfold nz in Ht.
  assert (Hle : tally (owner m) (threads y) <= 1) by (destruct (cell (sh y) m =? 0); lia).
  split_and!; [done| |].
  - destruct (Z.eqb_spec (cell (sh y) m) 0) as [E|E]; split; try done.
    + intros _ t Hin Hm. apply list_elem_of_lookup in Hin as [i Hi]. pose proof (tally_lookup (owner m) _ _ _ (fun t => proj1 (owner_bounds m t)) Hi) as H.
      apply holder_owner in Hm. lia.
    + intros Hno. exfalso. rewrite tally_zero in Ht; [lia|]. intros t Hin. unfold owner. rewrite decide_False; [done|]. by apply Hno.
  - intros i j t u Hi Hj Hm Hu. destruct (decide (i = j)) as [|Hne]; [done|]. exfalso.
    pose proof (tally_two (owner m) _ _ _ _ _ (fun t => proj1 (owner_bounds m t)) Hi Hj Hne) as H.
    apply holder_owner in Hm, Hu. lia.
Qed.

(** C12: No lost wake-up.  While a thread sleeps on the mutex and the cell does
    not say 2, hence in particular whenever the mutex is free, some other
    thread is inside lock or unlock on the same mutex and can run without help:
    it is about to notify the sleepers or about to try for the mutex.  (Below
    2^64 notifications.) *)
Theorem mutex_no_lost_wakeup m x y t :
  fresh m x -> rtc (step_nowrap run (mutex_client m)) x y ->
  t ∈ threads y -> asleep m (sh y) t -> cell (sh y) m <> 2 ->
  exists u, u ∈ threads y /\ helper m (sh y) u /\ is_Some (run Signalled (sh y) u).
Proof.
  intros Hf Hr Hin Ha H2.
  assert (Hi : lock_inv m y /\ wake_inv m y).
  { eapply (rtc_invariant _ (fun z => lock_inv m z /\ wake_inv m z)); [apply wake_step|exact Hr|split; [by apply fresh_inv|by apply fresh_wake]]. }
  destruct Hi as [_ [_ [_ Hw]]]. destruct (Hw t Hin Ha) as [|(u & Hu & Hh)]; [done|]. exists u. split_and!; [done|done|by eapply helper_runs].
Qed.

(** * Witnesses *)

(** Guest calls that only lock and unlock, and unlock what is held. *)
Definition fair_call (m : Z) (t : thread) (c : api) : bool :=
  match c with
  | host_pthread_mutex_lock (Some _) => true
  | host_pthread_mutex_unlock (Some l) => bool_decide (m ∈ held t) && bool_decide (l = m)
  | _ => false
  end.

Lemma fair_call_client m t c t' : begin_call c t = Some t' -> fair_call m t c = true -> mutex_client m t t'.
Proof.
  unfold begin_call. destruct (at_ t) eqn:Hat; try done. intros [= <-] Hf. unfold fair_call in Hf. destruct c as [| |[l|]| |[l|]| | | | | | | | | | | | | |]; try done.
  - split; [|done]. split; [done|]. by exists (host_pthread_mutex_lock (Some l)).
  - apply andb_true_iff in Hf as [H1 H2]. apply bool_decide_eq_true in H1, H2. split; [|done]. split; [done|].
    exists (host_pthread_mutex_unlock (Some l)). split; [done|]. by split_and!.
Qed.

(** Two threads outside the host, every cell zero. *)
Definition two_guests : sys := Sys (Shared (fun _ => 0) 0) [Thread Guest ∅ 0; Thread Guest ∅ 0].

(** Two threads: the first takes the mutex at 64, the second sleeps on it, the
    first releases it and has not notified yet. *)
Definition contended : list (nat * option api) :=
  let lock := Some (host_pthread_mutex_lock (Some 64)) in
  let unlock := Some (host_pthread_mutex_unlock (Some 64)) in
  [(0%nat, lock); (0%nat, None); (1%nat, lock); (1%nat, None); (1%nat, None); (1%nat, None);
   (0%nat, unlock); (0%nat, None)].

Definition asleep_sys : sys := match play run begin_call contended two_guests with Some y => y | None => two_guests end.

Lemma contended_rtc : rtc (step_nowrap run (mutex_client 64)) two_guests asleep_sys.
Proof. apply (play_rtc run begin_call _ (fair_call 64) g_notify_gen (fair_call_client 64) contended); vm_compute; reflexivity. Qed.

Lemma contended_run : rtc (step run (client 64)) two_guests asleep_sys.
Proof.
  eapply rtc_congruence with (f := fun x => x); [|exact contended_rtc].
  intros x y [Hs _]. destruct Hs as [w i t s' t' Hi Hr|i t t' Hi [Hc _]|]; by econstructor.
Qed.

Lemma two_guests_fresh m : fresh m two_guests.
Proof. split; [by repeat constructor|done]. Qed.

Lemma mutex_exclusion_witness :
  tally (owner 64) (threads asleep_sys) <= 1 /\ cell (sh asleep_sys) 64 = 0.
Proof.
  split; [|by vm_compute].
  exact (proj1 (mutex_exclusion 64 two_guests asleep_sys (two_guests_fresh 64) contended_run)).
Defined.

Definition sleeper : thread := Thread (InLock 64 (LPark 0) (KRet 0)) ∅ 0.

Lemma mutex_no_lost_wakeup_witness :
  exists u, u ∈ threads asleep_sys /\ helper 64 (sh asleep_sys) u.
Proof.
  destruct (mutex_no_lost_wakeup 64 two_guests asleep_sys sleeper (two_guests_fresh 64) contended_rtc) as (u & H1 & H2 & _).
  - apply list_elem_of_lookup. exists 1%nat. vm_compute. reflexivity.
  - split; vm_compute; reflexivity.
  - vm_compute. discriminate.
  - exists u. split; assumption.
Defined.
