(* ===== verification/BarrierProps.v ===== *)
(** A barrier opens exactly when its count of threads is inside, on top of the
    mutual exclusion of its internal mutex. *)
From stdpp Require Import gmap.
From S2P Require Import Prelude Futex Pthread MutexProps.

Section Barrier.
Context (b n : Z).

(** * The client's discipline: the words of the barrier are its own. *)

Definition word (a : Z) : Prop := a = b_gen b \/ a = b_arrived b \/ a = b_count b.
Definition apart (b' : Z) : Prop := b' = b \/ b' + 20 <= b \/ b + 20 <= b'.

Definition kont_apart (k : kont) : Prop :=
  match k with
  | KRet _ => True
  | KCond c _ l _ => ~ word c /\ ~ word l
  | KArrive b' | KBarSleep b' _ _ | KBarTest b' _ => apart b'
  end.

Definition foreign (t : thread) : Prop :=
  match at_ t with
  | Guest | CondNotify => True
  | InLock l _ k => ~ word l /\ kont_apart k /\ match k with KBarSleep _ _ _ => False | _ => True end
  | InUnlock l _ k => ~ word l /\ kont_apart k /\ match k with KBarTest _ _ => False | _ => True end
  | TryLock l | SpinLock l | SpinTry l | SpinUnlock l => ~ word l
  | Stores l => Forall (fun e => ~ word (fst e)) l
  | CondLoad c l _ | CondWait c _ l _ | CondPark c _ l _ _ => ~ word c /\ ~ word l
  | CondAdd c => ~ word c
  | BarGen b' | BarArrived b' _ | BarCount b' _ _ | BarStore b' _ _ _ | BarReset b' | BarNext b'
  | BarSeqAdd b' | BarNotify b' | BarTest b' _ | BarSeq b' _ | BarWait b' _ _ | BarPark b' _ _ _ => apart b'
  end.

Definition barrier_client (t t' : thread) : Prop := client b t t' /\ foreign t'.

Lemma apart_word b' : apart b' -> ~ word b'.
Proof. unfold apart, word, b_gen, b_arrived, b_count. lia. Qed.

Lemma apart_seq b' : apart b' -> ~ word (b_seq b').
Proof. unfold apart, word, b_gen, b_arrived, b_count, b_seq. lia. Qed.

Lemma resume_foreign k t : kont_apart k -> foreign (resume k t).
Proof. by destruct k. Qed.

Lemma foreign_run w s t s' t' : foreign t -> run w s t = Some (s', t') -> foreign t'.
Proof.
  intros Hf Hr. unfold foreign in Hf. unfold run, run_spin, run_cond, run_barrier in Hr.
  destruct (at_ t) as [|l lp k|l u k|l|l|l|l|ws| | | | | | | | | | | | | | | | |] eqn:Hat; try done;
    try (pose proof (apart_word _ Hf)); try (pose proof (apart_seq _ Hf)).
  1: { destruct Hf as (H1 & H2 & H3). destruct (mu_lock_cell w s l lp) as [[s1 [l1|[]]]|]; [| |done]; injection Hr as <- <-; [done|by apply resume_foreign]. }
  1: { destruct Hf as (H1 & H2 & H3). destruct u; simpl in Hr; [destruct (cell s l =? 2)|]; injection Hr as <- <-;
      [done|by apply resume_foreign|by apply resume_foreign]. }
  all: try (destruct ws as [|[a v] ws]; [by simplify_eq|]; apply Forall_cons in Hf as [_ Hf]; by simplify_eq).
  all: simplify_eq/=; repeat (case_match; simplify_eq/=); unfold foreign; simpl; rewrite ?Hat; try done; naive_solver.
Qed.

(** * What the threads know *)

Definition gen_of (s : shared) : Z := cell s (b_gen b).
Definition arrived_of (s : shared) : Z := cell s (b_arrived b).

(** The generation a thread waits in: it has arrived and has not left. *)
Definition waiting_gen (t : thread) : option Z :=
  match at_ t with
  | BarTest b' gen | BarSeq b' gen | BarWait b' gen _ | BarPark b' gen _ _
  | InUnlock _ _ (KBarSleep b' gen _) | InLock _ _ (KBarTest b' gen) => if b' =? b then Some gen else None
  | _ => None
  end.

Definition waits (g : Z) (t : thread) : Z := if decide (waiting_gen t = Some g) then 1 else 0.

Definition resets (t : thread) : Z := match at_ t with BarReset b' => if b' =? b then 1 else 0 | _ => 0 end.
Definition nexts (t : thread) : Z := match at_ t with BarNext b' => if b' =? b then 1 else 0 | _ => 0 end.

(** The locals of a thread inside the critical section agree with the words. *)
Definition knows (s : shared) (t : thread) : Prop :=
  (forall gen, waiting_gen t = Some gen -> gen <= gen_of s) /\
  match at_ t with
  | BarArrived b' gen => b' = b -> gen = gen_of s
  | BarCount b' gen arrived => b' = b -> gen = gen_of s /\ arrived = arrived_of s + 1
  | BarStore b' gen arrived count => b' = b -> gen = gen_of s /\ arrived = arrived_of s + 1 /\ count = n
  | BarReset b' => b' = b -> arrived_of s = n
  | BarNext b' => b' = b -> arrived_of s = 0
  | _ => True
  end.

(** The three stores of barrier_wait into these words. *)
Definition writer (t : thread) : bool :=
  match at_ t with BarStore b' _ _ _ | BarReset b' | BarNext b' => b' =? b | _ => false end.

Definition same_words (s s' : shared) : Prop := forall a, word a -> cell s' a = cell s a.

Lemma store_words a v s : ~ word a -> same_words s (store a v s).
Proof. intros H x Hx. apply store_other. by intros ->. Qed.

Lemma cas_words l e d s c s' : cas l e d s = (c, s') -> ~ word l -> same_words s s'.
Proof. unfold cas. intros [= <- <-] H. by destruct (cell s l =? e); [apply store_words|]. Qed.

Lemma apart_words b' : apart b' -> b' <> b -> ~ word (b_gen b') /\ ~ word (b_arrived b').
Proof. unfold apart, word, b_gen, b_arrived, b_count. lia. Qed.

Lemma run_words w s t s' t' : foreign t -> writer t = false -> run w s t = Some (s', t') -> same_words s s'.
Proof.
  intros Hf Hw Hr. unfold foreign in Hf. unfold writer in Hw. unfold run, run_spin, run_cond, run_barrier in Hr.
  destruct (at_ t) as [|l lp k|l u k|l|l|l|l|ws| | | | | | | | | | | | | | | | |] eqn:Hat; try done;
    try (pose proof (apart_word _ Hf)); try (pose proof (apart_seq _ Hf));
    try (apply Z.eqb_neq in Hw; destruct (apart_words _ Hf Hw)).
  1: { destruct Hf as (H1 & _). assert (Hq : forall r, mu_lock_cell w s l lp = Some (s', r) -> same_words s s').
    { intros r. destruct lp as [| | |st]; cbn [mu_lock_cell].
      - destruct (cas l 0 1 s) as [c s1] eqn:E. intros [= <- <-]. by eapply cas_words.
      - intros [= <- <-]. by apply store_words.
      - by intros [= <- <-].
      - destruct (wait_turn w false s l 2 st) as [[x|]|]; [| |done]; by intros [= <- <-]. }
    destruct (mu_lock_cell w s l lp) as [[s1 [l1|[]]]|]; [| |done]; injection Hr as <- <-; by eapply Hq. }
  1: { destruct Hf as (H1 & _). destruct u; simpl in Hr; [destruct (cell s l =? 2)|]; injection Hr as <- <-; try done; by apply store_words. }
  all: try (destruct ws as [|[a v] ws]; [by simplify_eq|]; apply Forall_cons in Hf as [Hf _]; simplify_eq; by apply store_words).
  all: try (destruct (cas l 0 1 s) as [c s1] eqn:E; injection Hr as <- <-; by eapply cas_words).
  all: simplify_eq/=; repeat (case_match; simplify_eq/=); try done; by apply store_words.
Qed.

Lemma knows_goto s p t :
  (forall gen, waiting_gen (goto p t) = Some gen -> gen <= gen_of s) ->
  match p with BarArrived _ _ | BarCount _ _ _ | BarStore _ _ _ _ | BarReset _ | BarNext _ => False | _ => True end ->
  knows s (goto p t).
Proof. intros H Hp. split; [done|]. by destruct p. Qed.

Lemma knows_words s s' t : same_words s s' -> knows s t -> knows s' t.
Proof.
  intros Hw. unfold knows, gen_of, arrived_of. rewrite (Hw (b_gen b)) by (left; done).
  by rewrite (Hw (b_arrived b)) by (right; left; done).
Qed.

(** A thread between the first load and the store of the arrival count. *)
Definition early (t : thread) : bool :=
  match at_ t with BarGen b' | BarArrived b' _ | BarCount b' _ _ | BarStore b' _ _ _ => b' =? b | _ => false end.

(** The books of a thread: what it counts for. *)
Definition same_books (g : Z) (t t' : thread) : Prop :=
  waits g t' = waits g t /\ resets t' = resets t /\ nexts t' = nexts t.

Lemma same_books_pc g t t' :
  waiting_gen t' = waiting_gen t -> resets t' = resets t -> nexts t' = nexts t -> same_books g t t'.
Proof. unfold same_books, waits. by intros -> -> ->. Qed.

Lemma books_lock s l lp k t t' :
  at_ t = InLock l lp k -> knows s t -> match k with KBarSleep _ _ _ => False | _ => True end ->
  (exists l', t' = goto (InLock l l' k) t) \/ t' = resume k (acquire l t) -> knows s t' /\ same_books (gen_of s) t t'.
Proof.
  intros Hat [Hk _] Hno Ht'.
  assert (Hw : waiting_gen t' = waiting_gen t /\ match at_ t' with BarArrived _ _ | BarCount _ _ _ | BarStore _ _ _ _ | BarReset _ | BarNext _ => False | _ => True end).
  { destruct Ht' as [[? ->] | ->]; unfold waiting_gen; rewrite Hat; by destruct k. }
  destruct Hw as [Hw Hp]. split.
  - split; [by rewrite Hw|]. by destruct (at_ t').
  - apply same_books_pc; [done| |]; unfold resets, nexts; rewrite Hat; by destruct (at_ t').
Qed.

Lemma books_unlock s l u k t t0 t' :
  at_ t = InUnlock l u k -> knows s t -> match k with KBarTest _ _ => False | _ => True end ->
  (exists u', t' = goto (InUnlock l u' k) t0) \/ t' = resume k t0 -> knows s t' /\ same_books (gen_of s) t t'.
Proof.
  intros Hat [Hk _] Hno Ht'.
  assert (Hw : waiting_gen t' = waiting_gen t /\ match at_ t' with BarArrived _ _ | BarCount _ _ _ | BarStore _ _ _ _ | BarReset _ | BarNext _ => False | _ => True end).
  { destruct Ht' as [[? ->] | ->]; unfold waiting_gen; rewrite Hat; by destruct k. }
  destruct Hw as [Hw Hp]. split.
  - split; [by rewrite Hw|]. by destruct (at_ t').
  - apply same_books_pc; [done| |]; unfold resets, nexts; rewrite Hat; by destruct (at_ t').
Qed.

(** Not in this barrier. *)
Definition outside (t : thread) : Prop :=
  waiting_gen t = None /\
  match at_ t with BarArrived b' _ | BarCount b' _ _ | BarStore b' _ _ _ | BarReset b' | BarNext b' => b' <> b | _ => True end.

Lemma outside_books s t t' : outside t -> outside t' -> knows s t' /\ same_books (gen_of s) t t'.
Proof.
  intros [H1 H2] [H3 H4]. split.
  - split; [by rewrite H3|]. by destruct (at_ t').
  - assert (Hz : forall x, waiting_gen x = None -> match at_ x with BarArrived b' _ | BarCount b' _ _ | BarStore b' _ _ _ | BarReset b' | BarNext b' => b' <> b | _ => True end -> resets x = 0 /\ nexts x = 0).
    { intros x _ Hx. unfold resets, nexts. destruct (at_ x); try done; by apply Z.eqb_neq in Hx as ->. }
    destruct (Hz t H1 H2), (Hz t' H3 H4). apply same_books_pc; congruence.
Qed.

(** Neither in the critical section's private steps. *)
Definition no_locals (t : thread) : Prop :=
  match at_ t with BarArrived _ _ | BarCount _ _ _ | BarStore _ _ _ _ | BarReset _ | BarNext _ => False | _ => True end.

(** Waiting on, for the same generation. *)
Lemma waiting_books s t t' :
  waiting_gen t' = waiting_gen t -> no_locals t -> no_locals t' -> knows s t -> knows s t' /\ same_books (gen_of s) t t'.
Proof.
  intros Hw H1 H2 [Hk _]. unfold no_locals in *. split.
  - split; [by rewrite Hw|]. by destruct (at_ t').
  - apply same_books_pc; [done| |]; unfold resets, nexts; by destruct (at_ t), (at_ t').
Qed.

(** Leaving the loop once the generation has moved. *)
Lemma leave_books s t b' gen k :
  at_ t = BarTest b' gen -> cell s (b_gen b') <> gen -> match k with KBarSleep _ _ _ => False | _ => True end ->
  knows s (goto (InUnlock b' UXchg k) t) /\ same_books (gen_of s) t (goto (InUnlock b' UXchg k) t).
Proof.
  intros Hat Hne Hk. assert (Hw : waiting_gen (goto (InUnlock b' UXchg k) t) = None) by by destruct k.
  split; [split; [by rewrite Hw|done]|]. unfold same_books, waits. rewrite Hw. split_and!.
  - rewrite decide_False by done. unfold waiting_gen. rewrite Hat. destruct (Z.eqb_spec b' b) as [->|]; [|done].
    rewrite decide_False; [done|]. intros [= ->]. by apply Hne.
  - unfold resets. by rewrite Hat.
  - unfold nexts. by rewrite Hat.
Qed.

(** The loads of the critical section. *)
Lemma load_books s t p :
  waiting_gen t = None -> resets t = 0 -> nexts t = 0 ->
  match p with
  | BarArrived b' gen => b' = b -> gen = gen_of s
  | BarCount b' gen arrived => b' = b -> gen = gen_of s /\ arrived = arrived_of s + 1
  | BarStore b' gen arrived count => b' = b -> gen = gen_of s /\ arrived = arrived_of s + 1 /\ count = n
  | _ => False
  end -> knows s (goto p t) /\ same_books (gen_of s) t (goto p t).
Proof.
  intros Hw Hr Hn Hp. assert (Hw' : waiting_gen (goto p t) = None) by by destruct p.
  split; [split; [by rewrite Hw'|by destruct p]|]. apply same_books_pc; [by rewrite Hw, Hw'|by rewrite Hr; destruct p|by rewrite Hn; destruct p].
Qed.

Lemma quiet_books w s t s' t' :
  foreign t -> knows s t -> (early t = true -> 0 <= arrived_of s < UINT32_MAX) -> cell s (b_count b) = n ->
  writer t = false -> run w s t = Some (s', t') -> knows s t' /\ same_books (gen_of s) t t'.
Proof.
  intros Hf Hk He Hc Hw Hr. pose proof Hk as [Hk1 Hk2]. unfold foreign in Hf. unfold writer in Hw. unfold early in He. unfold run, run_spin, run_cond, run_barrier in Hr.
  clear Hk1.
  destruct (at_ t) as [|l lp k|l u k|l|l|l|l|ws| | | | | | | | | | | | | | | | |] eqn:Hat; try done.
  1: { destruct Hf as (_ & _ & Hno). destruct (mu_lock_cell w s l lp) as [[s1 [l1|[]]]|]; [| |done]; injection Hr as <- <-;
       (eapply books_lock; [exact Hat|exact Hk|exact Hno|]); [left; by eexists|by right]. }
  1: { destruct Hf as (_ & _ & Hno). destruct u; simpl in Hr; [destruct (cell s l =? 2)|]; injection Hr as <- <-;
       (eapply books_unlock; [exact Hat|exact Hk|exact Hno|]); [left; by eexists|by right|by right]. }
  all: simplify_eq/=; repeat (case_match; simplify_eq/=).
  all: try (apply outside_books; split; unfold waiting_gen; simpl; rewrite ?Hat, ?Hw; done).
  all: try (apply outside_books; split; unfold waiting_gen; simpl; rewrite ?Hat, ?Hw; try done; by apply Z.eqb_neq).
  all: try (apply waiting_books; unfold waiting_gen, no_locals; simpl; rewrite ?Hat; done).
  all: try (eapply leave_books; [exact Hat|by apply Z.eqb_neq|done]).
  all: apply load_books; try (unfold waiting_gen, resets, nexts; by rewrite Hat).
  - intros ->. done.
  - intros ->. specialize (Hk2 eq_refl). rewrite Z.eqb_refl in He. specialize (He eq_refl). unfold UINT32_MAX in He.
    split; [done|]. change (cell s' (b_arrived b)) with (arrived_of s'). apply u32_small. lia.
  - intros ->. destruct (Hk2 eq_refl). done.
Qed.

(** * The books of the barrier *)

Record bar_inv (x : @sys thread) : Prop := {
  bi_lock : lock_inv b x;
  bi_foreign : Forall foreign (threads x);
  bi_knows : Forall (knows (sh x)) (threads x);
  bi_count : cell (sh x) (b_count b) = n;
  bi_gen : 0 <= gen_of (sh x) < 4294967296;
  bi_arrived : 0 <= arrived_of (sh x) <= n - 1 + tally resets (threads x);
  bi_books : tally (waits (gen_of (sh x))) (threads x) + tally resets (threads x) + (1 - n) * tally nexts (threads x)
             = arrived_of (sh x)
}.

Definition critical (t : thread) : bool := early t || writer t.

Lemma critical_holds t : disciplined b t -> critical t = true -> b ∈ held t.
Proof.
  unfold critical, early, writer, disciplined, in_barrier, is_holder. intros Hd Hc. apply orb_true_iff in Hc.
  destruct (at_ t); try (by destruct Hc); (destruct Hd as [_ Hd]; destruct Hc as [Hc|Hc]; try done; apply Z.eqb_eq in Hc; by apply Hd).
Qed.

Lemma not_critical t : critical t = false -> resets t = 0 /\ nexts t = 0.
Proof.
  unfold critical, early, writer, resets, nexts. intros Hc. apply orb_false_iff in Hc as [_ Hc]. destruct (at_ t); try done; by rewrite Hc.
Qed.

(** The critical section admits one thread. *)
Lemma critical_alone x i j t u :
  lock_inv b x -> threads x !! i = Some t -> threads x !! j = Some u -> critical t = true -> j <> i -> critical u = false.
Proof.
  intros [Hd Ht] Hi Hj Hc Hne. destruct (critical u) eqn:Hu; [|done]. exfalso. rewrite Forall_forall in Hd.
  pose proof (critical_holds t (Hd t (list_elem_of_lookup_2 _ _ _ Hi)) Hc) as H1.
  pose proof (critical_holds u (Hd u (list_elem_of_lookup_2 _ _ _ Hj)) Hu) as H2.
  pose proof (tally_two (owner b) _ _ _ _ _ (fun t => proj1 (owner_bounds b t)) Hi Hj (not_eq_sym Hne)) as H.
  apply holder_owner in H1, H2. unfold nz in Ht. destruct (cell (sh x) b =? 0); lia.
Qed.

Lemma critical_tallies x i t :
  lock_inv b x -> threads x !! i = Some t -> critical t = true ->
  tally resets (threads x) = resets t /\ tally nexts (threads x) = nexts t.
Proof.
  intros Hl Hi Hc. split; (eapply tally_single; [exact Hi|]); intros j u Hj Hne;
    by apply not_critical, (critical_alone x i j t u).
Qed.

(** Outside the three stores nothing moves. *)
Lemma bar_quiet x i w t s' t' :
  0 < n <= UINT32_MAX -> bar_inv x -> threads x !! i = Some t -> run w (sh x) t = Some (s', t') -> writer t = false ->
  lock_inv b (Sys s' (<[i:=t']> (threads x))) -> bar_inv (Sys s' (<[i:=t']> (threads x))).
Proof.
  intros Hn [Hl Hf Hk Hc Hg Ha Hb] Hi Hr Hw Hl'. pose proof (list_elem_of_lookup_2 _ _ _ Hi) as Hin.
  rewrite Forall_forall in Hf. rewrite Forall_forall in Hk. pose proof (Hf t Hin) as Hft.
  assert (He : early t = true -> 0 <= arrived_of (sh x) < UINT32_MAX).
  { intros He. assert (Hcr : critical t = true) by (unfold critical; by rewrite He).
    destruct (critical_tallies x i t Hl Hi Hcr) as [H1 _]. rewrite H1 in Ha.
    assert (resets t = 0). { unfold early in He. unfold resets. by destruct (at_ t). } lia. }
  pose proof (run_words _ _ _ _ _ Hft Hw Hr) as Hsame.
  destruct (quiet_books _ _ _ _ _ Hft (Hk t Hin) He Hc Hw Hr) as [Hk' (B1 & B2 & B3)].
  assert (Eg : gen_of s' = gen_of (sh x)) by (apply Hsame; by left).
  assert (Ea : arrived_of s' = arrived_of (sh x)) by (apply Hsame; right; by left).
  split; cbn [sh threads].
  - done.
  - apply Forall_insert; [by apply Forall_forall|by eapply foreign_run].
  - apply Forall_insert; [apply Forall_forall; intros u Hu; by eapply knows_words, Hk|by eapply knows_words].
  - rewrite Hsame; [done|right; by right].
  - by rewrite Eg.
  - by rewrite Ea, (tally_insert _ _ _ _ _ Hi), B2, Z.sub_add.
  - by rewrite Eg, Ea, !(tally_insert _ _ _ _ _ Hi), B1, B2, B3, !Z.sub_add.
Qed.

(** What the others know does not depend on the words. *)
Lemma knows_other s s' u : critical u = false -> gen_of s <= gen_of s' -> knows s u -> knows s' u.
Proof.
  unfold critical, early, writer. intros Hc Hg [Hk _]. split; [intros gen Hgen; specialize (Hk gen Hgen); lia|].
  apply orb_false_iff in Hc as [H1 H2]. destruct (at_ u); try done; intros ->; by rewrite Z.eqb_refl in *.
Qed.

Lemma others_know x i t s' t' :
  bar_inv x -> threads x !! i = Some t -> critical t = true -> gen_of (sh x) <= gen_of s' -> knows s' t' ->
  Forall (knows s') (<[i:=t']> (threads x)).
Proof.
  intros Hx Hi Hc Hg Hk. apply Forall_forall. intros u Hu. apply list_elem_of_lookup in Hu as [j Hj].
  apply lookup_after in Hj as [[<- ->]|[Hne Hj]]; [done|].
  eapply knows_other; [by eapply (critical_alone x i j t u); [apply Hx| | | |congruence]|exact Hg|].
  pose proof (bi_knows _ Hx) as H. rewrite Forall_forall in H. eapply H, list_elem_of_lookup_2, Hj.
Qed.

Lemma words_distinct : b_gen b <> b_arrived b /\ b_gen b <> b_count b /\ b_arrived b <> b_count b.
Proof. unfold b_gen, b_arrived, b_count. lia. Qed.

Lemma writer_facts x i t :
  bar_inv x -> threads x !! i = Some t -> writer t = true ->
  critical t = true /\ tally resets (threads x) = resets t /\ tally nexts (threads x) = nexts t /\ knows (sh x) t.
Proof.
  intros Hx Hi Hw. assert (Hc : critical t = true) by (unfold critical; rewrite Hw; by destruct (early t)).
  destruct (critical_tallies x i t (bi_lock _ Hx) Hi Hc). split_and!; [done..|].
  pose proof (bi_knows _ Hx) as Hk. rewrite Forall_forall in Hk. eapply Hk, list_elem_of_lookup_2, Hi.
Qed.

(** What each program counter of the critical section counts for. *)
Lemma count_reset g t : waits g (goto (BarReset b) t) = 0 /\ resets (goto (BarReset b) t) = 1 /\ nexts (goto (BarReset b) t) = 0.
Proof. unfold resets. cbn [at_ goto]. by rewrite Z.eqb_refl. Qed.

Lemma count_test g t : waits g (goto (BarTest b g) t) = 1 /\ resets (goto (BarTest b g) t) = 0 /\ nexts (goto (BarTest b g) t) = 0.
Proof. unfold waits, waiting_gen. cbn [at_ goto]. by rewrite Z.eqb_refl, decide_True. Qed.

Lemma count_next g t : waits g (goto (BarNext b) t) = 0 /\ resets (goto (BarNext b) t) = 0 /\ nexts (goto (BarNext b) t) = 1.
Proof. unfold nexts. cbn [at_ goto]. by rewrite Z.eqb_refl. Qed.

(** The arrival count is stored. *)
Lemma bar_store x i t t' arrived count gen :
  0 < n <= UINT32_MAX -> bar_inv x -> threads x !! i = Some t -> at_ t = BarStore b gen arrived count ->
  t' = goto (if arrived =? count then BarReset b else BarTest b gen) t ->
  let y := Sys (store (b_arrived b) arrived (sh x)) (<[i:=t']> (threads x)) in lock_inv b y -> bar_inv y.
Proof.
  intros Hn Hx Hi Hat -> y Hl. pose proof Hx as [Hl0 Hf Hk Hc Hg Ha Hb].
  destruct (writer_facts x i t Hx Hi) as (Hcr & T1 & T2 & [_ Hloc]); [unfold writer; rewrite Hat; apply Z.eqb_refl|].
  assert (R0 : resets t = 0) by (unfold resets; by rewrite Hat). assert (N0 : nexts t = 0) by (unfold nexts; by rewrite Hat).
  rewrite R0 in T1. rewrite N0 in T2.
  rewrite Hat in Hloc. destruct (Hloc eq_refl) as (-> & -> & ->). clear Hloc.
  destruct words_distinct as (D1 & D2 & D3).
  assert (Eg : gen_of (store (b_arrived b) (arrived_of (sh x) + 1) (sh x)) = gen_of (sh x)) by by apply store_other.
  assert (Ea : arrived_of (store (b_arrived b) (arrived_of (sh x) + 1) (sh x)) = arrived_of (sh x) + 1).
  { unfold arrived_of at 1. rewrite store_same. apply u32_small. unfold UINT32_MAX in *. lia. }
  assert (Hft : foreign (goto (if arrived_of (sh x) + 1 =? n then BarReset b else BarTest b (gen_of (sh x))) t)).
  { destruct (arrived_of (sh x) + 1 =? n); by left. }
  assert (Hw0 : waits (gen_of (sh x)) t = 0) by (unfold waits, waiting_gen; rewrite Hat; by rewrite decide_False).
  unfold y in *. split; cbn [sh threads]; [done|by apply Forall_insert| |by rewrite store_other|by rewrite Eg| |].
  - eapply others_know; [done|done|done|by rewrite Eg|]. unfold knows. rewrite Eg, Ea.
    destruct (Z.eqb_spec (arrived_of (sh x) + 1) n); unfold waiting_gen; cbn [at_ goto]; [done|]. split; [|done].
    rewrite Z.eqb_refl. intros gen' [= <-]. lia.
  - rewrite Ea, (tally_insert _ _ _ _ _ Hi), T1, R0.
    destruct (count_reset (gen_of (sh x)) t) as (_ & Q & _), (count_test (gen_of (sh x)) t) as (_ & Q' & _).
    destruct (Z.eqb_spec (arrived_of (sh x) + 1) n); rewrite ?Q, ?Q'; lia.
  - rewrite Eg, Ea, !(tally_insert _ _ _ _ _ Hi), Hw0, R0, N0, T1, T2. rewrite T1, T2 in Hb.
    destruct (count_reset (gen_of (sh x)) t) as (P & Q & R), (count_test (gen_of (sh x)) t) as (P' & Q' & R').
    destruct (Z.eqb_spec (arrived_of (sh x) + 1) n); rewrite ?P, ?Q, ?R, ?P', ?Q', ?R'; lia.
Qed.

(** The last arrival resets the count. *)
Lemma bar_reset x i t t' :
  0 < n <= UINT32_MAX -> bar_inv x -> threads x !! i = Some t -> at_ t = BarReset b -> t' = goto (BarNext b) t ->
  let y := Sys (store (b_arrived b) 0 (sh x)) (<[i:=t']> (threads x)) in lock_inv b y -> bar_inv y.
Proof.
  intros Hn Hx Hi Hat -> y Hl. pose proof Hx as [Hl0 Hf Hk Hc Hg Ha Hb].
  destruct (writer_facts x i t Hx Hi) as (Hcr & T1 & T2 & [_ Hloc]); [unfold writer; rewrite Hat; apply Z.eqb_refl|].
  assert (R0 : resets t = 1) by (unfold resets; by rewrite Hat, Z.eqb_refl). assert (N0 : nexts t = 0) by (unfold nexts; by rewrite Hat).
  rewrite R0 in T1. rewrite N0 in T2.
  rewrite Hat in Hloc. specialize (Hloc eq_refl). destruct words_distinct as (D1 & D2 & D3).
  assert (Eg : gen_of (store (b_arrived b) 0 (sh x)) = gen_of (sh x)) by by apply store_other.
  assert (Ea : arrived_of (store (b_arrived b) 0 (sh x)) = 0) by (unfold arrived_of; by rewrite store_same).
  destruct (count_next (gen_of (sh x)) t) as (P & Q & R).
  assert (Hwt : waits (gen_of (sh x)) t = 0) by (unfold waits, waiting_gen; rewrite Hat; by rewrite decide_False).
  unfold y in *. split; cbn [sh threads]; [done|apply Forall_insert; [done|by left]| |by rewrite store_other|by rewrite Eg| |].
  - eapply others_know; [done|done|done|by rewrite Eg|]. split; [done|intros _; exact Ea].
  - rewrite Ea, (tally_insert _ _ _ _ _ Hi), T1, R0, Q. lia.
  - rewrite Eg, Ea, !(tally_insert _ _ _ _ _ Hi), Hwt, R0, N0, T1, T2, P, Q, R. rewrite T1, T2 in Hb. lia.
Qed.

(** The generation moves on: nobody waits in the new one yet. *)
Lemma bar_next x i t t' :
  0 < n <= UINT32_MAX -> bar_inv x -> threads x !! i = Some t -> at_ t = BarNext b -> t' = goto (BarSeqAdd b) t ->
  let y := Sys (fetch_add (b_gen b) 1 (sh x)).2 (<[i:=t']> (threads x)) in
  gen_of (sh x) <= gen_of (sh y) -> lock_inv b y -> bar_inv y.
Proof.
  intros Hn Hx Hi Hat -> y Hle Hl. pose proof Hx as [Hl0 Hf Hk Hc Hg Ha Hb].
  destruct (writer_facts x i t Hx Hi) as (Hcr & T1 & T2 & [_ Hloc]); [unfold writer; rewrite Hat; apply Z.eqb_refl|].
  assert (R0 : resets t = 0) by (unfold resets; by rewrite Hat). assert (N0 : nexts t = 1) by (unfold nexts; by rewrite Hat, Z.eqb_refl).
  rewrite R0 in T1. rewrite N0 in T2.
  rewrite Hat in Hloc. specialize (Hloc eq_refl). destruct words_distinct as (D1 & D2 & D3).
  unfold y in *. cbn [sh fetch_add snd] in *. set (s' := store (b_gen b) (cell (sh x) (b_gen b) + 1) (sh x)) in *.
  assert (Eg : gen_of s' = u32 (gen_of (sh x) + 1)) by (unfold gen_of at 1, s'; by rewrite store_same).
  assert (Eg1 : gen_of s' = gen_of (sh x) + 1). { rewrite Eg in *. clear -Hg Hle. unfold u32 in *. mlia. }
  assert (Ea : arrived_of s' = arrived_of (sh x)) by (apply store_other; congruence).
  assert (Ec : cell s' (b_count b) = cell (sh x) (b_count b)) by (apply store_other; congruence).
  pose proof (u32_range (gen_of (sh x) + 1)) as Hrange. rewrite <-Eg in Hrange.
  clearbody s'. split; cbn [sh threads]; [done|apply Forall_insert; [done|by left]| |by rewrite Ec|done| |].
  - eapply others_know; [done|done|done|lia|]. by split.
  - rewrite Ea, (tally_insert _ _ _ _ _ Hi), T1, R0. change (resets (goto (BarSeqAdd b) t)) with 0. lia.
  - rewrite Ea, Eg1, (tally_insert resets _ _ _ _ Hi), (tally_insert nexts _ _ _ _ Hi), T1, T2, R0, N0.
    change (resets (goto (BarSeqAdd b) t)) with 0. change (nexts (goto (BarSeqAdd b) t)) with 0.
    rewrite tally_zero; [lia|]. intros u Hu. apply list_elem_of_lookup in Hu as [j Hj].
    apply lookup_after in Hj as [[<- ->]|[Hne Hj]]; [done|]. unfold waits. rewrite decide_False; [done|]. intros Hgen.
    rewrite Forall_forall in Hk. destruct (Hk u (list_elem_of_lookup_2 _ _ _ Hj)) as [Hb' _]. specialize (Hb' _ Hgen). lia.
Qed.

Definition step_gen (x y : sys) : Prop := step run barrier_client x y /\ gen_of (sh x) <= gen_of (sh y).

Lemma enter_books c t : waiting_gen (start_call c t) = None /\ no_locals (start_call c t).
Proof.
  unfold start_call, waiting_gen, no_locals. destruct (entry c) as [r|p] eqn:E; [done|]. cbn [at_ goto].
  destruct c; cbn [entry] in E; unfold at_cell in E; repeat (case_match; simplify_eq/=); done.
Qed.

Lemma bar_step x y : 0 < n <= UINT32_MAX -> bar_inv x -> step_gen x y -> bar_inv y.
Proof.
  intros Hn Hx [Hs Hle]. assert (Hl : lock_inv b y).
  { eapply lock_inv_step; [apply Hx|]. destruct Hs as [w i t s' t' Hi Hr|i t t' Hi [Hc _]|]; by econstructor. }
  destruct Hs as [w i t s' t' Hi Hr|i t t' Hi [[Hg (c & -> & Hd)] Hf]|].
  - destruct (writer t) eqn:Hw; [|by eapply bar_quiet]. unfold writer in Hw. unfold run, run_spin, run_cond, run_barrier in Hr.
    destruct (at_ t) eqn:Hat; try done; apply Z.eqb_eq in Hw as ->; injection Hr as <- <-.
    + by eapply bar_store.
    + by eapply bar_reset.
    + by eapply bar_next.
  - destruct (enter_books c t) as [Hw Hnl]. pose proof Hx as [_ Hfo Hk Hc Hgr Ha Hb].
    assert (Hbk : knows (sh x) (start_call c t) /\ same_books (gen_of (sh x)) t (start_call c t)).
    { apply waiting_books; [rewrite Hw; unfold waiting_gen; by rewrite Hg|unfold no_locals; by rewrite Hg|done|].
      rewrite Forall_forall in Hk. eapply Hk, list_elem_of_lookup_2, Hi. }
    destruct Hbk as [Hk' (B1 & B2 & B3)].
    split; cbn [sh threads]; [done|by apply Forall_insert|by apply Forall_insert|done|done| |].
    + by rewrite (tally_insert _ _ _ _ _ Hi), B2, Z.sub_add.
    + by rewrite !(tally_insert _ _ _ _ _ Hi), B1, B2, B3, !Z.sub_add.
  - by destruct Hx.
Qed.

(** An initialised barrier and threads outside the host. *)
Definition ready (x : sys) : Prop :=
  fresh b x /\ gen_of (sh x) = 0 /\ arrived_of (sh x) = 0 /\ cell (sh x) (b_count b) = n.

Lemma ready_inv x : 0 < n -> ready x -> bar_inv x.
Proof.
  intros Hn (Hf & Hg & Ha & Hc). pose proof (fresh_inv b x Hf) as Hl. destruct Hf as [Hf _]. rewrite Forall_forall in Hf.
  assert (Ho : forall t, t ∈ threads x -> waiting_gen t = None /\ resets t = 0 /\ nexts t = 0 /\ foreign t /\ knows (sh x) t).
  { intros t Ht. destruct (Hf t Ht) as [Hat _]. unfold waiting_gen, resets, nexts, foreign, knows, waiting_gen. rewrite Hat.
    split_and!; done. }
  split; [done| | |done|lia| |].
  - apply Forall_forall. intros t Ht. by apply Ho.
  - apply Forall_forall. intros t Ht. by apply Ho.
  - rewrite tally_zero; [lia|]. intros t Ht. by apply Ho.
  - rewrite !tally_zero; [lia|..]; intros t Ht; try by apply Ho. unfold waits. destruct (Ho t Ht) as [-> _].
    by rewrite decide_False.
Qed.

Lemma barrier_inv x y : 0 < n <= UINT32_MAX -> ready x -> rtc step_gen x y -> bar_inv y.
Proof.
  intros Hn Hr Hs. eapply (rtc_invariant _ bar_inv); [intros ???; by apply bar_step|exact Hs|apply ready_inv; [lia|done]].
Qed.
Lemma free_counts x :
  bar_inv x -> cell (sh x) b = 0 ->
  tally (waits (gen_of (sh x))) (threads x) = arrived_of (sh x) /\ tally (waits (gen_of (sh x))) (threads x) < n.
Proof.
  intros [[Hd Ht] Hf Hk Hc Hg Ha Hb] H0. rewrite H0 in Ht. change (nz 0) with 0 in Ht. rewrite Forall_forall in Hd.
  assert (Hno : forall t, t ∈ threads x -> critical t = false).
  { intros t Hin. destruct (critical t) eqn:E; [|done]. exfalso. pose proof (critical_holds t (Hd t Hin) E) as H1.
    apply holder_owner in H1. apply list_elem_of_lookup in Hin as [i Hi].
    pose proof (tally_lookup (owner b) _ _ _ (fun t => proj1 (owner_bounds b t)) Hi). lia. }
  assert (R : tally resets (threads x) = 0) by (apply tally_zero; intros t Hin; by apply not_critical, Hno).
  assert (N : tally nexts (threads x) = 0) by (apply tally_zero; intros t Hin; by apply not_critical, Hno).
  rewrite R, N in *. lia.
Qed.

Lemma opening_counts x t :
  bar_inv x -> t ∈ threads x -> at_ t = BarNext b -> tally (waits (gen_of (sh x))) (threads x) = n - 1.
Proof.
  intros Hx Hin Hat. apply list_elem_of_lookup in Hin as [i Hi].
  destruct (writer_facts x i t Hx Hi) as (_ & T1 & T2 & [_ Hloc]); [unfold writer; rewrite Hat; apply Z.eqb_refl|].
  rewrite Hat in Hloc. specialize (Hloc eq_refl). pose proof (bi_books _ Hx) as Hb. rewrite T1, T2, Hloc in Hb.
  unfold resets, nexts in Hb. rewrite Hat, Z.eqb_refl in Hb. lia.
Qed.

Lemma leaves_after x w t s' t' g :
  bar_inv x -> t ∈ threads x -> waiting_gen t = Some g -> run w (sh x) t = Some (s', t') -> waiting_gen t' = None ->
  g < gen_of (sh x).
Proof.
  intros [Hl Hf Hk Hc Hg Ha Hb] Hin Hw Hr Hout. rewrite Forall_forall in Hf, Hk. pose proof (Hf t Hin) as Hft.
  assert (Hnw : writer t = false /\ early t = false).
  { unfold waiting_gen in Hw. unfold writer, early. by destruct (at_ t). }
  destruct Hnw as [Hnw Hne].
  destruct (quiet_books _ _ _ _ _ Hft (Hk t Hin) ltac:(by rewrite Hne) Hc Hnw Hr) as [_ (B1 & _)].
  destruct (Hk t Hin) as [Hle _]. specialize (Hle g Hw). destruct (decide (g = gen_of (sh x))) as [->|]; [|lia]. exfalso.
  unfold waits in B1. rewrite Hout, Hw in B1. by rewrite decide_False, decide_True in B1.
Qed.
End Barrier.

(** C13: A barrier initialised for [n] threads opens exactly when [n] are
    inside.  At any moment of any run of any number of threads: while nobody is
    in the critical section fewer than [n] threads wait in the current
    generation, as many as the arrival count says; the thread that advances the
    generation finds exactly [n - 1] others waiting in it; and a thread that
    waits in a generation leaves only after that generation is over.  (The
    generation counter does not wrap.) *)
Theorem barrier_opens_full b n x y :
  0 < n <= UINT32_MAX -> ready b n x -> rtc (step_gen b) x y ->
  let waiting := tally (waits b (gen_of b (sh y))) (threads y) in
  (cell (sh y) b = 0 -> waiting = arrived_of b (sh y) /\ waiting < n) /\
  (forall t, t ∈ threads y -> at_ t = BarNext b -> waiting = n - 1) /\
  (forall w t s' t' g, t ∈ threads y -> waiting_gen b t = Some g -> run w (sh y) t = Some (s', t') ->
    waiting_gen b t' = None -> g < gen_of b (sh y)).
Proof.
  intros Hn Hr Hs waiting. pose proof (barrier_inv b n x y Hn Hr Hs) as Hy. split_and!.
  - intros H0. by apply (free_counts b n).
  - intros t Ht Hat. by apply (opening_counts b n y t).
  - intros w t s' t' g Ht Hw Hrun Hout. by eapply (leaves_after b n).
Qed.

(** * Witness *)

(** Two threads at a barrier for two: the first sleeps, the second is about to
    advance the generation. *)
Definition fair_wait (b : Z) (t : thread) (c : api) : bool :=
  match c with host_pthread_barrier_wait (Some b') => b' =? b | _ => false end.

Lemma fair_wait_client b t c t' : begin_call c t = Some t' -> fair_wait b t c = true -> barrier_client b t t'.
Proof.
  unfold begin_call. destruct (at_ t) eqn:Hat; try done. intros [= <-] Hf. unfold fair_wait in Hf. destruct c as [| | | | | | | | | | | | | | | | | |[b'|]]; try done.
  apply Z.eqb_eq in Hf as ->. split.
  - split; [done|]. exists (host_pthread_barrier_wait (Some b)). split; [done|]. split; [done|].
    unfold words_clear, b_gen, b_arrived, b_count, b_seq. lia.
  - split_and!; [|by left|done]. by apply (apart_word b); left.
Qed.

Definition barrier_for_two : sys :=
  Sys (Shared (fun a => if a =? 1036 then 2 else 0) 0) [Thread Guest ∅ 0; Thread Guest ∅ 0].

Definition both_arrive : list (nat * option api) :=
  let wait := Some (host_pthread_barrier_wait (Some 1024)) in
  (0%nat, wait) :: turns 0 9 ++ (1%nat, wait) :: turns 1 6.

Definition opening_sys : sys := match play run begin_call both_arrive barrier_for_two with Some y => y | None => barrier_for_two end.

Lemma both_arrive_rtc : rtc (step_gen 1024) barrier_for_two opening_sys.
Proof. apply (play_rtc run begin_call _ (fair_wait 1024) (gen_of 1024) (fair_wait_client 1024) both_arrive); vm_compute; reflexivity. Qed.

Lemma barrier_for_two_ready : ready 1024 2 barrier_for_two.
Proof. split_and!; [split; [by repeat constructor|done]|done..]. Qed.

Lemma barrier_opens_full_witness :
  tally (waits 1024 (gen_of 1024 (sh opening_sys))) (threads opening_sys) = 1.
Proof.
  destruct (barrier_opens_full 1024 2 barrier_for_two opening_sys) as (_ & H & _).
  - vm_compute. split; [reflexivity|discriminate].
  - exact barrier_for_two_ready.
  - exact both_arrive_rtc.
  - apply (H (Thread (BarNext 1024) {[1024]} 0)); [|reflexivity].
    apply list_elem_of_lookup. exists 1%nat. vm_compute. reflexivity.
Defined.
