(* ===== verification/RwLock.v ===== *)
(** The read-write lock and the one-time initialisation of pthread.c
    (src/src/yos/impl/proc/pthread.c), each packed into one cell. *)
From S2P Require Import Prelude Futex.

Definition RW_FREE : Z := 0.
Definition RW_WRITER : Z := 4294967295.

Inductive mode : Type := Reader | Writer.

#[export] Instance mode_eq_dec : EqDecision mode.
Proof. solve_decision. Defined.

(** The C functions, by program counter; [try] is [try_only]. *)
Inductive rw_pc : Type :=
| RwGuest
| RdLoad (a : Z) (try : bool)
| RdCas (a : Z) (try : bool) (st : Z)
| RdWait (a st : Z)
| RdPark (a st start : Z)
| WrLoad (a : Z) (try : bool)
| WrCas (a : Z) (try : bool)
| WrWait (a st : Z)
| WrPark (a st start : Z)
| RuLoad (a : Z)
| RuCas (a st new_st : Z)
| RuNotify (a : Z).

(** [rw_held] is a ghost: the locks the thread has and how. *)
Record rw_thread : Type := RwThread { rw_at : rw_pc; rw_held : list (Z * mode); rw_result : Z }.

Definition rw_goto (p : rw_pc) (t : rw_thread) : rw_thread := RwThread p (rw_held t) (rw_result t).
Definition rw_ret (r : Z) (t : rw_thread) : rw_thread := RwThread RwGuest (rw_held t) r.
Definition rw_take (a : Z) (k : mode) (t : rw_thread) : rw_thread := RwThread RwGuest ((a, k) :: rw_held t) 0.

Fixpoint drop_held (a : Z) (l : list (Z * mode)) : list (Z * mode) :=
  match l with [] => [] | e :: l' => if e.1 =? a then l' else e :: drop_held a l' end.

Definition rw_drop (a : Z) (t : rw_thread) : rw_thread := RwThread (RuNotify a) (drop_held a (rw_held t)) (rw_result t).

Definition rw_rdlock_impl (w : wake) (s : shared) (t : rw_thread) : option (shared * rw_thread) :=
  match rw_at t with
  | RdLoad a try =>
      let st := cell s a in
      Some (s, if negb (st =? RW_WRITER) && (st <? RW_WRITER - 1) then rw_goto (RdCas a try st) t
               else if try : bool then rw_ret EBUSY t else rw_goto (RdWait a st) t)
  | RdCas a try st =>
      let '(c, s') := cas a st (u32 (st + 1)) s in
      Some (s', if c =? st then rw_take a Reader t else rw_goto (RdLoad a try) t)
  | RdWait a st =>
      Some (s, rw_goto (match wait_enter s a st with inl _ => RdLoad a false | inr start => RdPark a st start end) t)
  | RdPark a st start =>
      match wait_turn w false s a st start with
      | None => None
      | Some None => Some (s, t)
      | Some (Some _) => Some (s, rw_goto (RdLoad a false) t)
      end
  | _ => None
  end.

Definition rw_wrlock_impl (w : wake) (s : shared) (t : rw_thread) : option (shared * rw_thread) :=
  match rw_at t with
  | WrLoad a try =>
      let st := cell s a in
      Some (s, if st =? RW_FREE then rw_goto (WrCas a try) t
               else if try : bool then rw_ret EBUSY t else rw_goto (WrWait a st) t)
  | WrCas a try =>
      let '(c, s') := cas a RW_FREE RW_WRITER s in
      Some (s', if c =? RW_FREE then rw_take a Writer t else rw_goto (WrLoad a try) t)
  | WrWait a st =>
      Some (s, rw_goto (match wait_enter s a st with inl _ => WrLoad a false | inr start => WrPark a st start end) t)
  | WrPark a st start =>
      match wait_turn w false s a st start with
      | None => None
      | Some None => Some (s, t)
      | Some (Some _) => Some (s, rw_goto (WrLoad a false) t)
      end
  | _ => None
  end.

Definition rw_unlock_impl (s : shared) (t : rw_thread) : option (shared * rw_thread) :=
  match rw_at t with
  | RuLoad a =>
      let st := cell s a in
      Some (s, if st =? RW_WRITER then rw_goto (RuCas a st RW_FREE) t
               else if 0 <? st then rw_goto (RuCas a st (u32 (st - 1))) t
               else rw_ret EINVAL t)
  | RuCas a st new_st =>
      let '(c, s') := cas a st new_st s in
      Some (s', if c =? st then rw_drop a t else rw_goto (RuLoad a) t)
  | RuNotify a => Some (m3Atomic_Notify s, rw_ret 0 t)
  | _ => None
  end.

Definition rw_run (w : wake) (s : shared) (t : rw_thread) : option (shared * rw_thread) :=
  match rw_at t with
  | RwGuest => None
  | RdLoad _ _ | RdCas _ _ _ | RdWait _ _ | RdPark _ _ _ => rw_rdlock_impl w s t
  | WrLoad _ _ | WrCas _ _ | WrWait _ _ | WrPark _ _ _ => rw_wrlock_impl w s t
  | RuLoad _ | RuCas _ _ _ | RuNotify _ => rw_unlock_impl s t
  end.

(** The imports; a null pointer gives -1. *)
Inductive rw_api : Type :=
| host_pthread_rwlock_rdlock (rw : option Z)
| host_pthread_rwlock_wrlock (rw : option Z)
| host_pthread_rwlock_tryrdlock (rw : option Z)
| host_pthread_rwlock_trywrlock (rw : option Z)
| host_pthread_rwlock_unlock (rw : option Z).

Definition rw_entry (c : rw_api) : Z + rw_pc :=
  let at_rw p f := match p with Some a => inr (f a) | None => inl (-1) end in
  match c with
  | host_pthread_rwlock_rdlock p => at_rw p (fun a => RdLoad a false)
  | host_pthread_rwlock_wrlock p => at_rw p (fun a => WrLoad a false)
  | host_pthread_rwlock_tryrdlock p => at_rw p (fun a => RdLoad a true)
  | host_pthread_rwlock_trywrlock p => at_rw p (fun a => WrLoad a true)
  | host_pthread_rwlock_unlock p => at_rw p RuLoad
  end.

Definition rw_start (c : rw_api) (t : rw_thread) : rw_thread :=
  match rw_entry c with inl r => rw_ret r t | inr p => rw_goto p t end.

(** * pthread_once *)

Definition ONCE_NEW : Z := 0.
Definition ONCE_IN_PROGRESS : Z := 1.
Definition ONCE_DONE : Z := 2.

Inductive once_pc : Type :=
| OnGuest
| OnCas (o fn_idx : Z)
| OnRun (o fn_idx : Z)
| OnStore (o : Z) (ok : bool)
| OnNotify (o : Z) (ok : bool)
| OnTest (o : Z)
| OnWait (o : Z)
| OnPark (o start : Z).

(** Ghosts: the cells whose routine this thread has started, and those for which
    a call of it has returned. *)
Record once_thread : Type := OnceThread { on_at : once_pc; on_ran : list Z; on_returned : list Z; on_result : Z }.

Definition on_goto (p : once_pc) (t : once_thread) : once_thread := OnceThread p (on_ran t) (on_returned t) (on_result t).
Definition on_ret (o r : Z) (t : once_thread) : once_thread := OnceThread OnGuest (on_ran t) (o :: on_returned t) r.
Definition on_start (o fn_idx : Z) (t : once_thread) : once_thread :=
  OnceThread (OnRun o fn_idx) (o :: on_ran t) (on_returned t) (on_result t).

Section Once.
(** Whether the routine at a table index exists, compiles and does not trap. *)
Variable routine_ok : Z -> bool.

Definition host_pthread_once (w : wake) (s : shared) (t : once_thread) : option (shared * once_thread) :=
  match on_at t with
  | OnGuest => None
  | OnCas o f =>
      let '(c, s') := cas o ONCE_NEW ONCE_IN_PROGRESS s in
      Some (s', if c =? ONCE_NEW then on_start o f t else on_goto (OnTest o) t)
  | OnRun o f => Some (s, on_goto (OnStore o (routine_ok f)) t)
  | OnStore o ok => Some (store o ONCE_DONE s, on_goto (OnNotify o ok) t)
  | OnNotify o ok => Some (m3Atomic_Notify s, on_ret o (if ok : bool then 0 else -1) t)
  | OnTest o => Some (s, if cell s o =? ONCE_DONE then on_ret o 0 t else on_goto (OnWait o) t)
  | OnWait o =>
      Some (s, on_goto (match wait_enter s o ONCE_IN_PROGRESS with inl _ => OnTest o | inr start => OnPark o start end) t)
  | OnPark o start =>
      match wait_turn w false s o ONCE_IN_PROGRESS start with
      | None => None
      | Some None => Some (s, t)
      | Some (Some _) => Some (s, on_goto (OnTest o) t)
      end
  end.
End Once.
