(* ===== verification/RwProps.v ===== *)
(** Exclusion, counting and wake-up of the read-write lock; the routine of
    pthread_once runs once and is over before any call returns. *)
From S2P Require Import Prelude Futex RwLock.

Section RwLock.
(** The lock under study. *)
Context (a : Z).

Definition entry_is_mode (k : mode) (e : Z * mode) : Z := if decide (e = (a, k)) then 1 else 0.
Definition count_held (k : mode) (l : list (Z * mode)) : Z := foldr (fun e n => entry_is_mode k e + n) 0 l.
Definition readers (t : rw_thread) : Z := count_held Reader (rw_held t).
Definition writers (t : rw_thread) : Z := count_held Writer (rw_held t).
Definition holds (t : rw_thread) : Prop := 0 < readers t + writers t.

(** What the cell says. *)
Definition encodes (c r w : Z) : Prop :=
  (c = RW_WRITER /\ w = 1 /\ r = 0) \/ (0 <= c < RW_WRITER /\ w = 0 /\ r = c).

(** Only a holder unlocks. *)
Definition rw_disciplined (t : rw_thread) : Prop :=
  match rw_at t with RuLoad l | RuCas l _ _ => l = a -> holds t | _ => True end.

(** What the C locals of a call record about the value it read. *)
Definition locals_ok (t : rw_thread) : Prop :=
  match rw_at t with
  | RuCas l st new => l = a -> (st = RW_WRITER /\ new = RW_FREE) \/ (0 < st < RW_WRITER /\ new = st - 1)
  | RdCas l _ st => l = a -> 0 <= st < RW_WRITER - 1
  | RdWait l st | WrWait l st => l = a -> st <> 0
  | _ => True
  end.

Definition rw_client (t t' : rw_thread) : Prop :=
  rw_at t = RwGuest /\ exists c, t' = rw_start c t /\ rw_disciplined t'.

Lemma count_nonneg k l : 0 <= count_held k l.
Proof. induction l as [|e l IH]; simpl; [done|]. unfold entry_is_mode. case_decide; lia. Qed.

Lemma readers_nonneg t : 0 <= readers t.
Proof. apply count_nonneg. Qed.
Lemma writers_nonneg t : 0 <= writers t.
Proof. apply count_nonneg. Qed.

Lemma count_cons k l m e : count_held k ((l, m) :: e) = (if decide (l = a /\ m = k) then 1 else 0) + count_held k e.
Proof. simpl. unfold entry_is_mode. do 2 case_decide; naive_solver. Qed.

(** Dropping an entry of this lock: the first one goes. *)
Lemma drop_counts l :
  0 < count_held Reader l + count_held Writer l ->
  (count_held Reader (drop_held a l) = count_held Reader l - 1 /\ count_held Writer (drop_held a l) = count_held Writer l /\ 0 < count_held Reader l) \/
  (count_held Writer (drop_held a l) = count_held Writer l - 1 /\ count_held Reader (drop_held a l) = count_held Reader l /\ 0 < count_held Writer l).
Proof.
  induction l as [|[x m] l IH]; [simpl; lia|]. rewrite !count_cons. pose proof (count_nonneg Reader l). pose proof (count_nonneg Writer l).
  cbn [drop_held fst]. destruct (Z.eqb_spec x a) as [->|Hne].
  - destruct m; [left|right]; rewrite ?decide_True, ?decide_False by naive_solver; lia.
  - rewrite !decide_False by naive_solver. intros H1. rewrite !count_cons, !decide_False by naive_solver.
    destruct (IH H1) as [(-> & -> & ?)|(-> & -> & ?)]; [left|right]; lia.
Qed.

Lemma drop_other l x k : x <> a -> count_held k (drop_held x l) = count_held k l.
Proof.
  intros Hx. induction l as [|[y m] l IH]; [done|]. cbn [drop_held fst]. destruct (Z.eqb_spec y x) as [->|Hne].
  - rewrite count_cons, decide_False by naive_solver. done.
  - by rewrite !count_cons, IH.
Qed.

(** * One step *)

(** The cell and the holders of one thread move together. *)
Definition rw_effect (s s' : shared) (t t' : rw_thread) : Prop :=
  let c := cell s a in let c' := cell s' a in
  (c' = c /\ readers t' = readers t /\ writers t' = writers t) \/
  (0 <= c < RW_WRITER - 1 /\ c' = c + 1 /\ readers t' = readers t + 1 /\ writers t' = writers t) \/
  (c = 0 /\ c' = RW_WRITER /\ readers t' = readers t /\ writers t' = writers t + 1) \/
  (holds t /\ (c = RW_WRITER /\ c' = 0 \/ 0 < c < RW_WRITER /\ c' = c - 1) /\
    (readers t' = readers t - 1 /\ writers t' = writers t /\ 0 < readers t \/
     writers t' = writers t - 1 /\ readers t' = readers t /\ 0 < writers t) /\ rw_at t' = RuNotify a).

Lemma effect_none s s' t t' : cell s' a = cell s a -> rw_held t' = rw_held t -> rw_effect s s' t t'.
Proof. intros H1 H2. left. unfold readers, writers. by rewrite H1, H2. Qed.

Lemma cas_other l e d s : l <> a -> cell (cas l e d s).2 a = cell s a.
Proof. intros H. unfold cas. simpl. destruct (cell s l =? e); [|done]. by apply store_other. Qed.

Lemma take_counts l k k' t : count_held k' (rw_held (rw_take l k t)) = (if decide (l = a /\ k = k') then 1 else 0) + count_held k' (rw_held t).
Proof. apply count_cons. Qed.

Lemma take_effect s s' t l k :
  (l = a -> cell s' a = match k with Reader => cell s a + 1 | Writer => RW_WRITER end /\
            match k with Reader => 0 <= cell s a < RW_WRITER - 1 | Writer => cell s a = 0 end) ->
  (l <> a -> cell s' a = cell s a) -> rw_effect s s' t (rw_take l k t).
Proof.
  intros H1 H2. pose proof (take_counts l k Reader t) as R. pose proof (take_counts l k Writer t) as W.
  unfold rw_effect, readers, writers. destruct (decide (l = a)) as [Hl|Hl].
  - destruct (H1 Hl) as [-> H]. destruct k; rewrite ?decide_True, ?decide_False in R by (by intros [] || done);
      rewrite ?decide_True, ?decide_False in W by (by intros [] || done); [right; left|right; right; left]; lia.
  - rewrite (H2 Hl). left. rewrite decide_False in R by (by intros []). rewrite decide_False in W by (by intros []). done.
Qed.

(** The reader's and the writer's functions. *)
Lemma rw_lock_local w s t s' t' :
  match rw_at t with RuLoad _ | RuCas _ _ _ | RuNotify _ => False | _ => True end ->
  locals_ok t -> 0 <= cell s a <= RW_WRITER -> rw_run w s t = Some (s', t') ->
  rw_effect s s' t t' /\ rw_disciplined t' /\ locals_ok t'.
Proof.
  intros Hk Hu Hc Hr. unfold rw_run, rw_rdlock_impl, rw_wrlock_impl in Hr. unfold locals_ok in Hu.
  assert (Hsame : forall p, (rw_held p = rw_held t /\ match rw_at p with RwGuest | RdLoad _ _ | RdPark _ _ _ | WrLoad _ _ | WrCas _ _ | WrPark _ _ _ => True | _ => False end) ->
    forall s', cell s' a = cell s a -> rw_effect s s' t p /\ rw_disciplined p /\ locals_ok p).
  { intros p [Hh Hp] s2 Hs2. split; [by apply effect_none|]. unfold rw_disciplined, locals_ok. by destruct (rw_at p). }
  destruct (rw_at t) as [|l try|l try st|l st|l st start|l try|l try|l st|l st start| | |] eqn:Hat; try done.
  - destruct (negb (cell s l =? RW_WRITER) && (cell s l <? RW_WRITER - 1)) eqn:E; [|destruct try]; injection Hr as <- <-;
      [|by apply Hsame|].
    2: { split; [by apply effect_none|split; [done|]]. cbn. intros ->. unfold RW_WRITER in *. intros H0. by rewrite H0 in E. }
    split; [by apply effect_none|]. split; [done|]. cbn. intros ->. apply andb_true_iff in E as [_ E]. apply Z.ltb_lt in E. lia.
  - unfold cas in Hr. cbn iota beta in Hr. destruct (Z.eqb_spec (cell s l) st) as [E|E]; injection Hr as <- <-; [|by apply Hsame].
    split; [|by split]. apply take_effect; [intros ->|intros Hl; by apply store_other].
    specialize (Hu eq_refl). rewrite store_same. assert (Es : u32 (st + 1) = st + 1) by (apply u32_small; unfold RW_WRITER in *; lia).
    rewrite !Es. lia.
  - injection Hr as <- <-. by destruct (wait_enter s l st); apply Hsame.
  - destruct (wait_turn w false s l st start) as [[r|]|]; [| |done]; injection Hr as <- <-; apply Hsame; try done. by rewrite Hat.
  - destruct (Z.eqb_spec (cell s l) RW_FREE) as [E|E]; [|destruct try]; injection Hr as <- <-; [by apply Hsame|by apply Hsame|].
    split; [by apply effect_none|]. split; [done|]. cbn. by intros ->.
  - unfold cas in Hr. cbn iota beta in Hr. destruct (Z.eqb_spec (cell s l) RW_FREE) as [E|E]; injection Hr as <- <-; [|by apply Hsame].
    split; [|by split]. apply take_effect; [intros ->|intros Hl; by apply store_other]. by rewrite store_same.
  - injection Hr as <- <-. by destruct (wait_enter s l st); apply Hsame.
  - destruct (wait_turn w false s l st start) as [[r|]|]; [| |done]; injection Hr as <- <-; apply Hsame; try done. by rewrite Hat.
Qed.

Lemma rw_unlock_local w s t s' t' :
  match rw_at t with RuLoad _ | RuCas _ _ _ | RuNotify _ => True | _ => False end ->
  rw_disciplined t -> locals_ok t -> 0 <= cell s a <= RW_WRITER -> rw_run w s t = Some (s', t') ->
  rw_effect s s' t t' /\ rw_disciplined t' /\ locals_ok t'.
Proof.
  intros Hk Hd Hu Hc Hr. unfold rw_run, rw_unlock_impl in Hr. unfold rw_disciplined in Hd. unfold locals_ok in Hu.
  destruct (rw_at t) as [| | | | | | | | |l|l st new|l] eqn:Hat; try done.
  - destruct (Z.eqb_spec (cell s l) RW_WRITER) as [E|E]; [|destruct (Z.ltb_spec 0 (cell s l))]; injection Hr as <- <-;
      (split; [by apply effect_none|]).
    + split; [exact Hd|]. intros ->. by left.
    + split; [exact Hd|]. intros ->. right. split; [lia|]. apply u32_small. unfold RW_WRITER in *. lia.
    + done.
  - unfold cas in Hr. cbn iota beta in Hr. destruct (Z.eqb_spec (cell s l) st) as [E|E]; injection Hr as <- <-.
    2: { split; [by apply effect_none|]. by split. }
    split; [|by split]. destruct (decide (l = a)) as [->|Hl].
    + right. right. right. split; [by apply Hd|]. split_and!; [|by apply drop_counts, Hd|done]. specialize (Hu eq_refl).
      rewrite store_same. unfold RW_WRITER, RW_FREE in *. destruct Hu as [[-> ->]|[? ->]]; [by left|right; rewrite u32_small; lia].
    + left. split; [by apply store_other|]. unfold readers, writers. cbn [rw_drop rw_held]. by rewrite !drop_other.
  - injection Hr as <- <-. split; [by apply effect_none|by split].
Qed.

Lemma rw_local w s t s' t' :
  rw_disciplined t -> locals_ok t -> 0 <= cell s a <= RW_WRITER -> rw_run w s t = Some (s', t') ->
  rw_effect s s' t t' /\ rw_disciplined t' /\ locals_ok t'.
Proof.
  intros Hd Hu Hc Hr. destruct (rw_at t) eqn:Hat; solve [eapply rw_lock_local; [by rewrite Hat|done..]|eapply rw_unlock_local; [by rewrite Hat|done..]].
Qed.

(** * The whole system *)

Definition rw_good (s : shared) (t : rw_thread) : Prop := rw_disciplined t /\ locals_ok t /\ 0 <= cell s a <= RW_WRITER.

Definition rw_inv (x : @sys rw_thread) : Prop :=
  Forall (fun t => rw_disciplined t /\ locals_ok t) (threads x) /\
  encodes (cell (sh x) a) (tally readers (threads x)) (tally writers (threads x)).

Lemma encodes_range c r w : encodes c r w -> 0 <= c <= RW_WRITER.
Proof. unfold encodes, RW_WRITER. lia. Qed.

Lemma rw_inv_good x : rw_inv x -> Forall (rw_good (sh x)) (threads x).
Proof.
  intros [Hd He]. eapply Forall_impl; [exact Hd|]. intros t [H1 H2]. split_and!; [done|done|..]; apply encodes_range in He; lia.
Qed.

Lemma rw_enter_counts t t' : rw_client t t' -> rw_disciplined t' /\ locals_ok t' /\ readers t' = readers t /\ writers t' = writers t.
Proof.
  intros [_ (c & -> & Hd)]. split; [done|]. unfold rw_start, readers, writers in *. destruct c as [[]|[]|[]|[]|[]]; by split.
Qed.

Lemma rw_inv_step x y : rw_inv x -> step rw_run rw_client x y -> rw_inv y.
Proof.
  intros Hx Hs. pose proof (rw_inv_good x Hx) as Hgood. destruct Hx as [Hd He].
  destruct Hs as [w i t s' t' Hi Hr|i t t' Hi Hc|]; [| |by split].
  - rewrite Forall_forall in Hgood. destruct (Hgood t (list_elem_of_lookup_2 _ _ _ Hi)) as (H1 & H2 & H3).
    destruct (rw_local _ _ _ _ _ H1 H2 H3 Hr) as (Heff & H4 & H5). split; [by apply Forall_insert|]. cbn [sh threads].
    rewrite !(tally_insert _ _ _ _ _ Hi). pose proof (tally_lookup readers _ _ _ readers_nonneg Hi). pose proof (tally_lookup writers _ _ _ writers_nonneg Hi).
    pose proof (readers_nonneg t). pose proof (writers_nonneg t). unfold rw_effect in Heff. unfold encodes, RW_WRITER in *. lia.
  - destruct (rw_enter_counts _ _ Hc) as (H1 & H2 & H3 & H4). split; [by apply Forall_insert|]. cbn [sh threads].
    by rewrite !(tally_insert _ _ _ _ _ Hi), H3, H4, !Z.sub_add.
Qed.

(** Threads outside the host that hold nothing, and a free lock. *)
Definition rw_fresh (x : @sys rw_thread) : Prop :=
  Forall (fun t => rw_at t = RwGuest /\ rw_held t = []) (threads x) /\ cell (sh x) a = 0.

Lemma rw_fresh_inv x : rw_fresh x -> rw_inv x.
Proof.
  intros [Hf H0]. rewrite Forall_forall in Hf. split.
  - apply Forall_forall. intros t Ht. destruct (Hf t Ht) as [Hg _]. unfold rw_disciplined, locals_ok. by rewrite Hg.
  - rewrite H0, !tally_zero; [by right|..]; intros t Ht; destruct (Hf t Ht) as [_ Hh]; unfold readers, writers; by rewrite Hh.
Qed.

Lemma rw_reachable x y : rw_fresh x -> rtc (step rw_run rw_client) x y -> rw_inv y.
Proof. intros Hf Hr. eapply (rtc_invariant _ rw_inv); [apply rw_inv_step|exact Hr|by apply rw_fresh_inv]. Qed.

(** * Waking up *)

Definition rw_asleep (s : shared) (t : rw_thread) : Prop :=
  match rw_at t with RdPark l st start | WrPark l st start => l = a /\ start = g_notify_gen s | _ => False end.
Definition rw_helper (s : shared) (t : rw_thread) : Prop := rw_at t = RuNotify a.
Definition rw_parked_le (g : Z) (t : rw_thread) : Prop :=
  match rw_at t with RdPark _ _ start | WrPark _ _ start => start <= g | _ => True end.

Lemma rw_parked_from w s t s' t' :
  rw_run w s t = Some (s', t') ->
  match rw_at t' with
  | RdPark l st start | WrPark l st start =>
      t' = t \/ (start = g_notify_gen s /\ cell s' l = st /\ (rw_at t = RdWait l st \/ rw_at t = WrWait l st))
  | _ => True
  end.
Proof.
  intros Hr. unfold rw_run, rw_rdlock_impl, rw_wrlock_impl, rw_unlock_impl, wait_enter, cas in Hr.
  destruct (rw_at t) eqn:Hat; try done; cbn iota beta in Hr; repeat (case_match; simplify_eq/=); try done; try (right; split_and!; [done|by apply Z.eqb_eq|auto]); by left.
Qed.

Lemma rw_sleeps : Sleeps rw_run rw_client (fun s => cell s a <> 0) rw_asleep rw_helper rw_parked_le rw_good.
Proof.
  split.
  - intros w s t s' t' (Hd & Hu & Hc) Hr Hg Ha. pose proof (rw_parked_from _ _ _ _ _ Hr) as Hp. unfold rw_asleep in *. unfold locals_ok in Hu.
    destruct (rw_at t') eqn:Ht'; try done; destruct Ha as [-> ->];
      (destruct Hp as [->|(_ & Hst & [Hw|Hw])]; [left; rewrite Ht'; by rewrite Hg|right; rewrite Hw in Hu; rewrite Hst; by apply Hu..]).
  - intros w s t s' t' (Hd & Hu & Hc) Hr Hf. destruct (rw_local _ _ _ _ _ Hd Hu Hc Hr) as (Heff & _). unfold rw_helper.
    unfold rw_effect, RW_WRITER in *. destruct Heff as [(-> & _)|[(? & -> & _)|[(? & -> & _)|(_ & _ & _ & ?)]]]; [by left|left; lia|left; lia|by right].
  - intros w s t s' t' _ Hr Hg Hh. exfalso. unfold rw_helper in Hh. unfold rw_run, rw_unlock_impl in Hr. rewrite Hh in Hr.
    injection Hr as <- <-. simpl in Hg. by apply (u64_succ_ne (g_notify_gen s)).
  - intros w s t s' t' _ Hr Hp. pose proof (rw_parked_from _ _ _ _ _ Hr) as H. unfold rw_parked_le in *.
    destruct (rw_at t') eqn:Ht'; try done; (destruct H as [->|(-> & _)]; [by rewrite Ht' in Hp|lia]).
  - intros g g' t Hle. unfold rw_parked_le. destruct (rw_at t); try done; lia.
  - intros g s t Hp Hg Ha. unfold rw_parked_le, rw_asleep in *. destruct (rw_at t); try done; destruct Ha; lia.
  - intros s s' t Hg. unfold rw_asleep, rw_helper. by rewrite Hg.
  - intros s t t' [Hg (c & -> & Hd)]. unfold rw_parked_le, rw_asleep, rw_helper. rewrite Hg. unfold rw_start.
    destruct c as [[]|[]|[]|[]|[]]; (split_and!; [done|by intros []|done]).
Qed.

Lemma rw_awaited x y :
  rw_fresh x -> rtc (step_nowrap rw_run rw_client) x y ->
  rw_inv y /\ awaited (fine := fun s => cell s a <> 0) (asleep := rw_asleep) (helper := rw_helper) (parked_le := rw_parked_le) y.
Proof.
  intros Hf Hr. eapply (rtc_invariant _ (fun z => rw_inv z /\ awaited z)); [|exact Hr|split; [by apply rw_fresh_inv|]].
  - intros u v [Hi Ha] [Hs Hg]. split; [by eapply rw_inv_step|]. eapply (awaited_step rw_sleeps); [by apply rw_inv_good|done|by split].
  - destruct Hf as [Hf _]. rewrite Forall_forall in Hf. split.
    + apply Forall_forall. intros t Ht. destruct (Hf t Ht) as [Hg _]. unfold rw_parked_le. by rewrite Hg.
    + intros t Ht Ha. destruct (Hf t Ht) as [Hg _]. unfold rw_asleep in Ha. by rewrite Hg in Ha.
Qed.
End RwLock.

(** * pthread_once *)

Section Once.
Context (routine_ok : Z -> bool) (o : Z).

Definition runs (t : once_thread) : Z := foldr (fun x n => (if decide (x = o) then 1 else 0) + n) 0 (on_ran t).

(** Inside the routine, or about to record that it is over. *)
Definition running (t : once_thread) : Z :=
  match on_at t with OnRun l _ | OnStore l _ => if decide (l = o) then 1 else 0 | _ => 0 end.

(** A call on this cell that the store of [ONCE_DONE] already precedes. *)
Definition over (t : once_thread) : Prop :=
  o ∈ on_returned t \/ match on_at t with OnNotify l _ => l = o | _ => False end.

Definition once_client (t t' : once_thread) : Prop :=
  on_at t = OnGuest /\ exists l f, t' = on_goto (OnCas l f) t.

Lemma runs_nonneg t : 0 <= runs t.
Proof. unfold runs. induction (on_ran t) as [|x l IH]; simpl; [done|]. case_decide; lia. Qed.

Lemma running_nonneg t : 0 <= running t.
Proof. unfold running. destruct (on_at t); try done; case_decide; lia. Qed.

Definition once_encodes (c r i : Z) : Prop :=
  (c = ONCE_NEW /\ r = 0 /\ i = 0) \/ (c = ONCE_IN_PROGRESS /\ r = 1 /\ i = 1) \/ (c = ONCE_DONE /\ r = 1 /\ i = 0).

Definition once_effect (s s' : shared) (t t' : once_thread) : Prop :=
  let c := cell s o in let c' := cell s' o in
  (c' = c /\ runs t' = runs t /\ running t' = running t) \/
  (c = ONCE_NEW /\ c' = ONCE_IN_PROGRESS /\ runs t' = runs t + 1 /\ running t' = running t + 1) \/
  (running t = 1 /\ c' = ONCE_DONE /\ runs t' = runs t /\ running t' = 0 /\ exists ok, on_at t' = OnNotify o ok).

Lemma once_quiet s s' t t' :
  cell s' o = cell s o -> on_ran t' = on_ran t -> running t' = running t -> once_effect s s' t t'.
Proof. intros H1 H2 H3. left. unfold runs. by rewrite H1, H2, H3. Qed.

Lemma once_local w s t s' t' :
  host_pthread_once routine_ok w s t = Some (s', t') ->
  once_effect s s' t t' /\ (over t' -> over t \/ cell s' o = ONCE_DONE).
Proof.
  intros Hr. unfold host_pthread_once in Hr. destruct (on_at t) as [|l f|l f|l ok|l ok|l|l|l st] eqn:Hat; try done.
  - unfold cas in Hr. cbn iota beta in Hr. destruct (Z.eqb_spec (cell s l) ONCE_NEW) as [E|E]; injection Hr as <- <-.
    + split; [|intros [H|[]]; by left; left]. destruct (decide (l = o)) as [->|Hl].
      * right. left. split; [done|]. rewrite store_same. unfold runs, running. simpl. rewrite Hat, !decide_True by done. split_and!; [done|lia|done].
      * left. rewrite store_other by done. unfold runs, running. simpl. by rewrite Hat, !decide_False.
    + split; [apply once_quiet; [done|done|unfold running; by rewrite Hat]|]. intros [H|[]]; by left; left.
  - injection Hr as <- <-. split; [apply once_quiet; [done|done|unfold running; by rewrite Hat]|]. intros [H|[]]; by left; left.
  - injection Hr as <- <-. destruct (decide (l = o)) as [->|Hl].
    + split; [|intros _; right; by rewrite store_same]. right. right. unfold runs, running. rewrite Hat, store_same, decide_True by done.
      split_and!; [done..|]. by eexists.
    + split; [apply once_quiet; [by apply store_other|done|unfold running; rewrite Hat; by rewrite decide_False]|].
      intros [H|H]; [by left; left|by simpl in H].
  - injection Hr as <- <-. split; [apply once_quiet; [done|done|unfold running; by rewrite Hat]|].
    intros [H|[]]. simpl in H. apply elem_of_cons in H as [->|H]; left; [right; by rewrite Hat|by left].
  - destruct (Z.eqb_spec (cell s l) ONCE_DONE) as [E|E]; injection Hr as <- <-;
      (split; [apply once_quiet; [done|done|unfold running; by rewrite Hat]|]).
    + intros [H|[]]. simpl in H. apply elem_of_cons in H as [->|H]; [by right|left; by left].
    + intros [H|[]]; by left; left.
  - injection Hr as <- <-. split; [apply once_quiet; [done|by destruct (wait_enter s l _)|unfold running; rewrite Hat; by destruct (wait_enter s l _)]|].
    intros [H|H]; [left; left; by destruct (wait_enter s l _)|by destruct (wait_enter s l _)].
  - destruct (wait_turn w false s l ONCE_IN_PROGRESS st) as [[r|]|]; [| |done]; injection Hr as <- <-.
    + split; [apply once_quiet; [done|done|unfold running; by rewrite Hat]|]. intros [H|[]]; by left; left.
    + split; [by apply once_quiet|]. intros H; by left.
Qed.

Definition once_inv (x : @sys once_thread) : Prop :=
  once_encodes (cell (sh x) o) (tally runs (threads x)) (tally running (threads x)) /\
  forall t, t ∈ threads x -> over t -> cell (sh x) o = ONCE_DONE.

Lemma once_inv_step x y : once_inv x -> step (host_pthread_once routine_ok) once_client x y -> once_inv y.
Proof.
  intros [He Ho] Hs. destruct Hs as [w i t s' t' Hi Hr|i t t' Hi [Hg (l & f & ->)]|]; [| |by split].
  - destruct (once_local _ _ _ _ _ Hr) as [Heff Hov]. pose proof (list_elem_of_lookup_2 _ _ _ Hi) as Hin.
    pose proof (tally_lookup running _ _ _ running_nonneg Hi) as Hrun. pose proof (running_nonneg t).
    assert (Hdone : cell (sh x) o = ONCE_DONE -> cell s' o = ONCE_DONE).
    { unfold once_effect, once_encodes, ONCE_NEW, ONCE_DONE, ONCE_IN_PROGRESS in *. lia. }
    split; cbn [sh threads].
    + rewrite !(tally_insert _ _ _ _ _ Hi). unfold once_effect, once_encodes, ONCE_NEW, ONCE_DONE, ONCE_IN_PROGRESS in *. lia.
    + intros u Hu Huo. apply list_elem_of_lookup in Hu as [j Hj]. apply lookup_after in Hj as [[<- ->]|[Hne Hj]].
      * destruct (Hov Huo) as [H'|]; [|done]. by apply Hdone, (Ho t).
      * apply Hdone, (Ho u); [|done]. eapply list_elem_of_lookup_2, Hj.
  - split; cbn [sh threads].
    + rewrite !(tally_insert _ _ _ _ _ Hi). unfold running at 2 3. rewrite Hg. simpl. unfold runs at 2 3. simpl. by rewrite !Z.sub_add.
    + intros u Hu Huo. apply list_elem_of_lookup in Hu as [j Hj]. apply lookup_after in Hj as [[<- ->]|[Hne Hj]].
      * apply (Ho t); [eapply list_elem_of_lookup_2, Hi|]. destruct Huo as [H|[]]. by left.
      * apply (Ho u); [|done]. eapply list_elem_of_lookup_2, Hj.
Qed.

Definition once_fresh (x : @sys once_thread) : Prop :=
  Forall (fun t => on_at t = OnGuest /\ on_ran t = [] /\ on_returned t = []) (threads x) /\ cell (sh x) o = ONCE_NEW.

Lemma once_reachable x y : once_fresh x -> rtc (step (host_pthread_once routine_ok) once_client) x y -> once_inv y.
Proof.
  intros [Hf H0] Hr. eapply (rtc_invariant _ once_inv); [apply once_inv_step|exact Hr|]. rewrite Forall_forall in Hf. split.
  - rewrite H0, !tally_zero; [by left|..]; intros t Ht; destruct (Hf t Ht) as (H1 & H2 & _); unfold running, runs; [by rewrite H1|by rewrite H2].
  - intros t Ht [H|H]; destruct (Hf t Ht) as (H1 & _ & H2); [rewrite H2 in H; by apply elem_of_nil in H|by rewrite H1 in H].
Qed.
End Once.

(** * Properties *)

(** C14: The read-write lock.  Whatever any number of threads do with it, as long
    as only holders unlock: never a writer beside another holder, and the one
    cell is the writer mark exactly while a writer holds it and otherwise the
    number of read holds, which therefore never overflows into the mark. *)
Theorem rwlock_exclusion a x y :
  rw_fresh a x -> rtc (step rw_run (rw_client a)) x y ->
  let r := tally (readers a) (threads y) in let w := tally (writers a) (threads y) in
  (w = 0 \/ w = 1 /\ r = 0) /\ (cell (sh y) a = RW_WRITER <-> w = 1) /\ (w = 0 -> cell (sh y) a = r /\ r < RW_WRITER).
Proof.
  intros Hf Hr. destruct (rw_reachable a x y Hf Hr) as [_ He]. unfold encodes, RW_WRITER in *. lia.
Qed.

(** No reader or writer sleeps on a free lock: while some thread sleeps on
    it and the cell is zero, a thread that has just unlocked is about to wake
    everybody.  (Below 2^64 notifications.) *)
Theorem rwlock_no_lost_wakeup a x y t :
  rw_fresh a x -> rtc (step_nowrap rw_run (rw_client a)) x y -> t ∈ threads y -> rw_asleep a (sh y) t -> cell (sh y) a = 0 ->
  exists u, u ∈ threads y /\ rw_at u = RuNotify a.
Proof.
  intros Hf Hr Hin Ha H0. destruct (rw_awaited a x y Hf Hr) as [_ [_ Hw]]. by destruct (Hw t Hin Ha) as [|(u & Hu & Hh)]; [|exists u].
Qed.

(** pthread_once.  Whatever any number of threads do, the routine of a cell
    starts at most once; the cell is DONE as soon as any call on it has
    returned, and then the one start is over and nobody is inside. *)
Theorem once_runs_once routine_ok o x y :
  once_fresh o x -> rtc (step (host_pthread_once routine_ok) once_client) x y ->
  tally (runs o) (threads y) <= 1 /\
  (forall t, t ∈ threads y -> o ∈ on_returned t ->
    cell (sh y) o = ONCE_DONE /\ tally (runs o) (threads y) = 1 /\ tally (running o) (threads y) = 0).
Proof.
  intros Hf Hr. destruct (once_reachable routine_ok o x y Hf Hr) as [He Ho].
  unfold once_encodes, ONCE_NEW, ONCE_DONE, ONCE_IN_PROGRESS in *. split; [lia|]. intros t Ht Hret.
  assert (cell (sh y) o = 2) by (apply (Ho t Ht); by left). lia.
Qed.

(** * Witnesses *)

Definition rw_begin (c : rw_api) (t : rw_thread) : option rw_thread :=
  match rw_at t with RwGuest => Some (rw_start c t) | _ => None end.

(** Lock freely, unlock when something is held. *)
Definition rw_fair (a : Z) (t : rw_thread) (c : rw_api) : bool :=
  match c with host_pthread_rwlock_unlock _ => 0 <? readers a t + writers a t | _ => true end.

Lemma rw_fair_client a t c t' : rw_begin c t = Some t' -> rw_fair a t c = true -> rw_client a t t'.
Proof.
  unfold rw_begin. destruct (rw_at t) eqn:Hat; try done. intros [= <-] Hf. split; [done|]. exists c. split; [done|].
  destruct c as [[]|[]|[]|[]|[]]; try done. intros _. by apply Z.ltb_lt.
Qed.

(** Thread 0 takes the lock at 64 for writing, thread 1 sleeps on it, thread 0
    has stored the free mark and not notified yet. *)
Definition rw_two : sys := Sys (Shared (fun _ => 0) 0) [RwThread RwGuest [] 0; RwThread RwGuest [] 0].

Definition rw_contended : list (nat * option rw_api) :=
  let lock := Some (host_pthread_rwlock_wrlock (Some 64)) in
  (0%nat, lock) :: turns 0 2 ++ (1%nat, lock) :: turns 1 2 ++ (0%nat, Some (host_pthread_rwlock_unlock (Some 64))) :: turns 0 2.

Definition rw_asleep_sys : sys := match play rw_run rw_begin rw_contended rw_two with Some y => y | None => rw_two end.

Lemma rw_contended_rtc : rtc (step_nowrap rw_run (rw_client 64)) rw_two rw_asleep_sys.
Proof. apply (play_rtc rw_run rw_begin _ (rw_fair 64) g_notify_gen (rw_fair_client 64) rw_contended); vm_compute; reflexivity. Qed.

Lemma rw_two_fresh : rw_fresh 64 rw_two.
Proof. split; [by repeat constructor|done]. Qed.

Lemma rwlock_exclusion_witness : tally (writers 64) (threads rw_asleep_sys) = 0 /\ cell (sh rw_asleep_sys) 64 = 0.
Proof.
  destruct (rwlock_exclusion 64 rw_two rw_asleep_sys rw_two_fresh (rtc_forget _ _ _ _ _ rw_contended_rtc)) as (H1 & H2 & _).
  assert (H0 : cell (sh rw_asleep_sys) 64 = 0) by (vm_compute; reflexivity). split; [|exact H0].
  destruct H1 as [H|[H _]]; [exact H|]. exfalso. apply H2 in H. rewrite H0 in H. discriminate.
Defined.

Lemma rwlock_no_lost_wakeup_witness : exists u, u ∈ threads rw_asleep_sys /\ rw_at u = RuNotify 64.
Proof.
  apply (rwlock_no_lost_wakeup 64 rw_two rw_asleep_sys (RwThread (WrPark 64 RW_WRITER 0) [] 0) rw_two_fresh rw_contended_rtc).
  - apply list_elem_of_lookup. exists 1%nat. vm_compute. reflexivity.
  - split; vm_compute; reflexivity.
  - vm_compute. reflexivity.
Defined.

(** Two threads race for a cell; the winner's routine traps. *)
Definition once_begin (c : Z * Z) (t : once_thread) : option once_thread :=
  match on_at t with OnGuest => Some (on_goto (OnCas c.1 c.2) t) | _ => None end.

Lemma once_begin_client t c t' : once_begin c t = Some t' -> true = true -> once_client t t'.
Proof. unfold once_begin. destruct (on_at t) eqn:Hat; try done. intros [= <-] _. split; [done|]. by exists c.1, c.2. Qed.

Definition once_two : sys := Sys (Shared (fun _ => 0) 0) [OnceThread OnGuest [] [] 0; OnceThread OnGuest [] [] 0].

Definition once_race : list (nat * option (Z * Z)) :=
  (0%nat, Some (64, 7)) :: (1%nat, Some (64, 7)) :: turns 0 1 ++ turns 1 3 ++ turns 0 3 ++ turns 1 2.

Definition once_over : sys :=
  match play (host_pthread_once (fun _ => false)) once_begin once_race once_two with Some y => y | None => once_two end.

Lemma once_race_rtc : rtc (step (host_pthread_once (fun _ => false)) once_client) once_two once_over.
Proof.
  eapply rtc_forget. apply (play_rtc (host_pthread_once (fun _ => false)) once_begin _ (fun _ _ => true) g_notify_gen once_begin_client once_race);
    vm_compute; reflexivity.
Qed.

(** The loser of the race got 0 although the routine trapped. *)
Lemma once_runs_once_witness :
  tally (runs 64) (threads once_over) = 1 /\ threads once_over !! 1%nat = Some (OnceThread OnGuest [] [64] 0).
Proof.
  assert (H1 : threads once_over !! 1%nat = Some (OnceThread OnGuest [] [64] 0)) by (vm_compute; reflexivity).
  destruct (once_runs_once (fun _ => false) 64 once_two once_over) as [_ H].
  - split; [repeat constructor|reflexivity].
  - exact once_race_rtc.
  - split; [|exact H1]. apply (H _ (list_elem_of_lookup_2 _ _ _ H1)). by left.
Defined.
