(* ===== verification/Threads.v ===== *)
(** The thread table, the thread-specific data and the creation and joining of
    guest threads (src/src/yos/impl/proc/pthread.c).

    What the host's own threads answer is an argument: the result of calloc and
    pthread_create, and what the worker left behind when it is joined.
    [threads_mu] is held for each access to the table, not for a whole call:
    ThreadsProps interleaves the accesses, and the calls here are their
    sequences for one thread.  The program's only [yos_pthread_host_create]
    (main.c) passes a pool base and an arena size of 0.  The guest heap is used
    through the laws of GuestHeap. *)
From S2P Require Import Prelude Memory Ctx.

Definition WASM3MT_MAX_THREADS : Z := 128.
Definition WASM3MT_MAX_TLS_KEYS : Z := 64.
Definition YOS_L1_THREAD_STACK : Z := 262144.

Record host_thread : Type := HostThread {
  tid : Z;
  os_started : bool;
  joined : bool;
  is_master : bool;
  fn_idx : Z;
  arg : Z;
  tls_arena : Z;
  ctid_addr : Z;
  child_stack : Z;
  owned_stack_base : Z;
  tls : list Z
}.

Definition set_tid (t a : Z) (h : host_thread) : host_thread :=
  HostThread t (os_started h) (joined h) (is_master h) (fn_idx h) (arg h) a (ctid_addr h) (child_stack h) (owned_stack_base h) (tls h).
Definition set_tls_arena (a : Z) (h : host_thread) : host_thread := set_tid (tid h) a h.
Definition set_os_started (h : host_thread) : host_thread :=
  HostThread (tid h) true (joined h) (is_master h) (fn_idx h) (arg h) (tls_arena h) (ctid_addr h) (child_stack h) (owned_stack_base h) (tls h).
Definition set_joined (h : host_thread) : host_thread :=
  HostThread (tid h) (os_started h) true (is_master h) (fn_idx h) (arg h) (tls_arena h) (ctid_addr h) (child_stack h) (owned_stack_base h) (tls h).
Definition set_owned_stack (s : Z) (h : host_thread) : host_thread :=
  HostThread (tid h) (os_started h) (joined h) (is_master h) (fn_idx h) (arg h) (tls_arena h) (ctid_addr h) (child_stack h) s (tls h).
Definition set_tls (l : list Z) (h : host_thread) : host_thread :=
  HostThread (tid h) (os_started h) (joined h) (is_master h) (fn_idx h) (arg h) (tls_arena h) (ctid_addr h) (child_stack h) (owned_stack_base h) l.

(** [yos_pthread_host]: the table has [WASM3MT_MAX_THREADS] slots. *)
Record yos_pthread_host : Type := PthreadHost {
  h_threads : list (option host_thread);
  tls_pool_base : Z;
  tls_arena_size : Z;
  next_key : Z
}.

Definition set_h_threads (l : list (option host_thread)) (h : yos_pthread_host) : yos_pthread_host :=
  PthreadHost l (tls_pool_base h) (tls_arena_size h) (next_key h).
Definition set_next_key (k : Z) (h : yos_pthread_host) : yos_pthread_host :=
  PthreadHost (h_threads h) (tls_pool_base h) (tls_arena_size h) k.

Definition slot_arena (h : yos_pthread_host) (i : Z) : Z :=
  if tls_arena_size h =? 0 then 0 else u32 (tls_pool_base h + u32 (i * tls_arena_size h)).

Definition no_tls : list Z := replicate (Z.to_nat WASM3MT_MAX_TLS_KEYS) 0.

Definition master_thread (base size : Z) : host_thread :=
  HostThread 0 false false true 0 0 (if size =? 0 then 0 else base) 0 0 0 no_tls.

Definition yos_pthread_host_create (base size : Z) : yos_pthread_host :=
  PthreadHost (Some (master_thread base size) :: replicate 127 None) base size 0.

(** * The table *)

(** The first empty slot from 1 on. *)
Definition free_tid (h : yos_pthread_host) : option nat :=
  S <$> (fst <$> list_find (fun o => o = None) (tail (h_threads h))).

Definition host_alloc_tid (h : yos_pthread_host) (ht : host_thread) : Z * yos_pthread_host :=
  match free_tid h with
  | None => (-1, h)
  | Some i => (Z.of_nat i, set_h_threads (<[i := Some (set_tid (Z.of_nat i) (slot_arena h (Z.of_nat i)) ht)]> (h_threads h)) h)
  end.

Definition host_lookup_thread (h : yos_pthread_host) (t : Z) : option host_thread :=
  if WASM3MT_MAX_THREADS <=? t then None else default None (h_threads h !! Z.to_nat t).

Definition host_free_thread_slot (h : yos_pthread_host) (t : Z) : yos_pthread_host :=
  if t =? 0 then h
  else if t <? WASM3MT_MAX_THREADS then set_h_threads (<[Z.to_nat t := None]> (h_threads h)) h else h.

(** A store through the pointer to a live thread. *)
Definition upd_thread (t : Z) (f : host_thread -> host_thread) (h : yos_pthread_host) : yos_pthread_host :=
  set_h_threads (alter (fmap f) (Z.to_nat t) (h_threads h)) h.

(** [alloc_ok]: the host's calloc; [rc]: its pthread_create.  The new thread's
    tid, or a negative code. *)
Definition yos_clone_thread (alloc_ok : bool) (rc : Z) (h : yos_pthread_host)
    (fn_idx arg ctid_addr tls_ child_stack : Z) : Z * yos_pthread_host :=
  if negb alloc_ok then (- ENOMEM, h)
  else
    let '(t, h1) := host_alloc_tid h (HostThread 0 false false false fn_idx arg 0 ctid_addr child_stack 0 no_tls) in
    if t <? 0 then (- EAGAIN, h1)
    else
      let h2 := if tls_ =? 0 then h1 else upd_thread t (set_tls_arena tls_) h1 in
      if negb (rc =? 0) then (- EAGAIN, host_free_thread_slot h2 t)
      else (t, upd_thread t set_os_started h2).

(** * The imports *)

Section Imports.
Variable malloc : exec_ctx -> Z -> Z * exec_ctx.
Variable free : exec_ctx -> Z -> option exec_ctx.

(** [t_ptr] is an offset: the pointer it becomes is never null.  [None]: the
    allocator's free does not return. *)
Definition host_pthread_create (alloc_ok : bool) (rc : Z) (c : exec_ctx) (h : yos_pthread_host) (t_ptr fn_idx arg : Z)
    : option (Z * exec_ctx * yos_pthread_host) :=
  let '(stack_base, c1) := malloc c YOS_L1_THREAD_STACK in
  let stack_top := if stack_base =? 0 then 0 else Z.land (u32 (stack_base + YOS_L1_THREAD_STACK)) 4294967280 in
  let '(t, h1) := yos_clone_thread alloc_ok rc h fn_idx arg 0 0 stack_top in
  if t <? 0 then
    c2 ← (if stack_base =? 0 then Some c1 else free c1 stack_base);
    Some (-1, c2, h1)
  else
    let h2 := if stack_base =? 0 then h1
              else match host_lookup_thread h1 t with Some _ => upd_thread t (set_owned_stack stack_base) h1 | None => h1 end in
    Some (0, set_mem (st32 (mem c1) t_ptr t) c1, h2).

(** The thread that a join waits for. *)
Definition join_target (h : yos_pthread_host) (t : Z) : option host_thread :=
  match host_lookup_thread h t with
  | None => None
  | Some ht => if joined ht || negb (os_started ht) || is_master ht then None else Some ht
  end.

(** [retval]: what the worker returned. *)
Definition host_pthread_join (retval : Z) (c : exec_ctx) (h : yos_pthread_host) (t retval_ptr : Z)
    : option (Z * exec_ctx * yos_pthread_host) :=
  match join_target h t with
  | None => Some (-1, c, h)
  | Some ht =>
      let h1 := upd_thread t set_joined h in
      let c1 := set_mem (st32 (mem c) retval_ptr retval) c in
      c2 ← (if owned_stack_base ht =? 0 then Some c1 else free c1 (owned_stack_base ht));
      Some (0, c2, host_free_thread_slot h1 t)
  end.
End Imports.

(** The thread that calls: the one its OS thread is tagged with, else the
    master. *)
Definition current_ht (h : yos_pthread_host) (tag : option Z) : option host_thread :=
  match tag with Some t => host_lookup_thread h t | None => default None (h_threads h !! 0%nat) end.

Definition host_pthread_self (h : yos_pthread_host) (tag : option Z) : Z := from_option tid 0 (current_ht h tag).
Definition host_pthread_get_tp (h : yos_pthread_host) (tag : option Z) : Z := from_option tls_arena 0 (current_ht h tag).
Definition yos_pthread_host_get_tls_arena (h : yos_pthread_host) (t : Z) : Z :=
  if WASM3MT_MAX_THREADS <=? t then 0 else from_option tls_arena 0 (host_lookup_thread h t).

(** The key, or [None] when they are used up; the counter moves in both cases. *)
Definition host_pthread_key_create (h : yos_pthread_host) : option Z * yos_pthread_host :=
  let k := next_key h in
  ((if WASM3MT_MAX_TLS_KEYS <=? k then None else Some k), set_next_key (u32 (k + 1)) h).

Definition host_pthread_key_delete (h : yos_pthread_host) (key : Z) : Z * yos_pthread_host := (0, h).

Definition host_pthread_setspecific (h : yos_pthread_host) (tag : option Z) (key value : Z) : Z * yos_pthread_host :=
  if WASM3MT_MAX_TLS_KEYS <=? key then (-1, h)
  else match current_ht h tag with
       | None => (-1, h)
       | Some ht => (0, upd_thread (default 0 tag) (set_tls (<[Z.to_nat key := value]> (tls ht))) h)
       end.

Definition host_pthread_getspecific (h : yos_pthread_host) (tag : option Z) (key : Z) : Z :=
  if WASM3MT_MAX_TLS_KEYS <=? key then 0
  else match current_ht h tag with None => 0 | Some ht => default 0 (tls ht !! Z.to_nat key) end.
