(* ===== verification/ThreadsProps.v ===== *)
(** The thread table stays well formed under every interleaving of the accesses
    to it, pool arenas are disjoint, and a thread that is created and joined leaves the table and
    the guest heap as they were. *)
From S2P Require Import Prelude Memory Ctx Alloc FreeList HeapInv AllocProps AllocThms GuestHeap Threads.

(** * Well-formed tables *)

Section Table.

(** The TLS bases that guests pass to clone (CLONE_SETTLS). *)
Variable given : Z -> Prop.

Definition entry_ok (h : yos_pthread_host) (i : nat) (ht : host_thread) : Prop :=
  tid ht = Z.of_nat i /\ (is_master ht = true <-> i = 0%nat) /\
  Z.of_nat (length (tls ht)) = WASM3MT_MAX_TLS_KEYS /\ (tls_arena ht = slot_arena h (Z.of_nat i) \/ given (tls_arena ht)).

Record table_ok (h : yos_pthread_host) : Prop := {
  to_length : length (h_threads h) = 128%nat;
  to_master : exists m, h_threads h !! 0%nat = Some (Some m);
  to_entries : forall i ht, h_threads h !! i = Some (Some ht) -> entry_ok h i ht;
  to_key : 0 <= next_key h < 4294967296;
  to_pool : 0 <= tls_pool_base h < 4294967296
}.

Lemma create_ok base size : 0 <= base < 4294967296 -> table_ok (yos_pthread_host_create base size).
Proof.
  intros Hb. split; [done|by eexists| |done|done]. intros [|i] ht; cbn [yos_pthread_host_create h_threads lookup list_lookup].
  - intros [= <-]. split_and!; try done. left. unfold master_thread, slot_arena. cbn [tls_arena tls_arena_size tls_pool_base yos_pthread_host_create].
    destruct (Z.eqb_spec size 0); [done|]. rewrite Z.mul_0_l, (u32_small 0) by lia. rewrite Z.add_0_r. by rewrite u32_small.
  - intros H. change (replicate 127 (None : option host_thread) !! i = Some (Some ht)) in H. by apply lookup_replicate in H as [? _].
Qed.

Lemma free_tid_spec h i :
  free_tid h = Some i -> (0 < i)%nat /\ h_threads h !! i = Some None /\ forall j, (0 < j < i)%nat -> exists ht, h_threads h !! j = Some (Some ht).
Proof.
  unfold free_tid. intros H. apply fmap_Some in H as (k & H & ->). apply fmap_Some in H as ([k' o] & H & ->).
  apply list_find_Some in H as (H1 & H2 & H3). cbn [fst] in *. subst o. rewrite lookup_tail in H1. split_and!; [lia|done|].
  intros [|j] Hj; [lia|]. assert (Hlt : (S j < length (h_threads h))%nat).
  { apply lookup_lt_Some in H1. lia. }
  destruct (lookup_lt_is_Some_2 _ _ Hlt) as [o Ho]. destruct o as [ht|]; [by exists ht|]. exfalso.
  apply (H3 j None); [by rewrite lookup_tail|lia|done].
Qed.

Lemma table_set h i o :
  table_ok h -> (0 < i < 128)%nat -> match o with Some ht => entry_ok h i ht | None => True end ->
  table_ok (set_h_threads (<[i := o]> (h_threads h)) h).
Proof.
  intros [H1 [m H2] H3 H4 H5] Hi Ho. split; cbn [h_threads set_h_threads next_key tls_pool_base]; [by rewrite length_insert| |..]; try done.
  - exists m. rewrite list_lookup_insert_ne by lia. done.
  - intros j ht Hj. destruct (decide (i = j)) as [<-|Hne].
    + rewrite list_lookup_insert_eq in Hj by lia. injection Hj as ->. done.
    + rewrite list_lookup_insert_ne in Hj by done. by apply H3.
Qed.

Lemma table_upd h t f :
  table_ok h -> (forall i ht, entry_ok h i ht -> entry_ok h i (f ht)) -> table_ok (upd_thread t f h).
Proof.
  intros [H1 [m H2] H3 H4 H5] Hf. split; cbn [h_threads upd_thread set_h_threads next_key tls_pool_base]; [by rewrite length_alter| |..]; try done.
  - destruct (decide (Z.to_nat t = 0%nat)) as [->|Hne].
    + exists (f m). by rewrite list_lookup_alter_eq, H2.
    + exists m. by rewrite list_lookup_alter_ne.
  - intros j ht Hj. destruct (decide (Z.to_nat t = j)) as [<-|Hne].
    + rewrite list_lookup_alter_eq in Hj. destruct (h_threads h !! Z.to_nat t) as [[h0|]|] eqn:E; try done.
      injection Hj as <-. apply (Hf _ _ (H3 _ _ E)).
    + rewrite list_lookup_alter_ne in Hj by done. by apply H3.
Qed.

Lemma tid_alloc_spec h ht :
  table_ok h ->
  (host_alloc_tid h ht = (-1, h) /\ forall j, (0 < j < 128)%nat -> exists t, h_threads h !! j = Some (Some t)) \/
  exists i, (0 < i < 128)%nat /\ h_threads h !! i = Some None /\ (forall j, (0 < j < i)%nat -> exists t, h_threads h !! j = Some (Some t)) /\
    host_alloc_tid h ht = (Z.of_nat i, set_h_threads (<[i := Some (set_tid (Z.of_nat i) (slot_arena h (Z.of_nat i)) ht)]> (h_threads h)) h).
Proof.
  intros Hok. unfold host_alloc_tid. destruct (free_tid h) as [i|] eqn:E.
  - right. destruct (free_tid_spec _ _ E) as (H1 & H2 & H3). exists i. pose proof (lookup_lt_Some _ _ _ H2). rewrite (to_length _ Hok) in *.
    split_and!; [done|done|done|done|done].
  - left. split; [done|]. intros [|j] Hj; [lia|]. unfold free_tid in E. apply fmap_None, fmap_None in E. rewrite list_find_None in E.
    destruct (lookup_lt_is_Some_2 (h_threads h) (S j)) as [o Ho]; [rewrite (to_length _ Hok); lia|].
    destruct o as [t|]; [by exists t|]. exfalso. rewrite Forall_forall in E. apply (E None); [|done].
    apply list_elem_of_lookup. exists j. by rewrite lookup_tail.
Qed.

Lemma insert_back {A} (l : list A) i x y : l !! i = Some y -> <[i := y]> (<[i := x]> l) = l.
Proof. intros H. rewrite list_insert_insert_eq. by apply list_insert_id. Qed.

Lemma alter_inserted {A} (f : A -> A) l i x : (i < length l)%nat -> alter f i (<[i := x]> l) = <[i := f x]> l.
Proof.
  intros Hi. apply list_eq. intros j. destruct (decide (i = j)) as [<-|Hne].
  - rewrite list_lookup_alter_eq, !list_lookup_insert_eq by done. done.
  - by rewrite list_lookup_alter_ne, !list_lookup_insert_ne.
Qed.

Lemma insert_altered {A} (f : A -> A) (l : list A) (i : nat) x : <[i := x]> (alter f i l) = <[i := x]> l.
Proof.
  apply list_eq. intros j. destruct (decide (i = j)) as [<-|Hne]; [|by rewrite !list_lookup_insert_ne, list_lookup_alter_ne].
  destruct (decide (i < length l)%nat) as [Hi|Hi]; [by rewrite !list_lookup_insert_eq by (rewrite ?length_alter; done)|].
  by rewrite !list_insert_ge, list_lookup_alter_eq, lookup_ge_None_2 by (rewrite ?length_alter; lia).
Qed.

(** What a thread created without a TLS base of its own looks like. *)
Definition started (h : yos_pthread_host) (i : nat) (ht : host_thread) : Prop :=
  entry_ok h i ht /\ os_started ht = true /\ joined ht = false /\ is_master ht = false /\ owned_stack_base ht = 0.

Lemma clone_spec alloc_ok rc h fn_idx arg ctid stack t h' :
  table_ok h -> yos_clone_thread alloc_ok rc h fn_idx arg ctid 0 stack = (t, h') ->
  (t < 0 /\ h' = h) \/
  exists i ht, t = Z.of_nat i /\ (0 < i < 128)%nat /\ h_threads h !! i = Some None /\
    (forall j, (0 < j < i)%nat -> exists u, h_threads h !! j = Some (Some u)) /\
    started h i ht /\ h' = set_h_threads (<[i := Some ht]> (h_threads h)) h.
Proof.
  intros Hok Hc. unfold yos_clone_thread in Hc. destruct alloc_ok; simpl in Hc; [|injection Hc as <- <-; by left].
  destruct (tid_alloc_spec h (HostThread 0 false false false fn_idx arg 0 ctid stack 0 no_tls) Hok) as [[E _]|(i & Hi & Hn & Hlow & E)]; rewrite E in Hc; clear E.
  - injection Hc as <- <-. by left.
  - destruct (Z.ltb_spec (Z.of_nat i) 0); [lia|]. destruct (Z.eqb_spec rc 0) as [->|Hrc]; simpl in Hc; injection Hc as <- <-.
    + right. eexists i, _. split_and!; [done|lia|lia|done|done| |].
      2: { unfold upd_thread. cbn [h_threads set_h_threads]. rewrite Nat2Z.id, alter_inserted by (rewrite (to_length _ Hok); lia). done. }
      split_and!; try done. split_and!; try done; [split; [done|lia]|by left].
    + left. split; [done|]. unfold host_free_thread_slot. destruct (Z.eqb_spec (Z.of_nat i) 0); [lia|].
      destruct (Z.ltb_spec (Z.of_nat i) WASM3MT_MAX_THREADS); [|unfold WASM3MT_MAX_THREADS in *; lia].
      cbn [h_threads set_h_threads]. rewrite Nat2Z.id, insert_back by done. by destruct h.
Qed.

Lemma key_ok h k h' : table_ok h -> host_pthread_key_create h = (k, h') -> table_ok h'.
Proof. intros [H1 H2 H3 H4 H5] [= <- <-]. split; try done. apply u32_range. Qed.

Lemma entry_same h h' i ht : tls_pool_base h' = tls_pool_base h -> tls_arena_size h' = tls_arena_size h -> entry_ok h i ht -> entry_ok h' i ht.
Proof. unfold entry_ok, slot_arena. by intros -> ->. Qed.

Lemma set_ok h tag key value r h' : table_ok h -> host_pthread_setspecific h tag key value = (r, h') -> table_ok h'.
Proof.
  intros Hok. unfold host_pthread_setspecific. destruct (Z.leb_spec WASM3MT_MAX_TLS_KEYS key); [by intros [= <- <-]|].
  destruct (current_ht h tag) as [ht|] eqn:E; [|by intros [= <- <-]]. intros [= <- <-].
  assert (Hl : Z.of_nat (length (tls ht)) = WASM3MT_MAX_TLS_KEYS).
  { assert (exists i, h_threads h !! i = Some (Some ht)) as [i Hi].
    { unfold current_ht, host_lookup_thread in E. destruct tag as [t|]; [destruct (WASM3MT_MAX_THREADS <=? t); [done|]|];
        [destruct (h_threads h !! Z.to_nat t) as [o|] eqn:E'|destruct (h_threads h !! 0%nat) as [o|] eqn:E']; try done; simpl in E; subst o; by eexists. }
    by destruct (to_entries _ Hok _ _ Hi) as (_ & _ & Hl & _). }
  apply table_upd; [done|]. intros i h0 (H1 & H2 & _ & H5). split_and!; [done|done| |done]. cbn [tls set_tls]. by rewrite length_insert.
Qed.

(** * Creation and joining *)

Section Imports.
Context {malloc : exec_ctx -> Z -> Z * exec_ctx} {free : exec_ctx -> Z -> option exec_ctx}.
Context {GH : GuestHeap malloc free}.

Lemma create_spec alloc_ok rc c ps h t_ptr fn_idx arg :
  heap_inv c ps -> table_ok h -> program_word c ps t_ptr ->
  exists r c' h', host_pthread_create malloc free alloc_ok rc c h t_ptr fn_idx arg = Some (r, c', h') /\
   ((r = -1 /\ h' = h /\ heap_inv c' ps) \/
    (r = 0 /\ exists i ht qs, (0 < i < 128)%nat /\ h_threads h !! i = Some None /\
      (forall j, (0 < j < i)%nat -> exists u, h_threads h !! j = Some (Some u)) /\
      entry_ok h i ht /\ os_started ht = true /\ joined ht = false /\ is_master ht = false /\
      h' = set_h_threads (<[i := Some ht]> (h_threads h)) h /\ ld32 (mem c') t_ptr = Z.of_nat i /\
      heap_inv c' (qs ++ ps) /\ (forall x, territory c' x <-> territory c x) /\
      ((owned_stack_base ht = 0 /\ qs = []) \/
       exists p, qs = [p] /\ owned_stack_base ht = r_addr p /\ 0 < r_addr p /\ YOS_L1_THREAD_STACK <= r_len p))).
Proof.
  intros Hi Hok Hw. unfold host_pthread_create.
  assert (Hm : exists base c1 qs, malloc c YOS_L1_THREAD_STACK = (base, c1) /\ heap_inv c1 (qs ++ ps) /\ (forall x, territory c1 x <-> territory c x) /\
    ((base = 0 /\ qs = []) \/ exists p, qs = [p] /\ base = r_addr p /\ 0 < r_addr p /\ YOS_L1_THREAD_STACK <= r_len p)).
  { destruct (gh_malloc c ps YOS_L1_THREAD_STACK Hi ltac:(unfold YOS_L1_THREAD_STACK, MALLOC_MAX; lia)) as [E|(p & c1 & E & H1 & H2 & K)].
    - exists 0, c, []. split_and!; [done|done|done|by left].
    - exists (r_addr p), c1, [p]. split_and!; [done|done|apply K|right; exists p; split_and!; try done].
      destruct (gh_bounds _ _ H2) as (_ & Hb & _). apply Forall_cons in Hb as [[Hb _] _]. done. }
  destruct Hm as (base & c1 & qs & -> & Hi1 & Ht1 & Hqs).
  set (top := if base =? 0 then 0 else _). destruct (yos_clone_thread alloc_ok rc h fn_idx arg 0 0 top) as [t h1] eqn:Hc.
  destruct (clone_spec _ _ _ _ _ _ _ _ _ Hok Hc) as [[Hneg ->]|(i & ht & -> & Hr & Hn & Hlow & (He & Hs & Hjn & Hmst & Ho) & ->)].
  - destruct (Z.ltb_spec t 0); [|lia]. destruct Hqs as [[-> ->]|(p & -> & -> & Hp & _)].
    + simpl. eexists (-1), c1, h. split; [done|]. by left.
    + destruct (Z.eqb_spec (r_addr p) 0); [lia|]. destruct (gh_free c1 p ps Hi1) as (c2 & -> & Hi2 & _). simpl.
      eexists (-1), c2, h. split; [done|]. by left.
  - destruct (Z.ltb_spec (Z.of_nat i) 0); [lia|].
    assert (Hw1 : program_word c1 ps t_ptr) by (intros x Hx; rewrite Ht1; by apply Hw).
    destruct (store_word c1 ps (qs ++ ps) t_ptr (Z.of_nat i) Hi1 ltac:(intros r Hin; apply elem_of_app; by right) Hw1) as [Hi2 Ht2].
    assert (Hld : ld32 (mem (set_mem (st32 (mem c1) t_ptr (Z.of_nat i)) c1)) t_ptr = Z.of_nat i).
    { cbn [mem set_mem]. rewrite ld32_st32. apply u32_small. lia. }
    assert (Ht : forall x, territory (set_mem (st32 (mem c1) t_ptr (Z.of_nat i)) c1) x <-> territory c x) by (intros x; by rewrite Ht2).
    destruct Hqs as [[-> ->]|(p & -> & -> & Hp & Hlen)].
    + simpl (0 =? 0). eexists 0, _, _. split; [done|]. right. split; [done|]. exists i, ht, []. split_and!; try done; [lia|lia|by left].
    + destruct (Z.eqb_spec (r_addr p) 0); [lia|].
      assert (Hlk : host_lookup_thread (set_h_threads (<[i := Some ht]> (h_threads h)) h) (Z.of_nat i) = Some ht).
      { unfold host_lookup_thread, WASM3MT_MAX_THREADS. destruct (Z.leb_spec 128 (Z.of_nat i)); [lia|]. rewrite Nat2Z.id. cbn [h_threads set_h_threads].
        rewrite list_lookup_insert_eq by (rewrite (to_length _ Hok); lia). done. }
      rewrite Hlk. eexists 0, _, _. split; [done|]. right. split; [done|]. exists i, (set_owned_stack (r_addr p) ht), [p].
      split_and!; try done; [lia|lia| |by right; exists p].
      unfold upd_thread. cbn [h_threads set_h_threads]. rewrite Nat2Z.id, alter_inserted by (rewrite (to_length _ Hok); lia). done.
Qed.

Lemma join_spec retval c ps qs h t retval_ptr i ht :
  table_ok h -> heap_inv c (qs ++ ps) -> program_word c ps retval_ptr -> t = Z.of_nat i -> (0 < i < 128)%nat ->
  h_threads h !! i = Some (Some ht) -> os_started ht = true -> joined ht = false ->
  ((owned_stack_base ht = 0 /\ qs = []) \/ exists p, qs = [p] /\ owned_stack_base ht = r_addr p /\ 0 < r_addr p) ->
  exists c', host_pthread_join free retval c h t retval_ptr = Some (0, c', set_h_threads (<[i := None]> (h_threads h)) h) /\ heap_inv c' ps.
Proof.
  intros Hok Hi Hw -> Hr Hlk Hos Hj Hqs. unfold host_pthread_join, join_target, host_lookup_thread, WASM3MT_MAX_THREADS.
  destruct (Z.leb_spec 128 (Z.of_nat i)); [lia|]. rewrite Nat2Z.id, Hlk. cbn [default from_option id].
  destruct (to_entries _ Hok _ _ Hlk) as (_ & Hm & _). rewrite Hj, Hos. destruct (is_master ht) eqn:Em; [exfalso; by destruct Hm as [Hm _]; specialize (Hm eq_refl); lia|].
  cbn [orb negb]. destruct (store_word c ps (qs ++ ps) retval_ptr retval Hi ltac:(intros r Hin; apply elem_of_app; by right) Hw) as [Hi2 _].
  assert (Hfree : host_free_thread_slot (upd_thread (Z.of_nat i) set_joined h) (Z.of_nat i) = set_h_threads (<[i := None]> (h_threads h)) h).
  { unfold host_free_thread_slot, WASM3MT_MAX_THREADS. destruct (Z.eqb_spec (Z.of_nat i) 0); [lia|]. destruct (Z.ltb_spec (Z.of_nat i) 128); [|lia].
    unfold upd_thread. cbn [h_threads set_h_threads]. by rewrite Nat2Z.id, insert_altered. }
  rewrite Hfree. destruct Hqs as [[-> ->]|(p & -> & -> & Hp)].
  - eexists. split; [done|]. done.
  - destruct (Z.eqb_spec (r_addr p) 0); [lia|]. destruct (gh_free _ p ps Hi2) as (c2 & -> & Hi3 & _). by exists c2.
Qed.
End Imports.

(** * Runs *)

(** One access to the table, under [threads_mu] or through the pointer a thread
    holds.  The accesses of calls that run at the same time come in any order,
    and a call may go on with a tid that others have released meanwhile. *)
Inductive pt_step : yos_pthread_host -> yos_pthread_host -> Prop :=
| pt_alloc h fn_idx arg ctid stack t h' :
    host_alloc_tid h (HostThread 0 false false false fn_idx arg 0 ctid stack 0 no_tls) = (t, h') -> pt_step h h'
| pt_settls h t v : 0 < t -> given v -> pt_step h (upd_thread t (set_tls_arena v) h)
| pt_started h t : pt_step h (upd_thread t set_os_started h)
| pt_owned h t s : pt_step h (upd_thread t (set_owned_stack s) h)
| pt_joined h t : pt_step h (upd_thread t set_joined h)
| pt_release h t : 0 <= t -> pt_step h (host_free_thread_slot h t)
| pt_key h k h' : host_pthread_key_create h = (k, h') -> pt_step h h'
| pt_set h tag key value r h' : host_pthread_setspecific h tag key value = (r, h') -> pt_step h h'.

(** The calls are runs of accesses. *)
Lemma alloc_tid_range h ht t h' : host_alloc_tid h ht = (t, h') -> t < 0 \/ 0 < t.
Proof.
  unfold host_alloc_tid. destruct (free_tid h) as [i|] eqn:E; intros [= <- _]; [right|by left].
  unfold free_tid in E. apply fmap_Some in E as (k & _ & ->). lia.
Qed.

Lemma clone_runs alloc_ok rc h fn_idx arg ctid tls stack t h' :
  tls = 0 \/ given tls -> yos_clone_thread alloc_ok rc h fn_idx arg ctid tls stack = (t, h') -> rtc pt_step h h'.
Proof.
  intros Ht. unfold yos_clone_thread. destruct alloc_ok; [|by intros [= _ <-]]. cbn [negb].
  destruct (host_alloc_tid h _) as [i h1] eqn:E. pose proof (alloc_tid_range _ _ _ _ E) as Hr. apply pt_alloc in E.
  destruct (Z.ltb_spec i 0); [by intros [= _ <-]; apply rtc_once|]. destruct Hr as [?|Hr]; [lia|].
  set (h2 := if tls =? 0 then _ else _). assert (H2 : rtc pt_step h h2).
  { eapply rtc_l; [exact E|]. unfold h2. destruct (Z.eqb_spec tls 0); [done|]. apply rtc_once, pt_settls; [done|by destruct Ht]. }
  destruct (negb (rc =? 0)); intros [= _ <-]; (eapply rtc_r; [exact H2|]); [apply pt_release; lia|apply pt_started].
Qed.

Lemma create_runs malloc free alloc_ok rc c h t_ptr fn_idx arg r c' h' :
  host_pthread_create malloc free alloc_ok rc c h t_ptr fn_idx arg = Some (r, c', h') -> rtc pt_step h h'.
Proof.
  unfold host_pthread_create. destruct (malloc c YOS_L1_THREAD_STACK) as [base c1].
  set (top := if base =? 0 then 0 else _). destruct (yos_clone_thread alloc_ok rc h fn_idx arg 0 0 top) as [t h1] eqn:E.
  apply clone_runs in E; [|by left]. destruct (t <? 0).
  - destruct (if base =? 0 then Some c1 else free c1 base) as [c2|]; [|done]. by intros [= <- <- <-].
  - intros [= <- <- <-]. destruct (base =? 0); [done|]. destruct (host_lookup_thread h1 t); [|done]. eapply rtc_r; [exact E|apply pt_owned].
Qed.

Lemma join_runs free retval c h t retval_ptr r c' h' :
  0 <= t -> host_pthread_join free retval c h t retval_ptr = Some (r, c', h') -> rtc pt_step h h'.
Proof.
  intros Ht. unfold host_pthread_join. destruct (join_target h t) as [ht|]; [|by intros [= _ _ <-]].
  destruct (if owned_stack_base ht =? 0 then _ else _) as [c2|]; [|done]. intros [= _ _ <-].
  eapply rtc_l; [apply pt_joined|]. by apply rtc_once, pt_release.
Qed.

Lemma pt_step_ok h h' : table_ok h -> pt_step h h' -> table_ok h'.
Proof.
  intros Hok Hs. destruct Hs as [h fn_idx arg ctid stack t h' E|h t v Ht Hv|h t|h t s|h t|h t Ht|h k h' E|h tag key value r h' E].
  - destruct (tid_alloc_spec h (HostThread 0 false false false fn_idx arg 0 ctid stack 0 no_tls) Hok) as [[E' _]|(i & Hi & _ & _ & E')];
      rewrite E' in E; injection E as _ <-; [done|]. apply table_set; [done|lia|]. split_and!; [done|split; [done|simpl; lia]|done|by left].
  - apply table_upd; [done|]. intros j ht (H1 & H2 & H3 & _). split_and!; [done..|by right].
  - apply table_upd; [done|]. intros j ht H. exact H.
  - apply table_upd; [done|]. intros j ht H. exact H.
  - apply table_upd; [done|]. intros j ht H. exact H.
  - unfold host_free_thread_slot, WASM3MT_MAX_THREADS. destruct (Z.eqb_spec t 0); [done|]. destruct (Z.ltb_spec t 128); [|done].
    apply table_set; [done|lia|done].
  - by eapply key_ok.
  - by eapply set_ok.
Qed.

Lemma step_pool h h' : pt_step h h' -> tls_pool_base h' = tls_pool_base h /\ tls_arena_size h' = tls_arena_size h.
Proof.
  intros [? ? ? ? ? t ? E|? ? ? ? ?|? ?|? ? ?|? ?|? t ?|? ? ? E|? tag key ? ? ? E]; try done.
  - unfold host_alloc_tid in E. destruct (free_tid _); by injection E as _ <-.
  - unfold host_free_thread_slot. by destruct (t =? 0), (t <? WASM3MT_MAX_THREADS).
  - by injection E as _ <-.
  - unfold host_pthread_setspecific in E. destruct (WASM3MT_MAX_TLS_KEYS <=? key); [by injection E as _ <-|]. destruct (current_ht _ tag); by injection E as _ <-.
Qed.

Lemma runs_ok h h' : table_ok h -> rtc pt_step h h' ->
  table_ok h' /\ tls_pool_base h' = tls_pool_base h /\ tls_arena_size h' = tls_arena_size h.
Proof.
  intros Hok. induction 1 as [|h1 h2 h3 Hs _ IH]; [done|]. destruct (step_pool _ _ Hs) as [<- <-]. apply IH. by eapply pt_step_ok.
Qed.

Lemma arenas_apart h i j ti tj :
  table_ok h -> 0 < tls_arena_size h -> tls_pool_base h + 128 * tls_arena_size h <= 4294967296 -> i <> j ->
  h_threads h !! i = Some (Some ti) -> h_threads h !! j = Some (Some tj) -> ~ given (tls_arena ti) -> ~ given (tls_arena tj) ->
  disjoint_r (Region (tls_arena ti) (tls_arena_size h)) (Region (tls_arena tj) (tls_arena_size h)).
Proof.
  intros Hok Hs Hp Hne Hi Hj Gi Gj. destruct (to_entries _ Hok _ _ Hi) as (_ & _ & _ & [->|?]); [|done].
  destruct (to_entries _ Hok _ _ Hj) as (_ & _ & _ & [->|?]); [|done].
  pose proof (lookup_lt_Some _ _ _ Hi). pose proof (lookup_lt_Some _ _ _ Hj). rewrite (to_length _ Hok) in *. pose proof (to_pool _ Hok).
  assert (Ha : forall k, (k < 128)%nat -> slot_arena h (Z.of_nat k) = tls_pool_base h + Z.of_nat k * tls_arena_size h).
  { intros k Hk. unfold slot_arena. destruct (Z.eqb_spec (tls_arena_size h) 0); [lia|]. rewrite (u32_small (Z.of_nat k * _)) by nia. apply u32_small. nia. }
  rewrite !Ha by done. unfold disjoint_r, r_end. cbn [r_addr r_len].
  assert (Z.of_nat i < Z.of_nat j \/ Z.of_nat j < Z.of_nat i) as [Hlt|Hlt] by lia; [left|right]; nia.
Qed.

(** C34: The thread table.  Under every interleaving of the accesses that
    creating, cloning, joining, keying and setting make, and whatever the host
    answers, the table keeps its shape: 128 slots, the master and only the
    master in slot 0, every thread under its own tid with 64 keys, and the TLS
    arena of its slot or one its creator passed with CLONE_SETTLS.  A pool with
    arenas that fits in the address space gives two live threads disjoint
    arenas, CLONE_SETTLS apart.  Without a pool (size 0, which is what the
    program passes) every arena that was not given is 0: all threads of a
    process share it. *)
Theorem thread_table_well_formed base size h :
  0 <= base < 4294967296 -> rtc pt_step (yos_pthread_host_create base size) h ->
  table_ok h /\
  (0 < size -> base + 128 * size <= 4294967296 -> forall i j ti tj, i <> j ->
    h_threads h !! i = Some (Some ti) -> h_threads h !! j = Some (Some tj) -> ~ given (tls_arena ti) -> ~ given (tls_arena tj) ->
    disjoint_r (Region (tls_arena ti) size) (Region (tls_arena tj) size)) /\
  (size = 0 -> forall i ti, h_threads h !! i = Some (Some ti) -> tls_arena ti = 0 \/ given (tls_arena ti)).
Proof.
  intros Hb Hr. destruct (runs_ok _ _ (create_ok base size Hb) Hr) as (Hok & Eb & Es).
  cbn [yos_pthread_host_create tls_pool_base tls_arena_size] in Eb, Es. split_and!; [done| |].
  - rewrite <-Eb, <-Es. intros Hs Hp i j ti tj Hne Hi Hj Gi Gj. by apply (arenas_apart h i j).
  - intros -> i ti Hi. destruct (to_entries _ Hok _ _ Hi) as (_ & _ & _ & [->|?]); [left|by right]. unfold slot_arena. by rewrite Es.
Qed.
End Table.

Section Roundtrip.
Context {malloc : exec_ctx -> Z -> Z * exec_ctx} {free : exec_ctx -> Z -> option exec_ctx}.
Context {GH : GuestHeap malloc free}.
Abbreviation table_ok := (table_ok (fun _ => False)).

(** pthread_create and pthread_join.  A create either fails with the table
    and the heap as they were, or takes the lowest free tid, stores it, and
    gives the thread a stack in a heap block of its own when there was memory;
    joining that tid then gives the stack back and leaves the table exactly as
    before the create. *)
Theorem create_join_roundtrip alloc_ok rc c ps h t_ptr fn_idx arg retval retval_ptr :
  heap_inv c ps -> table_ok h -> program_word c ps t_ptr -> program_word c ps retval_ptr ->
  exists r c1 h1, host_pthread_create malloc free alloc_ok rc c h t_ptr fn_idx arg = Some (r, c1, h1) /\
    ((r = -1 /\ h1 = h /\ heap_inv c1 ps) \/
     (r = 0 /\ exists i, (0 < i < 128)%nat /\ h_threads h !! i = Some None /\
        (forall j, (0 < j < i)%nat -> h_threads h !! j <> Some None) /\ ld32 (mem c1) t_ptr = Z.of_nat i /\
        exists c2, host_pthread_join free retval c1 h1 (Z.of_nat i) retval_ptr = Some (0, c2, h) /\ heap_inv c2 ps)).
Proof.
  intros Hi Hok Hw Hw2. destruct (create_spec _ alloc_ok rc c ps h t_ptr fn_idx arg Hi Hok Hw) as (r & c1 & h1 & -> & H).
  exists r, c1, h1. split; [done|]. destruct H as [H|(-> & i & ht & qs & Hr & Hn & Hlow & He & Hs & Hjn & Hm & -> & Hld & Hi1 & Ht1 & Hqs)]; [by left|right].
  split; [done|]. exists i. split_and!; [lia|lia|done| |done|].
  { intros j Hj. destruct (Hlow j Hj) as [u ->]. done. }
  assert (Hw1 : program_word c1 ps retval_ptr) by (intros x Hx; rewrite Ht1; by apply Hw2).
  destruct (join_spec (fun _ => False) retval c1 ps qs (set_h_threads (<[i := Some ht]> (h_threads h)) h) (Z.of_nat i) retval_ptr i ht) as (c2 & H2 & Hi2); try done.
  - by apply table_set.
  - cbn [h_threads set_h_threads]. rewrite list_lookup_insert_eq by (rewrite (to_length _ _ Hok); lia). done.
  - destruct Hqs as [?|(p & ? & ? & ? & _)]; [by left|right; by exists p].
  - exists c2. split; [|done]. rewrite H2. do 3 f_equal. cbn [h_threads set_h_threads]. rewrite insert_back by done. by destruct h.
Qed.
End Roundtrip.

(** * Witnesses *)

Definition one_master : yos_pthread_host := yos_pthread_host_create 8192 64.

Lemma one_master_ok given : table_ok given one_master.
Proof. by apply create_ok. Qed.

(** The host of the program, without a pool: a guest's clone with a TLS base of
    its own, and the creation of a second thread. *)
Definition cloned : yos_pthread_host := (yos_clone_thread true 0 (yos_pthread_host_create 0 0) 7 8 0 4096 65536).2.

Lemma thread_table_well_formed_witness :
  exists r c h, host_pthread_create yos_malloc yos_free true 0 heap1 cloned 1024 1 2 = Some (r, c, h) /\
    (forall i ti, h_threads h !! i = Some (Some ti) -> tls_arena ti = 0 \/ tls_arena ti = 4096).
Proof.
  assert (Hr : rtc (pt_step (fun v => v = 4096)) (yos_pthread_host_create 0 0) cloned)
    by (apply (clone_runs _ true 0 _ 7 8 0 4096 65536 1); [by right|done]).
  destruct (create_spec _ true 0 heap1 _ cloned 1024 1 2 heap1_inv (proj1 (runs_ok _ _ _ (create_ok _ 0 0 ltac:(lia)) Hr)) (heap1_word _))
    as (r & c & h & E & _).
  exists r, c, h. split; [exact E|].
  assert (Hr2 : rtc (pt_step (fun v => v = 4096)) (yos_pthread_host_create 0 0) h) by (etrans; [exact Hr|exact (create_runs _ _ _ _ _ _ _ _ _ _ _ _ _ E)]).
  exact (proj2 (proj2 (thread_table_well_formed (fun v => v = 4096) 0 0 h ltac:(lia) Hr2)) eq_refl).
Defined.

Lemma create_join_roundtrip_witness :
  exists r c h, host_pthread_create yos_malloc yos_free true 0 heap1 one_master 1024 1 2 = Some (r, c, h) /\ (r = -1 \/ r = 0).
Proof.
  destruct (create_join_roundtrip true 0 heap1 _ one_master 1024 1 2 5 1024 heap1_inv (one_master_ok _) (heap1_word _) (heap1_word _))
    as (r & c & h & E & H). exists r, c, h. split; [exact E|]. destruct H as [[H _]|[H _]]; [left|right]; exact H.
Defined.
