(* ===== verification/Getopt.v ===== *)
(** The option parser of a guest (src/src/yos/impl/libc/getopt.c): the state
    that libc keeps in globals lives in the context, except the position inside
    the current argument, which is one per host thread.

    The messages on stderr are left out.  An option string that no NUL ends
    inside linear memory makes an operation [None]; an argument's bytes past the
    end of linear memory read as 0. *)
From S2P Require Import Prelude Memory Ctx CString.

Record getopt_ctx : Type := GetoptCtx {
  g_exec_ : exec_ctx;
  optind : Z;
  optarg_off : Z;
  optopt : Z;
  opterr : Z;
  nextchar : Z
}.

Definition set_optind (i k : Z) (g : getopt_ctx) : getopt_ctx :=
  GetoptCtx (g_exec_ g) i (optarg_off g) (optopt g) (opterr g) k.
Definition set_optarg (o : Z) (g : getopt_ctx) : getopt_ctx :=
  GetoptCtx (g_exec_ g) (optind g) o (optopt g) (opterr g) (nextchar g).
Definition set_optopt (c : Z) (g : getopt_ctx) : getopt_ctx :=
  GetoptCtx (g_exec_ g) (optind g) (optarg_off g) c (opterr g) (nextchar g).

Definition COLON : Z := 58.
Definition DASH : Z := 45.
Definition PLUS : Z := 43.
Definition QUESTION : Z := 63.

Definition argv_fits (c : exec_ctx) (argv_off i : Z) : bool :=
  negb (argv_off =? 0) && (argv_off + (i + 1) * 4 <=? memory_size c).

Definition _argv_str_off (c : exec_ctx) (argv_off i : Z) : Z :=
  if argv_fits c argv_off i then ld32 (mem c) (argv_off + u32 (i * 4)) else 0.

(** The string's offset, or null. *)
Definition _argv_str (c : exec_ctx) (argv_off i : Z) : option Z :=
  let s_off := _argv_str_off c argv_off i in
  if negb (argv_fits c argv_off i) || (s_off =? 0) || (memory_size c <=? s_off) then None else Some s_off.

Fixpoint strchr (s : bytes) (c : Z) : option bytes :=
  match s with [] => None | b :: s' => if b =? c then Some s else strchr s' c end.

(** A leading colon, plus or dash of the option string is no option. *)
Definition skip_prefix (s : bytes) : bytes :=
  match s with b :: s' => if (b =? COLON) || (b =? PLUS) || (b =? DASH) then s' else s | [] => [] end.

Definition optstring_of (c : exec_ctx) (off : Z) : option bytes := if off =? 0 then Some [] else cstr c off.

Section Getopt.
Variables argc argv_off optstring_off : Z.

(** The character [c] of the argument at [arg], [nextchar] being past it. *)
Definition option_char (optstring : bytes) (arg c : Z) (g : getopt_ctx) : Z * getopt_ctx :=
  match strchr (skip_prefix optstring) c with
  | None => (QUESTION, set_optopt c g)
  | Some p =>
      if nth 1 p 0 =? COLON then
        if negb (ld8 (mem (g_exec_ g)) (arg + nextchar g) =? 0) then
          (c, set_optind (optind g + 1) 0 (set_optarg (u32 (_argv_str_off (g_exec_ g) argv_off (optind g) + nextchar g)) g))
        else
          let g1 := set_optind (optind g + 1) 0 g in
          if argc <=? optind g1 then
            (if nth 0 optstring 0 =? COLON then COLON else QUESTION, set_optarg 0 (set_optopt c g1))
          else (c, set_optind (optind g1 + 1) 0 (set_optarg (_argv_str_off (g_exec_ g1) argv_off (optind g1)) g1))
      else (c, g)
  end.

(** From the test on [_nextchar] to the first character: [inl] is the return of
    -1, [inr] goes on. *)
Definition open_element (g : getopt_ctx) : getopt_ctx + getopt_ctx :=
  if negb (nextchar g =? 0) then inr g
  else match _argv_str (g_exec_ g) argv_off (optind g) with
       | None => inl g
       | Some arg =>
           let at_ k := ld8 (mem (g_exec_ g)) (arg + k) in
           if negb (at_ 0 =? DASH) || (at_ 1 =? 0) then inl g
           else if (at_ 0 =? DASH) && (at_ 1 =? DASH) && (at_ 2 =? 0) then inl (set_optind (optind g + 1) (nextchar g) g)
           else inr (set_optind (optind g) 1 g)
       end.

(** From the second fetch of the argument on; [inr] is the call of itself. *)
Definition take_letter (optstring : bytes) (g : getopt_ctx) : (Z * getopt_ctx) + getopt_ctx :=
  match _argv_str (g_exec_ g) argv_off (optind g) with
  | None => inl (-1, g)
  | Some arg =>
      let c := ld8 (mem (g_exec_ g)) (arg + nextchar g) in
      if c =? 0 then inr (set_optind (optind g + 1) 0 g)
      else inl (option_char optstring arg c (set_optind (optind g) (nextchar g + 1) g))
  end.

(** The first-call initialisation. *)
Definition getopt_init (g : getopt_ctx) : getopt_ctx :=
  let g1 := if optind g <=? 0 then set_optind 1 (nextchar g) g else g in
  if optind g1 =? 1 then set_optind 1 0 g1 else g1.

(** One activation of [yos_getopt]: a result, or [inr] for its call of itself. *)
Definition getopt_once (g0 : getopt_ctx) : option ((Z * getopt_ctx) + getopt_ctx) :=
  let g := getopt_init g0 in
  optstring ← optstring_of (g_exec_ g) optstring_off;
  Some (if argc <=? optind g then inl (-1, g)
        else match open_element g with
             | inl g' => inl (-1, g')
             | inr g' => take_letter optstring g'
             end).

(** [yos_getopt] calls itself at the end of an element; the fuel is the depth of
    the calls, and two activations are enough. *)
Fixpoint getopt_go (fuel : nat) (g : getopt_ctx) : option (Z * getopt_ctx) :=
  match fuel with
  | O => None
  | S f =>
      match getopt_once g with
      | None => None
      | Some (inl r) => Some r
      | Some (inr g') => getopt_go f g'
      end
  end.

Definition yos_getopt (g : getopt_ctx) : option (Z * getopt_ctx) := getopt_go 2 g.
End Getopt.

Definition yos_getopt_optind_get (g : getopt_ctx) : Z := optind g.
Definition yos_getopt_optind_set (g : getopt_ctx) (v : Z) : getopt_ctx := set_optind v (if v <=? 1 then 0 else nextchar g) g.
Definition yos_getopt_optarg_get (g : getopt_ctx) : Z := optarg_off g.
Definition yos_getopt_optopt_get (g : getopt_ctx) : Z := optopt g.
Definition yos_getopt_opterr_get (g : getopt_ctx) : Z := opterr g.
Definition yos_getopt_opterr_set (g : getopt_ctx) (v : Z) : getopt_ctx :=
  GetoptCtx (g_exec_ g) (optind g) (optarg_off g) (optopt g) v (nextchar g).
