(* ===== verification/GetoptProps.v ===== *)
(** The option parser against a grammar: the command line of a guest parsed as
    a list, without cursors, is what the calls of yos_getopt report one by one,
    and the calls come to an end. *)
From S2P Require Import Prelude Memory Ctx CString Getopt.

(** * The grammar *)

(** The options of a program, each with whether it takes an argument. *)
Definition options : Type := list (Z * bool).

(** The option string that describes them; a leading colon asks for the quiet
    reporting of a missing argument. *)
Definition letters (opts : options) : bytes := flat_map (fun o => if o.2 : bool then [o.1; COLON] else [o.1]) opts.
Definition optstring_for (quiet : bool) (opts : options) : bytes :=
  if quiet then COLON :: letters opts else letters opts.

Fixpoint takes (opts : options) (c : Z) : option bool :=
  match opts with [] => None | (o, t) :: opts' => if o =? c then Some t else takes opts' c end.

Inductive event : Type :=
  | Flag (c : Z)                (** an option without argument *)
  | Argument (c off : Z)        (** an option with its argument *)
  | Unknown (c : Z)
  | Missing (c : Z).

(** An argument of the program: its offset and its characters. *)
Definition arg : Type := Z * bytes.
Definition outcome : Type := list event * list arg.
Definition report (e : event) (o : outcome) : outcome := (e :: o.1, o.2).

Section Grammar.
Variable opts : options.

(** The letters [cs] of an element, the first at offset [a]: [here] parses the
    arguments [more] after the element and [next] those after their first. *)
Fixpoint cluster (here next : outcome) (more : list arg) (a : Z) (cs : bytes) : outcome :=
  match cs with
  | [] => here
  | c :: cs' =>
      match takes opts c with
      | None => report (Unknown c) (cluster here next more (a + 1) cs')
      | Some false => report (Flag c) (cluster here next more (a + 1) cs')
      | Some true =>
          match cs', more with
          | _ :: _, _ => report (Argument c (a + 1)) here
          | [], [] => ([Missing c], [])
          | [], (o, _) :: _ => report (Argument c o) next
          end
      end
  end.

Definition is_element (s : bytes) : bool :=
  match s with d :: _ :: _ => d =? DASH | _ => false end.

(** The events of a command line and the operands that are left. *)
Fixpoint parse (args : list arg) : outcome :=
  match args with
  | [] => ([], [])
  | (off, s) :: more =>
      if is_element s then
        if bool_decide (s = [DASH; DASH]) then ([], more)
        else cluster (parse more) (match more with [] => ([], []) | _ :: more' => parse more' end) more (off + 1) (tail s)
      else ([], args)
  end.
End Grammar.

(** A colon that was never declared as a letter does not occur as one. *)
Definition no_colon (o : outcome) : Prop := Unknown COLON ∉ o.1.

(** The first argument does not start with an option that leaves the cursor
    inside it. *)
Definition leads (opts : options) (args : list arg) : Prop :=
  match args with
  | (_, s) :: _ => is_element s = true -> s <> [DASH; DASH] -> takes opts (nth 1 s 0) = Some true
  | [] => True
  end.

(** What the guest sees of an event: the result of the call, then [optarg] and
    [optopt] where the event sets them. *)
Definition shows (quiet : bool) (e : event) (a : Z * getopt_ctx) : Prop :=
  match e with
  | Flag c => a.1 = c
  | Argument c off => a.1 = c /\ optarg_off a.2 = off
  | Unknown c => a.1 = QUESTION /\ optopt a.2 = c
  | Missing c => a.1 = (if quiet then COLON else QUESTION) /\ optopt a.2 = c /\ optarg_off a.2 = 0
  end.

(** The loop of a guest, [while ((c = getopt(...)) != -1)], for at most [n]
    calls: every answer, and the state after the final -1. *)
Fixpoint answers (call : getopt_ctx -> option (Z * getopt_ctx)) (n : nat) (g : getopt_ctx)
  : option (list (Z * getopt_ctx) * getopt_ctx) :=
  match n with
  | O => None
  | S n' =>
      '(r, g') ← call g;
      if r =? -1 then Some ([], g') else '(l, g2) ← answers call n' g'; Some ((r, g') :: l, g2)
  end.

(** The answers of [n] calls in a row, -1 or not. *)
Fixpoint calls (call : getopt_ctx -> option (Z * getopt_ctx)) (n : nat) (g : getopt_ctx) : option (list (Z * getopt_ctx)) :=
  match n with
  | O => Some []
  | S n' => a ← call g; cons a <$> calls call n' a.2
  end.

(** * Option strings *)

(** Letters a program may use: the three marks are taken by the option string. *)
Definition plain (opts : options) : Prop :=
  Forall (fun o => byte_ok o.1 /\ o.1 <> COLON /\ o.1 <> PLUS /\ o.1 <> DASH) opts.

Lemma skip_prefix_optstring quiet opts : plain opts -> skip_prefix (optstring_for quiet opts) = letters opts.
Proof.
  destruct quiet; [done|]. intros [|[c t] l (_ & H1 & H2 & H3) _]; [done|]. simpl in *.
  destruct t; simpl; by rewrite !(proj2 (Z.eqb_neq c _)).
Qed.

Lemma optstring_quiet quiet opts : plain opts -> (nth 0 (optstring_for quiet opts) 0 =? COLON) = quiet.
Proof.
  destruct quiet; [done|]. intros [|[c t] l (_ & H1 & _) _]; [done|]. simpl in *.
  by destruct t; apply Z.eqb_neq.
Qed.

Lemma letters_cons o t l : letters ((o, t) :: l) = o :: (if t : bool then COLON :: letters l else letters l).
Proof. by destruct t. Qed.

(** [strchr] on an option string is the lookup of the letter. *)
Lemma strchr_letters opts c :
  plain opts -> c <> COLON ->
  match takes opts c with
  | None => strchr (letters opts) c = None
  | Some t => exists p, strchr (letters opts) c = Some p /\ (nth 1 p 0 =? COLON) = t
  end.
Proof.
  intros Hp Hc. induction Hp as [|[o t] l (Ho & H1 & _) Hl IH]; [done|]. rewrite letters_cons. cbn [takes strchr fst] in *.
  destruct (Z.eqb_spec o c) as [->|Hne].
  - eexists. split; [done|]. destruct t; [done|]. exact (optstring_quiet false l Hl).
  - destruct t; cbn [strchr]; [|exact IH]. by rewrite (proj2 (Z.eqb_neq COLON c)).
Qed.

Lemma takes_letter opts c t : plain opts -> takes opts c = Some t -> c <> COLON.
Proof.
  induction 1 as [|[o b] l (_ & Ho & _) _ IH]; [done|]. simpl in *. by destruct (Z.eqb_spec o c) as [->|].
Qed.

Lemma no_colon_report e o : no_colon (report e o) -> e <> Unknown COLON /\ no_colon o.
Proof. unfold no_colon. simpl. rewrite not_elem_of_cons. by intros [? ?]. Qed.

(** * Termination of a call *)

Lemma init_start g : nextchar g = 0 -> nextchar (getopt_init g) = 0.
Proof. intros H. unfold getopt_init. destruct (optind g <=? 0); simpl; [|destruct (optind g =? 1)]; done. Qed.

Lemma init_exec g : g_exec_ (getopt_init g) = g_exec_ g.
Proof. unfold getopt_init. destruct (optind g <=? 0); simpl; [|destruct (optind g =? 1)]; done. Qed.

(** At the start of an element there is a letter to take. *)
Lemma start_takes_letter argc argv_off optstring g g' :
  nextchar g = 0 -> open_element argv_off g = inr g' -> exists a, take_letter argc argv_off optstring g' = inl a.
Proof.
  unfold open_element, take_letter. intros ->. cbn [Z.eqb negb].
  destruct (_argv_str _ _ _) as [o|] eqn:Ho; [|done].
  destruct (negb _ || (ld8 _ (o + 1) =? 0)) eqn:E; [done|]. destruct (_ && _ && _); intros [= <-].
  cbn [g_exec_ set_optind optind nextchar]. rewrite Ho. apply orb_false_iff in E as [_ ->]. by eexists.
Qed.

(** A call that starts an element does not call itself. *)
Lemma once_start argc argv_off optstring_off g s :
  nextchar g = 0 -> optstring_of (g_exec_ g) optstring_off = Some s ->
  exists a, getopt_once argc argv_off optstring_off g = Some (inl a).
Proof.
  intros Hn Hs. unfold getopt_once. rewrite init_exec, Hs. cbn. destruct (_ <=? _); [by eexists|].
  destruct (open_element _ _) eqn:E; [by eexists|].
  destruct (start_takes_letter argc _ s _ _ (init_start _ Hn) E) as (a & ->). by eexists.
Qed.

(** The call of itself starts an element, with the same memory. *)
Lemma once_again argc argv_off optstring_off g g' :
  getopt_once argc argv_off optstring_off g = Some (inr g') -> nextchar g' = 0 /\ g_exec_ g' = g_exec_ g.
Proof.
  unfold getopt_once. destruct (optstring_of _ _); [|done]. cbn. destruct (_ <=? _); [done|].
  destruct (open_element _ _) as [|g1] eqn:E; [done|]. unfold take_letter.
  destruct (_argv_str _ _ _); [|done]. destruct (_ =? 0); [|done]. intros [= <-]. split; [done|]. simpl.
  rewrite <-(init_exec g). unfold open_element in E. destruct (negb _); [by simplify_eq|].
  destruct (_argv_str _ _ _); [|done]. by repeat (case_match; simplify_eq/=).
Qed.

Section Calls.
Variables (x : exec_ctx) (argc argv_off optstring_off : Z) (quiet : bool) (opts : options).

(** [args] are the arguments of the vector from index [i] on. *)
Fixpoint argv_from (i : Z) (args : list arg) : Prop :=
  match args with
  | [] => i = argc
  | (off, s) :: more =>
      ld32 (mem x) (argv_off + i * 4) = off /\ 0 < off /\ off + blen s < memory_size x /\ str_at (mem x) off s /\
      argv_from (i + 1) more
  end.

Record vector_ok : Prop := VectorOk {
  vo_argv : 0 < argv_off;
  vo_fits : argv_off + argc * 4 <= memory_size x;
  vo_size : memory_size x <= 4294967296;
  vo_plain : plain opts;
  vo_off : 0 < optstring_off;
  vo_end : optstring_off + blen (optstring_for quiet opts) < memory_size x;
  vo_str : str_at (mem x) optstring_off (optstring_for quiet opts)
}.

Hypothesis V : vector_ok.

Definition at_ (i k : Z) (g : getopt_ctx) : Prop := g_exec_ g = x /\ optind g = i /\ nextchar g = k.

Abbreviation call := (yos_getopt argc argv_off optstring_off).

Lemma optstring_read : optstring_of x optstring_off = Some (optstring_for quiet opts).
Proof.
  destruct V as [_ _ _ _ H1 H2 H3]. unfold optstring_of. destruct (Z.eqb_spec optstring_off 0); [lia|]. by apply str_at_cstr.
Qed.

Lemma argv_from_length i args : argv_from i args -> i + Z.of_nat (length args) = argc.
Proof.
  revert i. induction args as [|[o s] l IH]; intros i; simpl; [lia|]. intros (_ & _ & _ & _ & H). apply IH in H. lia.
Qed.

Lemma argv_read i off s more :
  0 <= i -> argv_from i ((off, s) :: more) ->
  _argv_str x argv_off i = Some off /\ _argv_str_off x argv_off i = off /\ i < argc.
Proof.
  intros Hi H. apply argv_from_length in H as Hl. simpl length in Hl. destruct H as (H & H1 & H2 & _), V as [V1 V2 V3 _ _ _ _].
  pose proof (blen_nonneg s). unfold _argv_str, _argv_str_off, argv_fits.
  rewrite (proj2 (Z.eqb_neq argv_off 0)), (proj2 (Z.leb_le _ _)) by lia. cbn [negb andb orb].
  rewrite u32_small, H, (proj2 (Z.eqb_neq off 0)), (proj2 (Z.leb_gt _ _)) by lia. cbn. split_and!; [done|done|lia].
Qed.

Lemma set_optind_at i k k' g : set_optind i k (set_optind i k' g) = set_optind i k g.
Proof. done. Qed.

Lemma set_optind_id i k g : at_ i k g -> set_optind i k g = g.
Proof. destruct g. unfold at_. simpl. by intros (-> & -> & ->). Qed.

(** Where a call starts: inside the element, or at its dash. *)
Definition enters (i k0 k : Z) (s : bytes) : Prop :=
  (k0 = k /\ 2 <= i /\ 1 <= k) \/ (k = 1 /\ (k0 = 0 \/ i = 1) /\ is_element s = true /\ s <> [DASH; DASH]).

Lemma dashes d e s :
  bool_decide (d :: e :: s = [DASH; DASH]) = (d =? DASH) && (e =? DASH) && match s with [] => true | _ => false end.
Proof.
  destruct (Z.eqb_spec d DASH) as [->|], (Z.eqb_spec e DASH) as [->|], s; cbn [andb];
    (apply bool_decide_eq_true_2 || apply bool_decide_eq_false_2); congruence.
Qed.

Lemma open_at g i off s more :
  at_ i 0 g -> 0 <= i -> argv_from i ((off, s) :: more) ->
  open_element argv_off g =
    (if is_element s then if bool_decide (s = [DASH; DASH]) then inl (set_optind (i + 1) 0 g) else inr (set_optind i 1 g)
     else inl g).
Proof.
  intros (H1 & H2 & H3) Hi Ha. destruct (argv_read _ _ _ _ Hi Ha) as (Hs & _). destruct Ha as (_ & _ & _ & Hstr & _).
  unfold open_element. rewrite H3, H2, H1. cbn [Z.eqb negb]. rewrite Hs, Z.add_0_r, (str_at_head _ _ _ Hstr).
  destruct s as [|d [|e s]]; simpl; [done| |].
  - apply str_at_cons in Hstr as (_ & _ & H%str_at_head). rewrite H. simpl. by rewrite orb_true_r.
  - apply str_at_cons in Hstr as (_ & _ & Hstr). rewrite (str_at_head _ _ _ Hstr).
    apply str_at_cons in Hstr as (_ & He & Hstr). replace (off + 1 + 1) with (off + 2) in Hstr by lia.
    rewrite (str_at_head _ _ _ Hstr), dashes. cbn [hd is_element]. rewrite (proj2 (Z.eqb_neq e 0)) by (unfold byte_ok in He; lia).
    rewrite orb_false_r. destruct (d =? DASH); [|done]. cbn [negb andb]. destruct (e =? DASH); [|done].
    destruct s as [|b s]; [done|]. apply str_at_cons in Hstr as (_ & Hb & _). cbn [hd andb].
    by rewrite (proj2 (Z.eqb_neq b 0)) by (unfold byte_ok in Hb; lia).
Qed.

Lemma init_at g i k : at_ i k g -> 1 <= i -> getopt_init g = set_optind i (if i =? 1 then 0 else k) g.
Proof.
  intros (H1 & H2 & H3) Hi. unfold getopt_init. rewrite H2, (proj2 (Z.leb_gt i 0)) by lia. rewrite H2.
  destruct (Z.eqb_spec i 1) as [->|]; [done|]. by rewrite set_optind_id.
Qed.

Lemma once_at g i k off s more :
  at_ i k g -> 1 <= i -> argv_from i ((off, s) :: more) ->
  getopt_once argc argv_off optstring_off g =
    Some (match open_element argv_off (set_optind i (if i =? 1 then 0 else k) g) with
          | inl g' => inl (-1, g')
          | inr g' => take_letter argc argv_off (optstring_for quiet opts) g'
          end).
Proof.
  intros Hg Hi Ha. destruct (argv_read i off s more ltac:(lia) Ha) as (_ & _ & Hlt).
  unfold getopt_once. rewrite (init_at _ _ _ Hg Hi). destruct Hg as (H1 & H2 & H3).
  cbn [g_exec_ set_optind optind]. rewrite H1, optstring_read. cbn. by rewrite (proj2 (Z.leb_gt argc i)) by lia.
Qed.

(** A call inside an element, or at its dash, looks up the next letter. *)
Lemma call_letter g i k0 k off s pre c cs more :
  at_ i k0 g -> argv_from i ((off, s) :: more) -> s = pre ++ c :: cs -> k = blen pre -> 1 <= i -> enters i k0 k s ->
  call g = Some (option_char argc argv_off (optstring_for quiet opts) off c (set_optind i (k + 1) g)).
Proof.
  intros Hg Ha Hs Hk Hi He. destruct (argv_read i off s more ltac:(lia) Ha) as (Harg & _ & Hlt).
  unfold yos_getopt. cbn [getopt_go]. rewrite (once_at _ _ _ _ _ _ Hg Hi Ha).
  assert (Hopen : open_element argv_off (set_optind i (if i =? 1 then 0 else k0) g) = inr (set_optind i k g)).
  { destruct He as [(-> & H2 & H3)|(-> & H0 & H1 & H2)].
    - rewrite (proj2 (Z.eqb_neq i 1)) by lia. unfold open_element. cbn [nextchar set_optind]. by rewrite (proj2 (Z.eqb_neq k 0)) by lia.
    - rewrite (open_at _ i off s more); [|destruct H0 as [->| ->]; [destruct (i =? 1)|]; split_and!; (done || apply Hg)|lia|done].
      rewrite H1, bool_decide_false by done. done. }
  rewrite Hopen. unfold take_letter. destruct Hg as (H1 & _), Ha as (_ & _ & _ & Hstr & _).
  cbn [g_exec_ set_optind optind nextchar]. rewrite H1, Harg. subst s k. apply str_at_app in Hstr.
  rewrite (str_at_head _ _ _ Hstr). apply str_at_cons in Hstr as (_ & Hc & _). cbn [hd].
  by rewrite (proj2 (Z.eqb_neq c 0)) by (unfold byte_ok in Hc; lia).
Qed.
(** The answer to a letter, and the cursor after it. *)
Definition answered (e : event) (j k : Z) (a : Z * getopt_ctx) : Prop := shows quiet e a /\ a.1 <> -1 /\ at_ j k a.2.

Lemma letter_answer g i k off pre c cs more :
  at_ i (k + 1) g -> argv_from i ((off, pre ++ c :: cs) :: more) -> k = blen pre -> 1 <= i -> c <> COLON ->
  let a := option_char argc argv_off (optstring_for quiet opts) off c g in
  match takes opts c with
  | None => answered (Unknown c) i (k + 1) a
  | Some false => answered (Flag c) i (k + 1) a
  | Some true =>
      match cs, more with
      | _ :: _, _ => answered (Argument c (off + k + 1)) (i + 1) 0 a
      | [], [] => answered (Missing c) (i + 1) 0 a
      | [], (o, _) :: _ => answered (Argument c o) (i + 1 + 1) 0 a
      end
  end.
Proof.
  intros (H1 & H2 & H3) Ha Hk Hi Hc. destruct (argv_read i off _ more ltac:(lia) Ha) as (_ & Hoff & Hlt).
  assert (Hb : byte_ok c /\ str_at (mem x) (off + (k + 1)) cs).
  { destruct Ha as (_ & _ & _ & Hstr & _). apply str_at_app, str_at_cons in Hstr as (_ & ? & H). rewrite <-Hk in H.
    by rewrite <-Z.add_assoc in H. }
  destruct Hb as [Hb Hcs]. unfold byte_ok in Hb. unfold option_char. rewrite skip_prefix_optstring by apply V.
  pose proof (strchr_letters opts c (vo_plain V) Hc) as Hchr. destruct (takes opts c) as [[]|].
  - destruct Hchr as (p & -> & ->). rewrite H3, H1, (str_at_head _ _ _ Hcs). destruct cs as [|b cs].
    + cbn [hd Z.eqb negb]. rewrite optstring_quiet by apply V. cbn [set_optind optind]. rewrite H2.
      destruct Ha as (_ & _ & _ & _ & Ha). destruct more as [|[o t] more].
      * rewrite (proj2 (Z.leb_le argc (i + 1))) by (simpl in Ha; lia). split_and!; simpl; try done; by destruct quiet.
      * destruct (argv_read (i + 1) o t more ltac:(lia) Ha) as (_ & Hoff' & Hlt').
        rewrite (proj2 (Z.leb_gt argc (i + 1))) by lia. cbn [set_optind g_exec_ optind]. rewrite H1, Hoff'.
        split_and!; simpl; (done || lia).
    + apply str_at_cons in Hcs as (_ & Hb' & _). unfold byte_ok in Hb'. cbn [hd]. rewrite (proj2 (Z.eqb_neq b 0)) by lia.
      destruct Ha as (_ & Ho & Hend & _), V as [_ _ Hsz _ _ _ _].
      pose proof (blen_nonneg pre). pose proof (blen_nonneg cs). rewrite blen_app, !blen_cons in Hend.
      cbn [negb]. rewrite H2, Hoff, u32_small by lia. split_and!; simpl; (done || lia).
  - destruct Hchr as (p & -> & ->). split_and!; simpl; (done || lia).
  - rewrite Hchr. split_and!; done.
Qed.
(** * The loop of calls *)

Definition delivers (o : outcome) (g : getopt_ctx) : Prop :=
  exists l g', answers call (S (length o.1)) g = Some (l, g') /\ Forall2 (shows quiet) o.1 l /\
    optind g' = argc - Z.of_nat (length o.2).

Lemma answers_more n g r g1 l g' :
  call g = Some (r, g1) -> r <> -1 -> answers call n g1 = Some (l, g') -> answers call (S n) g = Some ((r, g1) :: l, g').
Proof. intros Hc Hr Hl. cbn [answers]. rewrite Hc. cbn -[answers]. rewrite (proj2 (Z.eqb_neq r (-1))) by done. by rewrite Hl. Qed.

Lemma delivers_report e o g a j k :
  call g = Some a -> answered e j k a -> delivers o a.2 -> delivers (report e o) g.
Proof.
  destruct a as [r g1]. intros Hc (Hs & Hr & _) (l & g' & Hl & Hf & Ho). exists ((r, g1) :: l), g'.
  split_and!; [by apply answers_more|by constructor|done].
Qed.

(** The last call of the loop. *)
Lemma delivers_end args g g' : call g = Some (-1, g') -> optind g' = argc - Z.of_nat (length args) -> delivers ([], args) g.
Proof. intros H Ho. exists [], g'. simpl. rewrite H. by split_and!. Qed.

Lemma start_state g i : at_ i 0 g -> 1 <= i -> getopt_init g = g.
Proof. intros Hg Hi. rewrite (init_at _ _ _ Hg Hi). replace (if i =? 1 then 0 else 0) with 0 by (by destruct (i =? 1)). by apply set_optind_id. Qed.

(** Where the element at the cursor is no option the loop is over. *)
Lemma delivers_stop g i args :
  at_ i 0 g -> 1 <= i -> argv_from i args ->
  match args with (_, s) :: _ => is_element s = false | [] => True end -> delivers ([], args) g.
Proof.
  intros Hg Hi Ha Hs. apply (delivers_end _ _ g); [|destruct Hg as (_ & -> & _); apply argv_from_length in Ha; lia].
  unfold yos_getopt. cbn [getopt_go]. destruct args as [|[off s] more].
  - unfold getopt_once. rewrite (start_state _ _ Hg Hi). destruct Hg as (-> & -> & _). simpl in Ha.
    rewrite optstring_read. cbn. by rewrite (proj2 (Z.leb_le argc i)) by lia.
  - rewrite (once_at _ _ _ _ _ _ Hg Hi Ha), <-(init_at _ _ _ Hg Hi), (start_state _ _ Hg Hi).
    rewrite (open_at _ _ _ _ _ Hg ltac:(lia) Ha). by rewrite Hs.
Qed.

(** The two dashes are passed. *)
Lemma delivers_dashes g i off more :
  at_ i 0 g -> 1 <= i -> argv_from i ((off, [DASH; DASH]) :: more) -> delivers ([], more) g.
Proof.
  intros Hg Hi Ha. apply (delivers_end _ _ (set_optind (i + 1) 0 g)); [|apply argv_from_length in Ha; simpl in *; lia].
  unfold yos_getopt. cbn [getopt_go].
  rewrite (once_at _ _ _ _ _ _ Hg Hi Ha), <-(init_at _ _ _ Hg Hi), (start_state _ _ Hg Hi).
  by rewrite (open_at _ _ _ _ _ Hg ltac:(lia) Ha).
Qed.

(** At the end of an element the call goes on with the next one. *)
Lemma call_next g i k off s more :
  at_ i k g -> argv_from i ((off, s) :: more) -> 2 <= i -> 1 <= k -> k = blen s ->
  call g = call (set_optind (i + 1) 0 g).
Proof.
  intros Hg Ha Hi Hk Hs. destruct (argv_read i off s more ltac:(lia) Ha) as (Harg & _).
  assert (Honce : getopt_once argc argv_off optstring_off g = Some (inr (set_optind (i + 1) 0 g))).
  { rewrite (once_at _ _ _ _ _ _ Hg ltac:(lia) Ha), (proj2 (Z.eqb_neq i 1)), (set_optind_id _ _ _ Hg) by lia.
    destruct Hg as (H1 & H2 & H3). unfold open_element. rewrite H3, (proj2 (Z.eqb_neq k 0)) by lia. cbn [negb].
    unfold take_letter. rewrite H1, H2, Harg, H3, Hs. destruct Ha as (_ & _ & _ & Hstr & _).
    rewrite <-(app_nil_r s) in Hstr. by apply str_at_app, str_at_head in Hstr as ->. }
  destruct Hg as (H1 & _). pose proof optstring_read as Ho. rewrite <-H1 in Ho.
  destruct (once_start argc argv_off optstring_off (set_optind (i + 1) 0 g) _ eq_refl Ho) as (a & Ha').
  unfold yos_getopt. cbn [getopt_go]. by rewrite Honce, Ha'.
Qed.
Lemma delivers_cluster i off s more here next :
  1 <= i -> argv_from i ((off, s) :: more) ->
  (forall g, at_ (i + 1) 0 g -> no_colon here -> delivers here g) ->
  (forall g, more <> [] -> at_ (i + 1 + 1) 0 g -> no_colon next -> delivers next g) ->
  (more = [] -> forall g, at_ (i + 1) 0 g -> delivers ([], []) g) ->
  forall cs pre k0 k g,
    s = pre ++ cs -> k = blen pre -> at_ i k0 g -> enters i k0 k s ->
    2 <= i \/ takes opts (hd 0 cs) = Some true ->
    no_colon (cluster opts here next more (off + k) cs) -> delivers (cluster opts here next more (off + k) cs) g.
Proof.
  intros Hi Ha Hhere Hnext Hlast. induction cs as [|c cs IH]; intros pre k0 k g Hs Hk Hg He Hadv Hn.
  - rewrite app_nil_r in Hs. subst pre. destruct He as [(-> & Hi2 & Hk1)|(-> & _ & Hel & _)].
    + cbn [cluster] in *. destruct (Hhere (set_optind (i + 1) 0 g)) as (l & g' & Hl & Hrest); [by destruct Hg|done|].
      exists l, g'. split; [|done]. rewrite <-Hl. cbn [answers]. by rewrite (call_next _ _ _ _ _ _ Hg Ha Hi2 Hk1 Hk).
    + destruct s as [|a [|b s]]; try done. rewrite !blen_cons in Hk. pose proof (blen_nonneg s). lia.
  - pose proof (call_letter _ _ _ _ _ _ _ _ _ _ Hg Ha Hs Hk Hi He) as Hcall. subst s.
    assert (Hg1 : at_ i (k + 1) (set_optind i (k + 1) g)) by (destruct Hg; by split_and!).
    assert (Hk1 : 1 <= k) by (destruct He as [(_ & _ & ?)|(-> & _)]; lia).
    assert (Hstep : forall e a, 2 <= i -> call g = Some a -> answered e i (k + 1) a ->
      no_colon (report e (cluster opts here next more (off + k + 1) cs)) ->
      delivers (report e (cluster opts here next more (off + k + 1) cs)) g).
    { intros e a Hi2 Hc' Hans [_ Hn']%no_colon_report. eapply delivers_report; [done|done|].
      rewrite <-Z.add_assoc in *. apply (IH (pre ++ [c]) (k + 1)); [by rewrite <-app_assoc|by rewrite blen_app, Hk|apply Hans| |by left|done].
      left. lia. }
    pose proof (letter_answer _ _ _ _ _ c cs more Hg1 Ha Hk Hi) as Hans. cbv zeta in Hans. cbn [cluster hd] in *.
    destruct (takes opts c) as [[]|] eqn:Ht.
    + specialize (Hans (takes_letter _ _ _ (vo_plain V) Ht)). destruct cs as [|b cs].
      * destruct more as [|[o t] more].
        -- apply (delivers_report _ ([], []) _ _ _ _ Hcall Hans). by apply Hlast, Hans.
        -- apply no_colon_report in Hn as [_ Hn]. apply (delivers_report _ _ _ _ _ _ Hcall Hans). by apply Hnext; [|apply Hans|].
      * apply no_colon_report in Hn as [_ Hn]. apply (delivers_report _ _ _ _ _ _ Hcall Hans). by apply Hhere; [apply Hans|].
    + destruct Hadv as [Hi2|]; [|done]. eapply Hstep; [done|done|apply Hans|done]. by eapply takes_letter, Ht; apply V.
    + destruct Hadv as [Hi2|]; [|done]. eapply Hstep; [done|done|apply Hans|done].
      apply no_colon_report in Hn as [Hn _]. congruence.
Qed.

Lemma delivers_parse n args i g :
  (length args < n)%nat -> 1 <= i -> at_ i 0 g -> argv_from i args -> 2 <= i \/ leads opts args ->
  no_colon (parse opts args) -> delivers (parse opts args) g.
Proof.
  revert args i g. induction n as [|n IH]; intros args i g Hn Hi Hg Ha Hl Hc; [lia|].
  destruct args as [|[off s] more]; [by apply (delivers_stop g i [])|]. cbn [parse] in *.
  destruct (is_element s) eqn:Hel; [|by apply (delivers_stop g i ((off, s) :: more))].
  case_bool_decide as Hd; [subst s; by apply (delivers_dashes g i off more)|].
  assert (Ha' : argv_from (i + 1) more) by apply Ha. simpl in Hn.
  destruct s as [|d s]; [done|]. cbn [tail] in *.
  refine (delivers_cluster i off (d :: s) more _ _ Hi Ha _ _ _ s [d] 0 1 g eq_refl eq_refl Hg _ _ Hc).
  - intros g' Hg' Hc'. apply (IH more (i + 1)); [lia|lia|done|done|by left; lia|done].
  - intros g' Hm Hg' Hc'. destruct more as [|[o t] more]; [done|].
    apply (IH more (i + 1 + 1)); [simpl in Hn; lia|lia|done|apply Ha'|by left; lia|done].
  - intros -> g' Hg'. apply (delivers_stop g' (i + 1) []); (done || lia).
  - right. split_and!; [done|by left|done|done].
  - destruct Hl as [|Hl]; [by left|right]. destruct s; [done|]. by apply Hl.
Qed.
(** In argv[1] the cursor is thrown away by every call. *)
Lemma stuck_call g off s c cs more d :
  g_exec_ g = x -> optind g <= 1 -> argv_from 1 ((off, s) :: more) -> s = d :: c :: cs -> is_element s = true ->
  s <> [DASH; DASH] -> c <> COLON -> takes opts c <> Some true ->
  exists r g', call g = Some (r, g') /\ r <> -1 /\ g_exec_ g' = x /\ optind g' = 1 /\
    shows quiet (if takes opts c then Flag c else Unknown c) (r, g').
Proof.
  intros Hx Ho Ha Hs Hel Hd Hc Ht.
  assert (Hg0 : exists k0 g0, at_ 1 k0 g0 /\ getopt_init g = getopt_init g0).
  { destruct (Z.leb_spec (optind g) 0).
    - exists (nextchar g), (set_optind 1 (nextchar g) g). split; [done|]. unfold getopt_init.
      rewrite (proj2 (Z.leb_le (optind g) 0)) by lia. done.
    - exists (nextchar g), g. split; [|done]. split_and!; [done|lia|done]. }
  destruct Hg0 as (k0 & g0 & Hg0 & Hi).
  assert (Hc0 : call g = call g0) by (unfold yos_getopt; cbn [getopt_go]; unfold getopt_once; by rewrite Hi).
  assert (He : enters 1 k0 1 s) by (right; split_and!; [done|by right|done|done]).
  pose proof (call_letter g0 1 k0 1 off s [d] c cs more Hg0 Ha Hs eq_refl ltac:(lia) He) as Hcall. subst s.
  pose proof (letter_answer (set_optind 1 (1 + 1) g0) 1 1 off [d] c cs more ltac:(destruct Hg0; by split_and!) Ha eq_refl ltac:(lia) Hc) as Hans.
  cbv zeta in Hans. rewrite <-Hc0 in Hcall. destruct (option_char _ _ _ _ _ _) as [r g'] eqn:E. exists r, g'.
  destruct (takes opts c) as [[]|]; [done| |]; destruct Hans as (Hshow & Hr & H1 & H2 & _); by split_and!.
Qed.

(** The same event for every call. *)
Lemma stuck_calls n off s c cs more d : forall g,
  g_exec_ g = x -> optind g <= 1 -> argv_from 1 ((off, s) :: more) -> s = d :: c :: cs -> is_element s = true ->
  s <> [DASH; DASH] -> c <> COLON -> takes opts c <> Some true ->
  (exists l, calls call n g = Some l /\ length l = n /\ Forall (shows quiet (if takes opts c then Flag c else Unknown c)) l) /\
  answers call n g = None.
Proof.
  induction n as [|n IH]; intros g Hx Ho Ha Hs Hel Hd Hc Ht; [split; [by exists []|done]|].
  destruct (stuck_call g off s c cs more d Hx Ho Ha Hs Hel Hd Hc Ht) as (r & g' & Hcall & Hr & Hx' & Ho' & Hshow).
  destruct (IH g' Hx' ltac:(lia) Ha Hs Hel Hd Hc Ht) as ((l & Hl & Hn & Hf) & Hans). split.
  - exists ((r, g') :: l). cbn [calls]. rewrite Hcall. cbn -[calls]. rewrite Hl. simpl. split_and!; [done|by rewrite Hn|by constructor].
  - cbn [answers]. rewrite Hcall. cbn -[answers]. rewrite (proj2 (Z.eqb_neq r (-1))) by done. by rewrite Hans.
Qed.
End Calls.

(** * Properties *)

(** C28: The loop of a guest over argv from a fresh cursor, where no colon is
    used as a letter.  From argv[2] on, and from argv[1] when that is no option,
    the end mark, or an option that takes an argument, the loop ends after as many
    calls as the grammar has events, its answers are the events in order, and
    [optind] is left at the first operand.  Any other argv[1] (a flag without
    argument, or an unknown letter) holds the loop for ever: however many calls
    are made, each reports the first event again. *)
Theorem getopt_parses x argc argv_off optstring_off quiet opts i args g :
  vector_ok x argc argv_off optstring_off quiet opts -> 1 <= i -> at_ x i 0 g -> argv_from x argc argv_off i args ->
  no_colon (parse opts args) ->
  let call := yos_getopt argc argv_off optstring_off in
  (2 <= i \/ leads opts args -> exists l g',
     answers call (S (length (parse opts args).1)) g = Some (l, g') /\
     Forall2 (shows quiet) (parse opts args).1 l /\
     optind g' = argc - Z.of_nat (length (parse opts args).2)) /\
  (i = 1 -> ~ leads opts args -> exists e rest, (parse opts args).1 = e :: rest /\
     forall n, answers call n g = None /\ exists l, calls call n g = Some l /\ length l = n /\ Forall (shows quiet e) l).
Proof.
  intros V Hi Hg Ha Hn. split.
  - intros Hl. exact (delivers_parse _ _ _ _ _ _ V (S (length args)) args i g (Nat.lt_succ_diag_r _) Hi Hg Ha Hl Hn).
  - intros -> Hl. destruct args as [|[off s] more]; [by destruct Hl|]. cbn [leads] in Hl. cbn [parse] in *.
    destruct (is_element s) eqn:Hel; [|by destruct Hl]. destruct (decide (s = [DASH; DASH])) as [->|Hd]; [by destruct Hl|].
    rewrite bool_decide_eq_false_2 in Hn |- * by done.
    destruct s as [|d [|c cs]]; [done..|]. cbn [nth tail cluster] in *.
    assert (Ht : takes opts c <> Some true) by (intros Ht; by apply Hl).
    assert (Hc : c <> COLON).
    { intros ->. destruct (takes opts COLON) as [t|] eqn:E; [by apply (takes_letter opts COLON t (vo_plain _ _ _ _ _ _ V))|].
      by apply no_colon_report in Hn as [[] _]. }
    exists (if takes opts c then Flag c else Unknown c).
    eexists. split; [by destruct (takes opts c) as [[]|]|]. intros n. destruct Hg as (Hx & Ho & _).
    by destruct (stuck_calls _ _ _ _ _ _ V n off _ c cs more d g Hx ltac:(lia) Ha eq_refl Hel Hd Hc Ht).
Qed.

(** C29: From any cursor, and whatever the arguments hold, a call returns: it
    calls itself at most once. *)
Theorem getopt_returns argc argv_off optstring_off g s :
  optstring_of (g_exec_ g) optstring_off = Some s -> exists r g', yos_getopt argc argv_off optstring_off g = Some (r, g').
Proof.
  intros Hs. unfold yos_getopt. cbn [getopt_go].
  destruct (getopt_once argc argv_off optstring_off g) as [[[r g1]|g1]|] eqn:E; [by eauto| |].
  - apply once_again in E as [Hn Hx]. rewrite <-Hx in Hs.
    destruct (once_start argc argv_off _ _ _ Hn Hs) as ([r g2] & ->). by eauto.
  - unfold getopt_once in E. rewrite init_exec, Hs in E. done.
Qed.

(** When argv[1] starts with an option that takes no argument, or with an
    unknown one, the loop of a guest never ends: every call throws the cursor
    away because [optind] is still 1. *)
Theorem getopt_first_flag_repeats x argc argv_off optstring_off quiet opts off d c cs more n g :
  vector_ok x argc argv_off optstring_off quiet opts -> argv_from x argc argv_off 1 ((off, d :: c :: cs) :: more) ->
  d = DASH -> (c <> DASH \/ cs <> []) -> c <> COLON -> takes opts c <> Some true ->
  g_exec_ g = x -> optind g <= 1 -> answers (yos_getopt argc argv_off optstring_off) n g = None.
Proof.
  intros V Ha -> Hc Hcolon Ht Hx Ho.
  refine (proj2 (stuck_calls _ _ _ _ _ _ V n off (DASH :: c :: cs) c cs more DASH g Hx Ho Ha eq_refl eq_refl _ Hcolon Ht)).
  intros Heq. destruct Hc as [Hc|Hc]; apply Hc; congruence.
Qed.

(** * Witnesses *)

(** The command line [p -of -ab x] for the options a, b and o with argument. *)
Definition demo_args : list arg := [(110, [45; 111; 102]); (120, [45; 97; 98]); (130, [120])].
Definition demo_opts : options := [(97, false); (98, false); (111, true)].
Definition demo_word (v : Z) : bytes := [v; 0; 0; 0].
Definition demo_vector (s1 : bytes) : exec_ctx :=
  ExecCtx (write_bytes (write_bytes (write_bytes (write_bytes (write_bytes (write_bytes (fun _ => 0)
    16 (demo_word 100 ++ demo_word 110 ++ demo_word 120 ++ demo_word 130)) 100 [112; 0]) 110 (s1 ++ [0]))
    120 [45; 97; 98; 0]) 130 [120; 0]) 140 (optstring_for false demo_opts ++ [0]))
    65536 0 0 [] [] 0 0 0 0.

Definition attached : bytes := [45; 111; 102].
Definition flags : bytes := [45; 97; 98].

Ltac concrete := repeat first [by vm_compute | split | constructor | apply string_at | discriminate].

Lemma demo_vector_ok s1 : s1 = attached \/ s1 = flags -> vector_ok (demo_vector s1) 4 16 140 false demo_opts.
Proof. intros [->| ->]; split; concrete. Qed.

Lemma demo_argv_ok s1 : s1 = attached \/ s1 = flags -> argv_from (demo_vector s1) 4 16 1 ((110, s1) :: tail demo_args).
Proof. intros [->| ->]; concrete. Qed.

Definition demo_start (s1 : bytes) : getopt_ctx := GetoptCtx (demo_vector s1) 1 0 0 1 0.

(** [p -of -ab x] is parsed; [p -ab -ab x] reports [a] for ever. *)
Lemma getopt_parses_witness :
  (exists l g', answers (yos_getopt 4 16 140) 4 (demo_start attached) = Some (l, g') /\
    Forall2 (shows false) [Argument 111 112; Flag 97; Flag 98] l /\ optind g' = 3) /\
  (answers (yos_getopt 4 16 140) 100 (demo_start flags) = None /\
   exists l, calls (yos_getopt 4 16 140) 100 (demo_start flags) = Some l /\ length l = 100%nat /\ Forall (shows false (Flag 97)) l).
Proof.
  split.
  - apply (proj1 (getopt_parses _ 4 16 140 false demo_opts 1 demo_args (demo_start attached) (demo_vector_ok _ (or_introl eq_refl))
      ltac:(lia) ltac:(done) (demo_argv_ok _ (or_introl eq_refl)) ltac:(unfold no_colon; rewrite list_elem_of_In; vm_compute; intuition congruence))).
    by right.
  - destruct (proj2 (getopt_parses _ 4 16 140 false demo_opts 1 ((110, flags) :: tail demo_args) (demo_start flags) (demo_vector_ok _ (or_intror eq_refl))
      ltac:(lia) ltac:(done) (demo_argv_ok _ (or_intror eq_refl)) ltac:(unfold no_colon; rewrite list_elem_of_In; vm_compute; intuition congruence))
      eq_refl ltac:(intros H; discriminate (H eq_refl ltac:(discriminate)))) as (e & rest & He & H).
    injection He as <- _. exact (H 100%nat).
Defined.

Lemma getopt_returns_witness : exists r g', yos_getopt 4 16 140 (demo_start attached) = Some (r, g').
Proof. apply (getopt_returns 4 16 140 _ (optstring_for false demo_opts)). by vm_compute. Defined.

Lemma getopt_first_flag_repeats_witness : answers (yos_getopt 4 16 140) 100 (demo_start flags) = None.
Proof.
  apply (getopt_first_flag_repeats _ 4 16 140 false demo_opts 110 45 97 [98] (tail demo_args) 100 _
    (demo_vector_ok _ (or_intror eq_refl)) (demo_argv_ok _ (or_intror eq_refl)));
    [done|by left|done|done|done|done].
Defined.
