(* ===== verification/Callback.v ===== *)
(** The libc functions that call back into the guest
    (src/src/yos/impl/libc/callback.c): sorting and searching an array of
    linear memory with a comparator of the guest, and scandir, which allocates
    its result in the guest's heap.

    A guest function is an entry of the module's table.  What running one does
    is a parameter: it may change the memory, and it may trap ([None]).  The
    host's directory reading and its [realloc] answer through arguments. *)
From S2P Require Import Prelude Memory Ctx CString.

Section Callback.
Context {fn : Type}.
(** [rt->modules->table0], and whether an entry's lazy compilation succeeds. *)
Variables (table0 : list (option fn)) (compiles : fn -> bool).
(** The guest's function of one and of two arguments. *)
Variables (run1 : fn -> exec_ctx -> Z -> exec_ctx * option Z).
Variables (run2 : fn -> exec_ctx -> Z -> Z -> exec_ctx * option Z).

Definition lookup_fn (idx : Z) : option fn :=
  if Z.of_nat (length table0) <=? idx then None
  else match table0 !! Z.to_nat idx with
       | Some (Some f) => if compiles f then Some f else None
       | _ => None
       end.

(** A trap counts as "equal". *)
Definition call_cmp (cmp : fn) (c : exec_ctx) (a_off b_off : Z) : exec_ctx * Z :=
  let '(c', r) := run2 cmp c a_off b_off in (c', default 0 r).

(** * Sorting *)

Section Sort.
Variables (cmp : fn) (base size : Z).

(** Element [k]: [arr + k * size], a pointer. *)
Definition slot_ptr (k : nat) : Z := base + u32 (Z.of_nat k * size).

(** The [while (j > 0)] loop: [scratch] moves left from slot [j]. *)
Fixpoint sift (scratch : bytes) (j : nat) (c : exec_ctx) : exec_ctx :=
  match j with
  | O => set_mem (write_bytes (mem c) (slot_ptr 0) scratch) c
  | S k =>
      let c1 := set_mem (write_bytes (mem c) (slot_ptr j) scratch) c in
      let '(c2, r) := call_cmp cmp c1 (u32 (base + Z.of_nat k * size)) (u32 (base + Z.of_nat j * size)) in
      if r <=? 0 then set_mem (write_bytes (mem c2) (slot_ptr j) scratch) c2
      else sift scratch k (set_mem (memcpy (mem c2) (slot_ptr j) (slot_ptr k) size) c2)
  end.

(** One iteration of the outer loop. *)
Definition insert_elem (c : exec_ctx) (i : nat) : exec_ctx :=
  sift (read_bytes (mem c) (slot_ptr i) size) i c.

Definition sort_loop (n : Z) (c : exec_ctx) : exec_ctx := foldl insert_elem c (seq 1 (Z.to_nat n - 1)).
End Sort.

Definition SCRATCH : Z := 512.

Definition array_outside (c : exec_ctx) (base n size : Z) : bool :=
  (memory_size c <=? base) || (memory_size c <? base + n * size).

Definition yos_sort_inplace (c : exec_ctx) (base n size cmp_idx : Z) : exec_ctx :=
  if (size =? 0) || (n <? 2) || array_outside c base n size then c
  else match lookup_fn cmp_idx with
       | None => c
       | Some cmp => if SCRATCH <? size then c else sort_loop cmp base size n c
       end.

Definition m3_yos_qsort (c : exec_ctx) (base n size cmp_idx : Z) : exec_ctx := yos_sort_inplace c base n size cmp_idx.

Definition m3_yos_bsdsort (c : exec_ctx) (base n size cmp_idx : Z) : exec_ctx * Z :=
  (yos_sort_inplace c base n size cmp_idx, 0).

(** * Searching *)

(** The [while (lo < hi)] loop; [None] when [fuel] iterations are not enough. *)
Fixpoint bsearch_loop (cmp : fn) (key base size : Z) (fuel : nat) (lo hi : Z) (c : exec_ctx) : option (exec_ctx * Z) :=
  match fuel with
  | O => None
  | S f =>
      if lo <? hi then
        let mid := u32 (lo + hi) / 2 in
        let at_ := u32 (base + mid * size) in
        let '(c', r) := call_cmp cmp c key at_ in
        if r =? 0 then Some (c', at_)
        else if r <? 0 then bsearch_loop cmp key base size f lo mid c'
        else bsearch_loop cmp key base size f (mid + 1) hi c'
      else Some (c, 0)
  end.

(** Every iteration halves the interval. *)
Definition BSEARCH_FUEL : nat := 34.

Definition m3_yos_bsearch (c : exec_ctx) (key base n size cmp_idx : Z) : option (exec_ctx * Z) :=
  if (size =? 0) || (n =? 0) || (memory_size c <=? base) || (memory_size c <=? key) ||
     (memory_size c <? base + n * size) || (memory_size c <? key + size)
  then Some (c, 0)
  else match lookup_fn cmp_idx with
       | None => Some (c, 0)
       | Some cmp => bsearch_loop cmp key base size BSEARCH_FUEL 0 n c
       end.

(** * scandir *)

(** [struct dirent] of the host. *)
Record host_dirent : Type := HostDirent { d_ino : Z; d_type : Z; d_name : bytes }.

Definition call_filter (f : fn) (c : exec_ctx) (e_off : Z) : exec_ctx * Z :=
  let '(c', r) := run1 f c e_off in (c', default 1 r).

(** The [n] low bytes of [v], lowest first. *)
Fixpoint le (n : nat) (v : Z) : bytes := match n with O => [] | S k => v mod 256 :: le k (v / 256) end.

(** FreeBSD's [struct dirent]. *)
Definition dirent_bytes (de : host_dirent) (alloc_sz : Z) : bytes :=
  let name := firstn 255 (d_name de) in
  le 8 (d_ino de) ++ le 8 0 ++ le 2 alloc_sz ++ [u8 (d_type de); 0] ++ le 2 (blen name) ++ le 2 0 ++ name ++ [0].

Definition dirent_size (de : host_dirent) : Z :=
  Z.land (24 + blen (firstn 255 (d_name de)) + 1 + 7) (Z.lnot 7).

Definition fill_dirent (de : host_dirent) (e_off : Z) (c : exec_ctx) : exec_ctx :=
  let sz := dirent_size de in
  set_mem (write_bytes (memset (mem c) e_off 0 sz) e_off (dirent_bytes de sz)) c.

Section Scandir.
Variables (malloc : exec_ctx -> Z -> Z * exec_ctx) (free : exec_ctx -> Z -> option exec_ctx).
(** Whether the host's [realloc] of the offset array to a capacity succeeds. *)
Variable realloc_ok : nat -> bool.

Definition free_all (c : exec_ctx) (offsets : list Z) : option exec_ctx :=
  foldl (fun c o => c ≫= fun c => free c o) (Some c) offsets.

(** The readdir loop: the accepted records, or the context after the clean-up of
    a failure. *)
Fixpoint collect (filter : option fn) (des : list host_dirent) (offsets : list Z) (cap : nat) (c : exec_ctx)
  : option (exec_ctx * list Z + exec_ctx) :=
  match des with
  | [] => Some (inl (c, offsets))
  | de :: des' =>
      let '(e_off, c1) := malloc c (dirent_size de) in
      if e_off =? 0 then inr <$> free_all c1 offsets
      else
        let c2 := fill_dirent de e_off c1 in
        let '(c3, keep) := match filter with Some f => call_filter f c2 e_off | None => (c2, 1) end in
        if keep =? 0 then c4 ← free c3 e_off; collect filter des' offsets cap c4
        else if Nat.eqb (length offsets) cap then
          let newcap := if Nat.eqb cap 0 then 16%nat else (cap * 2)%nat in
          if realloc_ok newcap then collect filter des' (offsets ++ [e_off]) newcap c3
          else c4 ← free c3 e_off; inr <$> free_all c4 offsets
        else collect filter des' (offsets ++ [e_off]) cap c3
  end.

(** The words of the name list. *)
Fixpoint store_words (m : memory) (off : Z) (ws : list Z) : memory :=
  match ws with [] => m | w :: ws' => store_words (st32 m off w) (off + 4) ws' end.

(** The inner loop of the sort, from slot [j] down. *)
Fixpoint swap_down (compar : fn) (list_off : Z) (j : nat) (c : exec_ctx) : exec_ctx :=
  match j with
  | O => c
  | S k =>
      let a_off := list_off + Z.of_nat k * 4 in
      let b_off := list_off + Z.of_nat j * 4 in
      let '(c1, r) := call_cmp compar c a_off b_off in
      if r <=? 0 then c1
      else
        let av := ld32 (mem c1) a_off in
        let bv := ld32 (mem c1) b_off in
        swap_down compar list_off k (set_mem (st32 (st32 (mem c1) a_off bv) b_off av) c1)
  end.

Definition sort_names (compar : option fn) (list_off : Z) (n : nat) (c : exec_ctx) : exec_ctx :=
  match compar with
  | Some f => foldl (fun c i => swap_down f list_off i c) c (seq 1 (n - 1))
  | None => c
  end.

(** [dir]: what opendir and readdir answer for the resolved path. *)
Definition m3_yos_scandir (c : exec_ctx) (path_off namelist_off filter_idx compar_idx : Z)
    (dir : option (list host_dirent)) : option (exec_ctx * Z) :=
  if (path_off =? 0) || (memory_size c <=? path_off) then Some (c, -1)
  else match dir with
       | None => Some (c, -1)
       | Some des =>
           let filter := if filter_idx =? 0 then None else lookup_fn filter_idx in
           let compar := if compar_idx =? 0 then None else lookup_fn compar_idx in
           r ← collect filter des [] 0 c;
           match r with
           | inr c1 => Some (c1, -1)
           | inl (c1, offsets) =>
               let n := length offsets in
               let '(list_off, c2) := if Nat.eqb n 0 then (0, c1) else malloc c1 (u32 (Z.of_nat n * 4)) in
               if negb (Nat.eqb n 0) && (list_off =? 0) then c3 ← free_all c2 offsets; Some (c3, -1)
               else
                 let c3 := set_mem (store_words (mem c2) list_off offsets) c2 in
                 let c4 := sort_names compar list_off n c3 in
                 let c5 := if negb (namelist_off =? 0) && (u32 (namelist_off + 4) <=? memory_size c)
                           then set_mem (st32 (mem c4) namelist_off list_off) c4 else c4 in
                 Some (c5, Z.of_nat n)
           end
       end.
End Scandir.

(** Atexit and its relatives register nothing. *)
Definition m3_yos_atexit_noop : Z := 0.
End Callback.
