(* ===== verification/CallbackProps.v ===== *)
(** Sorting and searching in linear memory: the loops of callback.c carry out
    insertion sort and binary search on the list of the array's elements. *)
From Stdlib Require Import Sorted.
From S2P Require Import Prelude Memory Ctx CString Callback.

(** * Insertion sort *)

Section InsertionSort.
Variable f : bytes -> bytes -> Z.

(** Insertion from the right: past every element that is not above [v].  The
    sorted prefix is kept reversed. *)
Fixpoint insert_rev (v : bytes) (r : list bytes) : list bytes :=
  match r with
  | [] => [v]
  | y :: r' => if f y v <=? 0 then v :: r else y :: insert_rev v r'
  end.

Definition insertion_sort (l : list bytes) : list bytes := rev (foldl (fun r v => insert_rev v r) [] l).

(** The same on an array, by shifting. *)
Fixpoint shift_in (v : bytes) (j : nat) (l : list bytes) : list bytes :=
  match j with
  | O => <[0%nat := v]> l
  | S k =>
      match l !! k with
      | Some y => if f y v <=? 0 then <[j := v]> l else shift_in v k (<[j := y]> l)
      | None => l
      end
  end.

Lemma shift_in_spec v pre x post :
  shift_in v (length pre) (pre ++ x :: post) = rev (insert_rev v (rev pre)) ++ post.
Proof.
  revert x post. induction pre as [|y pre IH] using rev_ind; intros x post; [done|].
  rewrite length_app, Nat.add_comm, rev_app_distr. cbn [length Nat.add shift_in rev app insert_rev].
  rewrite <-app_assoc. cbn [app]. rewrite list_lookup_middle by done.
  assert (Hi : forall z, <[S (length pre) := z]> (pre ++ y :: x :: post) = pre ++ y :: z :: post).
  { intros z. rewrite insert_app_r_alt by lia. by replace (S (length pre) - length pre)%nat with 1%nat by lia. }
  rewrite !Hi. destruct (f y v <=? 0); cbn [rev]; rewrite <-!app_assoc; [by rewrite rev_involutive|]. by rewrite IH.
Qed.

Lemma insert_rev_Permutation v r : insert_rev v r ≡ₚ v :: r.
Proof. induction r as [|y r IH]; [done|]. simpl. destruct (_ <=? 0); [done|]. rewrite IH. by apply Permutation_swap. Qed.

Lemma insertion_sort_Permutation l : insertion_sort l ≡ₚ l.
Proof.
  unfold insertion_sort. rewrite <-Permutation_rev. change l with ([] ++ l) at 2. generalize (@nil bytes).
  induction l as [|v l IH]; intros r; simpl; [by rewrite app_nil_r|].
  rewrite IH, insert_rev_Permutation. apply Permutation_middle.
Qed.

(** A comparator that orders the elements. *)
Record ordering : Prop := Ordering {
  or_sign : forall x y, f x y < 0 <-> 0 < f y x;
  or_trans : forall x y z, f x y <= 0 -> f y z <= 0 -> f x z <= 0
}.
Hypothesis Hf : ordering.

Definition below (x y : bytes) : Prop := f x y <= 0.

Lemma insert_rev_sorted v r : StronglySorted (flip below) r -> StronglySorted (flip below) (insert_rev v r).
Proof.
  induction 1 as [|y r Hr IH Hy]; simpl; [by repeat constructor|]. destruct (Z.leb_spec (f y v) 0).
  - constructor; [by constructor|]. constructor; [done|]. eapply Forall_impl; [exact Hy|]. intros x Hx. by eapply or_trans.
  - constructor; [done|]. rewrite insert_rev_Permutation. constructor; [|done].
    unfold flip, below. pose proof (or_sign Hf v y). lia.
Qed.

Lemma StronglySorted_snoc {A} (R : A -> A -> Prop) l x :
  StronglySorted R l -> Forall (fun y => R y x) l -> StronglySorted R (l ++ [x]).
Proof.
  induction 1 as [|y l Hl IH Hy]; intros Hx; simpl; [by repeat constructor|]. apply Forall_cons in Hx as [H1 H2].
  constructor; [by apply IH|]. apply Forall_app. by split; [|constructor].
Qed.

Lemma StronglySorted_rev {A} (R : A -> A -> Prop) l : StronglySorted (flip R) l -> StronglySorted R (rev l).
Proof.
  induction 1 as [|y l Hl IH Hy]; simpl; [constructor|]. apply StronglySorted_snoc; [done|].
  by rewrite <-Permutation_rev.
Qed.

Lemma insertion_sort_sorted l : StronglySorted below (insertion_sort l).
Proof.
  apply StronglySorted_rev. assert (H : StronglySorted (flip below) []) by constructor. revert H. generalize (@nil bytes).
  induction l as [|v l IH]; intros r Hr; [done|]. by apply IH, insert_rev_sorted.
Qed.

Lemma StronglySorted_lookup {A} (R : A -> A -> Prop) l i j x y :
  StronglySorted R l -> (i < j)%nat -> l !! i = Some x -> l !! j = Some y -> R x y.
Proof.
  intros Hl. revert i j. induction Hl as [|z l Hl IH Hz]; intros i j Hij Hi Hj; [done|].
  destruct j as [|j]; [lia|]. destruct i as [|i]; simplify_eq/=; [|by apply (IH i j); [lia|..]].
  rewrite Forall_forall in Hz. apply Hz. by eapply list_elem_of_lookup_2.
Qed.

(** Elements the comparator calls equal keep their order. *)
Definition same (x y : bytes) : bool := (f x y <=? 0) && (f y x <=? 0).

Lemma insert_rev_stable x v r :
  StronglySorted (flip below) r -> List.filter (same x) (insert_rev v r) = List.filter (same x) (v :: r).
Proof.
  induction 1 as [|y r Hr IH Hy]; [done|]. cbn [insert_rev]. destruct (Z.leb_spec (f y v) 0) as [|Hlt]; [done|].
  cbn [List.filter]. rewrite IH. cbn [List.filter]. destruct (same x y) eqn:Ey, (same x v) eqn:Ev; try done. exfalso.
  unfold same in *. apply andb_true_iff in Ey as [_ Hyx%Z.leb_le], Ev as [Hxv%Z.leb_le _].
  pose proof (or_trans Hf _ _ _ Hyx Hxv). lia.
Qed.

Lemma insertion_sort_stable x l : List.filter (same x) (insertion_sort l) = List.filter (same x) l.
Proof.
  unfold insertion_sort. rewrite filter_rev. rewrite <-(rev_involutive (List.filter (same x) l)). f_equal.
  rewrite <-filter_rev. assert (H : StronglySorted (flip below) []) by constructor. revert H.
  rewrite <-(app_nil_r (rev l)). generalize (@nil bytes). induction l as [|v l IH]; intros r Hr; [done|]. simpl.
  rewrite IH by (by apply insert_rev_sorted). rewrite !List.filter_app, insert_rev_stable by done. cbn [List.filter].
  rewrite <-app_assoc. f_equal. by destruct (same x v).
Qed.
End InsertionSort.

(** * Arrays of linear memory *)

Definition bytes_ok (s : bytes) : Prop := Forall (fun b => 0 <= b < 256) s.

Lemma read_bytes_ok m off n : bytes_ok (read_bytes m off n).
Proof. apply Forall_forall. intros b (i & -> & _)%list_elem_of_fmap. apply ld8_range. Qed.

Lemma blen_read_bytes m off n : 0 <= n -> blen (read_bytes m off n) = n.
Proof. intros Hn. unfold blen, read_bytes. rewrite length_map, length_seqZ. lia. Qed.

Section Array.
Variables (base size : Z) (n : nat).

Definition cell (m : memory) (k : nat) : bytes := read_bytes m (base + Z.of_nat k * size) size.
Definition cells (m : memory) : list bytes := map (cell m) (seq 0 n).

(** Nothing but the array may differ. *)
Definition array_only (m m' : memory) : Prop :=
  forall a, a < base \/ base + Z.of_nat n * size <= a -> ld8 m' a = ld8 m a.

Lemma array_only_trans m1 m2 m3 : array_only m1 m2 -> array_only m2 m3 -> array_only m1 m3.
Proof. intros H1 H2 a Ha. rewrite H2, H1; done. Qed.

Lemma length_cells m : length (cells m) = n.
Proof. unfold cells. by rewrite length_map, length_seq. Qed.

Lemma lookup_cells m k : (k < n)%nat -> cells m !! k = Some (cell m k).
Proof. intros Hk. unfold cells. rewrite list_lookup_fmap, lookup_seq_lt by lia. done. Qed.

Hypothesis Hsize : 0 < size.

Lemma cells_insert m m' k v :
  (k < n)%nat -> cell m' k = v -> (forall j, j <> k -> cell m' j = cell m j) -> cells m' = <[k := v]> (cells m).
Proof.
  intros Hk Hv Ho. apply list_eq. intros i. destruct (decide (i = k)) as [->|Hne].
  - rewrite list_lookup_insert_eq by (by rewrite length_cells). by rewrite lookup_cells, Hv.
  - rewrite list_lookup_insert_ne by done. destruct (decide (i < n)%nat) as [Hi|Hi].
    + by rewrite !lookup_cells, Ho by done.
    + rewrite !lookup_ge_None_2; [done|rewrite length_cells; lia..].
Qed.

(** Writing the bytes of one element. *)
Lemma cells_update m m' k v :
  (k < n)%nat -> read_bytes m' (base + Z.of_nat k * size) size = v ->
  (forall a, a < base + Z.of_nat k * size \/ base + Z.of_nat k * size + size <= a -> ld8 m' a = ld8 m a) ->
  cells m' = <[k := v]> (cells m) /\ array_only m m'.
Proof.
  intros Hk Hv Hf. split.
  - apply cells_insert; [done|done|]. intros j Hj. apply read_bytes_agree. intros a Ha. apply Hf. nia.
  - intros a Ha. apply Hf. nia.
Qed.

Lemma cells_write m k v :
  (k < n)%nat -> blen v = size -> bytes_ok v ->
  cells (write_bytes m (base + Z.of_nat k * size) v) = <[k := v]> (cells m) /\
  array_only m (write_bytes m (base + Z.of_nat k * size) v).
Proof.
  intros Hk Hl Hv. apply cells_update; [done| |].
  - pose proof (read_bytes_write m (base + Z.of_nat k * size) v Hv) as H. by rewrite Hl in H.
  - intros a Ha. apply write_bytes_other. rewrite Hl. lia.
Qed.

Lemma cells_memcpy m k j :
  (k < n)%nat ->
  cells (memcpy m (base + Z.of_nat k * size) (base + Z.of_nat j * size) size) = <[k := cell m j]> (cells m) /\
  array_only m (memcpy m (base + Z.of_nat k * size) (base + Z.of_nat j * size) size).
Proof.
  intros Hk. apply cells_update; [done|apply read_bytes_memcpy; lia|]. intros a Ha.
  by apply (memcpy_frame m _ _ _ a (a + 1)); lia.
Qed.
End Array.

(** * The loops of the code *)

Section Loops.
Context {fn : Type} (run2 : fn -> exec_ctx -> Z -> Z -> exec_ctx * option Z).
Variables (cmp : fn) (f : bytes -> bytes -> Z) (base size : Z) (n : nat).

(** The guest's comparator only reads the two elements it is given. *)
Definition comparator : Prop :=
  forall c i j, (i < n)%nat -> (j < n)%nat ->
    run2 cmp c (base + Z.of_nat i * size) (base + Z.of_nat j * size) =
      (c, Some (f (cell base size (mem c) i) (cell base size (mem c) j))).

Hypothesis Hcmp : comparator.
Hypothesis Hbase : 0 <= base.
Hypothesis Hsize : 0 < size.
Hypothesis Hend : base + Z.of_nat n * size < 4294967296.

Abbreviation cells := (cells base size n).

Lemma slot_ptr_eq k : (k < n)%nat -> slot_ptr base size k = base + Z.of_nat k * size.
Proof. intros Hk. unfold slot_ptr. rewrite u32_small by nia. done. Qed.

Lemma slot_off_eq k : (k < n)%nat -> u32 (base + Z.of_nat k * size) = base + Z.of_nat k * size.
Proof. intros Hk. rewrite u32_small by nia. done. Qed.

Lemma call_cmp_eq c i j :
  (i < n)%nat -> (j < n)%nat ->
  call_cmp run2 cmp c (base + Z.of_nat i * size) (base + Z.of_nat j * size) =
    (c, f (cell base size (mem c) i) (cell base size (mem c) j)).
Proof. intros Hi Hj. unfold call_cmp. by rewrite Hcmp. Qed.

Lemma sift_spec v j c :
  (j < n)%nat -> blen v = size -> bytes_ok v ->
  exists m', sift run2 cmp base size v j c = set_mem m' c /\ cells m' = shift_in f v j (cells (mem c)) /\
    array_only base size n (mem c) m'.
Proof.
  intros Hj Hl Hv. revert c Hj. induction j as [|k IH]; intros c Hj.
  - destruct (cells_write base size n Hsize (mem c) 0 v Hj Hl Hv) as [H1 H2]. eexists. cbn [sift shift_in].
    rewrite slot_ptr_eq by done. by split_and!.
  - cbn [sift shift_in]. rewrite !slot_ptr_eq, !slot_off_eq by lia.
    destruct (cells_write base size n Hsize (mem c) (S k) v Hj Hl Hv) as [H1 H2].
    set (c1 := set_mem (write_bytes (mem c) (base + Z.of_nat (S k) * size) v) c) in *.
    rewrite call_cmp_eq by lia. rewrite lookup_cells by lia.
    assert (Hk1 : cell base size (mem c1) (S k) = v).
    { pose proof (lookup_cells base size n (mem c1) (S k) Hj) as H. change (mem c1) with (write_bytes (mem c) (base + Z.of_nat (S k) * size) v) in H at 1.
      rewrite H1, list_lookup_insert_eq in H by (by rewrite length_cells). congruence. }
    assert (Hk0 : cell base size (mem c1) k = cell base size (mem c) k).
    { pose proof (lookup_cells base size n (mem c1) k ltac:(lia)) as H. change (mem c1) with (write_bytes (mem c) (base + Z.of_nat (S k) * size) v) in H at 1.
      rewrite H1, list_lookup_insert_ne, lookup_cells in H by lia. congruence. }
    rewrite Hk1, Hk0. destruct (_ <=? 0).
    + destruct (cells_write base size n Hsize (mem c1) (S k) v Hj Hl Hv) as [H3 H4]. eexists. split; [done|].
      split; [|by eapply array_only_trans]. rewrite H3. cbn [c1 mem set_mem]. by rewrite H1, list_insert_insert_eq.
    + destruct (cells_memcpy base size n Hsize (mem c1) (S k) k Hj) as [H3 H4].
      destruct (IH (set_mem (memcpy (mem c1) (base + Z.of_nat (S k) * size) (base + Z.of_nat k * size) size) c1) ltac:(lia)) as (m' & E1 & E2 & E3).
      exists m'. rewrite E1, E2. split; [done|]. split; [|eapply array_only_trans; [exact H2|by eapply array_only_trans]].
      cbn [mem set_mem]. f_equal. rewrite H3, Hk0. cbn [c1 mem set_mem]. by rewrite H1, list_insert_insert_eq.
Qed.
Lemma insert_elem_spec c pre x post :
  cells (mem c) = pre ++ x :: post ->
  exists m', insert_elem run2 cmp base size c (length pre) = set_mem m' c /\
    cells m' = rev (insert_rev f x (rev pre)) ++ post /\ array_only base size n (mem c) m'.
Proof.
  intros Hc. assert (Hl : (length pre < n)%nat).
  { apply (f_equal length) in Hc. rewrite length_cells, length_app in Hc. simpl in Hc. lia. }
  assert (Hx : cell base size (mem c) (length pre) = x).
  { pose proof (lookup_cells base size n (mem c) _ Hl) as H. rewrite Hc, list_lookup_middle in H by done. congruence. }
  unfold insert_elem. rewrite slot_ptr_eq by done. unfold cell in Hx. rewrite Hx.
  destruct (sift_spec x (length pre) c Hl) as (m' & E1 & E2 & E3).
  { rewrite <-Hx. apply blen_read_bytes. lia. } { rewrite <-Hx. apply read_bytes_ok. }
  exists m'. by rewrite E1, E2, Hc, shift_in_spec.
Qed.

Lemma sort_steps c pre post :
  cells (mem c) = pre ++ post ->
  exists m', foldl (insert_elem run2 cmp base size) c (seq (length pre) (length post)) = set_mem m' c /\
    cells m' = rev (foldl (fun r v => insert_rev f v r) (rev pre) post) /\ array_only base size n (mem c) m'.
Proof.
  revert c pre. induction post as [|x post IH]; intros c pre Hc.
  - exists (mem c). rewrite app_nil_r in Hc. simpl. rewrite rev_involutive. by destruct c.
  - destruct (insert_elem_spec c pre x post Hc) as (m1 & E1 & E2 & E3).
    destruct (IH (set_mem m1 c) _ E2) as (m' & F1 & F2 & F3). exists m'.
    cbn [length seq foldl]. rewrite E1. rewrite rev_involutive in F2.
    replace (length (rev (insert_rev f x (rev pre)))) with (S (length pre)) in F1
      by (rewrite length_rev, insert_rev_Permutation; simpl; by rewrite length_rev).
    rewrite F1. split; [done|]. split; [done|]. by eapply array_only_trans.
Qed.

Lemma sort_loop_spec c :
  exists m', sort_loop run2 cmp base size (Z.of_nat n) c = set_mem m' c /\
    cells m' = insertion_sort f (cells (mem c)) /\ array_only base size n (mem c) m'.
Proof.
  unfold sort_loop. rewrite Nat2Z.id. destruct (cells (mem c)) as [|x l] eqn:E.
  - exists (mem c). apply (f_equal length) in E as El. rewrite length_cells in El. simpl in El. rewrite El. simpl.
    rewrite <-El. split; [by destruct c|]. by rewrite E.
  - destruct (sort_steps c [x] l E) as (m' & E1 & E2 & E3). exists m'.
    apply (f_equal length) in E. rewrite length_cells in E. simpl in E. rewrite E at 1. simpl. rewrite Nat.sub_0_r. done.
Qed.

(** * Binary search *)

(** [g i]: what the comparator says of the key against element [i]. *)
Variables (key : Z) (g : nat -> Z).

(** The elements the key is above come first, those it is below last. *)
Record searchable (c : exec_ctx) : Prop := Searchable {
  se_reads : forall i, (i < n)%nat -> run2 cmp c key (base + Z.of_nat i * size) = (c, Some (g i));
  se_lower : forall i j, (i < j < n)%nat -> g i < 0 -> g j < 0;
  se_upper : forall i j, (i < j < n)%nat -> 0 < g j -> 0 < g i
}.

Variable c : exec_ctx.
Hypothesis Hs : searchable c.
Hypothesis Hn : Z.of_nat n <= 2147483648.

Lemma call_cmp_key i : (i < n)%nat -> call_cmp run2 cmp c key (base + Z.of_nat i * size) = (c, g i).
Proof. intros Hi. unfold call_cmp. by rewrite (se_reads _ Hs). Qed.

Lemma bsearch_step k lo hi :
  bsearch_loop run2 cmp key base size (S k) lo hi c =
    if lo <? hi then
      let '(c', r) := call_cmp run2 cmp c key (u32 (base + u32 (lo + hi) / 2 * size)) in
      if r =? 0 then Some (c', u32 (base + u32 (lo + hi) / 2 * size))
      else if r <? 0 then bsearch_loop run2 cmp key base size k lo (u32 (lo + hi) / 2) c'
      else bsearch_loop run2 cmp key base size k (u32 (lo + hi) / 2 + 1) hi c'
    else Some (c, 0).
Proof. done. Qed.

Lemma bsearch_loop_spec k lo hi :
  0 <= lo -> lo <= hi -> hi <= Z.of_nat n -> hi - lo < 2 ^ Z.of_nat k ->
  (forall i, (i < n)%nat -> Z.of_nat i < lo -> 0 < g i) -> (forall i, (i < n)%nat -> hi <= Z.of_nat i -> g i < 0) ->
  exists r, bsearch_loop run2 cmp key base size (S k) lo hi c = Some (c, r) /\
    (r = 0 /\ (forall i, (i < n)%nat -> g i <> 0) \/ exists i, (i < n)%nat /\ r = base + Z.of_nat i * size /\ g i = 0).
Proof.
  revert lo hi. induction k as [|k IH]; intros lo hi H0 Hle Hhi Hlt Hlo Hup; rewrite bsearch_step.
  - rewrite (proj2 (Z.ltb_ge lo hi)) by lia. exists 0. split; [done|left; split; [done|]]. intros i Hi.
    destruct (Z.lt_ge_cases (Z.of_nat i) lo) as [H|H]; [specialize (Hlo i Hi H)|specialize (Hup i Hi ltac:(lia))]; lia.
  - destruct (Z.ltb_spec lo hi) as [Hlh|Hlh].
    2: { exists 0. split; [done|left; split; [done|]]. intros i Hi.
         destruct (Z.lt_ge_cases (Z.of_nat i) lo) as [H|H]; [specialize (Hlo i Hi H)|specialize (Hup i Hi ltac:(lia))]; lia. }
    rewrite Nat2Z.inj_succ, Z.pow_succ_r in Hlt by lia.
    assert (Hmid : lo <= u32 (lo + hi) / 2 < hi /\ 2 * (u32 (lo + hi) / 2) <= lo + hi < 2 * (u32 (lo + hi) / 2) + 2) by (rewrite u32_small by lia; mlia).
    set (mid := u32 (lo + hi) / 2) in *. clearbody mid. rewrite <-(Z2Nat.id mid) by lia. set (i := Z.to_nat mid) in *.
    assert (Hi : (i < n)%nat) by lia. assert (Em : mid = Z.of_nat i) by lia. rewrite slot_off_eq by done.
    rewrite call_cmp_key by done. destruct (Z.eqb_spec (g i) 0) as [Hz|Hz].
    { exists (base + Z.of_nat i * size). split; [done|]. right. by exists i. }
    destruct (Z.ltb_spec (g i) 0) as [Hneg|Hpos].
    + apply IH; [done|lia|lia|lia|done|]. intros j Hj Hge. destruct (decide (j = i)) as [->|]; [done|].
      apply (se_lower _ Hs i); [lia|done].
    + apply IH; [lia|lia|lia|lia| |done]. intros j Hj Hge. destruct (decide (j = i)) as [->|]; [lia|].
      apply (se_upper _ Hs j i); lia.
Qed.
End Loops.

(** * Properties *)

(** An array of [n] elements inside linear memory. *)
Definition array_in (c : exec_ctx) (base size : Z) (n : nat) : Prop :=
  0 <= base < memory_size c /\ 0 < size <= SCRATCH /\ base + Z.of_nat n * size <= memory_size c < 4294967296.

Section Calls.
Context {fn : Type} (table0 : list (option fn)) (compiles : fn -> bool).
Variables (run2 : fn -> exec_ctx -> Z -> Z -> exec_ctx * option Z).

Lemma qsort_carries_out c base n size cmp_idx cmp f :
  lookup_fn table0 compiles cmp_idx = Some cmp -> comparator run2 cmp f base size n -> array_in c base size n ->
  exists m', m3_yos_qsort table0 compiles run2 c base (Z.of_nat n) size cmp_idx = set_mem m' c /\
    cells base size n m' = insertion_sort f (cells base size n (mem c)) /\ array_only base size n (mem c) m'.
Proof.
  intros Hl Hc (Hb & Hs & He). unfold m3_yos_qsort, yos_sort_inplace, array_outside.
  rewrite (proj2 (Z.eqb_neq size 0)), (proj2 (Z.leb_gt (memory_size c) base)), (proj2 (Z.ltb_ge (memory_size c) _)) by lia.
  rewrite orb_false_r. cbn [orb]. destruct (Z.ltb_spec (Z.of_nat n) 2) as [Hn|Hn].
  - exists (mem c). split; [by destruct c|]. split; [|done]. destruct n as [|[|n]]; [done|done|lia].
  - rewrite Hl, (proj2 (Z.ltb_ge SCRATCH size)) by lia. apply sort_loop_spec; (done || lia).
Qed.

Lemma bsearch_carries_out c key base n size cmp_idx cmp g :
  lookup_fn table0 compiles cmp_idx = Some cmp -> searchable run2 cmp base size n key g c -> array_in c base size n ->
  0 <= key -> key + size <= memory_size c -> Z.of_nat n <= 2147483648 ->
  exists r, m3_yos_bsearch table0 compiles run2 c key base (Z.of_nat n) size cmp_idx = Some (c, r) /\
    (r = 0 /\ (forall i, (i < n)%nat -> g i <> 0) \/ exists i, (i < n)%nat /\ r = base + Z.of_nat i * size /\ g i = 0).
Proof.
  intros Hl Hse (Hb & Hs & He) Hk0 Hk Hn. unfold m3_yos_bsearch.
  rewrite (proj2 (Z.eqb_neq size 0)), (proj2 (Z.leb_gt (memory_size c) base)), (proj2 (Z.ltb_ge (memory_size c) (base + _))) by lia.
  rewrite (proj2 (Z.leb_gt (memory_size c) key)), (proj2 (Z.ltb_ge (memory_size c) (key + _))) by lia. rewrite !orb_false_r. cbn [orb].
  destruct (Z.eqb_spec (Z.of_nat n) 0) as [Hz|Hz].
  { exists 0. split; [done|left; split; [done|]]. intros i Hi. lia. }
  rewrite Hl. apply (bsearch_loop_spec run2 cmp base size n); (done || lia).
Qed.

(** A sorted array is searchable. *)
Lemma sorted_searchable f cmp base size n key kb c :
  ordering f -> StronglySorted (below f) (cells base size n (mem c)) ->
  (forall i, (i < n)%nat -> run2 cmp c key (base + Z.of_nat i * size) = (c, Some (f kb (cell base size (mem c) i)))) ->
  searchable run2 cmp base size n key (fun i => f kb (cell base size (mem c) i)) c.
Proof.
  intros Hf Hs Hr.
  assert (Hij : forall i j, (i < j < n)%nat -> f (cell base size (mem c) i) (cell base size (mem c) j) <= 0).
  { intros i j Hij. apply (StronglySorted_lookup _ _ i j _ _ Hs); [lia|apply lookup_cells; lia..]. }
  split; [done| |].
  - intros i j Hlt Hi. specialize (Hij i j Hlt). apply (or_sign f Hf) in Hi. apply (or_sign f Hf).
    destruct (Z.lt_ge_cases 0 (f (cell base size (mem c) j) kb)) as [|H]; [done|].
    pose proof (or_trans f Hf _ _ _ Hij H). lia.
  - intros i j Hlt Hj. specialize (Hij i j Hlt). apply (or_sign f Hf) in Hj. apply (or_sign f Hf).
    destruct (Z.lt_ge_cases (f (cell base size (mem c) i) kb) 0) as [|H]; [done|].
    destruct (Z.le_gt_cases (f kb (cell base size (mem c) i)) 0) as [H2|H2]; [|apply (or_sign f Hf) in H2; lia].
    pose proof (or_trans f Hf _ _ _ H2 Hij). apply (or_sign f Hf) in Hj. lia.
Qed.
End Calls.

(** C17: With a comparator that orders the elements, qsort leaves the array
    sorted, with the same elements, equal ones in their old order, and no other
    byte of the memory changed. *)
Theorem qsort_sorts {fn : Type} table0 compiles run2 c base n size cmp_idx (cmp : fn) f :
  lookup_fn table0 compiles cmp_idx = Some cmp -> comparator run2 cmp f base size n -> ordering f ->
  array_in c base size n ->
  exists m', m3_yos_qsort table0 compiles run2 c base (Z.of_nat n) size cmp_idx = set_mem m' c /\
    StronglySorted (below f) (cells base size n m') /\
    cells base size n m' ≡ₚ cells base size n (mem c) /\
    (forall x, List.filter (same f x) (cells base size n m') = List.filter (same f x) (cells base size n (mem c))) /\
    array_only base size n (mem c) m'.
Proof.
  intros Hl Hc Hf Ha. destruct (qsort_carries_out _ _ _ _ _ _ _ _ _ _ Hl Hc Ha) as (m' & E & Em & Ho).
  exists m'. rewrite E, Em. split_and!; [done|by apply insertion_sort_sorted|by apply insertion_sort_Permutation| |done].
  intros x. by apply insertion_sort_stable.
Qed.

(** Whatever the comparator answers, even if it is no ordering, qsort ends
    and carries out insertion sort on the list of the elements. *)
Theorem qsort_is_insertion_sort {fn : Type} table0 compiles run2 c base n size cmp_idx (cmp : fn) f :
  lookup_fn table0 compiles cmp_idx = Some cmp -> comparator run2 cmp f base size n -> array_in c base size n ->
  cells base size n (mem (m3_yos_qsort table0 compiles run2 c base (Z.of_nat n) size cmp_idx)) =
    insertion_sort f (cells base size n (mem c)).
Proof. intros Hl Hc Ha. by destruct (qsort_carries_out _ _ _ _ _ _ _ _ _ _ Hl Hc Ha) as (m' & -> & ? & _). Qed.

(** C21: After qsort, bsearch with the same comparator ends, and finds an element
    equal to the key exactly when the array had one. *)
Theorem bsearch_after_qsort {fn : Type} table0 compiles run2 c base n size cmp_idx (cmp : fn) f key :
  lookup_fn table0 compiles cmp_idx = Some cmp -> comparator run2 cmp f base size n -> ordering f ->
  array_in c base size n -> Z.of_nat n <= 2147483648 ->
  0 <= key -> key + size <= memory_size c -> key + size <= base \/ base + Z.of_nat n * size <= key ->
  (forall c i, (i < n)%nat -> run2 cmp c key (base + Z.of_nat i * size) =
    (c, Some (f (read_bytes (mem c) key size) (cell base size (mem c) i)))) ->
  let c' := m3_yos_qsort table0 compiles run2 c base (Z.of_nat n) size cmp_idx in
  let equal x := f (read_bytes (mem c) key size) x = 0 in
  exists r, m3_yos_bsearch table0 compiles run2 c' key base (Z.of_nat n) size cmp_idx = Some (c', r) /\
    (r = 0 /\ (forall x, x ∈ cells base size n (mem c) -> ~ equal x) \/
     exists i x, r = base + Z.of_nat i * size /\ cells base size n (mem c') !! i = Some x /\ equal x).
Proof.
  intros Hl Hc Hf Ha Hn Hk0 Hk1 Hkd Hkey c' equal. destruct Ha as (Hb & Hs & He) eqn:EHa; clear EHa.
  destruct (qsort_carries_out _ _ _ _ _ _ _ _ _ _ Hl Hc (conj Hb (conj Hs He))) as (m' & E & Em & Ho).
  fold c' in E. rewrite E. clearbody c'. subst c'.
  assert (Hkb : read_bytes m' key size = read_bytes (mem c) key size) by (apply read_bytes_agree; intros a Hr; apply Ho; lia).
  assert (Hse : searchable run2 cmp base size n key (fun i => f (read_bytes (mem c) key size) (cell base size m' i)) (set_mem m' c)).
  { apply (sorted_searchable run2 f cmp base size n key (read_bytes (mem c) key size) (set_mem m' c) Hf).
    - cbn [mem set_mem]. rewrite Em. by apply insertion_sort_sorted.
    - intros i Hi. rewrite Hkey by done. cbn [mem set_mem]. by rewrite Hkb. }
  destruct (bsearch_carries_out table0 compiles run2 (set_mem m' c) key base n size cmp_idx cmp _ Hl Hse (conj Hb (conj Hs He)) Hk0 Hk1 Hn) as (r & -> & Hr).
  exists r. split; [done|]. destruct Hr as [[-> Hno]|(i & Hi & -> & Hz)]; [left|right].
  - split; [done|]. intros x Hx. rewrite <-(insertion_sort_Permutation f), <-Em in Hx.
    apply list_elem_of_fmap in Hx as (i & -> & Hi%elem_of_seq). apply Hno. lia.
  - exists i, (cell base size m' i). by split_and!; [|apply lookup_cells|].
Qed.

(** * Witnesses *)

Definition byte_cmp (_ : unit) (c : exec_ctx) (a b : Z) : exec_ctx * option Z := (c, Some (ld8 (mem c) a - ld8 (mem c) b)).
Definition first_byte (x y : bytes) : Z := hd 0 x - hd 0 y.
Definition four_bytes : exec_ctx := ExecCtx (write_bytes (fun _ => 0) 100 [7; 3; 9; 3]) 65536 0 0 [] [] 0 0 0 0.

Lemma first_byte_orders : ordering first_byte.
Proof. split; unfold first_byte; intros; lia. Qed.

Lemma byte_cmp_compares : comparator byte_cmp tt first_byte 100 1 4.
Proof. intros c i j _ _. unfold byte_cmp, first_byte, cell. by rewrite !read_byte, !Z.mul_1_r. Qed.

Lemma four_bytes_in : array_in four_bytes 100 1 4.
Proof. unfold array_in, SCRATCH. cbn. lia. Qed.

Lemma qsort_sorts_witness :
  exists m', m3_yos_qsort [Some tt] (fun _ => true) byte_cmp four_bytes 100 4 1 0 = set_mem m' four_bytes /\
    StronglySorted (below first_byte) (cells 100 1 4 m') /\ cells 100 1 4 m' ≡ₚ cells 100 1 4 (mem four_bytes) /\
    (forall x, List.filter (same first_byte x) (cells 100 1 4 m') = List.filter (same first_byte x) (cells 100 1 4 (mem four_bytes))) /\
    array_only 100 1 4 (mem four_bytes) m'.
Proof. exact (qsort_sorts [Some tt] (fun _ => true) byte_cmp four_bytes 100 4 1 0 tt first_byte eq_refl byte_cmp_compares first_byte_orders four_bytes_in). Defined.

Lemma qsort_is_insertion_sort_witness :
  cells 100 1 4 (mem (m3_yos_qsort [Some tt] (fun _ => true) byte_cmp four_bytes 100 4 1 0)) = [[3]; [3]; [7]; [9]].
Proof. exact (qsort_is_insertion_sort [Some tt] (fun _ => true) byte_cmp four_bytes 100 4 1 0 tt first_byte eq_refl byte_cmp_compares four_bytes_in). Defined.

Lemma bsearch_after_qsort_witness :
  let c' := m3_yos_qsort [Some tt] (fun _ => true) byte_cmp four_bytes 100 4 1 0 in
  exists r, m3_yos_bsearch [Some tt] (fun _ => true) byte_cmp c' 200 100 4 1 0 = Some (c', r) /\
    (r = 0 /\ (forall x, x ∈ cells 100 1 4 (mem four_bytes) -> ~ first_byte [0] x = 0) \/
     exists i x, r = 100 + Z.of_nat i * 1 /\ cells 100 1 4 (mem c') !! i = Some x /\ first_byte [0] x = 0).
Proof.
  refine (bsearch_after_qsort [Some tt] (fun _ => true) byte_cmp four_bytes 100 4 1 0 tt first_byte 200 eq_refl byte_cmp_compares
    first_byte_orders four_bytes_in _ _ _ _ _); [lia|lia|vm_compute; discriminate|right; lia|].
  intros c i _. unfold byte_cmp, first_byte, cell. by rewrite !read_byte, !Z.mul_1_r.
Defined.
