(* ===== verification/ScandirProps.v ===== *)
(** Scandir against the laws of the guest's heap: the accepted entries come back
    in buffers of their own behind one name list, and a call that fails, at
    whatever allocation, leaves nothing allocated. *)
From S2P Require Import Prelude Memory Ctx CString Alloc AllocProps AllocThms GuestHeap Callback CallbackProps.

(** * Directory records *)

Definition entry_ok (de : host_dirent) : Prop := Forall byte_ok (d_name de).

Lemma le_ok n v : bytes_ok (le n v).
Proof. revert v. induction n as [|n IH]; intros v; simpl; constructor; [apply Z.mod_pos_bound; lia|apply IH]. Qed.

Lemma le_length n v : length (le n v) = n.
Proof. revert v. induction n as [|n IH]; intros v; simpl; [done|]. by rewrite IH. Qed.

Lemma dirent_bytes_ok de sz : entry_ok de -> bytes_ok (dirent_bytes de sz).
Proof.
  intros He. unfold dirent_bytes, bytes_ok. rewrite !Forall_app. split_and!; try apply le_ok.
  - constructor; [apply u8_range|]. constructor; [lia|constructor].
  - apply Forall_take. eapply Forall_impl; [exact He|]. unfold byte_ok. lia.
  - constructor; [lia|constructor].
Qed.

Lemma dirent_bytes_length de sz : blen (dirent_bytes de sz) = 25 + blen (firstn 255 (d_name de)).
Proof. unfold dirent_bytes, blen. rewrite !length_app, !le_length. cbn [length]. lia. Qed.

(** The record fits its block, and the block is small. *)
Lemma dirent_size_spec de : blen (dirent_bytes de (dirent_size de)) <= dirent_size de <= 287.
Proof.
  rewrite dirent_bytes_length. unfold dirent_size. set (x := 24 + blen _ + 1 + 7).
  assert (Hx : 0 <= blen (firstn 255 (d_name de)) <= 255) by (unfold blen; rewrite length_take; lia).
  pose proof (land_lnot_pow2 x 3 ltac:(lia)) as E. change (2 ^ 3 - 1) with 7 in E. change (2 ^ 3) with 8 in E.
  rewrite E. unfold x. clear x E. mlia.
Qed.

(** A buffer that holds the record of an entry. *)
Definition holds_entry (m : memory) (b : region) (de : host_dirent) : Prop :=
  read_bytes m (r_addr b) (blen (dirent_bytes de (dirent_size de))) = dirent_bytes de (dirent_size de) /\
  dirent_size de <= r_len b.

(** * The name list *)

Definition words (m : memory) (off : Z) (n : nat) : list Z := map (fun i => ld32 m (off + Z.of_nat i * 4)) (seq 0 n).

(** Only the words of the list may differ. *)
Definition list_only (off : Z) (n : nat) (m m' : memory) : Prop :=
  forall a, a < off \/ off + Z.of_nat n * 4 <= a -> ld8 m' a = ld8 m a.

Lemma list_only_trans off n m1 m2 m3 : list_only off n m1 m2 -> list_only off n m2 m3 -> list_only off n m1 m3.
Proof. intros H1 H2 a Ha. rewrite H2, H1; done. Qed.

Lemma st32_other m a v b : b < a \/ a + 4 <= b -> ld8 (st32 m a v) b = ld8 m b.
Proof. intros H. apply (st32_frame m a v b (b + 1)); lia. Qed.

Lemma words_S m off n : words m off (S n) = ld32 m off :: words m (off + 4) n.
Proof.
  unfold words. cbn [seq map]. rewrite Z.add_0_r. f_equal. rewrite <-seq_shift, map_map. apply map_ext. intros i. f_equal. lia.
Qed.

Lemma words_agree m m' off n :
  (forall a, off <= a < off + Z.of_nat n * 4 -> ld8 m' a = ld8 m a) -> words m' off n = words m off n.
Proof.
  intros H. apply map_ext_in. intros i Hi%list_elem_of_In%elem_of_seq. apply ld32_agree. intros a Ha. apply H. lia.
Qed.

Lemma store_words_spec ws m off :
  Forall (fun w => 0 <= w < 4294967296) ws ->
  words (store_words m off ws) off (length ws) = ws /\ list_only off (length ws) m (store_words m off ws).
Proof.
  revert m off. induction ws as [|w ws IH]; intros m off Hw; [done|]. apply Forall_cons in Hw as [Hw Hws].
  destruct (IH (st32 m off w) (off + 4) Hws) as [H1 H2]. cbn [store_words length]. split.
  - rewrite words_S, H1. f_equal. rewrite (ld32_agree (st32 m off w)); [by rewrite ld32_st32, u32_small|].
    intros a Ha. apply H2. lia.
  - intros a Ha. rewrite H2 by lia. apply st32_other. lia.
Qed.

(** Exchanging two neighbours. *)
Lemma swap_words m off n k :
  (S k < n)%nat ->
  let a := off + Z.of_nat k * 4 in
  let b := off + Z.of_nat (S k) * 4 in
  let m' := st32 (st32 m a (ld32 m b)) b (ld32 m a) in
  words m' off n ≡ₚ words m off n /\ list_only off n m m'.
Proof.
  intros Hk a b m'. assert (Eb : b = a + 4) by (unfold a, b; lia). split.
  - replace n with (k + (2 + (n - k - 2)))%nat by lia. unfold words. rewrite !seq_app, !map_app. cbn [Nat.add seq map app].
    assert (Ha : ld32 m' a = ld32 m b).
    { unfold m'. rewrite ld32_st32_ne, ld32_st32, u32_small by (lia || apply ld32_range). done. }
    assert (Hb : ld32 m' b = ld32 m a) by (unfold m'; rewrite ld32_st32, u32_small by apply ld32_range; done).
    fold a. fold b. rewrite Ha, Hb.
    assert (Ho : forall l, k ∉ l -> S k ∉ l ->
      map (fun i => ld32 m' (off + Z.of_nat i * 4)) l = map (fun i => ld32 m (off + Z.of_nat i * 4)) l).
    { intros l H1 H2. apply map_ext_in. intros i Hi%list_elem_of_In. assert (i <> k) by congruence. assert (i <> S k) by congruence.
      unfold m'. rewrite !ld32_st32_ne by (unfold a, b; lia). done. }
    rewrite !Ho by (rewrite elem_of_seq; lia).
    apply Permutation_app_head. apply perm_swap.
  - intros x Hx. unfold m'. rewrite !st32_other by (unfold a, b in *; lia). done.
Qed.

(** The addresses of records are 32-bit words. *)
Lemma entry_addrs m bs des sz :
  sz <= 4294967296 -> Forall2 (holds_entry m) bs des -> Forall (fun p => 0 < r_addr p /\ r_end p <= sz) bs ->
  Forall (fun b => 0 <= r_addr b < 4294967296) bs.
Proof.
  intros Hsz H. induction H as [|b de bs des [_ Hl] _ IH]; intros Hb; [constructor|]. apply Forall_cons in Hb as [Hb Hbs].
  constructor; [|by apply IH]. pose proof (dirent_size_spec de) as Hs. rewrite dirent_bytes_length in Hs.
  pose proof (blen_nonneg (take 255 (d_name de))). unfold r_end in Hb. lia.
Qed.

Section Scandir.
Context {malloc : exec_ctx -> Z -> Z * exec_ctx} {free : exec_ctx -> Z -> option exec_ctx}.
Context {GH : GuestHeap malloc free}.

Lemma kept_entry T c c' ps b de : kept T c c' ps -> b ∈ ps -> holds_entry (mem c) b de -> holds_entry (mem c') b de.
Proof.
  intros K Hb [H Hl]. split; [|done]. rewrite (read_bytes_agree (mem c)); [done|]. intros a Ha.
  apply (kp_bytes _ _ _ _ K). left. exists b. split; [done|]. pose proof (dirent_size_spec de). unfold in_region, r_end. lia.
Qed.

Lemma kept_entries T c c' ps bs des :
  kept T c c' ps -> (forall b, b ∈ bs -> b ∈ ps) -> Forall2 (holds_entry (mem c)) bs des -> Forall2 (holds_entry (mem c')) bs des.
Proof.
  intros K Hsub H. induction H as [|b de bs des H _ IH]; constructor.
  - eapply kept_entry; [done|apply Hsub; by left|done].
  - apply IH. intros b' Hb'. apply Hsub. by right.
Qed.

(** Filling a fresh block. *)
Lemma fill_spec c b ps de :
  heap_inv c (b :: ps) -> dirent_size de <= r_len b -> entry_ok de ->
  let c' := fill_dirent de (r_addr b) c in
  heap_inv c' (b :: ps) /\ kept territory c c' ps /\ holds_entry (mem c') b de.
Proof.
  intros Hi Hl He c'. pose proof (dirent_size_spec de) as Hsz.
  destruct (write_buffer c b ps (mem c') Hi) as [H1 H2].
  { intros a Ha. unfold in_region, r_end in Ha. unfold c', fill_dirent. cbn [mem set_mem].
    rewrite write_bytes_other by lia. apply (memset_frame (mem c) (r_addr b) 0 (dirent_size de) a (a + 1)); lia. }
  split; [exact H1|]. split; [exact H2|]. split; [|done]. apply read_bytes_write, dirent_bytes_ok, He.
Qed.

(** Giving back the blocks collected so far. *)
Lemma free_all_spec bs c ps :
  heap_inv c (bs ++ ps) -> exists c', free_all free c (map r_addr bs) = Some c' /\ heap_inv c' ps /\ kept territory c c' ps.
Proof.
  revert c. induction bs as [|b bs IH]; intros c Hi; [by exists c|].
  destruct (gh_free c b (bs ++ ps) Hi) as (c1 & E & Hi1 & K1). destruct (IH c1 Hi1) as (c2 & E2 & Hi2 & K2).
  exists c2. unfold free_all in *. cbn [map foldl mbind option_bind]. rewrite E. split; [done|]. split; [done|].
  eapply kept_trans; [|done]. eapply kept_sub; [done|]. intros p Hp. apply elem_of_app. by right.
Qed.
(** * The readdir loop *)

Context {fn : Type} (run1 : fn -> exec_ctx -> Z -> exec_ctx * option Z).
Variables (realloc_ok : nat -> bool) (filter : option fn) (keep : host_dirent -> option Z).

(** The guest's filter only reads the record it is given; it may trap. *)
Definition filter_reads : Prop :=
  forall f c b de, filter = Some f -> holds_entry (mem c) b de -> run1 f c (r_addr b) = (c, keep de).

Definition accepts (de : host_dirent) : bool :=
  match filter with Some _ => negb (default 1 (keep de) =? 0) | None => true end.

Hypothesis Hfilter : filter_reads.

Lemma filter_call c b de :
  holds_entry (mem c) b de ->
  exists r, match filter with Some f => call_filter run1 f c (r_addr b) | None => (c, 1) end = (c, r) /\ (r =? 0) = negb (accepts de).
Proof.
  intros Hh. unfold accepts, filter_reads in *. destruct filter as [f|]; [|by exists 1]. unfold call_filter.
  rewrite (Hfilter f c b de eq_refl Hh). eexists. split; [done|]. by rewrite negb_involutive.
Qed.

(** What the loop leaves: the records of [acc], or the heap of the start. *)
Definition collected (c : exec_ctx) (ps : list region) (acc : list host_dirent) (res : exec_ctx * list Z + exec_ctx) : Prop :=
  match res with
  | inr c' => heap_inv c' ps /\ kept territory c c' ps
  | inl (c', offs) => exists bs, offs = map r_addr bs /\ heap_inv c' (bs ++ ps) /\ Forall2 (holds_entry (mem c')) bs acc /\
      kept territory c c' ps
  end.

Lemma collected_trans c1 c2 ps acc res : kept territory c1 c2 ps -> collected c2 ps acc res -> collected c1 ps acc res.
Proof.
  intros K. destruct res as [[c' offs]|c']; simpl.
  - intros (bs & H1 & H2 & H3 & H4). exists bs. split_and!; [done..|]. by eapply kept_trans.
  - intros [H1 H2]. split; [done|]. by eapply kept_trans.
Qed.

(** Giving up: everything is freed. *)
Lemma abandon_entry c bs ps acc :
  heap_inv c (bs ++ ps) -> exists res, inr <$> free_all free c (map r_addr bs) = Some res /\ collected c ps acc res.
Proof. intros (c' & E & Hi & K)%free_all_spec. rewrite E. by exists (inr c'). Qed.

Lemma heap_snoc c b bs ps : heap_inv c (b :: bs ++ ps) -> heap_inv c ((bs ++ [b]) ++ ps).
Proof. apply gh_perm. rewrite <-app_assoc. apply Permutation_middle. Qed.

(** One entry: allocation, filling and filter. *)
Lemma entry_spec c bs ps acc de :
  heap_inv c (bs ++ ps) -> Forall2 (holds_entry (mem c)) bs acc -> entry_ok de ->
  malloc c (dirent_size de) = (0, c) \/
  exists b c1 r, malloc c (dirent_size de) = (r_addr b, c1) /\ r_addr b <> 0 /\
    let c2 := fill_dirent de (r_addr b) c1 in
    match filter with Some f => call_filter run1 f c2 (r_addr b) | None => (c2, 1) end = (c2, r) /\ (r =? 0) = negb (accepts de) /\
    heap_inv c2 (b :: bs ++ ps) /\ Forall2 (holds_entry (mem c2)) (bs ++ [b]) (acc ++ [de]) /\ kept territory c c2 (bs ++ ps).
Proof.
  intros Hi Hacc He. pose proof (dirent_size_spec de) as Hsz. rewrite dirent_bytes_length in Hsz. pose proof (blen_nonneg (take 255 (d_name de))).
  destruct (gh_malloc c (bs ++ ps) (dirent_size de) Hi ltac:(unfold MALLOC_MAX; lia)) as [E|(b & c1 & E & Hl & Hi1 & K1)]; [by left|right].
  destruct (fill_spec c1 b (bs ++ ps) de Hi1 Hl He) as (Hi2 & K2 & Hh).
  destruct (filter_call _ b de Hh) as (r & Hr & Hz). exists b, c1, r.
  destruct (gh_bounds _ _ Hi1) as (_ & [[Hb _] _]%Forall_cons & _).
  assert (K : kept territory c (fill_dirent de (r_addr b) c1) (bs ++ ps)) by (by eapply kept_trans).
  split; [done|]. split; [lia|]. cbv zeta. split_and!; [done|done|done| |done]. apply Forall2_app; [|by apply Forall2_cons].
  eapply kept_entries; [exact K| |done]. intros b' Hb'. apply elem_of_app. by left.
Qed.

Lemma collect_spec des : forall c bs ps acc cap,
  heap_inv c (bs ++ ps) -> Forall2 (holds_entry (mem c)) bs acc -> Forall entry_ok des ->
  exists res, collect run1 malloc free realloc_ok filter des (map r_addr bs) cap c = Some res /\
    collected c ps (acc ++ List.filter accepts des) res.
Proof.
  induction des as [|de des IH]; intros c bs ps acc cap Hi Hacc Hdes; cbn [collect List.filter].
  - rewrite app_nil_r. exists (inl (c, map r_addr bs)). split; [done|]. by exists bs.
  - apply Forall_cons in Hdes as [He Hdes].
    destruct (entry_spec c bs ps acc de Hi Hacc He) as [->|(b & c1 & r & -> & Hb & Hr & Hz & Hi2 & Hacc2 & K)]; [by apply abandon_entry|].
    rewrite (proj2 (Z.eqb_neq (r_addr b) 0)) by done. cbv zeta. rewrite Hr, Hz.
    set (c2 := fill_dirent de (r_addr b) c1) in *. clearbody c2.
    assert (Kps : kept territory c c2 ps) by (eapply kept_sub; [exact K|]; intros p Hp; apply elem_of_app; by right).
    destruct (accepts de) eqn:Ea; cbn [negb].
    + replace (map r_addr bs ++ [r_addr b]) with (map r_addr (bs ++ [b])) by (by rewrite map_app).
      assert (Hgo : forall cap', exists res, collect run1 malloc free realloc_ok filter des (map r_addr (bs ++ [b])) cap' c2 = Some res /\
        collected c ps (acc ++ de :: List.filter accepts des) res).
      { intros cap'. destruct (IH c2 (bs ++ [b]) ps (acc ++ [de]) cap' (heap_snoc _ _ _ _ Hi2) Hacc2 Hdes) as (res & E & Hres).
        exists res. split; [done|]. rewrite <-app_assoc in Hres. by eapply collected_trans. }
      destruct (Nat.eqb _ cap); [|apply Hgo]. destruct (realloc_ok _); [apply Hgo|].
      destruct (gh_free c2 b (bs ++ ps) Hi2) as (c3 & -> & Hi3 & K3). cbn [mbind option_bind].
      destruct (abandon_entry c3 bs ps (acc ++ de :: List.filter accepts des) Hi3) as (res & E & Hres). exists res. split; [done|].
      eapply collected_trans; [|exact Hres]. eapply kept_trans; [exact Kps|]. eapply kept_sub; [exact K3|]. intros p Hp. apply elem_of_app. by right.
    + destruct (gh_free c2 b (bs ++ ps) Hi2) as (c3 & -> & Hi3 & K3). cbn [mbind option_bind].
      assert (K' : kept territory c c3 (bs ++ ps)) by (by eapply kept_trans).
      destruct (IH c3 bs ps acc cap Hi3) as (res & E & Hres); [|done|].
      { eapply kept_entries; [exact K'| |done]. intros b' Hb'. apply elem_of_app. by left. }
      exists res. split; [done|]. eapply collected_trans; [|done]. eapply kept_sub; [exact K'|]. intros p Hp. apply elem_of_app. by right.
Qed.
(** * The sort *)

Variables (run2 : fn -> exec_ctx -> Z -> Z -> exec_ctx * option Z).

(** The guest's comparator only reads. *)
Definition compar_reads : Prop := forall f c a b, (run2 f c a b).1 = c.

Hypothesis Hcompar : compar_reads.

Lemma swap_down_spec f off n j c :
  (j < n)%nat ->
  exists m', swap_down run2 f off j c = set_mem m' c /\ words m' off n ≡ₚ words (mem c) off n /\ list_only off n (mem c) m'.
Proof.
  revert c. induction j as [|k IH]; intros c Hj; [by exists (mem c); destruct c|]. cbn [swap_down]. unfold call_cmp.
  pose proof (Hcompar f c (off + Z.of_nat k * 4) (off + Z.of_nat (S k) * 4)) as Hc.
  destruct (run2 _ _ _ _) as [c1 r]. simpl in Hc. subst c1. destruct (_ <=? 0); [by exists (mem c); destruct c|].
  destruct (swap_words (mem c) off n k Hj) as [H1 H2].
  destruct (IH (set_mem (st32 (st32 (mem c) (off + Z.of_nat k * 4) (ld32 (mem c) (off + Z.of_nat (S k) * 4)))
    (off + Z.of_nat (S k) * 4) (ld32 (mem c) (off + Z.of_nat k * 4))) c) ltac:(lia)) as (m' & -> & H3 & H4).
  exists m'. split; [done|]. split; [by rewrite H3|by eapply list_only_trans].
Qed.

Lemma sort_names_spec compar off n c :
  exists m', sort_names run2 compar off n c = set_mem m' c /\ words m' off n ≡ₚ words (mem c) off n /\ list_only off n (mem c) m'.
Proof.
  unfold sort_names. destruct compar as [f|]; [|by exists (mem c); destruct c].
  assert (H : Forall (fun i => i < n)%nat (seq 1 (n - 1))) by (apply Forall_seq; lia).
  revert c. induction H as [|i l Hi _ IH]; intros c; [by exists (mem c); destruct c|]. cbn [foldl].
  destruct (swap_down_spec f off n i c Hi) as (m1 & -> & H1 & H2). destruct (IH (set_mem m1 c)) as (m' & -> & H3 & H4).
  exists m'. split; [done|]. split; [by rewrite H3|by eapply list_only_trans].
Qed.
(** * The result *)

(** The name list of a call: its block, its words in the order the sort gave
    them, and the records they point to. *)
Definition list_block (accepted : list host_dirent) (lbs : list region) (m : memory) (bs : list region) : Prop :=
  match lbs with
  | [] => accepted = []
  | [lb] => accepted <> [] /\ Z.of_nat (length accepted) * 4 <= r_len lb /\ words m (r_addr lb) (length accepted) ≡ₚ map r_addr bs
  | _ => False
  end.

Definition list_addr (lbs : list region) : Z := match lbs with lb :: _ => r_addr lb | [] => 0 end.

(** Building the list in a fresh block. *)
Lemma list_spec c bs ps acc compar :
  heap_inv c (bs ++ ps) -> Forall2 (holds_entry (mem c)) bs acc -> acc <> [] -> Z.of_nat (length acc) * 4 <= MALLOC_MAX ->
  memory_size c <= 4294967296 ->
  malloc c (u32 (Z.of_nat (length bs) * 4)) = (0, c) \/
  exists lb c1 c2, malloc c (u32 (Z.of_nat (length bs) * 4)) = (r_addr lb, c1) /\ r_addr lb <> 0 /\
    sort_names run2 compar (r_addr lb) (length bs) (set_mem (store_words (mem c1) (r_addr lb) (map r_addr bs)) c1) = c2 /\
    heap_inv c2 (lb :: bs ++ ps) /\ Forall2 (holds_entry (mem c2)) bs acc /\ list_block acc [lb] (mem c2) bs /\
    memory_size c2 = memory_size c /\ kept territory c c2 (bs ++ ps).
Proof.
  intros Hi Hacc Hne Hlen Hsz. pose proof (Forall2_length _ _ _ Hacc) as Hl.
  assert (Hpos : (0 < length acc)%nat) by (destruct acc; [done|simpl; lia]). rewrite Hl, u32_small by (unfold MALLOC_MAX in Hlen; lia).
  destruct (gh_malloc c (bs ++ ps) (Z.of_nat (length acc) * 4) Hi ltac:(lia)) as [E|(lb & c1 & E & Hlb & Hi1 & K1)]; [by left|right].
  destruct (gh_bounds _ _ Hi1) as (_ & Hb & _). apply Forall_cons in Hb as [[Hb0 _] Hb]. rewrite (kp_size _ _ _ _ K1) in Hb.
  set (m1 := store_words (mem c1) (r_addr lb) (map r_addr bs)).
  destruct (store_words_spec (map r_addr bs) (mem c1) (r_addr lb)) as [Hw Ho1].
  { apply Forall_map. apply Forall_app in Hb as [Hb _]. by eapply entry_addrs. }
  fold m1 in Hw, Ho1. rewrite length_map, Hl in Hw, Ho1.
  destruct (sort_names_spec compar (r_addr lb) (length acc) (set_mem m1 c1)) as (m2 & Es & Hp & Ho). exists lb, c1, (set_mem m2 c1).
  destruct (write_buffer c1 lb (bs ++ ps) m2 Hi1) as [Hi2 K2].
  { intros a Ha. unfold in_region, r_end in Ha. rewrite Ho, Ho1 by lia. done. }
  assert (K : kept territory c (set_mem m2 c1) (bs ++ ps)) by (by eapply kept_trans).
  split; [done|]. split; [lia|]. split; [exact Es|]. split; [exact Hi2|].
  split; [|split; [|split; [by rewrite (kp_size _ _ _ _ K)|exact K]]].
  - eapply kept_entries; [exact K| |done]. intros b' Hb'. apply elem_of_app. by left.
  - split; [done|]. split; [done|]. cbn [mem set_mem] in *. by rewrite Hp, Hw.
Qed.

(** The store through [namelist]. *)
Lemma store_result c qs ps a v :
  heap_inv c (qs ++ ps) -> program_word c ps a ->
  heap_inv (set_mem (st32 (mem c) a v) c) (qs ++ ps) /\ kept (fun _ _ => True) c (set_mem (st32 (mem c) a v) c) qs.
Proof.
  intros Hi Hw. destruct (store_word c ps (qs ++ ps) a v Hi) as [H1 _]; [|done|].
  { intros r Hr. apply elem_of_app. by right. }
  split; [done|]. split; [done..|]. intros x [(r & Hr & Hin)|Hx]; [|tauto]. apply st32_other.
  destruct (Z.lt_ge_cases x a); [by left|right]. destruct (Z.le_gt_cases (a + 4) x); [done|]. exfalso.
  destruct (gh_bounds _ _ Hi) as (Hd & _ & Ht). destruct (Hw x ltac:(lia)) as [(p & Hp & Hpin)|Hn].
  - apply pairwise_app in Hd as (_ & _ & Hd). by apply (disjoint_r_bytes r p x (Hd r p Hr Hp)).
  - apply Hn, Ht. exists r. split; [apply elem_of_app; by left|done].
Qed.
(** What a successful call hands over: a record per accepted entry, the list of
    their addresses, and, where [namelist] is in range, the list's address. *)
Definition scandir_result (c c' : exec_ctx) (ps : list region) (namelist_off : Z) (accepted : list host_dirent) : Prop :=
  exists bs lbs, heap_inv c' (lbs ++ bs ++ ps) /\ Forall2 (holds_entry (mem c')) bs accepted /\
    list_block accepted lbs (mem c') bs /\
    (namelist_off <> 0 -> u32 (namelist_off + 4) <= memory_size c -> ld32 (mem c') namelist_off = list_addr lbs).

(** The last step, for a list that is built. *)
Lemma finish_spec c c' bs lbs ps acc namelist_off :
  heap_inv c' (lbs ++ bs ++ ps) -> Forall2 (holds_entry (mem c')) bs acc -> list_block acc lbs (mem c') bs ->
  memory_size c' = memory_size c -> memory_size c <= 4294967296 -> program_word c' ps namelist_off ->
  scandir_result c (if negb (namelist_off =? 0) && (u32 (namelist_off + 4) <=? memory_size c)
                    then set_mem (st32 (mem c') namelist_off (list_addr lbs)) c' else c') ps namelist_off acc.
Proof.
  intros Hi Hh Hl Hsz Hmax Hw. exists bs, lbs. destruct (Z.eqb_spec namelist_off 0) as [H0|H0]; cbn [negb andb]; [by split_and!|].
  destruct (Z.leb_spec (u32 (namelist_off + 4)) (memory_size c)) as [Hle|Hlt]; [|by split_and!; [..|lia]].
  rewrite app_assoc in Hi. destruct (store_result c' (lbs ++ bs) ps namelist_off (list_addr lbs) Hi Hw) as [Hi' K].
  assert (Hlist : list_block acc lbs (st32 (mem c') namelist_off (list_addr lbs)) bs).
  { destruct lbs as [|lb [|]]; [done| |done]. destruct Hl as (H1 & H2 & H3). split; [done|]. split; [done|].
    rewrite (words_agree (mem c')); [done|]. intros a Ha. apply (kp_bytes _ _ _ _ K). left. exists lb. split; [by left|].
    unfold in_region, r_end. lia. }
  split_and!; [by rewrite app_assoc| |done|].
  - eapply kept_entries; [exact K| |done]. intros b Hb. apply elem_of_app. by right.
  - intros _ _. cbn [mem set_mem]. rewrite ld32_st32, u32_small; [done|]. destruct lbs as [|lb l]; simpl; [lia|].
    destruct (gh_bounds _ _ Hi) as (_ & Hb & _). apply Forall_cons in Hb as [Hb _]. unfold r_end in Hb.
    destruct l; [|done]. destruct Hl as (Hne & Hlen & _). assert ((0 < length acc)%nat) by (destruct acc; [done|simpl; lia]). lia.
Qed.
End Scandir.

(** * Property *)

(** C23: Scandir returns -1 with the heap as it was, whichever allocation or host
    call failed, or the number of accepted entries, each in a buffer of its own
    in readdir's layout, with a name list that is a permutation of their
    addresses. *)
Theorem scandir_keeps_heap malloc free {GH : GuestHeap malloc free} {fn : Type} table0 compiles (run1 : fn -> _) run2 realloc_ok
    keep c ps path_off namelist_off filter_idx compar_idx des :
  let filter := if filter_idx =? 0 then None else lookup_fn table0 compiles filter_idx in
  let accepted := List.filter (accepts filter keep) des in
  heap_inv c ps -> memory_size c <= 4294967296 -> 0 < path_off < memory_size c -> program_word c ps namelist_off ->
  Forall entry_ok des -> Z.of_nat (length des) * 4 <= MALLOC_MAX -> filter_reads run1 filter keep -> compar_reads run2 ->
  exists c' n, m3_yos_scandir table0 compiles run1 run2 malloc free realloc_ok c path_off namelist_off filter_idx compar_idx (Some des) = Some (c', n) /\
    (n = -1 /\ heap_inv c' ps /\ kept territory c c' ps \/
     n = Z.of_nat (length accepted) /\ scandir_result c c' ps namelist_off accepted).
Proof.
  intros filter accepted Hi Hmax Hp Hw Hdes Hlen Hf Hc. unfold m3_yos_scandir. fold filter.
  rewrite (proj2 (Z.eqb_neq path_off 0)), (proj2 (Z.leb_gt _ _)) by lia. cbn [orb].
  destruct (collect_spec run1 realloc_ok filter keep Hf des c [] ps [] 0%nat Hi (List.Forall2_nil _) Hdes) as (res & E & Hres).
  cbn [map] in E. rewrite E. clear E. cbn [mbind option_bind]. destruct res as [[c1 offs]|c1]; [|by exists c1, (-1); split; [|left]].
  destruct Hres as (bs & -> & Hi1 & Hh & K1). cbn [app] in Hh. fold accepted in Hh. rewrite length_map.
  assert (Hacc : (length accepted <= length des)%nat) by apply List.filter_length_le. clearbody accepted.
  pose proof (Forall2_length _ _ _ Hh) as Hl. assert (Hsz1 : memory_size c1 = memory_size c) by apply K1.
  assert (Hw' : forall c', kept territory c c' ps -> program_word c' ps namelist_off).
  { intros c' K x Hx. destruct (Hw x Hx) as [?|Hn]; [by left|right]. by rewrite (kp_terr _ _ _ _ K). }
  destruct (Nat.eqb_spec (length bs) 0) as [E0|E0].
  - destruct bs; [|done]. inversion Hh; subst. cbn [negb andb]. eexists _, _. split; [done|]. right. split; [done|].
    replace (set_mem (store_words (mem c1) 0 (map r_addr [])) c1) with c1 by (by destruct c1).
    replace (sort_names run2 _ 0 (length []) c1) with c1 by (by destruct (if compar_idx =? 0 then None else lookup_fn table0 compiles compar_idx)).
    apply (finish_spec c c1 [] [] ps []); (done || by apply Hw').
  - set (compar := if compar_idx =? 0 then None else lookup_fn table0 compiles compar_idx).
    assert (Hne : accepted <> []) by (intros ->; simpl in *; lia).
    destruct (list_spec run2 Hc c1 bs ps accepted compar Hi1 Hh Hne ltac:(lia) ltac:(lia)) as [E|(lb & c2 & c3 & -> & Hlb & Hsort & Hi3 & Hh3 & Hb3 & Hsz3 & K3)].
    + rewrite E. cbn [negb andb Z.eqb]. destruct (free_all_spec bs c1 ps Hi1) as (c3 & -> & Hi3 & K3). eexists _, _. split; [done|].
      left. split_and!; [done|done|by eapply kept_trans].
    + rewrite (proj2 (Z.eqb_neq (r_addr lb) 0)) by done. cbn [negb andb]. rewrite Hsort. eexists _, _. split; [done|]. right.
      split; [by rewrite Hl|]. apply (finish_spec c c3 bs [lb] ps); [done|done|done|congruence|done|]. apply Hw'.
      eapply kept_trans; [done|]. eapply kept_sub; [exact K3|]. intros p Hp'. apply elem_of_app. by right.
Qed.

(** * Witness *)

(** A directory with a file and a subdirectory; the filter drops directories. *)
Definition demo_dir : list host_dirent := [HostDirent 11 8 [97]; HostDirent 12 4 [98; 99]].
Definition drop_dirs (_ : unit) (c : exec_ctx) (e : Z) : exec_ctx * option Z := (c, Some (ld8 (mem c) (e + 18) - 4)).
Definition equal_names (_ : unit) (c : exec_ctx) (_ _ : Z) : exec_ctx * option Z := (c, Some 0).
Definition demo_keep (de : host_dirent) : option Z := Some (u8 (d_type de) - 4).

Lemma drop_dirs_reads : filter_reads drop_dirs (Some tt) demo_keep.
Proof.
  intros [] c b de _ [Hh _]. unfold drop_dirs, demo_keep. do 3 f_equal.
  pose proof (dirent_bytes_length de (dirent_size de)) as Hl. pose proof (blen_nonneg (take 255 (d_name de))).
  apply (f_equal (fun s : list Z => s !! 18%nat)) in Hh. cbv beta in Hh. unfold read_bytes in Hh. rewrite list_lookup_fmap, lookup_seqZ_lt in Hh by lia.
  change (dirent_bytes de (dirent_size de) !! 18%nat) with (Some (u8 (d_type de))) in Hh. by injection Hh.
Qed.

Lemma scandir_keeps_heap_witness :
  exists c' n, m3_yos_scandir [None; Some tt] (fun _ => true) drop_dirs equal_names yos_malloc yos_free (fun _ => true)
      heap1 1000 1024 1 1 (Some demo_dir) = Some (c', n) /\
    (n = -1 /\ heap_inv (GuestHeap := alloc_guest_heap) c' [payload (Region 65536 112)] /\
       kept alloc_territory heap1 c' [payload (Region 65536 112)] \/
     n = 1 /\ scandir_result (GH := alloc_guest_heap) heap1 c' [payload (Region 65536 112)] 1024 [HostDirent 11 8 [97]]).
Proof.
  refine (scandir_keeps_heap yos_malloc yos_free [None; Some tt] (fun _ => true) drop_dirs equal_names (fun _ => true) demo_keep
    heap1 [payload (Region 65536 112)] 1000 1024 1 1 demo_dir heap1_inv _ _ (heap1_word _) _ _ drop_dirs_reads _).
  - by vm_compute.
  - split; by vm_compute.
  - repeat constructor; by vm_compute.
  - by vm_compute.
  - by intros [].
Defined.
