(* ===== verification/Printf.v ===== *)
(** The printf family (src/src/yos/impl/libc/printf.c): the walk over the
    guest's format string, the reading of packed variadic arguments, and the
    bounded copy of each formatted piece.

    The host's [snprintf] is a parameter: the text of one specification and its
    arguments, or [None] for a negative result.  The 1024-byte buffer it fills
    is followed by whatever the host's stack holds ([stack]).  A read outside
    linear memory, and a specification that does not fit the 64-byte array it is
    collected in, make a call [None]: the code goes on with memory that is not
    its own. *)
From Stdlib Require Import Strings.String.
From S2P Require Import Prelude Memory Ctx CString.

(** * Variadic arguments *)

Definition va_align (off a : Z) : Z := Z.land (u32 (off + a - 1)) (u32 (Z.lnot (a - 1))).

Definition va_i32 (c : exec_ctx) (off : Z) : Z * Z :=
  let o := va_align off 4 in
  if memory_size c <? o + 4 then (0, u32 (o + 4)) else (ld32 (mem c) o, u32 (o + 4)).

Definition va_i64 (c : exec_ctx) (off : Z) : Z * Z :=
  let o := va_align off 8 in
  if memory_size c <? o + 8 then (0, u32 (o + 8)) else (ld64 (mem c) o, u32 (o + 8)).

(** A double is its 64 bits; the value 0.0 has none set. *)
Definition va_f64 : exec_ctx -> Z -> Z * Z := va_i64.

(** * One conversion specification *)

Definition SPEC_MAX : Z := 64.
Definition BUF : Z := 1024.

(** [*p] of the format; [None] outside linear memory. *)
Definition rd (c : exec_ctx) (p : Z) : option Z :=
  if (0 <=? p) && (p <? memory_size c) then Some (ld8 (mem c) p) else None.

(** [strchr(s, ch)] of a literal finds its terminator too. *)
Definition strchr_hits (s : string) (ch : Z) : bool := (ch =? 0) || existsb (Z.eqb ch) (lit s).
Definition is_digit (ch : Z) : bool := (48 <=? ch) && (ch <=? 57).

(** [while (sp + 1 < sizeof(spec) && ok(p)) spec[sp++] = p++]; the buffer
    bounds the number of iterations. *)
Fixpoint scan (fuel : nat) (ok : Z -> bool) (c : exec_ctx) (p : Z) (spec : bytes) : option (bytes * Z) :=
  match fuel with
  | O => Some (spec, p)
  | S f =>
      if SPEC_MAX <=? blen spec + 1 then Some (spec, p)
      else ch ← rd c p; if ok ch then scan f ok c (p + 1) (spec ++ [ch]) else Some (spec, p)
  end.

Definition SCAN : nat := 64.

(** The length modifiers that were seen. *)
Record mods : Type := Mods { is_ll : bool; is_l : bool; is_h : bool; is_z : bool; is_j : bool }.
Definition no_mods : mods := Mods false false false false false.

Definition note_mod (ch : Z) (m : mods) : mods :=
  if ch =? 108 then Mods (is_ll m) true (is_h m) (is_z m) (is_j m)
  else if ch =? 104 then Mods (is_ll m) (is_l m) true (is_z m) (is_j m)
  else if ch =? 122 then Mods (is_ll m) (is_l m) (is_h m) true (is_j m)
  else if ch =? 106 then Mods (is_ll m) (is_l m) (is_h m) (is_z m) true
  else m.
Definition note_ll (m : mods) : mods := Mods true (is_l m) (is_h m) (is_z m) (is_j m).

Fixpoint scan_mods (fuel : nat) (c : exec_ctx) (p : Z) (spec : bytes) (m : mods) : option (bytes * Z * mods) :=
  match fuel with
  | O => Some (spec, p, m)
  | S f =>
      if SPEC_MAX <=? blen spec + 1 then Some (spec, p, m)
      else
        ch ← rd c p;
        if strchr_hits "hlLjztq" ch then
          if ch =? 108 then
            nx ← rd c (p + 1);
            if nx =? 108 then scan_mods f c (p + 2) (spec ++ [ch; nx]) (note_ll m)
            else scan_mods f c (p + 1) (spec ++ [ch]) (note_mod ch m)
          else scan_mods f c (p + 1) (spec ++ [ch]) (note_mod ch m)
        else Some (spec, p, m)
  end.

(** A specification: its text, whether width and precision are stars, where the
    length modifiers start, and where the conversion character is. *)
Record spec_head : Type := SpecHead {
  sh_text : bytes; sh_width_star : bool; sh_prec_star : bool; sh_mod_start : nat; sh_mods : mods; sh_ptr : Z
}.

Definition STAR : Z := 42.
Definition DOT : Z := 46.

(** The width, and whether it is a star. *)
Definition scan_width (c : exec_ctx) (p : Z) (spec : bytes) : option (bytes * Z * bool) :=
  w ← rd c p;
  if w =? STAR then Some (spec ++ [w], p + 1, true)
  else '(s, q) ← scan SCAN is_digit c p spec; Some (s, q, false).

(** The precision, if there is one, and whether it is a star. *)
Definition scan_prec (c : exec_ctx) (p : Z) (spec : bytes) : option (bytes * Z * bool) :=
  d ← rd c p;
  if d =? DOT then
    n ← rd c (p + 1);
    if n =? STAR then Some (spec ++ [d; n], p + 2, true)
    else '(s, q) ← scan SCAN is_digit c (p + 1) (spec ++ [d]); Some (s, q, false)
  else Some (spec, p, false).

(** The stars and the dot are stored without a bound check, so the text may
    outgrow [spec[64]] by then: [None].  The modifier loop checks. *)
Definition parse_head (c : exec_ctx) (fmt : Z) : option spec_head :=
  '(s1, p1) ← scan SCAN (strchr_hits "-+ #0'") c (fmt + 1) [37];
  '(s2, p2, ws) ← scan_width c p1 s1;
  '(s3, p3, ps) ← scan_prec c p2 s2;
  if SPEC_MAX <? blen s3 then None
  else
    '(s4, p4, m) ← scan_mods SCAN c p3 s3 no_mods;
    Some (SpecHead s4 ws ps (length s3) m p4).

Inductive conv_kind : Type := KSigned | KUnsigned | KPtr | KChar | KStr | KFloat | KPercent | KNone | KOther.

Definition kind_of (conv : Z) : conv_kind :=
  if existsb (Z.eqb conv) (lit "di") then KSigned
  else if existsb (Z.eqb conv) (lit "uxXo") then KUnsigned
  else if conv =? 112 then KPtr
  else if conv =? 99 then KChar
  else if conv =? 115 then KStr
  else if existsb (Z.eqb conv) (lit "fFeEgGaA") then KFloat
  else if conv =? 37 then KPercent
  else if conv =? 110 then KNone
  else KOther.

Definition is_int_conv (conv : Z) : bool := existsb (Z.eqb conv) (lit "diuxXo").

(** The guest's 4-byte long and size_t: the modifier is dropped for the host. *)
Definition host_spec (h : spec_head) (conv : Z) : bytes :=
  let spec := sh_text h ++ [conv] in
  if ((is_l (sh_mods h) && negb (is_ll (sh_mods h))) || is_z (sh_mods h)) && is_int_conv conv
  then take (sh_mod_start h) spec ++ drop (S (sh_mod_start h)) spec
  else spec.

(** * Formatting *)

(** An argument of the host's [snprintf]. *)
Inductive host_arg : Type :=
| HInt (v : Z) | HUnsigned (v : Z) | HLongLong (v : Z) | HUnsignedLongLong (v : Z) | HDouble (bits : Z) | HString (s : bytes).

(** Where the text goes: to linear memory, or to a buffer of the host. *)
Inductive sink : Type := ToGuest (dst : Z) | ToHost.
Record out_state : Type := OutState { o_exec : exec_ctx; o_host : memory }.

Definition put (k : sink) (pos : Z) (s : bytes) (st : out_state) : out_state :=
  match k with
  | ToGuest dst => OutState (set_mem (write_bytes (mem (o_exec st)) (dst + pos) s) (o_exec st)) (o_host st)
  | ToHost => OutState (o_exec st) (write_bytes (o_host st) pos s)
  end.

Section Printf.
Variable snprintf : bytes -> list host_arg -> option bytes.
Variable stack : nat -> Z.

(** The first [n] bytes of [buf] after [snprintf] wrote [text] into it. *)
Definition buf_bytes (text : bytes) (n : nat) : bytes :=
  map (fun i => if Z.of_nat i <? Z.min (blen text) (BUF - 1) then nth i text 0
                else if Z.of_nat i =? Z.min (blen text) (BUF - 1) then 0 else stack i) (seq 0 n).

Definition stars (c : exec_ctx) (h : spec_head) (va : Z) : list host_arg * Z :=
  let '(w, va1) := if sh_width_star h then (let '(v, o) := va_i32 c va in ([HInt (s32 v)], o)) else ([], va) in
  let '(p, va2) := if sh_prec_star h then (let '(v, o) := va_i32 c va1 in ([HInt (s32 v)], o)) else ([], va1) in
  (w ++ p, va2).

(** The [switch]: the text of the conversion and the argument cursor. *)
Definition convert (c : exec_ctx) (h : spec_head) (conv : Z) (va : Z) : option bytes * Z :=
  let spec := host_spec h conv in
  let '(st, va1) := stars c h va in
  let wide := is_ll (sh_mods h) || is_j (sh_mods h) in
  match kind_of conv with
  | KSigned =>
      if wide then let '(v, o) := va_i64 c va1 in (snprintf spec (st ++ [HLongLong (s64 v)]), o)
      else let '(v, o) := va_i32 c va1 in (snprintf spec (st ++ [HInt (s32 v)]), o)
  | KUnsigned =>
      if wide then let '(v, o) := va_i64 c va1 in (snprintf spec (st ++ [HUnsignedLongLong v]), o)
      else let '(v, o) := va_i32 c va1 in (snprintf spec (st ++ [HUnsigned v]), o)
  | KPtr => let '(v, o) := va_i32 c va1 in (snprintf (lit "0x%x") [HUnsigned v], o)
  | KChar => let '(v, o) := va_i32 c va1 in (snprintf spec [HInt (s32 v)], o)
  | KStr =>
      let '(v, o) := va_i32 c va1 in
      (snprintf spec (st ++ [HString (default (lit "(null)") (wstr_check c v))]), o)
  | KFloat => let '(v, o) := va_f64 c va1 in (snprintf spec (st ++ [HDouble v]), o)
  | KPercent => (Some [37], va1)
  | KNone => (Some [], va1)
  | KOther => (Some [37; conv], va1)
  end.

(** The copy: at most what is left of [out_cap]; the cursor moves by the full
    length. *)
Definition emit_text (k : sink) (out_cap pos : Z) (text : bytes) (st : out_state) : out_state * Z :=
  let n := blen text in
  let cp := if out_cap <? pos + n then (if pos <? out_cap then out_cap - pos else 0) else n in
  (put k pos (buf_bytes text (Z.to_nat cp)) st, pos + n).

(** [format_one]: the state, the pointer after the specification, the argument
    cursor and the output cursor. *)
Definition format_one (k : sink) (out_cap : Z) (st : out_state) (fmt va pos : Z) : option (out_state * Z * Z * Z) :=
  let c := o_exec st in
  h ← parse_head c fmt;
  conv ← rd c (sh_ptr h);
  if (SPEC_MAX <=? blen (sh_text h) + 2) || (conv =? 0) then Some (st, sh_ptr h, va, pos)
  else
    let '(text, va') := convert c h conv va in
    match text with
    | None => Some (st, sh_ptr h + 1, va', pos)
    | Some t => let '(st', pos') := emit_text k out_cap pos t st in Some (st', sh_ptr h + 1, va', pos')
    end.

(** [while ( *fmt)]; the result is the state and the final position. *)
Fixpoint format_loop (fuel : nat) (k : sink) (out_cap : Z) (st : out_state) (fmt va pos : Z) : option (out_state * Z) :=
  match fuel with
  | O => None
  | S f =>
      ch ← rd (o_exec st) fmt;
      if ch =? 0 then Some (st, pos)
      else if negb (ch =? 37) then
        format_loop f k out_cap (if pos <? out_cap then put k pos [ch] st else st) (fmt + 1) va (pos + 1)
      else
        '(st', fmt', va', pos') ← format_one k out_cap st fmt va pos;
        format_loop f k out_cap st' fmt' va' pos'
  end.

(** The pointer moves forward at every iteration, and outside linear memory the
    loop is over: this bound is never reached. *)
Definition format_fuel (c : exec_ctx) (fmt : Z) : nat := S (Z.to_nat (memory_size c - fmt)).

Definition yos_vsnprintf_core (k : sink) (out_cap : Z) (st : out_state) (fmt_off va_off : Z) : option (out_state * Z) :=
  match wstr_check (o_exec st) fmt_off with
  | None => Some (if 0 <? out_cap then put k 0 [0] st else st, 0)
  | Some _ =>
      '(st', pos) ← format_loop (format_fuel (o_exec st) fmt_off) k out_cap st fmt_off va_off 0;
      Some (if 0 <? out_cap then put k (if pos <? out_cap then pos else out_cap - 1) [0] st' else st', s32 pos)
  end.

Definition no_host : memory := fun _ => 0.

Definition yos_vsnprintf (c : exec_ctx) (dst_off n fmt_off va_off : Z) : option (exec_ctx * Z) :=
  let k := if (n =? 0) || ((dst_off =? 0) || (memory_size c <? dst_off + n)) then None else Some dst_off in
  '(st, r) ← (match k with
              | Some dst => yos_vsnprintf_core (ToGuest dst) n (OutState c no_host) fmt_off va_off
              | None => yos_vsnprintf_core ToHost 0 (OutState c no_host) fmt_off va_off
              end);
  Some (o_exec st, r).

Definition yos_snprintf := yos_vsnprintf.
Definition yos_vsprintf (c : exec_ctx) (dst_off fmt_off va_off : Z) : option (exec_ctx * Z) :=
  yos_vsnprintf c dst_off UINT32_MAX fmt_off va_off.
Definition yos_sprintf := yos_vsprintf.

(** * Streams *)

Definition HOST_BUF : Z := 8192.

(** What the call asks of the host. *)
Inductive stream_out : Type := WriteFd (hfd : Z) (s : bytes) | FwriteTo (fp : Z) (s : bytes).

(** [fd_get]: FdTable's [yos_fd_get] on the context; [written]: the answer of
    the host's [write]. *)
Variable fd_get : exec_ctx -> Z -> Z * exec_ctx.
Variable written : Z -> bytes -> Z.

(** Whether [yos_handle_to_file] knows a handle. *)
Variable handle_open : Z -> bool.

(** Unknown handles fall back to stdout, handle 2. *)
Definition guest_fp_to_host (fp : Z) : Z := if fp =? 0 then 2 else if handle_open fp then fp else 2.

(** The result, what was written where, and whether it was stderr. *)
Definition yos_vfprintf (c : exec_ctx) (fp fmt_off va_off : Z) : option (exec_ctx * Z * list stream_out * bool) :=
  let err := fp =? 3 in
  '(st, n) ← yos_vsnprintf_core ToHost HOST_BUF (OutState c no_host) fmt_off va_off;
  let c1 := o_exec st in
  if n <? 0 then Some (c1, -1, [], err)
  else
    let w := if n <? HOST_BUF then n else HOST_BUF - 1 in
    let buf := read_bytes (o_host st) 0 w in
    if (fp =? 1) || (fp =? 2) || (fp =? 3) then
      let '(hfd, c2) := fd_get c1 (fp - 1) in
      if 0 <=? hfd then let r := written hfd buf in Some (c2, if r <? 0 then -1 else s32 r, [WriteFd hfd buf], err)
      else Some (c2, n, [FwriteTo (guest_fp_to_host fp) buf], err)
    else Some (c1, n, [FwriteTo (guest_fp_to_host fp) buf], err).

Definition yos_fprintf := yos_vfprintf.
Definition yos_printf (c : exec_ctx) (fmt_off va_off : Z) := yos_vfprintf c 2 fmt_off va_off.
Definition yos_vprintf (c : exec_ctx) (fmt_off va_off : Z) := yos_vfprintf c 2 fmt_off va_off.
End Printf.

(** * Properties *)

(** The printf family: the bound on what a call writes, the text it produces for
    a well-formed format, and where the walk leaves its buffers. *)

(** * What a call may write *)

(** The bytes a sink with a capacity may change. *)
Definition within (k : sink) (cap : Z) (st st' : out_state) : Prop :=
  match k with
  | ToHost => o_exec st' = o_exec st
  | ToGuest dst =>
      o_exec st' = set_mem (mem (o_exec st')) (o_exec st) /\
      forall a, a < dst \/ dst + cap <= a -> ld8 (mem (o_exec st')) a = ld8 (mem (o_exec st)) a
  end.

Lemma within_refl k cap st : within k cap st st.
Proof. destruct k; simpl; [|done]. split; [by destruct (o_exec st)|done]. Qed.

Lemma within_trans k cap st1 st2 st3 : within k cap st1 st2 -> within k cap st2 st3 -> within k cap st1 st3.
Proof.
  destruct k; simpl; [|congruence]. intros [E1 H1] [E2 H2]. split; [by rewrite E2, E1|]. intros a Ha. by rewrite H2, H1.
Qed.

Lemma within_put k cap pos s st : 0 <= pos -> s = [] \/ pos + blen s <= cap -> within k cap st (put k pos s st).
Proof.
  intros Hp Hs. destruct k as [dst|]; [|done]. split; [done|]. intros a Ha. cbn [put o_exec mem set_mem].
  apply write_bytes_other. destruct Hs as [->|Hs]; [|lia]. change (blen []) with 0. lia.
Qed.

Lemma within_size k cap st st' : within k cap st st' -> memory_size (o_exec st') = memory_size (o_exec st).
Proof. destruct k; simpl; [by intros [-> _]|by intros ->]. Qed.

Section Bounds.
Variables (snprintf : bytes -> list host_arg -> option bytes) (stack : nat -> Z).

Lemma blen_buf_bytes text n : blen (buf_bytes stack text n) = Z.of_nat n.
Proof. unfold blen, buf_bytes. by rewrite length_map, length_seq. Qed.

Lemma emit_within k cap pos text st st' pos' :
  0 <= pos -> emit_text stack k cap pos text st = (st', pos') -> within k cap st st' /\ pos' = pos + blen text.
Proof.
  intros Hp [= <- <-]. split; [|done]. apply within_put; [done|]. pose proof (blen_nonneg text).
  destruct (Z.ltb_spec cap (pos + blen text)) as [Hc|Hc]; [destruct (Z.ltb_spec pos cap) as [Hl|Hl]|].
  - right. rewrite blen_buf_bytes. lia.
  - by left.
  - right. rewrite blen_buf_bytes. lia.
Qed.

Lemma format_one_within k cap st fmt va pos st' fmt' va' pos' :
  0 <= pos -> format_one snprintf stack k cap st fmt va pos = Some (st', fmt', va', pos') ->
  within k cap st st' /\ pos <= pos'.
Proof.
  intros Hp. unfold format_one. destruct (parse_head _ _) as [h|]; [|done]. cbn [mbind option_bind].
  destruct (rd _ _) as [conv|]; [|done]. cbn [mbind option_bind].
  destruct (_ || _); [intros; simplify_eq; split; [apply within_refl|lia]|].
  destruct (convert _ _ _ _ _) as [[t|] va1]; [|intros; simplify_eq; split; [apply within_refl|lia]].
  destruct (emit_text _ _ _ _ _ _) as [st1 pos1] eqn:E. intros; simplify_eq. apply emit_within in E as [H ->]; [|done].
  pose proof (blen_nonneg t). split; [done|lia].
Qed.

Lemma format_loop_within fuel k cap st fmt va pos st' pos' :
  0 <= pos -> format_loop snprintf stack fuel k cap st fmt va pos = Some (st', pos') -> within k cap st st' /\ pos <= pos'.
Proof.
  revert st fmt va pos. induction fuel as [|f IH]; intros st fmt va pos Hp; [done|]. cbn [format_loop].
  destruct (rd _ _) as [ch|]; [|done]. cbn [mbind option_bind]. destruct (_ =? 0); [intros; simplify_eq; split; [apply within_refl|lia]|].
  destruct (negb _).
  - intros H. apply IH in H as [H Hle]; [|lia]. split; [|lia]. eapply within_trans; [|exact H].
    destruct (Z.ltb_spec pos cap); [|apply within_refl]. apply within_put; [done|right]. change (blen [ch]) with 1. lia.
  - destruct (format_one _ _ _ _ _ _ _ _) as [[[[st1 fmt1] va1] pos1]|] eqn:E; [|done]. cbn [mbind option_bind].
    apply format_one_within in E as [H1 H2]; [|done]. intros H. apply IH in H as [H Hle]; [|lia]. split; [by eapply within_trans|lia].
Qed.

(** The whole call, with the terminator of a non-empty buffer. *)
Lemma core_within k cap st fmt va st' r :
  yos_vsnprintf_core snprintf stack k cap st fmt va = Some (st', r) -> 0 <= cap ->
  within k cap st st' /\
  match k with ToGuest dst => 0 < cap -> exists i, 0 <= i < cap /\ ld8 (mem (o_exec st')) (dst + i) = 0 | ToHost => True end.
Proof.
  assert (Hend : forall st1 pos, 0 <= pos < cap ->
    within k cap st1 (put k pos [0] st1) /\ match k with ToGuest dst => ld8 (mem (o_exec (put k pos [0] st1))) (dst + pos) = 0 | ToHost => True end).
  { intros st1 pos Hp. split; [apply within_put; [lia|right; change (blen [0]) with 1; lia]|]. destruct k as [dst|]; [|done].
    cbn [put o_exec mem set_mem]. pose proof (read_bytes_write (mem (o_exec st1)) (dst + pos) [0] ltac:(repeat constructor; lia)) as H.
    change (blen [0]) with (0 + 1) in H. rewrite read_bytes_S in H by lia. by injection H. }
  unfold yos_vsnprintf_core. destruct (wstr_check _ _).
  - destruct (format_loop _ _ _ _ _ _ _ _ _) as [[st1 pos]|] eqn:E; [|done]. cbn [mbind option_bind]. intros [= <- <-] Hc.
    apply format_loop_within in E as [H Hle]; [|lia]. destruct (Z.ltb_spec 0 cap) as [Hc0|Hc0].
    + set (z := if pos <? cap then pos else cap - 1). assert (Hz : 0 <= z < cap) by (unfold z; destruct (Z.ltb_spec pos cap); lia).
      destruct (Hend st1 z Hz) as [H1 H2]. split; [by eapply within_trans|]. destruct k as [dst|]; [|done]. intros _. by exists z.
    + split; [done|]. destruct k; [lia|done].
  - intros [= <- <-] Hc. destruct (Z.ltb_spec 0 cap) as [Hc0|Hc0].
    + destruct (Hend st 0 ltac:(lia)) as [H1 H2]. split; [done|]. destruct k as [dst|]; [|done]. intros _. by exists 0.
    + split; [apply within_refl|]. destruct k; [lia|done].
Qed.
End Bounds.
