(* ===== verification/PrintfText.v ===== *)
(** The text of a well-formed format: the grammar of conversion specifications,
    what the walk of printf.c makes of one, and the rendering of a whole format
    with its packed arguments. *)
From Stdlib Require Import Strings.String.
From S2P Require Import Prelude Memory Ctx CString Printf.

(** * The grammar *)

Inductive field : Type := Digits (ds : bytes) | Star.

Record directive : Type := Directive {
  d_flags : bytes; d_width : field; d_prec : option field; d_mod : bytes; d_conv : Z
}.

Definition print_field (f : field) : bytes := match f with Digits ds => ds | Star => [STAR] end.
Definition print_prec (p : option field) : bytes := match p with Some f => DOT :: print_field f | None => [] end.

(** Everything before the length modifier, and the whole specification. *)
Definition print_head (d : directive) : bytes := 37 :: d_flags d ++ print_field (d_width d) ++ print_prec (d_prec d).
Definition print (d : directive) : bytes := print_head d ++ d_mod d ++ [d_conv d].

Definition modifiers : list bytes := map lit [""; "h"; "hh"; "l"; "ll"; "j"; "z"; "t"; "q"; "L"]%string.

(** A character that ends the specification. *)
Definition ends (ch : Z) : Prop :=
  0 < ch < 256 /\ strchr_hits "-+ #0'" ch = false /\ strchr_hits "hlLjztq" ch = false /\ is_digit ch = false /\ ch <> STAR /\ ch <> DOT.

Definition field_ok (f : field) : Prop := match f with Digits ds => Forall (fun ch => is_digit ch = true) ds | Star => True end.

(** The width starts with no zero, which would be a flag. *)
Definition width_ok (f : field) : Prop := match f with Digits (ch :: _) => ch <> 48 | _ => True end.

Record directive_ok (d : directive) : Prop := DirectiveOk {
  do_flags : Forall (fun ch => ch <> 0 /\ strchr_hits "-+ #0'" ch = true) (d_flags d);
  do_width : field_ok (d_width d) /\ width_ok (d_width d);
  do_prec : match d_prec d with Some f => field_ok f | None => True end;
  do_mod : d_mod d ∈ modifiers;
  do_conv : ends (d_conv d);
  do_length : blen (print d) <= 61
}.

Definition is_star (f : field) : bool := match f with Star => true | Digits _ => false end.
Definition mods_of (m : bytes) : mods :=
  if bool_decide (m = lit "ll") then Mods true false false false false else foldl (fun a ch => note_mod ch a) no_mods m.

Definition head_of (d : directive) (fmt : Z) : spec_head :=
  SpecHead (print_head d ++ d_mod d) (is_star (d_width d)) (match d_prec d with Some f => is_star f | None => false end)
    (length (print_head d)) (mods_of (d_mod d)) (fmt + blen (print_head d ++ d_mod d)).

(** * Reading *)

(** The format holds [s] from [p] on. *)
Definition reads (c : exec_ctx) (p : Z) (s : list Z) : Prop := forall i ch, s !! i = Some ch -> rd c (p + Z.of_nat i) = Some ch.

Lemma reads_head c p ch s : reads c p (ch :: s) -> rd c p = Some ch.
Proof. intros H. specialize (H 0%nat ch eq_refl). by rewrite Z.add_0_r in H. Qed.

Lemma reads_app c p s t : reads c p (s ++ t) -> reads c (p + blen s) t.
Proof.
  intros H i ch Hi. unfold blen. rewrite <-Z.add_assoc, <-Nat2Z.inj_add. apply H. rewrite lookup_app_r by lia.
  by replace (length s + i - length s)%nat with i by lia.
Qed.

Lemma reads_prefix c p s t : reads c p (s ++ t) -> reads c p s.
Proof. intros H i ch Hi. apply H. by apply lookup_app_l_Some. Qed.

Lemma reads_tail c p ch s : reads c p (ch :: s) -> reads c (p + 1) s.
Proof. exact (reads_app c p [ch] s). Qed.

(** A scan stops at the first character that is not its own. *)
Lemma scan_spec fuel ok c p spec s x rest :
  reads c p (s ++ x :: rest) -> Forall (fun ch => ok ch = true) s -> ok x = false ->
  blen spec + blen s + 1 < SPEC_MAX -> (length s < fuel)%nat ->
  scan fuel ok c p spec = Some (spec ++ s, p + blen s).
Proof.
  revert p spec s. induction fuel as [|f IH]; intros p spec s Hr Hs Hx Hl Hf; [lia|]. cbn [scan].
  pose proof (blen_nonneg s). rewrite (proj2 (Z.leb_gt SPEC_MAX _)) by lia. destruct s as [|ch s].
  - rewrite (reads_head _ _ _ _ Hr). cbn [mbind option_bind]. rewrite Hx, app_nil_r. by replace (p + blen []) with p by (unfold blen; simpl; lia).
  - apply Forall_cons in Hs as [Hch Hs]. rewrite (reads_head _ _ _ _ Hr). cbn [mbind option_bind]. rewrite Hch.
    rewrite blen_cons in *. rewrite (IH (p + 1) (spec ++ [ch]) s); [|by apply (reads_tail _ _ ch)|done|done|rewrite blen_app; change (blen [ch]) with 1; lia|simpl in Hf; lia].
    rewrite <-app_assoc. do 2 f_equal. lia.
Qed.

Lemma scan_mods_stop f c p spec m x rest :
  reads c p (x :: rest) -> strchr_hits "hlLjztq" x = false -> blen spec + 1 < SPEC_MAX ->
  scan_mods (S f) c p spec m = Some (spec, p, m).
Proof.
  intros Hr Hx Hl. cbn [scan_mods]. rewrite (proj2 (Z.leb_gt SPEC_MAX _)) by lia. rewrite (reads_head _ _ _ _ Hr). cbn [mbind option_bind].
  by rewrite Hx.
Qed.

Lemma scan_mods_one f c p spec m x rest :
  reads c p (x :: rest) -> strchr_hits "hlLjztq" x = true -> x <> 108 -> blen spec + 1 < SPEC_MAX ->
  scan_mods (S f) c p spec m = scan_mods f c (p + 1) (spec ++ [x]) (note_mod x m).
Proof.
  intros Hr Hx Hne Hl. cbn [scan_mods]. rewrite (proj2 (Z.leb_gt SPEC_MAX _)) by lia. rewrite (reads_head _ _ _ _ Hr). cbn [mbind option_bind].
  by rewrite Hx, (proj2 (Z.eqb_neq x 108)).
Qed.

Lemma scan_mods_l f c p spec m x rest :
  reads c p (108 :: x :: rest) -> blen spec + 1 < SPEC_MAX ->
  scan_mods (S f) c p spec m =
    if x =? 108 then scan_mods f c (p + 2) (spec ++ [108; x]) (note_ll m) else scan_mods f c (p + 1) (spec ++ [108]) (note_mod 108 m).
Proof.
  intros Hr Hl. cbn [scan_mods]. rewrite (proj2 (Z.leb_gt SPEC_MAX _)) by lia. rewrite (reads_head _ _ _ _ Hr). cbn [mbind option_bind].
  change (strchr_hits "hlLjztq" 108) with true. cbv iota. rewrite Z.eqb_refl.
  by rewrite (reads_head _ _ _ _ (reads_tail _ _ _ _ Hr)).
Qed.

Lemma scan_mods_spec c p spec m x rest :
  reads c p (m ++ x :: rest) -> m ∈ modifiers -> ends x -> blen spec + 3 < SPEC_MAX ->
  scan_mods SCAN c p spec no_mods = Some (spec ++ m, p + blen m, mods_of m).
Proof.
  intros Hr Hm (_ & _ & Hx & _) Hl. unfold SCAN.
  assert (Hone : forall ch, ch <> 108 -> strchr_hits "hlLjztq" ch = true -> reads c p (ch :: x :: rest) ->
    scan_mods 64 c p spec no_mods = Some (spec ++ [ch], p + blen [ch], note_mod ch no_mods)).
  { intros ch Hne Hc H. rewrite (scan_mods_one 63 _ _ _ _ _ _ H Hc Hne) by lia.
    by rewrite (scan_mods_stop 62 _ _ _ _ _ _ (reads_tail _ _ _ _ H) Hx) by (rewrite blen_app; change (blen [ch]) with 1; lia). }
  assert (Hxl : x <> 108) by (intros ->; done).
  repeat (apply elem_of_cons in Hm as [->|Hm]); [..|by apply elem_of_nil in Hm];
    try (by apply Hone).
  - rewrite (scan_mods_stop 63 _ _ _ _ _ _ Hr Hx) by lia. rewrite app_nil_r. by replace (p + blen (lit "")) with p by (unfold blen; simpl; lia).
  - cbn in Hr. rewrite (scan_mods_one 63 _ _ _ _ 104 _ Hr) by (done || lia).
    rewrite (scan_mods_one 62 _ _ _ _ 104 _ (reads_tail _ _ _ _ Hr)) by (done || rewrite ?blen_app; change (blen [104]) with 1; lia).
    rewrite (scan_mods_stop 61 _ _ _ _ x rest) by
      (first [exact (reads_tail _ _ _ _ (reads_tail _ _ _ _ Hr))|exact Hx|rewrite !blen_app; change (blen [104]) with 1; lia]).
    rewrite <-app_assoc. do 3 f_equal. change (blen (lit "hh")) with 2. lia.
  - cbn in Hr. rewrite (scan_mods_l 63 _ _ _ _ x rest Hr), (proj2 (Z.eqb_neq x 108)) by (done || lia).
    by rewrite (scan_mods_stop 62 _ _ _ _ _ _ (reads_tail _ _ _ _ Hr) Hx) by (rewrite blen_app; change (blen [108]) with 1; lia).
  - cbn in Hr. rewrite (scan_mods_l 63 _ _ _ _ 108 (x :: rest) Hr) by lia. cbn [Z.eqb Pos.eqb].
    pose proof (reads_tail _ _ _ _ (reads_tail _ _ _ _ Hr)) as H2. rewrite <-Z.add_assoc in H2. change (1 + 1) with 2 in H2.
    by rewrite (scan_mods_stop 62 _ _ _ _ _ _ H2 Hx) by (rewrite blen_app; change (blen [108; 108]) with 2; lia).
Qed.

(** The first character after the flags, the width and the precision. *)
Lemma after_prec m x rest :
  m ∈ modifiers -> ends x ->
  exists y t, m ++ x :: rest = y :: t /\ strchr_hits "-+ #0'" y = false /\ is_digit y = false /\ y <> STAR /\ y <> DOT.
Proof.
  intros Hm (_ & H1 & _ & H2 & H3 & H4). unfold STAR, DOT in *.
  repeat (apply elem_of_cons in Hm as [->|Hm]); [..|by apply elem_of_nil in Hm];
    (eexists _, _; split; [reflexivity|]; split_and!; first [assumption|vm_compute; reflexivity|vm_compute; discriminate]).
Qed.

Lemma after_width p m x rest :
  m ∈ modifiers -> ends x ->
  exists y t, print_prec p ++ m ++ x :: rest = y :: t /\ strchr_hits "-+ #0'" y = false /\ is_digit y = false /\ y <> STAR /\
    (y =? DOT) = bool_decide (is_Some p).
Proof.
  intros Hm Hx. destruct (after_prec m x rest Hm Hx) as (y & t & -> & H1 & H2 & H3 & H4). destruct p as [f|].
  - by eexists _, _.
  - exists y, t. split_and!; [done..|]. simpl. by apply Z.eqb_neq.
Qed.

Lemma digit_no_flag ch : is_digit ch = true -> ch <> 48 -> strchr_hits "-+ #0'" ch = false /\ ch <> STAR.
Proof.
  unfold is_digit. intros [H1%Z.leb_le H2%Z.leb_le]%andb_true_iff Hne. split; [|unfold STAR in *; lia].
  unfold strchr_hits. change (lit "-+ #0'") with [45; 43; 32; 35; 48; 39]. cbn [existsb].
  repeat match goal with |- context [ch =? ?k] => rewrite (proj2 (Z.eqb_neq ch k)) by lia end. done.
Qed.

Lemma after_flags w p m x rest :
  field_ok w -> width_ok w -> m ∈ modifiers -> ends x ->
  exists y t, print_field w ++ print_prec p ++ m ++ x :: rest = y :: t /\ strchr_hits "-+ #0'" y = false /\ (y =? STAR) = is_star w.
Proof.
  intros Hw Hw0 Hm Hx. destruct w as [[|ch ds]|].
  - destruct (after_width p m x rest Hm Hx) as (y & t & -> & H1 & _ & H3 & _). exists y, t. split_and!; [done..|]. by apply Z.eqb_neq.
  - apply Forall_cons in Hw as [Hd _]. destruct (digit_no_flag ch Hd Hw0) as [H1 H2]. eexists _, _. split; [done|]. split; [done|]. by apply Z.eqb_neq.
  - by eexists _, _.
Qed.

(** Width and precision. *)
Lemma field_scan f c p spec y t :
  reads c p (print_field f ++ y :: t) -> field_ok f -> is_digit y = false -> blen spec + blen (print_field f) + 1 < SPEC_MAX ->
  (blen (print_field f) < 64) -> 
  (if is_star f then Some (spec ++ [STAR], p + 1) else scan SCAN is_digit c p spec) = Some (spec ++ print_field f, p + blen (print_field f)).
Proof.
  intros Hr Hf Hy Hl Hl2. destruct f as [ds|]; [|done]. cbn [is_star print_field field_ok] in *.
  apply (scan_spec _ _ _ _ _ _ y t); [done|done|done|lia|unfold blen, SCAN in *; lia].
Qed.

Lemma field_head f m x rest :
  field_ok f -> m ∈ modifiers -> ends x -> exists y t, print_field f ++ m ++ x :: rest = y :: t /\ (y =? STAR) = is_star f.
Proof.
  intros Hf Hm Hx. destruct f as [[|ch ds]|].
  - destruct (after_prec m x rest Hm Hx) as (y & t & E & _ & _ & H & _). exists y, t. split; [exact E|]. by apply Z.eqb_neq.
  - apply Forall_cons in Hf as [Hd _]. exists ch, (ds ++ m ++ x :: rest). split; [done|]. apply Z.eqb_neq.
    unfold is_digit in Hd. apply andb_true_iff in Hd as [H%Z.leb_le _]. unfold STAR. lia.
  - by exists STAR, (m ++ x :: rest).
Qed.

Definition prec_star (p : option field) : bool := match p with Some f => is_star f | None => false end.

(** The precision, as [parse_head] reads it. *)
Lemma prec_scan c q spec p m x rest d :
  reads c q (print_prec p ++ m ++ x :: rest) -> rd c q = Some d -> (d =? DOT) = bool_decide (is_Some p) ->
  match p with Some f => field_ok f | None => True end -> m ∈ modifiers -> ends x ->
  blen spec + blen (print_prec p) + 1 < SPEC_MAX ->
  scan_prec c q spec = Some (spec ++ print_prec p, q + blen (print_prec p), prec_star p).
Proof.
  intros Hr Hd Hdot Hp Hm Hx Hl. pose proof (blen_nonneg spec) as Hs. unfold scan_prec. rewrite Hd. cbn [mbind option_bind]. rewrite Hdot. destruct p as [f|]; cbn [print_prec prec_star] in *.
  - rewrite bool_decide_true by done. rewrite bool_decide_true in Hdot by done. apply Z.eqb_eq in Hdot as ->. cbn [app] in Hr. pose proof (reads_tail _ _ _ _ Hr) as Hr1.
    destruct (field_head f m x rest Hp Hm Hx) as (y & t & E & Hy). destruct (after_prec m x rest Hm Hx) as (y3 & t3 & E3 & _ & Hy3 & _).
    pose proof Hr1 as Hrf. rewrite E in Hr1. rewrite (reads_head _ _ _ _ Hr1). cbn [mbind option_bind]. rewrite Hy. rewrite blen_cons in Hl.
    destruct (is_star f) eqn:Ef.
    + destruct f; [done|]. apply Z.eqb_eq in Hy as ->. done.
    + rewrite E3 in Hrf. pose proof (blen_nonneg (print_field f)). unfold SPEC_MAX in Hl.
      pose proof (field_scan f c (q + 1) (spec ++ [DOT]) y3 t3 Hrf Hp Hy3) as Hscan. rewrite Ef in Hscan.
      rewrite Hscan by (rewrite ?blen_app; change (blen [DOT]) with 1; unfold SPEC_MAX; lia). cbn [mbind option_bind].
      rewrite <-app_assoc. cbn [app]. rewrite blen_cons. do 3 f_equal. lia.
  - rewrite bool_decide_false by (by intros [? ?]). by rewrite app_nil_r, Z.add_0_r.
Qed.

(** One step of an option computation, without unfolding what follows. *)
Lemma bind_some {A B} (o : option A) (x : A) (f : A -> option B) : o = Some x -> o ≫= f = f x.
Proof. by intros ->. Qed.

Ltac step E := rewrite (bind_some _ _ _ E); cbv beta iota.

Lemma parse_head_spec c fmt d rest :
  reads c fmt (print d ++ rest) -> directive_ok d -> parse_head c fmt = Some (head_of d fmt).
Proof.
  intros Hr [Hfl [Hw Hw0] Hp Hm Hc Hlen]. unfold print, print_head in *. destruct d as [fl w p m x]. cbn [d_flags d_width d_prec d_mod d_conv] in *.
  cbn [app] in Hr. repeat rewrite <-app_assoc in Hr. cbn [app] in Hr. apply reads_tail in Hr.
  cbn [app] in Hlen. rewrite blen_cons, !blen_app in Hlen. change (blen [x]) with 1 in Hlen.
  pose proof (blen_nonneg fl). pose proof (blen_nonneg (print_field w)). pose proof (blen_nonneg (print_prec p)). pose proof (blen_nonneg m).
  destruct (after_flags w p m x rest Hw Hw0 Hm Hc) as (y1 & t1 & E1 & Hy1 & Hstar).
  destruct (after_width p m x rest Hm Hc) as (y2 & t2 & E2 & _ & Hy2 & _ & Hdot).
  pose proof (reads_app _ _ _ _ Hr) as Hr1. pose proof (reads_app _ _ _ _ Hr1) as Hr2. pose proof (reads_app _ _ _ _ Hr2) as Hr3.
  unfold parse_head.
  assert (S1 : scan SCAN (strchr_hits "-+ #0'") c (fmt + 1) [37] = Some ([37] ++ fl, fmt + 1 + blen fl)).
  { apply (scan_spec SCAN _ c (fmt + 1) [37] fl y1 t1); [by rewrite <-E1| |done|change (blen [37]) with 1; unfold SPEC_MAX; lia|unfold SCAN, blen in *; lia].
    eapply Forall_impl; [exact Hfl|]. by intros ch [_ ?]. }
  step S1. pose proof Hr1 as Hh1. rewrite E1 in Hh1.
  pose proof (field_scan w c (fmt + 1 + blen fl) ([37] ++ fl) y2 t2) as S2. rewrite <-E2 in S2. specialize (S2 Hr1 Hw Hy2).
  assert (Es : is_star w = true -> y1 = STAR) by (intros Ew; rewrite Ew in Hstar; by apply Z.eqb_eq).
  assert (S2' : scan_width c (fmt + 1 + blen fl) ([37] ++ fl) =
    Some (([37] ++ fl) ++ print_field w, fmt + 1 + blen fl + blen (print_field w), is_star w)).
  { unfold scan_width. step (reads_head _ _ _ _ Hh1). rewrite Hstar. specialize (S2 ltac:(rewrite ?blen_app; change (blen [37]) with 1; unfold SPEC_MAX; lia) ltac:(lia)).
    destruct (is_star w); [rewrite Es by done; exact (f_equal (option_map (fun x : bytes * Z => (x, true))) S2)|by rewrite S2]. }
  step S2'. pose proof Hr2 as Hh2. rewrite E2 in Hh2. pose proof (reads_head _ _ _ _ Hh2) as R2.
  pose proof (prec_scan c _ (([37] ++ fl) ++ print_field w) p m x rest y2 Hr2 R2 Hdot Hp Hm Hc
    ltac:(rewrite !blen_app; change (blen [37]) with 1; unfold SPEC_MAX; lia)) as S3. step S3.
  rewrite (proj2 (Z.ltb_ge SPEC_MAX _)) by (rewrite !blen_app; change (blen [37]) with 1; unfold SPEC_MAX; lia).
  pose proof (scan_mods_spec c _ ((([37] ++ fl) ++ print_field w) ++ print_prec p) m x rest Hr3 Hm Hc
    ltac:(rewrite !blen_app; change (blen [37]) with 1; unfold SPEC_MAX; lia)) as S4. step S4.
  unfold head_of, print_head. cbn [d_flags d_width d_prec d_mod d_conv]. rewrite <-!app_assoc. cbn [app].
  do 2 f_equal; [by rewrite <-!app_assoc|rewrite blen_cons, !blen_app; lia].
Qed.

(** * Arguments *)

(** A packed argument: four bytes, eight bytes, or a pointer to a string, null
    where the code finds none. *)
Inductive va_arg : Type := A32 (v : Z) | A64 (v : Z) | AStr (p : Z) (s : option bytes).

(** Each argument at its natural alignment. *)
Fixpoint packed (c : exec_ctx) (va : Z) (args : list va_arg) : Prop :=
  match args with
  | [] => True
  | A32 v :: r => let o := va_align va 4 in o + 4 <= memory_size c /\ ld32 (mem c) o = v /\ packed c (o + 4) r
  | A64 v :: r => let o := va_align va 8 in o + 8 <= memory_size c /\ ld64 (mem c) o = v /\ packed c (o + 8) r
  | AStr p s :: r =>
      let o := va_align va 4 in o + 4 <= memory_size c /\ ld32 (mem c) o = p /\ wstr_check c p = s /\ packed c (o + 4) r
  end.

(** Where the argument after [used] is looked for. *)
Fixpoint va_after (va : Z) (used : list va_arg) : Z :=
  match used with
  | [] => va
  | A64 _ :: r => va_after (va_align va 8 + 8) r
  | _ :: r => va_after (va_align va 4 + 4) r
  end.

Lemma packed_after c va used args : packed c va (used ++ args) -> packed c (va_after va used) args.
Proof.
  revert va. induction used as [|a used IH]; intros va; [done|].
  destruct a; cbn [app packed va_after]; intros (_ & _ & H); apply IH; [done|done|by destruct H].
Qed.

Lemma va_after_app va u1 u2 : va_after va (u1 ++ u2) = va_after (va_after va u1) u2.
Proof. revert va. induction u1 as [|[] u1 IH]; intros va; [done|apply IH..]. Qed.

Lemma va_align_nonneg off a : 0 <= va_align off a.
Proof. unfold va_align. apply Z.land_nonneg. left. apply u32_range. Qed.

Section Reading.
Variable c : exec_ctx.
Hypothesis Hsize : memory_size c < 4294967296.

Lemma va_i32_at va v r : packed c va (A32 v :: r) -> va_i32 c va = (v, va_align va 4 + 4).
Proof. intros (Ho & Hv & _). pose proof (va_align_nonneg va 4). unfold va_i32. by rewrite (proj2 (Z.ltb_ge _ _)), Hv, u32_small by lia. Qed.

Lemma va_i64_at va v r : packed c va (A64 v :: r) -> va_i64 c va = (v, va_align va 8 + 8).
Proof. intros (Ho & Hv & _). pose proof (va_align_nonneg va 8). unfold va_i64. by rewrite (proj2 (Z.ltb_ge _ _)), Hv, u32_small by lia. Qed.

Lemma va_str_at va p s r : packed c va (AStr p s :: r) -> va_i32 c va = (p, va_align va 4 + 4) /\ wstr_check c p = s.
Proof.
  intros (Ho & Hv & Hs & _). pose proof (va_align_nonneg va 4). unfold va_i32. by rewrite (proj2 (Z.ltb_ge _ _)), Hv, u32_small by lia.
Qed.
End Reading.

(** * Rendering *)

Inductive item : Type := Lit (ch : Z) | Conv (d : directive).

Definition item_text (i : item) : bytes := match i with Lit ch => [ch] | Conv d => print d end.
Definition format_text (items : list item) : bytes := flat_map item_text items.
Definition item_ok (i : item) : Prop := match i with Lit ch => byte_ok ch /\ ch <> 37 | Conv d => directive_ok d end.

(** What the host is asked to format: guest long and size_t are four bytes. *)
Definition narrow (m : bytes) : bool := bool_decide (m = lit "l") || bool_decide (m = lit "z").
Definition wide (m : bytes) : bool := bool_decide (m = lit "ll") || bool_decide (m = lit "j").
Definition host_format (d : directive) : bytes :=
  if narrow (d_mod d) && is_int_conv (d_conv d) then print_head d ++ [d_conv d] else print d.

(** A star takes a four-byte argument. *)
Definition take_star (s : bool) (args : list va_arg) : option (list host_arg * list va_arg) :=
  if s then match args with A32 v :: r => Some ([HInt (s32 v)], r) | _ => None end else Some ([], args).

Section Render.
Variable snprintf : bytes -> list host_arg -> option bytes.

Definition render_conv (d : directive) (st : list host_arg) (args : list va_arg) : option (option bytes * list va_arg) :=
  match kind_of (d_conv d), wide (d_mod d), args with
  | KSigned, true, A64 v :: r => Some (snprintf (host_format d) (st ++ [HLongLong (s64 v)]), r)
  | KSigned, false, A32 v :: r => Some (snprintf (host_format d) (st ++ [HInt (s32 v)]), r)
  | KUnsigned, true, A64 v :: r => Some (snprintf (host_format d) (st ++ [HUnsignedLongLong v]), r)
  | KUnsigned, false, A32 v :: r => Some (snprintf (host_format d) (st ++ [HUnsigned v]), r)
  | KPtr, _, A32 v :: r => Some (snprintf (lit "0x%x") [HUnsigned v], r)
  | KChar, _, A32 v :: r => Some (snprintf (host_format d) [HInt (s32 v)], r)
  | KStr, _, AStr _ s :: r => Some (snprintf (host_format d) (st ++ [HString (default (lit "(null)") s)]), r)
  | KFloat, _, A64 v :: r => Some (snprintf (host_format d) (st ++ [HDouble v]), r)
  | KPercent, _, _ => Some (Some [37], args)
  | KNone, _, _ => Some (Some [], args)
  | KOther, _, _ => Some (Some [37; d_conv d], args)
  | _, _, _ => None
  end.

(** The text of one conversion and the arguments that are left. *)
Definition render_text (d : directive) (args : list va_arg) : option (bytes * list va_arg) :=
  '(w, args1) ← take_star (is_star (d_width d)) args;
  '(p, args2) ← take_star (prec_star (d_prec d)) args1;
  '(t, args3) ← render_conv d (w ++ p) args2;
  t ← t; Some (t, args3).

(** The texts of the literals and the conversions, in order. *)
Fixpoint render (items : list item) (args : list va_arg) : option (list bytes) :=
  match items with
  | [] => Some []
  | Lit ch :: items' => cons [ch] <$> render items' args
  | Conv d :: items' => '(t, args') ← render_text d args; cons t <$> render items' args'
  end.
End Render.

Lemma host_spec_eq d fmt : d_mod d ∈ modifiers -> host_spec (head_of d fmt) (d_conv d) = host_format d.
Proof.
  intros Hm. unfold host_spec, host_format, head_of, print. cbn [sh_text sh_mods sh_mod_start].
  assert (Hdrop : forall ch, take (length (print_head d)) ((print_head d ++ [ch]) ++ [d_conv d]) ++
    drop (S (length (print_head d))) ((print_head d ++ [ch]) ++ [d_conv d]) = print_head d ++ [d_conv d]).
  { intros ch. rewrite <-app_assoc, take_app_length. f_equal. rewrite drop_app_ge by lia.
    by replace (S (length (print_head d)) - length (print_head d))%nat with 1%nat by lia. }
  destruct (is_int_conv (d_conv d)); rewrite ?andb_false_r, ?andb_true_r; [|by rewrite <-app_assoc].
  repeat (apply elem_of_cons in Hm as [Hm|Hm]); [..|by apply elem_of_nil in Hm]; rewrite Hm; clear Hm;
    first [exact (eq_sym (app_assoc _ _ _))|apply Hdrop].
Qed.

Lemma wide_eq m : m ∈ modifiers -> is_ll (mods_of m) || is_j (mods_of m) = wide m.
Proof. intros Hm. repeat (apply elem_of_cons in Hm as [->|Hm]); [..|by apply elem_of_nil in Hm]; by vm_compute. Qed.

Section Convert.
Variable snprintf : bytes -> list host_arg -> option bytes.
Variable c : exec_ctx.
Hypothesis Hsize : memory_size c < 4294967296.

Lemma star_spec b va args l args' :
  packed c va args -> take_star b args = Some (l, args') ->
  exists used, args = used ++ args' /\ (if b then (let '(v, o) := va_i32 c va in ([HInt (s32 v)], o)) else ([], va)) = (l, va_after va used).
Proof.
  intros Hp. destruct b; simpl; [|intros [= <- <-]; by exists []]. destruct args as [|[v| |] r]; try done. intros [= <- <-].
  exists [A32 v]. split; [done|]. by rewrite (va_i32_at c Hsize va v r Hp).
Qed.

Lemma stars_spec d fmt va args w args1 p args2 :
  packed c va args -> take_star (is_star (d_width d)) args = Some (w, args1) -> take_star (prec_star (d_prec d)) args1 = Some (p, args2) ->
  exists used, args = used ++ args2 /\ stars c (head_of d fmt) va = (w ++ p, va_after va used).
Proof.
  intros Hp Hw Hpr. destruct (star_spec _ _ _ _ _ Hp Hw) as (u1 & -> & E1).
  destruct (star_spec _ _ _ _ _ (packed_after _ _ _ _ Hp) Hpr) as (u2 & -> & E2).
  exists (u1 ++ u2). split; [by rewrite app_assoc|]. unfold stars, head_of. cbn [sh_width_star sh_prec_star]. rewrite E1. unfold prec_star in E2.
  by rewrite E2, va_after_app.
Qed.

Lemma convert_spec d fmt va args t args' :
  d_mod d ∈ modifiers -> packed c va args -> render_text snprintf d args = Some (t, args') ->
  exists used, args = used ++ args' /\ convert snprintf c (head_of d fmt) (d_conv d) va = (Some t, va_after va used).
Proof.
  intros Hm Hp. unfold render_text.
  destruct (take_star _ args) as [[w args1]|] eqn:Hw; [|done]. cbn [mbind option_bind].
  destruct (take_star _ args1) as [[p args2]|] eqn:Hpr; [|done]. cbn [mbind option_bind].
  destruct (render_conv _ _ _ _) as [[ot args3]|] eqn:Hc; [|done]. cbn [mbind option_bind].
  destruct ot as [t'|]; [|done]. cbn [mbind option_bind]. intros [= <- <-].
  destruct (stars_spec d fmt va args w args1 p args2 Hp Hw Hpr) as (u & -> & Es). apply packed_after in Hp.
  unfold convert. rewrite Es, host_spec_eq by done. cbn [sh_mods head_of]. rewrite wide_eq by done. unfold render_conv in Hc. clear Es Hw Hpr.
  destruct (kind_of (d_conv d)), (wide (d_mod d)); try (simplify_eq; by exists u);
    destruct args2 as [|[v|v|q s] r]; try done; injection Hc as Hc <-; rewrite <-Hc;
    first [exists (u ++ [A32 v]); rewrite va_after_app, (va_i32_at c Hsize _ v r Hp); split; [by rewrite <-app_assoc|done]
          |exists (u ++ [A64 v]); unfold va_f64; rewrite va_after_app, (va_i64_at c Hsize _ v r Hp); split; [by rewrite <-app_assoc|done]
          |exists (u ++ [AStr q s]); destruct (va_str_at c Hsize _ q s r Hp) as [-> ->]; rewrite va_after_app; split; [by rewrite <-app_assoc|done]].
Qed.
End Convert.

(** * The output *)

Definition out_byte (k : sink) (st : out_state) (i : Z) : Z :=
  match k with ToGuest dst => ld8 (mem (o_exec st)) (dst + i) | ToHost => ld8 (o_host st) i end.

(** [text] is appended at [pos], as far as the capacity goes. *)
Definition appended (k : sink) (cap pos : Z) (text : bytes) (st st' : out_state) : Prop :=
  within k cap st st' /\ forall i,
    out_byte k st' i = if (pos <=? i) && (i <? Z.min cap (pos + blen text)) then nth (Z.to_nat (i - pos)) text 0 else out_byte k st i.

Lemma out_byte_put k pos s st i :
  out_byte k (put k pos s st) i = if (pos <=? i) && (i <? pos + blen s) then u8 (nth (Z.to_nat (i - pos)) s 0) else out_byte k st i.
Proof.
  destruct k as [dst|]; cbn [out_byte put o_exec o_host mem set_mem]; unfold ld8, write_bytes.
  - replace (dst + pos <=? dst + i) with (pos <=? i) by (destruct (Z.leb_spec pos i), (Z.leb_spec (dst + pos) (dst + i)); (done || lia)).
    replace (dst + i <? dst + pos + blen s) with (i <? pos + blen s)
      by (destruct (Z.ltb_spec i (pos + blen s)), (Z.ltb_spec (dst + i) (dst + pos + blen s)); (done || lia)).
    replace (dst + i - (dst + pos)) with (i - pos) by lia. destruct (_ && _); [apply u8_idemp|done].
  - destruct (_ && _); [apply u8_idemp|done].
Qed.

Lemma appended_nil k cap pos st : appended k cap pos [] st st.
Proof.
  split; [apply within_refl|]. intros i. change (blen []) with 0.
  destruct (Z.leb_spec pos i), (Z.ltb_spec i (Z.min cap (pos + 0))); cbn [andb]; (done || lia).
Qed.

Lemma appended_app k cap pos t1 t2 st1 st2 st3 :
  appended k cap pos t1 st1 st2 -> appended k cap (pos + blen t1) t2 st2 st3 -> appended k cap pos (t1 ++ t2) st1 st3.
Proof.
  intros [W1 H1] [W2 H2]. split; [by eapply within_trans|]. intros i. rewrite H2, H1, blen_app.
  pose proof (blen_nonneg t1). pose proof (blen_nonneg t2).
  destruct (Z.leb_spec pos i), (Z.leb_spec (pos + blen t1) i), (Z.ltb_spec i (Z.min cap (pos + blen t1 + blen t2))),
    (Z.ltb_spec i (Z.min cap (pos + blen t1))), (Z.ltb_spec i (Z.min cap (pos + (blen t1 + blen t2)))); cbn [andb]; try lia; try done.
  - unfold blen in *. rewrite app_nth2 by lia. f_equal. lia.
  - unfold blen in *. rewrite app_nth1 by lia. done.
Qed.

Definition text_ok (t : bytes) : Prop := Forall (fun b => 0 <= b < 256) t.

Lemma text_nth t n : text_ok t -> u8 (nth n t 0) = nth n t 0.
Proof.
  intros Ht. apply Z.mod_small. destruct (le_lt_dec (length t) n) as [H|H]; [rewrite nth_overflow by done; lia|].
  unfold text_ok in Ht. rewrite Forall_forall in Ht. apply Ht, list_elem_of_In, nth_In, H.
Qed.

Lemma put_appended k cap pos t st :
  0 <= pos -> text_ok t -> pos + blen t <= cap -> appended k cap pos t st (put k pos t st).
Proof.
  intros Hp Ht Hc. split; [apply within_put; [done|by right]|]. intros i. rewrite out_byte_put, text_nth by done.
  rewrite Z.min_r by lia. done.
Qed.

(** What arrives of a text that went through the code's buffer: its first 1023
    bytes, then the NUL and what lies behind the buffer. *)
Definition arrives (stack : nat -> Z) (t : bytes) : bytes := buf_bytes stack t (length t).

Lemma blen_arrives stack t : blen (arrives stack t) = blen t.
Proof. apply blen_buf_bytes. Qed.

Lemma buf_bytes_nth stack t n i :
  (i < n)%nat -> nth i (buf_bytes stack t n) 0 =
    if Z.of_nat i <? Z.min (blen t) (BUF - 1) then nth i t 0 else if Z.of_nat i =? Z.min (blen t) (BUF - 1) then 0 else stack i.
Proof.
  intros Hi. unfold buf_bytes. set (g := fun j : nat => _).
  rewrite (nth_indep _ 0 (g 0%nat)) by (rewrite length_map, length_seq; lia). by rewrite map_nth, seq_nth by lia.
Qed.

Lemma arrives_short stack t : blen t < BUF -> arrives stack t = t.
Proof.
  intros Hl. assert (length (arrives stack t) = length t) as Hlen by (pose proof (blen_arrives stack t); unfold blen in *; lia).
  apply (nth_ext _ _ 0 0); [done|]. intros i Hi. unfold arrives. rewrite buf_bytes_nth by lia. unfold blen, BUF in *.
  by rewrite Z.min_l, (proj2 (Z.ltb_lt _ _)) by lia.
Qed.

Lemma arrives_prefix stack t : take 1023 (arrives stack t) = take 1023 t.
Proof.
  assert (length (arrives stack t) = length t) as Hlen by (pose proof (blen_arrives stack t); unfold blen in *; lia).
  apply (nth_ext _ _ 0 0); [rewrite !length_take; lia|]. intros i Hi. rewrite length_take in Hi.
  rewrite !nth_lookup, !lookup_take_lt, <-!nth_lookup by lia. unfold arrives. rewrite buf_bytes_nth by lia.
  unfold blen, BUF. by rewrite (proj2 (Z.ltb_lt _ _)) by lia.
Qed.

Lemma arrives_ok stack t : (forall i, 0 <= stack i < 256) -> text_ok t -> text_ok (arrives stack t).
Proof.
  intros Hs Ht. unfold text_ok, arrives, buf_bytes in *. apply Forall_map, Forall_forall. intros i _.
  destruct (_ <? _); [|destruct (_ =? _); [lia|apply Hs]]. destruct (le_lt_dec (length t) i); [rewrite nth_overflow by done; lia|].
  rewrite Forall_forall in Ht. by apply Ht, list_elem_of_In, nth_In.
Qed.

(** The copy of a conversion. *)
Lemma emit_appended stack k cap pos t st :
  0 <= pos -> text_ok (arrives stack t) -> appended k cap pos (arrives stack t) st (emit_text stack k cap pos t st).1.
Proof.
  intros Hp Ht. pose proof (blen_nonneg t).
  split; [destruct (emit_text stack k cap pos t st) as [st1 p1] eqn:E; by apply emit_within in E as [? _]|].
  intros i. unfold emit_text. cbn [fst]. rewrite blen_arrives.
  set (n := if cap <? pos + blen t then _ else _). rewrite out_byte_put, blen_buf_bytes.
  assert (Hn : 0 <= n /\ n <= blen t /\ (pos <= i -> (i < pos + n <-> i < Z.min cap (pos + blen t)))).
  { unfold n. destruct (Z.ltb_spec cap (pos + blen t)), (Z.ltb_spec pos cap); lia. }
  clearbody n. destruct Hn as (Hn0 & Hn1 & Hn). rewrite Z2Nat.id by done.
  destruct (Z.leb_spec pos i) as [Hi|Hi]; cbn [andb]; [|done]. specialize (Hn Hi).
  destruct (Z.ltb_spec i (pos + n)), (Z.ltb_spec i (Z.min cap (pos + blen t))); try lia.
  rewrite <-(text_nth _ _ Ht). f_equal. unfold arrives, blen in *. by rewrite !buf_bytes_nth by lia.
Qed.
