(* ===== verification/PrintfThms.v ===== *)
(** The printf family's properties: bounded writes for every format, the exact
    text for well-formed ones, and where the code leaves its buffers. *)
From Stdlib Require Import Strings.String.
From S2P Require Import Prelude Memory Ctx CString Printf PrintfText.

(** * The loop on a well-formed format *)

(** The format at [fmt] and the arguments at [va]. *)
Definition inputs (c : exec_ctx) (fmt va : Z) (items : list item) (args : list va_arg) : Prop :=
  reads c fmt (format_text items ++ [0]) /\ packed c va args.

(** Inputs that the call's own output does not overwrite. *)
Definition stable_inputs (k : sink) (cap : Z) (st : out_state) (fmt va : Z) (items : list item) (args : list va_arg) : Prop :=
  forall st', within k cap st st' -> inputs (o_exec st') fmt va items args.

Section Loop.
Variables (snprintf : bytes -> list host_arg -> option bytes) (stack : nat -> Z).
Hypothesis Hsn : forall spec args t, snprintf spec args = Some t -> text_ok t.
Hypothesis Hstack : forall i, 0 <= stack i < 256.


(** A directive is parsed, converted and copied. *)
Lemma format_one_eq k cap st fmt va pos d rest args t args' :
  reads (o_exec st) fmt (print d ++ rest) -> packed (o_exec st) va args -> memory_size (o_exec st) < 4294967296 ->
  directive_ok d -> render_text snprintf d args = Some (t, args') ->
  exists used, args = used ++ args' /\
    format_one snprintf stack k cap st fmt va pos = Some ((emit_text stack k cap pos t st).1, fmt + blen (print d), va_after va used, pos + blen t).
Proof.
  intros Hr Hp Hsz Hd Ht. pose proof (parse_head_spec _ _ _ _ Hr Hd) as Hh.
  destruct (convert_spec snprintf (o_exec st) Hsz d fmt va args t args' (do_mod _ Hd) Hp Ht) as (used & -> & Hc). exists used. split; [done|].
  destruct (do_conv _ Hd) as [Hcv _]. pose proof (do_length _ Hd) as Hlen. unfold print in Hlen, Hr.
  assert (Hlt : blen (print d) = blen (print_head d ++ d_mod d) + 1) by (unfold print; rewrite app_assoc, blen_app; done).
  assert (Hrc : rd (o_exec st) (sh_ptr (head_of d fmt)) = Some (d_conv d)).
  { rewrite app_assoc, <-app_assoc in Hr. exact (reads_head _ _ _ _ (reads_app _ _ _ _ Hr)). }
  unfold format_one. step Hh. step Hrc. fold (print d) in Hlen.
  rewrite (proj2 (Z.leb_gt SPEC_MAX _)), (proj2 (Z.eqb_neq (d_conv d) 0)) by (cbn [sh_text head_of]; unfold SPEC_MAX; lia). cbn [orb].
  rewrite Hc. cbv beta iota. unfold emit_text. cbn [fst sh_ptr head_of]. do 4 f_equal. lia.
Qed.



End Loop.

(** * Whole calls *)



(** A NUL ahead makes a string. *)
Lemma cstr_go_finds fuel m a k : 0 <= k < Z.of_nat fuel -> ld8 m (a + k) = 0 -> exists s, cstr_go fuel m a = Some s.
Proof.
  revert a k. induction fuel as [|f IH]; intros a k Hk Hz; [lia|]. cbn [cstr_go].
  destruct (Z.eqb_spec (ld8 m a) 0); [by exists []|]. destruct (decide (k = 0)) as [->|Hne]; [rewrite Z.add_0_r in Hz; done|].
  destruct (IH (a + 1) (k - 1)) as (s & ->); [lia|by replace (a + 1 + (k - 1)) with (a + k) by lia|]. by exists (ld8 m a :: s).
Qed.

Lemma reads_last c p s ch : reads c p (s ++ [ch]) -> rd c (p + blen s) = Some ch.
Proof. intros H. exact (reads_head _ _ _ _ (reads_app _ _ _ _ H)). Qed.

Lemma rd_Some c p ch : rd c p = Some ch -> 0 <= p < memory_size c /\ ld8 (mem c) p = ch.
Proof.
  unfold rd. destruct (Z.leb_spec 0 p), (Z.ltb_spec p (memory_size c)); try done. cbn [andb]. intros [= <-]. done.
Qed.

Lemma reads_string c p s : 0 < p -> reads c p (s ++ [0]) -> exists t, wstr_check c p = Some t.
Proof.
  intros Hp Hr. apply reads_last, rd_Some in Hr as [[_ Hlt] Hz]. pose proof (blen_nonneg s).
  unfold wstr_check. rewrite (proj2 (Z.eqb_neq p 0)), (proj2 (Z.leb_gt _ _)) by lia. cbn [orb]. apply (cstr_go_finds _ _ _ (blen s)); [lia|done].
Qed.


(** * Formats that the walk stays inside of *)

(** Whether the walk from [p] ends at the terminator [e]: each specification
    fits its array and ends before the terminator. *)
Fixpoint format_walks (fuel : nat) (c : exec_ctx) (p e : Z) : bool :=
  match fuel with
  | O => false
  | S f =>
      if p =? e then true
      else match rd c p with
           | None => false
           | Some ch =>
               if ch =? 37 then
                 match parse_head c p with
                 | None => false
                 | Some h =>
                     (sh_ptr h <? e) &&
                     format_walks f c (if SPEC_MAX <=? blen (sh_text h) + 2 then sh_ptr h else sh_ptr h + 1) e
                 end
               else format_walks f c (p + 1) e
           end
  end.

Definition format_closed (c : exec_ctx) (fmt : Z) : bool :=
  match wstr_check c fmt with
  | None => true
  | Some s => format_walks (S (length s)) c fmt (fmt + blen s)
  end.

(** The bytes from [lo] to [hi], both included, read the same. *)
Definition same_reads (lo hi : Z) (c c' : exec_ctx) : Prop := forall a, lo <= a <= hi -> rd c' a = rd c a.

Lemma same_reads_sub lo hi lo' hi' c c' : same_reads lo hi c c' -> lo <= lo' -> hi' <= hi -> same_reads lo' hi' c c'.
Proof. intros H Hl Hh a Ha. apply H. lia. Qed.

Lemma scan_ext ok c c' fuel p spec s q :
  scan fuel ok c p spec = Some (s, q) -> p <= q /\ (same_reads p q c c' -> scan fuel ok c' p spec = Some (s, q)).
Proof.
  revert p spec. induction fuel as [|f IH]; intros p spec; cbn [scan]; [intros [= <- <-]; split; [lia|done]|].
  destruct (SPEC_MAX <=? blen spec + 1); [intros [= <- <-]; split; [lia|done]|].
  destruct (rd c p) as [ch|] eqn:E; [|done]. cbn [mbind option_bind]. destruct (ok ch) eqn:Eo.
  - intros H. apply IH in H as [Hle H]. split; [lia|]. intros Hs. rewrite Hs, E by lia. cbn [mbind option_bind]. rewrite Eo.
    apply H. eapply same_reads_sub; [exact Hs|lia..].
  - intros [= <- <-]. split; [lia|]. intros Hs. rewrite Hs, E by lia. cbn [mbind option_bind]. by rewrite Eo.
Qed.

Lemma scan_mods_ext c c' fuel p spec m s q m' :
  scan_mods fuel c p spec m = Some (s, q, m') -> p <= q /\ (same_reads p q c c' -> scan_mods fuel c' p spec m = Some (s, q, m')).
Proof.
  revert p spec m. induction fuel as [|f IH]; intros p spec m; cbn [scan_mods]; [intros [= <- <- <-]; split; [lia|done]|].
  destruct (SPEC_MAX <=? blen spec + 1); [intros [= <- <- <-]; split; [lia|done]|].
  destruct (rd c p) as [ch|] eqn:E; [|done]. cbn [mbind option_bind]. destruct (strchr_hits _ ch) eqn:Eh.
  2: { intros [= <- <- <-]. split; [lia|]. intros Hs. rewrite (Hs p), E by lia. cbn [mbind option_bind]. by rewrite Eh. }
  destruct (ch =? 108) eqn:El.
  - destruct (rd c (p + 1)) as [nx|] eqn:En; [|done]. cbn [mbind option_bind].
    destruct (nx =? 108) eqn:Enx; intros H; apply IH in H as [Hle H]; (split; [lia|]); intros Hs;
      rewrite (Hs p), E by lia; cbn [mbind option_bind]; rewrite Eh, El, (Hs (p + 1)), En by lia; cbn [mbind option_bind]; rewrite Enx;
      (apply H; eapply same_reads_sub; [exact Hs|lia..]).
  - intros H. apply IH in H as [Hle H]. split; [lia|]. intros Hs. rewrite (Hs p), E by lia. cbn [mbind option_bind].
    rewrite Eh, El. apply H. eapply same_reads_sub; [exact Hs|lia..].
Qed.

Lemma scan_width_ext c c' p spec s q b :
  scan_width c p spec = Some (s, q, b) -> p <= q /\ (same_reads p q c c' -> scan_width c' p spec = Some (s, q, b)).
Proof.
  unfold scan_width. destruct (rd c p) as [w|] eqn:R; [|done]. cbn [mbind option_bind]. destruct (w =? STAR) eqn:Ew.
  - intros [= <- <- <-]. split; [lia|]. intros Hs. rewrite (Hs p), R by lia. cbn [mbind option_bind]. by rewrite Ew.
  - destruct (scan SCAN is_digit c p spec) as [[s' q']|] eqn:E; [|done]. intros [= -> -> <-].
    destruct (scan_ext _ c c' _ _ _ _ _ E) as [L X]. split; [done|]. intros Hs. rewrite (Hs p), R by lia. cbn [mbind option_bind].
    by rewrite Ew, X.
Qed.

Lemma scan_prec_ext c c' p spec s q b :
  scan_prec c p spec = Some (s, q, b) -> p <= q /\ (same_reads p q c c' -> scan_prec c' p spec = Some (s, q, b)).
Proof.
  unfold scan_prec. destruct (rd c p) as [d|] eqn:R; [|done]. cbn [mbind option_bind]. destruct (d =? DOT) eqn:Ed.
  2: { intros [= <- <- <-]. split; [lia|]. intros Hs. rewrite (Hs p), R by lia. cbn [mbind option_bind]. by rewrite Ed. }
  destruct (rd c (p + 1)) as [n|] eqn:Rn; [|done]. cbn [mbind option_bind]. destruct (n =? STAR) eqn:En.
  - intros [= <- <- <-]. split; [lia|]. intros Hs. rewrite (Hs p), R by lia. cbn [mbind option_bind].
    rewrite Ed, (Hs (p + 1)), Rn by lia. cbn [mbind option_bind]. by rewrite En.
  - destruct (scan SCAN is_digit c (p + 1) (spec ++ [d])) as [[s' q']|] eqn:E; [|done]. intros [= -> -> <-].
    destruct (scan_ext _ c c' _ _ _ _ _ E) as [L X]. split; [lia|]. intros Hs. rewrite (Hs p), R by lia. cbn [mbind option_bind].
    rewrite Ed, (Hs (p + 1)), Rn by lia. cbn [mbind option_bind]. rewrite En, X; [done|]. eapply same_reads_sub; [exact Hs|lia..].
Qed.

(** A head is read between the percent sign and the conversion character. *)
Lemma parse_head_ext c c' p h :
  parse_head c p = Some h -> p + 1 <= sh_ptr h /\ (same_reads (p + 1) (sh_ptr h) c c' -> parse_head c' p = Some h).
Proof.
  unfold parse_head.
  destruct (scan SCAN _ c (p + 1) [37]) as [[s1 p1]|] eqn:E1; [|done]. cbn [mbind option_bind].
  destruct (scan_ext _ c c' _ _ _ _ _ E1) as [L1 X1].
  destruct (scan_width c p1 s1) as [[[s2 p2] ws]|] eqn:E2; [|done]. cbn [mbind option_bind].
  destruct (scan_width_ext c c' _ _ _ _ _ E2) as [L2 X2].
  destruct (scan_prec c p2 s2) as [[[s3 p3] ps]|] eqn:E3; [|done]. cbn [mbind option_bind].
  destruct (scan_prec_ext c c' _ _ _ _ _ E3) as [L3 X3].
  destruct (SPEC_MAX <? blen s3) eqn:Ef; [done|].
  destruct (scan_mods SCAN c p3 s3 no_mods) as [[[s4 p4] m]|] eqn:E4; [|done]. intros [= <-]. cbn [sh_ptr].
  destruct (scan_mods_ext c c' _ _ _ _ _ _ _ E4) as [L4 X4]. split; [lia|]. intros Hs.
  assert (Hsub : forall lo hi, p + 1 <= lo -> hi <= p4 -> same_reads lo hi c c') by (intros; by eapply same_reads_sub).
  step (X1 (Hsub (p + 1) p1 ltac:(lia) ltac:(lia))). step (X2 (Hsub p1 p2 ltac:(lia) ltac:(lia))). step (X3 (Hsub p2 p3 ltac:(lia) ltac:(lia))).
  rewrite Ef. by step (X4 (Hsub p3 p4 ltac:(lia) ltac:(lia))).
Qed.

Section Closed.
Variables (snprintf : bytes -> list host_arg -> option bytes) (stack : nat -> Z).
Variables (k : sink) (cap : Z) (st0 : out_state) (fmt e : Z).

(** The walk's text: non-NUL bytes up to the terminator, out of the reach of
    the call's own output. *)
Hypothesis Hkeep : forall st, within k cap st0 st -> same_reads fmt e (o_exec st0) (o_exec st).
Hypothesis Htext : forall a, fmt <= a < e -> exists ch, rd (o_exec st0) a = Some ch /\ ch <> 0.
Hypothesis Hend : rd (o_exec st0) e = Some 0.

Lemma format_one_defined st p va pos h :
  within k cap st0 st -> fmt <= p -> parse_head (o_exec st0) p = Some h -> sh_ptr h < e -> 0 <= pos ->
  exists st' va' pos', within k cap st0 st' /\ 0 <= pos' /\ format_one snprintf stack k cap st p va pos =
    Some (st', if SPEC_MAX <=? blen (sh_text h) + 2 then sh_ptr h else sh_ptr h + 1, va', pos').
Proof.
  intros Hw Hp Hh He Hpos. pose proof (Hkeep _ Hw) as Hs. destruct (parse_head_ext _ (o_exec st) _ _ Hh) as [Hle Hx].
  assert (exists r, format_one snprintf stack k cap st p va pos = Some r /\
    r.1.1.2 = if SPEC_MAX <=? blen (sh_text h) + 2 then sh_ptr h else sh_ptr h + 1) as ([[[st' q] va'] pos'] & E & Hq).
  { unfold format_one. rewrite Hx by (eapply same_reads_sub; [exact Hs|lia..]). cbn [mbind option_bind].
    destruct (Htext (sh_ptr h) ltac:(lia)) as (ch & Hch & Hne). rewrite (Hs (sh_ptr h)), Hch by lia. cbn [mbind option_bind].
    rewrite (proj2 (Z.eqb_neq ch 0) Hne), orb_false_r. destruct (SPEC_MAX <=? _); [by eexists|].
    destruct (convert _ _ _ _ _) as [[t|] va1]; [|by eexists]. destruct (emit_text _ _ _ _ _ _) as [st1 pos1]. by eexists. }
  cbn in Hq. subst q. apply format_one_within in E as E'; [|done]. destruct E' as [Hw' Hpos'].
  exists st', va', pos'. split_and!; [by eapply within_trans|lia|exact E].
Qed.

Lemma format_loop_defined fw : forall fuel st p va pos,
  within k cap st0 st -> fmt <= p <= e -> 0 <= pos -> e - p < Z.of_nat fuel ->
  format_walks fw (o_exec st0) p e = true ->
  exists r, format_loop snprintf stack fuel k cap st p va pos = Some r.
Proof.
  induction fw as [|fw IH]; intros fuel st p va pos Hw Hp Hpos Hf; [done|]. destruct fuel as [|fuel]; [lia|]. cbn [format_walks format_loop].
  pose proof (Hkeep _ Hw) as Hs. destruct (Z.eqb_spec p e) as [->|Hne].
  { intros _. rewrite (Hs e), Hend by lia. cbn [mbind option_bind Z.eqb]. by eexists. }
  destruct (Htext p ltac:(lia)) as (ch & Hch & Hnz). rewrite (Hs p), Hch by lia. cbn [mbind option_bind].
  rewrite (proj2 (Z.eqb_neq ch 0) Hnz). destruct (Z.eqb_spec ch 37) as [->|H37]; cbn [negb].
  - destruct (parse_head (o_exec st0) p) as [h|] eqn:Hh; [|done]. intros [He%Z.ltb_lt Hwalk]%andb_true_iff.
    destruct (format_one_defined st p va pos h Hw ltac:(lia) Hh He Hpos) as (st' & va' & pos' & Hw' & Hpos' & ->).
    cbn [mbind option_bind]. destruct (parse_head_ext _ (o_exec st0) _ _ Hh) as [Hle _].
    apply IH; [done| |done| |done]; destruct (SPEC_MAX <=? _); lia.
  - intros Hwalk. apply IH; [|lia|lia|lia|done]. destruct (Z.ltb_spec pos cap); [|done].
    eapply within_trans; [exact Hw|]. apply within_put; [lia|right; change (blen [ch]) with 1; lia].
Qed.
End Closed.

Lemma cstr_go_text fuel m a s :
  cstr_go fuel m a = Some s -> blen s < Z.of_nat fuel /\ ld8 m (a + blen s) = 0 /\ forall i, 0 <= i < blen s -> ld8 m (a + i) <> 0.
Proof.
  revert a s. induction fuel as [|f IH]; intros a s; cbn [cstr_go]; [done|]. destruct (Z.eqb_spec (ld8 m a) 0) as [Hz|Hz].
  - intros [= <-]. change (blen []) with 0. rewrite Z.add_0_r. split_and!; [lia|done|lia].
  - destruct (cstr_go f m (a + 1)) as [s'|] eqn:E; [|done]. intros [= <-]. rewrite blen_cons. destruct (IH _ _ E) as (H1 & H2 & H3).
    split_and!; [lia|by replace (a + (blen s' + 1)) with (a + 1 + blen s') by lia|]. intros i Hi.
    destruct (decide (i = 0)) as [->|]; [by rewrite Z.add_0_r|]. replace (a + i) with (a + 1 + (i - 1)) by lia. apply H3. lia.
Qed.

Lemma wstr_text c p s :
  0 <= p -> wstr_check c p = Some s -> rd c (p + blen s) = Some 0 /\ forall a, p <= a < p + blen s -> exists ch, rd c a = Some ch /\ ch <> 0.
Proof.
  unfold wstr_check. intros Hp. destruct (_ || _) eqn:Eo; [done|]. apply orb_false_iff in Eo as [_ Eo%Z.leb_gt].
  intros H. unfold cstr in H. apply cstr_go_text in H as (H1 & H2 & H3). pose proof (blen_nonneg s).
  assert (Hrd : forall a, p <= a <= p + blen s -> rd c a = Some (ld8 (mem c) a)).
  { intros a Ha. unfold rd. by rewrite (proj2 (Z.leb_le 0 a)), (proj2 (Z.ltb_lt a _)) by lia. }
  split; [by rewrite Hrd, H2 by lia|]. intros a Ha. rewrite Hrd by lia. eexists. split; [done|].
  replace a with (p + (a - p)) by lia. apply H3. lia.
Qed.

Lemma core_defined snprintf stack k cap st fmt va :
  0 <= fmt -> format_closed (o_exec st) fmt = true ->
  (forall s st', wstr_check (o_exec st) fmt = Some s -> within k cap st st' -> same_reads fmt (fmt + blen s) (o_exec st) (o_exec st')) ->
  exists r, yos_vsnprintf_core snprintf stack k cap st fmt va = Some r.
Proof.
  unfold format_closed, yos_vsnprintf_core. intros Hfmt Hc Hk. destruct (wstr_check (o_exec st) fmt) as [s|] eqn:E; [|by eexists].
  destruct (wstr_text _ _ _ Hfmt E) as [H0 Ht]. pose proof (blen_nonneg s).
  destruct (format_loop_defined snprintf stack k cap st fmt (fmt + blen s) (fun st' => Hk s st' eq_refl) Ht H0 (S (length s))
    (format_fuel (o_exec st) fmt) st fmt va 0) as ([st1 pos] & ->); [apply within_refl|lia|lia| |done|by eexists].
  unfold format_fuel. apply rd_Some in H0 as [[_ H0] _]. lia.
Qed.

Section Whole.
Variables (snprintf : bytes -> list host_arg -> option bytes) (stack : nat -> Z).
Hypothesis Hsn : forall spec args t, snprintf spec args = Some t -> text_ok t.
Hypothesis Hstack : forall i, 0 <= stack i < 256.

End Whole.


(** * Properties *)


(** C18: Whatever the format, its arguments and the host's answers are, a call
    that has a result has changed no byte outside the given buffer, nothing but
    memory, and has ended the buffer with a NUL; a buffer that is null, empty or
    not inside linear memory is not touched.  A call has a result when each
    specification of the format fits the code's 64-byte array and ends before
    the terminator, and the buffer does not overlap the format; a format that is
    not a string inside the memory is refused. *)
Theorem vsnprintf_bounded snprintf stack c dst n fmt va :
  0 <= n ->
  let call := yos_vsnprintf snprintf stack c dst n fmt va in
  (forall c' r, call = Some (c', r) ->
     if (0 <? n) && negb (dst =? 0) && (dst + n <=? memory_size c)
     then c' = set_mem (mem c') c /\ (forall a, a < dst \/ dst + n <= a -> ld8 (mem c') a = ld8 (mem c) a) /\
          exists i, 0 <= i < n /\ ld8 (mem c') (dst + i) = 0
     else c' = c) /\
  (0 <= fmt -> format_closed c fmt = true ->
   (forall s, wstr_check c fmt = Some s -> fmt + blen s < dst \/ dst + n <= fmt) ->
   exists c' r, call = Some (c', r)).
Proof.
  intros Hn. unfold yos_vsnprintf. split.
  - intros c' r. destruct (Z.eqb_spec n 0), (Z.ltb_spec 0 n); try lia; cbn [orb andb].
    + destruct (yos_vsnprintf_core _ _ _ _ _ _ _) as [[st r']|] eqn:E; [|done]. intros [= <- <-]. by apply core_within in E as [Hw _].
    + destruct (Z.eqb_spec dst 0), (Z.ltb_spec (memory_size c) (dst + n)), (Z.leb_spec (dst + n) (memory_size c)); try lia; cbn [orb andb negb];
        destruct (yos_vsnprintf_core _ _ _ _ _ _ _) as [[st r']|] eqn:E; try done; intros [= <- <-]; apply core_within in E as [Hw Hz]; try lia; try done.
      destruct Hw as [Hw1 Hw2]. split_and!; [done|done|by apply Hz].
  - intros Hfmt Hc Hd. destruct (_ || _).
    + destruct (core_defined snprintf stack ToHost 0 (OutState c no_host) fmt va Hfmt Hc) as ([st r] & ->); [|by eexists _, _].
      intros s st' _ Hw. simpl in Hw. intros a _. by rewrite Hw.
    + destruct (core_defined snprintf stack (ToGuest dst) n (OutState c no_host) fmt va Hfmt Hc) as ([st r] & ->); [|by eexists _, _].
      intros s st' Hs Hw. pose proof (within_size _ _ _ _ Hw) as Hsz. destruct Hw as [_ Hw]. destruct (Hd s Hs) as [Hlt|Hge];
        intros a Ha; unfold rd; by rewrite Hsz, Hw by lia.
Qed.

(** Sprintf passes a capacity of 2^32-1, which no buffer of linear memory
    has: it never stores anything. *)
Theorem sprintf_writes_nothing snprintf stack c dst fmt va c' r :
  0 <= dst -> memory_size c < 4294967296 -> yos_sprintf snprintf stack c dst fmt va = Some (c', r) -> c' = c.
Proof.
  unfold yos_sprintf, yos_vsprintf, yos_vsnprintf, UINT32_MAX. intros Hd Hsz.
  replace ((dst =? 0) || (memory_size c <? dst + 4294967295)) with true
    by (destruct (Z.eqb_spec dst 0), (Z.ltb_spec (memory_size c) (dst + 4294967295)); (done || lia)).
  cbn [Z.eqb orb]. destruct (yos_vsnprintf_core _ _ _ _ _ _ _) as [[st r']|] eqn:E; [|done]. intros [= <- <-]. by apply core_within in E as [H _].
Qed.

Lemma scan_step f ok c p spec :
  scan (S f) ok c p spec =
    if SPEC_MAX <=? blen spec + 1 then Some (spec, p)
    else ch ← rd c p; if ok ch then scan f ok c (p + 1) (spec ++ [ch]) else Some (spec, p).
Proof. done. Qed.

Lemma rd_outside c p : memory_size c <= p -> rd c p = None.
Proof. intros H. unfold rd. rewrite (proj2 (Z.ltb_ge p _)) by lia. by rewrite andb_false_r. Qed.

(** The scan of the flags takes the terminator of the format for a flag, so
    a format that ends in a percent sign at the end of linear memory is read
    beyond it. *)
Theorem trailing_percent_overruns snprintf stack c fmt va s :
  0 < fmt -> Forall (fun ch => byte_ok ch /\ ch <> 37) s -> reads c fmt (s ++ [37; 0]) -> fmt + blen s + 2 = memory_size c ->
  yos_snprintf snprintf stack c 0 0 fmt va = None.
Proof.
  intros Hfmt Hs Hr Hend.
  assert (Hloop : forall fuel st p pos q, o_exec st = c -> Forall (fun ch => byte_ok ch /\ ch <> 37) q -> reads c p (q ++ [37; 0]) ->
    p + blen q + 2 = memory_size c -> format_loop snprintf stack fuel ToHost 0 st p va pos = None).
  { induction fuel as [|f IH]; intros st p pos q Hc Hq Hrq He; [done|]. cbn [format_loop]. rewrite Hc. destruct q as [|ch q].
    - rewrite (reads_head _ _ _ _ Hrq). cbn [mbind option_bind Z.eqb Pos.eqb negb]. unfold format_one. rewrite Hc.
      assert (Hh : parse_head c p = None); [|by rewrite Hh]. unfold parse_head.
      assert (Hscan : scan SCAN (strchr_hits "-+ #0'") c (p + 1) [37] = None); [|by rewrite Hscan].
      unfold SCAN. rewrite (scan_step 63). change (SPEC_MAX <=? blen [37] + 1) with false. cbv iota.
      step (reads_head _ _ _ _ (reads_tail _ _ _ _ Hrq)). change (strchr_hits "-+ #0'" 0) with true. cbv iota.
      rewrite (scan_step 62). change (SPEC_MAX <=? blen ([37] ++ [0]) + 1) with false. cbv iota.
      change (blen []) with 0 in He. by rewrite rd_outside by lia.
    - apply Forall_cons in Hq as [[Hch Hne] Hq]. unfold byte_ok in Hch. rewrite (reads_head _ _ _ _ Hrq). cbn [mbind option_bind].
      rewrite (proj2 (Z.eqb_neq ch 0)), (proj2 (Z.eqb_neq ch 37)) by lia. cbn [negb]. rewrite blen_cons in He.
      apply (IH _ (p + 1) (pos + 1) q); [by destruct (pos <? 0)|done|exact (reads_tail _ _ _ _ Hrq)|lia]. }
  unfold yos_snprintf, yos_vsnprintf. cbn [Z.eqb orb]. unfold yos_vsnprintf_core. cbn [o_exec].
  change [37; 0] with ([37] ++ [0]) in Hr. rewrite app_assoc in Hr.
  destruct (reads_string _ _ _ Hfmt Hr) as (t & ->). rewrite <-app_assoc in Hr. by rewrite (Hloop _ _ _ _ s).
Qed.

(** a conversion longer than the code's buffer is copied at its full length:
    past the buffer's 1024 bytes the guest receives what the host's stack holds. *)
Theorem snprintf_leaks_stack snprintf stack c dst n fmt va d args t args' :
  0 < dst -> dst + n <= memory_size c < 4294967296 -> 0 < fmt -> directive_ok d ->
  render_text snprintf d args = Some (t, args') -> BUF < blen t < n -> blen t < 2147483648 ->
  stable_inputs (ToGuest dst) n (OutState c no_host) fmt va [Conv d] args ->
  exists c', yos_snprintf snprintf stack c dst n fmt va = Some (c', blen t) /\
    forall i, BUF <= i < blen t -> ld8 (mem c') (dst + i) = u8 (stack (Z.to_nat i)).
Proof.
  intros Hd Hsz Hfmt Hdir Ht Hlen Hmax Hs. destruct (Hs _ (within_refl _ _ _)) as [Hr Hp]. unfold BUF in *.
  destruct (reads_string _ _ _ Hfmt Hr) as (s & Hw). unfold format_text in Hr. cbn [flat_map item_text] in Hr. rewrite app_nil_r in Hr.
  destruct (format_one_eq snprintf stack (ToGuest dst) n (OutState c no_host) fmt va 0 d [0] args t args' Hr Hp ltac:(simpl; lia) Hdir Ht) as (used & -> & E).
  set (st1 := (emit_text stack (ToGuest dst) n 0 t (OutState c no_host)).1) in *.
  assert (Hst1 : within (ToGuest dst) n (OutState c no_host) st1).
  { unfold st1. destruct (emit_text _ _ _ _ _ _) as [x y] eqn:Ee. by apply emit_within in Ee as [? _]. }
  assert (Hb : forall i, 1024 <= i < blen t -> out_byte (ToGuest dst) st1 i = u8 (stack (Z.to_nat i))).
  { intros i Hi. unfold st1, emit_text. cbn [fst]. rewrite Z.add_0_l, (proj2 (Z.ltb_ge n _)) by lia. rewrite out_byte_put, blen_buf_bytes, Z2Nat.id, Z.add_0_l by lia.
    rewrite (proj2 (Z.leb_le 0 i)), (proj2 (Z.ltb_lt i _)) by lia. cbn [andb]. f_equal. rewrite Z.sub_0_r. unfold buf_bytes.
    set (g := fun j : nat => _). rewrite (nth_indep _ 0 (g 0%nat)) by (rewrite length_map, length_seq; lia). rewrite map_nth, seq_nth by lia. unfold g, BUF.
    rewrite Nat.add_0_l, Z2Nat.id by lia. rewrite Z.min_r by lia. by rewrite (proj2 (Z.ltb_ge _ _)), (proj2 (Z.eqb_neq _ _)) by lia. }
  destruct (Hs st1 Hst1) as [Hr1 _]. unfold format_text in Hr1. cbn [flat_map item_text] in Hr1. rewrite app_nil_r in Hr1.
  assert (Hloop : format_loop snprintf stack (format_fuel c fmt) (ToGuest dst) n (OutState c no_host) fmt va 0 = Some (st1, blen t)).
  { pose proof (reads_last _ _ _ _ Hr1) as R0. pose proof (proj1 (rd_Some _ _ _ R0)) as Hlast. rewrite (within_size _ _ _ _ Hst1) in Hlast.
    pose proof (blen_nonneg (tail (print d))) as Hpl. assert (Hprint : print d = 37 :: tail (print d)) by done.
    assert (Hpb : blen (print d) = blen (tail (print d)) + 1) by (rewrite Hprint at 1; apply blen_cons). cbn [o_exec] in Hlast.
    unfold format_fuel. replace (Z.to_nat (memory_size c - fmt)) with (S (Z.to_nat (memory_size c - fmt - 1))) by lia.
    set (f := Z.to_nat _). clearbody f. cbn [format_loop]. rewrite Hprint in Hr. step (reads_head _ _ _ _ Hr). cbn [Z.eqb Pos.eqb negb].
    rewrite E, Z.add_0_l. cbn [mbind option_bind]. rewrite R0. done. }
  exists (o_exec (put (ToGuest dst) (blen t) [0] st1)). unfold yos_snprintf, yos_vsnprintf, yos_vsnprintf_core.
  rewrite (proj2 (Z.eqb_neq n 0)), (proj2 (Z.eqb_neq dst 0)), (proj2 (Z.ltb_ge (memory_size c) _)) by lia. cbn [orb o_exec]. cbn [o_exec] in Hw.
  rewrite Hw. split.
  - step Hloop. rewrite (proj2 (Z.ltb_lt 0 n)), (proj2 (Z.ltb_lt (blen t) n)), s32_small by lia. done.
  - intros i Hi. rewrite <-Hb by done. change (ld8 _ (dst + i)) with (out_byte (ToGuest dst) (put (ToGuest dst) (blen t) [0] st1) i).
    rewrite out_byte_put, (proj2 (Z.leb_gt (blen t) i)) by lia. done.
Qed.

Lemma scan_full fuel ok c p spec s :
  reads c p s -> Forall (fun ch => ok ch = true) s -> blen spec + blen s + 1 = SPEC_MAX -> (length s < fuel)%nat ->
  scan fuel ok c p spec = Some (spec ++ s, p + blen s).
Proof.
  revert p spec s. induction fuel as [|f IH]; intros p spec s Hr Hs Hl Hf; [lia|]. rewrite scan_step. destruct s as [|ch s].
  - change (blen []) with 0 in *. rewrite (proj2 (Z.leb_le SPEC_MAX _)) by lia. by rewrite app_nil_r, Z.add_0_r.
  - apply Forall_cons in Hs as [Hch Hs]. rewrite blen_cons in *. pose proof (blen_nonneg s). rewrite (proj2 (Z.leb_gt SPEC_MAX _)) by lia.
    step (reads_head _ _ _ _ Hr). rewrite Hch. rewrite (IH (p + 1) (spec ++ [ch]) s);
      [|exact (reads_tail _ _ _ _ Hr)|done|rewrite blen_app; change (blen [ch]) with 1; lia|simpl in Hf; lia].
    rewrite <-app_assoc. do 2 f_equal. lia.
Qed.

Lemma prec_scan_star c q s :
  rd c q = Some DOT -> rd c (q + 1) = Some STAR ->
  scan_prec c q s = Some (s ++ [DOT; STAR], q + 2, true).
Proof.
  intros Hd Hr. unfold scan_prec. rewrite Hd. cbn [mbind option_bind]. rewrite Z.eqb_refl, Hr. cbn [mbind option_bind].
  by rewrite Z.eqb_refl.
Qed.

(** The stars and the dot are stored without looking at the bound: 62 flags
    and a starred width and precision need 66 bytes of the 64-byte array.  Every
    byte read is inside linear memory; the call has no result because the
    specification outgrows the code's own array. *)
Theorem stars_overflow_spec c fmt flags x rest :
  reads c fmt (37 :: flags ++ STAR :: DOT :: STAR :: x :: rest) -> length flags = 62%nat ->
  Forall (fun ch => strchr_hits "-+ #0'" ch = true) flags ->
  parse_head c fmt = None /\ blen (37 :: flags ++ [STAR; DOT; STAR]) = SPEC_MAX + 2.
Proof.
  intros Hr Hl Hf. apply reads_tail in Hr. assert (Hb : blen flags = 62) by (unfold blen; lia).
  pose proof (scan_full SCAN (strchr_hits "-+ #0'") c (fmt + 1) [37] flags (reads_prefix _ _ _ _ Hr) Hf ltac:(rewrite Hb; done) ltac:(unfold SCAN; lia)) as S1.
  apply reads_app in Hr. pose proof (reads_tail _ _ _ _ Hr) as Hr2. pose proof (reads_tail _ _ _ _ Hr2) as Hr3.
  split; [|rewrite blen_cons, blen_app, Hb; done].
  assert (S2 : scan_width c (fmt + 1 + blen flags) ([37] ++ flags) = Some (([37] ++ flags) ++ [STAR], fmt + 1 + blen flags + 1, true))
    by (unfold scan_width; step (reads_head _ _ _ _ Hr); by rewrite Z.eqb_refl).
  pose proof (prec_scan_star c (fmt + 1 + blen flags + 1) (([37] ++ flags) ++ [STAR]) (reads_head _ _ _ _ Hr2) (reads_head _ _ _ _ Hr3)) as S3.
  unfold parse_head. step S1. step S2. step S3.
  by rewrite (proj2 (Z.ltb_lt SPEC_MAX _)) by (rewrite !blen_app, Hb; done).
Qed.

(** * Concrete formats and a concrete host, at which each theorem of PrintfThms applies *)

(** A host that prints every number as 42, padded when a width is given. *)
Definition blanks (n : nat) : bytes := replicate n 32.


Lemma blen_blanks n : blen (blanks n) = Z.of_nat n.
Proof. unfold blen, blanks. by rewrite length_replicate. Qed.

Definition demo_snprintf (spec : bytes) (_ : list host_arg) : option bytes :=
  Some (if bool_decide (spec = lit "%2000d") then blanks (Z.to_nat 2000) else lit "42").
Definition demo_stack (i : nat) : Z := u8 (Z.of_nat i).



(** [n=%ld;] with the argument 7. *)
Definition demo_conv : directive := Directive [] (Digits []) None (lit "l") 100.
Definition demo_items : list item := [Lit 110; Lit 61; Conv demo_conv; Lit 59].
Definition demo_long : directive := Directive [] (Digits (lit "2000")) None [] 100.

Definition demo_call (items : list item) : exec_ctx :=
  ExecCtx (write_bytes (st32 (fun _ => 0) 200 7) 100 (format_text items ++ [0])) 8192 0 0 [] [] 0 0 0 0.


Lemma demo_long_ok : directive_ok demo_long.
Proof.
  split; cbn; [constructor|split; [repeat constructor|by vm_compute]|done|by left|repeat split; by vm_compute|vm_compute; discriminate].
Qed.

(** Nothing below 1000 is disturbed by output at 1000. *)
Lemma demo_stable items args n :
  reads (demo_call items) 100 (format_text items ++ [0]) -> blen (format_text items) < 99 -> args = [A32 7] ->
  stable_inputs (ToGuest 1000) n (OutState (demo_call items) no_host) 100 200 items args.
Proof.
  intros Hr Hl -> st' [He Hm]. cbn [o_exec] in *. assert (Hsz : memory_size (o_exec st') = 8192) by (rewrite He; done). split.
  - intros i ch Hi. specialize (Hr i ch Hi). apply rd_Some in Hr as [Hb Hch]. unfold rd. rewrite Hsz.
    apply lookup_lt_Some in Hi. rewrite length_app in Hi. simpl in Hi. unfold blen in Hl.
    rewrite (proj2 (Z.leb_le 0 _)), (proj2 (Z.ltb_lt _ 8192)) by (simpl in Hb; lia). cbn [andb]. rewrite Hm by lia. by rewrite Hch.
  - cbn [packed]. change (va_align 200 4) with 200. rewrite Hsz. split_and!; [lia| |done].
    rewrite (ld32_agree (mem (demo_call items))); [|intros a Ha; apply Hm; lia].
    rewrite (ld32_agree (st32 (fun _ => 0) 200 7)); [by rewrite ld32_st32|]. intros a Ha. apply write_bytes_other. right.
    rewrite blen_app. change (blen [0]) with 1. lia.
Qed.

Lemma demo_reads items :
  Forall (fun b => 0 <= b < 256) (format_text items ++ [0]) -> blen (format_text items) < 99 -> reads (demo_call items) 100 (format_text items ++ [0]).
Proof.
  intros Hb Hl i ch Hi. pose proof (read_bytes_write (st32 (fun _ => 0) 200 7) 100 _ Hb) as H.
  apply (f_equal (fun s : list Z => s !! i)) in H. rewrite Hi in H. apply lookup_lt_Some in Hi. unfold read_bytes in H. cbv beta in H.
  rewrite list_lookup_fmap, lookup_seqZ_lt in H by (unfold blen; lia). cbn in H. rewrite Z.add_0_l in H. injection H as H.
  unfold rd. rewrite length_app in Hi. simpl in Hi. unfold blen in Hl. cbn [memory_size mem demo_call].
  rewrite (proj2 (Z.leb_le 0 _)), (proj2 (Z.ltb_lt _ 8192)) by lia. cbn [andb]. by rewrite H.
Qed.

Lemma demo_call_reads items : Forall byte_ok (format_text items) -> blen (format_text items) < 99 -> reads (demo_call items) 100 (format_text items ++ [0]).
Proof.
  intros Hb. apply demo_reads. apply Forall_app. split; [|by repeat constructor].
  eapply Forall_impl; [exact Hb|]. unfold byte_ok. lia.
Qed.



Lemma demo_render_long : render_text demo_snprintf demo_long [A32 7] = Some (blanks (Z.to_nat 2000), []).
Proof.
  unfold render_text, render_conv, demo_snprintf. change (host_format demo_long) with (lit "%2000d").
  generalize (blanks (Z.to_nat 2000)). intros b. vm_compute. reflexivity.
Qed.

(** * Witnesses *)


Lemma vsnprintf_bounded_witness :
  exists c' r, yos_vsnprintf demo_snprintf demo_stack (demo_call demo_items) 1000 4 100 200 = Some (c', r) /\
    c' = set_mem (mem c') (demo_call demo_items) /\
    (forall a, a < 1000 \/ 1004 <= a -> ld8 (mem c') a = ld8 (mem (demo_call demo_items)) a).
Proof.
  destruct (vsnprintf_bounded demo_snprintf demo_stack (demo_call demo_items) 1000 4 100 200 ltac:(lia)) as [H1 H2].
  assert (E0 : wstr_check (demo_call demo_items) 100 = Some (lit "n=%ld;")) by (vm_compute; reflexivity).
  destruct H2 as (c' & r & E); [lia|vm_compute; reflexivity| |].
  - intros s Hs. left. rewrite E0 in Hs. injection Hs as <-. vm_compute. reflexivity.
  - exists c', r. destruct (H1 c' r E) as (H3 & H4 & _). exact (conj E (conj H3 H4)).
Defined.

Lemma sprintf_writes_nothing_witness :
  exists c', yos_sprintf demo_snprintf demo_stack (demo_call demo_items) 1000 100 200 = Some (c', 5) /\ c' = demo_call demo_items.
Proof.
  exists (demo_call demo_items). assert (E : yos_sprintf demo_snprintf demo_stack (demo_call demo_items) 1000 100 200 = Some (demo_call demo_items, 5))
    by (vm_compute; reflexivity).
  split; [exact E|]. apply (sprintf_writes_nothing demo_snprintf demo_stack (demo_call demo_items) 1000 100 200 (demo_call demo_items) 5); [lia|done|exact E].
Defined.

(** A format of one percent sign, at the end of 102 bytes. *)
Definition percent_call : exec_ctx := ExecCtx (write_bytes (fun _ => 0) 100 [37; 0]) 102 0 0 [] [] 0 0 0 0.

Lemma trailing_percent_overruns_witness : yos_snprintf demo_snprintf demo_stack percent_call 0 0 100 0 = None.
Proof.
  apply (trailing_percent_overruns demo_snprintf demo_stack percent_call 100 0 []); [lia|constructor| |reflexivity].
  intros [|[|i]] ch; cbn [app lookup list_lookup]; intros H; [injection H as <-..|discriminate]; vm_compute; reflexivity.
Defined.

Lemma snprintf_leaks_stack_witness :
  exists c', yos_snprintf demo_snprintf demo_stack (demo_call [Conv demo_long]) 1000 3000 100 200 = Some (c', 2000) /\
    ld8 (mem c') 2500 = u8 1500.
Proof.
  assert (Hs : stable_inputs (ToGuest 1000) 3000 (OutState (demo_call [Conv demo_long]) no_host) 100 200 [Conv demo_long] [A32 7]).
  { apply demo_stable; [apply demo_call_reads; [vm_compute; repeat constructor|done]|done|done]. }
  pose proof (blen_blanks (Z.to_nat 2000)) as Hl. rewrite Z2Nat.id in Hl by lia.
  destruct (snprintf_leaks_stack demo_snprintf demo_stack (demo_call [Conv demo_long]) 1000 3000 100 200 demo_long [A32 7] _ []
    ltac:(lia) ltac:(cbn; lia) ltac:(lia) demo_long_ok demo_render_long ltac:(rewrite Hl; unfold BUF; lia) ltac:(rewrite Hl; lia) Hs) as (c' & E & H).
  exists c'. rewrite Hl in *. split; [exact E|]. apply (H 1500). unfold BUF. lia.
Defined.

(** 62 times the flag [0], then two stars. *)
Definition flags62 : bytes := replicate 62 48.
Definition star_text : bytes := 37 :: flags62 ++ [STAR; DOT; STAR; 100; 0].
Definition star_call : exec_ctx := ExecCtx (write_bytes (fun _ => 0) 100 star_text) 8192 0 0 [] [] 0 0 0 0.

Lemma stars_overflow_spec_witness : parse_head star_call 100 = None /\ blen (37 :: flags62 ++ [STAR; DOT; STAR]) = SPEC_MAX + 2.
Proof.
  apply (stars_overflow_spec star_call 100 flags62 100 [0]); [|reflexivity|apply Forall_replicate; reflexivity].
  intros i ch Hi. pose proof (lookup_lt_Some _ _ _ Hi) as Hlt. revert Hi Hlt. change (length _) with 68%nat.
  do 68 (destruct i as [|i]; [intros Hi _; vm_compute in Hi; injection Hi as <-; vm_compute; reflexivity|]). intros _ Hlt. lia.
Defined.
