(* ===== verification/Snapshot.v ===== *)
(** The copy of linear memory that fork makes (src/src/yos/impl/proc/proc.c,
    snapshot_wasm_memory and the restore of fork_thread_func): the pages that
    [mincore] reports resident, a table of the runs copied, and the replay of
    that table in the child.

    The page size is the host's [sysconf] answer, [src_addr] the host address
    of linear memory; [vec] is the answer of [malloc] and [mincore] ([None] when
    either failed). *)
From S2P Require Import Prelude Memory.

Record fork_region : Type := ForkRegion { fr_off : Z; fr_len : Z }.

Definition YOS_FORK_MAX_REGIONS : Z := 16384.

(** [memcpy] between two buffers. *)
Definition copy_from (dst src : memory) (off len : Z) : memory :=
  fun b => if (off <=? b) && (b <? off + len) then src b else dst b.

(** The destination, the table, and whether the table was too short. *)
Record snap : Type := Snap { sn_dst : memory; sn_regions : list fork_region; sn_overflow : bool }.

(** One [memcpy] and its entry. *)
Definition copy_run (src : memory) (off len : Z) (k : snap) : snap :=
  let dst := copy_from (sn_dst k) src off len in
  if Z.of_nat (length (sn_regions k)) <? YOS_FORK_MAX_REGIONS
  then Snap dst (sn_regions k ++ [ForkRegion (u32 off) (u32 len)]) (sn_overflow k)
  else Snap dst (sn_regions k) true.

(** [while (i < npages && (vec[i] & 1u)) i++]: the length of the run at the
    head. *)
Fixpoint run_len (vec : list bool) : nat :=
  match vec with true :: v => S (run_len v) | _ => 0 end.

(** The scan of the residency vector, whose rest from page [i] on is [vec]; each
    round consumes at least one page, so [length vec] rounds are enough. *)
Fixpoint copy_pages (fuel : nat) (src : memory) (page head : Z) (vec : list bool) (i : Z) (k : snap) : snap :=
  match fuel, vec with
  | S f, false :: v => copy_pages f src page head v (i + 1) k
  | S f, true :: _ =>
      let n := run_len vec in
      copy_pages f src page head (drop n vec) (i + Z.of_nat n) (copy_run src (head + i * page) (Z.of_nat n * page) k)
  | _, _ => k
  end.

(** The bytes before the first page boundary. *)
Definition head_len (page src_addr size : Z) : Z :=
  let aligned_start := Z.land (src_addr + page - 1) (Z.lnot (page - 1)) in
  let h := if src_addr <? aligned_start then aligned_start - src_addr else 0 in
  if size <? h then size else h.

Definition middle_size (page src_addr size : Z) : Z :=
  Z.land (size - head_len page src_addr size) (Z.lnot (page - 1)).

(** The result is [0] or [-1]; on [-1] the caller forgets the table. *)
Definition snapshot_wasm_memory (page src_addr : Z) (dst src : memory) (size : Z) (vec : option (list bool)) : snap * Z :=
  let head := head_len page src_addr size in
  let k0 := Snap dst [] false in
  let k1 := if 0 <? head then copy_run src 0 head k0 else k0 in
  let middle := middle_size page src_addr size in
  let tail_len := size - head - middle in
  let finish (k : snap) :=
    let k' := if 0 <? tail_len then copy_run src (head + middle) tail_len k else k in
    (k', if sn_overflow k' then -1 else 0) in
  if 0 <? middle then
    match vec with
    | None => (k1, -1)
    | Some v => finish (copy_pages (length v) src page head v 0 k1)
    end
  else finish k1.

(** The table a failed snapshot leaves. *)
Definition live_regions (r : snap * Z) : list fork_region := if r.2 <? 0 then [] else sn_regions r.1.

(** The child's side: every recorded run, or the whole snapshot when there is
    none.  [fresh] is the memory of the newly loaded module, [mem_size] its
    size. *)
Definition restore_memory (fresh snapshot : memory) (mem_size memory_size : Z) (regions : list fork_region) : memory :=
  if memory_size <=? mem_size then
    if (0 <? length regions)%nat then
      foldl (fun m r => if memory_size <? u32 (fr_off r + fr_len r) then m else copy_from m snapshot (fr_off r) (fr_len r)) fresh regions
    else copy_from fresh snapshot 0 memory_size
  else fresh.

(** * Properties *)

(** The snapshot of fork: which bytes reach the child, on every path of the
    copy, and the paths on which parts of the memory are lost. *)

(** The bytes of a table. *)
Definition covered (rs : list fork_region) (b : Z) : Prop := exists r, r ∈ rs /\ fr_off r <= b < fr_off r + fr_len r.

Definition between (lo hi b : Z) : bool := (lo <=? b) && (b <? hi).

Lemma between_true lo hi b : between lo hi b = true <-> lo <= b < hi.
Proof. unfold between. rewrite andb_true_iff, Z.leb_le, Z.ltb_lt. lia. Qed.

Lemma between_false lo hi b : between lo hi b = false <-> b < lo \/ hi <= b.
Proof. rewrite <-not_true_iff_false, between_true. lia. Qed.

(** The copied bytes are those of [P], and the table lists them unless it
    overflowed. *)
Record tracks (base src : memory) (size : Z) (P : Z -> bool) (k : snap) : Prop := Tracks {
  tr_dst : forall b, sn_dst k b = if P b then src b else base b;
  tr_table : sn_overflow k = false -> forall b, covered (sn_regions k) b <-> P b = true;
  tr_bounds : Forall (fun r => 0 <= fr_off r /\ 0 < fr_len r /\ fr_off r + fr_len r <= size) (sn_regions k)
}.

Lemma tracks_ext base src size P Q k : (forall b, P b = Q b) -> tracks base src size P k -> tracks base src size Q k.
Proof.
  intros E [D T B]. split; [|intros Ho b; by rewrite <-E, T|done]. intros b. by rewrite <-E.
Qed.

Section Snapshot.
Variables (base src : memory) (size : Z).
Hypothesis Hsize : 0 <= size < 4294967296.

Lemma tracks_nil : tracks base src size (fun _ => false) (Snap base [] false).
Proof. split; [done| |done]. intros _ b. split; [|done]. intros (r & Hr & _). by apply elem_of_nil in Hr. Qed.

Lemma tracks_run P off len k :
  tracks base src size P k -> 0 <= off -> 0 < len -> off + len <= size ->
  tracks base src size (fun b => P b || between off (off + len) b) (copy_run src off len k).
Proof.
  intros [D T B] Ho Hl Hs. unfold copy_run. destruct (Z.ltb_spec (Z.of_nat (length (sn_regions k))) YOS_FORK_MAX_REGIONS).
  - split; cbn [sn_dst sn_regions sn_overflow].
    + intros b. unfold copy_from. fold (between off (off + len) b). rewrite D.
      destruct (between off (off + len) b), (P b); done.
    + intros Hov b. rewrite orb_true_iff, between_true, <-T by done. rewrite !u32_small by lia. split.
      * intros (r & [Hr|Hr]%elem_of_app & Hb); [left; by exists r|]. apply list_elem_of_singleton in Hr as ->. by right.
      * intros [(r & Hr & Hb)|Hb]; [exists r; split; [apply elem_of_app; by left|done]|].
        exists (ForkRegion off len). split; [apply elem_of_app; right; by apply list_elem_of_singleton|done].
    + apply Forall_app. split; [done|]. apply Forall_singleton. cbn [fr_off fr_len]. rewrite !u32_small by lia. lia.
  - split; cbn [sn_dst sn_regions sn_overflow]; [|done|done].
    intros b. unfold copy_from. fold (between off (off + len) b). rewrite D. destruct (between off (off + len) b), (P b); done.
Qed.

(** * The pages *)

Definition page_bit (page head i : Z) (vec : list bool) (b : Z) : bool :=
  between (head + i * page) (head + (i + Z.of_nat (length vec)) * page) b && nth (Z.to_nat ((b - head) / page - i)) vec false.

Lemma page_index page head i b : 0 < page -> (b - head) / page = i <-> head + i * page <= b < head + (i + 1) * page.
Proof.
  intros Hp. split.
  - intros <-. pose proof (Z.div_mod (b - head) page ltac:(lia)). pose proof (Z.mod_pos_bound (b - head) page ltac:(lia)). nia.
  - intros Hb. symmetry. apply (Z.div_unique_pos _ _ _ (b - head - i * page)); [nia|lia].
Qed.

Lemma page_bit_nil page head i b : page_bit page head i [] b = false.
Proof. unfold page_bit. cbn [nth]. destruct (Z.to_nat _); apply andb_false_r. Qed.

(** The run at the head, then the rest. *)
Lemma run_len_spec vec : (run_len vec <= length vec)%nat /\ forall j, (j < run_len vec)%nat -> nth j vec false = true.
Proof.
  induction vec as [|[] v [IH1 IH2]]; simpl; [split; [lia|intros; lia]| |split; [lia|intros; lia]].
  split; [lia|]. intros [|j] Hj; [done|]. apply IH2. lia.
Qed.

Lemma page_bit_split page head i vec n b :
  0 < page -> 0 <= i -> (n <= length vec)%nat ->
  page_bit page head i vec b =
    (between (head + i * page) (head + (i + Z.of_nat n) * page) b && nth (Z.to_nat ((b - head) / page - i)) vec false)
    || page_bit page head (i + Z.of_nat n) (drop n vec) b.
Proof.
  intros Hp Hi Hn. unfold page_bit. rewrite length_drop. set (q := (b - head) / page).
  pose proof (proj1 (page_index page head q b Hp) eq_refl) as Hq. clearbody q.
  destruct (between (head + i * page) (head + (i + Z.of_nat n) * page) b) eqn:E1.
  - apply between_true in E1. assert (q < i + Z.of_nat n) by nia.
    replace (between (head + i * page) (head + (i + Z.of_nat (length vec)) * page) b) with true by (symmetry; apply between_true; nia).
    replace (between (head + (i + Z.of_nat n) * page) _ b) with false by (symmetry; apply between_false; nia).
    cbn [andb]. by rewrite orb_false_r.
  - cbn [andb orb]. apply between_false in E1. destruct (Z.lt_ge_cases b (head + i * page)) as [Hb|Hb].
    + replace (between (head + i * page) _ b) with false by (symmetry; apply between_false; lia).
      by replace (between (head + (i + Z.of_nat n) * page) _ b) with false by (symmetry; apply between_false; nia).
    + destruct E1 as [E1|E1]; [lia|].
      assert (Hbt : forall lo hi, lo <= b -> between lo hi b = (b <? hi)) by (intros lo hi Hlo; unfold between; by rewrite (proj2 (Z.leb_le lo b))).
      rewrite !Hbt by lia. replace (i + Z.of_nat n + Z.of_nat (length vec - n)) with (i + Z.of_nat (length vec)) by lia. f_equal.
      rewrite !nth_lookup, lookup_drop. assert (i + Z.of_nat n <= q) by nia. do 2 f_equal. lia.
Qed.

Lemma copy_pages_spec page head fuel : forall vec i P k,
  0 < page -> 0 <= head -> (length vec <= fuel)%nat -> 0 <= i -> head + (i + Z.of_nat (length vec)) * page <= size ->
  tracks base src size P k ->
  tracks base src size (fun b => P b || page_bit page head i vec b) (copy_pages fuel src page head vec i k).
Proof.
  induction fuel as [|f IH]; intros vec i P k Hp Hh Hf Hi Hs Ht; destruct vec as [|[] v]; cbn [length] in *; try lia; cbn [copy_pages].
  - eapply tracks_ext; [|exact Ht]. intros b. by rewrite page_bit_nil, orb_false_r.
  - eapply tracks_ext; [|exact Ht]. intros b. by rewrite page_bit_nil, orb_false_r.
  - destruct (run_len_spec (true :: v)) as [Hle Hrun]. set (n := run_len (true :: v)) in *.
    assert (Hn : (1 <= n)%nat) by (unfold n; cbn [run_len]; lia). cbn [length] in Hle.
    eapply tracks_ext; [|apply IH; [done|done|rewrite length_drop; cbn [length]; lia|lia|rewrite length_drop; cbn [length]; nia|]].
    2:{ apply tracks_run; [exact Ht|nia|nia|nia]. }
    intros b. cbn beta. rewrite <-orb_assoc. f_equal. rewrite (page_bit_split page head i (true :: v) n) by (cbn [length]; lia).
    f_equal. replace (head + i * page + Z.of_nat n * page) with (head + (i + Z.of_nat n) * page) by lia.
    destruct (between (head + i * page) _ b) eqn:Eb; [|done]. apply between_true in Eb. cbn [andb].
    symmetry. apply Hrun. pose proof (proj1 (page_index page head _ b Hp) eq_refl). nia.
  - eapply tracks_ext; [|apply (IH v (i + 1) P); [done|done|lia|lia|lia|exact Ht]].
    intros b. cbn beta. f_equal. rewrite (page_bit_split page head i (false :: v) 1) by (cbn [length]; lia). cbn [drop].
    change (Z.of_nat 1) with 1. destruct (between (head + i * page) (head + (i + 1) * page) b) eqn:Eb; [|done].
    apply between_true in Eb. rewrite (proj2 (page_index page head i b Hp) Eb), Z.sub_diag. done.
Qed.
End Snapshot.

(** * The whole snapshot *)

Section Whole.
Variables (k src_addr size : Z) (base src : memory).
Let page : Z := 2 ^ k.
Hypotheses (Hk : 0 <= k) (Haddr : 0 <= src_addr) (Hsize : 0 <= size < 4294967296).

Lemma page_pos : 0 < page.
Proof. apply Z.pow_pos_nonneg; lia. Qed.

Lemma head_len_range : 0 <= head_len page src_addr size <= size.
Proof.
  unfold head_len. destruct (Z.ltb_spec src_addr (Z.land (src_addr + page - 1) (Z.lnot (page - 1))));
    [destruct (Z.ltb_spec size (Z.land (src_addr + page - 1) (Z.lnot (page - 1)) - src_addr)); lia|].
  destruct (Z.ltb_spec size 0); lia.
Qed.

Lemma middle_size_range :
  0 <= middle_size page src_addr size <= size - head_len page src_addr size /\ middle_size page src_addr size mod page = 0.
Proof.
  pose proof head_len_range as Hh. pose proof page_pos as Hp. unfold middle_size.
  set (x := size - _). rewrite (land_lnot_pow2 x k Hk : Z.land x (Z.lnot (page - 1)) = x - x mod page). assert (0 <= x) by (unfold x; lia). pose proof (Z.mod_pos_bound x page Hp). pose proof (Z.mod_le x page ltac:(lia) Hp).
  split; [lia|]. replace (x - x mod page) with (x / page * page) by (rewrite Z.mod_eq by lia; lia). apply Z.mod_mul. lia.
Qed.

(** The bytes that a snapshot with the vector [v] copies. *)
Definition in_snapshot (v : list bool) (b : Z) : bool :=
  let head := head_len page src_addr size in
  let middle := middle_size page src_addr size in
  between 0 head b || page_bit page head 0 v b || between (head + middle) size b.

Definition npages : Z := middle_size page src_addr size / page.

Lemma npages_spec : npages * page = middle_size page src_addr size.
Proof. unfold npages. pose proof page_pos. destruct middle_size_range as [_ Hm]. apply Z.div_exact in Hm; lia. Qed.

Lemma snapshot_head : tracks base src size (between 0 (head_len page src_addr size))
  (if 0 <? head_len page src_addr size then copy_run src 0 (head_len page src_addr size) (Snap base [] false) else Snap base [] false).
Proof.
  pose proof head_len_range as Hh. destruct (Z.ltb_spec 0 (head_len page src_addr size)) as [H|H].
  - eapply tracks_ext; [|apply (tracks_run base src size Hsize (fun _ => false)); [apply tracks_nil|lia..]]. done.
  - eapply tracks_ext; [|apply tracks_nil]. intros b. symmetry. apply between_false. lia.
Qed.

Lemma snapshot_spec v :
  Z.of_nat (length v) = npages ->
  tracks base src size (in_snapshot v) (snapshot_wasm_memory page src_addr base src size (Some v)).1 /\
  (snapshot_wasm_memory page src_addr base src size (Some v)).2 =
    if sn_overflow (snapshot_wasm_memory page src_addr base src size (Some v)).1 then -1 else 0.
Proof.
  intros Hv. pose proof head_len_range as Hh. destruct middle_size_range as [Hm _]. pose proof page_pos as Hp. pose proof npages_spec as Hn.
  pose proof snapshot_head as T1. unfold snapshot_wasm_memory. set (head := head_len _ _ _) in *. set (middle := middle_size _ _ _) in *.
  set (k1 := if 0 <? head then _ else _) in *. assert (Hv0 : (middle = 0 -> v = [])) by (intros E; destruct v; [done|cbn [length] in Hv; nia]).
  set (k2 := if 0 <? middle then copy_pages (length v) src page head v 0 k1 else k1).
  assert (T2 : tracks base src size (fun b => between 0 head b || page_bit page head 0 v b) k2).
  { unfold k2. destruct (Z.ltb_spec 0 middle) as [Hlt|Hge].
    - apply copy_pages_spec; [done|done|lia|lia|lia|nia|exact T1].
    - eapply tracks_ext; [|exact T1]. intros b. rewrite Hv0 by lia. by rewrite page_bit_nil, orb_false_r. }
  set (k3 := if 0 <? size - head - middle then copy_run src (head + middle) (size - head - middle) k2 else k2).
  assert (T3 : tracks base src size (in_snapshot v) k3).
  { unfold k3. destruct (Z.ltb_spec 0 (size - head - middle)) as [Hlt|Hge].
    - eapply tracks_ext; [|apply (tracks_run base src size Hsize _ _ _ k2 T2); lia]. intros b. unfold in_snapshot. cbn beta. fold head middle.
      do 2 f_equal. lia.
    - eapply tracks_ext; [|exact T2]. intros b. unfold in_snapshot. cbn beta. fold head middle.
      replace (between (head + middle) size b) with false by (symmetry; apply between_false; lia). by rewrite orb_false_r. }
  unfold k3, k2 in *. destruct (0 <? middle); cbn [fst snd]; split; (exact T3 || done).
Qed.
End Whole.

(** * The restored memory *)

Definition in_table (rs : list fork_region) (b : Z) : bool := existsb (fun r => between (fr_off r) (fr_off r + fr_len r) b) rs.

Lemma in_table_spec rs b : in_table rs b = true <-> covered rs b.
Proof.
  unfold in_table, covered. rewrite existsb_exists. split; intros (r & Hr & Hb); exists r.
  - split; [by apply list_elem_of_In|by apply between_true].
  - split; [by apply list_elem_of_In|by apply between_true].
Qed.

Lemma replay_spec size snapshot rs : forall fresh b,
  0 <= size < 4294967296 ->
  Forall (fun r => 0 <= fr_off r /\ 0 < fr_len r /\ fr_off r + fr_len r <= size) rs ->
  foldl (fun m r => if size <? u32 (fr_off r + fr_len r) then m else copy_from m snapshot (fr_off r) (fr_len r)) fresh rs b =
    if in_table rs b then snapshot b else fresh b.
Proof.
  induction rs as [|r rs IH]; intros fresh b Hs Hr; [done|]. apply Forall_cons in Hr as [Hr Hrs]. cbn [foldl].
  rewrite u32_small, (proj2 (Z.ltb_ge size _)) by lia. rewrite IH by done. unfold in_table. cbn [existsb].
  fold (in_table rs b). unfold copy_from, between. destruct (in_table rs b), ((fr_off r <=? b) && _); done.
Qed.

Section Restore.
Variables (k src_addr size : Z) (src fresh : memory) (v : list bool).
Let page : Z := 2 ^ k.
Hypotheses (Hk : 0 <= k) (Haddr : 0 <= src_addr) (Hsize : 0 <= size < 4294967296) (Hv : Z.of_nat (length v) = npages k src_addr size).

(** The snapshot goes to fresh pages, which read as zero. *)
Definition zero_pages : memory := fun _ => 0.
Definition taken : snap * Z := snapshot_wasm_memory page src_addr zero_pages src size (Some v).

Lemma taken_live b : sn_dst taken.1 b = if in_snapshot k src_addr size v b then src b else 0.
Proof. destruct (snapshot_spec k src_addr size zero_pages src Hk Hsize v Hv) as [[D _ _] _]. apply D. Qed.

(** The child's byte, when the residency vector is there: the parent's in the
    copied part; elsewhere zero, or what the loader of the child's module put
    there. *)
Lemma restored_byte mem_size b :
  0 <= b < size -> size <= mem_size ->
  restore_memory fresh (sn_dst taken.1) mem_size size (live_regions taken) b =
            if in_snapshot k src_addr size v b then src b
            else if (0 <? length (live_regions taken))%nat then fresh b else 0.
Proof.
  intros Hb Hms. unfold restore_memory. rewrite (proj2 (Z.leb_le size mem_size)) by lia.
  destruct (snapshot_spec k src_addr size zero_pages src Hk Hsize v Hv) as [[D T B] R]. fold page taken in D, T, B, R.
  destruct (Nat.ltb_spec 0 (length (live_regions taken))) as [Hl|Hl].
  - unfold live_regions in *. rewrite R in *. destruct (sn_overflow taken.1) eqn:Ho; cbn [Z.ltb Z.compare length] in *; [lia|].
    rewrite replay_spec by done. rewrite D. destruct (in_table (sn_regions taken.1) b) eqn:E.
    + apply in_table_spec in E. apply T in E; [|done]. by rewrite E.
    + destruct (in_snapshot k src_addr size v b) eqn:E2; [|done]. rewrite <-(T eq_refl b) in E2. apply in_table_spec in E2. congruence.
  - unfold copy_from. rewrite (proj2 (Z.leb_le 0 b)), (proj2 (Z.ltb_lt b (0 + size))) by lia. cbn [andb]. apply taken_live.
Qed.

Lemma restored_quiet mem_size b :
  (forall b, 0 <= b < size -> in_snapshot k src_addr size v b = false -> src b = 0 /\ fresh b = 0) ->
  0 <= b < size -> size <= mem_size -> restore_memory fresh (sn_dst taken.1) mem_size size (live_regions taken) b = src b.
Proof.
  intros Hq Hb Hms. rewrite restored_byte by done. destruct (in_snapshot k src_addr size v b) eqn:E; [done|].
  destruct (Hq b Hb E) as [-> ->]. by destruct (0 <? _)%nat.
Qed.
End Restore.

Lemma snapshot_none_table page src_addr src size :
  0 < middle_size page src_addr size ->
  live_regions (snapshot_wasm_memory page src_addr zero_pages src size None) = [].
Proof. intros Hm. unfold snapshot_wasm_memory. by rewrite (proj2 (Z.ltb_lt _ _) Hm). Qed.

(** Without a vector: the bytes before the first page boundary, then zero. *)
Lemma restored_none k src_addr size src fresh mem_size b :
  0 <= k -> 0 <= size < 4294967296 -> size <= mem_size -> 0 < middle_size (2 ^ k) src_addr size ->
  let r := snapshot_wasm_memory (2 ^ k) src_addr zero_pages src size None in
  0 <= b < size -> restore_memory fresh (sn_dst r.1) mem_size size (live_regions r) b =
    if b <? head_len (2 ^ k) src_addr size then src b else 0.
Proof.
  intros Hk Hs Hms Hm r Hb. unfold r. rewrite snapshot_none_table by done. unfold restore_memory. cbn [length Nat.ltb Nat.leb].
  destruct (snapshot_head k src_addr size zero_pages src Hk Hs) as [D _ _].
  rewrite (proj2 (Z.leb_le size mem_size)) by lia. unfold copy_from. rewrite (proj2 (Z.leb_le 0 b)), (proj2 (Z.ltb_lt b (0 + size))) by lia. cbn [andb].
  unfold snapshot_wasm_memory. rewrite (proj2 (Z.ltb_lt _ _) Hm). cbn [fst]. rewrite D.
  unfold between. by rewrite (proj2 (Z.leb_le 0 b)) by lia.
Qed.

(** What the child of a fork reads at [b]: the parent's byte when it lies in a
    resident page, or before the first page boundary or behind the last one.
    Elsewhere zero when no table is replayed (it overflowed, or is empty), else
    what the loader put there; without a residency vector, zero. *)
Definition child_byte (k src_addr size : Z) (vec : option (list bool)) (table : bool) (src fresh : memory) (b : Z) : Z :=
  match vec with
  | Some v => if in_snapshot k src_addr size v b then src b else if table then fresh b else 0
  | None => if (b <? head_len (2 ^ k) src_addr size) || (middle_size (2 ^ k) src_addr size =? 0) then src b else 0
  end.

Lemma restored_any k src_addr size src fresh vec mem_size b :
  0 <= k -> 0 <= size < 4294967296 -> size <= mem_size ->
  (forall v, vec = Some v -> Z.of_nat (length v) = npages k src_addr size) ->
  let r := snapshot_wasm_memory (2 ^ k) src_addr zero_pages src size vec in
  0 <= b < size -> restore_memory fresh (sn_dst r.1) mem_size size (live_regions r) b =
    child_byte k src_addr size vec (0 <? length (live_regions r))%nat src fresh b.
Proof.
  intros Hk Hs Hms Hv r Hb. destruct vec as [v|].
  - exact (restored_byte k src_addr size src fresh v Hk Hs (Hv v eq_refl) mem_size b Hb Hms).
  - destruct (middle_size_range k src_addr size Hk Hs) as [Hm _]. cbn [child_byte].
    destruct (Z.eqb_spec (middle_size (2 ^ k) src_addr size) 0) as [H0|Hne].
    + rewrite orb_true_r. assert (Hn : npages k src_addr size = 0) by (unfold npages; by rewrite H0).
      assert (Hr : r = taken k src_addr size src []).
      { unfold r, taken, snapshot_wasm_memory. by rewrite H0. }
      rewrite Hr, (restored_byte k src_addr size src fresh [] Hk Hs (eq_sym Hn) mem_size b Hb Hms).
      assert (Hin : in_snapshot k src_addr size [] b = true); [|by rewrite Hin].
      unfold in_snapshot. rewrite page_bit_nil, H0, orb_false_r, orb_true_iff, !between_true. lia.
    + rewrite orb_false_r. apply restored_none; try done. lia.
Qed.

(** The table depends on the residency vector alone. *)
Definition same_table (k k' : snap) : Prop := sn_regions k = sn_regions k' /\ sn_overflow k = sn_overflow k'.

Lemma copy_run_table src src' off len k k' : same_table k k' -> same_table (copy_run src off len k) (copy_run src' off len k').
Proof. intros [R O]. unfold copy_run. rewrite R, O. by destruct (_ <? _). Qed.

Lemma copy_pages_table src src' page head fuel : forall vec i k k',
  same_table k k' -> same_table (copy_pages fuel src page head vec i k) (copy_pages fuel src' page head vec i k').
Proof.
  induction fuel as [|f IH]; intros [|[] v] i k k' H; cbn [copy_pages]; try done; apply IH; [by apply copy_run_table|done].
Qed.

Lemma live_regions_src page src_addr base src src' size vec :
  live_regions (snapshot_wasm_memory page src_addr base src size vec) = live_regions (snapshot_wasm_memory page src_addr base src' size vec).
Proof.
  unfold snapshot_wasm_memory, live_regions. set (head := head_len _ _ _). set (middle := middle_size _ _ _).
  set (k1 := if 0 <? head then copy_run src 0 head _ else _). set (k1' := if 0 <? head then copy_run src' 0 head _ else _).
  assert (H1 : same_table k1 k1') by (unfold k1, k1'; destruct (0 <? head); [by apply copy_run_table|done]).
  assert (Hf : forall k k', same_table k k' ->
    let f s m := if 0 <? size - head - middle then copy_run s (head + middle) (size - head - middle) m else m in same_table (f src k) (f src' k')).
  { intros k k' H. cbn zeta. destruct (0 <? size - head - middle); [by apply copy_run_table|done]. }
  destruct (0 <? middle); [destruct vec as [v|]; [|done]|]; cbn [fst snd];
    [destruct (Hf _ _ (copy_pages_table src src' page head (length v) v 0 k1 k1' H1)) as [-> ->]|destruct (Hf _ _ H1) as [-> ->]]; done.
Qed.

(** * Properties *)

(** C9: If every page that is not resident reads as zero in the parent, and was
    not initialised by the loader of the child's module, the child's memory is
    the parent's, byte for byte: whatever the page size, the alignment of linear
    memory and the residency pattern, and also when the table of runs
    overflows. *)
Theorem fork_memory_roundtrip k src_addr size src fresh v :
  0 <= k -> 0 <= src_addr -> 0 <= size < 4294967296 -> Z.of_nat (length v) = npages k src_addr size ->
  (forall b, 0 <= b < size -> in_snapshot k src_addr size v b = false -> src b = 0 /\ fresh b = 0) ->
  let r := snapshot_wasm_memory (2 ^ k) src_addr zero_pages src size (Some v) in
  forall b, 0 <= b < size -> restore_memory fresh (sn_dst r.1) size size (live_regions r) b = src b.
Proof.
  intros Hk Ha Hs Hv Hquiet r b Hb. exact (restored_quiet k src_addr size src fresh v Hk Hs Hv size b Hquiet Hb (Z.le_refl size)).
Qed.

(** Residency decides alone: whatever the parent wrote to a page that is not
    resident when it forks, one that was swapped out for instance, the child
    never sees it. *)
Theorem fork_drops_evicted_pages k src_addr size src src' fresh v :
  0 <= k -> 0 <= src_addr -> 0 <= size < 4294967296 -> Z.of_nat (length v) = npages k src_addr size ->
  (forall b, in_snapshot k src_addr size v b = true -> src b = src' b) ->
  let r := snapshot_wasm_memory (2 ^ k) src_addr zero_pages src size (Some v) in
  let r' := snapshot_wasm_memory (2 ^ k) src_addr zero_pages src' size (Some v) in
  forall b, 0 <= b < size ->
    restore_memory fresh (sn_dst r.1) size size (live_regions r) b = restore_memory fresh (sn_dst r'.1) size size (live_regions r') b.
Proof.
  intros Hk Ha Hs Hv Heq r r' b Hb. pose proof (restored_byte k src_addr size src fresh v Hk Hs Hv size b Hb (Z.le_refl size)) as E1.
  pose proof (restored_byte k src_addr size src' fresh v Hk Hs Hv size b Hb (Z.le_refl size)) as E2. unfold taken in E1, E2. fold r in E1. fold r' in E2.
  rewrite E1, E2. replace (live_regions r') with (live_regions r) by apply live_regions_src. destruct (in_snapshot k src_addr size v b) eqn:E; [|done]. by apply Heq.
Qed.

(** When [mincore] or the allocation of its vector fails, the child is given
    the whole snapshot, of which only the bytes before the first page boundary
    were taken: everything behind them is zero in the child. *)
Theorem mincore_failure_zeroes k src_addr size src fresh b :
  0 <= k -> 0 <= src_addr -> 0 <= size < 4294967296 -> 0 < middle_size (2 ^ k) src_addr size ->
  let r := snapshot_wasm_memory (2 ^ k) src_addr zero_pages src size None in
  head_len (2 ^ k) src_addr size <= b < size -> restore_memory fresh (sn_dst r.1) size size (live_regions r) b = 0.
Proof.
  intros Hk Ha Hs Hm r Hb. pose proof (head_len_range k src_addr size Hs) as Hh.
  unfold r. rewrite restored_none by (done || lia). by rewrite (proj2 (Z.ltb_ge _ _)) by lia.
Qed.

(** * Witnesses *)

(** Pages of 16 bytes, memory of 100 bytes at address 8: a head of 8, five pages
    of which the first and fourth are resident, and a tail of 12. *)
Definition demo_pages : list bool := [true; false; false; true; false].
Definition demo_parent : memory := fun b => if in_snapshot 4 8 100 demo_pages b then b + 1 else 0.

Lemma fork_memory_roundtrip_witness :
  let r := snapshot_wasm_memory 16 8 zero_pages demo_parent 100 (Some demo_pages) in
  sn_regions r.1 = [ForkRegion 0 8; ForkRegion 8 16; ForkRegion 56 16; ForkRegion 88 12] /\
  forall b, 0 <= b < 100 -> restore_memory zero_pages (sn_dst r.1) 100 100 (live_regions r) b = demo_parent b.
Proof.
  intros r. split; [vm_compute; reflexivity|]. apply (fork_memory_roundtrip 4 8 100 demo_parent zero_pages demo_pages); try lia; [reflexivity|].
  intros b _ Hl. unfold demo_parent. by rewrite Hl.
Defined.

(** A byte of the second page, which is not resident. *)
Lemma fork_drops_evicted_pages_witness :
  let parent' := fun b => if b =? 30 then 99 else demo_parent b in
  let r := snapshot_wasm_memory 16 8 zero_pages parent' 100 (Some demo_pages) in
  parent' 30 = 99 /\ restore_memory zero_pages (sn_dst r.1) 100 100 (live_regions r) 30 = 0.
Proof.
  intros parent' r. split; [reflexivity|]. unfold r.
  rewrite (fork_drops_evicted_pages 4 8 100 parent' demo_parent zero_pages demo_pages ltac:(lia) ltac:(lia) ltac:(lia) eq_refl); [vm_compute; reflexivity| |lia].
  intros b Hb. unfold parent'. destruct (Z.eqb_spec b 30) as [->|]; [|done]. vm_compute in Hb. discriminate.
Defined.

Lemma mincore_failure_zeroes_witness :
  let r := snapshot_wasm_memory 16 8 zero_pages demo_parent 100 None in
  demo_parent 60 = 61 /\ restore_memory zero_pages (sn_dst r.1) 100 100 (live_regions r) 60 = 0.
Proof.
  intros r. split; [vm_compute; reflexivity|].
  apply (mincore_failure_zeroes 4 8 100 demo_parent zero_pages 60); try lia; [reflexivity|vm_compute; split; [discriminate|reflexivity]].
Defined.
