(* ===== verification/Fork.v ===== *)
(** Fork (src/src/yos/impl/proc/proc.c): the guest call that unwinds, the pump
    that copies the parent and starts a thread, that thread up to the guest's
    first instruction, and the guest call again, rewinding.

    The Asyncify functions that the build weaves into a guest, and the wasm3
    runtime they run in, are the operations of [Asyncify]; what [mmap],
    [malloc], [fcntl], [fdopen], [pthread_create] and the module loader answer
    are arguments.  Every host resource a step takes or gives back is logged.
    The child thread is the index of a new context.

    The names in the process table (comm, exe, cwd), the trace labels and the
    overflow message on stderr are left out. *)
From S2P Require Import Prelude Memory Ctx CString Runtime ProcTable FdTable Env Snapshot.

Definition ASYNCIFY_NORMAL : Z := 0.
Definition ASYNCIFY_UNWINDING : Z := 1.
Definition ASYNCIFY_REWINDING : Z := 2.
Definition ASYNCIFY_BUF_SIZE : Z := 16384.

(** A guest instance: [get_asyncify_state] is -1 when the module does not export
    the functions; its globals include those of Asyncify. *)
Class Asyncify (guest : Type) : Type := {
  get_asyncify_state : guest -> Z;
  asyncify_start_unwind : Z -> guest -> guest;
  asyncify_stop_unwind : guest -> guest;
  asyncify_start_rewind : Z -> guest -> guest;
  asyncify_stop_rewind : guest -> guest;
  wasm_globals : guest -> list Z;
  restore_globals : list Z -> guest -> guest
}.

(** What a child gets from its parent unchanged. *)
Record inherited : Type := Inherited {
  i_argv : list bytes; i_envp : option (list bytes); i_cwd : bytes; i_locale_name : bytes;
  i_env_store : list env_entry; i_env_initialised : bool; i_umask : Z; i_sj_discard_ptr : Z;
  i_forkpty_pending : bool; i_forkpty_master_wfd : Z; i_forkpty_slave_wfd : Z
}.

(** The rest of [struct yos_exec_ctx], one for each context of the runtime. *)
Record fork_ext (guest : Type) : Type := ForkExt {
  x_guest : option guest; asyncify_ptr : Z; fork_pending : bool; fork_return : Z;
  file_wfds : list Z; file_modes : list bytes; x_inherited : inherited
}.
Arguments ForkExt {guest} _ _ _ _ _ _ _.
Arguments x_guest {guest} _.
Arguments asyncify_ptr {guest} _.
Arguments fork_pending {guest} _.
Arguments fork_return {guest} _.
Arguments file_wfds {guest} _.
Arguments file_modes {guest} _.
Arguments x_inherited {guest} _.

Inductive resource : Type :=
| Snapshot_pages | Thread_arg | Globals_copy | Bytes_copy | Child_env | Child_runtime | Child_ctx
| Dup_fd (hfd : Z) | Dup_stream (fp : Z).
Inductive host_op : Type := Acquire (r : resource) | Release (r : resource).

#[export] Instance resource_eq_dec : EqDecision resource.
Proof. solve_decision. Defined.

(** [fork_thread_arg_t]; [fa_bookmarks]: heap_end, mmap_top, free_list and the
    bounds and head of the heap, with nothing else set. *)
Record fork_arg : Type := ForkArg {
  fa_proc : nat; fa_snapshot : memory; fa_memory_size : Z; fa_regions : list fork_region;
  fa_asyncify_ptr : Z; fa_globals : list Z; fa_bookmarks : exec_ctx;
  fa_fd_map : list Z; fa_dup_fps : list Z; fa_dup_wfds : list Z; fa_file_modes : list bytes;
  fa_sig_handlers : list Z; fa_sig_ignore_mask : Z; fa_sig_mask : Z; fa_sig_pending : Z;
  fa_inherited : inherited
}.

(** The answers of the host to one round of the pump. *)
Record pump_answers : Type := PumpAnswers {
  pa_mmap : bool; pa_arg : bool; pa_vec : option (list bool); pa_globals : bool; pa_bytes : bool;
  pa_getfd : Z -> Z; pa_dup : nat -> Z -> Z -> Z;
  pa_fileno : Z -> Z; pa_dup_file : nat -> Z -> Z -> Z; pa_fdopen : nat -> Z -> bytes -> Z;
  pa_create : Z
}.

Section Fork.
Context {guest : Type} `{!Asyncify guest}.

(** The runtime, the extra state of its contexts, the log of host resources, and
    the arguments of the threads that were started. *)
Record fork_world : Type := FW {
  w_rt : yos_runtime; w_ext : list (fork_ext guest); w_ops : list host_op; w_spawned : list fork_arg
}.

Definition set_x_guest (g : guest) (x : fork_ext guest) : fork_ext guest :=
  ForkExt (Some g) (asyncify_ptr x) (fork_pending x) (fork_return x) (file_wfds x) (file_modes x) (x_inherited x).
Definition set_asyncify_ptr (v : Z) (x : fork_ext guest) : fork_ext guest :=
  ForkExt (x_guest x) v (fork_pending x) (fork_return x) (file_wfds x) (file_modes x) (x_inherited x).
Definition set_fork_pending (v : bool) (x : fork_ext guest) : fork_ext guest :=
  ForkExt (x_guest x) (asyncify_ptr x) v (fork_return x) (file_wfds x) (file_modes x) (x_inherited x).
Definition set_fork_return (v : Z) (x : fork_ext guest) : fork_ext guest :=
  ForkExt (x_guest x) (asyncify_ptr x) (fork_pending x) v (file_wfds x) (file_modes x) (x_inherited x).

Definition upd_ext (ci : nat) (f : fork_ext guest -> fork_ext guest) (w : fork_world) : fork_world :=
  FW (w_rt w) (alter f ci (w_ext w)) (w_ops w) (w_spawned w).
Definition upd_rt (f : yos_runtime -> yos_runtime) (w : fork_world) : fork_world :=
  FW (f (w_rt w)) (w_ext w) (w_ops w) (w_spawned w).
Definition do_ops (ops : list host_op) (w : fork_world) : fork_world :=
  FW (w_rt w) (w_ext w) (w_ops w ++ ops) (w_spawned w).
Definition spawn (a : fork_arg) (w : fork_world) : fork_world :=
  FW (w_rt w) (w_ext w) (w_ops w) (w_spawned w ++ [a]).

(** * The guest's call *)

(** The two words at the start of the buffer. *)
Definition buf_header (ptr : Z) (e : exec_ctx) : exec_ctx :=
  set_mem (st32 (st32 (mem e) ptr (u32 (ptr + 8))) (ptr + 4) (u32 (ptr + ASYNCIFY_BUF_SIZE))) e.

(** Fork and vfork differ in two fields of the new slot and of the caller's. *)
Definition vfork_marks (slot child : nat) (my_pid : Z) (rt : yos_runtime) : yos_runtime :=
  upd_proc slot (set_vfork_child_done false) (upd_proc child (set_vfork_parent_pid my_pid) rt).

Definition fork_call (vfork : bool) (w : fork_world) (ci : nat) : Z * fork_world :=
  match ctxs (w_rt w) !! ci, w_ext w !! ci with
  | Some c, Some x =>
      match g_proc c, x_guest x with
      | None, _ => (- EINVAL, w)
      | _, None => (- ENOMEM, w)
      | Some slot, Some g =>
          match procs (w_rt w) !! slot with
          | None => (- EINVAL, w)
          | Some me =>
              let st := get_asyncify_state g in
              if st <? 0 then (- ENOSYS, w)
              else if st =? ASYNCIFY_REWINDING then (fork_return x, upd_ext ci (set_x_guest (asyncify_stop_rewind g)) w)
              else if memory_size (g_exec c) =? 0 then (- ENOMEM, w)
              else
                let ptr := if asyncify_ptr x =? 0 then u32 (memory_size (g_exec c) - ASYNCIFY_BUF_SIZE) else asyncify_ptr x in
                let w1 := upd_rt (upd_ctx ci (fun c => set_g_exec (buf_header ptr (g_exec c)) c)) (upd_ext ci (set_asyncify_ptr ptr) w) in
                let '(r, rt2) := yos_proc_alloc (w_rt w1) (pid me) in
                match r with
                | None => (- EAGAIN, w1)
                | Some child =>
                    let rt3 := upd_proc child (fun p => set_sid (sid me) (set_pgid (pgid me) p)) rt2 in
                    let rt4 := if vfork then vfork_marks slot child (pid me) rt3 else rt3 in
                    let child_pid := next_pid (w_rt w1) in
                    (child_pid,
                     upd_ext ci (fun x => set_x_guest (asyncify_start_unwind ptr g) (set_fork_pending true (set_fork_return child_pid x)))
                       (upd_rt (fun _ => rt4) w1))
                end
          end
      end
  | _, _ => (- EINVAL, w)
  end.

Definition yos_fork : fork_world -> nat -> Z * fork_world := fork_call false.
Definition yos_vfork : fork_world -> nat -> Z * fork_world := fork_call true.

(** * The pump *)

Definition FD_CLOEXEC : Z := 1.
Definition YOS_FORK_FILES : nat := 256.

(** One descriptor of the parent; the copy keeps the close-on-exec flag. *)
Definition dup_cmd (flags : Z) : Z := if (0 <=? flags) && negb (Z.land flags FD_CLOEXEC =? 0) then F_DUPFD_CLOEXEC else F_DUPFD.
Definition dup_slot (a : pump_answers) (i : nat) (phfd : Z) : Z :=
  if phfd <? 0 then -1
  else let chfd := pa_dup a i phfd (dup_cmd (pa_getfd a phfd)) in if 0 <=? chfd then chfd else -1.
Definition dup_fds (a : pump_answers) (fd_map : list Z) : list Z := imap (dup_slot a) fd_map.
Definition dup_ops (fds : list Z) : list host_op := flat_map (fun h => if 0 <=? h then [Acquire (Dup_fd h)] else []) fds.

(** One stream: its copy, or 0; [fdopen] takes the descriptor over. *)
Definition file_mode (m : bytes) : bytes := match m with [] => [114; 43] | _ => m end.
Definition dup_file (a : pump_answers) (i : nat) (fp : Z) (mode : bytes) : Z * list host_op :=
  if fp =? 0 then (0, [])
  else
    let phfd := pa_fileno a fp in
    if phfd <? 0 then (0, [])
    else
      let ch1 := pa_dup_file a i phfd F_DUPFD_CLOEXEC in
      let chfd := if ch1 <? 0 then pa_dup_file a i phfd F_DUPFD else ch1 in
      if chfd <? 0 then (0, [])
      else
        let cfp := pa_fdopen a i chfd (file_mode mode) in
        if cfp =? 0 then (0, [Acquire (Dup_fd chfd); Release (Dup_fd chfd)])
        else (cfp, [Acquire (Dup_fd chfd); Release (Dup_fd chfd); Acquire (Dup_stream cfp)]).
Definition dup_files (a : pump_answers) (x : fork_ext guest) (slots : list Z) : list (Z * list host_op) :=
  imap (fun i fp => dup_file a i fp (default [] (file_modes x !! i))) slots.

(** [release_parent_dups] *)
Definition release_parent_dups (fa : fork_arg) : list host_op :=
  flat_map (fun h => if 0 <=? h then [Release (Dup_fd h)] else []) (fa_fd_map fa) ++
  flat_map (fun fp => if fp =? 0 then [] else [Release (Dup_stream fp)]) (fa_dup_fps fa).

Definition free_child (pid_ : Z) (rt : yos_runtime) : yos_runtime :=
  match yos_proc_find rt pid_ with Some i => upd_proc i (set_state YOS_PROC_FREE) rt | None => rt end.

(** The cursors and the free list that travel; the live list does not. *)
Definition bookmarks (e : exec_ctx) : exec_ctx :=
  ExecCtx (fun _ => 0) 0 (heap_end e) (mmap_top e) (free_list e) [] (alloc_lo e) (alloc_hi e) (alloc_free_head e) 0.

Definition make_arg (a : pump_answers) (page src_addr : Z) (c : yos_ctx) (x : fork_ext guest) (g : guest) (child : nat) : fork_arg :=
  let s := snapshot_wasm_memory page src_addr (fun _ => 0) (mem (g_exec c)) (memory_size (g_exec c)) (pa_vec a) in
  let files := dup_files a x (file_slots c) in
  let fps := map fst files in
  ForkArg child (sn_dst s.1) (memory_size (g_exec c)) (live_regions s) (asyncify_ptr x) (wasm_globals g) (bookmarks (g_exec c))
    (dup_fds a (fd_map c)) fps
    (zip_with (fun fp wfd => if fp =? 0 then -1 else wfd) fps (file_wfds x))
    (zip_with (fun fp m => if fp =? 0 then [] else take 7 (file_mode m)) fps (file_modes x))
    (sig_handlers c) (sig_ignore_mask c) (sig_mask c) (sig_pending c) (x_inherited x).

(** A round that started the child and left the parent rewinding, or one that
    returned to the caller of the pump. *)
Inductive pump_result : Type := Pump_resumed (w : fork_world) | Pump_returned (w : fork_world).

Definition pump_world (r : pump_result) : fork_world := match r with Pump_resumed w | Pump_returned w => w end.

Definition fork_round (page src_addr : Z) (w : fork_world) (ci : nat) (a : pump_answers) : pump_result :=
  match ctxs (w_rt w) !! ci, w_ext w !! ci with
  | Some c, Some x =>
      match x_guest x with
      | None => Pump_returned w
      | Some g0 =>
          let g := asyncify_stop_unwind g0 in
          let w1 := upd_ext ci (fun x => set_x_guest g (set_fork_pending false x)) w in
          let failed (ops : list host_op) := Pump_returned (upd_rt (free_child (fork_return x)) (do_ops ops w1)) in
          if negb (pa_mmap a) then failed []
          else if negb (pa_arg a) then failed [Acquire Snapshot_pages; Release Snapshot_pages]
          else if negb (pa_globals a) then
            failed [Acquire Snapshot_pages; Acquire Thread_arg; Release Snapshot_pages; Release Thread_arg]
          else
            let ops3 := [Acquire Snapshot_pages; Acquire Thread_arg; Acquire Globals_copy] in
            match yos_proc_find (w_rt w1) (fork_return x) with
            | None => Pump_returned (do_ops (ops3 ++ [Release Snapshot_pages; Release Thread_arg; Release Globals_copy]) w1)
            | Some child =>
                if negb (pa_bytes a) then failed (ops3 ++ [Release Snapshot_pages; Release Globals_copy; Release Thread_arg])
                else
                  let fa := make_arg a page src_addr c x g child in
                  let ops := ops3 ++ [Acquire Bytes_copy] ++ dup_ops (fa_fd_map fa) ++ flat_map snd (dup_files a x (file_slots c)) in
                  let w2 := upd_rt (upd_proc child (set_state YOS_PROC_RUNNING)) (do_ops ops w1) in
                  if negb (pa_create a =? 0) then
                    Pump_returned (upd_rt (upd_proc child (set_state YOS_PROC_FREE))
                      (do_ops (release_parent_dups fa ++ [Release Snapshot_pages; Release Globals_copy; Release Thread_arg]) w2))
                  else Pump_resumed (upd_ext ci (set_x_guest (asyncify_start_rewind (asyncify_ptr x) g)) (spawn fa w2))
            end
      end
  | _, _ => Pump_returned w
  end.

(** [resume]: what the guest, called at [_start] again, does until it returns;
    one list of answers for each round. *)
Fixpoint yos_fork_pump (page src_addr : Z) (resume : fork_world -> nat -> fork_world) (ans : list pump_answers)
    (w : fork_world) (ci : nat) : fork_world :=
  if (match w_ext w !! ci with Some x => fork_pending x | None => false end) then
    match ans with
    | [] => w
    | a :: ans' =>
        match fork_round page src_addr w ci a with
        | Pump_returned w' => w'
        | Pump_resumed w' => yos_fork_pump page src_addr resume ans' (resume w' ci) ci
        end
    end
  else w.

(** * The child's thread *)

(** The answers to the thread: whether the runtime and the context could be
    made, the module parsed and loaded, and the instance, its memory and its
    size. *)
Record boot_answers : Type := BootAnswers {
  ba_runtime : bool; ba_ctx : bool; ba_parse : bool; ba_load : bool; ba_guest : guest; ba_mem : memory; ba_mem_size : Z
}.

Definition release_arg : list host_op := [Release Snapshot_pages; Release Globals_copy; Release Thread_arg].

(** The descriptors and streams the child's context had taken over. *)
Definition release_child (fa : fork_arg) : list host_op :=
  release_parent_dups fa ++ [Release Child_ctx; Release Child_runtime; Release Child_env] ++ release_arg.

Definition ERRNO_OFF : Z := 264.

Definition child_exec (fa : fork_arg) (m : memory) (mem_size : Z) : exec_ctx :=
  let b := fa_bookmarks fa in
  ExecCtx m mem_size (heap_end b) (mmap_top b) (free_list b) [] (alloc_lo b) (alloc_hi b) (alloc_free_head b) ERRNO_OFF.

Definition child_ctx (fa : fork_arg) (e : exec_ctx) : yos_ctx :=
  YosCtx e (Some (fa_proc fa)) (fa_sig_handlers fa) (fa_sig_ignore_mask fa) (fa_sig_mask fa) (fa_sig_pending fa)
    (fa_fd_map fa) (fa_dup_fps fa) true false.

(** The saved globals over the fresh ones, as far as both go. *)
Definition merge_globals (saved fresh : list Z) : list Z := take (length fresh) saved ++ drop (length saved) fresh.

(** [fork_thread_func] up to its first call of [_start]; [true]: the guest is
    about to run. *)
Definition fork_thread_boot (w : fork_world) (fa : fork_arg) (a : boot_answers) : bool * fork_world :=
  let w1 := do_ops [Acquire Child_env] w in
  if negb (ba_runtime a) then (false, do_ops (release_parent_dups fa ++ release_arg) w1)
  else
    let w2 := do_ops [Acquire Child_runtime] w1 in
    if negb (ba_ctx a) then
      (false, do_ops (release_parent_dups fa ++ [Release Child_runtime; Release Child_env] ++ release_arg) w2)
    else
      let n := length (ctxs (w_rt w2)) in
      let w3 := upd_rt (upd_proc (fa_proc fa) (fun p => set_ctx_handle (Some n) (set_thread true p))) (do_ops [Acquire Child_ctx] w2) in
      if negb (ba_parse a && ba_load a) then (false, do_ops (release_child fa) w3)
      else
        let m := restore_memory (ba_mem a) (fa_snapshot fa) (ba_mem_size a) (fa_memory_size fa) (fa_regions fa) in
        let g := restore_globals (merge_globals (fa_globals fa) (wasm_globals (ba_guest a))) (ba_guest a) in
        let x := ForkExt (Some (asyncify_start_rewind (fa_asyncify_ptr fa) g)) (fa_asyncify_ptr fa) false 0
                   (fa_dup_wfds fa) (fa_file_modes fa) (fa_inherited fa) in
        (true, do_ops release_arg
                 (FW (set_ctxs (ctxs (w_rt w3) ++ [child_ctx fa (child_exec fa m (ba_mem_size a))]) (w_rt w3))
                    (w_ext w3 ++ [x]) (w_ops w3) (w_spawned w3))).

(** The end of the thread when the guest returns from [_start], or traps. *)
Definition fork_thread_end (w : fork_world) (ci : nat) (trap : bool) : fork_world :=
  match ctxs (w_rt w) !! ci with
  | Some c =>
      match g_proc c with
      | Some slot =>
          let w1 := if trap then upd_rt (upd_proc slot (fun p => set_exited true (set_exit_code 139 (set_state YOS_PROC_ZOMBIE p)))) w else w in
          do_ops [Release Child_ctx; Release Child_runtime; Release Child_env]
            (upd_rt (fun rt => emit Ev_any_exit (emit (Ev_broadcast slot) (upd_proc slot (mark_exited 0) rt))) w1)
      | None => w
      end
  | None => w
  end.
End Fork.
Arguments fork_world : clear implicits.
Arguments boot_answers : clear implicits.
Arguments pump_result : clear implicits.
