(* ===== verification/ForkProps.v ===== *)
(** fork, step by step: the guest's first call, the round of the pump, and the
    start of the child's thread, each on its successful path; the paths that
    fail are at the end. *)
From S2P Require Import Prelude Memory Ctx CString Runtime ProcTable ProcProps FdTable Env Snapshot Fork.

(** What Binaryen documents of its functions, on a module that exports them,
    and what wasm3 does with the globals of an instance. *)
Class AsyncifyLaws (guest : Type) `{!Asyncify guest} : Prop := {
  start_unwind_state p g : 0 <= get_asyncify_state g -> get_asyncify_state (asyncify_start_unwind p g) = ASYNCIFY_UNWINDING;
  stop_unwind_state g : 0 <= get_asyncify_state g -> get_asyncify_state (asyncify_stop_unwind g) = ASYNCIFY_NORMAL;
  start_rewind_state p g : 0 <= get_asyncify_state g -> get_asyncify_state (asyncify_start_rewind p g) = ASYNCIFY_REWINDING;
  stop_rewind_state g : 0 <= get_asyncify_state g -> get_asyncify_state (asyncify_stop_rewind g) = ASYNCIFY_NORMAL;
  restore_state gs g : 0 <= get_asyncify_state g -> 0 <= get_asyncify_state (restore_globals gs g);
  restore_globals_get gs g : length gs = length (wasm_globals g) -> wasm_globals (restore_globals gs g) = gs
}.

Section Props.
Context {guest : Type} `{!Asyncify guest} `{!AsyncifyLaws guest}.
Implicit Types (w : fork_world guest) (x : fork_ext guest) (g : guest).

(** * Lookups *)

Lemma ext_upd ci f w : w_ext (upd_ext ci f w) !! ci = f <$> w_ext w !! ci.
Proof. apply list_lookup_alter_eq. Qed.

Lemma length_ctxs_upd ci f rt : length (ctxs (upd_ctx ci f rt)) = length (ctxs rt).
Proof. apply length_alter. Qed.

(** * The first call *)

Definition fork_ptr (c : yos_ctx) x : Z :=
  if asyncify_ptr x =? 0 then u32 (memory_size (g_exec c) - ASYNCIFY_BUF_SIZE) else asyncify_ptr x.

(** The new slot before the pump. *)
Definition forked_proc (me : yos_proc) (cpid : Z) : yos_proc := set_sid (sid me) (set_pgid (pgid me) (new_proc cpid (pid me))).

(** A caller of fork, in the middle of its program. *)
Record can_fork w (ci : nat) (c : yos_ctx) x g (slot : nat) (me : yos_proc) : Prop := CanFork {
  cf_table : table_ok (w_rt w);
  cf_room : exists i p, procs (w_rt w) !! i = Some p /\ is_free p = true;
  cf_next : next_pid (w_rt w) < 2147483647;
  cf_ctx : ctxs (w_rt w) !! ci = Some c;
  cf_ext : w_ext w !! ci = Some x;
  cf_length : length (w_ext w) = length (ctxs (w_rt w));
  cf_proc : g_proc c = Some slot;
  cf_me : procs (w_rt w) !! slot = Some me;
  cf_live : is_free me = false;
  cf_guest : x_guest x = Some g;
  cf_state : get_asyncify_state g = ASYNCIFY_NORMAL;
  cf_mem : memory_size (g_exec c) <> 0
}.

Lemma find_free_slot l : (exists i p, l !! i = Some p /\ is_free p = true) -> exists i, find_slot is_free l 0 = Some i.
Proof.
  intros (i & p & Hp & Hf). destruct (find_slot is_free l 0) as [k|] eqn:E; [by exists k|]. apply find_slot_None in E.
  rewrite Forall_forall in E. specialize (E p (list_elem_of_lookup_2 _ _ _ Hp)). cbn beta in E. congruence.
Qed.

(** What the first call leaves for the pump. *)
Record unwinding w (ci : nat) (c : yos_ctx) x (me : yos_proc) w1 (child : nat) : Prop := Unwinding {
  un_table : table_ok (w_rt w1);
  un_child : procs (w_rt w1) !! child = Some (forked_proc me (next_pid (w_rt w)));
  un_others : forall j, j <> child -> procs (w_rt w1) !! j = procs (w_rt w) !! j;
  un_ctxs : ctxs (w_rt w1) = alter (fun y => set_g_exec (buf_header (fork_ptr c x) (g_exec y)) y) ci (ctxs (w_rt w));
  un_ext : exists g1, w_ext w1 = alter (fun y => set_x_guest g1 (set_fork_pending true (set_fork_return (next_pid (w_rt w)) (set_asyncify_ptr (fork_ptr c x) y)))) ci (w_ext w)
           /\ get_asyncify_state g1 = ASYNCIFY_UNWINDING;
  un_ops : w_ops w1 = w_ops w;
  un_spawned : w_spawned w1 = w_spawned w;
  un_find : yos_proc_find (w_rt w1) (next_pid (w_rt w)) = Some child;
  un_was_free : exists p, procs (w_rt w) !! child = Some p /\ is_free p = true
}.

Lemma first_call w ci c x g slot me :
  can_fork w ci c x g slot me -> exists w1 child, yos_fork w ci = (next_pid (w_rt w), w1) /\ unwinding w ci c x me w1 child.
Proof.
  intros [T Room Next Hc Hx Hl Hp Hme Hlive Hg Hst Hmem]. unfold yos_fork, fork_call. rewrite Hc, Hx, Hp, Hg, Hme, Hst.
  change (ASYNCIFY_NORMAL <? 0) with false. change (ASYNCIFY_NORMAL =? ASYNCIFY_REWINDING) with false. cbv iota.
  rewrite (proj2 (Z.eqb_neq _ 0)) by done. cbv zeta. fold (fork_ptr c x). set (w0 := upd_rt _ _).
  assert (Hpr : procs (w_rt w0) = procs (w_rt w)) by done. assert (Hn : next_pid (w_rt w0) = next_pid (w_rt w)) by done.
  assert (T0 : table_ok (w_rt w0)) by (apply (tame_ok (w_rt w)); [by apply tame_procs|done]).
  destruct (find_free_slot (procs (w_rt w)) Room) as [child Hfind].
  destruct (yos_proc_alloc (w_rt w0) (pid me)) as [r rt2] eqn:Ha. assert (r = Some child /\ ctxs rt2 = ctxs (w_rt w0)) as [-> Hctx].
  { unfold yos_proc_alloc in Ha. rewrite Hpr, Hfind in Ha. by injection Ha as <- <-. } pose proof Ha as Ha0. apply proc_alloc_spec in Ha as (A1 & A2 & A3 & A4); [|by rewrite Hn|by apply T0].
  apply alloc_ok in Ha0 as [T2 _]; [|by rewrite Hn|done].
  set (rt3 := upd_proc child _ rt2). rewrite Hn in *.
  assert (T3 : table_ok rt3) by (apply (tame_ok rt2); [apply tame_upd_proc; intros p _; split; [done|apply state_le_refl]|done]).
  assert (P3 : procs rt3 !! child = Some (forked_proc me (next_pid (w_rt w)))) by (unfold rt3; by rewrite lookup_upd_proc, A1).
  eexists _, child. split; [done|]. split; cbn [w_rt w_ext w_ops w_spawned upd_rt upd_ext]; try done.
  - intros j Hj. unfold rt3. rewrite lookup_upd_proc_ne by done. by rewrite A3, Hpr.
  - exists (asyncify_start_unwind (fork_ptr c x) g). split; [|apply start_unwind_state; by rewrite Hst].
    unfold w0. cbn [w_ext upd_rt upd_ext]. exact (alter_alter _ _ ci (w_ext w)).
  - exact (find_live rt3 child _ T3 P3 eq_refl).
Qed.

(** * The round of the pump *)

(** The guest's frames are on the buffer: its memory and its instance are
    whatever unwinding made of them. *)
Definition unwound (ci : nat) (e : exec_ctx) (g : guest) w : fork_world guest :=
  upd_rt (upd_ctx ci (set_g_exec e)) (upd_ext ci (set_x_guest g) w).

Definition all_granted (a : pump_answers) : Prop :=
  pa_mmap a = true /\ pa_arg a = true /\ pa_globals a = true /\ pa_bytes a = true /\ pa_create a = 0.

(** The argument of the child's thread. *)
Definition thread_arg (page src_addr : Z) (a : pump_answers) (c : yos_ctx) x (e : exec_ctx) (g : guest) (child : nat) : fork_arg :=
  make_arg a page src_addr (set_g_exec e c) (set_asyncify_ptr (fork_ptr c x) x) (asyncify_stop_unwind g) child.

Lemma make_arg_files a page src_addr c x x' g child :
  file_modes x = file_modes x' -> file_wfds x = file_wfds x' -> asyncify_ptr x = asyncify_ptr x' -> x_inherited x = x_inherited x' ->
  make_arg a page src_addr c x g child = make_arg a page src_addr c x' g child.
Proof. intros H1 H2 H3 H4. unfold make_arg, dup_files. by rewrite H1, H2, H3, H4. Qed.

Lemma second_step page src_addr w ci c x g slot me w1 child e g' a :
  can_fork w ci c x g slot me -> unwinding w ci c x me w1 child -> 0 <= get_asyncify_state g' -> all_granted a ->
  exists w2, fork_round page src_addr (unwound ci e g' w1) ci a = Pump_resumed w2 /\
    w_spawned w2 = w_spawned w ++ [thread_arg page src_addr a c x e g' child] /\
    procs (w_rt w2) !! child = Some (set_state YOS_PROC_RUNNING (forked_proc me (next_pid (w_rt w)))) /\
    (forall j, j <> child -> procs (w_rt w2) !! j = procs (w_rt w) !! j) /\
    table_ok (w_rt w2) /\
    ctxs (w_rt w2) = alter (set_g_exec e) ci (ctxs (w_rt w)) /\
    (exists x2 g2, w_ext w2 = <[ci := x2]> (w_ext w) /\ x_guest x2 = Some g2 /\ get_asyncify_state g2 = ASYNCIFY_REWINDING /\
       fork_return x2 = next_pid (w_rt w) /\ fork_pending x2 = false).
Proof.
  intros Hcan Hun Hg' (A1 & A2 & A3 & A4 & A5). destruct Hun as [T U1 U2 U3 (g1 & U4 & Ug) U5 U6 U7 U8]. destruct Hcan as [_ _ _ Hc Hx Hl Hp Hme Hlive Hg Hst Hmem].
  set (W := unwound ci e g' w1). set (cpid := next_pid (w_rt w)) in *.
  set (x1 := set_x_guest g' (set_x_guest g1 (set_fork_pending true (set_fork_return cpid (set_asyncify_ptr (fork_ptr c x) x))))).
  assert (Ex : w_ext W !! ci = Some x1) by (unfold W, unwound; cbn [w_ext upd_rt upd_ext]; rewrite U4, !list_lookup_alter_eq, Hx; done).
  assert (Ec : ctxs (w_rt W) !! ci = Some (set_g_exec e c)).
  { unfold W, unwound. cbn [w_rt upd_rt upd_ext]. rewrite lookup_upd_ctx, U3, list_lookup_alter_eq, Hc. done. }
  set (g2 := asyncify_start_rewind (fork_ptr c x) (asyncify_stop_unwind g')).
  unfold fork_round. rewrite Ec, Ex. change (x_guest x1) with (Some g'). cbv iota. rewrite A1, A2, A3, A4, A5. cbv iota zeta. cbn [negb].
  change (yos_proc_find (w_rt (upd_ext ci _ W)) (fork_return x1)) with (yos_proc_find (w_rt w1) cpid). rewrite U7. cbn [Z.eqb negb].
  eexists. split; [done|]. cbn [w_spawned spawn upd_ext upd_rt do_ops w_rt w_ext w_ops].
  rewrite (make_arg_files a page src_addr (set_g_exec e c) x1 (set_asyncify_ptr (fork_ptr c x) x)) by done. fold (thread_arg page src_addr a c x e g' child).
  split_and!.
  - unfold W, unwound. cbn [w_spawned upd_rt upd_ext]. by rewrite U6.
  - rewrite lookup_upd_proc. unfold W, unwound. cbn [w_rt upd_rt upd_ext]. change (procs (upd_ctx ?i ?f ?r)) with (procs r). by rewrite U1.
  - intros j Hj. rewrite lookup_upd_proc_ne by done. unfold W, unwound. cbn [w_rt upd_rt upd_ext]. change (procs (upd_ctx ?i ?f ?r)) with (procs r). by apply U2.
  - apply (tame_ok (w_rt w1)); [|done]. etrans; [|apply tame_upd_proc].
    + by apply tame_procs.
    + intros p Hp'. split; [done|]. unfold W, unwound in Hp'. cbn [w_rt upd_rt upd_ext] in Hp'.
      change (procs (upd_ctx ci (set_g_exec e) (w_rt w1))) with (procs (w_rt w1)) in Hp'. rewrite U1 in Hp'. by injection Hp' as <-.
  - change (ctxs (upd_proc ?i ?f ?r)) with (ctxs r). unfold W, unwound. cbn [w_rt upd_rt upd_ext]. unfold upd_ctx. cbn [ctxs set_ctxs].
    rewrite U3. exact (alter_alter _ _ ci (ctxs (w_rt w))).
  - exists (set_x_guest g2 (set_fork_pending false x1)), g2. split_and!; [|done| |done|done].
    + unfold W, unwound. cbn [w_ext upd_rt upd_ext]. rewrite U4. apply list_eq. intros j. destruct (decide (j = ci)) as [->|Hne].
      * rewrite !list_lookup_alter_eq, Hx, list_lookup_insert_eq by (by eapply lookup_lt_Some). done.
      * by rewrite !list_lookup_alter_ne, list_lookup_insert_ne by done.
    + apply start_rewind_state. rewrite stop_unwind_state by done. done.
Qed.

(** * The child's thread *)

Definition loads (b : boot_answers guest) : Prop :=
  ba_runtime b = true /\ ba_ctx b = true /\ ba_parse b = true /\ ba_load b = true /\ 0 <= get_asyncify_state (ba_guest b).

Definition child_memory (fa : fork_arg) (b : boot_answers guest) : memory :=
  restore_memory (ba_mem b) (fa_snapshot fa) (ba_mem_size b) (fa_memory_size fa) (fa_regions fa).

Lemma third_step w fa b :
  loads b -> exists w3, fork_thread_boot w fa b = (true, w3) /\
    ctxs (w_rt w3) = ctxs (w_rt w) ++ [child_ctx fa (child_exec fa (child_memory fa b) (ba_mem_size b))] /\
    (forall p, procs (w_rt w) !! fa_proc fa = Some p ->
       procs (w_rt w3) !! fa_proc fa = Some (set_ctx_handle (Some (length (ctxs (w_rt w)))) (set_thread true p))) /\
    (forall j, j <> fa_proc fa -> procs (w_rt w3) !! j = procs (w_rt w) !! j) /\
    (exists x3 g3, w_ext w3 = w_ext w ++ [x3] /\ x_guest x3 = Some g3 /\ get_asyncify_state g3 = ASYNCIFY_REWINDING /\
       fork_return x3 = 0 /\ fork_pending x3 = false /\ asyncify_ptr x3 = fa_asyncify_ptr fa /\
       file_wfds x3 = fa_dup_wfds fa /\ file_modes x3 = fa_file_modes fa /\ x_inherited x3 = fa_inherited fa).
Proof.
  intros (B1 & B2 & B3 & B4 & B5). unfold fork_thread_boot. rewrite B1, B2, B3, B4. cbn [negb andb].
  eexists. split; [done|]. cbn [w_rt w_ext do_ops upd_rt ctxs procs set_ctxs]. split_and!.
  - done.
  - intros p Hp. change (procs (set_ctxs ?v ?r)) with (procs r). by rewrite lookup_upd_proc, Hp.
  - intros j Hj. change (procs (set_ctxs ?v ?r)) with (procs r). by apply lookup_upd_proc_ne.
  - eexists _, _. split_and!; [done|done| |done..]. apply start_rewind_state. by apply restore_state.
Qed.

(** * The calls again *)

Lemma rewinding_call w ci c x g slot me :
  ctxs (w_rt w) !! ci = Some c -> w_ext w !! ci = Some x -> g_proc c = Some slot -> x_guest x = Some g ->
  procs (w_rt w) !! slot = Some me -> get_asyncify_state g = ASYNCIFY_REWINDING ->
  yos_fork w ci = (fork_return x, upd_ext ci (set_x_guest (asyncify_stop_rewind g)) w) /\
  get_asyncify_state (asyncify_stop_rewind g) = ASYNCIFY_NORMAL.
Proof.
  intros Hc Hx Hp Hg Hme Hst. split; [|apply stop_rewind_state; by rewrite Hst].
  unfold yos_fork, fork_call. by rewrite Hc, Hx, Hp, Hg, Hme, Hst.
Qed.
End Props.
