(* ===== verification/ForkThms.v ===== *)
(** What fork promises: two returns, what the child inherits, what it does not,
    and what a failure on either side of the new thread leaves behind. *)
From S2P Require Import Prelude Memory Ctx CString Vm VmProps Runtime ProcTable ProcProps FdTable Env Snapshot Fork ForkProps.

Section Steps.
Context {guest : Type} `{!Asyncify guest}.
Implicit Types (w : fork_world guest) (x : fork_ext guest) (g : guest).

(** A whole fork: the guest's call, the guest unwinding to the memory [e] and
    the instance [g'], a round of the pump, and the start of the thread. *)
Definition fork_steps (page src_addr : Z) w (ci : nat) (e : exec_ctx) (g' : guest) (a : pump_answers) (b : boot_answers guest) w3 : Prop :=
  exists r w1 w2 fa,
    yos_fork w ci = (r, w1) /\ fork_round page src_addr (unwound ci e g' w1) ci a = Pump_resumed w2 /\
    w_spawned w2 = w_spawned w1 ++ [fa] /\ fork_thread_boot w2 fa b = (true, w3).

(** The guest of a context runs its program. *)
Definition settled w (ci : nat) : Prop :=
  exists x g, w_ext w !! ci = Some x /\ x_guest x = Some g /\ get_asyncify_state g = ASYNCIFY_NORMAL /\ fork_pending x = false.
End Steps.

Section Props.
Context {guest : Type} `{!Asyncify guest} `{!AsyncifyLaws guest}.
Implicit Types (w : fork_world guest) (x : fork_ext guest) (g : guest).

(** The state of the system when parent and child are about to rewind. *)
Record forked page src_addr w (ci : nat) (c : yos_ctx) x (slot : nat) (me : yos_proc) (e : exec_ctx) (g' : guest)
    (a : pump_answers) (b : boot_answers guest) w3 (child : nat) : Prop := Forked {
  fk_child : procs (w_rt w3) !! child =
    Some (set_ctx_handle (Some (length (ctxs (w_rt w)))) (set_thread true (set_state YOS_PROC_RUNNING (forked_proc me (next_pid (w_rt w))))));
  fk_others : forall j, j <> child -> procs (w_rt w3) !! j = procs (w_rt w) !! j;
  fk_fresh : child <> slot;
  fk_ctxs : ctxs (w_rt w3) = alter (set_g_exec e) ci (ctxs (w_rt w)) ++
    [let fa := thread_arg page src_addr a c x e g' child in child_ctx fa (child_exec fa (child_memory fa b) (ba_mem_size b))];
  fk_parent : exists x2 g2, w_ext w3 !! ci = Some x2 /\ x_guest x2 = Some g2 /\ get_asyncify_state g2 = ASYNCIFY_REWINDING /\
    fork_return x2 = next_pid (w_rt w) /\ fork_pending x2 = false;
  fk_ext : exists x3 g3, w_ext w3 !! length (ctxs (w_rt w)) = Some x3 /\ x_guest x3 = Some g3 /\
    get_asyncify_state g3 = ASYNCIFY_REWINDING /\ fork_return x3 = 0 /\ fork_pending x3 = false /\ x_inherited x3 = x_inherited x
}.

(** The three steps together. *)
Lemma fork_run page src_addr w ci c x g slot me e g' a b :
  can_fork w ci c x g slot me -> 0 <= get_asyncify_state g' -> all_granted a -> loads b ->
  exists w3 child, fork_steps page src_addr w ci e g' a b w3 /\ forked page src_addr w ci c x slot me e g' a b w3 child.
Proof.
  intros Hcan Hg' Ha Hb. destruct (first_call w ci c x g slot me Hcan) as (w1 & child & E1 & Hun).
  destruct (second_step page src_addr w ci c x g slot me w1 child e g' a Hcan Hun Hg' Ha) as (w2 & E2 & Hsp & P2 & O2 & T2 & C2 & x2 & g2 & X2 & G2 & S2 & R2 & F2).
  set (fa := thread_arg page src_addr a c x e g' child) in *.
  destruct (third_step w2 fa b Hb) as (w3 & E3 & C3 & P3 & O3 & x3 & g3 & X3 & G3 & S3 & R3 & F3 & _ & _ & _ & I3).
  destruct Hcan as [_ _ _ Hc Hx Hl _ Hme Hlive _ _ _]. change (fa_proc fa) with child in *.
  assert (Hlen : length (ctxs (w_rt w2)) = length (ctxs (w_rt w))) by (rewrite C2; apply length_alter).
  assert (Hci : (ci < length (w_ext w))%nat) by (by eapply lookup_lt_Some).
  exists w3, child. split.
  - exists (next_pid (w_rt w)), w1, w2, fa. split_and!; [done|done| |done]. by rewrite Hsp, (un_spawned _ _ _ _ _ _ _ Hun).
  - split.
    + by rewrite (P3 _ P2), Hlen.
    + intros j Hj. by rewrite O3, O2.
    + destruct (un_was_free _ _ _ _ _ _ _ Hun) as (p & Hp & Hf). intros ->. rewrite Hme in Hp. congruence.
    + by rewrite C3, C2.
    + exists x2, g2. rewrite X3, X2, lookup_app_l by (by rewrite length_insert). by rewrite list_lookup_insert_eq.
    + exists x3, g3. split; [|split_and!; try done]. rewrite X3, X2, <-Hl. apply list_lookup_middle. by rewrite length_insert.
Qed.

Lemma fork_steps_det page src_addr w ci e g' a b w3 w3' :
  fork_steps page src_addr w ci e g' a b w3 -> fork_steps page src_addr w ci e g' a b w3' -> w3 = w3'.
Proof.
  intros (r & w1 & w2 & fa & E1 & E2 & E3 & E4) (r' & w1' & w2' & fa' & E1' & E2' & E3' & E4').
  rewrite E1 in E1'. injection E1' as <- <-. rewrite E2 in E2'. injection E2' as <-. rewrite E3 in E3'.
  apply app_inj_tail in E3' as [_ <-]. rewrite E4 in E4'. by injection E4' as <-.
Qed.

(** C4: Fork returns twice.  From any running guest, and whatever unwinding does
    to its memory, when the host grants what the code asks for, the second call
    of the parent returns the new pid and that of the child returns 0; both
    guests then run on, and the table holds the new running process, a child of
    the caller in its group and session, bound to a thread of its own. *)
Theorem fork_returns_twice page src_addr w ci c x g slot me e g' a b :
  can_fork w ci c x g slot me -> 0 <= get_asyncify_state g' -> all_granted a -> loads b ->
  let n := length (ctxs (w_rt w)) in
  exists w3 child p, fork_steps page src_addr w ci e g' a b w3 /\
    (yos_fork w3 ci).1 = next_pid (w_rt w) /\ settled (yos_fork w3 ci).2 ci /\
    (yos_fork w3 n).1 = 0 /\ settled (yos_fork w3 n).2 n /\
    0 < next_pid (w_rt w) /\ ~ live (w_rt w) (next_pid (w_rt w)) /\
    procs (w_rt w3) !! child = Some p /\ pid p = next_pid (w_rt w) /\ ppid p = pid me /\ pgid p = pgid me /\ sid p = sid me /\
    state p = YOS_PROC_RUNNING /\ thread p = true /\ ctx_handle p = Some n /\
    (forall j, j <> child -> procs (w_rt w3) !! j = procs (w_rt w) !! j).
Proof.
  intros Hcan Hg' Ha Hb n. destruct (fork_run page src_addr w ci c x g slot me e g' a b Hcan Hg' Ha Hb) as (w3 & child & Hs & F).
  destruct F as [P O Fr C (x2 & g2 & X2 & G2 & S2 & R2 & P2) (x3 & g3 & X3 & G3 & S3 & R3 & P3 & _)]. destruct Hcan as [T _ _ Hc Hx Hl Hp Hme Hlive _ _ _].
  assert (Hci : (ci < length (ctxs (w_rt w)))%nat) by (by eapply lookup_lt_Some).
  assert (Hcp : ctxs (w_rt w3) !! ci = Some (set_g_exec e c)) by (rewrite C, lookup_app_l by (by rewrite length_alter); by rewrite list_lookup_alter_eq, Hc).
  assert (Hcc : exists cc, ctxs (w_rt w3) !! n = Some cc /\ g_proc cc = Some child).
  { rewrite C. eexists. split; [apply list_lookup_middle; by rewrite length_alter|done]. }
  destruct Hcc as (cc & Hcc & Hpc).
  assert (Hm3 : procs (w_rt w3) !! slot = Some me) by (rewrite O by done; done).
  destruct (rewinding_call w3 ci _ x2 g2 slot me Hcp X2 Hp G2 Hm3 S2) as [Q1 Q2].
  destruct (rewinding_call w3 n cc x3 g3 child _ Hcc X3 Hpc G3 P S3) as [Q3 Q4].
  eexists w3, child, _. rewrite Q1, Q3. split_and!; try done.
  - exists (set_x_guest (asyncify_stop_rewind g2) x2), (asyncify_stop_rewind g2). cbn [snd]. split; [|done]. by rewrite ext_upd, X2.
  - exists (set_x_guest (asyncify_stop_rewind g3) x3), (asyncify_stop_rewind g3). cbn [snd]. split; [|done]. unfold n. by rewrite ext_upd, X3.
  - apply T.
  - intros (i & q & Hq & Hf & He). pose proof (to_range _ T i q Hq Hf). lia.
Qed.

Lemma fork_steps_child page src_addr w ci c x g slot me e g' a b w3 :
  can_fork w ci c x g slot me -> 0 <= get_asyncify_state g' -> all_granted a -> loads b ->
  fork_steps page src_addr w ci e g' a b w3 ->
  exists child, let fa := thread_arg page src_addr a c x e g' child in
    ctxs (w_rt w3) !! length (ctxs (w_rt w)) = Some (child_ctx fa (child_exec fa (child_memory fa b) (ba_mem_size b))) /\
    exists x3, w_ext w3 !! length (ctxs (w_rt w)) = Some x3 /\ x_inherited x3 = x_inherited x.
Proof.
  intros Hcan Hg' Ha Hb Hs. destruct (fork_run page src_addr w ci c x g slot me e g' a b Hcan Hg' Ha Hb) as (w3' & child & Hs' & F).
  rewrite (fork_steps_det _ _ _ _ _ _ _ _ _ _ Hs Hs'). exists child. cbv zeta. split.
  - rewrite (fk_ctxs _ _ _ _ _ _ _ _ _ _ _ _ _ _ F). apply list_lookup_middle. by rewrite length_alter.
  - destruct (fk_ext _ _ _ _ _ _ _ _ _ _ _ _ _ _ F) as (x3 & g3 & X3 & _ & _ & _ & _ & I3). by exists x3.
Qed.

Lemma dup_cmd_spec f : dup_cmd f = F_DUPFD_CLOEXEC <-> 0 <= f /\ Z.testbit f 0 = true.
Proof.
  unfold dup_cmd, FD_CLOEXEC. destruct (Z.leb_spec 0 f); cbn [andb]; [|split; [discriminate|lia]].
  change 1 with (Z.ones 1). rewrite Z.land_ones by lia. change (2 ^ 1) with 2. rewrite <-Z.bit0_mod. destruct (Z.testbit f 0); cbn [Z.b2z Z.eqb negb]; (split; [intros E; first [done|discriminate E]|by intros []]).
Qed.

(** The host's answers to the snapshot of the memory of [e]: a page size
    [2^k], the address of linear memory, and, when malloc and mincore both
    succeed, one bit for each page. *)
Record snapshot_answers (k src_addr : Z) (e : exec_ctx) (a : pump_answers) : Prop := SnapshotAnswers {
  sa_page : 0 <= k;
  sa_size : 0 <= memory_size e < 4294967296;
  sa_pages : forall v, pa_vec a = Some v -> Z.of_nat (length v) = npages k src_addr (memory_size e)
}.

(** Pages that are not resident, in the parent and as the loader leaves them,
    are zero. *)
Definition quiet_pages (k src_addr : Z) (e : exec_ctx) (a : pump_answers) (fresh : memory) : Prop :=
  exists v, pa_vec a = Some v /\
    forall p, 0 <= p < memory_size e -> in_snapshot k src_addr (memory_size e) v p = false -> mem e p = 0 /\ fresh p = 0.

(** The child of that snapshot replays a table of runs: it has an entry and did
    not overflow. *)
Definition replays_table (k src_addr : Z) (e : exec_ctx) (a : pump_answers) : bool :=
  (0 <? length (live_regions (snapshot_wasm_memory (2 ^ k) src_addr zero_pages (mem e) (memory_size e) (pa_vec a))))%nat.

(** C8: What the child of a granted fork starts with.  Memory, when the loaded
    module has room for the parent's ([child_byte]): the parent's bytes, as
    they were after unwinding, in the pages mincore reports resident; elsewhere
    what the loader put there, or zero when the table of runs is empty or
    overflowed; only the bytes before the first page boundary, and zero behind
    them, when mincore or its malloc fails.  So the child's memory is the
    parent's when mincore answers and the other pages are zero on both sides.
    A smaller module keeps its own memory.  The heap and mapping cursors, the
    signal state, the environment, and for every open descriptor the host's
    duplicate, close-on-exec exactly when the original is. *)
Theorem fork_child_inherits k src_addr w ci c x g slot me e g' a b w3 :
  can_fork w ci c x g slot me -> 0 <= get_asyncify_state g' -> all_granted a -> loads b ->
  snapshot_answers k src_addr e a -> fork_steps (2 ^ k) src_addr w ci e g' a b w3 ->
  exists cc xx, ctxs (w_rt w3) !! length (ctxs (w_rt w)) = Some cc /\ w_ext w3 !! length (ctxs (w_rt w)) = Some xx /\
    (memory_size e <= ba_mem_size b -> forall p, 0 <= p < memory_size e ->
       mem (g_exec cc) p = child_byte k src_addr (memory_size e) (pa_vec a) (replays_table k src_addr e a) (mem e) (ba_mem b) p /\
       (quiet_pages k src_addr e a (ba_mem b) -> mem (g_exec cc) p = mem e p)) /\
    (ba_mem_size b < memory_size e -> mem (g_exec cc) = ba_mem b) /\
    heap_end (g_exec cc) = heap_end e /\ mmap_top (g_exec cc) = mmap_top e /\ free_list (g_exec cc) = free_list e /\
    alloc_lo (g_exec cc) = alloc_lo e /\ alloc_hi (g_exec cc) = alloc_hi e /\ alloc_free_head (g_exec cc) = alloc_free_head e /\
    sig_handlers cc = sig_handlers c /\ sig_ignore_mask cc = sig_ignore_mask c /\ sig_mask cc = sig_mask c /\ sig_pending cc = sig_pending c /\
    x_inherited xx = x_inherited x /\ length (fd_map cc) = length (fd_map c) /\
    forall i h, fd_map c !! i = Some h ->
      fd_map cc !! i = Some (if 0 <=? h then Z.max (-1) (pa_dup a i h (dup_cmd (pa_getfd a h))) else -1) /\
      (dup_cmd (pa_getfd a h) = F_DUPFD_CLOEXEC <-> 0 <= pa_getfd a h /\ Z.testbit (pa_getfd a h) 0 = true).
Proof.
  intros Hcan Hg' Ha Hb [Q2 Q3 Q4] Hs. destruct (fork_steps_child _ _ _ _ _ _ _ _ _ _ _ _ _ _ Hcan Hg' Ha Hb Hs) as (child & Hc & xx & Hx & Hi).
  set (fa := thread_arg _ _ _ _ _ _ _ _) in Hc. eexists _, xx. split; [exact Hc|]. split; [exact Hx|].
  cbn [g_exec child_ctx mem child_exec]. unfold child_memory.
  split; [intros Hms p Hp; refine ((fun H => conj H _) _); [|exact (restored_any k src_addr (memory_size e) (mem e) (ba_mem b) (pa_vec a) (ba_mem_size b) p Q2 Q3 Hms Q4 Hp)]|].
  { intros (v & Hv & Hq). rewrite H, Hv. cbn [child_byte]. destruct (in_snapshot _ _ _ v p) eqn:E; [done|].
    destruct (Hq p Hp E) as [-> ->]. by case_match. }
  split; [intros Hms; unfold restore_memory, fa, thread_arg, make_arg; cbn [fa_memory_size g_exec set_g_exec]; by rewrite (proj2 (Z.leb_gt _ _) Hms)|].
  split_and!; try done.
  - cbn [fd_map child_ctx]. unfold fa, thread_arg, make_arg, dup_fds. cbn [fa_fd_map]. apply length_imap.
  - intros i h Hh. split.
    + cbn [fd_map child_ctx]. unfold fa, thread_arg, make_arg, dup_fds. cbn [fa_fd_map]. change (fd_map (set_g_exec e c)) with (fd_map c).
      rewrite list_lookup_imap, Hh. change (dup_slot a i <$> Some h) with (Some (dup_slot a i h)). f_equal. unfold dup_slot.
      destruct (Z.leb_spec 0 h); [rewrite (proj2 (Z.ltb_ge h 0)) by lia|by rewrite (proj2 (Z.ltb_lt h 0)) by lia]. cbv zeta.
      destruct (Z.leb_spec 0 (pa_dup a i h (dup_cmd (pa_getfd a h)))); lia.
    + apply dup_cmd_spec.
Qed.

(** The list of live mappings stays behind: in the child, no munmap of
    anything the parent had mapped gives memory back, though it reports
    success. *)
Theorem fork_child_keeps_mappings page src_addr w ci c x g slot me e g' a b w3 :
  can_fork w ci c x g slot me -> 0 <= get_asyncify_state g' -> all_granted a -> loads b ->
  fork_steps page src_addr w ci e g' a b w3 ->
  exists cc, ctxs (w_rt w3) !! length (ctxs (w_rt w)) = Some cc /\ live_list (g_exec cc) = [] /\
    forall addr len, (yos_munmap (g_exec cc) addr len).2 = g_exec cc /\
      (0 < page_align len -> addr + page_align len <= memory_size (g_exec cc) -> 0 <= addr -> (yos_munmap (g_exec cc) addr len).1 = 0).
Proof.
  intros Hcan Hg' Ha Hb Hs. destruct (fork_steps_child _ _ _ _ _ _ _ _ _ _ _ _ _ _ Hcan Hg' Ha Hb Hs) as (child & Hc & _).
  eexists. split; [exact Hc|]. split; [done|]. cbn [g_exec child_ctx]. set (E := child_exec _ _ _). intros addr len.
  assert (HE : live_list E = []) by done. clearbody E. unfold yos_munmap. rewrite HE. cbn [foldl].
  split.
  - destruct (_ || _ || _); [done|]. destruct (range_overlaps _ _ _); [done|]. cbn [snd]. destruct E. cbn in *. by subst.
  - intros H1 H2 H3. rewrite (proj2 (Z.eqb_neq _ 0)), !(proj2 (Z.ltb_ge _ _)) by lia. cbn [orb]. by destruct (range_overlaps _ _ _).
Qed.

(** The save area is the last 16 KiB of linear memory, which the mapping
    arena also reaches: a fork from a guest with a mapping there overwrites the
    mapping's bytes. *)
Theorem fork_overwrites_top_mapping w ci c x g slot me :
  can_fork w ci c x g slot me -> asyncify_ptr x = 0 -> ASYNCIFY_BUF_SIZE <= memory_size (g_exec c) < 4294967296 ->
  let ptr := memory_size (g_exec c) - ASYNCIFY_BUF_SIZE in
  in_regions ptr (live_list (g_exec c)) ->
  exists c', ctxs (w_rt (yos_fork w ci).2) !! ci = Some c' /\ live_list (g_exec c') = live_list (g_exec c) /\
    ld32 (mem (g_exec c')) ptr = ptr + 8 /\ ld32 (mem (g_exec c')) (ptr + 4) = memory_size (g_exec c).
Proof.
  intros Hcan Hz Hsz ptr Hin. destruct (first_call w ci c x g slot me Hcan) as (w1 & child & E1 & Hun).
  rewrite E1. cbn [snd]. rewrite (un_ctxs _ _ _ _ _ _ _ Hun), list_lookup_alter_eq, (cf_ctx _ _ _ _ _ _ _ Hcan). cbn.
  eexists. split; [done|]. unfold fork_ptr. rewrite Hz. cbn [Z.eqb]. unfold ASYNCIFY_BUF_SIZE in *.
  rewrite (u32_small (memory_size (g_exec c) - 16384)) by lia. fold ptr. split_and!; [done| |].
  - cbn [g_exec set_g_exec buf_header mem set_mem]. rewrite ld32_st32_ne by lia. rewrite ld32_st32, !u32_small by (rewrite ?u32_small; lia). done.
  - cbn [g_exec set_g_exec buf_header mem set_mem]. rewrite ld32_st32. replace (ptr + ASYNCIFY_BUF_SIZE) with (memory_size (g_exec c)) by (unfold ptr, ASYNCIFY_BUF_SIZE; lia).
    rewrite (u32_small (memory_size _)) by lia. apply u32_small. lia.
Qed.
End Props.
