(* ===== verification/ForkFail.v ===== *)
(** Fork when the host refuses something: what the pump gives back and what it
    leaks, what becomes of the parent, and of a child whose thread cannot load
    its module. *)
From S2P Require Import Prelude Memory Ctx CString Vm VmProps Runtime ProcTable Fixtures ProcProps FdTable Env Snapshot Fork ForkProps ForkThms.

(** * The ledger *)

Definition weight (r : resource) (o : host_op) : Z :=
  match o with Acquire s => if decide (s = r) then 1 else 0 | Release s => if decide (s = r) then -1 else 0 end.
Definition net (r : resource) (ops : list host_op) : Z := foldr (fun o z => weight r o + z) 0 ops.

Lemma net_app r l l' : net r (l ++ l') = net r l + net r l'.
Proof. unfold net. induction l as [|o l IH]; [done|]. cbn [app foldr]. rewrite IH. lia. Qed.

Lemma net_cons r o l : net r (o :: l) = weight r o + net r l.
Proof. done. Qed.

Lemma net_flat_map {A} r (f : A -> list host_op) l : net r (flat_map f l) = foldr (fun a z => net r (f a) + z) 0 l.
Proof. induction l as [|a l IH]; [done|]. cbn [flat_map foldr]. by rewrite net_app, IH. Qed.

Lemma foldr_opposite {A} (f g : A -> Z) l :
  (forall a, a ∈ l -> f a + g a = 0) -> foldr (fun a z => f a + z) 0 l + foldr (fun a z => g a + z) 0 l = 0.
Proof.
  induction l as [|a l IH]; intros H; [done|]. simpl. pose proof (H a ltac:(by left)).
  assert (foldr (fun a z => f a + z) 0 l + foldr (fun a z => g a + z) 0 l = 0) by (apply IH; intros b Hb; apply H; by right). lia.
Qed.

Lemma foldr_map {A B} (h : A -> B) (f : B -> Z) l : foldr (fun b z => f b + z) 0 (map h l) = foldr (fun a z => f (h a) + z) 0 l.
Proof. induction l as [|a l IH]; [done|]. simpl. by rewrite IH. Qed.

Section Ledger.
Context {guest : Type} `{!Asyncify guest}.
Implicit Types (w : fork_world guest) (x : fork_ext guest).

Lemma dup_fds_balance r fds :
  net r (dup_ops fds) + net r (flat_map (fun h => if 0 <=? h then [Release (Dup_fd h)] else []) fds) = 0.
Proof.
  unfold dup_ops. rewrite !net_flat_map. apply foldr_opposite. intros h _. destruct (0 <=? h); [|done]. simpl. case_decide; lia.
Qed.

(** A stream that was copied holds one descriptor, through itself. *)
Lemma dup_file_balance r a i fp mode :
  net r (dup_file a i fp mode).2 + net r (if (dup_file a i fp mode).1 =? 0 then [] else [Release (Dup_stream (dup_file a i fp mode).1)]) = 0.
Proof.
  unfold dup_file. destruct (fp =? 0); [done|]. destruct (pa_fileno a fp <? 0); [done|]. cbv zeta.
  set (ch := if pa_dup_file _ _ _ _ <? 0 then _ else _). destruct (ch <? 0); [done|].
  destruct (pa_fdopen a i ch (file_mode mode) =? 0) eqn:E; cbn [fst snd]; [simpl; case_decide; lia|].
  rewrite E. simpl. repeat case_decide; lia.
Qed.

Lemma dup_files_balance r a x slots :
  net r (flat_map snd (dup_files a x slots)) +
  net r (flat_map (fun fp => if fp =? 0 then [] else [Release (Dup_stream fp)]) (map fst (dup_files a x slots))) = 0.
Proof.
  rewrite !net_flat_map, foldr_map. apply foldr_opposite. intros q Hq. unfold dup_files in Hq.
  apply elem_of_lookup_imap in Hq as (i & fp & -> & _). apply dup_file_balance.
Qed.

(** What the copies took is what [release_parent_dups] gives back. *)
Lemma release_balance r a page src_addr c x g child :
  let fa := make_arg a page src_addr c x g child in
  net r (dup_ops (fa_fd_map fa)) + net r (flat_map snd (dup_files a x (file_slots c))) + net r (release_parent_dups fa) = 0.
Proof.
  intros fa. unfold release_parent_dups. rewrite net_app. pose proof (dup_fds_balance r (fa_fd_map fa)).
  pose proof (dup_files_balance r a x (file_slots c)). change (fa_dup_fps fa) with (map fst (dup_files a x (file_slots c))). lia.
Qed.

Lemma free_child_dead rt P : table_ok rt -> ~ live (free_child P rt) P.
Proof.
  intros T (i & p & Hp & Hf & He). unfold free_child in Hp. destruct (yos_proc_find rt P) as [k|] eqn:E.
  - destruct (decide (i = k)) as [->|Hne].
    + rewrite lookup_upd_proc in Hp. destruct (procs rt !! k); simplify_eq/=.
    + rewrite lookup_upd_proc_ne in Hp by done. pose proof (find_live rt i p T Hp Hf) as E2. rewrite He in E2. congruence.
  - pose proof (find_live rt i p T Hp Hf) as E2. rewrite He in E2. congruence.
Qed.

Lemma net_singleton r o : net r [o] = weight r o.
Proof. unfold net. simpl. lia. Qed.

(** * Properties *)

(** a round of the pump that fails frees the child's slot and gives back all
    it took from the host, except that a failing pthread_create leaks the copy
    of the module; but the parent is left in the normal state with its stack
    unwound, and nothing resumes it: fork never returns. *)
Theorem pump_failure_abandons_parent `{!AsyncifyLaws guest} page src_addr w ci a c x g w' :
  table_ok (w_rt w) -> ctxs (w_rt w) !! ci = Some c -> w_ext w !! ci = Some x -> x_guest x = Some g -> 0 <= get_asyncify_state g ->
  fork_round page src_addr w ci a = Pump_returned w' ->
  (forall r, net r (w_ops w') = net r (w_ops w) +
     if decide (r = Bytes_copy) then
       (if pa_mmap a && pa_arg a && pa_globals a && pa_bytes a && bool_decide (is_Some (yos_proc_find (w_rt w) (fork_return x))) then 1 else 0)
     else 0) /\
  ~ live (w_rt w') (fork_return x) /\ settled w' ci /\ w_spawned w' = w_spawned w.
Proof.
  intros T Hc Hx Hg Hst. unfold fork_round. rewrite Hc, Hx, Hg. cbv zeta.
  set (w1 := upd_ext ci _ w). assert (H1 : settled w1 ci).
  { exists (set_x_guest (asyncify_stop_unwind g) (set_fork_pending false x)), (asyncify_stop_unwind g). unfold w1. rewrite ext_upd, Hx.
    split_and!; [done|done|by apply stop_unwind_state|done]. }
  assert (Hfail : forall ops d, Pump_returned (upd_rt (free_child (fork_return x)) (do_ops ops w1)) = Pump_returned w' ->
    (forall r, net r ops = if decide (r = Bytes_copy) then d else 0) ->
    (forall r, net r (w_ops w') = net r (w_ops w) + if decide (r = Bytes_copy) then d else 0) /\
    ~ live (w_rt w') (fork_return x) /\ settled w' ci /\ w_spawned w' = w_spawned w).
  { intros ops d [= <-] Hn. split_and!; [|by apply free_child_dead|exact H1|done].
    intros r. cbn [w_ops upd_rt do_ops]. by rewrite net_app, Hn. }
  assert (Hz : forall r, (if decide (r = Bytes_copy) then 0 else 0) = 0) by (intros; by case_decide).
  destruct (pa_mmap a); cbn [negb andb]; [|intros E; apply (Hfail [] 0 E); intros r; by rewrite Hz].
  destruct (pa_arg a); cbn [negb andb]; [|intros E; eapply Hfail; [exact E|]; intros r; rewrite Hz; cbn [net foldr weight]; repeat case_decide; lia].
  destruct (pa_globals a); cbn [negb andb]; [|intros E; eapply Hfail; [exact E|]; intros r; rewrite Hz; cbn [net foldr weight]; repeat case_decide; lia].
  change (yos_proc_find (w_rt w1) (fork_return x)) with (yos_proc_find (w_rt w) (fork_return x)).
  destruct (yos_proc_find (w_rt w) (fork_return x)) as [child|] eqn:Ef.
  - destruct (pa_bytes a); cbn [negb andb];
      [|intros E; eapply Hfail; [exact E|]; intros r; rewrite Hz; cbn [app net foldr weight]; repeat case_decide; lia].
    destruct (negb (pa_create a =? 0)); [|done]. intros [= <-]. split_and!; [| |exact H1|done].
    + intros r. cbn [w_ops upd_rt do_ops]. pose proof (release_balance r a page src_addr c x (asyncify_stop_unwind g) child) as Hb. cbv zeta in Hb.
      set (fa := make_arg _ _ _ _ _ _ _) in *. change (w_ops w1) with (w_ops w). change (fa_fd_map fa) with (dup_fds a (fd_map c)) in *.
      rewrite bool_decide_eq_true_2 by done. rewrite !net_app. cbn [app]. rewrite !net_cons, !net_app. revert Hb. generalize (net r (dup_ops (dup_fds a (fd_map c)))), (net r (flat_map snd (dup_files a x (file_slots c)))), (net r (release_parent_dups fa)).
      intros n1 n2 n3 Hb. cbn [net foldr weight]. repeat case_decide; try congruence; lia.
    + intros Hl. apply (free_child_dead (w_rt w) (fork_return x) T). revert Hl. unfold free_child. rewrite Ef.
      intros (i & p & Hp & Hf & He). exists i, p. split; [|done]. rewrite <-Hp. unfold w1. cbn [w_rt upd_rt do_ops upd_ext].
      unfold upd_proc. cbn [procs set_procs]. rewrite (alter_alter (set_state YOS_PROC_FREE)). done.
  - intros [= <-]. split_and!; [| |exact H1|done].
    + intros r. cbn [w_ops do_ops]. rewrite net_app, bool_decide_eq_false_2 by (intros [? ?]; done). rewrite andb_false_r, Hz.
      change (w_ops w1) with (w_ops w). cbn [app net foldr weight]. repeat case_decide; try congruence; lia.
    + intros Hl. apply (free_child_dead (w_rt w) (fork_return x) T). unfold free_child. by rewrite Ef.
Qed.
End Ledger.

(** * The child's side *)

Section Stranded.
Context {guest : Type} `{!Asyncify guest}.
Implicit Types (w : fork_world guest) (fa : fork_arg) (b : boot_answers guest).

(** A wait for a process that stays alive does not end. *)
Lemma wait_asleep rt ci pp P a n :
  find_zombie_child rt pp P = None -> wait_loop (replicate n id) rt ci pp P a = None.
Proof. intros H. induction n as [|n IH]; cbn [replicate wait_loop]; by rewrite H. Qed.

Lemma boot_failed_slot w fa b w' p :
  fork_thread_boot w fa b = (false, w') -> procs (w_rt w) !! fa_proc fa = Some p ->
  exists p', procs (w_rt w') !! fa_proc fa = Some p' /\ state p' = state p /\ pid p' = pid p /\ ppid p' = ppid p /\
    ctxs (w_rt w') = ctxs (w_rt w) /\ (forall j, j <> fa_proc fa -> procs (w_rt w') !! j = procs (w_rt w) !! j) /\
    tame (w_rt w) (w_rt w') /\
    (ba_runtime b = true -> ba_ctx b = true -> ctx_handle p' = Some (length (ctxs (w_rt w)))).
Proof.
  unfold fork_thread_boot. intros H Hp. destruct (ba_runtime b); cbn [negb] in H.
  2: { injection H as <-. exists p. split_and!; try done. }
  destruct (ba_ctx b); cbn [negb] in H.
  2: { injection H as <-. exists p. split_and!; try done. }
  destruct (negb (ba_parse b && ba_load b)); [|done]. injection H as <-. cbn [w_rt do_ops upd_rt].
  eexists. split; [rewrite lookup_upd_proc, Hp; done|]. split_and!; try done.
  - intros j Hj. by rewrite lookup_upd_proc_ne.
  - apply tame_upd_proc. intros q _. split; [done|apply state_le_refl].
Qed.

(** When the child's thread cannot set up its runtime or load the module it
    goes away without touching the process table: the child is a running
    process for good, and the parent's waitpid for it never returns, however
    long it sleeps; after a failed load the table also names a context that was
    freed. *)
Theorem boot_failure_strands_parent h2g w fa b w' ci me p n a opt :
  table_ok (w_rt w) -> my_proc (w_rt w) ci = Some me -> slot_of (w_rt w) ci <> Some (fa_proc fa) ->
  procs (w_rt w) !! fa_proc fa = Some p -> state p = YOS_PROC_RUNNING -> ppid p = pid me -> Z.land opt WNOHANG = 0 ->
  fork_thread_boot w fa b = (false, w') ->
  (exists p', procs (w_rt w') !! fa_proc fa = Some p' /\ state p' = YOS_PROC_RUNNING /\ pid p' = pid p /\
     (ba_runtime b = true -> ba_ctx b = true -> exists k, ctx_handle p' = Some k /\ ctxs (w_rt w') !! k = None)) /\
  yos_waitpid h2g (replicate n id) (w_rt w') ci (pid p) a opt = None.
Proof.
  intros T Hme Hne Hp Hst Hpp Hopt Hboot. destruct (boot_failed_slot w fa b w' p Hboot Hp) as (p' & Hp' & S' & P' & PP' & C' & O' & Tm & Hh).
  assert (T' : table_ok (w_rt w')) by (by eapply tame_ok). assert (Hf : is_free p' = false) by (apply is_free_spec; rewrite S', Hst; done).
  split.
  - exists p'. split_and!; [done|congruence|done|]. intros B1 B2. exists (length (ctxs (w_rt w))). split; [by apply Hh|].
    rewrite C'. by apply lookup_ge_None.
  - assert (Hme' : my_proc (w_rt w') ci = Some me).
    { unfold my_proc, slot_of in *. rewrite C'. destruct (ctxs (w_rt w) !! ci) as [c|]; [|done]. destruct (g_proc c) as [s|]; [|done].
      rewrite O' by congruence. done. }
    assert (Hnz : find_zombie_child (w_rt w') (pid me) (pid p) = None).
    { unfold find_zombie_child. apply find_slot_None. apply Forall_forall. intros q Hq. apply list_elem_of_lookup in Hq as (i & Hq).
      destruct (is_zombie q && (ppid q =? pid me) && pid_matches (pid p) q) eqn:E; [|done]. exfalso.
      rewrite !andb_true_iff in E. destruct E as [[Hz _] Hm]. pose proof (to_range _ T' _ _ Hp' Hf) as Hr.
      unfold pid_matches in Hm. destruct (Z.eqb_spec (pid p) (-1)); [lia|]. cbn [orb] in Hm. apply Z.eqb_eq in Hm.
      unfold is_zombie in Hz. apply bool_decide_eq_true in Hz.
      assert (i = fa_proc fa) as -> by (eapply (to_unique _ T'); [done|done|apply is_free_spec; rewrite Hz; done|done|congruence]).
      rewrite Hp' in Hq. injection Hq as <-. congruence. }
    unfold yos_waitpid. rewrite Hme'. assert (Hhas : has_children (w_rt w') (pid me) (pid p) = true).
    { destruct (has_children (w_rt w') (pid me) (pid p)) eqn:E; [done|]. rewrite has_children_false in E.
      specialize (E _ p' Hp' Hf ltac:(congruence)). rewrite <-P', pid_matches_self in E. done. }
    rewrite Hhas, Hnz, Hopt. cbn [negb Z.eqb]. by apply wait_asleep.
Qed.
End Stranded.

(** * A concrete case *)

(** A toy guest and a host that grants everything, or refuses one thing: each
    theorem about fork at a concrete system. *)

(** The state of Asyncify, and the other globals. *)
Record toy : Type := Toy { toy_state : Z; toy_globals : list Z }.

#[export] Instance toy_asyncify : Asyncify toy := {
  get_asyncify_state := toy_state;
  asyncify_start_unwind _ g := Toy 1 (toy_globals g);
  asyncify_stop_unwind g := Toy 0 (toy_globals g);
  asyncify_start_rewind _ g := Toy 2 (toy_globals g);
  asyncify_stop_rewind g := Toy 0 (toy_globals g);
  wasm_globals := toy_globals;
  restore_globals gs g := Toy (toy_state g) gs
}.

#[export] Instance toy_laws : AsyncifyLaws toy.
Proof. by split. Qed.

Definition no_inherited : inherited := Inherited [] None [] [] [] true 18 0 false (-1) (-1).
Definition toy_ext : fork_ext toy := ForkExt (Some (Toy 0 [7; 8])) 0 false 0 [-1; 5] [[]; []] no_inherited.
Definition toy_world : fork_world toy := FW demo [toy_ext; toy_ext; toy_ext] [] [].

(** Descriptors are duplicated at 100 and above; descriptor 7 is close-on-exec. *)
Definition toy_answers : pump_answers :=
  PumpAnswers true true (Some (replicate 15 false)) true true (fun h => if h =? 7 then 1 else 0) (fun i _ _ => 100 + Z.of_nat i)
    (fun _ => 7) (fun i _ _ => 200 + Z.of_nat i) (fun i _ _ => 8192 + Z.of_nat i) 0.
Definition toy_boot : boot_answers toy := BootAnswers true true true true (Toy 0 [0; 0]) (fun _ => 0) 65536.
Definition unwound_toy : toy := Toy 1 [7; 9].

Lemma toy_can_fork : can_fork toy_world 1 demo_shell_ctx toy_ext (Toy 0 [7; 8]) 1 demo_shell.
Proof. split; try done; [exact demo_ok|by exists 4%nat, demo_free]. Qed.

Lemma toy_granted : all_granted toy_answers.
Proof. done. Qed.

Lemma toy_loads : loads toy_boot.
Proof. done. Qed.

Lemma toy_snapshot : snapshot_answers 12 16 demo_exec toy_answers.
Proof. split; try done. by intros v [= <-]. Qed.

Lemma toy_quiet : quiet_pages 12 16 demo_exec toy_answers (fun _ => 0).
Proof.
  eexists. split; [reflexivity|]. intros p Hp Hl. split; [|done]. unfold in_snapshot in Hl. apply orb_false_elim in Hl as [Hl _].
  apply orb_false_elim in Hl as [Hl _]. apply between_false in Hl. change (head_len (2 ^ 12) 16 (memory_size demo_exec)) with 4080 in Hl.
  unfold demo_exec, st32. cbn [mem]. rewrite !(proj2 (Z.eqb_neq p _)) by lia. done.
Qed.

(** * Witnesses *)

Lemma fork_returns_twice_witness :
  exists w3 : fork_world toy, fork_steps 4096 16 toy_world 1 demo_exec unwound_toy toy_answers toy_boot w3 /\
    (yos_fork w3 1).1 = 5 /\ (yos_fork w3 3).1 = 0.
Proof.
  destruct (fork_returns_twice 4096 16 toy_world 1 demo_shell_ctx toy_ext (Toy 0 [7; 8]) 1 demo_shell demo_exec unwound_toy toy_answers toy_boot
    toy_can_fork ltac:(cbn; lia) toy_granted toy_loads) as (w3 & child & p & H1 & H2 & _ & H3 & _).
  exists w3. split; [exact H1|]. split; [exact H2|exact H3].
Defined.

(** The run of the three steps, computed. *)
Definition toy_unwinding : fork_world toy := unwound 1 demo_exec unwound_toy (yos_fork toy_world 1).2.
Definition toy_pumped : fork_world toy := pump_world (fork_round 4096 16 toy_unwinding 1 toy_answers).
Definition toy_arg : fork_arg := thread_arg 4096 16 toy_answers demo_shell_ctx toy_ext demo_exec unwound_toy 4.
Definition toy_forked : fork_world toy := (fork_thread_boot toy_pumped toy_arg toy_boot).2.

Lemma toy_steps : fork_steps (2 ^ 12) 16 toy_world 1 demo_exec unwound_toy toy_answers toy_boot toy_forked.
Proof.
  exists 5, (yos_fork toy_world 1).2, toy_pumped, toy_arg. split_and!; try reflexivity.
Qed.

(** The parent stored 9 at 20000, and mincore fails. *)
Definition noted_exec : exec_ctx := set_mem (st8 (mem demo_exec) 20000 9) demo_exec.
Definition blind_answers : pump_answers :=
  PumpAnswers true true None true true (pa_getfd toy_answers) (pa_dup toy_answers)
    (fun _ => 7) (fun i _ _ => 200 + Z.of_nat i) (fun i _ _ => 8192 + Z.of_nat i) 0.
Definition blind_forked : fork_world toy :=
  (fork_thread_boot (pump_world (fork_round 4096 16 (unwound 1 noted_exec unwound_toy (yos_fork toy_world 1).2) 1 blind_answers))
     (thread_arg 4096 16 blind_answers demo_shell_ctx toy_ext noted_exec unwound_toy 4) toy_boot).2.

Lemma blind_steps : fork_steps (2 ^ 12) 16 toy_world 1 noted_exec unwound_toy blind_answers toy_boot blind_forked.
Proof.
  exists 5, (yos_fork toy_world 1).2, (pump_world (fork_round 4096 16 (unwound 1 noted_exec unwound_toy (yos_fork toy_world 1).2) 1 blind_answers)),
    (thread_arg 4096 16 blind_answers demo_shell_ctx toy_ext noted_exec unwound_toy 4). split_and!; reflexivity.
Qed.

Lemma fork_child_inherits_witness :
  (exists cc, ctxs (w_rt toy_forked) !! 3%nat = Some cc /\ (forall p, 0 <= p < 65536 -> mem (g_exec cc) p = mem demo_exec p) /\
    sig_handlers cc = demo_handlers /\ fd_map cc !! 3%nat = Some 103 /\ dup_cmd (pa_getfd toy_answers 7) = F_DUPFD_CLOEXEC) /\
  exists cc, ctxs (w_rt blind_forked) !! 3%nat = Some cc /\ mem noted_exec 20000 = 9 /\ mem (g_exec cc) 20000 = 0.
Proof.
  split.
  - destruct (fork_child_inherits 12 16 toy_world 1 demo_shell_ctx toy_ext (Toy 0 [7; 8]) 1 demo_shell demo_exec unwound_toy toy_answers toy_boot
      toy_forked toy_can_fork ltac:(cbn; lia) toy_granted toy_loads toy_snapshot toy_steps)
      as (cc & xx & H1 & _ & H2 & _ & _ & _ & _ & _ & _ & _ & H3 & _ & _ & _ & _ & _ & H4).
    exists cc. split; [exact H1|]. split; [intros p Hp; exact (proj2 (H2 ltac:(cbn; lia) p Hp) toy_quiet)|]. split; [exact H3|].
    destruct (H4 3%nat 7 eq_refl) as [H5 H6].
    split; [exact H5|]. apply H6. split; [discriminate|reflexivity].
  - destruct (fork_child_inherits 12 16 toy_world 1 demo_shell_ctx toy_ext (Toy 0 [7; 8]) 1 demo_shell noted_exec unwound_toy blind_answers toy_boot
      blind_forked toy_can_fork ltac:(cbn; lia) ltac:(done) toy_loads ltac:(by split) blind_steps) as (cc & xx & H1 & _ & H2 & _).
    exists cc. split; [exact H1|]. split; [reflexivity|]. rewrite (proj1 (H2 ltac:(cbn; lia) 20000 ltac:(cbn; lia))).
    vm_compute. reflexivity.
Defined.

(** The parent holds a mapping of a page at 32768. *)
Definition mapped_exec : exec_ctx := set_live_list [Region 32768 4096] demo_exec.
Definition mapped_forked : fork_world toy :=
  (fork_thread_boot (pump_world (fork_round 4096 16 (unwound 1 mapped_exec unwound_toy (yos_fork toy_world 1).2) 1 toy_answers))
     (thread_arg 4096 16 toy_answers demo_shell_ctx toy_ext mapped_exec unwound_toy 4) toy_boot).2.

Lemma fork_child_keeps_mappings_witness :
  in_regions 32768 (live_list mapped_exec) /\
  exists cc, ctxs (w_rt mapped_forked) !! 3%nat = Some cc /\ yos_munmap (g_exec cc) 32768 4096 = (0, g_exec cc).
Proof.
  split; [exists (Region 32768 4096); split; [by left|split; [discriminate|reflexivity]]|].
  destruct (fork_child_keeps_mappings 4096 16 toy_world 1 demo_shell_ctx toy_ext (Toy 0 [7; 8]) 1 demo_shell mapped_exec unwound_toy toy_answers toy_boot
    mapped_forked toy_can_fork ltac:(cbn; lia) toy_granted toy_loads) as (cc & H1 & _ & H2).
  - exists 5, (yos_fork toy_world 1).2, (pump_world (fork_round 4096 16 (unwound 1 mapped_exec unwound_toy (yos_fork toy_world 1).2) 1 toy_answers)),
      (thread_arg 4096 16 toy_answers demo_shell_ctx toy_ext mapped_exec unwound_toy 4). split_and!; reflexivity.
  - exists cc. split; [exact H1|]. destruct (H2 32768 4096) as [H3 H4].
    assert (Hs : memory_size (g_exec cc) = 65536) by (vm_compute in H1; injection H1 as <-; reflexivity).
    rewrite (surjective_pairing (yos_munmap (g_exec cc) 32768 4096)), H3, H4; [reflexivity|reflexivity|rewrite Hs; discriminate|lia].
Defined.

(** A guest whose first anonymous mapping took the upper half of its memory. *)
Definition top_exec : exec_ctx := (yos_mmap2 demo_exec 0 32768 3 34 (-1) 0).2.
Definition top_ctx : yos_ctx := set_g_exec top_exec demo_shell_ctx.
Definition top_world : fork_world toy := FW (set_ctxs [demo_ctx 0 (replicate 32 0) 0 0; top_ctx] demo) [toy_ext; toy_ext] [] [].

Lemma fork_overwrites_top_mapping_witness :
  in_regions 49152 (live_list top_exec) /\ ld32 (mem top_exec) 49152 = 0 /\
  exists c', ctxs (w_rt (yos_fork top_world 1).2) !! 1%nat = Some c' /\ in_regions 49152 (live_list (g_exec c')) /\ ld32 (mem (g_exec c')) 49152 = 49160.
Proof.
  assert (Hin : in_regions 49152 (live_list top_exec)).
  { exists (Region 32768 32768). split; [vm_compute; by left|split; [discriminate|reflexivity]]. }
  split; [exact Hin|]. split; [vm_compute; reflexivity|].
  destruct (fork_overwrites_top_mapping top_world 1 top_ctx toy_ext (Toy 0 [7; 8]) 1 demo_shell) as (c' & H1 & H2 & H3 & _).
  - split; try done; [|by exists 4%nat, demo_free]. apply (tame_ok demo); [by apply tame_procs|exact demo_ok].
  - reflexivity.
  - vm_compute. split; [discriminate|reflexivity].
  - exact Hin.
  - exists c'. split; [exact H1|]. split; [rewrite H2; exact Hin|exact H3].
Defined.

(** The host cannot start a thread. *)
Definition no_thread : pump_answers :=
  PumpAnswers true true (Some (replicate 15 false)) true true (fun _ => 0) (fun i _ _ => 100 + Z.of_nat i) (fun _ => 7) (fun i _ _ => 200 + Z.of_nat i)
    (fun i _ _ => 8192 + Z.of_nat i) 11.

Lemma pump_failure_abandons_parent_witness :
  exists w' : fork_world toy, fork_round 4096 16 toy_unwinding 1 no_thread = Pump_returned w' /\ net Bytes_copy (w_ops w') = 1 /\ settled w' 1.
Proof.
  exists (pump_world (fork_round 4096 16 toy_unwinding 1 no_thread)). split; [reflexivity|].
  destruct (first_call toy_world 1 demo_shell_ctx toy_ext (Toy 0 [7; 8]) 1 demo_shell toy_can_fork) as (w1 & child & E & Hun).
  assert (T : table_ok (w_rt toy_unwinding)).
  { apply (tame_ok (w_rt (yos_fork toy_world 1).2)); [by apply tame_procs|]. rewrite E. exact (un_table _ _ _ _ _ _ _ Hun). }
  assert (Hg : 0 <= get_asyncify_state unwound_toy) by (change (0 <= 1); lia).
  destruct (pump_failure_abandons_parent 4096 16 toy_unwinding 1 no_thread (set_g_exec demo_exec demo_shell_ctx)
    (set_x_guest unwound_toy (set_fork_pending true (set_fork_return 5 (set_asyncify_ptr 49152 toy_ext)))) unwound_toy
    (pump_world (fork_round 4096 16 toy_unwinding 1 no_thread)) T eq_refl eq_refl eq_refl Hg eq_refl) as (H1 & _ & H2 & _).
  split; [|exact H2]. rewrite (H1 Bytes_copy). vm_compute. reflexivity.
Defined.

(** The module of the child cannot be loaded; its parent is the shell. *)
Definition no_load : boot_answers toy := BootAnswers true true true false (Toy 0 [0; 0]) (fun _ => 0) 65536.

Lemma boot_failure_strands_parent_witness :
  yos_waitpid id (replicate 1000 id) (w_rt (fork_thread_boot toy_pumped toy_arg no_load).2) 1 5 0 0 = None.
Proof.
  assert (T : table_ok (w_rt toy_pumped)).
  { destruct (first_call toy_world 1 demo_shell_ctx toy_ext (Toy 0 [7; 8]) 1 demo_shell toy_can_fork) as (w1 & child & E & Hun).
    destruct (second_step 4096 16 toy_world 1 demo_shell_ctx toy_ext (Toy 0 [7; 8]) 1 demo_shell w1 child demo_exec unwound_toy toy_answers
      toy_can_fork Hun ltac:(cbn; lia) toy_granted) as (w2 & E2 & _ & _ & _ & T & _).
    unfold toy_pumped, toy_unwinding. rewrite E. cbn [snd]. rewrite E2. exact T. }
  apply (boot_failure_strands_parent id toy_pumped toy_arg no_load _ 1 demo_shell
    (set_state YOS_PROC_RUNNING (forked_proc demo_shell 5)) 1000 0 0 T); try reflexivity.
  vm_compute. discriminate.
Defined.
