(* ===== verification/Exec.v ===== *)
(** Execve (src/src/yos/impl/proc/proc.c): the checks of the guest's vectors,
    the choice of the image (a wasm module, a script, or a module found along
    PATH), the request handed to the host loop, and the loading of the new
    image, in the thread of a forked child and in the first process (main.c).

    The host's file system is a parameter, the same throughout a call; so are
    the platform's path translation, the allocations that may fail, and the
    module loader.  [None]: the code writes outside an allocation.  The build
    option YOS_ALLOW_HOST_EXEC is off, as it is by default; the names in the
    process table, the setjmp slots and the handles of iconv, libarchive and
    threads are left out. *)
From stdpp Require Import gmap.
From Stdlib Require Import Strings.String Strings.Ascii.
From S2P Require Import Prelude Memory Ctx CString Runtime ProcTable Path Env Fork.

Definition E2BIG : Z := 7.
Definition ENOEXEC : Z := 8.

(** * The host's files *)

(** [hf_access]: what [access(path, R_OK)] sets errno to, 0 on success;
    [hf_read]: the contents, if the file opens; [hf_mode]: the mode, if [stat]
    succeeds. *)
Record host_fs : Type := HostFs {
  hf_access : bytes -> Z;
  hf_read : bytes -> option bytes;
  hf_mode : bytes -> option Z
}.

Definition to_path (s : bytes) : path := map (fun b => ascii_of_N (Z.to_N b)) s.
Definition of_path (p : path) : bytes := map (fun a => Z.of_N (N_of_ascii a)) p.

(** * Scanning a line *)

(** What [fgets] stores, [n] bytes at most. *)
Fixpoint fgets (n : nat) (s : bytes) : bytes :=
  match n, s with
  | S k, b :: s' => b :: (if b =? 10 then [] else fgets k s')
  | _, _ => []
  end.

Definition blank (b : Z) : bool := (b =? 32) || (b =? 9).
Definition line_end (b : Z) : bool := (b =? 10) || (b =? 13).
Definition trim_end (s : bytes) : bytes := rev (snd (span blank (rev s))).

Definition check_wasm_magic (fs : host_fs) (p : bytes) : bool :=
  match hf_read fs p with
  | Some (b0 :: b1 :: b2 :: b3 :: _) => (b0 =? 0) && (b1 =? 97) && (b2 =? 115) && (b3 =? 109)
  | _ => false
  end.

(** The interpreter and its argument, empty when there is none. *)
Definition shebang_line (line : bytes) : option (bytes * bytes) :=
  match line with
  | b0 :: b1 :: p =>
      if (b0 =? 35) && (b1 =? 33) then
        let '(interp, p2) := span (fun b => negb (blank b || line_end b)) (snd (span blank p)) in
        if (blen interp =? 0) || (PATH_MAX <=? blen interp) then None
        else
          let arg := trim_end (fst (span (fun b => negb (line_end b)) (snd (span blank p2)))) in
          Some (interp, if blen arg <? PATH_MAX then arg else [])
      else None
  | _ => None
  end.

Definition parse_shebang (fs : host_fs) (p : bytes) : option (bytes * bytes) :=
  match hf_read fs p with
  | Some contents => match fgets 255 contents with [] => None | l => shebang_line (c_str l) end
  | None => None
  end.

(** * The search along PATH *)

Definition COLON : Z := 58.
Definition SLASH : Z := 47.
Definition S_IFREG : Z := 32768.

Definition has_prefix (pre s : bytes) : bool := bool_decide (take (length pre) s = pre).
Definition guest_PATH (envp : option (list bytes)) : bytes :=
  match envp with
  | Some l => match List.find (has_prefix (lit "PATH="%string)) l with Some s => drop 5 s | None => [] end
  | None => []
  end.

Definition join_component (comp file : bytes) : bytes := match comp with [] => file | _ => comp ++ SLASH :: file end.
Definition regular (fs : host_fs) (p : bytes) : bool :=
  match hf_mode fs p with Some mode => negb (Z.land mode S_IFREG =? 0) | None => false end.

(** [fuel] bounds the number of components. *)
Fixpoint search_loop (fuel : nat) (fs : host_fs) (file p : bytes) : option bytes :=
  match fuel with
  | O => None
  | S f =>
      let '(comp, rest) := span (fun b => negb (b =? COLON)) p in
      let next := match rest with _ :: ((_ :: _) as p') => search_loop f fs file p' | _ => None end in
      if 4096 <? blen comp + 1 + blen file + 1 then next
      else
        let out := join_component comp file in
        if regular fs out then Some out else next
  end.

Definition execvp_path_search (fs : host_fs) (envp : option (list bytes)) (file : bytes) : option bytes :=
  let p := guest_PATH envp in search_loop (S (length p)) fs file p.

(** [strrchr(p, '/')]: what follows the last slash. *)
Definition after_slash (p : bytes) : option bytes :=
  if existsb (fun b => b =? SLASH) p then Some (rev (fst (span (fun b => negb (b =? SLASH)) (rev p)))) else None.

(** The module to run, and for a script the argument of its interpreter. *)
Definition find_image (fs : host_fs) (envp : option (list bytes)) (fn : bytes) : option (bytes * option bytes) :=
  let search (base : bytes) :=
    match execvp_path_search fs envp base with
    | Some r => if check_wasm_magic fs r then Some r else None
    | None => None
    end in
  if check_wasm_magic fs fn then Some (fn, None)
  else match parse_shebang fs fn with
       | Some (interp, arg) =>
           if check_wasm_magic fs interp then Some (interp, Some arg)
           else (fun r => (r, Some arg)) <$> search (default interp (after_slash interp))
       | None =>
           match after_slash fn with
           | Some (b :: base) => (fun r => (r, None)) <$> search (b :: base)
           | _ => None
           end
       end.

(** * The guest's vectors *)

(** The slots from the [n]-th on; [k] of them may still hold a string. *)
Fixpoint read_vec (k : nat) (c : exec_ctx) (ptr n : Z) : list bytes + Z :=
  let slot_off := ptr + n * 4 in
  if memory_size c <? slot_off + 4 then inr EFAULT
  else
    let entry := ld32 (mem c) (u32 slot_off) in
    if entry =? 0 then inl []
    else match k with
         | O => inr E2BIG
         | S k' =>
             match wstr_check c entry with
             | None => inr EFAULT
             | Some s => match read_vec k' c ptr (n + 1) with inl l => inl (s :: l) | inr e => inr e end
             end
         end.

(** [orig_argc > 1024] and [env_count > 4096] refuse an entry. *)
Definition read_argv (c : exec_ctx) (ptr : Z) : list bytes + Z := read_vec 1025 c ptr 0.
Definition read_envp (c : exec_ctx) (ptr : Z) : list bytes + Z :=
  if memory_size c <=? ptr then inr EFAULT else read_vec 4097 c ptr 0.

(** * The request *)

Record exec_request : Type := ExecRequest { er_path : bytes; er_argv : list bytes; er_envp : option (list bytes) }.

(** The last attempt on a path that cannot be read: the path, and errno. *)
Record exec_failure : Type := ExecFailure { ef_path : bytes; ef_errno : Z }.

(** A process: its context, its arguments and environment, its directory, the
    flags of the host's open descriptors and the closes issued, and the fields
    that execve keeps for others. *)
Record exec_state : Type := ExecState {
  es_ctx : yos_ctx; es_argv : list bytes; es_envp : option (list bytes); es_cwd : path;
  es_env_store : list env_entry; es_env_initialised : bool;
  es_fdflags : gmap Z Z; es_closes : list Z;
  es_pending : option exec_request; es_failure : option exec_failure; es_stderr_written : bool
}.

Definition upd_es_ctx (f : yos_ctx -> yos_ctx) (s : exec_state) : exec_state :=
  ExecState (f (es_ctx s)) (es_argv s) (es_envp s) (es_cwd s) (es_env_store s) (es_env_initialised s) (es_fdflags s) (es_closes s)
    (es_pending s) (es_failure s) (es_stderr_written s).
Definition set_es_failure (v : exec_failure) (s : exec_state) : exec_state :=
  ExecState (es_ctx s) (es_argv s) (es_envp s) (es_cwd s) (es_env_store s) (es_env_initialised s) (es_fdflags s) (es_closes s)
    (es_pending s) (Some v) false.
Definition set_es_pending (v : option exec_request) (s : exec_state) : exec_state :=
  ExecState (es_ctx s) (es_argv s) (es_envp s) (es_cwd s) (es_env_store s) (es_env_initialised s) (es_fdflags s) (es_closes s)
    v (es_failure s) (es_stderr_written s).
Definition host_close (h : Z) (s : exec_state) : exec_state :=
  ExecState (es_ctx s) (es_argv s) (es_envp s) (es_cwd s) (es_env_store s) (es_env_initialised s) (delete h (es_fdflags s)) (es_closes s ++ [h])
    (es_pending s) (es_failure s) (es_stderr_written s).

Definition es_exec (s : exec_state) : exec_ctx := g_exec (es_ctx s).
Definition es_fds (s : exec_state) : list Z := fd_map (es_ctx s).

(** Signals: no handler, nothing pending; the mask and the ignored set stay. *)
Definition exec_signals (c : yos_ctx) : yos_ctx := set_sig_pending 0 (set_sig_handlers (replicate 32 0) c).

(** One slot of the closing loop. *)
Definition close_marked (s : exec_state) (i : nat) : exec_state :=
  let hfd := default (-1) (es_fds s !! i) in
  if hfd <? 0 then s
  else match es_fdflags s !! hfd with
       | Some flags =>
           if Z.land flags FD_CLOEXEC =? 0 then s
           else upd_es_ctx (fun c => set_fd_map (<[i := -1]> (fd_map c)) c) (host_close hfd s)
       | None => s
       end.
Definition close_on_exec (from : nat) (s : exec_state) : exec_state := foldl close_marked s (seq from (256 - from)).

Section Execve.

Variable remap_errno_h2g : Z -> Z.
Variable translate_path : path -> path.
Variable fs : host_fs.

(** Whether [malloc] of so many bytes succeeds. *)
Variable malloc_ok : Z -> bool.

Definition es_errno (s : exec_state) (e : Z) : Z * exec_state :=
  let '(r, x) := errno_neg remap_errno_h2g (es_exec s) e in (r, upd_es_ctx (set_g_exec x) s).

(** The path the host sees. *)
Definition exec_file (s : exec_state) (raw : bytes) : bytes :=
  of_path (clip (yos_path_resolve translate_path (es_cwd s) (to_path raw))).

(** The vector of the new image. *)
Definition exec_args (exec_path fn : bytes) (script : option bytes) (args : list bytes) : list bytes :=
  match script with
  | Some arg => exec_path :: (match arg with [] => [] | _ => [arg] end) ++ fn :: tl args
  | None => args
  end.
Definition exec_argc (script : option bytes) (args : list bytes) : Z :=
  match script with
  | Some arg => (match arg with [] => 1 | _ => 2 end) + Z.of_nat (length args)
  | None => Z.of_nat (length args)
  end.

Definition install (exec_path : bytes) (argv : list bytes) (envp : option (list bytes)) (s : exec_state) : exec_state :=
  close_on_exec 0 (set_es_pending (Some (ExecRequest exec_path argv envp)) (upd_es_ctx exec_signals s)).

Definition yos_execve (s : exec_state) (filename argv_ptr envp : Z) : option (Z * exec_state) :=
  match wstr_check (es_exec s) filename with
  | None => Some (es_errno s EFAULT)
  | Some raw =>
      let fn := exec_file s raw in
      if negb (hf_access fs fn =? 0) then
        Some (es_errno (set_es_failure (ExecFailure (take 255 fn) (hf_access fs fn)) s) (hf_access fs fn))
      else match find_image fs (es_envp s) fn with
           | None => Some (- ENOEXEC, s)
           | Some (exec_path, script) =>
               if argv_ptr =? 0 then Some (es_errno s EFAULT)
               else match read_argv (es_exec s) argv_ptr with
                    | inr e => Some (es_errno s e)
                    | inl args =>
                        if negb (malloc_ok ((exec_argc script args + 1) * 8)) then Some (es_errno s ENOMEM)
                        else
                          let host_argv := exec_args exec_path fn script args in
                          if exec_argc script args <? Z.of_nat (length host_argv) then None
                          else if envp =? 0 then Some (0, install exec_path host_argv None s)
                          else match read_envp (es_exec s) envp with
                               | inr e => Some (es_errno s e)
                               | inl envs =>
                                   if negb (malloc_ok ((Z.of_nat (length envs) + 1) * 8)) then Some (es_errno s ENOMEM)
                                   else Some (0, install exec_path host_argv (Some envs) s)
                               end
                    end
           end
  end.

Definition yos_execv (s : exec_state) (path_ argv_ptr : Z) : option (Z * exec_state) := yos_execve s path_ argv_ptr 0.

Definition yos_execvpe (s : exec_state) (file argv_ptr envp : Z) : option (Z * exec_state) :=
  match wstr_check (es_exec s) file with
  | None => Some (- EFAULT, s)
  | Some fn =>
      if existsb (fun b => b =? SLASH) fn then yos_execve s file argv_ptr envp
      else match execvp_path_search fs (es_envp s) fn with
           | None => Some (- ENOENT, s)
           | Some resolved =>
               let off := u32 (heap_end (es_exec s) + 1024) in
               if memory_size (es_exec s) <? off + 4096 then Some (- ENOMEM, s)
               else
                 let e := es_exec s in
                 yos_execve (upd_es_ctx (set_g_exec (set_mem (write_bytes (mem e) off (resolved ++ [0])) e)) s) off argv_ptr envp
           end
  end.
Definition yos_execvp (s : exec_state) (file argv_ptr : Z) : option (Z * exec_state) := yos_execvpe s file argv_ptr 0.

End Execve.

(** * Loading the image *)

(** What the host and the loader answer: whether the runtime could be made, the
    file read, the module parsed, loaded and its memory resized; the memory and
    its size, given the number of pages; the module's declarations. *)
Record load_answers : Type := LoadAnswers {
  la_runtime : bool; la_file : bool; la_parse : bool; la_load : bool; la_resize : bool;
  la_memory : Z -> memory * Z; la_heap_base : option Z; la_init_pages : Z; la_max_pages : Z
}.

(** [env_pages]: YOS_WASM_PAGES, when all of it is a number. *)
Definition resize_pages (env_pages : option Z) (init_pages max_pages : Z) : Z :=
  let p0 := match env_pages with Some v => if (0 <? v) && (v <=? 65536) then v else 4096 | None => 4096 end in
  let p1 := if (0 <? max_pages) && (max_pages <? p0) then max_pages else p0 in
  if p1 <? init_pages then init_pages else p1.

Definition image_heap_end (heap_base : option Z) : Z :=
  match heap_base with
  | Some v => let hb := Z.land (u32 (v + 15)) (Z.lnot 15) in if 327680 <? hb then hb else 327680
  | None => 327680
  end.

(** The thread pointer and the block it points at. *)
Definition init_tls (m : memory) : memory := memset (st32 m 0 256) 256 0 256.

Definition set_es_image (e : exec_ctx) (s : exec_state) : exec_state := upd_es_ctx (set_g_exec e) s.

(** The arguments, and the environment if there is one, become the image's. *)
Definition take_args (req : exec_request) (s : exec_state) : exec_state :=
  ExecState (es_ctx s) (er_argv req) (match er_envp req with Some l => Some l | None => es_envp s end) (es_cwd s)
    (es_env_store s) (es_env_initialised s) (es_fdflags s) (es_closes s) (es_pending s) (es_failure s) (es_stderr_written s).
Definition env_reset (s : exec_state) : exec_state :=
  ExecState (es_ctx s) (es_argv s) (es_envp s) (es_cwd s) [] false (es_fdflags s) (es_closes s)
    (es_pending s) (es_failure s) (es_stderr_written s).

(** In [fork_thread_func]; [None]: the process is marked dead instead. *)
Definition child_exec_load (env_pages : option Z) (a : load_answers) (s : exec_state) : option exec_state :=
  match es_pending s with
  | None => None
  | Some req =>
      let s1 := take_args req (env_reset s) in
      if la_runtime a && la_file a && la_parse a && la_load a then
        let '(m, size) := la_memory a (resize_pages env_pages (la_init_pages a) (la_max_pages a)) in
        let e := es_exec s1 in
        let e' := ExecCtx (init_tls m) size (image_heap_end (la_heap_base a)) 0 [] (live_list e) 0 0 0 (errno_off e) in
        Some (set_es_pending None (close_on_exec 3 (set_es_image e' s1)))
      else None
  end.

(** In [main]; [None]: the emulator exits with status 127. *)
Definition main_exec_load (env_pages : option Z) (a : load_answers) (s : exec_state) : option exec_state :=
  match es_pending s with
  | None => None
  | Some req =>
      let s1 := take_args req s in
      if la_file a && la_runtime a && la_parse a && la_load a && la_resize a then
        let '(m, size) := la_memory a (resize_pages env_pages (la_init_pages a) (la_max_pages a)) in
        Some (set_es_pending None (set_es_image (ExecCtx (init_tls m) size (image_heap_end (la_heap_base a)) 0 [] [] 0 0 0 264) s1))
      else None
  end.

(** The slot of a child whose image could not be loaded. *)
Definition exec_load_failed (slot : nat) (rt : yos_runtime) : yos_runtime :=
  upd_proc slot (fun p => set_exited true (set_exit_code 127 (set_state YOS_PROC_ZOMBIE p))) rt.
