(* ===== verification/ExecProps.v ===== *)
(** The parts of execve: the line of a script, the search along PATH, the
    guest's vectors, and the closing of marked descriptors. *)
From stdpp Require Import gmap.
From Stdlib Require Import Strings.String Strings.Ascii.
From S2P Require Import Prelude Memory Ctx CString Runtime ProcTable Path Env Fork Exec.

(** * Scanning *)

Lemma fgets_line n s rest :
  Forall (fun b => b <> 10) s -> (length s < n)%nat -> fgets n (s ++ 10 :: rest) = s ++ [10].
Proof.
  intros Hs. revert n. induction Hs as [|b s Hb Hs IH]; intros [|n] Hn; cbn in *; try lia; [done|].
  apply Z.eqb_neq in Hb as ->. by rewrite IH by lia.
Qed.

Lemma trim_end_app x y :
  Forall (fun b => blank b = true) y -> match last x with Some b => blank b = false | None => True end -> trim_end (x ++ y) = x.
Proof.
  intros Hy Hx. unfold trim_end. rewrite rev_app_distr, span_app.
  - cbn [snd]. apply rev_involutive.
  - by apply Forall_rev.
  - destruct x as [|b x _] using rev_ind; [done|]. rewrite last_snoc in Hx. by rewrite rev_unit.
Qed.

(** * Scripts *)

(** A word, and an argument: what a line of a script may hold. *)
Definition word (s : bytes) : Prop := s <> [] /\ Forall (fun b => blank b = false /\ line_end b = false /\ b <> 0) s.
Definition argument (s : bytes) : Prop :=
  Forall (fun b => line_end b = false /\ b <> 0) s /\
  match s with b :: _ => blank b = false | [] => True end /\ match last s with Some b => blank b = false | None => True end.

Definition shebang (lead interp gap arg trail : bytes) : bytes := 35 :: 33 :: lead ++ interp ++ gap ++ arg ++ trail.

Lemma blank_line_end b : blank b = true -> line_end b = false /\ b <> 0 /\ b <> 10.
Proof. unfold blank, line_end. destruct (Z.eqb_spec b 32), (Z.eqb_spec b 9); intros; simplify_eq/=; split_and!; done. Qed.

Lemma line_end_10 b : line_end b = false -> b <> 10.
Proof. unfold line_end. by destruct (Z.eqb_spec b 10). Qed.

Section Shebang.
Variables lead interp gap arg trail : bytes.
Hypothesis Hlead : Forall (fun b => blank b = true) lead.
Hypothesis Hinterp : word interp.
Hypothesis Hgap : Forall (fun b => blank b = true) gap.
Hypothesis Harg : argument arg.
Hypothesis Htrail : Forall (fun b => blank b = true) trail.
Hypothesis Hsep : arg <> [] -> gap <> [].

Lemma shebang_chars : Forall (fun b => b <> 0 /\ b <> 10) (shebang lead interp gap arg trail).
Proof using All.
  assert (Hb : forall s, Forall (fun b => blank b = true) s -> Forall (fun b => b <> 0 /\ b <> 10) s).
  { intros s Hs. eapply Forall_impl; [exact Hs|]. intros b Hb. apply blank_line_end in Hb. tauto. }
  destruct Hinterp as [_ Hi]. destruct Harg as [Ha _]. unfold shebang. do 2 (constructor; [done|]).
  rewrite !Forall_app. split_and!; auto.
  - eapply Forall_impl; [exact Hi|]. intros b (_ & H & H0). split; [done|by apply line_end_10].
  - eapply Forall_impl; [exact Ha|]. intros b (H & H0). split; [done|by apply line_end_10].
Qed.

Lemma gap_stops : match gap ++ arg ++ trail ++ [10] with b :: _ => negb (blank b || line_end b) = false | [] => True end.
Proof using All.
  destruct gap as [|b g]; cbn.
  - destruct arg as [|a x]; [|by destruct Hsep]. destruct trail as [|t y]; [done|]. cbn. apply Forall_cons in Htrail as [-> _]. done.
  - apply Forall_cons in Hgap as [-> _]. done.
Qed.

Lemma arg_starts : match arg ++ trail ++ [10] with b :: _ => blank b = false \/ arg = [] | [] => True end.
Proof using All. destruct Harg as (_ & H & _). destruct arg as [|b x]; cbn; [|by left]. destruct (trail ++ [10]); [done|by right]. Qed.

Lemma shebang_line_print :
  blen (shebang lead interp gap arg trail) < 255 -> shebang_line (shebang lead interp gap arg trail ++ [10]) = Some (interp, arg).
Proof using All.
  intros Hl. pose proof gap_stops as Hgs. destruct Hinterp as [Hne Hi]. destruct Harg as (Ha & Ha1 & Ha2).
  unfold shebang in *. rewrite !blen_cons, !blen_app in Hl. pose proof (blen_nonneg lead). pose proof (blen_nonneg gap).
  pose proof (blen_nonneg trail). pose proof (blen_nonneg arg).
  assert (0 < blen interp) by (unfold blen; destruct interp; [done|cbn; lia]).
  cbn [shebang_line app]. rewrite !Z.eqb_refl. cbn [andb]. rewrite <-!app_assoc.
  rewrite (span_app blank lead); [|done|].
  2:{ destruct interp as [|b i]; [done|]. apply Forall_cons in Hi as [[Hi _] _]. exact Hi. }
  cbn [snd]. rewrite span_app; [|eapply Forall_impl; [exact Hi|]; intros b (-> & -> & _); done|exact Hgs].
  destruct (Z.eqb_spec (blen interp) 0); [lia|]. unfold PATH_MAX. destruct (Z.leb_spec 4096 (blen interp)); [lia|]. cbn [orb].
  assert (Harg_line : trim_end (fst (span (fun b => negb (line_end b)) (snd (span blank (gap ++ arg ++ trail ++ [10]))))) = arg).
  { destruct arg as [|a x].
    - cbn [app]. rewrite (app_assoc gap trail). rewrite (span_app blank (gap ++ trail)); [done|by apply Forall_app|done].
    - rewrite span_app by done. cbn [snd]. rewrite (app_assoc (a :: x)). rewrite span_app; [cbn [fst]; by apply trim_end_app| |done].
      apply Forall_app. split; [eapply Forall_impl; [exact Ha|]; intros b [-> _]; done|].
      eapply Forall_impl; [exact Htrail|]. intros b Hb. apply blank_line_end in Hb as [-> _]. done. }
  rewrite Harg_line. destruct (Z.ltb_spec (blen arg) 4096); [done|lia].
Qed.
End Shebang.

(** ** Properties *)

(** a script whose first line is a hash-bang, an interpreter and at most one
    argument, with blanks around them and less than 255 bytes long, is read back
    as that interpreter and that argument. *)
Theorem shebang_roundtrip fs p lead interp gap arg trail rest :
  hf_read fs p = Some (shebang lead interp gap arg trail ++ 10 :: rest) ->
  Forall (fun b => blank b = true) lead -> word interp -> Forall (fun b => blank b = true) gap -> argument arg ->
  Forall (fun b => blank b = true) trail -> (arg <> [] -> gap <> []) -> blen (shebang lead interp gap arg trail) < 255 ->
  parse_shebang fs p = Some (interp, arg).
Proof.
  intros Hr Hl Hi Hg Ha Ht Hs Hlen. unfold parse_shebang. rewrite Hr.
  pose proof (shebang_chars lead interp gap arg trail Hl Hi Hg Ha Ht Hs) as Hc.
  rewrite fgets_line; [|eapply Forall_impl; [exact Hc|by intros b []]|unfold blen in Hlen; lia].
  change (shebang_line (c_str (shebang lead interp gap arg trail ++ [10])) = Some (interp, arg)).
  rewrite c_str_clean; [|apply Forall_app; split; [eapply Forall_impl; [exact Hc|by intros b []]|repeat constructor; discriminate]].
  by apply shebang_line_print.
Qed.

(** * The search along PATH *)

(** The components of a PATH: the parts between colons, less an empty last one. *)
Fixpoint split_colon (p : bytes) : list bytes :=
  match p with
  | [] => [[]]
  | b :: p' =>
      if b =? COLON then [] :: split_colon p'
      else match split_colon p' with c :: l => (b :: c) :: l | [] => [[b]] end
  end.
Definition components (p : bytes) : list bytes :=
  match split_colon p with
  | [c] => [c]
  | l => if bool_decide (last l = Some []) then removelast l else l
  end.

Definition fits (file comp : bytes) : Prop := blen comp + 1 + blen file + 1 <= 4096.
#[export] Instance fits_dec file comp : Decision (fits file comp).
Proof. unfold fits. apply _. Defined.

Lemma split_colon_span p :
  split_colon p = let '(c, r) := span (fun b => negb (b =? COLON)) p in c :: match r with [] => [] | _ :: p' => split_colon p' end.
Proof.
  induction p as [|b p IH]; [done|]. cbn [split_colon span]. destruct (b =? COLON); [done|]. cbn [negb].
  rewrite IH. destruct (span _ p) as [c r]. done.
Qed.

Lemma split_colon_single p : split_colon p = [[]] -> p = [].
Proof.
  destruct p as [|b p]; [done|]. cbn. rewrite split_colon_span. destruct (b =? COLON); [|by destruct (span _ p)].
  destruct (span _ p). done.
Qed.

Lemma components_span p :
  components p = let '(c, r) := span (fun b => negb (b =? COLON)) p in
    c :: match r with [] | [_] => [] | _ :: p' => components p' end.
Proof.
  unfold components. rewrite (split_colon_span p). destruct (span _ p) as [c r]. destruct r as [|x [|y p']]; [done|done|].
  pose proof (split_colon_single (y :: p')) as H1. rewrite split_colon_span in *. destruct (span _ (y :: p')) as [c' r'].
  set (l' := match r' with [] => [] | _ :: q => split_colon q end) in *. clearbody l'. destruct l' as [|d l].
  - rewrite bool_decide_eq_false_2; [done|]. cbn. intros [= ->]. by discriminate H1.
  - change (last (c :: c' :: d :: l)) with (last (c' :: d :: l)). by case_bool_decide.
Qed.

Lemma search_loop_spec fs file fuel p :
  (length p < fuel)%nat ->
  search_loop fuel fs file p = List.find (regular fs) (map (fun c => join_component c file) (filter (fits file) (components p))).
Proof.
  revert p. induction fuel as [|f IH]; intros p Hf; [lia|]. rewrite components_span. cbn [search_loop].
  pose proof (span_split (fun b => negb (b =? COLON)) p) as Hs. destruct (span _ p) as [c r]. destruct Hs as (-> & _ & _).
  assert (Hn : match r with _ :: ((_ :: _) as p') => search_loop f fs file p' | _ => None end =
    List.find (regular fs) (map (fun c => join_component c file) (filter (fits file) match r with [] | [_] => [] | _ :: p' => components p' end))).
  { destruct r as [|x [|y p']]; [done|done|]. rewrite IH; [done|]. rewrite length_app in Hf. cbn in *. lia. }
  rewrite filter_cons. destruct (Z.ltb_spec 4096 (blen c + 1 + blen file + 1)).
  - rewrite decide_False by (unfold fits; lia). exact Hn.
  - rewrite decide_True by (unfold fits; lia). cbn [map List.find]. destruct (regular fs _); [done|exact Hn].
Qed.

(** The search takes the first component of PATH, in order, under which the
    name is a file that the mode test accepts; a component that would make the
    path longer than 4095 bytes is passed over, and an empty component is tried,
    except behind a last colon. *)
Theorem path_search_first_match fs envp file :
  execvp_path_search fs envp file =
  List.find (regular fs) (map (fun c => join_component c file) (filter (fits file) (components (guest_PATH envp)))).
Proof. unfold execvp_path_search. apply search_loop_spec. lia. Qed.

(** * The guest's vectors *)

(** The vector of strings [l] from slot [n] on. *)
Inductive vec_at (c : exec_ctx) (ptr : Z) : Z -> list bytes -> Prop :=
| vec_nil n : ptr + n * 4 + 4 <= memory_size c -> ld32 (mem c) (ptr + n * 4) = 0 -> vec_at c ptr n []
| vec_cons n s l :
    ptr + n * 4 + 4 <= memory_size c -> ld32 (mem c) (ptr + n * 4) <> 0 -> wstr_check c (ld32 (mem c) (ptr + n * 4)) = Some s ->
    vec_at c ptr (n + 1) l -> vec_at c ptr n (s :: l).

Section Vectors.
Variables (c : exec_ctx) (ptr : Z).
Hypothesis Hsize : memory_size c <= 4294967296.
Hypothesis Hptr : 0 <= ptr.

Lemma slot_off_small n : 0 <= n -> ptr + n * 4 + 4 <= memory_size c -> u32 (ptr + n * 4) = ptr + n * 4.
Proof using All. intros Hn Hs. apply u32_small. lia. Qed.

Lemma read_vec_complete k n l :
  0 <= n -> vec_at c ptr n l -> read_vec k c ptr n = if Nat.leb (length l) k then inl l else inr E2BIG.
Proof using All.
  intros Hn Hv. revert k. induction Hv as [n Hr Hz|n s l Hr Hz Hs Hv IH]; intros k.
  - destruct k; cbn [read_vec length Nat.leb]; rewrite slot_off_small by lia; (destruct (Z.ltb_spec (memory_size c) (ptr + n * 4 + 4)); [lia|]);
      by rewrite Hz.
  - destruct k as [|k]; cbn [read_vec length Nat.leb]; rewrite slot_off_small by lia; (destruct (Z.ltb_spec (memory_size c) (ptr + n * 4 + 4)); [lia|]);
      (destruct (Z.eqb_spec (ld32 (mem c) (ptr + n * 4)) 0); [done|]); [done|].
    rewrite Hs, IH by lia. by destruct (Nat.leb (length l) k).
Qed.

Lemma read_vec_sound k n l : 0 <= n -> read_vec k c ptr n = inl l -> vec_at c ptr n l /\ (length l <= k)%nat.
Proof using All.
  revert n l. induction k as [|k IH]; intros n l Hn; cbn [read_vec]; (destruct (Z.ltb_spec (memory_size c) (ptr + n * 4 + 4)); [done|]);
    rewrite slot_off_small by lia; destruct (Z.eqb_spec (ld32 (mem c) (ptr + n * 4)) 0).
  1,3: intros [= <-]; split; [by constructor|cbn; lia].
  1: done.
  destruct (wstr_check c _) as [s|] eqn:E; [|done]. destruct (read_vec k c ptr (n + 1)) as [l'|] eqn:El; [|done].
  intros [= <-]. apply IH in El as [Hv Hk]; [|lia]. split; [by apply vec_cons|cbn; lia].
Qed.

Lemma read_vec_errors k n e : read_vec k c ptr n = inr e -> e = EFAULT \/ e = E2BIG.
Proof using.
  revert n. induction k as [|k IH]; intros n; cbn [read_vec]; destruct (memory_size c <? _); try (intros [= <-]; by left);
    destruct (ld32 _ _ =? 0); try done; [intros [= <-]; by right|].
  destruct (wstr_check c _); [|intros [= <-]; by left]. destruct (read_vec k c ptr (n + 1)) eqn:E; [done|]. intros [= <-]. by eapply IH.
Qed.
End Vectors.

(** The argument vector is read exactly when it is a vector of strings of the
    guest's memory that ends with a null slot and has at most 1025 of them; with
    more of them the call fails with E2BIG, and a slot or a string that leaves the
    memory is EFAULT. *)
Theorem read_argv_exact c ptr :
  memory_size c <= 4294967296 -> 0 <= ptr ->
  (forall l, read_argv c ptr = inl l <-> vec_at c ptr 0 l /\ (length l <= 1025)%nat) /\
  (forall l, vec_at c ptr 0 l -> (1025 < length l)%nat -> read_argv c ptr = inr E2BIG) /\
  (forall e, read_argv c ptr = inr e -> e = EFAULT \/ e = E2BIG).
Proof.
  intros Hs Hp. unfold read_argv. generalize 1025%nat. intros k. split_and!.
  - intros l. split; [intros H; by apply read_vec_sound in H|]. intros [Hv Hl]. rewrite (read_vec_complete c ptr Hs Hp k 0 l) by done.
    apply Nat.leb_le in Hl. by rewrite Hl.
  - intros l Hv Hl. rewrite (read_vec_complete c ptr Hs Hp k 0 l) by done. apply Nat.leb_gt in Hl. by rewrite Hl.
  - intros e. apply read_vec_errors.
Qed.
