(* ===== verification/ExecThms.v ===== *)
(** Execve as a whole: what a request that is accepted installs, what one that
    fails leaves alone, and when the argument array overflows. *)
From stdpp Require Import gmap.
From Stdlib Require Import Strings.String Strings.Ascii.
From S2P Require Import Prelude Memory Ctx CString Runtime ProcTable Path Env Fork Exec ExecProps.

(** * The closing loop *)

(** The descriptor table, the host's flags and the closes, replaced. *)
Definition with_fds (fds : list Z) (flags : gmap Z Z) (closes : list Z) (s : exec_state) : exec_state :=
  ExecState (set_fd_map fds (es_ctx s)) (es_argv s) (es_envp s) (es_cwd s) (es_env_store s) (es_env_initialised s) flags closes
    (es_pending s) (es_failure s) (es_stderr_written s).

Lemma with_fds_self s : with_fds (es_fds s) (es_fdflags s) (es_closes s) s = s.
Proof. by destruct s as [[] ]. Qed.

Lemma with_fds_twice f g k f' g' k' s : with_fds f g k (with_fds f' g' k' s) = with_fds f g k s.
Proof. done. Qed.

(** Marked close-on-exec, in the host's table. *)
Definition marked (s : exec_state) (h : Z) : bool :=
  match es_fdflags s !! h with Some flags => negb (Z.land flags FD_CLOEXEC =? 0) | None => false end.
Definition doomed (s : exec_state) (h : Z) : bool := (0 <=? h) && marked s h.

(** No two slots name one host descriptor. *)
Definition fds_distinct (l : list Z) : Prop := forall i j h, 0 <= h -> l !! i = Some h -> l !! j = Some h -> i = j.

Lemma close_marked_step s i :
  close_marked s i =
  match es_fds s !! i with
  | Some h => if doomed s h then with_fds (<[i := -1]> (es_fds s)) (delete h (es_fdflags s)) (es_closes s ++ [h]) s else s
  | None => s
  end.
Proof.
  unfold close_marked, doomed, marked. destruct (es_fds s !! i) as [h|]; cbn; unfold id; [|done].
  destruct (Z.ltb_spec h 0), (Z.leb_spec 0 h); try lia; cbn; [done|]. destruct (es_fdflags s !! h) as [fl|]; [|done].
  by destruct (Z.land fl FD_CLOEXEC =? 0).
Qed.

Lemma close_loop_frame l s : exists fds flags closes, foldl close_marked s l = with_fds fds flags closes s.
Proof.
  revert s. induction l as [|i l IH]; intros s; cbn [foldl].
  - exists (es_fds s), (es_fdflags s), (es_closes s). by rewrite with_fds_self.
  - assert (exists f g k, close_marked s i = with_fds f g k s) as (f & g & k & ->).
    { rewrite close_marked_step. destruct (es_fds s !! i) as [h|]; [destruct (doomed s h); [by eauto|]|];
        exists (es_fds s), (es_fdflags s), (es_closes s); by rewrite with_fds_self. }
    destruct (IH (with_fds f g k s)) as (f' & g' & k' & ->). rewrite with_fds_twice. eauto.
Qed.

Section Closing.
Variables (s : exec_state) (from : nat).
Hypothesis Hd : fds_distinct (es_fds s).

(** After [n] slots. *)
Record closed_upto (n : nat) (s' : exec_state) : Prop := {
  cu_fds : forall i, es_fds s' !! i =
    (fun h => if (Nat.leb from i && Nat.ltb i (from + n)) && doomed s h then -1 else h) <$> es_fds s !! i;
  cu_flags : forall h, es_fdflags s' !! h =
    if doomed s h && existsb (fun i => bool_decide (es_fds s !! i = Some h)) (seq from n) then None else es_fdflags s !! h;
  cu_closes : es_closes s' = es_closes s ++ List.filter (doomed s) (take n (drop from (es_fds s)))
}.

Lemma closed_upto_0 : closed_upto 0 s.
Proof using All.
  split.
  - intros i. destruct (es_fds s !! i) as [h|]; [|done]. cbn [fmap option_fmap option_map].
    destruct (Nat.leb_spec from i), (Nat.ltb_spec i (from + 0)); try lia; done.
  - intros h. cbn. by rewrite andb_false_r.
  - by rewrite take_0, app_nil_r.
Qed.

Lemma not_yet_closed n h :
  es_fds s !! (from + n)%nat = Some h -> 0 <= h -> existsb (fun i => bool_decide (es_fds s !! i = Some h)) (seq from n) = false.
Proof using All.
  intros Hh H0. apply not_true_is_false. intros (i & Hi & Hb)%existsb_exists. apply in_seq in Hi. apply bool_decide_eq_true in Hb.
  pose proof (Hd _ _ _ H0 Hh Hb). lia.
Qed.

Lemma seq_mem_S n h : existsb (fun i => bool_decide (es_fds s !! i = Some h)) (seq from (S n)) =
  existsb (fun i => bool_decide (es_fds s !! i = Some h)) (seq from n) || bool_decide (es_fds s !! (from + n)%nat = Some h).
Proof using All. rewrite seq_S, existsb_app. cbn. by rewrite orb_false_r. Qed.

Lemma take_table_S n : take (S n) (drop from (es_fds s)) = take n (drop from (es_fds s)) ++ option_list (es_fds s !! (from + n)%nat).
Proof using All.
  rewrite <-lookup_drop. destruct (drop from (es_fds s) !! n) as [x|] eqn:E; [by apply take_S_r|].
  apply lookup_ge_None in E. by rewrite !take_ge, app_nil_r by lia.
Qed.

Lemma leb_ltb_S i n : i <> (from + n)%nat -> Nat.leb from i && Nat.ltb i (from + S n) = Nat.leb from i && Nat.ltb i (from + n).
Proof using All. intros. destruct (Nat.leb_spec from i); [|done]. cbn [andb]. destruct (Nat.ltb_spec i (from + S n)), (Nat.ltb_spec i (from + n)); lia || done. Qed.

Lemma slot_in_range n : Nat.leb from (from + n) && Nat.ltb (from + n) (from + S n) = true.
Proof using All. apply andb_true_iff. rewrite Nat.leb_le, Nat.ltb_lt. lia. Qed.

Lemma closed_upto_S n s' : closed_upto n s' -> closed_upto (S n) (close_marked s' (from + n)).
Proof using All.
  intros [Hf Hg Hk]. rewrite close_marked_step. pose proof (Hf (from + n)%nat) as Hn.
  destruct (es_fds s !! (from + n)%nat) as [h|] eqn:Eh.
  - replace (Nat.leb from (from + n) && Nat.ltb (from + n) (from + n)) with false in Hn
      by (rewrite Nat.ltb_irrefl, andb_false_r; done). cbn in Hn. rewrite Hn.
    assert (Hdoom : doomed s' h = doomed s h).
    { unfold doomed. destruct (Z.leb_spec 0 h); [|done]. cbn. unfold marked at 1.
      rewrite Hg, (not_yet_closed n h), andb_false_r by done. done. }
    rewrite Hdoom. split.
    + intros i. destruct (decide (i = (from + n)%nat)) as [->|Hi].
      * rewrite Eh. cbn [fmap option_fmap option_map]. rewrite slot_in_range. cbn [andb]. destruct (doomed s h); [|exact Hn].
        cbn. apply list_lookup_insert_eq. by eapply lookup_lt_Some.
      * rewrite leb_ltb_S by done. rewrite <-Hf. destruct (doomed s h); [|done]. cbn. by apply list_lookup_insert_ne.
    + intros h'. rewrite seq_mem_S, Eh. destruct (doomed s h) eqn:Ed; cbn [es_fdflags with_fds].
      * destruct (decide (h' = h)) as [->|Hne].
        -- rewrite lookup_delete_eq, Ed, bool_decide_eq_true_2, orb_true_r by done. done.
        -- rewrite lookup_delete_ne, Hg by done. rewrite (bool_decide_eq_false_2 (Some h = Some h')) by congruence. by rewrite orb_false_r.
      * rewrite Hg. destruct (decide (h' = h)) as [->|Hne]; [by rewrite Ed|].
        rewrite (bool_decide_eq_false_2 (Some h = Some h')) by congruence. by rewrite orb_false_r.
    + rewrite take_table_S, Eh, List.filter_app, app_assoc, <-Hk. cbn. destruct (doomed s h); [done|by rewrite app_nil_r].
  - cbn in Hn. rewrite Hn. split.
    + intros i. destruct (decide (i = (from + n)%nat)) as [->|Hi]; [rewrite Eh; exact Hn|]. rewrite leb_ltb_S by done. apply Hf.
    + intros h. rewrite seq_mem_S, Eh, bool_decide_eq_false_2, orb_false_r by done. apply Hg.
    + rewrite take_table_S, Eh. cbn. by rewrite app_nil_r.
Qed.

Lemma closing_loop n : closed_upto n (foldl close_marked s (seq from n)).
Proof using All.
  induction n as [|n IH]; [exact closed_upto_0|]. rewrite seq_S, foldl_app. cbn [foldl]. by apply closed_upto_S.
Qed.
End Closing.

(** When no two slots name one host descriptor, exec closes exactly the
    descriptors marked close-on-exec, each once and in the order of the table:
    their slots become free and the host forgets them, every other slot and
    every other host descriptor is as before. *)
Theorem exec_closes_exactly_marked s :
  fds_distinct (es_fds s) -> length (es_fds s) = 256%nat ->
  let s' := close_on_exec 0 s in
  es_fds s' = map (fun h => if doomed s h then -1 else h) (es_fds s) /\
  es_closes s' = es_closes s ++ List.filter (doomed s) (es_fds s) /\
  (forall h, es_fdflags s' !! h = if doomed s h && bool_decide (h ∈ es_fds s) then None else es_fdflags s !! h).
Proof.
  intros Hd Hl. unfold close_on_exec. destruct (closing_loop s 0 Hd (256 - 0)) as [Hf Hg Hk]. cbn zeta. split_and!.
  - apply list_eq. intros i. rewrite Hf, list_lookup_fmap. destruct (es_fds s !! i) as [h|] eqn:E; [|done].
    apply lookup_lt_Some in E. rewrite Hl in E. cbn [fmap option_fmap option_map]. destruct (Nat.leb_spec 0 i); [|lia].
    destruct (Nat.ltb_spec i (0 + (256 - 0))); [done|lia].
  - rewrite Hk, drop_0, take_ge by lia. done.
  - intros h. rewrite Hg.
    replace (existsb _ _) with (bool_decide (h ∈ es_fds s)); [done|]. apply eq_true_iff_eq. rewrite existsb_exists, bool_decide_eq_true, list_elem_of_lookup. split.
    + intros (i & Hi). exists i. split; [|by apply bool_decide_eq_true]. apply lookup_lt_Some in Hi as ?. apply in_seq. lia.
    + intros (i & _ & Hi). apply bool_decide_eq_true in Hi. by exists i.
Qed.

(** * The call *)

Section Call.
Variable remap_errno_h2g : Z -> Z.
Variable translate_path : path -> path.
Variable fs : host_fs.
Variable malloc_ok : Z -> bool.

#[local] Abbreviation execve := (yos_execve remap_errno_h2g translate_path fs malloc_ok).
#[local] Abbreviation file_of := (exec_file translate_path).

Lemma es_errno_eq s e :
  es_errno remap_errno_h2g s e = (-1, upd_es_ctx (set_g_exec (write_errno remap_errno_h2g (es_exec s) e)) s).
Proof. done. Qed.

(** At most the errno cell and the record of the last failure differ. *)
Record barely_changed (s s' : exec_state) : Prop := {
  bc_frame : forall lo hi, hi <= errno_off (es_exec s) \/ errno_off (es_exec s) + 4 <= lo ->
             agree_on lo hi (mem (es_exec s)) (mem (es_exec s'));
  bc_rest : exists f b, s' = ExecState (set_g_exec (set_mem (mem (es_exec s')) (es_exec s)) (es_ctx s)) (es_argv s) (es_envp s) (es_cwd s)
              (es_env_store s) (es_env_initialised s) (es_fdflags s) (es_closes s) (es_pending s) f b
}.

Lemma barely_errno s e : barely_changed s (es_errno remap_errno_h2g s e).2.
Proof.
  rewrite es_errno_eq. cbn [snd]. split.
  - intros lo hi H. by apply write_errno_frame.
  - exists (es_failure s), (es_stderr_written s). unfold upd_es_ctx, es_exec. cbn. by rewrite <-write_errno_set.
Qed.

Lemma barely_failure s f e : barely_changed s (es_errno remap_errno_h2g (set_es_failure f s) e).2.
Proof.
  destruct (barely_errno (set_es_failure f s) e) as [H1 (f' & b & H2)]. split; [exact H1|]. exists f', b. exact H2.
Qed.

Lemma barely_refl s : barely_changed s s.
Proof.
  split; [intros; apply agree_on_refl|]. exists (es_failure s), (es_stderr_written s). by destruct s as [[[]] ].
Qed.

(** Every way a call comes back. *)
Inductive call_result (s : exec_state) : option (Z * exec_state) -> Prop :=
| cr_errno s' : barely_changed s s' -> call_result s (Some (-1, s'))
| cr_format : call_result s (Some (- ENOEXEC, s))
| cr_installed p argv envp : call_result s (Some (0, install p argv envp s))
| cr_overflow : call_result s None.

Lemma cr_of_errno s e : call_result s (Some (es_errno remap_errno_h2g s e)).
Proof. apply (cr_errno s (es_errno remap_errno_h2g s e).2), barely_errno. Qed.

Lemma execve_results s filename argv_ptr envp : call_result s (execve s filename argv_ptr envp).
Proof.
  pose proof (cr_of_errno s) as He. unfold yos_execve. destruct (wstr_check _ _) as [raw|]; [|apply He].
  destruct (negb _); [exact (cr_errno s _ (barely_failure s _ _))|].
  destruct (find_image _ _ _) as [[p script]|]; [|constructor]. destruct (argv_ptr =? 0); [apply He|].
  destruct (read_argv _ _) as [args|e]; [|apply He]. destruct (negb _); [apply He|]. destruct (_ <? _); [constructor|].
  destruct (envp =? 0); [constructor|]. destruct (read_envp _ _) as [envs|e]; [|apply He]. destruct (negb _); [apply He|constructor].
Qed.

(** C35: A failing execve returns -1, or -ENOEXEC when no module was found, and
    the caller goes on: its memory but the errno cell, its signals, descriptors,
    environment and pending request are what they were. *)
Theorem execve_failure_is_clean s filename argv_ptr envp r s' :
  execve s filename argv_ptr envp = Some (r, s') -> r <> 0 ->
  (r = -1 \/ r = - ENOEXEC) /\
  (forall lo hi, hi <= errno_off (es_exec s) \/ errno_off (es_exec s) + 4 <= lo ->
     agree_on lo hi (mem (es_exec s)) (mem (es_exec s'))) /\
  (exists f b, s' = ExecState (set_g_exec (set_mem (mem (es_exec s')) (es_exec s)) (es_ctx s)) (es_argv s) (es_envp s) (es_cwd s)
     (es_env_store s) (es_env_initialised s) (es_fdflags s) (es_closes s) (es_pending s) f b).
Proof.
  intros E Hr. pose proof (execve_results s filename argv_ptr envp) as H. rewrite E in H. inversion H as [s1 B| |p a e|]; subst.
  - destruct B as [B1 B2]. split; [by left|done].
  - destruct (barely_refl s') as [B1 B2]. split; [by right|done].
  - done.
Qed.

(** What the request needs of the host and the guest. *)
Record accepted (s : exec_state) (filename argv_ptr : Z) (raw exec_path : bytes) (script : option bytes) (args : list bytes) : Prop := {
  ac_raw : wstr_check (es_exec s) filename = Some raw;
  ac_access : hf_access fs (file_of s raw) = 0;
  ac_image : find_image fs (es_envp s) (file_of s raw) = Some (exec_path, script);
  ac_argv : argv_ptr <> 0;
  ac_args : read_argv (es_exec s) argv_ptr = inl args;
  ac_malloc : malloc_ok ((exec_argc script args + 1) * 8) = true
}.

(** The new environment, if the call brings one. *)
Definition environment (s : exec_state) (envp : Z) (envs : option (list bytes)) : Prop :=
  (envp = 0 /\ envs = None) \/
  (envp <> 0 /\ exists l, envs = Some l /\ read_envp (es_exec s) envp = inl l /\ malloc_ok ((Z.of_nat (length l) + 1) * 8) = true).

Lemma args_fit exec_path fn script args :
  (exec_argc script args <? Z.of_nat (length (exec_args exec_path fn script args))) = bool_decide (is_Some script /\ args = []).
Proof.
  apply eq_true_iff_eq. rewrite Z.ltb_lt, bool_decide_eq_true. unfold exec_argc, exec_args.
  destruct script as [arg|]; [|split; [lia|by intros [[] _]]].
  cbn [length]. rewrite length_app. cbn [length]. destruct arg, args; cbn [length tl]; (split; [intros; split; [done|]|intros [_ ?]]); done || lia.
Qed.

Lemma execve_accepted s filename argv_ptr envp raw exec_path script args :
  accepted s filename argv_ptr raw exec_path script args ->
  execve s filename argv_ptr envp =
  if bool_decide (is_Some script /\ args = []) then None
  else
    let argv := exec_args exec_path (file_of s raw) script args in
    if envp =? 0 then Some (0, install exec_path argv None s)
    else match read_envp (es_exec s) envp with
         | inr e => Some (es_errno remap_errno_h2g s e)
         | inl l => if malloc_ok ((Z.of_nat (length l) + 1) * 8) then Some (0, install exec_path argv (Some l) s)
                    else Some (es_errno remap_errno_h2g s ENOMEM)
         end.
Proof.
  intros [H1 H2 H3 H4 H5 H6]. unfold yos_execve. rewrite H1, H2, H3, H5, H6. apply Z.eqb_neq in H4. rewrite H4. cbn [Z.eqb negb].
  rewrite args_fit. case_bool_decide; [done|]. cbn zeta. destruct (envp =? 0); [done|]. destruct (read_envp _ _); [|done].
  by destruct (malloc_ok ((Z.of_nat (length l) + 1) * 8)).
Qed.

(** C10: An accepted request returns 0 and leaves the new image's path, arguments
    and environment pending; for a script the arguments are the interpreter, its
    argument, the script, and the caller's arguments without the first.  No
    handler is installed and no signal is pending, the mask and the ignored set
    stay, and neither memory nor the streams change. *)
Theorem execve_installs s filename argv_ptr envp raw exec_path script args envs :
  accepted s filename argv_ptr raw exec_path script args -> (script = None \/ args <> []) -> environment s envp envs ->
  exists s', execve s filename argv_ptr envp = Some (0, s') /\
    es_pending s' = Some (ExecRequest exec_path
      (match script with
       | None => args
       | Some [] => exec_path :: file_of s raw :: tl args
       | Some arg => exec_path :: arg :: file_of s raw :: tl args
       end) envs) /\
    es_exec s' = es_exec s /\ es_argv s' = es_argv s /\ es_envp s' = es_envp s /\
    sig_handlers (es_ctx s') = replicate 32 0 /\ sig_pending (es_ctx s') = 0 /\
    sig_mask (es_ctx s') = sig_mask (es_ctx s) /\ sig_ignore_mask (es_ctx s') = sig_ignore_mask (es_ctx s) /\
    file_slots (es_ctx s') = file_slots (es_ctx s) /\
    es_fds s' = es_fds (close_on_exec 0 s) /\ es_closes s' = es_closes (close_on_exec 0 s).
Proof.
  intros Ha Hs He. exists (install exec_path (exec_args exec_path (file_of s raw) script args) envs s). split.
  - rewrite (execve_accepted _ _ _ _ _ _ _ _ Ha), bool_decide_eq_false_2 by (intros [[? ->] ->]; by destruct Hs). cbn zeta.
    destruct He as [[-> ->]|(Hn & l & -> & -> & ->)]; [done|]. apply Z.eqb_neq in Hn. by rewrite Hn.
  - unfold install, close_on_exec.
    set (s1 := set_es_pending _ _).
    assert (Hc : forall l, es_fds (foldl close_marked s1 l) = es_fds (foldl close_marked s l) /\
      es_closes (foldl close_marked s1 l) = es_closes (foldl close_marked s l) /\
      es_fdflags (foldl close_marked s1 l) = es_fdflags (foldl close_marked s l)).
    { intros l. induction l as [|i l IH] using rev_ind; [done|]. rewrite !foldl_app. cbn [foldl]. destruct IH as (I1 & I2 & I3).
      rewrite !close_marked_step, I1. destruct (es_fds (foldl close_marked s l) !! i) as [h|]; [|done]. unfold doomed, marked. rewrite I3.
      destruct (_ && _); [|done]. cbn. by rewrite I2. }
    generalize (seq 0 (256 - 0)). intros l. destruct (Hc l) as (H1 & H2 & _). rewrite H1, H2. clear Hc H1 H2.
    destruct (close_loop_frame l s1) as (f & g & k & ->). split_and!; try reflexivity. by destruct script as [[]|].
Qed.

(** The array of arguments is written past its end exactly when a script is
    run with an empty argument vector: it is allocated for one entry less than
    the interpreter, its argument and the script need. *)
Theorem execve_overflow_iff s filename argv_ptr envp :
  execve s filename argv_ptr envp = None <->
  exists raw exec_path arg, accepted s filename argv_ptr raw exec_path (Some arg) [].
Proof.
  split.
  - unfold yos_execve. destruct (wstr_check _ _) as [raw|] eqn:E1; [|done].
    destruct (Z.eqb_spec (hf_access fs (file_of s raw)) 0) as [E2|]; [|done]. cbn [negb].
    destruct (find_image _ _ _) as [[p script]|] eqn:E3; [|done]. destruct (Z.eqb_spec argv_ptr 0) as [|E4]; [done|].
    destruct (read_argv _ _) as [args|e] eqn:E5; [|done]. destruct (malloc_ok ((exec_argc script args + 1) * 8)) eqn:E6; [|done]. cbn [negb].
    rewrite args_fit. case_bool_decide as Hb.
    + intros _. destruct Hb as [[arg ->] ->]. by exists raw, p, arg.
    + destruct (envp =? 0); [done|]. destruct (read_envp _ _); [|done]. by destruct (negb _).
  - intros (raw & p & arg & Ha). rewrite (execve_accepted _ _ _ _ _ _ _ _ Ha). by rewrite bool_decide_eq_true_2.
Qed.
End Call.
