(* ===== verification/ExecLoad.v ===== *)
(** The new image: what the loaders reset and what they forget, the number of
    pages it gets, and the process whose image could not be loaded; with the
    theorems about execve at a concrete process. *)
From Stdlib Require Import Strings.String Strings.Ascii.
From stdpp Require Import gmap.
From S2P Require Import Prelude Memory Ctx CString Vm Runtime ProcTable Fixtures ProcProps Path Env Fork Exec ExecProps ExecThms.

(** The environment table of a process, as the functions of env.c see it. *)
Definition image_env (s : exec_state) : env_ctx := EnvCtx (es_exec s) (es_env_store s) (es_env_initialised s) [].

Lemma land_lnot15 x : Z.land x (Z.lnot 15) = x - x mod 16.
Proof. exact (land_lnot_pow2 x 4 ltac:(lia)). Qed.

Lemma image_heap_end_spec b :
  327680 <= image_heap_end b /\ (image_heap_end b) mod 16 = 0 /\
  (forall v, b = Some v -> 0 <= v < 4294967296 - 15 -> v <= image_heap_end b).
Proof.
  unfold image_heap_end. destruct b as [v|]; [|split_and!; done]. rewrite land_lnot15. pose proof (u32_range (v + 15)).
  destruct (Z.ltb_spec 327680 (u32 (v + 15) - u32 (v + 15) mod 16)); split_and!; try lia; try mlia.
  - intros w [= ->] Hw. rewrite u32_small by lia. mlia.
  - intros w [= ->] Hw. rewrite u32_small in * by lia. mlia.
Qed.

Lemma init_tls_words m : ld32 (init_tls m) 0 = 256 /\ (forall a, 256 <= a < 512 -> ld8 (init_tls m) a = 0).
Proof.
  unfold init_tls. split.
  - rewrite (ld32_agree (st32 m 0 256)), ld32_st32; [done|]. apply memset_frame. lia.
  - intros a Ha. apply ld8_memset_in. lia.
Qed.

(** The number of pages an image gets is at least what its module starts
    with, is within what the module declares as its maximum whenever that is not
    below the start, and is never more than 65536 for a module that starts
    within 4 GiB. *)
Theorem resize_pages_bounds env_pages init_pages max_pages :
  0 <= init_pages <= 65536 -> 0 <= max_pages ->
  init_pages <= resize_pages env_pages init_pages max_pages <= 65536 /\
  (0 < max_pages -> init_pages <= max_pages -> resize_pages env_pages init_pages max_pages <= max_pages).
Proof.
  intros Hi Hm. unfold resize_pages. set (p0 := match env_pages with Some v => _ | None => 4096 end).
  assert (0 < p0 <= 65536).
  { unfold p0. destruct env_pages as [v|]; [|lia]. destruct (Z.ltb_spec 0 v), (Z.leb_spec v 65536); cbn; lia. }
  clearbody p0. destruct (Z.ltb_spec 0 max_pages), (Z.ltb_spec max_pages p0); cbn [andb];
    repeat match goal with |- context [?a <? ?b] => destruct (Z.ltb_spec a b) end; lia.
Qed.

(** The image that a child's thread loads starts with the arguments and the
    environment of the request, an empty environment table, no break, mapping or
    heap of the old image, a cleared errno cell, and the signal state that execve
    left; nothing is pending any more. *)
Theorem child_exec_fresh_image env_pages a s req s' :
  es_pending s = Some req -> child_exec_load env_pages a s = Some s' ->
  es_argv s' = er_argv req /\ es_envp s' = (match er_envp req with Some l => Some l | None => es_envp s end) /\ es_pending s' = None /\
  e_store (image_env s') = [] /\ e_init (image_env s') = false /\
  327680 <= heap_end (es_exec s') /\ heap_end (es_exec s') mod 16 = 0 /\
  mmap_top (es_exec s') = 0 /\ free_list (es_exec s') = [] /\
  alloc_lo (es_exec s') = 0 /\ alloc_hi (es_exec s') = 0 /\ alloc_free_head (es_exec s') = 0 /\
  ld32 (mem (es_exec s')) 0 = 256 /\ (forall x, 256 <= x < 512 -> ld8 (mem (es_exec s')) x = 0) /\
  sig_handlers (es_ctx s') = sig_handlers (es_ctx s) /\ sig_mask (es_ctx s') = sig_mask (es_ctx s) /\
  sig_ignore_mask (es_ctx s') = sig_ignore_mask (es_ctx s) /\ sig_pending (es_ctx s') = sig_pending (es_ctx s).
Proof.
  intros Hp. unfold child_exec_load. rewrite Hp. destruct (_ && _); [|done].
  destruct (la_memory a _) as [m size]. intros [= <-]. unfold close_on_exec. generalize (seq 3 (256 - 3)). intros l.
  match goal with |- context [foldl close_marked ?x l] => destruct (close_loop_frame l x) as (f & g & k & ->) end.
  destruct (image_heap_end_spec (la_heap_base a)) as (H1 & H2 & _). destruct (init_tls_words m) as [H3 H4].
  split_and!; try reflexivity; [exact H1|exact H2|exact H4].
Qed.

(** The loader of a child's thread keeps the table of live mappings of the
    image it replaces: when the old image had mapped a page, the new one maps a
    page, unmaps it, and is then given the same page twice. *)
Theorem child_exec_aliases_mappings :
  exists s a s' p,
    child_exec_load None a s = Some s' /\
    let m1 := yos_mmap2 (es_exec s') 0 4096 3 34 (-1) 0 in
    let c1 := (yos_munmap m1.2 m1.1 4096).2 in
    let m2 := yos_mmap2 c1 0 4096 3 34 (-1) 0 in
    let m3 := yos_mmap2 m2.2 0 4096 3 34 (-1) 0 in
    in_regions p (live_list (es_exec s)) /\ m2.1 = p /\ m3.1 = p.
Proof.
  set (old := (yos_mmap2 (ExecCtx (fun _ => 0) 1048576 327680 0 [] [] 0 0 0 264) 0 4096 3 34 (-1) 0).2).
  set (s := ExecState (set_g_exec old demo_shell_ctx) [] None [] [] false ∅ [] (Some (ExecRequest [] [] None)) None false).
  set (a := LoadAnswers true true true true true (fun _ => (fun _ => 0, 1048576)) None 16 0).
  exists s, a. eexists. exists 524288. split; [reflexivity|]. cbn zeta. split_and!; [|vm_compute; reflexivity..].
  exists (Region 524288 4096). split; [by left|done].
Qed.

(** In the first process the image starts with the environment table of the
    image it replaces: if that one ever used its environment, the offsets in the
    table are those of the old memory and the environment passed to execve is
    never read. *)
Theorem main_exec_keeps_old_environment malloc environ env_pages a s req s' :
  es_pending s = Some req -> main_exec_load env_pages a s = Some s' -> es_env_initialised s = true ->
  e_store (image_env s') = es_env_store s /\ es_envp s' = (match er_envp req with Some l => Some l | None => es_envp s end) /\
  env_init_once malloc environ (default [] (es_envp s')) (image_env s') = Some (image_env s').
Proof.
  intros Hp. unfold main_exec_load. rewrite Hp. destruct (_ && _); [|done]. destruct (la_memory a _) as [m size].
  intros [= <-] Hi. unfold image_env, env_init_once. cbn. by rewrite Hi.
Qed.

(** An environment without entries is replaced by the emulator's own. *)
Lemma empty_environment_ignored malloc environ env_pages a s argv p s' :
  es_pending s = Some (ExecRequest p argv (Some [])) -> child_exec_load env_pages a s = Some s' ->
  es_envp s' = Some [] /\
  env_init_once malloc environ (default [] (es_envp s')) (image_env s') =
  env_load_from_host malloc environ (EnvCtx (es_exec s') [] true []).
Proof.
  intros Hp. unfold child_exec_load. rewrite Hp. destruct (_ && _); [|done]. destruct (la_memory a _) as [m size].
  intros [= <-]. unfold close_on_exec. generalize (seq 3 (256 - 3)). intros l.
  match goal with |- context [foldl close_marked ?x l] => destruct (close_loop_frame l x) as (f & g & k & ->) end. done.
Qed.

(** When the image of a child cannot be loaded its parent's waitpid for it
    returns its pid, with a status that reads as exit code 127, and frees the
    slot. *)
Theorem exec_load_failure_reported h2g env rt ci c me slot p a opt :
  table_ok rt -> ctxs rt !! ci = Some c -> my_proc rt ci = Some me -> slot_of rt ci <> Some slot ->
  procs rt !! slot = Some p -> state p = YOS_PROC_RUNNING -> term_sig p = 0 -> ppid p = pid me ->
  0 < a < u32 (memory_size (g_exec c) - 4) ->
  exists rt' c', yos_waitpid h2g env (exec_load_failed slot rt) ci (pid p) a opt = Some (pid p, rt') /\
    ctxs rt' !! ci = Some c' /\ ld32 (mem (g_exec c')) a = 127 * 256 /\ ~ live rt' (pid p).
Proof.
  intros Hok Hc Hme Hne Hp Hr Ht Hpp Ha. set (rt0 := exec_load_failed slot rt).
  set (p0 := set_exited true (set_exit_code 127 (set_state YOS_PROC_ZOMBIE p))).
  assert (Hok0 : table_ok rt0).
  { apply (tame_ok rt); [|done]. apply tame_upd_proc. intros q Hq. assert (q = p) as -> by congruence. split; [done|]. by rewrite Hr. }
  assert (Hp0 : procs rt0 !! slot = Some p0) by (unfold rt0, exec_load_failed, upd_proc; cbn; by rewrite list_lookup_alter_eq, Hp).
  assert (Hme0 : my_proc rt0 ci = Some me).
  { unfold my_proc, slot_of in *. change (ctxs rt0) with (ctxs rt). rewrite Hc in *. destruct (g_proc c) as [ms|]; [|done].
    unfold rt0, exec_load_failed, upd_proc. cbn. rewrite list_lookup_alter_ne by congruence. done. }
  destruct (zombie_child_found rt0 slot p0 Hok0 Hp0 eq_refl) as [Hfind Hhas]. change (ppid p0) with (ppid p) in Hfind, Hhas. rewrite Hpp in Hfind, Hhas.
  destruct (reap_spec rt0 ci c slot p0 a Hp0 Hc Ha) as (rt' & c' & Hreap & Hc' & _ & Hld & Hpr).
  exists rt', c'. split_and!; [|done| |exact (reaped_dead rt0 rt' slot p0 Hok0 Hp0 eq_refl Hpr)].
  - unfold yos_waitpid. rewrite Hme0. change (pid p) with (pid p0). rewrite Hhas, Hfind. cbn [negb]. by rewrite Hreap.
  - rewrite Hld. unfold wait_status. cbn [term_sig p0 set_exited set_exit_code set_state]. rewrite Ht. reflexivity.
Qed.

(** * A concrete case *)

(** A process with a script, a module and a missing file: each theorem about
    execve at a concrete call. *)

Definition sh_path : bytes := lit "/bin/sh"%string.
Definition script_path : bytes := lit "/s"%string.

(** /bin/sh is a module, /s a script for it; nothing else exists. *)
Definition toy_fs : host_fs :=
  HostFs (fun p => if bool_decide (p = sh_path) || bool_decide (p = script_path) then 0 else 2)
    (fun p => if bool_decide (p = sh_path) then Some [0; 97; 115; 109; 1; 0]
              else if bool_decide (p = script_path) then Some (shebang [] sh_path [32] (lit "-x"%string) [] ++ 10 :: lit "ls"%string) else None)
    (fun p => if bool_decide (p = sh_path) || bool_decide (p = script_path) then Some 33261 else None).

(** The name of the script at 1024, of no file at 1040; at 2048 the vector of
    the strings "a" (1100) and "b" (1104). *)
Definition call_mem : memory :=
  st32 (st32 (write_bytes (write_bytes (write_bytes (write_bytes (fun _ => 0) 1024 script_path) 1040 (lit "/nowhere"%string))
    1100 (lit "a"%string)) 1104 (lit "b"%string)) 2048 1100) 2052 1104.
Definition call_exec : exec_ctx := ExecCtx call_mem 4096 2200 0 [] [] 0 0 0 264.

(** Descriptors 0 to 2 and, close-on-exec, 7. *)
Definition call_fds : list Z := [0; 1; 2; 7] ++ replicate 252 (-1).
Definition call_ctx : yos_ctx := set_fd_map call_fds (set_g_exec call_exec demo_shell_ctx).
Definition call_flags : gmap Z Z := {[ 0 := 0; 1 := 0; 2 := 0; 7 := 1 ]}.
Definition call_state : exec_state :=
  ExecState call_ctx [] (Some [lit "PATH=/bin"%string]) [] [Entry 3000 3010 4] true call_flags [] None None false.

Lemma fds_distinct_free l n : NoDup l -> fds_distinct (l ++ replicate n (-1)).
Proof.
  intros Hl i j h Hh Hi Hj. assert (Hin : forall k, (l ++ replicate n (-1)) !! k = Some h -> l !! k = Some h).
  { intros k Hk. apply lookup_app_Some in Hk as [Hk|[_ Hk]]; [done|]. apply lookup_replicate in Hk as [? _]. lia. }
  by eapply NoDup_lookup; [|apply Hin|apply Hin].
Qed.

Lemma call_distinct : fds_distinct (es_fds call_state).
Proof. apply fds_distinct_free. apply NoDup_ListNoDup. repeat constructor; cbn; intuition discriminate. Qed.

Lemma call_args : vec_at call_exec 2048 0 [[97]; [98]].
Proof.
  apply vec_cons; [cbn; lia|vm_compute; discriminate|vm_compute; reflexivity|].
  apply vec_cons; [cbn; lia|vm_compute; discriminate|vm_compute; reflexivity|]. apply vec_nil; [cbn; lia|vm_compute; reflexivity].
Qed.

Lemma shebang_roundtrip_witness : parse_shebang toy_fs script_path = Some (sh_path, lit "-x"%string).
Proof.
  apply (shebang_roundtrip toy_fs script_path [] sh_path [32] (lit "-x"%string) [] (lit "ls"%string)); try (by repeat constructor).
Defined.

Lemma read_argv_exact_witness : read_argv call_exec 2048 = inl [[97]; [98]].
Proof. apply (read_argv_exact call_exec 2048); [cbn; lia|lia|]. split; [exact call_args|cbn; lia]. Defined.

Lemma exec_closes_exactly_marked_witness :
  es_fds (close_on_exec 0 call_state) = [0; 1; 2; -1] ++ replicate 252 (-1) /\ es_closes (close_on_exec 0 call_state) = [7].
Proof.
  destruct (exec_closes_exactly_marked call_state call_distinct eq_refl) as (H1 & H2 & _). rewrite H1, H2. split; vm_compute; reflexivity.
Defined.

Lemma execve_failure_is_clean_witness :
  exists s', yos_execve (fun e => e) id toy_fs (fun _ => true) call_state 1040 2048 0 = Some (-1, s') /\
    agree_on 1000 3000 call_mem (mem (es_exec s')).
Proof.
  eexists. split; [vm_compute; reflexivity|].
  apply (execve_failure_is_clean (fun e => e) id toy_fs (fun _ => true) call_state 1040 2048 0 (-1)); [vm_compute; reflexivity|done|].
  right. cbn. lia.
Defined.

Lemma call_accepted : accepted id toy_fs (fun _ => true) call_state 1024 2048 script_path sh_path (Some (lit "-x"%string)) [[97]; [98]].
Proof. split; try (vm_compute; reflexivity); discriminate. Qed.

Lemma execve_installs_witness :
  exists s', yos_execve (fun e => e) id toy_fs (fun _ => true) call_state 1024 2048 0 = Some (0, s') /\
    es_pending s' = Some (ExecRequest sh_path [sh_path; lit "-x"%string; script_path; [98]] None) /\ sig_mask (es_ctx s') = bit 10.
Proof.
  destruct (execve_installs (fun e => e) id toy_fs (fun _ => true) call_state 1024 2048 0 script_path sh_path (Some (lit "-x"%string)) [[97]; [98]] None)
    as (s' & H1 & H2 & _ & _ & _ & _ & _ & H3 & _); [exact call_accepted|by right|by left|].
  exists s'. split; [exact H1|]. split; [exact H2|exact H3].
Defined.

Lemma resize_pages_bounds_witness : resize_pages (Some 70000) 16 1024 <= 1024.
Proof. apply (resize_pages_bounds (Some 70000) 16 1024); lia. Defined.

(** The module loads into 1 MiB. *)
Definition toy_load : load_answers := LoadAnswers true true true true true (fun _ => (fun _ => 0, 1048576)) (Some 400000) 16 0.
Definition pending_state : exec_state := set_es_pending (Some (ExecRequest sh_path [sh_path] (Some [lit "A=1"%string]))) call_state.

Lemma child_exec_fresh_image_witness :
  exists s', child_exec_load None toy_load pending_state = Some s' /\ es_argv s' = [sh_path] /\ e_store (image_env s') = [] /\
    327680 <= heap_end (es_exec s').
Proof.
  destruct (child_exec_load None toy_load pending_state) as [s'|] eqn:E; [|discriminate E]. exists s'. split; [reflexivity|].
  destruct (child_exec_fresh_image None toy_load pending_state (ExecRequest sh_path [sh_path] (Some [lit "A=1"%string])) s' eq_refl E)
    as (H1 & _ & _ & H2 & _ & H3 & _). split; [exact H1|]. split; [exact H2|exact H3].
Defined.

Lemma main_exec_keeps_old_environment_witness :
  exists s', main_exec_load None toy_load pending_state = Some s' /\ e_store (image_env s') = [Entry 3000 3010 4] /\
    env_init_once (fun c _ => (0, c)) [] (default [] (es_envp s')) (image_env s') = Some (image_env s').
Proof.
  destruct (main_exec_load None toy_load pending_state) as [s'|] eqn:E; [|discriminate E]. exists s'. split; [reflexivity|].
  destruct (main_exec_keeps_old_environment (fun c _ => (0, c)) [] None toy_load pending_state (ExecRequest sh_path [sh_path] (Some [lit "A=1"%string])) s'
    eq_refl E eq_refl) as (H1 & _ & H2). split; [exact H1|exact H2].
Defined.

Lemma exec_load_failure_reported_witness :
  exists rt' c', yos_waitpid id [] (exec_load_failed 3 demo) 1 4 1024 0 = Some (4, rt') /\ ctxs rt' !! 1%nat = Some c' /\
    ld32 (mem (g_exec c')) 1024 = 32512.
Proof.
  destruct (exec_load_failure_reported id [] demo 1 demo_shell_ctx demo_shell 3 demo_child 1024 0 demo_ok eq_refl eq_refl)
    as (rt' & c' & H1 & H2 & H3 & _); try reflexivity; [discriminate|vm_compute; split; reflexivity|].
  exists rt', c'. split; [exact H1|]. split; [exact H2|exact H3].
Defined.
