(* ===== verification/I128.v ===== *)
(** The 128-bit integer helpers (src/src/yos/impl/libc/i128.c) that compiled
    guests call: two halves for each operand, sixteen bytes stored at the
    address the guest reserved.

    The host's __int128 arithmetic is that of C.  [None]: what C leaves
    undefined, a quotient that does not fit, or a store outside linear memory,
    which the imports do not check. *)
From S2P Require Import Prelude Memory Ctx Runtime ProcTable Sigset Sig Fixtures.

Definition u128 (x : Z) : Z := x mod 2 ^ 128.
Definition s128 (x : Z) : Z := let y := u128 x in if y <? 2 ^ 127 then y else y - 2 ^ 128.

Definition u128_from_halves (lo hi : Z) : Z := Z.lor (Z.shiftl hi 64) lo.

Definition i128_store_at (c : exec_ctx) (dst v : Z) : option exec_ctx :=
  if memory_size c <? dst + 16 then None else Some (set_mem (st64 (st64 (mem c) dst v) (dst + 8) (v / 2 ^ 64)) c).

(** The sixteen bytes at an address. *)
Definition ld128 (m : memory) (a : Z) : Z := ld64 m a + 2 ^ 64 * ld64 m (a + 8).

Definition host_multi3 (c : exec_ctx) (ret a_lo a_hi b_lo b_hi : Z) : option exec_ctx :=
  i128_store_at c ret (u128 (u128_from_halves a_lo a_hi * u128_from_halves b_lo b_hi)).

Definition host_ashlti3 (c : exec_ctx) (ret a_lo a_hi shift : Z) : option exec_ctx :=
  let a := u128_from_halves a_lo a_hi in
  i128_store_at c ret (if (128 <=? shift) || (shift <? 0) then 0 else u128 (Z.shiftl a (Z.land shift 127))).

Definition host_ashrti3 (c : exec_ctx) (ret a_lo a_hi shift : Z) : option exec_ctx :=
  let a := s128 (u128_from_halves a_lo a_hi) in
  i128_store_at c ret (if 128 <=? shift then (if a <? 0 then -1 else 0) else if shift <=? 0 then a else Z.shiftr a shift).

Definition host_lshrti3 (c : exec_ctx) (ret a_lo a_hi shift : Z) : option exec_ctx :=
  let a := u128_from_halves a_lo a_hi in
  i128_store_at c ret (if (128 <=? shift) || (shift <? 0) then 0 else Z.shiftr a shift).

(** The only quotient that does not fit. *)
Definition div_overflows (a b : Z) : bool := (a =? - 2 ^ 127) && (b =? -1).

Definition host_divti3 (c : exec_ctx) (ret a_lo a_hi b_lo b_hi : Z) : option exec_ctx :=
  let a := s128 (u128_from_halves a_lo a_hi) in
  let b := s128 (u128_from_halves b_lo b_hi) in
  if div_overflows a b then None else i128_store_at c ret (if b =? 0 then 0 else Z.quot a b).

Definition host_modti3 (c : exec_ctx) (ret a_lo a_hi b_lo b_hi : Z) : option exec_ctx :=
  let a := s128 (u128_from_halves a_lo a_hi) in
  let b := s128 (u128_from_halves b_lo b_hi) in
  if div_overflows a b then None else i128_store_at c ret (if b =? 0 then 0 else Z.rem a b).

Definition host_udivti3 (c : exec_ctx) (ret a_lo a_hi b_lo b_hi : Z) : option exec_ctx :=
  let a := u128_from_halves a_lo a_hi in
  let b := u128_from_halves b_lo b_hi in
  i128_store_at c ret (if b =? 0 then 0 else a / b).

Definition host_umodti3 (c : exec_ctx) (ret a_lo a_hi b_lo b_hi : Z) : option exec_ctx :=
  let a := u128_from_halves a_lo a_hi in
  let b := u128_from_halves b_lo b_hi in
  i128_store_at c ret (if b =? 0 then 0 else a mod b).

(** * What the 128-bit helpers store, read back as one integer *)

#[local] Abbreviation half x := (0 <= x < 2 ^ 64).

Lemma from_halves lo hi : half lo -> u128_from_halves lo hi = lo + 2 ^ 64 * hi.
Proof. intros H. unfold u128_from_halves. rewrite lor_shiftl by (done || lia). lia. Qed.

Lemma from_halves_range lo hi : half lo -> half hi -> 0 <= u128_from_halves lo hi < 2 ^ 128.
Proof. intros Hl Hh. rewrite from_halves by done. change (2 ^ 128) with (2 ^ 64 * 2 ^ 64). nia. Qed.

Lemma u128_range x : 0 <= u128 x < 2 ^ 128.
Proof. unfold u128. apply Z.mod_pos_bound. lia. Qed.

Lemma s128_range x : - 2 ^ 127 <= s128 x < 2 ^ 127.
Proof. unfold s128. pose proof (u128_range x). change (2 ^ 128) with (2 * 2 ^ 127) in *. destruct (Z.ltb_spec (u128 x) (2 ^ 127)); lia. Qed.

Lemma s128_u128 x : u128 (s128 x) = u128 x.
Proof.
  unfold s128. pose proof (u128_range x). destruct (u128 x <? 2 ^ 127); unfold u128 at 1.
  - by apply Z.mod_small.
  - rewrite <-(Z.mod_small (u128 x) (2 ^ 128)) at 2 by done. replace (u128 x - 2 ^ 128) with (u128 x + (-1) * 2 ^ 128) by lia.
    by rewrite Z.mod_add by lia.
Qed.

Lemma s128_of_signed x : - 2 ^ 127 <= x < 2 ^ 127 -> s128 x = x.
Proof.
  intros H. change (2 ^ 127) with 170141183460469231731687303715884105728 in *. unfold s128, u128.
  change (2 ^ 127) with 170141183460469231731687303715884105728. change (2 ^ 128) with 340282366920938463463374607431768211456.
  destruct (Z.ltb_spec (x mod 340282366920938463463374607431768211456) 170141183460469231731687303715884105728); mlia.
Qed.

(** A quotient of signed 128-bit numbers is one, the overflowing case aside. *)
Lemma quot_fits x y : - 2 ^ 127 <= x < 2 ^ 127 -> - 2 ^ 127 <= y < 2 ^ 127 -> y <> 0 -> ~ (x = - 2 ^ 127 /\ y = -1) ->
  - 2 ^ 127 <= Z.quot x y < 2 ^ 127 /\ - 2 ^ 127 <= Z.rem x y < 2 ^ 127.
Proof.
  intros Hx Hy H0 Hno. generalize dependent (2 ^ 127). intros B Hx Hy Hno.
  pose proof (Z.quot_rem x y H0) as E. pose proof (Z.rem_bound_abs x y H0). pose proof (Z.rem_sign_mul x y H0).
  set (q := Z.quot x y) in *. set (r := Z.rem x y) in *. split; [|lia].
  destruct (Z.eq_dec y (-1)) as [->|]; [lia|]. destruct (Z.eq_dec y 1) as [->|]; [lia|].
  assert (H2 : 2 <= Z.abs y) by lia. assert (Hqy : Z.abs q * Z.abs y <= Z.abs x + Z.abs r) by (rewrite <-Z.abs_mul; lia).
  assert (Z.abs q * 2 <= Z.abs q * Z.abs y) by (apply Z.mul_le_mono_nonneg_l; lia).
  destruct (Z.eq_dec (Z.abs q) 0); [lia|].
  assert (Z.abs y - 1 <= (Z.abs q - 1) * Z.abs y + Z.abs y - 1) by nia. nia.
Qed.

(** The bytes stored are the value modulo [2^128], and no other byte changes. *)
Record stores128 (c : exec_ctx) (ret v : Z) (r : option exec_ctx) : Prop := {
  s1_eq : r = i128_store_at c ret v;
  s1_value : exists c', r = Some c' /\ ld128 (mem c') ret = u128 v /\
    forall lo hi, hi <= ret \/ ret + 16 <= lo -> agree_on lo hi (mem c) (mem c')
}.

Lemma store_spec c ret v : ret + 16 <= memory_size c -> stores128 c ret v (i128_store_at c ret v).
Proof.
  intros H. split; [done|]. unfold i128_store_at. rewrite (proj2 (Z.ltb_ge _ _)) by lia. eexists. split; [done|]. cbn [mem set_mem]. split.
  - unfold ld128. rewrite ld64_st64_ne, !ld64_st64 by lia. unfold u128, u64. change 18446744073709551616 with (2 ^ 64).
    change (2 ^ 128) with (2 ^ 64 * 2 ^ 64). rewrite (Z.rem_mul_r v (2 ^ 64) (2 ^ 64)) by lia. lia.
  - intros lo hi Hd. eapply agree_on_trans; apply st64_frame; lia.
Qed.

Section Ops.
Variables (c : exec_ctx) (ret a_lo a_hi b_lo b_hi : Z).
Hypothesis Hret : ret + 16 <= memory_size c.
Hypothesis Ha : half a_lo /\ half a_hi.
Hypothesis Hb : half b_lo /\ half b_hi.

#[local] Abbreviation a := (a_lo + 2 ^ 64 * a_hi).
#[local] Abbreviation b := (b_lo + 2 ^ 64 * b_hi).

Lemma operand_range : 0 <= a < 2 ^ 128.
Proof using Ha. destruct Ha. rewrite <-from_halves by done. by apply from_halves_range. Qed.

(** The product is the same for signed and for unsigned operands: the low
    128 bits of the product of either reading. *)
Theorem multi3_both_signs :
  exists c', host_multi3 c ret a_lo a_hi b_lo b_hi = Some c' /\
    ld128 (mem c') ret = u128 (a * b) /\ ld128 (mem c') ret = u128 (s128 a * s128 b) /\
    (forall lo hi, hi <= ret \/ ret + 16 <= lo -> agree_on lo hi (mem c) (mem c')).
Proof using Hret Ha Hb.
  unfold host_multi3. rewrite !from_halves by tauto. destruct (s1_value _ _ _ _ (store_spec c ret (u128 (a * b)) Hret)) as (c' & H1 & H2 & H3).
  assert (Hu : forall x, u128 (u128 x) = u128 x) by (intros x; apply Z.mod_small, u128_range). rewrite Hu in H2.
  exists c'. split_and!; [done|done| |done]. rewrite H2. unfold u128. rewrite (Z.mul_mod (s128 a)), (Z.mul_mod a) by lia.
  fold (u128 (s128 a)) (u128 (s128 b)) (u128 a) (u128 b). by rewrite !s128_u128.
Qed.

(** Shifts by less than 128 multiply by the power of two modulo [2^128], or
    divide by it rounding down, as a signed or as an unsigned number; a left or
    logical shift by any other count gives 0, and an arithmetic one the sign, or
    the number itself for a negative count. *)
Theorem shifts128 shift :
  (exists c', host_ashlti3 c ret a_lo a_hi shift = Some c' /\
     ld128 (mem c') ret = if bool_decide (0 <= shift < 128) then u128 (a * 2 ^ shift) else 0) /\
  (exists c', host_lshrti3 c ret a_lo a_hi shift = Some c' /\
     ld128 (mem c') ret = if bool_decide (0 <= shift < 128) then a / 2 ^ shift else 0) /\
  (exists c', host_ashrti3 c ret a_lo a_hi shift = Some c' /\
     s128 (ld128 (mem c') ret) = if shift <? 0 then s128 a else s128 a / 2 ^ shift).
Proof using Hret Ha.
  clear Hb. pose proof operand_range as Hr. unfold host_ashlti3, host_lshrti3, host_ashrti3. rewrite !from_halves by tauto.
  assert (Hs : forall v w, u128 v = w -> exists c', i128_store_at c ret v = Some c' /\ ld128 (mem c') ret = w).
  { intros v w <-. destruct (s1_value _ _ _ _ (store_spec c ret v Hret)) as (c' & H1 & H2 & _). by exists c'. }
  assert (Hu : forall x, u128 (u128 x) = u128 x) by (intros x; apply Z.mod_small, u128_range). split_and!.
  - apply Hs. destruct (Z.leb_spec 128 shift), (Z.ltb_spec shift 0); cbn [orb];
      try (rewrite bool_decide_eq_false_2 by lia; done). rewrite bool_decide_eq_true_2 by lia.
    rewrite Hu. change 127 with (Z.ones 7). rewrite Z.land_ones, Z.mod_small, Z.shiftl_mul_pow2 by (change (2 ^ 7) with 128; lia). done.
  - apply Hs. destruct (Z.leb_spec 128 shift), (Z.ltb_spec shift 0); cbn [orb];
      try (rewrite bool_decide_eq_false_2 by lia; done). rewrite bool_decide_eq_true_2, Z.shiftr_div_pow2 by lia.
    assert (0 < 2 ^ shift) by (apply Z.pow_pos_nonneg; lia). apply Z.mod_small. split; [apply Z.div_pos; lia|].
    apply Z.div_lt_upper_bound; nia.
  - pose proof (s128_range a) as Hsa. set (v := if 128 <=? shift then _ else _).
    destruct (Hs v (u128 v) eq_refl) as (c' & H1 & H2). exists c'. split; [done|]. rewrite H2.
    assert (Hv : v = if shift <? 0 then s128 a else s128 a / 2 ^ shift).
    { unfold v. destruct (Z.leb_spec 128 shift), (Z.ltb_spec shift 0); try lia.
      - assert (2 ^ 127 < 2 ^ shift) by (apply Z.pow_lt_mono_r; lia). destruct (Z.ltb_spec (s128 a) 0).
        + apply Z.div_unique with (r := s128 a + 2 ^ shift); lia.
        + symmetry. apply Z.div_small. lia.
      - destruct (Z.leb_spec shift 0); [done|lia].
      - destruct (Z.leb_spec shift 0); [|by rewrite Z.shiftr_div_pow2 by lia]. replace shift with 0 by lia. by rewrite Z.pow_0_r, Z.div_1_r. }
    assert (Hin : - 2 ^ 127 <= v < 2 ^ 127).
    { rewrite Hv. destruct (Z.ltb_spec shift 0); [done|]. assert (0 < 2 ^ shift) by (apply Z.pow_pos_nonneg; lia). split.
      - apply Z.div_le_lower_bound; nia.
      - apply Z.div_lt_upper_bound; nia. }
    rewrite <-Hv. unfold s128. rewrite Hu. fold (s128 v). by apply s128_of_signed.
Qed.

(** Quotient and remainder of a nonzero divisor satisfy the division
    identity, with a remainder smaller than the divisor and of the sign of the
    dividend; the only signed division left undefined is that of the least
    number by -1; a zero divisor gives zeroes. *)
Theorem division128 :
  let sa := s128 a in let sb := s128 b in
  (sb <> 0 -> ~ (sa = - 2 ^ 127 /\ sb = -1) ->
   exists cq cr, host_divti3 c ret a_lo a_hi b_lo b_hi = Some cq /\ host_modti3 c ret a_lo a_hi b_lo b_hi = Some cr /\
     let q := s128 (ld128 (mem cq) ret) in let r := s128 (ld128 (mem cr) ret) in
     sa = sb * q + r /\ Z.abs r < Z.abs sb /\ 0 <= r * sa) /\
  (b <> 0 ->
   exists cq cr, host_udivti3 c ret a_lo a_hi b_lo b_hi = Some cq /\ host_umodti3 c ret a_lo a_hi b_lo b_hi = Some cr /\
     let q := ld128 (mem cq) ret in let r := ld128 (mem cr) ret in a = b * q + r /\ 0 <= r < b) /\
  (host_divti3 c ret a_lo a_hi b_lo b_hi = None <-> sa = - 2 ^ 127 /\ sb = -1) /\
  (b = 0 -> exists cq, host_udivti3 c ret a_lo a_hi b_lo b_hi = Some cq /\ host_divti3 c ret a_lo a_hi b_lo b_hi = Some cq /\ ld128 (mem cq) ret = 0).
Proof using Hret Ha Hb.
  cbn zeta. pose proof operand_range as Hra. assert (Hrb : 0 <= b < 2 ^ 128) by (destruct Hb; rewrite <-from_halves by done; by apply from_halves_range).
  unfold host_divti3, host_modti3, host_udivti3, host_umodti3, div_overflows. rewrite !from_halves by tauto.
  pose proof (s128_range a) as Hsa. pose proof (s128_range b) as Hsb.
  assert (Hs : forall v, exists c', i128_store_at c ret v = Some c' /\ ld128 (mem c') ret = u128 v).
  { intros v. destruct (s1_value _ _ _ _ (store_spec c ret v Hret)) as (c' & H1 & H2 & _). by exists c'. }
  assert (Hov : forall x y : Z, ((s128 a =? x) && (s128 b =? y)) = bool_decide (s128 a = x /\ s128 b = y)).
  { intros x y. apply eq_true_iff_eq. by rewrite andb_true_iff, !Z.eqb_eq, bool_decide_eq_true. }
  rewrite !Hov. split_and!.
  - intros Hb0 Hno. rewrite bool_decide_eq_false_2 by done. rewrite (proj2 (Z.eqb_neq (s128 b) 0)) by done.
    destruct (Hs (Z.quot (s128 a) (s128 b))) as (cq & Hq & Eq). destruct (Hs (Z.rem (s128 a) (s128 b))) as (cr & Hr & Er).
    exists cq, cr. split; [done|]. split; [done|]. rewrite Eq, Er.
    assert (Hsu : forall x, s128 (u128 x) = s128 x) by (intros x; unfold s128, u128; by rewrite Z.mod_mod by lia).
    rewrite !Hsu. pose proof (quot_fits _ _ Hsa Hsb Hb0 Hno) as [Hq1 Hr1]. rewrite (s128_of_signed _ Hq1), (s128_of_signed _ Hr1).
    pose proof (Z.quot_rem (s128 a) (s128 b) Hb0). pose proof (Z.rem_bound_abs (s128 a) (s128 b) Hb0).
    pose proof (Z.rem_sign_mul (s128 a) (s128 b) Hb0).
    split_and!; [done|done|lia].
  - intros Hb0. rewrite (proj2 (Z.eqb_neq b 0) Hb0). destruct (Hs (a / b)) as (cq & Hq & Eq). destruct (Hs (a mod b)) as (cr & Hr & Er).
    exists cq, cr. split; [done|]. split; [done|]. rewrite Eq, Er. pose proof (Z.mod_pos_bound a b ltac:(lia)).
    assert (0 <= a / b <= a) by (split; [apply Z.div_pos; lia|apply Z.div_le_upper_bound; nia]).
    unfold u128. rewrite !Z.mod_small by lia. pose proof (Z.div_mod a b Hb0). lia.
  - destruct (bool_decide_reflect (s128 a = - 2 ^ 127 /\ s128 b = -1)) as [?|Hn]; [done|]. split; [|done].
    edestruct Hs as (x & E & _). rewrite E. done.
  - intros Hb0. rewrite Hb0. destruct (Hs 0) as (cq & Hq & Eq). exists cq. split; [done|]. split; [|by rewrite Eq].
    change (s128 0) with 0. rewrite bool_decide_eq_false_2 by lia. done.
Qed.
End Ops.

Lemma multi3_both_signs_witness : exists c', host_multi3 demo_exec 1024 5 0 (2 ^ 64 - 3) (2 ^ 64 - 1) = Some c' /\ s128 (ld128 (mem c') 1024) = -15.
Proof.
  destruct (multi3_both_signs demo_exec 1024 5 0 (2 ^ 64 - 3) (2 ^ 64 - 1) ltac:(vm_compute; discriminate)
    ltac:(vm_compute; intuition discriminate) ltac:(vm_compute; intuition discriminate)) as (c' & H1 & H2 & _).
  exists c'. split; [exact H1|]. rewrite H2. reflexivity.
Defined.

Lemma shifts128_witness : exists c', host_ashrti3 demo_exec 1024 0 (2 ^ 63) 64 = Some c' /\ s128 (ld128 (mem c') 1024) = - 2 ^ 63.
Proof.
  destruct (shifts128 demo_exec 1024 0 (2 ^ 63) ltac:(vm_compute; discriminate) ltac:(vm_compute; intuition discriminate) 64) as (_ & _ & c' & H1 & H2).
  exists c'. split; [exact H1|]. rewrite H2. reflexivity.
Defined.

Lemma division128_witness :
  host_divti3 demo_exec 1024 0 (2 ^ 63) (2 ^ 64 - 1) (2 ^ 64 - 1) = None /\
  exists cq, host_divti3 demo_exec 1024 7 0 0 0 = Some cq /\ ld128 (mem cq) 1024 = 0.
Proof.
  destruct (division128 demo_exec 1024 0 (2 ^ 63) (2 ^ 64 - 1) (2 ^ 64 - 1) ltac:(vm_compute; discriminate)
    ltac:(vm_compute; intuition discriminate) ltac:(vm_compute; intuition discriminate)) as (_ & _ & [_ Hb] & _).
  destruct (division128 demo_exec 1024 7 0 0 0 ltac:(vm_compute; discriminate)
    ltac:(vm_compute; intuition discriminate) ltac:(vm_compute; intuition discriminate)) as (_ & _ & _ & Hz).
  split; [apply Hb; split; reflexivity|]. destruct (Hz eq_refl) as (cq & _ & H1 & H2). by exists cq.
Defined.
