(* ===== verification/Strto.v ===== *)
(** The string to number functions (src/src/yos/impl/libc/strto.c): the guest's
    string is read by the host's strtol family, with a [long] of 64 bits, and
    where the reading stopped is stored as an offset of linear memory.

    The C functions are defined here from the standard.  [None]: the code reads
    or writes outside linear memory.  strtod and strtof, whose value is the
    host's, are left out. *)
From S2P Require Import Prelude Memory Ctx CString.

Definition ERANGE : Z := 34.
Definition LLONG_MAX : Z := 9223372036854775807.
Definition LLONG_MIN : Z := - 9223372036854775808.
Definition ULLONG_MAX : Z := 18446744073709551615.

(** * strtoll and strtoull *)

Definition isspace (ch : Z) : bool := (ch =? 32) || ((9 <=? ch) && (ch <=? 13)).

(** The value of a digit in base 36; 36 for any other character. *)
Definition digit_of (ch : Z) : Z :=
  if (48 <=? ch) && (ch <=? 57) then ch - 48
  else if (97 <=? ch) && (ch <=? 122) then ch - 87
  else if (65 <=? ch) && (ch <=? 90) then ch - 55
  else 36.
Definition value_of (base : Z) (ds : bytes) : Z := fold_left (fun a ch => a * base + digit_of ch) ds 0.

Definition take_sign (s : bytes) : bool * bytes :=
  match s with
  | ch :: s' => if ch =? 45 then (true, s') else if ch =? 43 then (false, s') else (false, s)
  | [] => (false, s)
  end.

(** A prefix counts only in front of a digit. *)
Definition hex_prefix (s : bytes) : bool :=
  match s with a :: b :: d :: _ => (a =? 48) && ((b =? 120) || (b =? 88)) && (digit_of d <? 16) | _ => false end.
Definition take_base (base : Z) (s : bytes) : Z * bytes :=
  if ((base =? 0) || (base =? 16)) && hex_prefix s then (16, drop 2 s)
  else if base =? 0 then (match s with ch :: _ => if ch =? 48 then 8 else 10 | [] => 10 end, s)
  else (base, s).

(** Sign, magnitude, and the text behind the number. *)
Definition strto_num (base : Z) (s : bytes) : option (bool * Z * bytes) :=
  let '(neg, s2) := take_sign (snd (span isspace s)) in
  let '(b, s3) := take_base base s2 in
  let '(ds, rest) := span (fun ch => digit_of ch <? b) s3 in
  match ds with [] => None | _ => Some (neg, value_of b ds, rest) end.

Definition bad_base (base : Z) : bool := (base <? 0) || (base =? 1) || (36 <? base).

(** The value, errno, and how many characters were read; no position is stored
    for an invalid base. *)
Definition strto (finish : bool -> Z -> Z * Z) (base : Z) (s : bytes) : Z * Z * option Z :=
  if bad_base base then (0, EINVAL, None)
  else match strto_num base s with
       | None => (0, 0, Some 0)
       | Some (neg, m, rest) => (finish neg m, Some (blen s - blen rest))
       end.

Definition finish_signed (neg : bool) (m : Z) : Z * Z :=
  let v := if neg then - m else m in
  if LLONG_MAX <? v then (LLONG_MAX, ERANGE) else if v <? LLONG_MIN then (LLONG_MIN, ERANGE) else (v, 0).
Definition finish_unsigned (neg : bool) (m : Z) : Z * Z :=
  if ULLONG_MAX <? m then (ULLONG_MAX, ERANGE) else ((if neg then u64 (- m) else m), 0).

Definition strtoll : Z -> bytes -> Z * Z * option Z := strto finish_signed.
Definition strtoull : Z -> bytes -> Z * Z * option Z := strto finish_unsigned.

(** * The bridge *)

Section Strto.
Variable remap_errno_h2g : Z -> Z.

Definition host_to_wasm_off (c : exec_ctx) (off : Z) : Z := if memory_size c <=? off then 0 else u32 off.

(** [DEFINE_STRTO_INT]; [ret]: the conversion to the guest's result type. *)
Definition DEFINE_STRTO_INT (host_fn : Z -> bytes -> Z * Z * option Z) (ret : Z -> Z)
    (c : exec_ctx) (str_off endp_off base : Z) : option (Z * exec_ctx) :=
  if (str_off =? 0) || (memory_size c <=? str_off) then Some (0, c)
  else
    s ← cstr c str_off;
    let '(r, e, stop) := host_fn base s in
    let c1 := if e =? 0 then c else write_errno remap_errno_h2g c e in
    if negb (endp_off =? 0) && (u32 (endp_off + 4) <=? memory_size c) then
      if memory_size c <? endp_off + 4 then None
      else
        let stop_off := match stop with Some n => host_to_wasm_off c (str_off + n) | None => 0 end in
        Some (ret r, set_mem (st32 (mem c1) endp_off stop_off) c1)
    else Some (ret r, c1).

Definition m3_yos_strtol := DEFINE_STRTO_INT strtoll s32.
Definition m3_yos_strtoll := DEFINE_STRTO_INT strtoll id.
Definition m3_yos_strtoul := DEFINE_STRTO_INT strtoull u32.
Definition m3_yos_strtoull := DEFINE_STRTO_INT strtoull id.
Definition m3_yos_strtoimax := DEFINE_STRTO_INT strtoll id.
Definition m3_yos_strtoumax := DEFINE_STRTO_INT strtoull id.
Definition m3_yos_strtoq := DEFINE_STRTO_INT strtoll id.
Definition m3_yos_strtouq := DEFINE_STRTO_INT strtoull id.
End Strto.
