(* ===== verification/Decimal.v ===== *)
(** Numerals and their values, and the decimal print of an integer: what the
    host's strtol reads and its snprintf writes. *)
From S2P Require Import Prelude Memory Ctx CString Strto.

(** * Values *)

Lemma value_of_app b ds d : value_of b (ds ++ [d]) = value_of b ds * b + digit_of d.
Proof. unfold value_of. by rewrite fold_left_app. Qed.

Lemma digit_of_nonneg ch : 0 <= digit_of ch.
Proof.
  unfold digit_of. destruct (Z.leb_spec 48 ch), (Z.leb_spec ch 57), (Z.leb_spec 97 ch), (Z.leb_spec ch 122), (Z.leb_spec 65 ch), (Z.leb_spec ch 90);
    cbn [andb]; lia.
Qed.

Lemma value_of_nonneg b ds : 0 <= b -> 0 <= value_of b ds.
Proof.
  intros Hb. induction ds as [|d ds IH] using rev_ind; [done|]. rewrite value_of_app. pose proof (digit_of_nonneg d). nia.
Qed.

(** * Numerals *)

(** White space, a sign, digits of the base, and what follows. *)
Record numeral (base : Z) (neg : bool) (sp sg ds rest : bytes) : Prop := {
  nu_base : 2 <= base <= 36;
  nu_space : Forall (fun ch => isspace ch = true) sp;
  nu_sign : if neg then sg = [45] else sg = [] \/ sg = [43];
  nu_digits : ds <> [] /\ Forall (fun ch => digit_of ch < base) ds;
  nu_stop : match rest with ch :: _ => base <= digit_of ch | [] => True end;
  nu_prefix : base = 16 -> hex_prefix (ds ++ rest) = false
}.

Lemma digit_not_space ch : digit_of ch < 36 -> isspace ch = false /\ (ch =? 45) = false /\ (ch =? 43) = false.
Proof.
  unfold digit_of, isspace. intros H. destruct (Z.eqb_spec ch 32), (Z.eqb_spec ch 45), (Z.eqb_spec ch 43); subst; try (cbn in H; lia).
  destruct (Z.leb_spec 9 ch), (Z.leb_spec ch 13); try done.
  assert (ch = 9 \/ ch = 10 \/ ch = 11 \/ ch = 12 \/ ch = 13) as Hc by lia. destruct Hc as [->|[->|[->|[->| ->]]]]; cbn in H; lia.
Qed.

Lemma take_sign_numeral base neg sp sg ds rest :
  numeral base neg sp sg ds rest -> take_sign (snd (span isspace (sp ++ sg ++ ds ++ rest))) = (neg, ds ++ rest).
Proof.
  intros [Hb Hsp Hsg [Hne Hd] _ _]. destruct ds as [|d ds]; [done|]. apply Forall_cons in Hd as [Hd _].
  destruct (digit_not_space d) as (H1 & H2 & H3); [lia|]. rewrite span_app; [cbn [snd]|done|].
  - destruct neg; [by subst sg|]. destruct Hsg as [-> | ->]; [|done]. cbn. by rewrite H2, H3.
  - destruct neg; [by subst sg|]. destruct Hsg as [-> | ->]; done.
Qed.

Lemma strto_num_numeral base neg sp sg ds rest :
  numeral base neg sp sg ds rest -> strto_num base (sp ++ sg ++ ds ++ rest) = Some (neg, value_of base ds, rest).
Proof.
  intros H. unfold strto_num. rewrite (take_sign_numeral _ _ _ _ _ _ H). destruct H as [Hb _ _ [Hne Hd] Hs Hp].
  assert (Hbase : take_base base (ds ++ rest) = (base, ds ++ rest)).
  { unfold take_base. destruct (Z.eqb_spec base 0); [lia|]. destruct (Z.eqb_spec base 16) as [E|]; [by rewrite (Hp E)|done]. }
  rewrite Hbase. rewrite span_app.
  - by destruct ds.
  - eapply Forall_impl; [exact Hd|]. intros ch Hch. by apply Z.ltb_lt.
  - destruct rest as [|ch rest]; [done|]. by apply Z.ltb_ge.
Qed.

Lemma strto_numeral finish base neg sp sg ds rest :
  numeral base neg sp sg ds rest ->
  strto finish base (sp ++ sg ++ ds ++ rest) = (finish neg (value_of base ds), Some (blen sp + blen sg + blen ds)).
Proof.
  intros H. unfold strto. rewrite (strto_num_numeral _ _ _ _ _ _ H). destruct H as [Hb _ _ _ _ _].
  unfold bad_base. destruct (Z.ltb_spec base 0), (Z.eqb_spec base 1), (Z.ltb_spec 36 base); try lia. cbn [orb].
  do 2 f_equal. rewrite !blen_app. lia.
Qed.

Definition signed (neg : bool) (m : Z) : Z := if neg then - m else m.

Lemma finish_signed_in neg m : LLONG_MIN <= signed neg m <= LLONG_MAX -> finish_signed neg m = (signed neg m, 0).
Proof.
  intros H. unfold finish_signed. fold (signed neg m). destruct (Z.ltb_spec LLONG_MAX (signed neg m)); [lia|].
  destruct (Z.ltb_spec (signed neg m) LLONG_MIN); [lia|done].
Qed.

Lemma s32_in v : -2147483648 <= v < 2147483648 -> s32 v = v.
Proof.
  intros H. unfold s32. destruct (Z.le_gt_cases 0 v).
  - rewrite u32_small by lia. by destruct (Z.ltb_spec v 2147483648); [|lia].
  - replace (u32 v) with (v + 4294967296) by (unfold u32; mlia). destruct (Z.ltb_spec (v + 4294967296) 2147483648); lia.
Qed.

(** * Decimal print *)

Fixpoint dec_go (fuel : nat) (n : Z) (acc : bytes) : bytes :=
  match fuel with
  | O => acc
  | S f => if n <? 10 then (48 + n) :: acc else dec_go f (n / 10) ((48 + n mod 10) :: acc)
  end.
Definition decimal (x : Z) : bytes := if x <? 0 then 45 :: dec_go 20 (- x) [] else dec_go 20 x [].

Lemma digit_of_dec n : 0 <= n < 10 -> digit_of (48 + n) = n.
Proof. intros H. unfold digit_of. destruct (Z.leb_spec 48 (48 + n)), (Z.leb_spec (48 + n) 57); cbn [andb]; lia. Qed.

Lemma dec_go_spec f n acc :
  0 <= n < 10 ^ Z.of_nat f -> Forall (fun ch => 48 <= ch <= 57) acc ->
  Forall (fun ch => 48 <= ch <= 57) (dec_go f n acc) /\
  exists ds, dec_go f n acc = ds ++ acc /\ (f <> O -> ds <> []) /\ (f <> O -> value_of 10 ds = n).
Proof.
  revert n acc. induction f as [|f IH]; intros n acc Hn Ha; cbn [dec_go]; [split; [done|by exists []]|].
  destruct (Z.ltb_spec n 10).
  - split; [constructor; [lia|done]|]. exists [48 + n]. split_and!; [done|done|]. intros _. unfold value_of. cbn [fold_left].
    rewrite digit_of_dec by lia. lia.
  - rewrite Nat2Z.inj_succ, Z.pow_succ_r in Hn by lia.
    destruct (IH (n / 10) ((48 + n mod 10) :: acc)) as [H1 (ds & H2 & H3 & H4)]; [mlia|constructor; [mlia|done]|].
    split; [done|]. exists (ds ++ [48 + n mod 10]). split_and!.
    + rewrite H2. by rewrite <-app_assoc.
    + intros _ Hc. by apply app_eq_nil in Hc as [_ Hc].
    + intros _. destruct f as [|f]; [cbn in Hn; lia|]. rewrite value_of_app, H4, digit_of_dec by (done || mlia). mlia.
Qed.

Lemma dec_go_length f n acc : (length (dec_go f n acc) <= f + length acc)%nat.
Proof.
  revert n acc. induction f as [|f IH]; intros n acc; cbn [dec_go]; [lia|]. destruct (n <? 10); [cbn [length]; lia|].
  pose proof (IH (n / 10) ((48 + n mod 10) :: acc)) as H. cbn [length] in H. lia.
Qed.

(** A sign and at most twenty digits. *)
Lemma decimal_shape x :
  - 10 ^ 20 < x < 10 ^ 20 ->
  exists neg sg ds, decimal x = sg ++ ds /\ (if neg : bool then sg = [45] else sg = []) /\ ds <> [] /\
    Forall (fun ch => 48 <= ch <= 57) ds /\ blen ds <= 20 /\ signed neg (value_of 10 ds) = x.
Proof.
  intros Hx. unfold decimal, signed.
  assert (Hgo : forall n, 0 <= n < 10 ^ 20 -> exists ds, dec_go 20 n [] = ds /\ ds <> [] /\ value_of 10 ds = n /\
    Forall (fun ch => 48 <= ch <= 57) ds /\ blen ds <= 20).
  { intros n Hn. destruct (dec_go_spec 20 n [] Hn ltac:(constructor)) as [H1 (ds & H2 & H3 & H4)]. rewrite app_nil_r in H2.
    pose proof (dec_go_length 20 n []) as Hl. exists ds. rewrite H2 in H1, Hl. cbn [length] in Hl. unfold blen.
    split_and!; [done|by apply H3|by apply H4|done|lia]. }
  destruct (Z.ltb_spec x 0).
  - destruct (Hgo (- x)) as (ds & E & Hne & Hv & Hf & Hl); [lia|]. exists true, [45], ds. rewrite E. split_and!; try done. lia.
  - destruct (Hgo x) as (ds & E & Hne & Hv & Hf & Hl); [lia|]. by exists false, [], ds.
Qed.

Lemma decimal_digits ds : Forall (fun ch => 48 <= ch <= 57) ds -> Forall (fun ch => digit_of ch < 10) ds /\ Forall byte_ok ds.
Proof.
  intros H. split; (eapply Forall_impl; [exact H|]); intros ch Hch; cbn beta in *; [|unfold byte_ok; lia].
  replace ch with (48 + (ch - 48)) by lia. rewrite digit_of_dec; lia.
Qed.

Lemma decimal_numeral x rest :
  - 10 ^ 20 < x < 10 ^ 20 -> match rest with ch :: _ => 10 <= digit_of ch | [] => True end ->
  exists neg sg ds, decimal x = sg ++ ds /\ numeral 10 neg [] sg ds rest /\ signed neg (value_of 10 ds) = x.
Proof.
  intros Hx Hr. destruct (decimal_shape x Hx) as (neg & sg & ds & E & Hs & Hne & Hf & _ & Hv).
  destruct (decimal_digits ds Hf) as [Hd _]. exists neg, sg, ds. split_and!; [done| |done].
  split; try done. destruct neg; [done|by left].
Qed.

Lemma decimal_bytes x : - 10 ^ 20 < x < 10 ^ 20 -> Forall byte_ok (decimal x).
Proof.
  intros Hx. destruct (decimal_shape x Hx) as (neg & sg & ds & -> & Hs & _ & Hf & _). apply Forall_app. split; [|by apply decimal_digits].
  destruct neg; subst sg; by repeat constructor.
Qed.
