(* ===== verification/Vfs.v ===== *)
(** The virtual file systems (src/src/yos/vfs/mount.c, vfs/file.c): the table of
    mount points, which decides whether a path is served by a virtual file
    system and by which, and the table of open virtual files.

    [O] stands for a pointer to a file system's operations.  A path is the bytes
    of a C string, without its NUL. *)
From S2P Require Import Prelude Memory Ctx CString.

Definition YOS_MOUNT_PATH_MAX : Z := 256.
Definition YOS_MAX_MOUNTS : Z := 16.
Definition YOS_VFS_FD_BASE : Z := 1000.
Definition YOS_MAX_VFS_FILES : Z := 256.

Definition SLASH : Z := 47.

(** Whether [strncmp(a, b, n)] is 0, for strings without a NUL. *)
Definition strncmp_eq (a b : bytes) (n : Z) : bool := bool_decide (take (Z.to_nat n) a = take (Z.to_nat n) b).

(** * Mount points *)

Record yos_mount {O : Type} : Type := Mount { m_path : bytes; m_ops : O }.
Arguments yos_mount : clear implicits.

(** [mounts[0 .. count)]. *)
Abbreviation yos_mount_table O := (list (yos_mount O)).

Section Mounts.
Context {O : Type}.

Definition yos_mount_add (t : yos_mount_table O) (path : bytes) (ops : O) : Z * yos_mount_table O :=
  if YOS_MAX_MOUNTS <=? Z.of_nat (length t) then (- ENOMEM, t)
  else if YOS_MOUNT_PATH_MAX <=? blen path then (- ENAMETOOLONG, t)
  else (0, t ++ [Mount O path ops]).

Definition mount_path_matches (mount_path path : bytes) : Z :=
  if negb (strncmp_eq path mount_path (blen mount_path)) then 0
  else
    let next := nth (length mount_path) path 0 in
    if (next =? 0) || (next =? SLASH) then blen mount_path else 0.

(** One round of the search: the best match so far and its length. *)
Definition better_match (path : bytes) (best : option (yos_mount O) * Z) (m : yos_mount O) : option (yos_mount O) * Z :=
  let match_len := mount_path_matches (m_path m) path in
  if snd best <? match_len then (Some m, match_len) else best.

Definition skip_slash (s : bytes) : bytes := match s with ch :: s' => if ch =? SLASH then s' else s | [] => [] end.

(** The operations, and the path below the mount point. *)
Definition yos_mount_resolve (t : yos_mount_table O) (path : bytes) : option O * bytes :=
  match foldl (better_match path) (None, 0) t with
  | (None, _) => (None, path)
  | (Some m, best_len) => (Some (m_ops m), skip_slash (drop (Z.to_nat best_len) path))
  end.
End Mounts.

(** * Open virtual files *)

(** [enum yos_procfs_type]. *)
Inductive yos_procfs_type : Type :=
| YOS_PROCFS_ROOT
| YOS_PROCFS_SELF
| YOS_PROCFS_PID_DIR
| YOS_PROCFS_STAT
| YOS_PROCFS_CMDLINE
| YOS_PROCFS_STATUS
| YOS_PROCFS_COMM
| YOS_PROCFS_EXE
| YOS_PROCFS_CWD
| YOS_PROCFS_MOUNTS
| YOS_PROCFS_MEMINFO
| YOS_PROCFS_VERSION
| YOS_PROCFS_UPTIME.

#[export] Instance yos_procfs_type_eq_dec : EqDecision yos_procfs_type.
Proof. solve_decision. Defined.

(** [vf_content]: the buffer the file system generated; [None] when there is
    none. *)
Record yos_file {O : Type} : Type := File {
  vf_in_use : bool;
  vf_ops : option O;
  vf_position : Z;
  vf_dir_index : Z;
  vf_pid : Z;
  vf_type : yos_procfs_type;
  vf_content : option bytes;
  vf_length : Z;
}.
Arguments yos_file : clear implicits.

(** [files[YOS_MAX_VFS_FILES]]. *)
Abbreviation yos_file_table O := (list (yos_file O)).

Section Files.
Context {O : Type}.

Definition zero_file : yos_file O := File O false None 0 0 0 YOS_PROCFS_ROOT None 0.

Definition set_vf_in_use (v : bool) (f : yos_file O) : yos_file O :=
  File O v (vf_ops f) (vf_position f) (vf_dir_index f) (vf_pid f) (vf_type f) (vf_content f) (vf_length f).
Definition set_vf_position (v : Z) (f : yos_file O) : yos_file O :=
  File O (vf_in_use f) (vf_ops f) v (vf_dir_index f) (vf_pid f) (vf_type f) (vf_content f) (vf_length f).
Definition set_vf_dir_index (v : Z) (f : yos_file O) : yos_file O :=
  File O (vf_in_use f) (vf_ops f) (vf_position f) v (vf_pid f) (vf_type f) (vf_content f) (vf_length f).
Definition set_vf_content (v : option bytes) (n : Z) (f : yos_file O) : yos_file O :=
  File O (vf_in_use f) (vf_ops f) (vf_position f) (vf_dir_index f) (vf_pid f) (vf_type f) v n.

Definition yos_file_table_init : yos_file_table O := replicate 256 zero_file.

Definition yos_file_alloc (t : yos_file_table O) : Z * yos_file_table O :=
  match list_find (fun f => vf_in_use f = false) t with
  | Some (i, _) => (YOS_VFS_FD_BASE + Z.of_nat i, <[i := set_vf_in_use true zero_file]> t)
  | None => (- EMFILE, t)
  end.

(** The slot a virtual descriptor names. *)
Definition file_index (fd : Z) : option nat :=
  if fd <? YOS_VFS_FD_BASE then None
  else if YOS_MAX_VFS_FILES <=? fd - YOS_VFS_FD_BASE then None
  else Some (Z.to_nat (fd - YOS_VFS_FD_BASE)).

(** [free(f->content)] drops the buffer; the length stays. *)
Definition yos_file_free (t : yos_file_table O) (fd : Z) : yos_file_table O :=
  match file_index fd with
  | Some i => alter (fun f => set_vf_in_use false (set_vf_content None (vf_length f) f)) i t
  | None => t
  end.

Definition yos_file_get (t : yos_file_table O) (fd : Z) : option (nat * yos_file O) :=
  i ← file_index fd; f ← t !! i; if vf_in_use f then Some (i, f) else None.

Definition yos_is_virtual_fd (fd : Z) : bool := YOS_VFS_FD_BASE <=? fd.
End Files.
