(* ===== verification/VfsProps.v ===== *)
(** The mount table finds the longest mount point above a path, and the table of
    virtual files hands out the lowest free descriptor and keeps the others. *)
From Stdlib Require Import Strings.String.
From S2P Require Import Prelude Memory Ctx CString Vfs.

(** * Mount points *)

(** [path] is the mount point, or lies below it. *)
Definition covers (mp path : bytes) : Prop :=
  exists rest, path = mp ++ rest /\ (rest = [] \/ exists r, rest = SLASH :: r).

#[export] Instance covers_dec mp path : Decision (covers mp path).
Proof.
  refine (cast_if_and (decide (take (length mp) path = mp))
            (decide (drop (length mp) path = [] \/ head (drop (length mp) path) = Some SLASH))).
  - exists (drop (length mp) path). split; [by rewrite <-(take_drop (length mp) path) at 1; f_equal|].
    destruct (drop (length mp) path) as [|x r]; [by left|right; exists r]. destruct o as [?|[= ->]]; [done|done].
  - intros (rest & -> & Hr). rewrite drop_app_length in n. destruct Hr as [-> |[r ->]]; tauto.
  - intros (rest & -> & _). by rewrite take_app_length in n.
Defined.

Section MountProps.
Context {O : Type}.
Implicit Types (t : yos_mount_table O) (m : yos_mount O).

Lemma matches_spec mp path :
  Forall (fun b => b <> 0) path -> mount_path_matches mp path = if decide (covers mp path) then blen mp else 0.
Proof.
  intros Hc. unfold mount_path_matches, strncmp_eq, blen. rewrite Nat2Z.id, firstn_all. case_decide as H.
  - destruct H as (rest & -> & Hr). rewrite take_app_length, bool_decide_eq_true_2 by done. cbn [negb].
    rewrite app_nth2, Nat.sub_diag by lia. destruct Hr as [-> |[r ->]]; done.
  - destruct (bool_decide_reflect (take (length mp) path = mp)) as [E|]; [|done]. cbn [negb].
    rewrite <-(take_drop (length mp) path) in H, Hc. rewrite E in H, Hc. rewrite <-(take_drop (length mp) path), E.
    rewrite app_nth2, Nat.sub_diag by lia. destruct (drop (length mp) path) as [|x r]; [destruct H; exists []; eauto|].
    cbn [nth]. apply Forall_app in Hc as [_ Hc]. apply Forall_cons in Hc as [Hx _].
    destruct (Z.eqb_spec x 0), (Z.eqb_spec x SLASH) as [->|]; try done. destruct H. exists (SLASH :: r). eauto.
Qed.

(** The best match of the search over a prefix of the table. *)
Record best_of (path : bytes) (t : list (yos_mount O)) (m : yos_mount O) (l : Z) : Prop := {
  bo_len : l = blen (m_path m) /\ 0 < l;
  bo_covers : covers (m_path m) path;
  bo_in : exists i, t !! i = Some m /\
    (forall j m', t !! j = Some m' -> covers (m_path m') path -> blen (m_path m') <= l) /\
    (forall j m', (j < i)%nat -> t !! j = Some m' -> covers (m_path m') path -> blen (m_path m') < l)
}.

Lemma search_spec path t :
  Forall (fun b => b <> 0) path ->
  match foldl (better_match path) (None, 0) t with
  | (None, l) => l = 0 /\ forall m, m ∈ t -> covers (m_path m) path -> m_path m = []
  | (Some m, l) => best_of path t m l
  end.
Proof.
  intros Hc. induction t as [|x t IH] using rev_ind.
  - cbn. split; [done|]. intros m Hm. by apply elem_of_nil in Hm.
  - rewrite foldl_snoc. destruct (foldl (better_match path) (None, 0) t) as [o l]. unfold better_match. cbn [snd].
    rewrite matches_spec by done. pose proof (blen_nonneg (m_path x)). destruct (decide (covers (m_path x) path)) as [Hx|Hx].
    + destruct (Z.ltb_spec l (blen (m_path x))) as [Hl|Hl].
      * assert (Hall : forall j m', t !! j = Some m' -> covers (m_path m') path -> blen (m_path m') <= l).
        { destruct o as [m|]; intros j m' Hj Hm'.
          - destruct IH as [_ _ (i & _ & Ha & _)]. by eapply Ha.
          - destruct IH as [-> IH]. rewrite (IH m'); [done|by eapply list_elem_of_lookup_2|done]. }
        assert (0 <= l) by (destruct o; [destruct IH as [[? ?] _ _]; lia|destruct IH; lia]).
        split; [by split; [done|lia]|done|]. exists (length t). split_and!.
        -- by rewrite lookup_app_r, Nat.sub_diag by lia.
        -- intros j m' Hj Hm'. apply lookup_snoc_Some in Hj as [[_ Hj]|[_ ->]]; [|done]. specialize (Hall _ _ Hj Hm'). lia.
        -- intros j m' Hlt Hj Hm'. rewrite lookup_app_l in Hj by lia. specialize (Hall _ _ Hj Hm'). lia.
      * destruct o as [m|].
        -- destruct IH as [Hlen Hcv (i & Hi & Ha & Hb)]. split; [done|done|]. exists i. apply lookup_lt_Some in Hi as Hil. split_and!.
           ++ by rewrite lookup_app_l.
           ++ intros j m' Hj Hm'. apply lookup_snoc_Some in Hj as [[_ Hj]|[_ ->]]; [by eapply Ha|done].
           ++ intros j m' Hlt Hj. rewrite lookup_app_l in Hj by lia. by eapply Hb.
        -- destruct IH as [-> IH]. split; [done|]. intros m [Hm| ->%list_elem_of_singleton]%elem_of_app Hcv; [by apply IH|].
           apply length_zero_iff_nil. unfold blen in *. lia.
    + destruct o as [m|].
      * destruct IH as [Hlen Hcv (i & Hi & Ha & Hb)]. rewrite (proj2 (Z.ltb_ge l 0)) by lia. split; [done|done|]. exists i. apply lookup_lt_Some in Hi as Hil. split_and!.
        -- by rewrite lookup_app_l.
        -- intros j m' Hj Hm'. apply lookup_snoc_Some in Hj as [[_ Hj]|[_ ->]]; [by eapply Ha|done].
        -- intros j m' Hlt Hj. rewrite lookup_app_l in Hj by lia. by eapply Hb.
      * destruct IH as [-> IH]. cbn [Z.ltb]. split; [done|]. intros m [Hm| ->%list_elem_of_singleton]%elem_of_app Hcv; [by apply IH|done].
Qed.

(** a path is served by the longest mount point that is the path itself or a
    directory above it, the first of them in the table; what is left of the path
    is the part below the mount point.  When there is none, the path goes to the
    host as it is. *)
Theorem mount_resolve_longest t path :
  Forall (fun b => b <> 0) path ->
  match yos_mount_resolve t path with
  | (Some ops, rest) => exists i m, t !! i = Some m /\ m_ops m = ops /\
      (path = m_path m ++ rest \/ path = m_path m ++ SLASH :: rest) /\ covers (m_path m) path /\
      (forall j m', t !! j = Some m' -> covers (m_path m') path -> blen (m_path m') <= blen (m_path m)) /\
      (forall j m', (j < i)%nat -> t !! j = Some m' -> covers (m_path m') path -> blen (m_path m') < blen (m_path m))
  | (None, rest) => rest = path /\ forall m, m ∈ t -> covers (m_path m) path -> m_path m = []
  end.
Proof.
  intros Hc. pose proof (search_spec path t Hc) as H. unfold yos_mount_resolve.
  destruct (foldl (better_match path) (None, 0) t) as [[m|] l]; [|by destruct H].
  destruct H as [[-> Hl] Hcv (i & Hi & Ha & Hb)]. exists i, m. split; [done|]. split; [done|]. split; [|by split].
  destruct Hcv as (rest & -> & Hr). unfold blen. rewrite Nat2Z.id, drop_app_length.
  destruct Hr as [-> |[r ->]]; [by left|by right].
Qed.

(** A mount point that was added serves its own path. *)
Lemma mount_add_resolves t path ops t' :
  yos_mount_add t path ops = (0, t') -> path <> [] -> Forall (fun b => b <> 0) path ->
  exists ops', fst (yos_mount_resolve t' path) = Some ops'.
Proof.
  intros Ha Hne Hc. unfold yos_mount_add in Ha. destruct (_ <=? _); [done|]. destruct (_ <=? _); [done|]. injection Ha as <-.
  pose proof (search_spec path (t ++ [Mount O path ops]) Hc) as H. unfold yos_mount_resolve.
  destruct (foldl _ _ _) as [[m|] l]; [eauto|]. destruct H as [_ H]. destruct Hne. apply (H (Mount O path ops)).
  - apply elem_of_app. right. by left.
  - exists []. rewrite app_nil_r. eauto.
Qed.
End MountProps.

Lemma mount_resolve_longest_witness :
  yos_mount_resolve [Mount nat (lit "/proc") 1%nat; Mount nat (lit "/proc/sys") 2%nat] (lit "/proc/sys/kernel") = (Some 2%nat, lit "kernel") /\
  match yos_mount_resolve [Mount nat (lit "/proc") 1%nat] (lit "/procfs") with
  | (Some _, _) => False
  | (None, rest) => rest = lit "/procfs"
  end.
Proof.
  split.
  - pose proof (mount_resolve_longest [Mount nat (lit "/proc") 1%nat; Mount nat (lit "/proc/sys") 2%nat] (lit "/proc/sys/kernel")
      ltac:(repeat (constructor; [by vm_compute|]); constructor)) as H. vm_compute in H |- *. reflexivity.
  - pose proof (mount_resolve_longest [Mount nat (lit "/proc") 1%nat] (lit "/procfs")
      ltac:(repeat (constructor; [by vm_compute|]); constructor)) as H. vm_compute in H |- *. by destruct H.
Defined.

(** * Virtual files *)

Section FileProps.
Context {O : Type}.
Implicit Types (t : yos_file_table O).

Lemma file_index_of i : (i < 256)%nat -> file_index (YOS_VFS_FD_BASE + Z.of_nat i) = Some i.
Proof.
  intros H. unfold file_index, YOS_VFS_FD_BASE, YOS_MAX_VFS_FILES. rewrite (proj2 (Z.ltb_ge _ _)), (proj2 (Z.leb_gt _ _)) by lia.
  f_equal. lia.
Qed.

Lemma file_index_inj fd i : file_index fd = Some i -> fd = YOS_VFS_FD_BASE + Z.of_nat i /\ (i < 256)%nat.
Proof.
  unfold file_index, YOS_VFS_FD_BASE, YOS_MAX_VFS_FILES. destruct (Z.ltb_spec fd 1000); [done|]. destruct (Z.leb_spec 256 (fd - 1000)); [done|].
  intros [= <-]. lia.
Qed.

(** Allocation hands out the lowest descriptor that is free, with an empty
    file, or answers -EMFILE when every slot is taken; every other descriptor
    keeps its file, here and when the new one is freed again, and a freed
    descriptor names nothing. *)
Theorem file_table_laws t :
  length t = 256%nat ->
  let '(fd, t') := yos_file_alloc t in
  (fd = - EMFILE /\ t' = t /\ forall fd', YOS_VFS_FD_BASE <= fd' < YOS_VFS_FD_BASE + YOS_MAX_VFS_FILES -> yos_file_get t fd' <> None) \/
  (YOS_VFS_FD_BASE <= fd < YOS_VFS_FD_BASE + YOS_MAX_VFS_FILES /\ length t' = 256%nat /\
   yos_file_get t fd = None /\ (forall fd', YOS_VFS_FD_BASE <= fd' < fd -> yos_file_get t fd' <> None) /\
   snd <$> yos_file_get t' fd = Some (set_vf_in_use true zero_file) /\ yos_file_get (yos_file_free t' fd) fd = None /\
   forall fd', fd' <> fd -> yos_file_get t' fd' = yos_file_get t fd' /\ yos_file_get (yos_file_free t' fd) fd' = yos_file_get t fd').
Proof.
  intros Hlen. unfold yos_file_alloc. destruct (list_find _ t) as [[i f]|] eqn:E.
  - right. apply list_find_Some in E as (Hi & Hu & Hlow). apply lookup_lt_Some in Hi as Hlt. rewrite Hlen in Hlt.
    unfold yos_file_free. split; [unfold YOS_MAX_VFS_FILES; lia|]. unfold yos_file_get. rewrite (file_index_of i) by done. cbn [mbind option_bind].
    split_and!.
    + by rewrite length_insert.
    + rewrite Hi. cbn [mbind option_bind]. by rewrite Hu.
    + intros fd' Hfd. unfold YOS_VFS_FD_BASE in Hfd. replace fd' with (YOS_VFS_FD_BASE + Z.of_nat (Z.to_nat (fd' - 1000))) by (unfold YOS_VFS_FD_BASE; lia).
      rewrite file_index_of by lia. cbn [mbind option_bind]. destruct (lookup_lt_is_Some_2 t (Z.to_nat (fd' - 1000))) as [g Hg]; [lia|].
      rewrite Hg. cbn [mbind option_bind]. specialize (Hlow _ g Hg ltac:(lia)). by destruct (vf_in_use g).
    + rewrite list_lookup_insert_eq by lia. done.
    + rewrite list_lookup_alter_eq, list_lookup_insert_eq by lia. done.
    + intros fd' Hne. destruct (file_index fd') as [j|] eqn:Ej; [|done]. cbn [mbind option_bind].
      apply file_index_inj in Ej as [-> Hj]. assert (i <> j) by (intros ->; done).
      by rewrite list_lookup_alter_ne, !list_lookup_insert_ne by done.
  - left. split; [done|]. split; [done|]. intros fd' [H1 H2]. unfold YOS_VFS_FD_BASE, YOS_MAX_VFS_FILES in *.
    replace fd' with (YOS_VFS_FD_BASE + Z.of_nat (Z.to_nat (fd' - 1000))) by (unfold YOS_VFS_FD_BASE; lia).
    unfold yos_file_get. rewrite file_index_of by lia. cbn [mbind option_bind].
    destruct (lookup_lt_is_Some_2 t (Z.to_nat (fd' - 1000))) as [g Hg]; [lia|]. rewrite Hg. cbn [mbind option_bind].
    apply list_find_None in E. rewrite Forall_forall in E. specialize (E g ltac:(by eapply list_elem_of_lookup_2)).
    by destruct (vf_in_use g).
Qed.
End FileProps.

Lemma file_table_laws_witness : fst (yos_file_alloc (O := nat) yos_file_table_init) = 1000.
Proof.
  pose proof (file_table_laws (O := nat) yos_file_table_init ltac:(reflexivity)) as H. vm_compute in H |- *. reflexivity.
Defined.
