(* ===== verification/Procfs.v ===== *)
(** The process file system (src/src/yos/vfs/procfs.c): the files under /proc,
    generated from the process table when they are opened, and the directory
    records of /proc and /proc/[pid].

    A buffer of the caller is a memory with an address in it.  Whether the
    host's malloc has room is a parameter.  [None]: what C leaves undefined. *)
From Stdlib Require Import Strings.String.
From S2P Require Import Prelude Memory Ctx CString Runtime ProcTable Strto Decimal Vfs.

Definition ENOTDIR : Z := 20.

(** The names of a process, which only this file system shows; [cmdline_argc] is
    the length of [cmdline]. *)
Record proc_names : Type := Names { comm : bytes; exe : bytes; proc_cwd : bytes; cmdline : option (list bytes) }.

(** The only file system of the program. *)
Inductive yos_file_operations : Type := yos_procfs_ops.

#[export] Instance yos_file_operations_eq_dec : EqDecision yos_file_operations.
Proof. solve_decision. Defined.

Abbreviation file := (yos_file yos_file_operations).

(** The runtime, the names and the slot of each process, the mount table and
    the virtual files of the calling context. *)
Record vfs_ctx : Type := VfsCtx {
  v_rt : yos_runtime;
  v_names : list proc_names;
  v_proc : nat;
  mount_table : option (yos_mount_table yos_file_operations);
  procfs_fds : option (yos_file_table yos_file_operations);
}.

Definition set_procfs_fds (v : yos_file_table yos_file_operations) (c : vfs_ctx) : vfs_ctx :=
  VfsCtx (v_rt c) (v_names c) (v_proc c) (mount_table c) (Some v).

(** * Paths *)

(** What follows the slash behind the pid. *)
Definition pid_file_type (name : bytes) : option yos_procfs_type :=
  if bool_decide (name = []) then Some YOS_PROCFS_PID_DIR
  else if bool_decide (name = lit "stat") then Some YOS_PROCFS_STAT
  else if bool_decide (name = lit "cmdline") then Some YOS_PROCFS_CMDLINE
  else if bool_decide (name = lit "status") then Some YOS_PROCFS_STATUS
  else if bool_decide (name = lit "comm") then Some YOS_PROCFS_COMM
  else if bool_decide (name = lit "exe") then Some YOS_PROCFS_EXE
  else if bool_decide (name = lit "cwd") then Some YOS_PROCFS_CWD
  else None.

(** The file a path below the mount point names, and the process; [None] is
    -ENOENT. *)
Definition parse_procfs_path (path : bytes) : option yos_procfs_type * Z :=
  if bool_decide (path = []) then (Some YOS_PROCFS_ROOT, 0)
  else if bool_decide (path = lit "self") then (Some YOS_PROCFS_SELF, 0)
  else if bool_decide (path = lit "mounts") then (Some YOS_PROCFS_MOUNTS, 0)
  else if bool_decide (path = lit "meminfo") then (Some YOS_PROCFS_MEMINFO, 0)
  else if bool_decide (path = lit "version") then (Some YOS_PROCFS_VERSION, 0)
  else if bool_decide (path = lit "uptime") then (Some YOS_PROCFS_UPTIME, 0)
  else
    let '(parsed_pid, _, stop) := strtoll 10 path in
    let n := default 0 stop in
    if n =? 0 then (None, 0)
    else
      let pid := s32 parsed_pid in
      match drop (Z.to_nat n) path with
      | [] => (Some YOS_PROCFS_PID_DIR, pid)
      | ch :: name => (if ch =? SLASH then pid_file_type name else None, pid)
      end.

(** * Contents *)

Section Procfs.
Variable malloc_ok : Z -> bool.

Definition no_names : proc_names := Names [] [] [] None.

(** [yos_proc_find]: the process and its names. *)
Definition find_names (c : vfs_ctx) (pid : Z) : option (yos_proc * proc_names) :=
  i ← yos_proc_find (v_rt c) pid;
  p ← procs (v_rt c) !! i;
  Some (p, default no_names (v_names c !! i)).

Definition stat_state (p : yos_proc) : bytes :=
  match state p with YOS_PROC_RUNNING => lit "R" | YOS_PROC_ZOMBIE => lit "Z" | _ => lit "S" end.

Definition stat_text (p : yos_proc) (nm : proc_names) : bytes :=
  decimal (pid p) ++ lit " (" ++ comm nm ++ lit ") " ++ stat_state p ++ lit " " ++
  decimal (ppid p) ++ lit " " ++ decimal (pgid p) ++ lit " " ++ decimal (sid p) ++
  lit " 0 -1 0 0 0 0 0 0 0 0 0 20 0 1 0 0 0 0 0 0 0 0 0 0 0 0 0 0 0 0 0 0 0 0 0 0 0" ++ [10].

(** [snprintf] of a text into a buffer: what the buffer holds, and the length of
    the whole text. *)
Definition generated (size : Z) (text : bytes) : bytes * Z := (take (Z.to_nat (size - 1)) text, blen text).

Definition generate_stat (c : vfs_ctx) (pid : Z) : option (bytes * Z) :=
  '(p, nm) ← find_names c pid; if malloc_ok 512 then Some (generated 512 (stat_text p nm)) else None.

Definition generate_cmdline (c : vfs_ctx) (pid : Z) : option (bytes * Z) :=
  '(p, nm) ← find_names c pid;
  args ← cmdline nm;
  if Z.of_nat (length args) <=? 0 then None
  else
    let text := flat_map (fun a => a ++ [0]) args in
    if malloc_ok (blen text) then Some (text, blen text) else None.

Definition status_state (p : yos_proc) : bytes :=
  match state p with YOS_PROC_RUNNING => lit "R (running)" | YOS_PROC_ZOMBIE => lit "Z (zombie)" | _ => lit "S (sleeping)" end.

Definition status_text (p : yos_proc) (nm : proc_names) : bytes :=
  lit "Name:" ++ [9] ++ comm nm ++ [10] ++
  lit "State:" ++ [9] ++ status_state p ++ [10] ++
  lit "Pid:" ++ [9] ++ decimal (pid p) ++ [10] ++
  lit "PPid:" ++ [9] ++ decimal (ppid p) ++ [10] ++
  lit "Uid:" ++ [9; 48; 9; 48; 9; 48; 9; 48; 10] ++
  lit "Gid:" ++ [9; 48; 9; 48; 9; 48; 9; 48; 10].

Definition generate_status (c : vfs_ctx) (pid : Z) : option (bytes * Z) :=
  '(p, nm) ← find_names c pid; if malloc_ok 1024 then Some (generated 1024 (status_text p nm)) else None.

Definition generate_comm (c : vfs_ctx) (pid : Z) : option (bytes * Z) :=
  '(p, nm) ← find_names c pid;
  if malloc_ok (blen (comm nm) + 2) then Some (comm nm ++ [10], blen (comm nm) + 1) else None.

(** One line of /proc/mounts; a line that does not fit is left out. *)
Definition mount_line (m : yos_mount yos_file_operations) : bytes := lit "proc " ++ m_path m ++ lit " proc rw 0 0" ++ [10].
Definition add_mount_line (buf : bytes * Z) (m : yos_mount yos_file_operations) : bytes * Z :=
  let '(text, remaining) := buf in
  let n := blen (mount_line m) in
  if n <? remaining then (text ++ mount_line m, remaining - n) else buf.

Definition generate_mounts (c : vfs_ctx) : option (bytes * Z) :=
  t ← mount_table c;
  if Z.of_nat (length t) =? 0 then None
  else
    let bufsize := Z.of_nat (length t) * 64 + 1 in
    if malloc_ok bufsize then
      let text := fst (foldl add_mount_line ([], bufsize) t) in Some (text, blen text)
    else None.

Definition generate (c : vfs_ctx) (type : yos_procfs_type) (pid : Z) : option (bytes * Z) :=
  match type with
  | YOS_PROCFS_STAT => generate_stat c pid
  | YOS_PROCFS_CMDLINE => generate_cmdline c pid
  | YOS_PROCFS_STATUS => generate_status c pid
  | YOS_PROCFS_COMM => generate_comm c pid
  | YOS_PROCFS_MOUNTS => generate_mounts c
  | _ => None
  end.

(** * The operations *)

(** The pid of a path must exist, unless it is not positive. *)
Definition pid_missing (c : vfs_ctx) (pid : Z) : bool :=
  (0 <? pid) && bool_decide (yos_proc_find (v_rt c) pid = None).

(** [table_ok]: the host's calloc of the table. *)
Definition procfs_open (table_ok : bool) (c : vfs_ctx) (path : bytes) : Z * vfs_ctx :=
  match parse_procfs_path path with
  | (None, _) => (- ENOENT, c)
  | (Some type, pid) =>
      if pid_missing c pid then (- ENOENT, c)
      else
        match (match procfs_fds c with Some t => Some t | None => if table_ok then Some yos_file_table_init else None end) with
        | None => (- ENOMEM, c)
        | Some t =>
            let '(fd, t1) := yos_file_alloc t in
            if fd <? 0 then (fd, set_procfs_fds t c)
            else
              let '(text, len) := match generate c type pid with Some (x, n) => (Some x, n) | None => (None, 0) end in
              (fd, set_procfs_fds (alter (fun _ => File _ true (Some yos_procfs_ops) 0 0 pid type text len)
                                     (Z.to_nat (fd - YOS_VFS_FD_BASE)) t1) c)
        end
  end.

(** The number of bytes, the file and the buffer. *)
Definition procfs_read (f : file) (m : memory) (buf count : Z) : Z * file * memory :=
  match vf_content f with
  | None => (0, f, m)
  | Some text =>
      if vf_length f <=? vf_position f then (0, f, m)
      else
        let remaining := vf_length f - vf_position f in
        let to_read := if count <? remaining then count else remaining in
        (s32 to_read, set_vf_position (vf_position f + to_read) f,
         write_bytes m buf (take (Z.to_nat to_read) (drop (Z.to_nat (vf_position f)) text)))
  end.

Definition procfs_close (f : file) : Z := 0.

Definition S_IFDIR : Z := 16384.
Definition S_IFREG : Z := 32768.
Definition S_IFLNK : Z := 40960.

Definition procfs_mode (type : yos_procfs_type) : Z :=
  match type with
  | YOS_PROCFS_ROOT | YOS_PROCFS_PID_DIR => Z.lor S_IFDIR 365
  | YOS_PROCFS_SELF | YOS_PROCFS_EXE | YOS_PROCFS_CWD => Z.lor S_IFLNK 511
  | _ => Z.lor S_IFREG 292
  end.

Definition procfs_stat (c : vfs_ctx) (path : bytes) (m : memory) (statbuf : Z) : Z * memory :=
  match parse_procfs_path path with
  | (None, _) => (- ENOENT, m)
  | (Some type, pid) =>
      if pid_missing c pid then (- ENOENT, m)
      else (0, st32 (st32 (memset m statbuf 0 96) (statbuf + 16) (procfs_mode type)) (statbuf + 20) 1)
  end.

(** * Directory records *)

Definition DT_DIR : Z := 4.
Definition DT_REG : Z := 8.
Definition DT_LNK : Z := 10.

Record lx_dirent : Type := Dirent { de_ino : Z; de_type : Z; de_name : bytes }.

Definition rec_len (name : bytes) : Z := Z.land (19 + blen name + 8) (Z.lnot 7).

Definition put_dirent (m : memory) (a : Z) (e : lx_dirent) : memory :=
  let m1 := st64 m a (de_ino e) in
  let m2 := st64 m1 (a + 8) (rec_len (de_name e)) in
  let m3 := st16 m2 (a + 16) (rec_len (de_name e)) in
  let m4 := st8 m3 (a + 18) (de_type e) in
  write_bytes m4 (a + 19) (de_name e ++ [0]).

(** The entries from [dir_index] on, as long as they fit: the position in the
    buffer, the index of the next entry, and the buffer. *)
Fixpoint emit_dirents (buf count : Z) (es : list lx_dirent) (entry_idx pos dir_index : Z) (m : memory) : Z * Z * memory :=
  match es with
  | [] => (pos, dir_index, m)
  | e :: es' =>
      if dir_index <=? entry_idx then
        if count <? pos + rec_len (de_name e) then (pos, dir_index, m)
        else emit_dirents buf count es' (entry_idx + 1) (pos + rec_len (de_name e)) (entry_idx + 1) (put_dirent m (buf + pos) e)
      else emit_dirents buf count es' (entry_idx + 1) pos dir_index m
  end.

Definition root_entries : list lx_dirent := [Dirent 1 DT_LNK (lit "self"); Dirent 2 DT_REG (lit "mounts")].

Definition listed (p : yos_proc) : bool := negb (is_free p) && negb (is_zombie p).
Definition proc_entry (p : yos_proc) : lx_dirent := Dirent (pid p) DT_DIR (decimal (pid p)).

(** The entries of /proc. *)
Definition root_listing (c : vfs_ctx) : list lx_dirent :=
  root_entries ++ map proc_entry (List.filter listed (procs (v_rt c))).

Definition pid_entries : list lx_dirent :=
  [Dirent 1 DT_REG (lit "stat"); Dirent 2 DT_REG (lit "cmdline"); Dirent 3 DT_REG (lit "status");
   Dirent 4 DT_REG (lit "comm"); Dirent 5 DT_LNK (lit "exe"); Dirent 6 DT_LNK (lit "cwd")].

Definition procfs_getdents64 (c : vfs_ctx) (f : file) (m : memory) (dirp count : Z) : Z * file * memory :=
  match vf_type f with
  | YOS_PROCFS_ROOT =>
      let '(pos, di, m1) := emit_dirents dirp count (root_listing c) 0 0 (vf_dir_index f) m in
      (s32 pos, set_vf_dir_index di f, m1)
  | YOS_PROCFS_PID_DIR =>
      let di0 := vf_dir_index f in
      let '(pos, di, m1) := emit_dirents dirp count (drop (Z.to_nat di0) pid_entries) di0 0 di0 m in
      (s32 pos, set_vf_dir_index di f, m1)
  | _ => (- ENOTDIR, f, m)
  end.

(** The target of a link, cut to leave room for a NUL that is not written. *)
Definition link_target (m : memory) (buf bufsiz : Z) (target : bytes) : option (Z * memory) :=
  if bool_decide (target = []) then Some (- ENOENT, m)
  else
    let l := if bufsiz <=? blen target then bufsiz - 1 else blen target in
    if l <? 0 then None else Some (s32 l, write_bytes m buf (take (Z.to_nat l) target)).

Definition procfs_readlink (c : vfs_ctx) (path : bytes) (m : memory) (buf bufsiz : Z) : option (Z * memory) :=
  match parse_procfs_path path with
  | (Some YOS_PROCFS_SELF, _) =>
      p ← procs (v_rt c) !! v_proc c;
      let text := decimal (pid p) in
      Some (blen text, if bufsiz =? 0 then m else write_bytes m buf (take (Z.to_nat (bufsiz - 1)) text ++ [0]))
  | (Some YOS_PROCFS_EXE, pid) =>
      match find_names c pid with None => Some (- ENOENT, m) | Some (_, nm) => link_target m buf bufsiz (exe nm) end
  | (Some YOS_PROCFS_CWD, pid) =>
      match find_names c pid with None => Some (- ENOENT, m) | Some (_, nm) => link_target m buf bufsiz (proc_cwd nm) end
  | _ => Some (- EINVAL, m)
  end.
End Procfs.
