(* ===== verification/ProcfsProps.v ===== *)
(** The process file system: what a path below /proc names, how a file is read
    to its end in pieces of any size, and which records a directory yields. *)
From Stdlib Require Import Strings.String.
From S2P Require Import Prelude Memory Ctx CString Runtime ProcTable Strto Decimal Vfs VfsProps Procfs.

(** * Paths *)

(** The names below /proc/[pid]. *)
Definition pid_files : list (bytes * yos_procfs_type) :=
  [(lit "stat", YOS_PROCFS_STAT); (lit "cmdline", YOS_PROCFS_CMDLINE); (lit "status", YOS_PROCFS_STATUS);
   (lit "comm", YOS_PROCFS_COMM); (lit "exe", YOS_PROCFS_EXE); (lit "cwd", YOS_PROCFS_CWD); ([], YOS_PROCFS_PID_DIR)].

Lemma decimal_head x : - 10 ^ 20 < x < 10 ^ 20 -> exists ch s, decimal x = ch :: s /\ (ch = 45 \/ 48 <= ch <= 57).
Proof.
  intros Hx. destruct (decimal_shape x Hx) as (neg & sg & ds & -> & Hs & Hne & Hd & _). destruct neg; subst sg; [by exists 45, ds; eauto|].
  destruct ds as [|d ds]; [done|]. apply Forall_cons in Hd as [Hd _]. exists d, ds. eauto.
Qed.

Lemma strtoll_decimal x rest :
  LLONG_MIN <= x <= LLONG_MAX -> match rest with ch :: _ => 10 <= digit_of ch | [] => True end ->
  strtoll 10 (decimal x ++ rest) = (x, 0, Some (blen (decimal x))).
Proof.
  unfold LLONG_MIN, LLONG_MAX. intros Hx Hr. destruct (decimal_numeral x rest ltac:(lia) Hr) as (neg & sg & ds & E & Hn & Hv).
  rewrite E, <-app_assoc. unfold strtoll. rewrite (strto_numeral _ _ _ [] _ _ _ Hn).
  rewrite finish_signed_in by (unfold LLONG_MIN, LLONG_MAX; lia). rewrite Hv. do 2 f_equal. rewrite blen_app. reflexivity.
Qed.

(** A path that starts with the decimal print of a number. *)
Lemma parse_number x rest :
  LLONG_MIN <= x <= LLONG_MAX -> match rest with ch :: _ => 10 <= digit_of ch | [] => True end ->
  parse_procfs_path (decimal x ++ rest) =
    match rest with
    | [] => (Some YOS_PROCFS_PID_DIR, s32 x)
    | ch :: name => (if ch =? SLASH then pid_file_type name else None, s32 x)
    end.
Proof.
  intros Hx Hr. destruct (decimal_head x) as (ch & s & E & Hch); [unfold LLONG_MIN, LLONG_MAX in Hx; lia|].
  assert (Hne : forall w, match w with c :: _ => 57 < c | [] => True end -> decimal x ++ rest <> w).
  { rewrite E. intros [|c w] Hw [=]. lia. }
  unfold parse_procfs_path. rewrite !bool_decide_eq_false_2 by (apply Hne; done). rewrite strtoll_decimal by done. cbn [default].
  assert (Hl : blen (decimal x) <> 0) by (rewrite E, blen_cons; pose proof (blen_nonneg s); lia).
  cbn [id]. rewrite (proj2 (Z.eqb_neq _ _) Hl). unfold blen. by rewrite Nat2Z.id, drop_app_length.
Qed.

Lemma pid_file_found name type : (name, type) ∈ pid_files -> pid_file_type name = Some type.
Proof.
  intros H. unfold pid_files in H. repeat (apply elem_of_cons in H as [[= -> ->]|H]; [vm_compute; reflexivity|]). by apply elem_of_nil in H.
Qed.

(** The decimal print of a number, and of a number, a slash and the name of
    a file, name that file of the process whose pid is the low 32 bits of the
    number: of the process itself when the number is an int, and of another
    process when it is not. *)
Theorem procfs_path_parses x name type :
  LLONG_MIN <= x <= LLONG_MAX -> (name, type) ∈ pid_files ->
  parse_procfs_path (decimal x ++ SLASH :: name) = (Some type, s32 x) /\
  parse_procfs_path (decimal x) = (Some YOS_PROCFS_PID_DIR, s32 x) /\
  (-2147483648 <= x < 2147483648 -> s32 x = x).
Proof.
  intros Hx Hn. split_and!.
  - rewrite parse_number by done. cbn [Z.eqb SLASH]. by rewrite (pid_file_found name type).
  - rewrite <-(app_nil_r (decimal x)). by rewrite parse_number.
  - apply s32_in.
Qed.

Lemma procfs_path_parses_witness : parse_procfs_path (lit "4294967297/stat") = (Some YOS_PROCFS_STAT, 1).
Proof.
  destruct (procfs_path_parses 4294967297 (lit "stat") YOS_PROCFS_STAT ltac:(vm_compute; intuition discriminate) ltac:(left)) as [H _].
  vm_compute in H |- *. exact H.
Defined.

(** * Reading *)

(** The bytes that successive reads of [counts] bytes deliver. *)
Fixpoint read_chunks (f : file) (m : memory) (buf : Z) (counts : list Z) : list bytes * file :=
  match counts with
  | [] => ([], f)
  | n :: ns =>
      let '(k, f1, m1) := procfs_read f m buf n in
      let '(out, f2) := read_chunks f1 m1 buf ns in (read_bytes m1 buf k :: out, f2)
  end.

Definition total (counts : list Z) : Z := foldr Z.add 0 counts.

Definition is_bytes (s : bytes) : Prop := Forall (fun b => 0 <= b < 256) s.

Lemma total_nonneg counts : Forall (fun n => 0 <= n) counts -> 0 <= total counts.
Proof. induction 1; cbn; [lia|]. unfold total in *. lia. Qed.

(** The reads from a position on. *)
Lemma read_chunks_from f m buf counts text :
  vf_content f = Some text -> vf_length f = blen text -> 0 <= vf_position f <= blen text -> is_bytes text -> blen text < 2147483648 ->
  Forall (fun n => 0 <= n) counts ->
  concat (fst (read_chunks f m buf counts)) = take (Z.to_nat (total counts)) (drop (Z.to_nat (vf_position f)) text).
Proof.
  intros Hc Hl Hp Hb Hs Hn. revert f m Hc Hl Hp. induction Hn as [|n ns Hn0 Hn IH]; intros f m Hc Hl Hp; [done|].
  cbn [read_chunks]. unfold procfs_read. rewrite Hc, Hl. pose proof (total_nonneg ns Hn) as Ht.
  replace (total (n :: ns)) with (n + total ns) by done. rewrite Z2Nat.inj_add, take_plus by lia.
  destruct (Z.leb_spec (blen text) (vf_position f)) as [Hend|Hmore].
  - specialize (IH f m Hc Hl Hp). destruct (read_chunks f m buf ns) as [out f2]. cbn [fst concat] in *. rewrite IH, read_bytes_0.
    rewrite (drop_ge text) by (unfold blen in *; lia). by rewrite drop_nil, !take_nil.
  - set (k := if n <? blen text - vf_position f then n else blen text - vf_position f).
    assert (Hk : 0 <= k <= blen text - vf_position f /\ k <= n) by (unfold k; destruct (Z.ltb_spec n (blen text - vf_position f)); lia).
    set (chunk := take (Z.to_nat k) (drop (Z.to_nat (vf_position f)) text)).
    assert (Hchunk : blen chunk = k) by (unfold chunk, blen in *; rewrite length_take, length_drop; lia).
    specialize (IH (set_vf_position (vf_position f + k) f) (write_bytes m buf chunk) Hc Hl ltac:(cbn; lia)).
    destruct (read_chunks _ _ buf ns) as [out f2]. cbn [fst concat] in *. rewrite IH. rewrite s32_small by lia. cbn [vf_position set_vf_position].
    f_equal.
    + rewrite <-Hchunk at 1. rewrite read_bytes_write by (by apply Forall_take, Forall_drop).
      unfold chunk, k. destruct (Z.ltb_spec n (blen text - vf_position f)); [done|]. rewrite !take_ge; [done|..]; rewrite length_drop; unfold blen in *; lia.
    + f_equal. rewrite drop_drop. unfold k. destruct (Z.ltb_spec n (blen text - vf_position f)).
      * f_equal. lia.
      * rewrite !drop_ge; [done|..]; unfold blen in *; lia.
Qed.

(** * Opening *)

Lemma decimal_length x : blen (decimal x) <= 21.
Proof.
  unfold decimal. pose proof (dec_go_length 20 (- x) []). pose proof (dec_go_length 20 x []).
  destruct (x <? 0); [rewrite blen_cons|]; unfold blen; cbn [length] in *; lia.
Qed.

(** What each file of a process holds. *)
Definition file_text (type : yos_procfs_type) (p : yos_proc) (nm : proc_names) : option bytes :=
  match type with
  | YOS_PROCFS_STAT => Some (stat_text p nm)
  | YOS_PROCFS_STATUS => Some (status_text p nm)
  | YOS_PROCFS_COMM => Some (comm nm ++ [10])
  | YOS_PROCFS_CMDLINE => match cmdline nm with Some (a :: args) => Some (flat_map (fun a => a ++ [0]) (a :: args)) | _ => None end
  | _ => None
  end.

Definition all_fits (n : Z) : bool := true.

Lemma generated_fits size text : blen text < size -> generated size text = (text, blen text).
Proof. intros H. unfold generated. rewrite take_ge; [done|]. unfold blen in H. lia. Qed.

Lemma stat_text_fits p nm : blen (comm nm) < 16 -> blen (stat_text p nm) < 512.
Proof.
  intros H. unfold stat_text. pose proof (decimal_length (pid p)). pose proof (decimal_length (ppid p)).
  pose proof (decimal_length (pgid p)). pose proof (decimal_length (sid p)).
  assert (blen (stat_state p) = 1) by (unfold stat_state; by destruct (state p)). rewrite !blen_app.
  repeat match goal with |- context [blen (lit ?s)] => let n := eval vm_compute in (blen (lit s)) in change (blen (lit s)) with n end.
  change (blen [10]) with 1. lia.
Qed.

Lemma status_text_fits p nm : blen (comm nm) < 16 -> blen (status_text p nm) < 1024.
Proof.
  intros H. unfold status_text. pose proof (decimal_length (pid p)). pose proof (decimal_length (ppid p)).
  assert (blen (status_state p) <= 20) by (unfold status_state; destruct (state p); by vm_compute). rewrite !blen_app.
  repeat match goal with |- context [blen (lit ?s)] => let n := eval vm_compute in (blen (lit s)) in change (blen (lit s)) with n end.
  change (blen [9]) with 1. change (blen [10]) with 1.
  change (blen [9; 48; 9; 48; 9; 48; 9; 48; 10]) with 9. lia.
Qed.

Lemma generate_text c type pid0 p nm :
  find_names c pid0 = Some (p, nm) -> blen (comm nm) < 16 -> type ∈ snd <$> pid_files ->
  generate all_fits c type pid0 = t ← file_text type p nm; Some (t, blen t).
Proof.
  intros Hf Hc Ht. unfold pid_files in Ht. cbn [fmap list_fmap snd] in Ht.
  repeat (apply elem_of_cons in Ht as [->|Ht]; [|]); try by apply elem_of_nil in Ht.
  all: unfold generate, generate_stat, generate_cmdline, generate_status, generate_comm; rewrite ?Hf; cbn [mbind option_bind file_text].
  - by rewrite generated_fits by (by apply stat_text_fits).
  - destruct (cmdline nm) as [[|a args]|]; done.
  - by rewrite generated_fits by (by apply status_text_fits).
  - by rewrite blen_app.
  - done.
  - done.
  - done.
Qed.

(** A process whose names are strings, and a table with room for one more file. *)
Record can_open (c : vfs_ctx) (pid0 : Z) (p : yos_proc) (nm : proc_names) : Prop := {
  op_pid : 0 < pid0 < 2147483648;
  op_found : find_names c pid0 = Some (p, nm);
  op_comm : blen (comm nm) < 16;
  op_room : match procfs_fds c with
            | Some t => length t = 256%nat /\ Exists (fun f => vf_in_use f = false) t
            | None => True
            end
}.

Lemma table_has_room (t : yos_file_table yos_file_operations) :
  length t = 256%nat -> Exists (fun f => vf_in_use f = false) t ->
  exists i t', (i < 256)%nat /\ yos_file_alloc t = (YOS_VFS_FD_BASE + Z.of_nat i, t') /\ length t' = 256%nat.
Proof.
  intros Hl He. unfold yos_file_alloc. destruct (list_find _ t) as [[i f]|] eqn:E.
  - apply list_find_Some in E as (Hi & _). apply lookup_lt_Some in Hi. exists i. eexists. split; [lia|]. split; [done|]. by rewrite length_insert.
  - apply list_find_None in E. apply Forall_Exists_neg in E. done.
Qed.

(** C39: /proc/PID/NAME of a process opens, as the lowest free virtual
    descriptor, and reads of any sizes deliver the text of the file, in order
    and to its end, as the process table was when the file was opened; a file
    without a text is empty. *)
Theorem procfs_file_reads c pid0 p nm name type :
  can_open c pid0 p nm -> (name, type) ∈ pid_files -> (forall t, file_text type p nm = Some t -> is_bytes t /\ blen t < 2147483648) ->
  exists fd c' t' i f, procfs_open all_fits true c (decimal pid0 ++ SLASH :: name) = (fd, c') /\
    procfs_fds c' = Some t' /\ yos_file_get t' fd = Some (i, f) /\ vf_type f = type /\ vf_pid f = pid0 /\
    forall m buf counts, Forall (fun n => 0 <= n) counts ->
      concat (fst (read_chunks f m buf counts)) = take (Z.to_nat (total counts)) (default [] (file_text type p nm)).
Proof.
  intros [Hp Hf Hc Hr] Hn Ht.
  assert (Hparse : parse_procfs_path (decimal pid0 ++ SLASH :: name) = (Some type, pid0)).
  { rewrite parse_number by (done || (unfold LLONG_MIN, LLONG_MAX; lia)). cbn [Z.eqb SLASH].
    rewrite (pid_file_found name type), s32_in by (done || lia). done. }
  unfold procfs_open. rewrite Hparse.
  assert (Hm : pid_missing c pid0 = false).
  { unfold pid_missing. unfold find_names in Hf. destruct (yos_proc_find (v_rt c) pid0); [|done].
    rewrite bool_decide_eq_false_2 by done. apply andb_false_r. }
  rewrite Hm. set (o := match procfs_fds c with Some t => Some t | None => Some yos_file_table_init end).
  assert (Ho : exists t, o = Some t /\ length t = 256%nat /\ Exists (fun f => vf_in_use f = false) t).
  { unfold o. destruct (procfs_fds c) as [t|]; [by exists t|]. exists yos_file_table_init. split; [done|]. split; [reflexivity|].
    apply Exists_exists. exists zero_file. split; [by left|done]. }
  destruct Ho as (t & -> & Hl & He). destruct (table_has_room t Hl He) as (i & t1 & Hi & -> & Hl1).
  rewrite (proj2 (Z.ltb_ge _ 0)) by (unfold YOS_VFS_FD_BASE; lia).
  rewrite (generate_text c type pid0 p nm) by (done || (apply list_elem_of_fmap; by exists (name, type))).
  replace (Z.to_nat (YOS_VFS_FD_BASE + Z.of_nat i - YOS_VFS_FD_BASE)) with i by lia.
  destruct (lookup_lt_is_Some_2 t1 i) as [g Hg]; [lia|]. destruct (file_text type p nm) as [text|] eqn:Et; cbn [mbind option_bind].
  - destruct (Ht text eq_refl) as [Hb Hs]. eexists _, _, _, i, _. split; [reflexivity|]. split; [reflexivity|].
    split; [unfold yos_file_get; rewrite file_index_of by done; cbn [mbind option_bind]; rewrite list_lookup_alter_eq, Hg; reflexivity|].
    split; [done|]. split; [done|]. intros m buf counts Hcs.
    rewrite (read_chunks_from _ m buf counts text) by (done || (cbn; pose proof (blen_nonneg text); lia)). done.
  - eexists _, _, _, i, _. split; [reflexivity|]. split; [reflexivity|].
    split; [unfold yos_file_get; rewrite file_index_of by done; cbn [mbind option_bind]; rewrite list_lookup_alter_eq, Hg; reflexivity|].
    split; [done|]. split; [done|]. intros m buf counts Hcs. cbn [default]. rewrite take_nil.
    clear. revert m. induction counts as [|n ns IH]; intros m; [done|]. cbn [read_chunks]. unfold procfs_read at 1. cbn [vf_content].
    specialize (IH m). destruct (read_chunks _ m buf ns). cbn [fst concat] in *. by rewrite IH, read_bytes_0.
Qed.

Lemma procfs_file_reads_witness :
  let rt := Runtime [Proc 7 1 7 7 7 0 YOS_PROC_RUNNING 0 0 false (-1) false true (Some 0%nat) false] 8 [] 0 [] in
  let c := VfsCtx rt [Names (lit "zsh") (lit "/bin/zsh") (lit "/") None] 0 None None in
  exists fd c' t' i f, procfs_open all_fits true c (lit "7/comm") = (fd, c') /\ procfs_fds c' = Some t' /\
    yos_file_get t' fd = Some (i, f) /\ concat (fst (read_chunks f (fun _ => 0) 64 [2; 0; 9])) = lit "zsh" ++ [10].
Proof.
  cbn zeta. destruct (procfs_file_reads (VfsCtx (Runtime [Proc 7 1 7 7 7 0 YOS_PROC_RUNNING 0 0 false (-1) false true (Some 0%nat) false] 8 [] 0 [])
    [Names (lit "zsh") (lit "/bin/zsh") (lit "/") None] 0 None None) 7
    (Proc 7 1 7 7 7 0 YOS_PROC_RUNNING 0 0 false (-1) false true (Some 0%nat) false) (Names (lit "zsh") (lit "/bin/zsh") (lit "/") None)
    (lit "comm") YOS_PROCFS_COMM) as (fd & c' & t' & i & f & H1 & H2 & H3 & _ & _ & H4).
  - split; [lia|reflexivity|reflexivity|exact I].
  - unfold pid_files. do 3 right. left.
  - intros t [= <-]. split; [repeat constructor; by vm_compute|reflexivity].
  - exists fd, c', t', i, f. split; [exact H1|]. split; [exact H2|]. split; [exact H3|].
    rewrite (H4 (fun _ => 0) 64 [2; 0; 9]) by (repeat constructor; lia). reflexivity.
Defined.

(** * Directory records *)

Definition records_size (es : list lx_dirent) : Z := foldr (fun e n => rec_len (de_name e) + n) 0 es.

(** One record, as the reader takes it apart. *)
Record record_at (m : memory) (a : Z) (e : lx_dirent) : Prop := {
  ra_ino : ld64 m a = u64 (de_ino e);
  ra_off : ld64 m (a + 8) = rec_len (de_name e);
  ra_len : ld16 m (a + 16) = rec_len (de_name e);
  ra_type : ld8 m (a + 18) = de_type e;
  ra_name : str_at m (a + 19) (de_name e)
}.

Fixpoint records_at (m : memory) (a : Z) (es : list lx_dirent) : Prop :=
  match es with [] => True | e :: es' => record_at m a e /\ records_at m (a + rec_len (de_name e)) es' end.

Definition dirent_ok (e : lx_dirent) : Prop := Forall byte_ok (de_name e) /\ blen (de_name e) <= 255 /\ 0 <= de_type e < 256.

Lemma rec_len_bounds name : 20 + blen name <= rec_len name <= 27 + blen name.
Proof. unfold rec_len. change (Z.lnot 7) with (Z.lnot (2 ^ 3 - 1)). rewrite land_lnot_pow2 by lia. change (2 ^ 3) with 8. mlia. Qed.

Lemma records_size_nonneg es : 0 <= records_size es.
Proof.
  induction es as [|e es IH]; cbn; [done|]. pose proof (rec_len_bounds (de_name e)). pose proof (blen_nonneg (de_name e)).
  unfold records_size in IH. lia.
Qed.

Lemma record_at_agree m m' a e :
  record_at m a e -> agree_on a (a + rec_len (de_name e)) m m' -> record_at m' a e.
Proof.
  intros [H1 H2 H3 H4 H5] Ha. pose proof (rec_len_bounds (de_name e)). pose proof (blen_nonneg (de_name e)). split.
  - rewrite <-H1. apply ld64_agree. eapply agree_on_sub; [..|exact Ha]; lia.
  - rewrite <-H2. apply ld64_agree. eapply agree_on_sub; [..|exact Ha]; lia.
  - rewrite <-H3. apply ld16_agree. eapply agree_on_sub; [..|exact Ha]; lia.
  - rewrite <-H4. apply Ha. lia.
  - eapply str_at_agree; [exact H5|]. intros b Hb. apply Ha. lia.
Qed.

Lemma put_dirent_frame m a e lo hi :
  hi <= a \/ a + rec_len (de_name e) <= lo -> agree_on lo hi m (put_dirent m a e).
Proof.
  intros H. pose proof (rec_len_bounds (de_name e)). pose proof (blen_nonneg (de_name e)). unfold put_dirent.
  assert (blen (de_name e ++ [0]) = blen (de_name e) + 1) by (rewrite blen_app; done).
  eapply agree_on_trans; [|apply write_bytes_frame; lia]. eapply agree_on_trans; [|apply st8_frame; lia].
  eapply agree_on_trans; [|apply st16_frame; lia]. eapply agree_on_trans; apply st64_frame; lia.
Qed.

Lemma put_dirent_record m a e : dirent_ok e -> record_at (put_dirent m a e) a e.
Proof.
  intros (Hn & Hl & Ht). pose proof (rec_len_bounds (de_name e)) as Hr. pose proof (blen_nonneg (de_name e)).
  unfold put_dirent. set (m1 := st64 m a _). set (m2 := st64 m1 _ _). set (m3 := st16 m2 _ _). set (m4 := st8 m3 _ _).
  assert (F : agree_on a (a + 19) m4 (write_bytes m4 (a + 19) (de_name e ++ [0]))) by (apply write_bytes_frame; lia).
  assert (F4 : agree_on a (a + 18) m3 m4) by (apply st8_frame; lia).
  assert (F3 : agree_on a (a + 16) m2 m3) by (apply st16_frame; lia). split.
  - rewrite (ld64_agree m4) by (eapply agree_on_sub; [..|exact F]; lia). rewrite (ld64_agree m3) by (eapply agree_on_sub; [..|exact F4]; lia).
    rewrite (ld64_agree m2) by (eapply agree_on_sub; [..|exact F3]; lia). unfold m2. rewrite ld64_st64_ne by lia. apply ld64_st64.
  - rewrite (ld64_agree m4) by (eapply agree_on_sub; [..|exact F]; lia). rewrite (ld64_agree m3) by (eapply agree_on_sub; [..|exact F4]; lia).
    rewrite (ld64_agree m2) by (eapply agree_on_sub; [..|exact F3]; lia). unfold m2. rewrite ld64_st64. unfold u64. apply Z.mod_small. lia.
  - rewrite (ld16_agree m4) by (eapply agree_on_sub; [..|exact F]; lia). rewrite (ld16_agree m3) by (eapply agree_on_sub; [..|exact F4]; lia).
    unfold m3. rewrite ld16_st16. apply Z.mod_small. lia.
  - rewrite F by lia. unfold m4. rewrite ld8_st8, Z.eqb_refl. by apply Z.mod_small.
  - by apply str_at_write.
Qed.

Lemma records_at_agree m m' a es :
  records_at m a es -> agree_on a (a + records_size es) m m' -> records_at m' a es.
Proof.
  revert a. induction es as [|e es IH]; intros a; [done|]. cbn [records_at records_size foldr]. fold (records_size es). intros [H1 H2] Ha.
  pose proof (rec_len_bounds (de_name e)). pose proof (blen_nonneg (de_name e)). pose proof (records_size_nonneg es). split.
  - eapply record_at_agree; [exact H1|]. eapply agree_on_sub; [..|exact Ha]; lia.
  - apply IH; [done|]. eapply agree_on_sub; [..|exact Ha]; lia.
Qed.

(** What a call that starts at [dir_index] puts into the buffer: the longest run
    of entries that fits. *)
Lemma emit_spec buf count es idx pos di m :
  Forall dirent_ok es -> di <= idx -> 0 <= pos ->
  let '(pos', di', m') := emit_dirents buf count es idx pos di m in
  exists k, (k <= length es)%nat /\ pos' = pos + records_size (take k es) /\ di' = (if Nat.eqb k 0 then di else idx + Z.of_nat k) /\
    records_at m' (buf + pos) (take k es) /\ (forall lo hi, hi <= buf + pos \/ buf + pos' <= lo -> agree_on lo hi m m') /\
    (pos <= count -> pos' <= count) /\
    (k = length es \/ exists e, es !! k = Some e /\ count < pos' + rec_len (de_name e)).
Proof.
  intros Hok. revert idx pos di m. induction Hok as [|e es He Hes IH]; intros idx pos di m Hdi Hpos; cbn [emit_dirents].
  - exists 0%nat. cbn. split_and!; [lia|lia|done|done| |lia|by left]. intros. apply agree_on_refl.
  - rewrite (proj2 (Z.leb_le di idx)) by done. destruct (Z.ltb_spec count (pos + rec_len (de_name e))) as [Hfull|Hfits].
    + exists 0%nat. cbn. split_and!; [lia|lia|done|done| |lia|right; exists e; split; [done|lia]]. intros. apply agree_on_refl.
    + pose proof (rec_len_bounds (de_name e)). pose proof (blen_nonneg (de_name e)).
      specialize (IH (idx + 1) (pos + rec_len (de_name e)) (idx + 1) (put_dirent m (buf + pos) e) ltac:(lia) ltac:(lia)).
      destruct (emit_dirents buf count es (idx + 1) _ _ _) as [[pos' di'] m']. destruct IH as (k & Hk & Hp & Hd & Hr & Hf & Hc & Hs).
      exists (S k). cbn [take length records_size foldr records_at Nat.eqb lookup list_lookup]. fold (records_size (take k es)).
      pose proof (records_size_nonneg (take k es)). split_and!.
      * lia.
      * lia.
      * rewrite Hd. destruct k; cbn [Nat.eqb]; lia.
      * eapply record_at_agree; [by apply put_dirent_record|]. apply Hf. lia.
      * replace (buf + pos + rec_len (de_name e)) with (buf + (pos + rec_len (de_name e))) by lia. done.
      * intros lo hi Hd2. eapply agree_on_trans; [apply put_dirent_frame|apply Hf]; lia.
      * intros. apply Hc. lia.
      * destruct Hs as [->|Hs]; [by left|by right].
Qed.

Lemma emit_skip buf count es idx pos di m :
  idx <= di <= idx + Z.of_nat (length es) ->
  emit_dirents buf count es idx pos di m = emit_dirents buf count (drop (Z.to_nat (di - idx)) es) di pos di m.
Proof.
  revert idx. induction es as [|e es IH]; intros idx H; [by rewrite drop_nil|].
  destruct (Z.eq_dec idx di) as [->|]; [by rewrite Z.sub_diag|]. cbn [emit_dirents length] in *. rewrite (proj2 (Z.leb_gt di idx)) by lia.
  rewrite IH by lia. replace (Z.to_nat (di - idx)) with (S (Z.to_nat (di - (idx + 1)))) by lia. done.
Qed.
