(* ===== verification/Dir.v ===== *)
(** Directory streams (src/src/yos/impl/io/dir.c): the table of open streams,
    each on a host directory or on a file of the process file system, the header
    the guest holds as its [DIR], and the conversion of entries to the
    guest's [struct dirent]; and the calls of io.c and io-linux.c that reach a
    virtual file.

    The guest's heap, what the host answers, and the signals a call delivers
    first are parameters.  A host stream is named by the descriptor it owns, a
    virtual file by its slot.  [None]: what C leaves undefined. *)
From Stdlib Require Import Ascii.
From stdpp Require Import gmap.
From S2P Require Import Prelude Memory Ctx CString Path FdTable Runtime ProcTable Vfs Procfs.

Definition YOS_DIR_MAX : Z := 64.
Definition YOS_FBSD_DIRENT_NAME_OFF : Z := 24.
Definition YOS_FBSD_DIRENT_SIZE : Z := 280.
Definition YOS_LX_DIRENT_NAME_OFF : Z := 19.
Definition YOS_VFS_DIRBUF_SIZE : Z := 4096.
Definition YOS_DD_SIZE : Z := 8.

Record yos_dir_slot : Type := DirSlot {
  ds_in_use : bool;
  ds_host_dir : option Z;
  ds_vfs_file : option nat;
  ds_scratch : Z;
  ds_dd : Z;
  ds_wasm_fd : Z;
  ds_buf : memory;
  ds_buf_len : Z;
  ds_buf_pos : Z;
  ds_exhausted : bool;
}.

Definition zero_slot : yos_dir_slot := DirSlot false None None 0 0 0 (fun _ => 0) 0 0 false.

Definition set_ds_in_use (v : bool) (s : yos_dir_slot) : yos_dir_slot :=
  DirSlot v (ds_host_dir s) (ds_vfs_file s) (ds_scratch s) (ds_dd s) (ds_wasm_fd s) (ds_buf s) (ds_buf_len s) (ds_buf_pos s) (ds_exhausted s).
Definition set_ds_wasm_fd (v : Z) (s : yos_dir_slot) : yos_dir_slot :=
  DirSlot (ds_in_use s) (ds_host_dir s) (ds_vfs_file s) (ds_scratch s) (ds_dd s) v (ds_buf s) (ds_buf_len s) (ds_buf_pos s) (ds_exhausted s).
Definition set_ds_backend (h : option Z) (f : option nat) (s : yos_dir_slot) : yos_dir_slot :=
  DirSlot (ds_in_use s) h f (ds_scratch s) (ds_dd s) (ds_wasm_fd s) (ds_buf s) (ds_buf_len s) (ds_buf_pos s) (ds_exhausted s).
Definition set_ds_offsets (scratch dd : Z) (s : yos_dir_slot) : yos_dir_slot :=
  DirSlot (ds_in_use s) (ds_host_dir s) (ds_vfs_file s) scratch dd (ds_wasm_fd s) (ds_buf s) (ds_buf_len s) (ds_buf_pos s) (ds_exhausted s).
Definition set_ds_buffer (b : memory) (len pos : Z) (ex : bool) (s : yos_dir_slot) : yos_dir_slot :=
  DirSlot (ds_in_use s) (ds_host_dir s) (ds_vfs_file s) (ds_scratch s) (ds_dd s) (ds_wasm_fd s) b len pos ex.

(** The descriptors, the virtual files and the streams of a context. *)
Record dir_ctx : Type := DirCtx {
  d_world : world;
  d_vfs : vfs_ctx;
  dir_slots : option (list yos_dir_slot);
}.

Definition set_d_world (v : world) (c : dir_ctx) : dir_ctx := DirCtx v (d_vfs c) (dir_slots c).
Definition set_d_vfs (v : vfs_ctx) (c : dir_ctx) : dir_ctx := DirCtx (d_world c) v (dir_slots c).
Definition set_dir_slots (v : list yos_dir_slot) (c : dir_ctx) : dir_ctx := DirCtx (d_world c) (d_vfs c) (Some v).
Definition upd_slot (h : nat) (f : yos_dir_slot -> yos_dir_slot) (c : dir_ctx) : dir_ctx :=
  DirCtx (d_world c) (d_vfs c) (alter f h <$> dir_slots c).
Definition upd_file (k : nat) (f : file) (c : dir_ctx) : dir_ctx :=
  match procfs_fds (d_vfs c) with
  | Some t => set_d_vfs (set_procfs_fds (<[k := f]> t) (d_vfs c)) c
  | None => c
  end.

Definition d_exec (c : dir_ctx) : exec_ctx := f_exec (tab (d_world c)).
Definition set_d_exec (x : exec_ctx) (c : dir_ctx) : dir_ctx := set_d_world (upd_tab (set_f_exec x) (d_world c)) c.

(** A path of the guest, and back. *)
Definition path_of_bytes (s : bytes) : path := map (fun b => ascii_of_N (Z.to_N b)) s.
Definition bytes_of_path (p : path) : bytes := map (fun a => Z.of_N (N_of_ascii a)) p.

Section Dir.
Variable remap_errno_h2g : Z -> Z.
Variable translate_path : path -> path.
Variables (malloc : exec_ctx -> Z -> Z * exec_ctx) (free : exec_ctx -> Z -> option exec_ctx).

(** The host: its allocator, [opendir] (a descriptor or an errno), [dup] of a
    descriptor, [closedir] and [close] (a result and an errno). *)
Variable malloc_ok : Z -> bool.
Variables (table_ok slots_ok : bool).
Variable host_opendir : path -> Z + Z.
Variable host_dup : Z -> Z.
Variables (closedir_rc closedir_errno close_rc close_errno : Z -> Z).

(** [yos_signal_pump]: what the guest's handlers change. *)
Variable signal_pump : dir_ctx -> dir_ctx.

Definition d_errno_null (c : dir_ctx) (e : Z) : Z * dir_ctx :=
  let '(r, x) := errno_null remap_errno_h2g (d_exec c) e in (r, set_d_exec x c).
Definition d_errno_neg (c : dir_ctx) (e : Z) : Z * dir_ctx :=
  let '(r, x) := errno_neg remap_errno_h2g (d_exec c) e in (r, set_d_exec x c).

(** * Slots *)

Definition ctx_dirs (c : dir_ctx) : option (list yos_dir_slot) * dir_ctx :=
  match dir_slots c with
  | Some l => (Some l, c)
  | None => if slots_ok then (Some (replicate 64 zero_slot), set_dir_slots (replicate 64 zero_slot) c) else (None, c)
  end.

(** A lookup allocates a missing table too; the empty table is left to the next
    reservation. *)
Definition slot_get (c : dir_ctx) (handle : Z) : option (nat * yos_dir_slot) :=
  if (handle =? 0) || (YOS_DIR_MAX <=? handle) then None
  else
    l ← fst (ctx_dirs c);
    s ← l !! Z.to_nat handle;
    if ds_in_use s then Some (Z.to_nat handle, s) else None.

Definition slot_from_dd (c : dir_ctx) (dd_off : Z) : option (nat * yos_dir_slot) :=
  if dd_off =? 0 then None
  else if memory_size (d_exec c) <? dd_off + YOS_DD_SIZE then None
  else
    '(h, s) ← slot_get c (ld32 (mem (d_exec c)) (dd_off + 4));
    if ds_dd s =? dd_off then Some (h, s) else None.

(** The first free slot from 1 on; 0 is a failure. *)
Definition slot_reserve (c : dir_ctx) : nat * dir_ctx :=
  let '(l, c1) := ctx_dirs c in
  match l with
  | None => (0%nat, c1)
  | Some l =>
      match list_find (fun s => ds_in_use s = false) (tail l) with
      | Some (i, _) => (S i, set_dir_slots (<[S i := set_ds_wasm_fd (-1) (set_ds_in_use true zero_slot)]> l) c1)
      | None => (0%nat, c1)
      end
  end.

(** [None] in the result: the slot is gone; [free] may be undefined. *)
Definition slot_finalise (c : dir_ctx) (h : nat) : option (Z * dir_ctx) :=
  s ← dir_slots c ≫= (fun l => l !! h);
  let '(scratch, x1) := malloc (d_exec c) YOS_FBSD_DIRENT_SIZE in
  let c1 := upd_slot h (set_ds_offsets scratch (ds_dd s)) (set_d_exec x1 c) in
  if scratch =? 0 then Some (-1, upd_slot h (set_ds_in_use false) c1)
  else
    let '(dd, x2) := malloc x1 YOS_DD_SIZE in
    let c2 := upd_slot h (set_ds_offsets scratch dd) (set_d_exec x2 c1) in
    if dd =? 0 then
      x3 ← free x2 scratch;
      Some (-1, upd_slot h (fun s => set_ds_in_use false (set_ds_offsets 0 0 s)) (set_d_exec x3 c2))
    else
      Some (0, set_d_exec (set_mem (st32 (st32 (mem x2) dd (ds_wasm_fd s)) (dd + 4) (Z.of_nat h)) x2) c2).

Definition slot_dd (c : dir_ctx) (h : nat) : Z := default 0 (ds_dd <$> (dir_slots c ≫= (fun l => l !! h))).

(** * Opening *)

Definition vfs_file_from_fd (c : dir_ctx) (fd : Z) : option nat :=
  t ← procfs_fds (d_vfs c); fst <$> yos_file_get t fd.

Definition alloc_wasm_fd_for_host_dir (w : world) (d : Z) (opened_path : path) : Z * world :=
  if d <? 0 then (-1, w)
  else
    let duped := host_dup d in
    if duped <? 0 then (-1, w)
    else
      let '(wfd, w1) := yos_fd_alloc_with_path (host_opened duped w) duped (Some opened_path) in
      if wfd <? 0 then (-1, yos_plat_close duped w1) else (wfd, w1).

(** The stream over a virtual file. *)
Definition opendir_vfs (c : dir_ctx) (remaining : bytes) : option (Z * dir_ctx) :=
  let '(vfd, v1) := procfs_open malloc_ok table_ok (d_vfs c) remaining in
  let c1 := set_d_vfs v1 c in
  if vfd <? 0 then Some (d_errno_null c1 (- vfd))
  else
    match vfs_file_from_fd c1 vfd with
    | None => Some (d_errno_null c1 ENOENT)
    | Some k =>
        let '(h, c2) := slot_reserve c1 in
        if Nat.eqb h 0 then Some (d_errno_null c2 EMFILE)
        else
          '(rc, c3) ← slot_finalise (upd_slot h (fun s => set_ds_wasm_fd vfd (set_ds_backend None (Some k) s)) c2) h;
          Some (if rc <? 0 then d_errno_null c3 ENOMEM else (slot_dd c3 h, c3))
    end.

(** The stream over a host directory that was opened as [d]. *)
Definition host_stream (c : dir_ctx) (d : Z) (wasm_fd : dir_ctx -> Z * dir_ctx) : option (Z * dir_ctx) :=
  let '(h, c1) := slot_reserve c in
  if Nat.eqb h 0 then Some (d_errno_null (set_d_world (yos_plat_close d (d_world c1)) c1) EMFILE)
  else
    let '(wfd, c2) := wasm_fd (upd_slot h (set_ds_backend (Some d) None) c1) in
    '(rc, c3) ← slot_finalise (upd_slot h (set_ds_wasm_fd wfd) c2) h;
    Some (if rc <? 0 then d_errno_null (set_d_world (yos_plat_close d (d_world c3)) c3) ENOMEM else (slot_dd c3 h, c3)).

Definition yos_opendir (c : dir_ctx) (path_off : Z) : option (Z * dir_ctx) :=
  if (path_off =? 0) || (memory_size (d_exec c) <=? path_off) then Some (d_errno_null c EFAULT)
  else
    raw ← cstr (d_exec c) path_off;
    let p := yos_path_resolve translate_path (cwd (tab (d_world c))) (path_of_bytes raw) in
    match (match mount_table (d_vfs c) with Some t => yos_mount_resolve t (bytes_of_path p) | None => (None, []) end) with
    | (Some yos_procfs_ops, remaining) => opendir_vfs c remaining
    | (None, _) =>
        match host_opendir p with
        | inr e => Some (d_errno_null c e)
        | inl d =>
            host_stream (set_d_world (host_opened d (d_world c)) c) d
              (fun c1 => let '(wfd, w1) := alloc_wasm_fd_for_host_dir (d_world c1) d p in (wfd, set_d_world w1 c1))
        end
    end.

(** [fdopendir] hands the host descriptor over to the stream; [e] is its errno
    when [ok] is false. *)
Definition yos_fdopendir (c : dir_ctx) (wasm_fd : Z) (ok : bool) (e : Z) : option (Z * dir_ctx) :=
  let '(hfd, w1) := yos_fd_get remap_errno_h2g (d_world c) wasm_fd in
  let c1 := set_d_world w1 c in
  if hfd <? 0 then Some (d_errno_null c1 EBADF)
  else if negb ok then Some (d_errno_null c1 e)
  else host_stream c1 hfd (fun c2 => (wasm_fd, c2)).

(** * Reading *)

(** An entry in the guest's layout; the name is cut to 255 characters. *)
Definition emit_fbsd_dirent (x : exec_ctx) (scratch fileno off type : Z) (name : bytes) : exec_ctx :=
  let name := take 255 name in
  let m := memset (mem x) scratch 0 YOS_FBSD_DIRENT_SIZE in
  let m := st64 (st64 m scratch fileno) (scratch + 8) off in
  let m := st16 m (scratch + 16) (Z.land (YOS_FBSD_DIRENT_NAME_OFF + blen name + 1 + 7) (Z.lnot 7)) in
  let m := st16 (st8 m (scratch + 18) type) (scratch + 20) (blen name) in
  set_mem (write_bytes m (scratch + YOS_FBSD_DIRENT_NAME_OFF) name) x.

(** The loop over the read-ahead buffer: the entry at its position, or a new
    buffer.  [None]: [fuel] rounds without a result, or a name that runs out of
    the buffer. *)
Fixpoint readdir_vfs (fuel : nat) (c : dir_ctx) (h k : nat) : option (Z * dir_ctx) :=
  match fuel with
  | O => None
  | S f =>
      s ← dir_slots c ≫= (fun l => l !! h);
      if ds_buf_pos s <? ds_buf_len s then
        let e := ds_buf_pos s in
        let reclen := ld16 (ds_buf s) (e + 16) in
        if (reclen =? 0) || (ds_buf_len s <? e + reclen) then
          readdir_vfs f (upd_slot h (fun s => set_ds_buffer (ds_buf s) (ds_buf_len s) (ds_buf_len s) (ds_exhausted s) s) c) h k
        else
          name ← cstr_go (Z.to_nat (YOS_VFS_DIRBUF_SIZE - (e + YOS_LX_DIRENT_NAME_OFF))) (ds_buf s) (e + YOS_LX_DIRENT_NAME_OFF);
          Some (ds_scratch s,
                upd_slot h (fun s => set_ds_buffer (ds_buf s) (ds_buf_len s) (e + reclen) (ds_exhausted s) s)
                  (set_d_exec (emit_fbsd_dirent (d_exec c) (ds_scratch s) (ld64 (ds_buf s) e) (ld64 (ds_buf s) (e + 8))
                                 (ld8 (ds_buf s) (e + 18)) name) c))
      else if ds_exhausted s then Some (0, c)
      else
        fl ← procfs_fds (d_vfs c) ≫= (fun t => t !! k);
        let '(n, fl1, b) := procfs_getdents64 (d_vfs c) fl (ds_buf s) 0 YOS_VFS_DIRBUF_SIZE in
        let c1 := upd_slot h (fun s => set_ds_buffer b (ds_buf_len s) (ds_buf_pos s) (ds_exhausted s) s) (upd_file k fl1 c) in
        if n <? 0 then Some (d_errno_null c1 (- n))
        else if n =? 0 then Some (0, upd_slot h (fun s => set_ds_buffer (ds_buf s) (ds_buf_len s) (ds_buf_pos s) true s) c1)
        else readdir_vfs f (upd_slot h (fun s => set_ds_buffer (ds_buf s) n 0 (ds_exhausted s) s) c1) h k
  end.

(** [host_entry]: what the host's readdir answers, an entry, or an errno that is
    0 at the end of the directory. *)
Definition yos_readdir (host_entry : (Z * Z * Z * bytes) + Z) (c0 : dir_ctx) (dd_off : Z) : option (Z * dir_ctx) :=
  let c := signal_pump c0 in
  match slot_from_dd c dd_off with
  | None => Some (d_errno_null c EBADF)
  | Some (h, s) =>
      match ds_vfs_file s with
      | Some k => readdir_vfs 4 c h k
      | None =>
          match host_entry with
          | inl (ino, off, type, name) => Some (ds_scratch s, set_d_exec (emit_fbsd_dirent (d_exec c) (ds_scratch s) ino off type name) c)
          | inr e => Some (if e =? 0 then (0, c) else d_errno_null c e)
          end
      end
  end.

(** * Closing *)

Definition free_nonzero (x : exec_ctx) (off : Z) : option exec_ctx := if off =? 0 then Some x else free x off.

Definition yos_closedir (c : dir_ctx) (dd_off : Z) : option (Z * dir_ctx) :=
  match slot_from_dd c dd_off with
  | None => Some (d_errno_neg c EBADF)
  | Some (h, s) =>
      let '(rc, c1) :=
        match ds_host_dir s with
        | Some d => (if closedir_rc d <? 0 then - closedir_errno d else 0, set_d_world (yos_plat_close d (d_world c)) c)
        | None => (0, c)
        end in
      let wfd := ds_wasm_fd s in
      let c2 := if (0 <=? wfd) && (wfd <? YOS_FD_MAX) && negb (yos_is_virtual_fd wfd)
                then set_d_world (snd (yos_fd_close remap_errno_h2g close_rc close_errno (d_world c1) wfd)) c1 else c1 in
      let c3 := upd_slot h (fun _ => set_ds_wasm_fd (-1) zero_slot) c2 in
      x1 ← free_nonzero (d_exec c3) (ds_scratch s);
      x2 ← free_nonzero x1 (ds_dd s);
      let c4 := set_d_exec x2 c3 in
      Some (if rc <? 0 then d_errno_neg c4 (- rc) else (0, c4))
  end.

Definition yos_dirfd (c : dir_ctx) (dd_off : Z) : Z * dir_ctx :=
  match slot_from_dd c dd_off with
  | None => d_errno_neg c EBADF
  | Some (_, s) => if ds_wasm_fd s <? 0 then d_errno_neg c EBADF else (ds_wasm_fd s, c)
  end.

Definition yos_rewinddir (c : dir_ctx) (dd_off : Z) : dir_ctx :=
  match slot_from_dd c dd_off with
  | None => c
  | Some (h, s) =>
      match ds_host_dir s, ds_vfs_file s with
      | Some _, _ => c
      | None, Some k =>
          match procfs_fds (d_vfs c) ≫= (fun t => t !! k) with
          | Some f => upd_slot h (fun s => set_ds_buffer (ds_buf s) 0 0 false s) (upd_file k (set_vf_dir_index 0 f) c)
          | None => c
          end
      | None, None => c
      end
  end.

(** * Virtual descriptors (io.c, io-linux.c) *)

(** The file behind a virtual descriptor, or EBADF. *)
Definition with_virtual (c : dir_ctx) (fd : Z) (k : nat -> file -> Z * dir_ctx) : Z * dir_ctx :=
  match procfs_fds (d_vfs c) with
  | None => d_errno_neg c EBADF
  | Some t => match yos_file_get t fd with
              | None => d_errno_neg c EBADF
              | Some (i, f) => match vf_ops f with Some yos_procfs_ops => k i f | None => d_errno_neg c EBADF end
              end
  end.

(** [yos_read], once the range of the buffer is known to be in memory. *)
Definition read_virtual (c : dir_ctx) (fd buf count : Z) : Z * dir_ctx :=
  with_virtual c fd (fun i f =>
    let '(n, f1, m1) := procfs_read f (mem (d_exec c)) buf count in
    (n, set_d_exec (set_mem m1 (d_exec c)) (upd_file i f1 c))).

Definition yos_vfs_getdents64 (c : dir_ctx) (fd dirent count : Z) : Z * dir_ctx :=
  with_virtual c fd (fun i f =>
    let '(n, f1, m1) := procfs_getdents64 (d_vfs c) f (mem (d_exec c)) dirent count in
    (n, set_d_exec (set_mem m1 (d_exec c)) (upd_file i f1 c))).

(** [yos_close]: a file without operations is closed all the same. *)
Definition close_virtual (c : dir_ctx) (fd : Z) : Z * dir_ctx :=
  match procfs_fds (d_vfs c) with
  | None => d_errno_neg c EBADF
  | Some t => match yos_file_get t fd with
              | None => d_errno_neg c EBADF
              | Some (i, f) => (match vf_ops f with Some yos_procfs_ops => procfs_close f | None => 0 end,
                                set_d_vfs (set_procfs_fds (yos_file_free t fd) (d_vfs c)) c)
              end
  end.

(** [yos_open] of a path on a virtual file system; [None] goes to the host. *)
Definition open_virtual (c : dir_ctx) (p : path) : option (Z * dir_ctx) :=
  t ← mount_table (d_vfs c);
  match yos_mount_resolve t (bytes_of_path p) with
  | (Some yos_procfs_ops, remaining) =>
      let '(fd, v1) := procfs_open malloc_ok table_ok (d_vfs c) remaining in Some (fd, set_d_vfs v1 c)
  | (None, _) => None
  end.
End Dir.
