(* ===== verification/DirProps.v ===== *)
(** Directory streams over the process file system: a stream yields every entry
    of its directory once, in order, whatever the size of the read-ahead buffer,
    and what closing it releases. *)
From Stdlib Require Import Strings.String.
From stdpp Require Import gmap.
From S2P Require Import Prelude Memory Ctx CString Alloc FreeList HeapInv AllocProps AllocThms Runtime ProcTable Sigset Sig Fixtures Path FdTable GuestHeap Strto Decimal Vfs VfsProps Procfs ProcfsProps Dir.

(** * Listings *)

(** The entries of the directory a file was opened on. *)
Definition listing (v : vfs_ctx) (type : yos_procfs_type) : list lx_dirent :=
  match type with YOS_PROCFS_ROOT => root_listing v | YOS_PROCFS_PID_DIR => pid_entries | _ => [] end.

Definition is_directory (type : yos_procfs_type) : Prop := type = YOS_PROCFS_ROOT \/ type = YOS_PROCFS_PID_DIR.

Definition int_pids (v : vfs_ctx) : Prop := Forall (fun p => -2147483648 <= pid p < 2147483648) (procs (v_rt v)).

Lemma proc_entry_ok p : -2147483648 <= pid p < 2147483648 -> dirent_ok (proc_entry p).
Proof.
  intros H. split_and!; cbn; [apply decimal_bytes; lia| |done|done]. pose proof (decimal_length (pid p)). lia.
Qed.

Lemma listing_ok v type : int_pids v -> Forall dirent_ok (listing v type).
Proof.
  intros Hp. unfold int_pids in Hp. destruct type; try (by constructor).
  - unfold listing, root_listing. apply Forall_app. split.
    + repeat constructor; cbn; try lia; repeat constructor; by vm_compute.
    + apply Forall_map. apply Forall_forall. intros p Hp2. apply list_elem_of_In, filter_In in Hp2 as [Hin _].
      apply proc_entry_ok. rewrite Forall_forall in Hp. by apply Hp, list_elem_of_In.
  - unfold listing, pid_entries. repeat constructor; cbn; try lia; repeat constructor; by vm_compute.
Qed.

(** A refill of the read-ahead buffer. *)
Lemma getdents_spec v (f : file) b :
  is_directory (vf_type f) -> int_pids v -> 0 <= vf_dir_index f <= Z.of_nat (length (listing v (vf_type f))) ->
  exists k b', let todo := drop (Z.to_nat (vf_dir_index f)) (listing v (vf_type f)) in
    procfs_getdents64 v f b 0 YOS_VFS_DIRBUF_SIZE =
      (records_size (take k todo), set_vf_dir_index (vf_dir_index f + Z.of_nat k) f, b') /\
    (k <= length todo)%nat /\ records_at b' 0 (take k todo) /\ records_size (take k todo) <= YOS_VFS_DIRBUF_SIZE /\
    (todo <> [] -> (0 < k)%nat).
Proof.
  intros Hd Hp Hi. set (L := listing v (vf_type f)) in *. set (n := vf_dir_index f) in *.
  pose proof (listing_ok v (vf_type f) Hp) as Hok. fold L in Hok.
  assert (Hok' : Forall dirent_ok (drop (Z.to_nat n) L)) by (by apply Forall_drop).
  pose proof (emit_spec 0 YOS_VFS_DIRBUF_SIZE (drop (Z.to_nat n) L) n 0 n b Hok' ltac:(lia) ltac:(lia)) as H.
  destruct (emit_dirents 0 YOS_VFS_DIRBUF_SIZE (drop (Z.to_nat n) L) n 0 n b) as [[pos di] b'] eqn:E.
  destruct H as (k & Hk & Hpos & Hdi & Hr & _ & Hc & Hs). exists k, b'. cbn zeta.
  assert (Hrun : procfs_getdents64 v f b 0 YOS_VFS_DIRBUF_SIZE = (s32 pos, set_vf_dir_index di f, b')).
  { unfold procfs_getdents64. fold n. destruct Hd as [Ht|Ht]; rewrite Ht.
    - assert (HL : root_listing v = L) by (unfold L; by rewrite Ht). rewrite HL.
      rewrite ?HL, emit_skip, Z.sub_0_r, E by lia. done.
    - assert (HL : pid_entries = L) by (unfold L; by rewrite Ht). rewrite ?HL, E. done. }
  pose proof (records_size_nonneg (take k (drop (Z.to_nat n) L))) as Hnn. unfold YOS_VFS_DIRBUF_SIZE in *.
  rewrite Hrun. split_and!.
  - rewrite s32_small by lia. f_equal. f_equal; [lia|]. f_equal. rewrite Hdi. destruct k; cbn [Nat.eqb]; lia.
  - done.
  - by rewrite Z.add_0_r in Hr.
  - lia.
  - intros Hne. destruct k; [|lia]. destruct Hs as [Hs|(e & He & Hs)].
    + destruct (drop (Z.to_nat n) L); [done|]. cbn in Hs. lia.
    + rewrite Forall_forall in Hok'. destruct (Hok' e ltac:(by eapply list_elem_of_lookup_2)) as (_ & Hl & _).
      pose proof (rec_len_bounds (de_name e)). change (records_size (take 0 _)) with 0 in Hpos. lia.
Qed.

(** * One entry *)

(** An entry as the guest reads it. *)
Definition fb_dirent (m : memory) (a : Z) : Z * Z * bytes := (ld64 m a, ld8 m (a + 18), read_bytes m (a + 24) (ld16 m (a + 20))).
Definition fb_view (e : lx_dirent) : Z * Z * bytes := (u64 (de_ino e), de_type e, de_name e).

Lemma emit_fbsd_frame x a fileno off type name lo hi :
  hi <= a \/ a + YOS_FBSD_DIRENT_SIZE <= lo -> agree_on lo hi (mem x) (mem (emit_fbsd_dirent x a fileno off type name)).
Proof.
  unfold YOS_FBSD_DIRENT_SIZE. intros H. unfold emit_fbsd_dirent, YOS_FBSD_DIRENT_SIZE, YOS_FBSD_DIRENT_NAME_OFF. cbn [mem set_mem].
  assert (blen (take 255 name) <= 255) by (unfold blen; rewrite length_take; lia). pose proof (blen_nonneg (take 255 name)).
  eapply agree_on_trans; [|apply write_bytes_frame; lia]. eapply agree_on_trans; [|apply st16_frame; lia].
  eapply agree_on_trans; [|apply st8_frame; lia]. eapply agree_on_trans; [|apply st16_frame; lia].
  eapply agree_on_trans; [|apply st64_frame; lia]. eapply agree_on_trans; [|apply st64_frame; lia]. apply memset_frame. lia.
Qed.

Lemma emit_fbsd_view x a fileno off type name :
  is_bytes name -> blen name <= 255 -> 0 <= type < 256 ->
  fb_dirent (mem (emit_fbsd_dirent x a fileno off type name)) a = (u64 fileno, type, name).
Proof.
  intros Hn Hl Ht. unfold emit_fbsd_dirent, YOS_FBSD_DIRENT_SIZE, YOS_FBSD_DIRENT_NAME_OFF. cbn [mem set_mem].
  rewrite (take_ge name) by (unfold blen in Hl; lia). pose proof (blen_nonneg name).
  set (m0 := memset _ _ _ _). set (m1 := st64 m0 _ _). set (m2 := st64 m1 _ _). set (m3 := st16 m2 _ _). set (m4 := st8 m3 _ _). set (m5 := st16 m4 _ _).
  assert (F : agree_on a (a + 24) m5 (write_bytes m5 (a + 24) name)) by (apply write_bytes_frame; lia). unfold fb_dirent. f_equal; [f_equal|].
  - rewrite (ld64_agree m5) by (eapply agree_on_sub; [..|exact F]; lia).
    rewrite (ld64_agree m4) by (apply st16_frame; lia). rewrite (ld64_agree m3) by (apply st8_frame; lia).
    rewrite (ld64_agree m2) by (apply st16_frame; lia). unfold m2. rewrite ld64_st64_ne by lia. apply ld64_st64.
  - rewrite F by lia. assert (F5 : agree_on a (a + 20) m4 m5) by (apply st16_frame; lia). rewrite F5 by lia.
    unfold m4. rewrite ld8_st8, Z.eqb_refl. by apply Z.mod_small.
  - rewrite (ld16_agree m5) by (eapply agree_on_sub; [..|exact F]; lia). unfold m5 at 2. rewrite ld16_st16, Z.mod_small by lia.
    by apply read_bytes_write.
Qed.

(** * Streams *)

(** The stream with header [dd] in slot [h], over the directory in the virtual
    file [k]: [pend] is what its read-ahead buffer holds. *)
Record stream_at (c : dir_ctx) (dd scratch : Z) (h k : nat) (s : yos_dir_slot) (f : file) (pend : list lx_dirent) : Prop := {
  sa_pids : int_pids (d_vfs c);
  sa_header : 0 < dd /\ dd + YOS_DD_SIZE <= memory_size (d_exec c) /\ (scratch + YOS_FBSD_DIRENT_SIZE <= dd \/ dd + YOS_DD_SIZE <= scratch);
  sa_slot : dir_slots c ≫= (fun l => l !! h) = Some s;
  sa_file : procfs_fds (d_vfs c) ≫= (fun t => t !! k) = Some f;
  sa_index : (0 < h < 64)%nat /\ ld32 (mem (d_exec c)) (dd + 4) = Z.of_nat h;
  sa_fields : ds_in_use s = true /\ ds_dd s = dd /\ ds_scratch s = scratch /\ ds_vfs_file s = Some k /\ ds_host_dir s = None /\ YOS_VFS_FD_BASE <= ds_wasm_fd s;
  sa_dir : is_directory (vf_type f) /\ 0 <= vf_dir_index f <= Z.of_nat (length (listing (d_vfs c) (vf_type f)));
  sa_buf : 0 <= ds_buf_pos s /\ ds_buf_len s = ds_buf_pos s + records_size pend /\ ds_buf_len s <= YOS_VFS_DIRBUF_SIZE;
  sa_pend : records_at (ds_buf s) (ds_buf_pos s) pend /\ Forall dirent_ok pend
}.

(** What a call of getdents64 would yield next. *)
Definition todo (c : dir_ctx) (f : file) : list lx_dirent := drop (Z.to_nat (vf_dir_index f)) (listing (d_vfs c) (vf_type f)).

(** [rest]: the entries the stream has not yielded yet. *)
Definition stream (c : dir_ctx) (dd scratch : Z) (rest : list lx_dirent) : Prop :=
  exists h k s f pend, stream_at c dd scratch h k s f pend /\ rest = pend ++ todo c f /\ (ds_exhausted s = true -> rest = []).

Section Streams.
Context {malloc : exec_ctx -> Z -> Z * exec_ctx} {free : exec_ctx -> Z -> option exec_ctx}.
Variable h2g : Z -> Z.

#[local] Abbreviation readdir := (yos_readdir h2g true (fun c => c)).

Lemma stream_slot_lookup c dd h s :
  0 < dd -> dd + YOS_DD_SIZE <= memory_size (d_exec c) -> dir_slots c ≫= (fun l => l !! h) = Some s -> (0 < h < 64)%nat ->
  ld32 (mem (d_exec c)) (dd + 4) = Z.of_nat h -> ds_in_use s = true -> ds_dd s = dd -> slot_from_dd true c dd = Some (h, s).
Proof.
  intros H0 H1 H2 H4 H5 H6 H7. unfold slot_from_dd. rewrite (proj2 (Z.eqb_neq dd 0)), (proj2 (Z.ltb_ge _ _)) by lia.
  rewrite H5. unfold slot_get, YOS_DIR_MAX. rewrite (proj2 (Z.eqb_neq (Z.of_nat h) 0)), (proj2 (Z.leb_gt 64 (Z.of_nat h))) by lia. cbn [orb].
  unfold ctx_dirs. destruct (dir_slots c) as [l|]; [|done]. cbn [mbind option_bind fst] in *. rewrite Nat2Z.id, H2. cbn [mbind option_bind].
  rewrite H6. cbn [mbind option_bind]. by rewrite H7, Z.eqb_refl.
Qed.

Lemma slot_of_stream c dd scratch h k s f pend : stream_at c dd scratch h k s f pend -> slot_from_dd true c dd = Some (h, s).
Proof. intros [_ (H0 & H1 & _) H2 _ (H4 & H5) (H6 & H7 & _) _ _ _]. by apply stream_slot_lookup. Qed.

Lemma records_head m a e pend : records_at m a (e :: pend) -> dirent_ok e ->
  ld16 m (a + 16) = rec_len (de_name e) /\ ld8 m (a + 18) = de_type e /\ ld64 m a = u64 (de_ino e) /\
  (forall n, blen (de_name e) < Z.of_nat n -> cstr_go n m (a + 19) = Some (de_name e)).
Proof. intros [[H1 H2 H3 H4 H5] _] _. split_and!; [done..|]. intros n Hn. by apply str_at_cstr_go. Qed.

Lemma slot_upd h g c s :
  dir_slots c ≫= (fun l => l !! h) = Some s -> dir_slots (upd_slot h g c) ≫= (fun l => l !! h) = Some (g s).
Proof. unfold upd_slot. destruct (dir_slots c) as [l|]; [|done]. cbn. intros H. by rewrite list_lookup_alter_eq, H. Qed.

Lemma upd_slot_twice h g g' c : upd_slot h g (upd_slot h g' c) = upd_slot h (fun s => g (g' s)) c.
Proof. unfold upd_slot. cbn. f_equal. destruct (dir_slots c); [|done]. cbn. f_equal. apply (list_alter_alter_eq g g'). Qed.

Lemma file_upd k f f0 c :
  procfs_fds (d_vfs c) ≫= (fun t => t !! k) = Some f0 -> procfs_fds (d_vfs (upd_file k f c)) ≫= (fun t => t !! k) = Some f.
Proof.
  unfold upd_file. destruct (procfs_fds (d_vfs c)) as [t|]; [|done]. cbn. intros H. apply lookup_lt_Some in H. by rewrite list_lookup_insert_eq.
Qed.

Lemma upd_file_same k f c :
  v_rt (d_vfs (upd_file k f c)) = v_rt (d_vfs c) /\ d_world (upd_file k f c) = d_world c /\ dir_slots (upd_file k f c) = dir_slots c.
Proof. unfold upd_file. by destruct (procfs_fds (d_vfs c)). Qed.

(** The buffer holds an entry: it is converted, and the position moves on. *)
Lemma readdir_buffered n c dd scratch h k s f e pend :
  stream_at c dd scratch h k s f (e :: pend) ->
  exists c', readdir_vfs h2g (S n) c h k = Some (scratch, c') /\ v_rt (d_vfs c') = v_rt (d_vfs c) /\ todo c' f = todo c f /\
    fb_dirent (mem (d_exec c')) scratch = fb_view e /\
    (forall lo hi, hi <= scratch \/ scratch + YOS_FBSD_DIRENT_SIZE <= lo -> agree_on lo hi (mem (d_exec c)) (mem (d_exec c'))) /\
    exists s', stream_at c' dd scratch h k s' f pend /\ ds_exhausted s' = ds_exhausted s.
Proof.
  intros [Hp Hh Hs Hf Hi Hfl Hd (Hb0 & Hlen & Hmax) (Hr & Hok)]. apply Forall_cons in Hok as [Hok Hoks].
  pose proof (rec_len_bounds (de_name e)). pose proof (blen_nonneg (de_name e)).
  pose proof (records_size_nonneg pend). change (records_size (e :: pend)) with (rec_len (de_name e) + records_size pend) in Hlen.
  unfold YOS_VFS_DIRBUF_SIZE in Hmax. destruct (records_head _ _ _ _ Hr Hok) as (E1 & E2 & E3 & E4).
  eexists. split; [|].
  { cbn [readdir_vfs]. rewrite Hs. cbn [mbind option_bind].
    rewrite (proj2 (Z.ltb_lt (ds_buf_pos s) (ds_buf_len s))) by lia. rewrite E1, E2, E3.
    rewrite (proj2 (Z.eqb_neq (rec_len (de_name e)) 0)), (proj2 (Z.ltb_ge (ds_buf_len s) _)) by lia. cbn [orb].
    unfold YOS_LX_DIRENT_NAME_OFF, YOS_VFS_DIRBUF_SIZE. rewrite E4 by lia. cbn [mbind option_bind].
    destruct Hfl as (_ & _ & -> & _). reflexivity. }
  match goal with |- context [emit_fbsd_dirent ?a ?b0 ?c0 ?d ?e0 ?f0] => set (x := emit_fbsd_dirent a b0 c0 d e0 f0) end.
  assert (Hfr : forall lo hi, hi <= scratch \/ scratch + YOS_FBSD_DIRENT_SIZE <= lo -> agree_on lo hi (mem (d_exec c)) (mem x))
    by (intros lo hi Hlh; by apply emit_fbsd_frame).
  split_and!; [done|done| |exact Hfr|].
  - destruct Hok as (Hn & Hl & Ht). unfold fb_view. change (mem (d_exec (upd_slot h _ (set_d_exec x c)))) with (mem x).
    unfold x. rewrite emit_fbsd_view; [|eapply Forall_impl; [exact Hn|]; unfold byte_ok; lia|lia|done]. do 2 f_equal. apply Z.mod_mod. lia.
  - eexists. split; [split|].
    + done.
    + done.
    + rewrite (slot_upd _ _ _ s); [reflexivity|exact Hs].
    + exact Hf.
    + destruct Hi as [Hi1 Hi2]. split; [done|]. rewrite <-Hi2. apply ld32_agree. apply Hfr. unfold YOS_DD_SIZE in *. lia.
    + done.
    + done.
    + cbn. unfold YOS_VFS_DIRBUF_SIZE. lia.
    + split; [|done]. by destruct Hr.
    + done.
Qed.

(** The buffer is empty: it is filled again. *)
Lemma readdir_refill n c dd scratch h k s f :
  stream_at c dd scratch h k s f [] -> ds_exhausted s = false ->
  exists j c' s' f', (j <= length (todo c f))%nat /\ (todo c f <> [] -> (0 < j)%nat) /\ stream_at c' dd scratch h k s' f' (take j (todo c f)) /\
    todo c' f' = drop j (todo c f) /\ v_rt (d_vfs c') = v_rt (d_vfs c) /\ d_exec c' = d_exec c /\ ds_exhausted s' = Nat.eqb j 0 /\
    readdir_vfs h2g (S n) c h k = if Nat.eqb j 0 then Some (0, c') else readdir_vfs h2g n c' h k.
Proof.
  intros [Hp Hh Hs Hf Hi Hfl [Hd Hix] (Hb0 & Hlen & Hmax) _] Hex.
  destruct (getdents_spec (d_vfs c) f (ds_buf s) Hd Hp Hix) as (j & b & E & Hj & Hr & Hsz & Hpos). fold (todo c f) in E, Hj, Hr, Hsz, Hpos.
  change (records_size []) with 0 in Hlen. rewrite Z.add_0_r in Hlen.
  set (f' := set_vf_dir_index (vf_dir_index f + Z.of_nat j) f) in E |- *. destruct (upd_file_same k f' c) as (F1 & F2 & F3).
  set (g := fun s => if Nat.eqb j 0 then set_ds_buffer b (ds_buf_len s) (ds_buf_pos s) true s else set_ds_buffer b (records_size (take j (todo c f))) 0 false s).
  exists j, (upd_slot h g (upd_file k f' c)), (g s), f'. pose proof (records_size_nonneg (take j (todo c f))).
  assert (HL : listing (d_vfs (upd_slot h g (upd_file k f' c))) (vf_type f') = listing (d_vfs c) (vf_type f)).
  { change (vf_type f') with (vf_type f). unfold listing, root_listing. cbn [d_vfs upd_slot]. by rewrite F1. }
  assert (Htodo : todo (upd_slot h g (upd_file k f' c)) f' = drop j (todo c f)).
  { unfold todo. rewrite HL, drop_drop. change (vf_dir_index f') with (vf_dir_index f + Z.of_nat j). f_equal. lia. }
  assert (Hjs : length (todo c f) = (length (listing (d_vfs c) (vf_type f)) - Z.to_nat (vf_dir_index f))%nat) by apply length_drop.
  split_and!; [done|done| |done|done| | |].
  - split.
    + unfold int_pids. cbn [d_vfs upd_slot]. by rewrite F1.
    + unfold d_exec. cbn [d_world upd_slot]. by rewrite F2.
    + apply slot_upd. by rewrite F3.
    + by apply (file_upd k f' f).
    + unfold d_exec. cbn [d_world upd_slot]. by rewrite F2.
    + unfold g. destruct (Nat.eqb j 0); exact Hfl.
    + split; [exact Hd|]. rewrite HL. change (vf_dir_index f') with (vf_dir_index f + Z.of_nat j). lia.
    + unfold g. destruct j as [|j]; cbn [Nat.eqb ds_buf_pos ds_buf_len set_ds_buffer]; [change (records_size (take 0 _)) with 0|]; lia.
    + split; [|apply Forall_take, Forall_drop, listing_ok; done]. unfold g. by destruct j.
  - unfold d_exec. cbn [d_world upd_slot]. by rewrite F2.
  - unfold g. by destruct (Nat.eqb j 0).
  - cbn [readdir_vfs]. rewrite Hs. cbn [mbind option_bind]. rewrite Hlen, Z.ltb_irrefl, Hex.
    rewrite Hf. cbn [mbind option_bind]. rewrite E. rewrite (proj2 (Z.ltb_ge _ 0)) by lia. rewrite !upd_slot_twice.
    cbn [ds_buf ds_buf_len ds_buf_pos ds_exhausted set_ds_buffer]. unfold g. destruct j as [|j]; cbn [Nat.eqb]; [done|].
    assert (0 < records_size (take (S j) (todo c f))).
    { destruct (todo c f) as [|e l]; [cbn in Hj; lia|]. cbn [take]. pose proof (rec_len_bounds (de_name e)). pose proof (blen_nonneg (de_name e)).
      pose proof (records_size_nonneg (take j l)). change (records_size (e :: take j l)) with (rec_len (de_name e) + records_size (take j l)). lia. }
    rewrite (proj2 (Z.eqb_neq _ 0)) by lia. f_equal. unfold upd_slot. f_equal. rewrite !F3. destruct (dir_slots c) as [l|]; [|done]. cbn in Hs |- *.
    f_equal. apply list_eq. intros i. destruct (decide (h = i)) as [<-|Hne]; [|by rewrite !list_lookup_alter_ne by done].
    rewrite !list_lookup_alter_eq, Hs. cbn. by rewrite Hex.
Qed.

(** One call of readdir. *)
Lemma readdir_step entry c dd scratch rest :
  stream c dd scratch rest ->
  exists r c', readdir entry c dd = Some (r, c') /\ v_rt (d_vfs c') = v_rt (d_vfs c) /\ stream c' dd scratch (tail rest) /\
    (forall lo hi, hi <= scratch \/ scratch + YOS_FBSD_DIRENT_SIZE <= lo -> agree_on lo hi (mem (d_exec c)) (mem (d_exec c'))) /\
    match rest with
    | [] => r = 0
    | e :: _ => r = scratch /\ fb_dirent (mem (d_exec c')) scratch = fb_view e
    end.
Proof.
  intros (h & k & s & f & pend & Hst & Hrest & Hex). pose proof (slot_of_stream _ _ _ _ _ _ _ _ Hst) as Hslot.
  unfold yos_readdir. rewrite Hslot. destruct (sa_fields _ _ _ _ _ _ _ _ Hst) as (_ & _ & _ & -> & _).
  assert (Hent : forall n c1 s1 f1 e l, stream_at c1 dd scratch h k s1 f1 (e :: l) -> v_rt (d_vfs c1) = v_rt (d_vfs c) -> d_exec c1 = d_exec c ->
    rest = e :: l ++ todo c1 f1 -> ds_exhausted s1 = false ->
    exists r c', readdir_vfs h2g (S n) c1 h k = Some (r, c') /\ v_rt (d_vfs c') = v_rt (d_vfs c) /\ stream c' dd scratch (tail rest) /\
    (forall lo hi, hi <= scratch \/ scratch + YOS_FBSD_DIRENT_SIZE <= lo -> agree_on lo hi (mem (d_exec c)) (mem (d_exec c'))) /\
    match rest with [] => r = 0 | e :: _ => r = scratch /\ fb_dirent (mem (d_exec c')) scratch = fb_view e end).
  { intros n c1 s1 f1 e l H1 Hv Hm Hr Hx. destruct (readdir_buffered n c1 dd scratch h k s1 f1 e l H1) as (c' & E & Ev & Et & Eview & Ef & s' & Hs' & Ex).
    exists scratch, c'. rewrite Hr, <-Hm. split; [done|]. split; [by rewrite Ev|]. split; [|split; [done|done]].
    exists h, k, s', f1, l. split; [done|]. rewrite Et. split; [done|]. rewrite Ex, Hx. done. }
  destruct pend as [|e l].
  - destruct (ds_exhausted s) eqn:Ee.
    + exists 0, c. rewrite (Hex eq_refl). cbn [tail]. split.
      * cbn [readdir_vfs]. rewrite (sa_slot _ _ _ _ _ _ _ _ Hst). cbn [mbind option_bind].
        destruct (sa_buf _ _ _ _ _ _ _ _ Hst) as (_ & -> & _). change (records_size []) with 0. by rewrite Z.add_0_r, Z.ltb_irrefl, Ee.
      * split_and!; [done| |intros; apply agree_on_refl|done]. exists h, k, s, f, []. rewrite <-Hrest, (Hex eq_refl). done.
    + destruct (readdir_refill 3 c dd scratch h k s f Hst Ee) as (j & c' & s' & f' & Hj & Hpos & Hst' & Htodo & Hv & Hm & Hx & E).
      rewrite E. destruct j as [|j]; cbn [Nat.eqb] in *.
      * assert (todo c f = []) as Hnil by (destruct (todo c f); [done|]; specialize (Hpos ltac:(done)); lia).
        exists 0, c'. rewrite Hrest, Hnil. cbn [app tail]. split_and!; [done|done| |rewrite Hm; intros; apply agree_on_refl|done].
        exists h, k, s', f', []. rewrite Hnil in Hst', Htodo. split; [done|]. by rewrite Htodo.
      * destruct (todo c f) as [|e l] eqn:Etodo; [cbn in Hj; lia|]. cbn [take] in Hst'.
        apply (Hent 2%nat c' s' f' e (take j l) Hst' Hv Hm); [|done]. rewrite Hrest, Htodo. cbn [app drop]. by rewrite take_drop.
  - apply (Hent 3%nat c s f e l Hst); [done|done|done|]. destruct (ds_exhausted s); [|done]. specialize (Hex eq_refl). by rewrite Hrest in Hex.
Qed.

(** The entries that calls of readdir yield up to the end of the directory. *)
Fixpoint read_dir (fuel : nat) (c : dir_ctx) (dd : Z) : option (list (Z * Z * bytes) * dir_ctx) :=
  match fuel with
  | O => None
  | S n =>
      '(r, c1) ← readdir (inr 0) c dd;
      if r =? 0 then Some ([], c1)
      else '(es, c2) ← read_dir n c1 dd; Some (fb_dirent (mem (d_exec c1)) r :: es, c2)
  end.

Lemma read_dir_S n c dd :
  read_dir (S n) c dd =
    ('(r, c1) ← readdir (inr 0) c dd;
     if r =? 0 then Some ([], c1) else '(es, c2) ← read_dir n c1 dd; Some (fb_dirent (mem (d_exec c1)) r :: es, c2)).
Proof. done. Qed.

Lemma read_dir_stream c dd scratch rest :
  stream c dd scratch rest -> scratch <> 0 ->
  exists c', read_dir (S (length rest)) c dd = Some (map fb_view rest, c') /\ stream c' dd scratch [] /\ v_rt (d_vfs c') = v_rt (d_vfs c) /\
    (forall lo hi, hi <= scratch \/ scratch + YOS_FBSD_DIRENT_SIZE <= lo -> agree_on lo hi (mem (d_exec c)) (mem (d_exec c'))).
Proof.
  intros Hst Hne. revert c Hst. induction rest as [|e rest IH]; intros c Hst; destruct (readdir_step (inr 0) c dd scratch _ Hst) as (r & c1 & E & Hv & Hs & Hf & Hr);
    cbn [length]; rewrite read_dir_S, E; cbn [mbind option_bind].
  - subst r. exists c1. by split_and!.
  - destruct Hr as [-> Hview]. rewrite (proj2 (Z.eqb_neq scratch 0)) by done. destruct (IH c1 Hs) as (c2 & E2 & Hs2 & Hv2 & Hf2).
    rewrite E2. cbn [mbind option_bind]. exists c2. rewrite Hview. split; [done|]. split; [done|]. split; [by rewrite Hv2|].
    intros lo hi Hlh. eapply agree_on_trans; [by apply Hf|by apply Hf2].
Qed.

(** * Opening *)

(** A directory of the process file system, and a free slot of each table. *)
Record can_list (c : dir_ctx) (remaining : bytes) (type : yos_procfs_type) (pid0 : Z) : Prop := {
  cl_parse : parse_procfs_path remaining = (Some type, pid0);
  cl_type : is_directory type;
  cl_pid : pid_missing (d_vfs c) pid0 = false;
  cl_pids : int_pids (d_vfs c);
  cl_file : match procfs_fds (d_vfs c) with Some t => length t = 256%nat /\ Exists (fun f => vf_in_use f = false) t | None => True end;
  cl_slot : match dir_slots c with Some l => length l = 64%nat /\ Exists (fun s => ds_in_use s = false) (tail l) | None => True end
}.

Definition opened_dir (pid0 : Z) (type : yos_procfs_type) : file := File _ true (Some yos_procfs_ops) 0 0 pid0 type None 0.

Lemma procfs_open_dir malloc_ok c remaining type pid0 :
  can_list c remaining type pid0 ->
  exists k t, (k < 256)%nat /\ procfs_open malloc_ok true (d_vfs c) remaining = (YOS_VFS_FD_BASE + Z.of_nat k, set_procfs_fds t (d_vfs c)) /\
    t !! k = Some (opened_dir pid0 type).
Proof.
  intros [Hp Ht Hm _ Hr _]. unfold procfs_open. rewrite Hp, Hm.
  set (o := match procfs_fds (d_vfs c) with Some t => Some t | None => Some yos_file_table_init end).
  assert (Ho : exists t, o = Some t /\ length t = 256%nat /\ Exists (fun f => vf_in_use f = false) t).
  { unfold o. destruct (procfs_fds (d_vfs c)) as [t|]; [by exists t|]. exists yos_file_table_init. split; [done|]. split; [reflexivity|].
    apply Exists_exists. exists zero_file. split; [by left|done]. }
  destruct Ho as (t & -> & Hl & He). destruct (table_has_room t Hl He) as (k & t1 & Hk & -> & Hl1).
  rewrite (proj2 (Z.ltb_ge _ 0)) by (unfold YOS_VFS_FD_BASE; lia).
  replace (Z.to_nat (YOS_VFS_FD_BASE + Z.of_nat k - YOS_VFS_FD_BASE)) with k by lia.
  replace (generate malloc_ok (d_vfs c) type pid0) with (@None (bytes * Z)) by (by destruct Ht as [-> | ->]).
  exists k. eexists. split; [done|]. split; [reflexivity|]. destruct (lookup_lt_is_Some_2 t1 k) as [g Hg]; [lia|].
  by rewrite list_lookup_alter_eq, Hg.
Qed.

Definition reserved : yos_dir_slot := set_ds_wasm_fd (-1) (set_ds_in_use true zero_slot).

Lemma slot_reserve_ok c :
  match dir_slots c with Some l => length l = 64%nat /\ Exists (fun s => ds_in_use s = false) (tail l) | None => True end ->
  exists h l, (0 < h < 64)%nat /\ slot_reserve true c = (h, set_dir_slots l c) /\ l !! h = Some reserved.
Proof.
  intros H. unfold slot_reserve, ctx_dirs.
  assert (Hgo : forall l, length l = 64%nat -> Exists (fun s => ds_in_use s = false) (tail l) ->
    exists h l', (0 < h < 64)%nat /\ l' !! h = Some reserved /\ (forall c1, match list_find (fun s => ds_in_use s = false) (tail l) with
      | Some (i, _) => (S i, set_dir_slots (<[S i := reserved]> l) c1) | None => (0%nat, c1) end = (h, set_dir_slots l' c1))).
  { intros l Hl He. destruct (list_find _ (tail l)) as [[i s]|] eqn:E.
    - apply list_find_Some in E as (Hi & _). apply lookup_lt_Some in Hi. assert (length (tail l) = 63%nat) by (destruct l; cbn in *; lia).
      exists (S i), (<[S i := reserved]> l). split; [lia|]. split; [apply list_lookup_insert_eq; lia|done].
    - apply list_find_None in E. by apply Forall_Exists_neg in E. }
  destruct (dir_slots c) as [l|].
  - destruct H as [Hl He]. destruct (Hgo l Hl He) as (h & l' & Hh & Hl' & E). exists h, l'. split; [done|]. by rewrite E.
  - destruct (Hgo (replicate 64 zero_slot)) as (h & l' & Hh & Hl' & E); [reflexivity| |].
    { apply Exists_exists. exists zero_slot. split; [by left|done]. }
    exists h, l'. split; [done|]. split; [|done]. exact (E (set_dir_slots (replicate 64 zero_slot) c)).
Qed.

Context {GH : GuestHeap malloc free}.

(** The entry buffer and the header are allocated, and the header filled in. *)
Lemma slot_finalise_ok c h s ps p1 x1 p2 x2 :
  dir_slots c ≫= (fun l => l !! h) = Some s -> (h < 64)%nat -> heap_inv (d_exec c) ps ->
  malloc (d_exec c) YOS_FBSD_DIRENT_SIZE = (p1, x1) -> p1 <> 0 -> malloc x1 YOS_DD_SIZE = (p2, x2) -> p2 <> 0 ->
  exists c' b1 b2, slot_finalise malloc free c h = Some (0, c') /\ r_addr b1 = p1 /\ r_addr b2 = p2 /\ YOS_FBSD_DIRENT_SIZE <= r_len b1 /\
    d_vfs c' = d_vfs c /\ dir_slots c' ≫= (fun l => l !! h) = Some (set_ds_offsets p1 p2 s) /\
    heap_inv (d_exec c') (b2 :: b1 :: ps) /\ ld32 (mem (d_exec c')) (p2 + 4) = Z.of_nat h /\
    (0 < p2 /\ p2 + YOS_DD_SIZE <= memory_size (d_exec c') /\ (p1 + YOS_FBSD_DIRENT_SIZE <= p2 \/ p2 + YOS_DD_SIZE <= p1)) /\
    kept territory (d_exec c) (d_exec c') ps /\ closes (d_world c') = closes (d_world c) /\ fds (tab (d_world c')) = fds (tab (d_world c)).
Proof.
  intros Hs Hh64 Hi E1 N1 E2 N2. unfold YOS_FBSD_DIRENT_SIZE, YOS_DD_SIZE in *.
  destruct (gh_malloc (d_exec c) ps 280 Hi ltac:(unfold MALLOC_MAX; lia)) as [E|(b1 & y1 & E & L1 & I1 & K1)]; rewrite E1 in E; [congruence|].
  injection E as -> ->.
  destruct (gh_malloc y1 (b1 :: ps) 8 I1 ltac:(unfold MALLOC_MAX; lia)) as [E|(b2 & y2 & E & L2 & I2 & K2)]; rewrite E2 in E; [congruence|].
  injection E as -> ->.
  destruct (gh_bounds _ _ I2) as ([Hdis _] & Hb & Hterr). apply Forall_cons in Hb as [Hb2 Hb]. apply Forall_cons in Hb as [Hb1 _].
  specialize (Hdis b1 ltac:(left)). unfold disjoint_r, r_end in Hdis. unfold r_end in Hb1, Hb2.
  set (m2 := st32 (st32 (mem y2) (r_addr b2) (ds_wasm_fd s)) (r_addr b2 + 4) (Z.of_nat h)).
  assert (Hfr : forall a, ~ (r_addr b2 <= a < r_addr b2 + 8) -> ld8 m2 a = ld8 (mem y2) a).
  { intros a Ha. assert (agree_on a (a + 1) (mem y2) m2) as F; [|apply F; lia].
    unfold m2. eapply agree_on_trans; apply st32_frame; lia. }
  destruct (gh_write y2 (b2 :: b1 :: ps) m2 I2) as [I3 T3].
  { intros a _ Ha. apply Hfr. intros Hr. apply Ha. exists b2. split; [by left|]. unfold in_region, r_end. lia. }
  eexists _, b1, b2. split.
  { unfold slot_finalise. rewrite Hs. cbn [mbind option_bind]. unfold YOS_FBSD_DIRENT_SIZE, YOS_DD_SIZE. rewrite E1, (proj2 (Z.eqb_neq _ 0) N1), E2, (proj2 (Z.eqb_neq _ 0) N2).
    rewrite <-?surjective_pairing. reflexivity. }
  fold m2. split; [done|]. split; [done|]. split; [done|]. split; [done|]. split.
  { set (g1 := set_ds_offsets (r_addr b1) (r_addr b2)). set (g0 := set_ds_offsets (r_addr b1) (ds_dd s)).
    change (dir_slots (set_d_exec (set_mem m2 y2) (upd_slot h g1 (set_d_exec y2 (upd_slot h g0 (set_d_exec y1 c))))))
      with (dir_slots (upd_slot h g1 (upd_slot h g0 c))). rewrite upd_slot_twice. by rewrite (slot_upd _ _ _ s). }
  split; [exact I3|]. split; [|split].
  - change (ld32 m2 (r_addr b2 + 4) = Z.of_nat h). unfold m2. rewrite ld32_st32. apply u32_small. lia.
  - change (memory_size (d_exec _)) with (memory_size y2). lia.
  - split; [|done]. change (kept territory (d_exec c) (set_mem m2 y2) ps). split.
    + change (memory_size (set_mem m2 y2)) with (memory_size y2). by rewrite (kp_size _ _ _ _ K2), (kp_size _ _ _ _ K1).
    + change (errno_off (set_mem m2 y2)) with (errno_off y2). by rewrite (kp_errno _ _ _ _ K2), (kp_errno _ _ _ _ K1).
    + intros a. by rewrite T3, (kp_terr _ _ _ _ K2), (kp_terr _ _ _ _ K1).
    + intros a Ha. change (ld8 m2 a = ld8 (mem (d_exec c)) a). rewrite Hfr.
      * rewrite (kp_bytes _ _ _ _ K2).
        -- by apply (kp_bytes _ _ _ _ K1).
        -- destruct Ha as [(q & Hq & Ha)|Ha]; [left; exists q; split; [by right|done]|right]. by rewrite (kp_terr _ _ _ _ K1).
      * intros Hr. destruct Ha as [(q & Hq & Ha)|Ha].
        -- destruct (gh_bounds _ _ I2) as ([Hdis2 _] & _). specialize (Hdis2 q ltac:(by right)). unfold disjoint_r, in_region, r_end in *. lia.
        -- apply Ha. rewrite <-(kp_terr _ _ _ _ K1), <-(kp_terr _ _ _ _ K2). apply Hterr. exists b2. split; [by left|]. unfold in_region, r_end. lia.
Qed.

Lemma opendir_stream translate_path malloc_ok host_opendir host_dup c path_off raw t remaining type pid0 ps p1 x1 p2 x2 :
  0 < path_off < memory_size (d_exec c) -> cstr (d_exec c) path_off = Some raw ->
  mount_table (d_vfs c) = Some t ->
  yos_mount_resolve t (bytes_of_path (yos_path_resolve translate_path (cwd (tab (d_world c))) (path_of_bytes raw))) = (Some yos_procfs_ops, remaining) ->
  can_list c remaining type pid0 -> heap_inv (d_exec c) ps ->
  malloc (d_exec c) YOS_FBSD_DIRENT_SIZE = (p1, x1) -> p1 <> 0 -> malloc x1 YOS_DD_SIZE = (p2, x2) -> p2 <> 0 ->
  exists c' b1 b2, yos_opendir h2g translate_path malloc free malloc_ok true true host_opendir host_dup c path_off = Some (p2, c') /\
    stream c' p2 p1 (listing (d_vfs c) type) /\ r_addr b1 = p1 /\ r_addr b2 = p2 /\ YOS_FBSD_DIRENT_SIZE <= r_len b1 /\
    heap_inv (d_exec c') (b2 :: b1 :: ps) /\ kept territory (d_exec c) (d_exec c') ps.
Proof.
  intros Hoff Hraw Ht Hres Hc Hi E1 N1 E2 N2. unfold yos_opendir.
  rewrite (proj2 (Z.eqb_neq path_off 0)), (proj2 (Z.leb_gt _ _)) by lia. cbn [orb]. rewrite Hraw. cbn [mbind option_bind].
  rewrite Ht, Hres. destruct (procfs_open_dir malloc_ok c remaining type pid0 Hc) as (k & t1 & Hk & Eo & Hf).
  destruct Hc as [Hp Hty Hm Hpids _ Hsl]. unfold opendir_vfs. rewrite Eo. rewrite (proj2 (Z.ltb_ge _ 0)) by (unfold YOS_VFS_FD_BASE; lia).
  unfold vfs_file_from_fd. cbn [procfs_fds d_vfs set_d_vfs set_procfs_fds mbind option_bind]. unfold yos_file_get.
  rewrite file_index_of by done. cbn [mbind option_bind]. rewrite Hf. cbn [mbind option_bind vf_in_use opened_dir fmap option_fmap option_map fst].
  set (c1 := set_d_vfs (set_procfs_fds t1 (d_vfs c)) c).
  destruct (slot_reserve_ok c1 Hsl) as (h & l & Hh & -> & Hlh). rewrite (proj2 (Nat.eqb_neq h 0)) by lia.
  set (g := fun s => set_ds_wasm_fd (YOS_VFS_FD_BASE + Z.of_nat k) (set_ds_backend None (Some k) s)).
  destruct (slot_finalise_ok (upd_slot h g (set_dir_slots l c1)) h (g reserved) ps p1 x1 p2 x2) as (c' & b1 & b2 & Ef & A1 & A2 & A3 & Ev & Es & I' & El & Hhd & Hfr & _);
    [by apply slot_upd|lia|done..|].
  rewrite Ef. cbn [mbind option_bind Z.ltb Z.compare].
  assert (Hst : stream c' p2 p1 (listing (d_vfs c) type)).
  { exists h, k, (set_ds_offsets p1 p2 (g reserved)), (opened_dir pid0 type), []. split; [split|split; [|done]].
    - by rewrite Ev.
    - exact Hhd.
    - exact Es.
    - rewrite Ev. exact Hf.
    - split; [lia|exact El].
    - split_and!; try done. cbn. unfold YOS_VFS_FD_BASE. lia.
    - split; [done|]. cbn. lia.
    - cbn. unfold YOS_VFS_DIRBUF_SIZE. lia.
    - split; [exact I|by constructor].
    - unfold todo. rewrite Ev. cbn [app opened_dir vf_dir_index vf_type]. rewrite drop_0. by destruct Hty as [-> | ->]. }
  exists c', b1, b2. split; [unfold slot_dd; by rewrite Es|]. by split_and!.
Qed.

(** C22: Opendir of a directory of the process file system and readdir to its
    end yield every entry of the directory once, in order: self, mounts and the
    processes that are neither free nor zombies, or the files of a process,
    however many times the read-ahead buffer is filled.  The stream's buffers
    come from the guest's heap, and no buffer of the guest changes. *)
Theorem readdir_lists_directory translate_path malloc_ok host_opendir host_dup c path_off raw t remaining type pid0 ps p1 x1 p2 x2 :
  0 < path_off < memory_size (d_exec c) -> cstr (d_exec c) path_off = Some raw ->
  mount_table (d_vfs c) = Some t ->
  yos_mount_resolve t (bytes_of_path (yos_path_resolve translate_path (cwd (tab (d_world c))) (path_of_bytes raw))) = (Some yos_procfs_ops, remaining) ->
  can_list c remaining type pid0 -> heap_inv (d_exec c) ps ->
  malloc (d_exec c) YOS_FBSD_DIRENT_SIZE = (p1, x1) -> p1 <> 0 -> malloc x1 YOS_DD_SIZE = (p2, x2) -> p2 <> 0 ->
  exists c' c'' b1 b2, yos_opendir h2g translate_path malloc free malloc_ok true true host_opendir host_dup c path_off = Some (p2, c') /\
    read_dir (S (length (listing (d_vfs c) type))) c' p2 = Some (map fb_view (listing (d_vfs c) type), c'') /\
    r_addr b1 = p1 /\ r_addr b2 = p2 /\ heap_inv (d_exec c') (b2 :: b1 :: ps) /\
    forall a, in_regions a ps -> ld8 (mem (d_exec c'')) a = ld8 (mem (d_exec c)) a.
Proof.
  intros Hoff Hraw Ht Hres Hc Hi E1 N1 E2 N2.
  destruct (opendir_stream translate_path malloc_ok host_opendir host_dup c path_off raw t remaining type pid0 ps p1 x1 p2 x2)
    as (c' & b1 & b2 & Eo & Hst & A1 & A2 & A3 & I' & K); [done..|].
  destruct (read_dir_stream c' p2 p1 _ Hst N1) as (c'' & Er & _ & _ & Hfr2).
  exists c', c'', b1, b2. split_and!; [done..|].
  intros a Ha. assert (agree_on a (a + 1) (mem (d_exec c')) (mem (d_exec c''))) as F.
  { apply Hfr2. destruct (gh_bounds _ _ I') as (Hpw & _). destruct Hpw as [_ [Hd _]]. destruct Ha as (q & Hq & Ha). specialize (Hd q Hq).
    unfold disjoint_r, in_region, r_end, YOS_FBSD_DIRENT_SIZE in *. lia. }
  rewrite (F a) by lia. apply (kp_bytes _ _ _ _ K). by left.
Qed.

(** * Closing *)

Section Closing.
Variables (closedir_rc closedir_errno close_rc close_errno : Z -> Z).

#[local] Abbreviation closedir := (yos_closedir h2g free true closedir_rc closedir_errno close_rc close_errno).

Lemma free_two c b1 b2 ps :
  heap_inv c (b2 :: b1 :: ps) ->
  exists x1 x2, free_nonzero free c (r_addr b1) = Some x1 /\ free_nonzero free x1 (r_addr b2) = Some x2 /\ heap_inv x2 ps /\
    forall a, in_regions a ps -> ld8 (mem x2) a = ld8 (mem c) a.
Proof.
  intros Hi. destruct (gh_bounds _ _ Hi) as (_ & Hb & _). apply Forall_cons in Hb as [Hb2 Hb]. apply Forall_cons in Hb as [Hb1 _].
  assert (Hi' : heap_inv c (b1 :: b2 :: ps)) by (eapply gh_perm; [|exact Hi]; apply Permutation_swap).
  destruct (gh_free c b1 (b2 :: ps) Hi') as (x1 & E1 & I1 & K1). destruct (gh_free x1 b2 ps I1) as (x2 & E2 & I2 & K2).
  exists x1, x2. unfold free_nonzero. rewrite !(proj2 (Z.eqb_neq _ 0)) by lia. split_and!; [done..|].
  intros a Ha. rewrite (kp_bytes _ _ _ _ K2) by (by left). apply (kp_bytes _ _ _ _ K1). left.
  destruct Ha as (q & Hq & Ha). exists q. split; [by right|done].
Qed.

(** Closing a stream over the process file system returns both of its
    buffers to the guest's heap and frees its slot, and closes no descriptor;
    the virtual file that opendir opened for it stays in use. *)
Theorem closedir_leaks_virtual_file c b1 b2 rest ps :
  stream c (r_addr b2) (r_addr b1) rest -> heap_inv (d_exec c) (b2 :: b1 :: ps) ->
  exists c' h s, closedir c (r_addr b2) = Some (0, c') /\ heap_inv (d_exec c') ps /\
    (forall a, in_regions a ps -> ld8 (mem (d_exec c')) a = ld8 (mem (d_exec c)) a) /\
    slot_from_dd true c (r_addr b2) = Some (h, s) /\ dir_slots c' ≫= (fun l => l !! h) = Some (set_ds_wasm_fd (-1) zero_slot) /\
    closes (d_world c') = closes (d_world c) /\ fds (tab (d_world c')) = fds (tab (d_world c)) /\ d_vfs c' = d_vfs c.
Proof.
  intros (h & k & s & f & pend & Hst & _) Hi. pose proof (slot_of_stream _ _ _ _ _ _ _ _ Hst) as Hslot.
  destruct Hst as [_ _ Hs _ _ (_ & Hdd & Hsc & _ & Hhd & Hfd) _ _ _]. destruct (free_two _ _ _ _ Hi) as (x1 & x2 & E1 & E2 & I2 & Hb).
  eexists _, h, s. unfold yos_closedir. rewrite Hslot, Hhd.
  assert (Hv : yos_is_virtual_fd (ds_wasm_fd s) = true) by (by apply Z.leb_le). rewrite Hv. cbn [negb]. rewrite andb_false_r.
  rewrite Hsc, Hdd. change (d_exec (upd_slot h _ c)) with (d_exec c). rewrite E1. cbn [mbind option_bind]. rewrite E2. cbn [mbind option_bind Z.ltb Z.compare].
  split; [reflexivity|]. split; [exact I2|]. split; [exact Hb|]. split; [done|]. split; [|by split_and!].
  change (dir_slots (set_d_exec x2 ?a)) with (dir_slots a). by rewrite (slot_upd _ _ _ s).
Qed.

Lemma errno_keeps_heap c qs ps e :
  heap_inv c qs -> (forall r, r ∈ ps -> r ∈ qs) -> program_word c ps (errno_off c) -> heap_inv (write_errno h2g c e) qs.
Proof. intros Hi Hs Hw. unfold write_errno. destruct (_ =? 0); [done|]. by eapply store_word. Qed.

(** a stream that fdopendir made of a descriptor owns the host descriptor
    that the table still names: closedir closes it twice, the second time after
    the host may have given its number to another guest. *)
Theorem fdopendir_closes_twice c wfd hfd ps p1 x1 p2 x2 :
  0 <= wfd < YOS_FD_MAX -> slot_fd (tab (d_world c)) wfd = hfd -> 0 <= hfd -> 0 <= closedir_rc hfd ->
  match dir_slots c with Some l => length l = 64%nat /\ Exists (fun s => ds_in_use s = false) (tail l) | None => True end ->
  heap_inv (d_exec c) ps -> program_word (d_exec c) ps (errno_off (d_exec c)) ->
  malloc (d_exec c) YOS_FBSD_DIRENT_SIZE = (p1, x1) -> p1 <> 0 -> malloc x1 YOS_DD_SIZE = (p2, x2) -> p2 <> 0 ->
  exists c' c'', yos_fdopendir h2g malloc free true c wfd true 0 = Some (p2, c') /\ closes (d_world c') = closes (d_world c) /\
    closedir c' p2 = Some (0, c'') /\ closes (d_world c'') = closes (d_world c) ++ [hfd; hfd].
Proof.
  intros Hw Hh Hh0 Hrc Hsl Hi Hpw E1 N1 E2 N2. unfold yos_fdopendir, yos_fd_get. unfold AT_FDCWD, YOS_FBSD_AT_FDCWD, YOS_FD_MAX in *.
  rewrite !(proj2 (Z.eqb_neq wfd _)), (proj2 (Z.ltb_ge wfd 0)), (proj2 (Z.leb_gt 256 wfd)) by lia. cbn [orb]. rewrite Hh, (proj2 (Z.ltb_ge hfd 0)) by done.
  rewrite (proj2 (Z.ltb_ge hfd 0)) by done. cbn [negb]. unfold host_stream.
  destruct (slot_reserve_ok (set_d_world (d_world c) c) Hsl) as (h & l & Hhn & -> & Hlh). rewrite (proj2 (Nat.eqb_neq h 0)) by lia.
  rewrite upd_slot_twice. set (g := fun s => set_ds_wasm_fd wfd (set_ds_backend (Some hfd) None s)).
  set (c1 := upd_slot h g (set_dir_slots l (set_d_world (d_world c) c))).
  destruct (slot_finalise_ok c1 h (g reserved) ps p1 x1 p2 x2) as (c' & b1 & b2 & Ef & A1 & A2 & A3 & Ev & Es & I' & El & (Hd1 & Hd2 & _) & K & Hcl & Hfds);
    [by apply slot_upd|lia|done..|].
  rewrite Ef. cbn [mbind option_bind Z.ltb Z.compare]. unfold slot_dd. rewrite Es. cbn [fmap option_fmap option_map default ds_dd set_ds_offsets].
  assert (Hslot : slot_from_dd true c' p2 = Some (h, set_ds_offsets p1 p2 (g reserved))) by (by apply stream_slot_lookup).
  set (w2 := yos_plat_close hfd (d_world c')).
  assert (Hclose : exists w3, yos_fd_close h2g close_rc close_errno w2 wfd = (fst (yos_fd_close h2g close_rc close_errno w2 wfd), w3) /\
    closes w3 = closes w2 ++ [hfd] /\ (f_exec (tab w3) = d_exec c' \/ f_exec (tab w3) = write_errno h2g (d_exec c') (close_errno hfd))).
  { unfold yos_fd_close, YOS_FD_MAX. rewrite (proj2 (Z.ltb_ge wfd 0)), (proj2 (Z.leb_gt 256 wfd)) by lia. cbn [orb].
    assert (slot_fd (tab w2) wfd = hfd) as -> by (unfold slot_fd; cbn [tab w2 yos_plat_close]; rewrite Hfds; exact Hh).
    rewrite (proj2 (Z.ltb_ge hfd 0)) by done. unfold fd_errno_check. destruct (close_rc hfd <? 0); eexists; (split; [reflexivity|split; [done|]]); [by right|by left]. }
  destruct Hclose as (w3 & E3 & Hc3 & Hx3).
  assert (I3 : heap_inv (f_exec (tab w3)) (b2 :: b1 :: ps)).
  { destruct Hx3 as [-> | ->]; [done|]. apply (errno_keeps_heap _ _ ps); [done|intros r Hr; by do 2 right|].
    rewrite (kp_errno _ _ _ _ K). intros x Hx. destruct (Hpw x Hx) as [?|Hn]; [by left|right]. by rewrite (kp_terr _ _ _ _ K). }
  destruct (free_two _ _ _ _ I3) as (x3 & x4 & F1 & F2 & _ & _). rewrite A1 in F1. rewrite A2 in F2.
  exists c'. eexists. split; [done|]. split; [exact Hcl|]. unfold yos_closedir. rewrite Hslot. cbn [ds_host_dir set_ds_offsets g set_ds_wasm_fd set_ds_backend ds_wasm_fd].
  rewrite (proj2 (Z.ltb_ge (closedir_rc hfd) 0)) by done. unfold YOS_FD_MAX, yos_is_virtual_fd, YOS_VFS_FD_BASE.
  rewrite (proj2 (Z.leb_le 0 wfd)), (proj2 (Z.ltb_lt wfd 256)), (proj2 (Z.leb_gt 1000 wfd)) by lia. cbn [negb andb d_world set_d_world].
  fold w2. rewrite E3. cbn [snd ds_scratch ds_dd set_ds_offsets].
  change (d_exec (upd_slot h _ (set_d_world w3 _))) with (f_exec (tab w3)). rewrite F1. cbn [mbind option_bind]. rewrite F2. cbn [mbind option_bind].
  split; [reflexivity|]. change (closes w3 = closes (d_world c) ++ [hfd; hfd]). rewrite Hc3. cbn [closes w2 yos_plat_close]. rewrite Hcl, <-app_assoc. done.
Qed.
End Closing.
End Streams.

(** * A concrete case *)

(** A guest with a small heap lists /proc: the theorems about directory streams
    at a concrete context. *)

Definition dir_exec : exec_ctx := set_mem (write_bytes (mem heap1) 2048 (lit "/proc" ++ [0])) heap1.

(** Descriptor 5 of the guest is 40 on the host. *)
Definition dir_demo : dir_ctx :=
  DirCtx (World ∅ [] (FdCtx dir_exec (<[5%nat := 40]> (replicate 256 (-1))) (replicate 256 None) [] true))
    (VfsCtx demo [] 1 (Some [Mount _ (lit "/proc") yos_procfs_ops]) None) None.

Lemma dir_exec_heap : heap_inv (GuestHeap := alloc_guest_heap) dir_exec [payload (Region 65536 112)].
Proof.
  destruct (gh_write (GuestHeap := alloc_guest_heap) heap1 [payload (Region 65536 112)] (write_bytes (mem heap1) 2048 (lit "/proc" ++ [0])) heap1_inv) as [H _]; [|exact H].
  intros a Ha _. change (alloc_lo heap1 <= a < alloc_hi heap1) in Ha. rewrite heap1_lo in Ha. apply write_bytes_other. right.
  change (blen (lit "/proc" ++ [0])) with 6. lia.
Qed.

Lemma dir_exec_word ps : program_word (GH := alloc_guest_heap) dir_exec ps (errno_off dir_exec).
Proof.
  intros x Hx. right. change (~ (alloc_lo heap1 <= x < alloc_hi heap1)). rewrite heap1_lo.
  assert (E : errno_off dir_exec < 60000) by by vm_compute. lia.
Qed.

Lemma demo_pids : int_pids (d_vfs dir_demo).
Proof. unfold int_pids. repeat (constructor; [cbn; lia|]). constructor. Qed.

(** The two buffers of a stream. *)
Definition scratch_at : Z * exec_ctx := yos_malloc dir_exec 280.
Definition header_at : Z * exec_ctx := yos_malloc (snd scratch_at) 8.

Lemma demo_can_list : can_list dir_demo [] YOS_PROCFS_ROOT 0.
Proof. split; [reflexivity|by left|reflexivity|exact demo_pids|exact I|exact I]. Qed.

Lemma readdir_lists_directory_witness :
  exists c' c'' dd, yos_opendir id id yos_malloc yos_free (fun _ => true) true true (fun _ => inr 2) id dir_demo 2048 = Some (dd, c') /\
    read_dir id 6 c' dd = Some ([(1, 10, lit "self"); (2, 8, lit "mounts"); (1, 4, lit "1"); (2, 4, lit "2"); (4, 4, lit "4")], c'').
Proof.
  destruct (readdir_lists_directory (GH := alloc_guest_heap) id id (fun _ => true) (fun _ => inr 2) id dir_demo 2048 (lit "/proc")
    [Mount _ (lit "/proc") yos_procfs_ops] [] YOS_PROCFS_ROOT 0 [payload (Region 65536 112)]
    (fst scratch_at) (snd scratch_at) (fst header_at) (snd header_at))
    as (c' & c'' & b1 & b2 & H1 & H2 & _).
  - by vm_compute.
  - vm_compute. reflexivity.
  - reflexivity.
  - vm_compute. reflexivity.
  - exact demo_can_list.
  - exact dir_exec_heap.
  - apply surjective_pairing.
  - vm_compute. discriminate.
  - apply surjective_pairing.
  - vm_compute. discriminate.
  - exists c', c'', (fst header_at). split; [exact H1|]. exact H2.
Defined.

Lemma fdopendir_closes_twice_witness :
  exists c' c'' dd, yos_fdopendir id yos_malloc yos_free true dir_demo 5 true 0 = Some (dd, c') /\
    yos_closedir id yos_free true (fun _ => 0) id (fun _ => -1) (fun _ => 9) c' dd = Some (0, c'') /\ closes (d_world c'') = [40; 40].
Proof.
  destruct (fdopendir_closes_twice (GH := alloc_guest_heap) id (fun _ => 0) id (fun _ => -1) (fun _ => 9) dir_demo 5 40 [payload (Region 65536 112)]
    (fst scratch_at) (snd scratch_at) (fst header_at) (snd header_at)) as (c' & c'' & H1 & _ & H2 & H3).
  - by vm_compute.
  - reflexivity.
  - lia.
  - lia.
  - exact I.
  - exact dir_exec_heap.
  - exact (dir_exec_word _).
  - apply surjective_pairing.
  - vm_compute. discriminate.
  - apply surjective_pairing.
  - vm_compute. discriminate.
  - exists c', c'', (fst header_at). split; [exact H1|]. split; [exact H2|]. exact H3.
Defined.

Lemma closedir_leaks_virtual_file_witness :
  exists c' dd c'' t f, yos_opendir id id yos_malloc yos_free (fun _ => true) true true (fun _ => inr 2) id dir_demo 2048 = Some (dd, c') /\
    yos_closedir id yos_free true (fun _ => 0) id (fun _ => 0) id c' dd = Some (0, c'') /\
    procfs_fds (d_vfs c'') = Some t /\ yos_file_get t 1000 = Some (0%nat, f).
Proof.
  destruct (opendir_stream (GH := alloc_guest_heap) id id (fun _ => true) (fun _ => inr 2) id dir_demo 2048 (lit "/proc")
    [Mount _ (lit "/proc") yos_procfs_ops] [] YOS_PROCFS_ROOT 0 [payload (Region 65536 112)]
    (fst scratch_at) (snd scratch_at) (fst header_at) (snd header_at))
    as (c' & b1 & b2 & H1 & Hst & A1 & A2 & _ & I' & _);
    [by vm_compute|vm_compute; reflexivity|reflexivity|vm_compute; reflexivity|exact demo_can_list|exact dir_exec_heap|apply surjective_pairing
    |vm_compute; discriminate|apply surjective_pairing|vm_compute; discriminate|].
  rewrite <-A1, <-A2 in Hst.
  destruct (closedir_leaks_virtual_file (GH := alloc_guest_heap) id (fun _ => 0) id (fun _ => 0) id c' b1 b2 _ _ Hst I')
    as (c'' & h & s & H2 & _ & _ & _ & _ & _ & _ & Hv).
  rewrite A2 in H2. assert (Hp : procfs_fds (d_vfs c') = Some (<[0%nat := opened_dir 0 YOS_PROCFS_ROOT]> yos_file_table_init)).
  { assert (Hc : option_map (fun r => procfs_fds (d_vfs (snd r)))
      (yos_opendir id id yos_malloc yos_free (fun _ => true) true true (fun _ => inr 2) id dir_demo 2048) =
      Some (Some (<[0%nat := opened_dir 0 YOS_PROCFS_ROOT]> yos_file_table_init))) by (vm_compute; reflexivity).
    rewrite H1 in Hc. by injection Hc. }
  exists c', (fst header_at), c'', (<[0%nat := opened_dir 0 YOS_PROCFS_ROOT]> yos_file_table_init), (opened_dir 0 YOS_PROCFS_ROOT).
  split; [exact H1|]. split; [exact H2|]. rewrite Hv, Hp. split; [reflexivity|]. vm_compute. reflexivity.
Defined.
