(* ===== verification/Poll.v ===== *)
(** Waiting for descriptors: poll and ppoll (src/src/yos/impl/io/dir.c) and
    select (src/src/yos/impl/libc/posix.c).  The guest's descriptors are
    translated to the host's, the host waits, and its answer is translated back.

    What the host's poll and select answer, what fstat says of a descriptor, and
    what the guest's signal handlers change are parameters.  The host calls that
    are made are part of the result. *)
From stdpp Require Import gmap.
From S2P Require Import Prelude Memory Ctx CString Path FdTable.

Definition POLLIN : Z := 1.
Definition POLLOUT : Z := 4.
Definition POLLNVAL : Z := 32.
Definition POLLRDNORM : Z := 64.
Definition POLLWRNORM : Z := 256.

(** What [fstat] says: a regular file, a directory, a character device with its
    device and inode, or something else. *)
Inductive file_kind : Type := Kind_reg | Kind_dir | Kind_chr (dev ino : Z) | Kind_other.

Section Poll.
Variable remap_errno_h2g : Z -> Z.
Variable signal_pump : world -> world.
Variable fstat : Z -> option file_kind.

(** [null_dev], [null_ino]: /dev/null, or zeroes. *)
Variable null_id : Z * Z.

(** [host_poll fds timeout]: the result, errno and the [revents]. *)
Variable host_poll : list (Z * Z) -> Z -> Z * Z * list Z.

Definition always_ready (hfd : Z) : bool :=
  match fstat hfd with
  | Some Kind_reg | Some Kind_dir => true
  | Some (Kind_chr d i) => (d =? fst null_id) && (i =? snd null_id)
  | _ => false
  end.

(** The events a file that is always ready answers with. *)
Definition synthesise (events : Z) : Z :=
  let s := Z.land events (Z.lor (Z.lor POLLIN POLLOUT) (Z.lor POLLRDNORM POLLWRNORM)) in
  if (s =? 0) && negb (events =? 0) then POLLIN else s.

(** A slot as it goes to the host, and its synthesised events. *)
Record poll_slot : Type := PollSlot { ps_fd : Z; ps_events : Z; ps_synth : Z }.

Definition translate_slot (w : world) (slot : Z) : poll_slot * world :=
  let m := mem (f_exec (tab w)) in
  let wfd := s32 (ld32 m slot) in
  let events := s16 (ld16 m (slot + 4)) in
  let '(hfd, w1) := if 0 <=? wfd then yos_fd_get remap_errno_h2g w wfd else (wfd, w) in
  let fd := if wfd <? 0 then wfd else if hfd <? 0 then -1 else hfd in
  if (0 <=? fd) && always_ready fd then (PollSlot (-1) events (synthesise events), w1)
  else (PollSlot fd events 0, w1).

Definition translate_slots (w : world) (pfds nfds : Z) : list poll_slot * world :=
  foldl (fun '(l, w0) i => let '(s, w1) := translate_slot w0 (pfds + i * 8) in (l ++ [s], w1)) ([], w) (seqZ 0 nfds).

Definition is_real (s : poll_slot) : bool := 0 <=? ps_fd s.
Definition is_synth (s : poll_slot) : bool := negb (ps_synth s =? 0).

(** The events of a slot: the synthesised ones, or the host's. *)
Definition slot_revents (s : poll_slot) (revents : Z) : Z := if is_synth s then ps_synth s else revents.

Definition store_revents (m : memory) (pfds : Z) (revs : list Z) : memory :=
  foldl (fun m0 '(i, r) => st16 m0 (pfds + Z.of_nat i * 8 + 6) r) m (zip (seq 0 (length revs)) revs).

(** The result, the world, and the call of the host's poll. *)
Definition yos_poll (w : world) (pfds nfds timeout : Z) : Z * world * option (list (Z * Z) * Z) :=
  if nfds =? 0 then (fst (fst (host_poll [] timeout)), w, Some ([], timeout))
  else if 1024 <? nfds then (fd_errno remap_errno_h2g w EINVAL, None)
  else if (pfds =? 0) || (memory_size (f_exec (tab w)) <? pfds + nfds * 8) then (fd_errno remap_errno_h2g w EFAULT, None)
  else
    let '(slots, w1) := translate_slots w pfds nfds in
    let eff_timeout := if existsb is_synth slots then 0 else timeout in
    let args := map (fun s => (ps_fd s, ps_events s)) slots in
    let '(r, e, revs, w2, call) :=
      if existsb is_real slots then
        let wp := signal_pump w1 in
        let '(r, e, revs) := host_poll args eff_timeout in
        (r, e, revs, if (r <? 0) && (e =? EINTR) then signal_pump wp else wp, Some (args, eff_timeout))
      else (0, 0, map (fun _ => 0) slots, w1, None) in
    let revents := zip_with slot_revents slots revs in
    let x := f_exec (tab w2) in
    let w3 := upd_tab (set_f_exec (set_mem (store_revents (mem x) pfds revents) x)) w2 in
    let merged_count := length (List.filter (fun v => negb (v =? 0)) revents) in
    if (r <? 0) && Nat.eqb merged_count 0 then (fd_errno remap_errno_h2g w3 e, call)
    else
      let total := (if r <? 0 then 0 else r) + Z.of_nat (length (List.filter (fun s => is_synth s && (ps_fd s <? 0)) slots)) in
      (total, w3, call).

(** The signal mask is ignored. *)
Definition yos_ppoll (w : world) (pfds nfds timeout_off sigmask_off : Z) : option (Z * world * option (list (Z * Z) * Z)) :=
  let x := f_exec (tab w) in
  if timeout_off =? 0 then Some (yos_poll w pfds nfds (-1))
  else if memory_size x <? u32 (timeout_off + 8) then Some (fd_errno remap_errno_h2g w EFAULT, None)
  else if memory_size x <? timeout_off + 8 then None
  else
    let tv_sec := s32 (ld32 (mem x) timeout_off) in
    let tv_nsec := s32 (ld32 (mem x) (timeout_off + 4)) in
    if (tv_sec <? 0) || (tv_nsec <? 0) then Some (fd_errno remap_errno_h2g w EINVAL, None)
    else
      let total_ms := tv_sec * 1000 + Z.quot tv_nsec 1000000 in
      Some (yos_poll w pfds nfds (if 2147483647 <? total_ms then 2147483647 else total_ms)).
End Poll.

(** * select *)

Definition FD_SETSIZE : Z := 1024.

(** A bit of the guest's [fd_set] at [p], 0 for no set. *)
Definition wfds_isset (m : memory) (p fd : Z) : bool :=
  negb (p =? 0) && Z.testbit (ld8 m (p + fd / 8)) (fd mod 8).
Definition wfds_set (m : memory) (p fd : Z) : memory :=
  if p =? 0 then m else st8 m (p + fd / 8) (Z.lor (ld8 m (p + fd / 8)) (Z.shiftl 1 (fd mod 8))).

Record fd_pair : Type := Pair { pr_wfd : Z; pr_hfd : Z; pr_r : bool; pr_w : bool; pr_e : bool }.

(** The three sets of the host. *)
Record host_sets : Type := Sets { hs_r : gset Z; hs_w : gset Z; hs_e : gset Z }.

Section Select.
Variable remap_errno_h2g : Z -> Z.
Variable signal_pump : world -> world.

(** [cv_timeval_w2h], which the build generates. *)
Context {timeval : Type}.
Variable cv_timeval_w2h : memory -> Z -> timeval.

(** [host_select n sets tv]: the result, errno, and the sets it leaves. *)
Variable host_select : Z -> host_sets -> option timeval -> Z * Z * host_sets.

Definition add_if (b : bool) (h : Z) (s : gset Z) : gset Z := if b then {[h]} ∪ s else s.

(** One round of the walk over the guest's sets. *)
Definition select_pair (r_off w_off e_off : Z) (acc : list fd_pair * world) (wfd : Z) : list fd_pair * world :=
  let '(pairs, w0) := acc in
  let m := mem (f_exec (tab w0)) in
  let in_r := wfds_isset m r_off wfd in
  let in_w := wfds_isset m w_off wfd in
  let in_e := wfds_isset m e_off wfd in
  if negb (in_r || in_w || in_e) then acc
  else
    let '(hfd, w1) := yos_fd_get remap_errno_h2g w0 wfd in
    if hfd <? 0 then (pairs, w1) else (pairs ++ [Pair wfd hfd in_r in_w in_e], w1).

Definition sets_of (pairs : list fd_pair) : host_sets :=
  foldl (fun s p => Sets (add_if (pr_r p) (pr_hfd p) (hs_r s)) (add_if (pr_w p) (pr_hfd p) (hs_w s)) (add_if (pr_e p) (pr_hfd p) (hs_e s)))
    (Sets ∅ ∅ ∅) pairs.

Definition max_hfd (pairs : list fd_pair) : Z := foldl (fun n p => if n <? pr_hfd p then pr_hfd p else n) (-1) pairs.

Definition clear_set (m : memory) (p : Z) : memory := if p =? 0 then m else memset m p 0 128.

(** The bits of one pair. *)
Definition set_bits (r_off w_off e_off : Z) (s : host_sets) (m : memory) (p : fd_pair) : memory :=
  let m1 := if bool_decide (pr_hfd p ∈ hs_r s) then wfds_set m r_off (pr_wfd p) else m in
  let m2 := if bool_decide (pr_hfd p ∈ hs_w s) then wfds_set m1 w_off (pr_wfd p) else m1 in
  if bool_decide (pr_hfd p ∈ hs_e s) then wfds_set m2 e_off (pr_wfd p) else m2.

(** Whether the 128 bytes of a set are in memory; the code does not ask. *)
Definition set_inside (x : exec_ctx) (p : Z) : bool := (p =? 0) || (p + 128 <=? memory_size x).

(** [None]: a set outside memory, or a host descriptor that no [fd_set] holds. *)
Definition yos_select (w : world) (nfds r_off w_off e_off to_off : Z) : option (Z * world) :=
  if (nfds <? 0) || (YOS_FD_MAX <? nfds) then Some (fd_errno remap_errno_h2g w EINVAL)
  else
    let x := f_exec (tab w) in
    if negb (set_inside x r_off && set_inside x w_off && set_inside x e_off) then None
    else
      let '(pairs, w1) := foldl (select_pair r_off w_off e_off) ([], w) (seqZ 0 nfds) in
      if existsb (fun p => FD_SETSIZE <=? pr_hfd p) pairs then None
      else
        let tv := if to_off =? 0 then None else Some (cv_timeval_w2h (mem (f_exec (tab w1))) to_off) in
        let w2 := signal_pump w1 in
        let '(rc, e, s) := host_select (max_hfd pairs + 1) (sets_of pairs) tv in
        let w3 := if (rc <? 0) && (e =? EINTR) then signal_pump w2 else w2 in
        if rc <? 0 then Some (fd_errno remap_errno_h2g w3 e)
        else
          let x3 := f_exec (tab w3) in
          let m := clear_set (clear_set (clear_set (mem x3) r_off) w_off) e_off in
          Some (rc, upd_tab (set_f_exec (set_mem (foldl (set_bits r_off w_off e_off s) m pairs) x3)) w3).
End Select.
