(* ===== verification/PollProps.v ===== *)
(** Poll counts the slots that have events and stores them; what it does with
    descriptors that are not open. *)
From stdpp Require Import gmap.
From S2P Require Import Prelude Memory Ctx CString Path FdTable Poll.

(** * Translation of descriptors *)

(** The host descriptor behind one of the guest, or -1. *)
Definition guest_hfd (c : fd_ctx) (wfd : Z) : Z :=
  if (0 <=? wfd) && (wfd <? YOS_FD_MAX) && (0 <=? slot_fd c wfd) then slot_fd c wfd else -1.

(** A world that differs in the errno cell at most. *)
Record errno_only (w w' : world) : Prop := {
  eo_fds : fds (tab w') = fds (tab w);
  eo_size : memory_size (f_exec (tab w')) = memory_size (f_exec (tab w));
  eo_errno : errno_off (f_exec (tab w')) = errno_off (f_exec (tab w));
  eo_mem : forall lo hi, hi <= errno_off (f_exec (tab w)) \/ errno_off (f_exec (tab w)) + 4 <= lo ->
    agree_on lo hi (mem (f_exec (tab w))) (mem (f_exec (tab w')))
}.

#[export] Instance errno_only_refl : Reflexive errno_only.
Proof. intros w. split; [done..|]. intros. apply agree_on_refl. Qed.

#[export] Instance errno_only_trans : Transitive errno_only.
Proof.
  intros w1 w2 w3 [A1 A2 A3 A4] [B1 B2 B3 B4]. split; [by rewrite B1|by rewrite B2|by rewrite B3|]. intros lo hi H.
  eapply agree_on_trans; [by apply A4|]. apply B4. by rewrite A3.
Qed.

Section PollProps.
Variable h2g : Z -> Z.

Lemma fd_errno_only w e : fst (fd_errno h2g w e) = -1 /\ errno_only w (snd (fd_errno h2g w e)).
Proof.
  unfold fd_errno, errno_neg. cbn. split; [done|]. split; [done|unfold write_errno; by destruct (_ =? 0)..|].
  intros lo hi H. cbn. by apply write_errno_frame.
Qed.

Lemma fd_get_pure w wfd : 0 <= wfd -> fst (yos_fd_get h2g w wfd) = guest_hfd (tab w) wfd /\ errno_only w (snd (yos_fd_get h2g w wfd)).
Proof.
  intros Hw. unfold yos_fd_get, guest_hfd, AT_FDCWD, YOS_FBSD_AT_FDCWD. rewrite !(proj2 (Z.eqb_neq wfd (-100))) by lia. cbn [orb].
  rewrite (proj2 (Z.ltb_ge wfd 0)), (proj2 (Z.leb_le 0 wfd)) by lia. cbn [orb andb].
  destruct (Z.leb_spec YOS_FD_MAX wfd), (Z.ltb_spec wfd YOS_FD_MAX); try lia; cbn [andb]; [apply fd_errno_only|].
  destruct (Z.ltb_spec (slot_fd (tab w) wfd) 0), (Z.leb_spec 0 (slot_fd (tab w) wfd)); try lia; [apply fd_errno_only|]. done.
Qed.

Variable fstat : Z -> option file_kind.
Variable null_id : Z * Z.

(** A slot, from the array as the guest passed it. *)
Definition pure_slot (c : fd_ctx) (slot : Z) : poll_slot :=
  let wfd := s32 (ld32 (mem (f_exec c)) slot) in
  let events := s16 (ld16 (mem (f_exec c)) (slot + 4)) in
  let fd := if wfd <? 0 then wfd else guest_hfd c wfd in
  if (0 <=? fd) && always_ready fstat null_id fd then PollSlot (-1) events (synthesise events) else PollSlot fd events 0.

Lemma translate_slot_pure w0 w slot :
  errno_only w0 w -> (slot + 8 <= errno_off (f_exec (tab w0)) \/ errno_off (f_exec (tab w0)) + 4 <= slot) ->
  fst (translate_slot h2g fstat null_id w slot) = pure_slot (tab w0) slot /\ errno_only w0 (snd (translate_slot h2g fstat null_id w slot)).
Proof.
  intros He Hd. unfold translate_slot, pure_slot.
  assert (Hm : agree_on slot (slot + 8) (mem (f_exec (tab w0))) (mem (f_exec (tab w)))) by (apply (eo_mem _ _ He); lia).
  assert (Efd : ld32 (mem (f_exec (tab w))) slot = ld32 (mem (f_exec (tab w0))) slot) by (apply ld32_agree; eapply agree_on_sub; [| |exact Hm]; lia).
  assert (Eev : ld16 (mem (f_exec (tab w))) (slot + 4) = ld16 (mem (f_exec (tab w0))) (slot + 4)) by (apply ld16_agree; eapply agree_on_sub; [| |exact Hm]; lia).
  rewrite Efd, Eev.
  set (wfd := s32 _). set (events := s16 _).
  assert (Hg : guest_hfd (tab w) wfd = guest_hfd (tab w0) wfd) by (unfold guest_hfd, slot_fd; by rewrite (eo_fds _ _ He)).
  destruct (Z.leb_spec 0 wfd), (Z.ltb_spec wfd 0); try lia.
  - destruct (fd_get_pure w wfd) as [E1 E2]; [done|]. destruct (yos_fd_get h2g w wfd) as [hfd w1]. cbn [fst snd] in *. subst hfd. rewrite Hg.
    assert (He1 : errno_only w0 w1) by (by etrans).
    assert (Hneg : (if guest_hfd (tab w0) wfd <? 0 then -1 else guest_hfd (tab w0) wfd) = guest_hfd (tab w0) wfd).
    { unfold guest_hfd. destruct ((0 <=? wfd) && (wfd <? YOS_FD_MAX) && (0 <=? slot_fd (tab w0) wfd)) eqn:E; [|done].
      apply andb_true_iff in E as [_ E%Z.leb_le]. by rewrite (proj2 (Z.ltb_ge _ 0)) by lia. }
    rewrite Hneg. by destruct (_ && _).
  - by destruct (_ && _).
Qed.

(** The whole array. *)
Lemma translate_slots_pure w pfds nfds :
  0 <= nfds -> (pfds + nfds * 8 <= errno_off (f_exec (tab w)) \/ errno_off (f_exec (tab w)) + 4 <= pfds) ->
  fst (translate_slots h2g fstat null_id w pfds nfds) = map (fun i => pure_slot (tab w) (pfds + i * 8)) (seqZ 0 nfds) /\
  errno_only w (snd (translate_slots h2g fstat null_id w pfds nfds)).
Proof.
  intros Hn Hd. unfold translate_slots.
  assert (Hgo : forall js l w1, errno_only w w1 -> Forall (fun i => 0 <= i < nfds) js ->
    let r := foldl (fun '(l, w0) i => let '(s, w1) := translate_slot h2g fstat null_id w0 (pfds + i * 8) in (l ++ [s], w1)) (l, w1) js in
    fst r = l ++ map (fun i => pure_slot (tab w) (pfds + i * 8)) js /\ errno_only w (snd r)).
  { induction js as [|i js IH]; intros l w1 He Hi; [cbn; by rewrite app_nil_r|]. apply Forall_cons in Hi as [Hi His]. cbn [foldl].
    destruct (translate_slot_pure w w1 (pfds + i * 8) He ltac:(lia)) as [E1 E2].
    destruct (translate_slot h2g fstat null_id w1 (pfds + i * 8)) as [s w2]. cbn [fst snd] in *. subst s.
    destruct (IH (l ++ [pure_slot (tab w) (pfds + i * 8)]) w2 E2 His) as [F1 F2]. split; [|done]. rewrite F1, <-app_assoc. done. }
  apply (Hgo (seqZ 0 nfds) [] w); [done|]. apply Forall_forall. intros i Hi%elem_of_seqZ. lia.
Qed.

(** Only a slot that does not go to the host has synthesised events. *)
Lemma pure_slot_ok c slot : ps_synth (pure_slot c slot) <> 0 -> ps_fd (pure_slot c slot) = -1.
Proof. unfold pure_slot. by destruct (_ && _). Qed.
End PollProps.

(** * What the host's poll promises *)

Definition nonzero (l : list Z) : list Z := List.filter (fun v => negb (v =? 0)) l.

(** One answer for each slot, none for a slot with a negative descriptor; the
    result counts the answers; a failure leaves them as they were. *)
Record host_poll_ok (host_poll : list (Z * Z) -> Z -> Z * Z * list Z) : Prop := {
  hp_length : forall args t, length (snd (host_poll args t)) = length args;
  hp_ignored : forall args t i fd ev, args !! i = Some (fd, ev) -> fd < 0 -> snd (host_poll args t) !! i = Some 0;
  hp_count : forall args t, 0 <= fst (fst (host_poll args t)) -> fst (fst (host_poll args t)) = Z.of_nat (length (nonzero (snd (host_poll args t))));
  hp_failed : forall args t, fst (fst (host_poll args t)) < 0 -> nonzero (snd (host_poll args t)) = []
}.

(** * Stores *)

Lemma store_revents_frame m pfds revs lo hi :
  hi <= pfds \/ pfds + 8 * Z.of_nat (length revs) <= lo -> agree_on lo hi m (store_revents m pfds revs).
Proof.
  intros H. unfold store_revents. assert (Hall : Forall (fun '(i, _) => (i < length revs)%nat) (zip (seq 0 (length revs)) revs)).
  { apply Forall_forall. intros [i r] Hi. apply elem_of_zip_l in Hi. apply elem_of_seq in Hi. lia. }
  revert m Hall. generalize (zip (seq 0 (length revs)) revs). induction l as [|[i r] l IH]; intros m Hall; [apply agree_on_refl|].
  apply Forall_cons in Hall as [Hi Hall]. cbn [foldl]. cbn in Hi.
  apply (agree_on_trans _ _ _ (st16 m (pfds + Z.of_nat i * 8 + 6) r)); [apply st16_frame; lia|by apply IH].
Qed.

Lemma store_revents_at m pfds revs i v :
  revs !! i = Some v -> ld16 (store_revents m pfds revs) (pfds + Z.of_nat i * 8 + 6) = v mod 65536.
Proof.
  unfold store_revents. revert i. induction revs as [|x revs IH] using rev_ind; intros i Hi; [done|].
  rewrite length_app. cbn [length]. rewrite Nat.add_1_r, seq_S, zip_with_app by (by rewrite length_seq). rewrite foldl_app. cbn [zip_with foldl plus].
  apply lookup_snoc_Some in Hi as [[Hlt Hi]|[-> ->]].
  - rewrite (ld16_agree (foldl (fun m0 '(i, r) => st16 m0 (pfds + Z.of_nat i * 8 + 6) r) m (zip (seq 0 (length revs)) revs))) by (apply st16_frame; lia).
    by apply IH.
  - apply ld16_st16.
Qed.

(** The slots with events: those the host counts, and the synthesised ones. *)
Lemma count_revents slots answers :
  Forall (fun s => ps_synth s <> 0 -> ps_fd s = -1) slots -> length answers = length slots ->
  (forall i s, slots !! i = Some s -> ps_fd s < 0 -> answers !! i = Some 0) ->
  length (nonzero (zip_with slot_revents slots answers)) =
    (length (nonzero answers) + length (List.filter (fun s => is_synth s && (ps_fd s <? 0)%Z) slots))%nat.
Proof.
  intros Hok. revert answers. induction Hok as [|s slots Hs Hok IH]; intros [|v answers] Hl Hz; try done.
  cbn [length] in Hl. injection Hl as Hl. specialize (IH answers Hl (fun i x Hi Hx => Hz (S i) x Hi Hx)).
  cbn [zip_with]. unfold nonzero in *. cbn [List.filter].
  assert (Ev : slot_revents s v = if ps_synth s =? 0 then v else ps_synth s) by (unfold slot_revents, is_synth; by destruct (_ =? 0)).
  assert (Es : is_synth s = negb (ps_synth s =? 0)) by done. rewrite Ev, Es. clear Ev Es.
  destruct (Z.eqb_spec (ps_synth s) 0) as [E|E]; cbn [negb].
  - destruct (v =? 0); cbn [negb andb length]; rewrite IH; lia.
  - specialize (Hs E). rewrite Hs. pose proof (Hz 0%nat s eq_refl ltac:(lia)) as Hv. cbn in Hv. injection Hv as ->.
    rewrite (proj2 (Z.eqb_neq _ _) E). cbn [negb andb Z.ltb Z.compare Z.eqb length]. rewrite IH. lia.
Qed.

Section Poll.
Variable h2g : Z -> Z.
Variable signal_pump : world -> world.
Variable fstat : Z -> option file_kind.
Variable null_id : Z * Z.
Variable host_poll : list (Z * Z) -> Z -> Z * Z * list Z.

(** An array of slots in memory, away from the errno cell. *)
Record poll_args (w : world) (pfds nfds : Z) : Prop := {
  pa_count : 0 < nfds <= 1024;
  pa_inside : 0 < pfds /\ pfds + nfds * 8 <= memory_size (f_exec (tab w));
  pa_errno : pfds + nfds * 8 <= errno_off (f_exec (tab w)) \/ errno_off (f_exec (tab w)) + 4 <= pfds
}.

Definition slots_of (w : world) (pfds nfds : Z) : list poll_slot :=
  map (fun i => pure_slot fstat null_id (tab w) (pfds + i * 8)) (seqZ 0 nfds).

Lemma slots_of_ok w pfds nfds : Forall (fun s => ps_synth s <> 0 -> ps_fd s = -1) (slots_of w pfds nfds).
Proof. apply Forall_map, Forall_forall. intros i _. apply pure_slot_ok. Qed.

(** What poll does up to its stores. *)
Lemma poll_unfold w pfds nfds timeout :
  poll_args w pfds nfds ->
  let slots := slots_of w pfds nfds in
  let args := map (fun s => (ps_fd s, ps_events s)) slots in
  let wait := if existsb is_synth slots then 0 else timeout in
  let real := existsb is_real slots in
  let answers := if real then snd (host_poll args wait) else map (fun _ => 0) slots in
  let rc := if real then fst (fst (host_poll args wait)) else 0 in
  let revents := zip_with slot_revents slots answers in
  exists w3 e, (exists w2, w3 = upd_tab (set_f_exec (set_mem (store_revents (mem (f_exec (tab w2))) pfds revents) (f_exec (tab w2)))) w2) /\
    yos_poll h2g signal_pump fstat null_id host_poll w pfds nfds timeout =
      if (rc <? 0) && Nat.eqb (length (nonzero revents)) 0 then (fd_errno h2g w3 e, if real then Some (args, wait) else None)
      else ((if rc <? 0 then 0 else rc) + Z.of_nat (length (List.filter (fun s => is_synth s && (ps_fd s <? 0)) slots)), w3,
            if real then Some (args, wait) else None).
Proof.
  intros [Hc [Hp Hin] He]. cbn zeta. unfold yos_poll. rewrite (proj2 (Z.eqb_neq nfds 0)), (proj2 (Z.ltb_ge 1024 nfds)) by lia.
  rewrite (proj2 (Z.eqb_neq pfds 0)), (proj2 (Z.ltb_ge (memory_size _) _)) by lia. cbn [orb].
  destruct (translate_slots_pure h2g fstat null_id w pfds nfds ltac:(lia) He) as [E _].
  destruct (translate_slots h2g fstat null_id w pfds nfds) as [slots w1]. cbn [fst] in E. subst slots. fold (slots_of w pfds nfds).
  destruct (existsb is_real (slots_of w pfds nfds)).
  - destruct (host_poll _ _) as [[r e] revs]. cbn [fst snd]. eexists _, e. split; [eexists; reflexivity|reflexivity].
  - cbn [fst snd]. eexists _, 0. split; [eexists; reflexivity|reflexivity].
Qed.

Hypothesis Hhost : host_poll_ok host_poll.

(** C30: Poll asks the host about the descriptors that are not always ready,
    without waiting if some other slot has events already; it stores the events
    of every slot and returns how many slots have any.  It fails only when the
    host's call failed and no slot has events. *)
Theorem poll_reports w pfds nfds timeout :
  poll_args w pfds nfds ->
  let slots := slots_of w pfds nfds in
  let args := map (fun s => (ps_fd s, ps_events s)) slots in
  let wait := if existsb is_synth slots then 0 else timeout in
  let answers := if existsb is_real slots then snd (host_poll args wait) else map (fun _ => 0) slots in
  let revents := zip_with slot_revents slots answers in
  let '(r, w', call) := yos_poll h2g signal_pump fstat null_id host_poll w pfds nfds timeout in
  call = (if existsb is_real slots then Some (args, wait) else None) /\
  (r = -1 /\ existsb is_real slots = true /\ fst (fst (host_poll args wait)) < 0 /\ nonzero revents = [] \/
   r = Z.of_nat (length (nonzero revents)) /\
   forall i v, revents !! i = Some v -> ld16 (mem (f_exec (tab w'))) (pfds + Z.of_nat i * 8 + 6) = v mod 65536).
Proof using Hhost.
  intros Hargs. cbn zeta. set (slots := slots_of w pfds nfds). set (args := map _ slots). set (wait := if existsb is_synth slots then 0 else timeout).
  set (answers := if existsb is_real slots then snd (host_poll args wait) else map (fun _ => 0) slots).
  destruct (poll_unfold w pfds nfds timeout Hargs) as (w3 & e & (w2 & Hw3) & E). cbn zeta in E. fold slots args wait answers in E, Hw3.
  set (revents := zip_with slot_revents slots answers) in *. set (rc := if existsb is_real slots then fst (fst (host_poll args wait)) else 0) in *.
  assert (Hlen : length answers = length slots).
  { unfold answers. destruct (existsb is_real slots); [|by rewrite length_map]. rewrite (hp_length _ Hhost). unfold args. by rewrite length_map. }
  assert (Hign : forall i s, slots !! i = Some s -> ps_fd s < 0 -> answers !! i = Some 0).
  { intros i s Hi Hs. unfold answers. destruct (existsb is_real slots).
    - apply (hp_ignored _ Hhost args wait i (ps_fd s) (ps_events s)); [|done]. unfold args. by rewrite list_lookup_fmap, Hi.
    - by rewrite list_lookup_fmap, Hi. }
  pose proof (count_revents slots answers (slots_of_ok w pfds nfds) Hlen Hign) as Hcount. fold revents in Hcount.
  assert (Hrc : (0 <= rc -> rc = Z.of_nat (length (nonzero answers))) /\ (rc < 0 -> nonzero answers = [])).
  { unfold rc, answers. destruct (existsb is_real slots); [split; [apply (hp_count _ Hhost)|apply (hp_failed _ Hhost)]|].
    assert (nonzero (map (fun _ : poll_slot => 0) slots) = []) as -> by (clear; induction slots; done). done. }
  destruct Hrc as [Hrc0 Hrc1]. rewrite E.
  assert (Hstore : forall i v, revents !! i = Some v -> ld16 (mem (f_exec (tab w3))) (pfds + Z.of_nat i * 8 + 6) = v mod 65536).
  { intros i v Hi. rewrite Hw3. cbn [tab upd_tab f_exec set_f_exec mem set_mem]. by apply store_revents_at. }
  destruct (Z.ltb_spec rc 0) as [Hneg|Hpos]; cbn [andb].
  - specialize (Hrc1 Hneg). rewrite Hrc1 in Hcount. cbn [length plus] in Hcount.
    destruct (Nat.eqb_spec (length (nonzero revents)) 0) as [H0|H0].
    + destruct (fd_errno_only h2g w3 e) as [F _]. destruct (fd_errno h2g w3 e) as [r x]. cbn in F. subst r. split; [done|]. left.
      split; [done|]. unfold rc in Hneg. destruct (existsb is_real slots); [|lia]. split_and!; [done|done|by apply length_zero_iff_nil].
    + split; [done|]. right. split; [|done]. lia.
  - split; [done|]. right. split; [|done]. rewrite (Hrc0 Hpos). lia.
Qed.

(** When every slot names a descriptor that is not open, or a negative one,
    poll returns 0 at once whatever its timeout: the host is not asked, nothing
    is waited for, and no slot reports POLLNVAL. *)
Theorem poll_bad_descriptors_return_at_once w pfds nfds timeout :
  poll_args w pfds nfds ->
  (forall i, 0 <= i < nfds -> let wfd := s32 (ld32 (mem (f_exec (tab w))) (pfds + i * 8)) in wfd < 0 \/ guest_hfd (tab w) wfd < 0) ->
  exists w', yos_poll h2g signal_pump fstat null_id host_poll w pfds nfds timeout = (0, w', None) /\
    forall i, 0 <= i < nfds -> ld16 (mem (f_exec (tab w'))) (pfds + i * 8 + 6) = 0.
Proof.
  intros Hargs Hbad. destruct (poll_unfold w pfds nfds timeout Hargs) as (w3 & e & (w2 & Hw3) & E). cbn zeta in E, Hw3.
  set (slots := slots_of w pfds nfds) in *.
  assert (Hall : Forall (fun s => ps_synth s = 0 /\ ps_fd s < 0) slots).
  { apply Forall_map, Forall_forall. intros i Hi%elem_of_seqZ. specialize (Hbad i ltac:(lia)). cbn zeta in Hbad. unfold pure_slot.
    assert (Hfd : (if s32 (ld32 (mem (f_exec (tab w))) (pfds + i * 8)) <? 0 then s32 (ld32 (mem (f_exec (tab w))) (pfds + i * 8))
      else guest_hfd (tab w) (s32 (ld32 (mem (f_exec (tab w))) (pfds + i * 8)))) < 0) by (destruct (Z.ltb_spec (s32 (ld32 (mem (f_exec (tab w))) (pfds + i * 8))) 0); lia).
    rewrite (proj2 (Z.leb_gt 0 _) Hfd). by cbn. }
  assert (Hreal : existsb is_real slots = false).
  { clear -Hall. induction Hall as [|s l [_ Hs] _ IH]; [done|]. cbn. rewrite IH. unfold is_real. by rewrite (proj2 (Z.leb_gt 0 _) Hs). }
  assert (Hf : List.filter (fun s => is_synth s && (ps_fd s <? 0)) slots = []).
  { clear -Hall. induction Hall as [|s l [Hs _] _ IH]; [done|]. cbn. unfold is_synth. by rewrite Hs. }
  rewrite Hreal, Hf in E. cbn in E. exists w3. split; [exact E|]. intros i Hi. rewrite Hw3, Hreal. cbn [tab upd_tab f_exec set_f_exec mem set_mem].
  replace i with (Z.of_nat (Z.to_nat i)) by lia. rewrite (store_revents_at _ _ _ (Z.to_nat i) 0); [done|].
  assert (Hl : length slots = Z.to_nat nfds) by (unfold slots, slots_of; by rewrite length_map, length_seqZ).
  destruct (lookup_lt_is_Some_2 slots (Z.to_nat i)) as [s Hs]; [lia|]. rewrite Forall_forall in Hall.
  destruct (Hall s ltac:(by eapply list_elem_of_lookup_2)) as [Hz _].
  rewrite lookup_zip_with, Hs, list_lookup_fmap, Hs. cbn. unfold slot_revents, is_synth. by rewrite Hz.
Qed.
End Poll.
