(* ===== verification/SelectProps.v ===== *)
(** Select reports, in the guest's numbering, exactly the requested descriptors
    that the host found ready. *)
From stdpp Require Import gmap.
From S2P Require Import Prelude Memory Ctx CString Path FdTable Poll PollProps.

(** * Bits of a set *)

Lemma isset_set m p a b :
  p <> 0 -> 0 <= a -> 0 <= b -> wfds_isset (wfds_set m p a) p b = bool_decide (a = b) || wfds_isset m p b.
Proof.
  intros Hp Ha Hb. unfold wfds_isset, wfds_set. rewrite (proj2 (Z.eqb_neq p 0) Hp). cbn [negb andb]. rewrite ld8_st8.
  pose proof (Z.div_mod a 8 ltac:(lia)). pose proof (Z.div_mod b 8 ltac:(lia)).
  pose proof (Z.mod_pos_bound a 8 ltac:(lia)). pose proof (Z.mod_pos_bound b 8 ltac:(lia)).
  destruct (Z.eqb_spec (p + b / 8) (p + a / 8)) as [E|E].
  - assert (Eq : b / 8 = a / 8) by lia. unfold u8. change 256 with (2 ^ 8). rewrite Z.mod_pow2_bits_low, Z.lor_spec by lia. rewrite Eq.
    rewrite orb_comm. f_equal. rewrite Z.shiftl_spec by lia. case_bool_decide as Hd.
    + subst b. by rewrite Z.sub_diag.
    + destruct (Z.eq_dec (a mod 8) (b mod 8)) as [?|Hne]; [lia|]. destruct (Z.lt_ge_cases (b mod 8 - a mod 8) 0); [by rewrite Z.testbit_neg_r|].
      change 1 with (2 ^ 0). by rewrite Z.pow2_bits_false by lia.
  - rewrite bool_decide_eq_false_2 by (intros ->; done). done.
Qed.

Lemma wfds_set_frame m p a lo hi : 0 <= a < 1024 -> hi <= p \/ p + 128 <= lo -> agree_on lo hi m (wfds_set m p a).
Proof.
  intros Ha H. unfold wfds_set. destruct (p =? 0); [apply agree_on_refl|]. apply st8_frame.
  pose proof (Z.div_pos a 8 ltac:(lia) ltac:(lia)). pose proof (Z.div_lt_upper_bound a 8 128 ltac:(lia) ltac:(lia)). lia.
Qed.

Lemma isset_agree m m' p b : 0 <= b < 1024 -> agree_on p (p + 128) m m' -> wfds_isset m' p b = wfds_isset m p b.
Proof.
  intros Hb H. unfold wfds_isset. rewrite H; [done|].
  pose proof (Z.div_pos b 8 ltac:(lia) ltac:(lia)). pose proof (Z.div_lt_upper_bound b 8 128 ltac:(lia) ltac:(lia)). lia.
Qed.

Lemma isset_none m b : wfds_isset m 0 b = false.
Proof. done. Qed.

(** Two sets of the guest that do not overlap; 0 is no set. *)
Definition apart (p q : Z) : Prop := p = 0 \/ q = 0 \/ p + 128 <= q \/ q + 128 <= p.

Lemma isset_set_other m p q a b : apart p q -> 0 <= a < 1024 -> 0 <= b < 1024 -> wfds_isset (wfds_set m p a) q b = wfds_isset m q b.
Proof.
  intros H Ha Hb. destruct H as [->|[->|H]]; [done|done|]. apply isset_agree; [done|]. apply wfds_set_frame; [done|lia].
Qed.

Lemma isset_clear m p b : 0 <= b < 1024 -> wfds_isset (clear_set m p) p b = false.
Proof.
  intros Hb. unfold wfds_isset, clear_set. destruct (Z.eqb_spec p 0) as [->|Hp]; [done|]. cbn [negb andb].
  pose proof (Z.div_pos b 8 ltac:(lia) ltac:(lia)). pose proof (Z.div_lt_upper_bound b 8 128 ltac:(lia) ltac:(lia)).
  rewrite ld8_memset_in by lia. apply Z.testbit_0_l.
Qed.

Lemma isset_clear_other m p q b : apart p q -> 0 <= b < 1024 -> wfds_isset (clear_set m p) q b = wfds_isset m q b.
Proof.
  intros H Hb. unfold clear_set. destruct (Z.eqb_spec p 0); [done|]. destruct H as [->|[->|H]]; [done|done|].
  apply isset_agree; [done|]. apply memset_frame. lia.
Qed.

(** * The pairs *)

Section Select.
Variable h2g : Z -> Z.

Definition pure_pair (c : fd_ctx) (r_off w_off e_off wfd : Z) : option fd_pair :=
  let m := mem (f_exec c) in
  if (wfds_isset m r_off wfd || wfds_isset m w_off wfd || wfds_isset m e_off wfd) && (0 <=? guest_hfd c wfd)
  then Some (Pair wfd (guest_hfd c wfd) (wfds_isset m r_off wfd) (wfds_isset m w_off wfd) (wfds_isset m e_off wfd)) else None.

(** A set away from the errno cell. *)
Definition spares_errno (x : exec_ctx) (p : Z) : Prop := p = 0 \/ p + 128 <= errno_off x \/ errno_off x + 4 <= p.

Lemma isset_errno_only w0 w p b :
  errno_only w0 w -> spares_errno (f_exec (tab w0)) p -> 0 <= b < 1024 ->
  wfds_isset (mem (f_exec (tab w))) p b = wfds_isset (mem (f_exec (tab w0))) p b.
Proof. intros He [->|H] Hb; [done|]. apply isset_agree; [done|]. apply (eo_mem _ _ He). lia. Qed.

Lemma select_pair_pure w r_off w_off e_off l w1 i :
  spares_errno (f_exec (tab w)) r_off -> spares_errno (f_exec (tab w)) w_off -> spares_errno (f_exec (tab w)) e_off ->
  errno_only w w1 -> 0 <= i < 256 ->
  exists w2, select_pair h2g r_off w_off e_off (l, w1) i =
    (match pure_pair (tab w) r_off w_off e_off i with Some p => l ++ [p] | None => l end, w2) /\ errno_only w w2.
Proof.
  intros Hr Hw He Ho Hi. unfold select_pair. rewrite !(isset_errno_only w w1) by (done || lia). unfold pure_pair.
  destruct (wfds_isset (mem (f_exec (tab w))) r_off i || wfds_isset (mem (f_exec (tab w))) w_off i || wfds_isset (mem (f_exec (tab w))) e_off i); cbn [negb andb];
    [|by eexists].
  destruct (fd_get_pure h2g w1 i) as [E1 E2]; [lia|]. destruct (yos_fd_get h2g w1 i) as [hfd w2]. cbn [fst snd] in E1, E2. subst hfd.
  assert (Hg : guest_hfd (tab w1) i = guest_hfd (tab w) i) by (unfold guest_hfd, slot_fd; by rewrite (eo_fds _ _ Ho)). rewrite Hg.
  exists w2. split; [|by etrans]. destruct (Z.ltb_spec (guest_hfd (tab w) i) 0), (Z.leb_spec 0 (guest_hfd (tab w) i)); try lia; done.
Qed.

Lemma select_pairs_pure w r_off w_off e_off nfds :
  0 <= nfds <= 256 -> spares_errno (f_exec (tab w)) r_off -> spares_errno (f_exec (tab w)) w_off -> spares_errno (f_exec (tab w)) e_off ->
  exists w1, foldl (select_pair h2g r_off w_off e_off) ([], w) (seqZ 0 nfds) = (omap (pure_pair (tab w) r_off w_off e_off) (seqZ 0 nfds), w1) /\
    errno_only w w1.
Proof.
  intros Hn Hr Hw He.
  assert (Hgo : forall js l w1, errno_only w w1 -> Forall (fun i => 0 <= i < 256) js ->
    exists w2, foldl (select_pair h2g r_off w_off e_off) (l, w1) js = (l ++ omap (pure_pair (tab w) r_off w_off e_off) js, w2) /\ errno_only w w2).
  { induction js as [|i js IH]; intros l w1 Ho Hi; [exists w1; cbn; by rewrite app_nil_r|]. apply Forall_cons in Hi as [Hi His]. cbn [foldl omap list_omap].
    destruct (select_pair_pure w r_off w_off e_off l w1 i Hr Hw He Ho Hi) as (w2 & -> & Ho2).
    destruct (pure_pair (tab w) r_off w_off e_off i) as [p|].
    - destruct (IH (l ++ [p]) w2 Ho2 His) as (w3 & -> & Ho3). exists w3. split; [|done]. by rewrite <-app_assoc.
    - by apply IH. }
  apply (Hgo (seqZ 0 nfds) [] w); [done|]. apply Forall_forall. intros i Hi%elem_of_seqZ. lia.
Qed.

(** The bits that the pairs leave in one set, from what each pair does to it. *)
Lemma bits_of_pairs (f : memory -> fd_pair -> memory) (S : gset Z) q b pairs m :
  (forall m p, 0 <= pr_wfd p < 1024 ->
     wfds_isset (f m p) q b = bool_decide (pr_wfd p = b) && bool_decide (pr_hfd p ∈ S) || wfds_isset m q b) ->
  Forall (fun p => 0 <= pr_wfd p < 1024) pairs ->
  wfds_isset (foldl f m pairs) q b = bool_decide (Exists (fun p => pr_wfd p = b /\ pr_hfd p ∈ S) pairs) || wfds_isset m q b.
Proof.
  intros Hf Hp. revert m. induction Hp as [|p pairs Hp Hps IH]; intros m; [done|]. cbn [foldl]. rewrite IH, Hf by done.
  assert (X : bool_decide (Exists (fun p => pr_wfd p = b /\ pr_hfd p ∈ S) (p :: pairs)) =
    bool_decide (pr_wfd p = b) && bool_decide (pr_hfd p ∈ S) || bool_decide (Exists (fun p => pr_wfd p = b /\ pr_hfd p ∈ S) pairs)).
  { rewrite <-bool_decide_and, <-bool_decide_or. apply bool_decide_ext, Exists_cons. }
  rewrite X, orb_assoc. f_equal. apply orb_comm.
Qed.

(** The set of the guest at an offset, and the host's answer for it. *)
Lemma isset_if (c : bool) m p q a b :
  (p = q \/ apart p q) -> 0 <= a < 1024 -> 0 <= b < 1024 -> q <> 0 ->
  wfds_isset (if c then wfds_set m p a else m) q b = (if decide (p = q) then bool_decide (a = b) && c else false) || wfds_isset m q b.
Proof.
  intros H Ha Hb Hq. destruct c.
  - rewrite andb_true_r. destruct (decide (p = q)) as [->|Hne]; [apply isset_set; lia|]. apply isset_set_other; [tauto|done..].
  - rewrite andb_false_r. by destruct (decide (p = q)).
Qed.

Lemma set_bits_spec r_off w_off e_off s q b m p :
  (r_off = q \/ apart r_off q) -> (w_off = q \/ apart w_off q) -> (e_off = q \/ apart e_off q) -> q <> 0 -> 0 <= b < 1024 -> 0 <= pr_wfd p < 1024 ->
  wfds_isset (set_bits r_off w_off e_off s m p) q b =
    (if decide (e_off = q) then bool_decide (pr_wfd p = b) && bool_decide (pr_hfd p ∈ hs_e s) else false) ||
    ((if decide (w_off = q) then bool_decide (pr_wfd p = b) && bool_decide (pr_hfd p ∈ hs_w s) else false) ||
     ((if decide (r_off = q) then bool_decide (pr_wfd p = b) && bool_decide (pr_hfd p ∈ hs_r s) else false) || wfds_isset m q b)).
Proof. intros A1 A2 A3 Hq Hb Hp. unfold set_bits. by rewrite !isset_if by (done || lia). Qed.

(** * What the host's select promises *)

Definition subsets (s t : host_sets) : Prop := hs_r s ⊆ hs_r t /\ hs_w s ⊆ hs_w t /\ hs_e s ⊆ hs_e t.

Definition host_select_ok {tv : Type} (host_select : Z -> host_sets -> option tv -> Z * Z * host_sets) : Prop :=
  forall n sets t, subsets (snd (host_select n sets t)) sets.

Lemma sets_of_spec pairs h :
  (h ∈ hs_r (sets_of pairs) <-> Exists (fun p => pr_hfd p = h /\ pr_r p = true) pairs) /\
  (h ∈ hs_w (sets_of pairs) <-> Exists (fun p => pr_hfd p = h /\ pr_w p = true) pairs) /\
  (h ∈ hs_e (sets_of pairs) <-> Exists (fun p => pr_hfd p = h /\ pr_e p = true) pairs).
Proof.
  unfold sets_of. induction pairs as [|p pairs IH] using rev_ind; [cbn; rewrite !elem_of_empty, !Exists_nil; tauto|].
  rewrite foldl_snoc. cbn [hs_r hs_w hs_e]. destruct IH as (I1 & I2 & I3). rewrite !Exists_app, !Exists_cons, !Exists_nil.
  assert (Hadd : forall c (S : gset Z), h ∈ add_if c (pr_hfd p) S <-> h ∈ S \/ (pr_hfd p = h /\ c = true)).
  { intros c S. unfold add_if. destruct c; set_solver. }
  rewrite !Hadd, I1, I2, I3. tauto.
Qed.

(** * The whole call *)

Section Call.
Variable signal_pump : world -> world.
Context {timeval : Type}.
Variable cv_timeval_w2h : memory -> Z -> timeval.
Variable host_select : Z -> host_sets -> option timeval -> Z * Z * host_sets.
Hypothesis Hhost : host_select_ok host_select.

(** Three sets in memory that neither overlap nor touch the errno cell, and
    descriptors that no two names share. *)
Record select_args (w : world) (nfds r_off w_off e_off : Z) : Prop := {
  sg_nfds : 0 <= nfds <= 256;
  sg_inside : set_inside (f_exec (tab w)) r_off && set_inside (f_exec (tab w)) w_off && set_inside (f_exec (tab w)) e_off = true;
  sg_apart : apart r_off w_off /\ apart r_off e_off /\ apart w_off e_off;
  sg_errno : spares_errno (f_exec (tab w)) r_off /\ spares_errno (f_exec (tab w)) w_off /\ spares_errno (f_exec (tab w)) e_off;
  sg_small : forall fd, guest_hfd (tab w) fd < FD_SETSIZE;
  sg_inj : forall a b, guest_hfd (tab w) a = guest_hfd (tab w) b -> 0 <= guest_hfd (tab w) a -> a = b
}.

(** The descriptors of one of the guest's sets that the host found ready. *)
Definition ready (w : world) (nfds off : Z) (s : gset Z) (fd : Z) : bool :=
  (0 <=? fd) && (fd <? nfds) && wfds_isset (mem (f_exec (tab w))) off fd && (0 <=? guest_hfd (tab w) fd) && bool_decide (guest_hfd (tab w) fd ∈ s).

Lemma pure_pair_shape c r_off w_off e_off i p :
  pure_pair c r_off w_off e_off i = Some p ->
  p = Pair i (guest_hfd c i) (wfds_isset (mem (f_exec c)) r_off i) (wfds_isset (mem (f_exec c)) w_off i) (wfds_isset (mem (f_exec c)) e_off i) /\
  0 <= guest_hfd c i.
Proof. unfold pure_pair. destruct (_ && _) eqn:E; [|done]. intros [= <-]. apply andb_true_iff in E as [_ E%Z.leb_le]. done. Qed.

Lemma pure_pair_covers c r_off w_off e_off i :
  wfds_isset (mem (f_exec c)) r_off i || wfds_isset (mem (f_exec c)) w_off i || wfds_isset (mem (f_exec c)) e_off i = true ->
  0 <= guest_hfd c i -> is_Some (pure_pair c r_off w_off e_off i).
Proof. intros H1 H2. unfold pure_pair. rewrite H1, (proj2 (Z.leb_le _ _) H2). by eexists. Qed.

(** The pairs that are ready in one set: [off] is the set, [sel] what the pairs
    record of it. *)
Lemma ready_pairs w nfds r_off w_off e_off off (S : gset Z) (sel : fd_pair -> bool) fd :
  select_args w nfds r_off w_off e_off ->
  let pairs := omap (pure_pair (tab w) r_off w_off e_off) (seqZ 0 nfds) in
  (forall i p, pure_pair (tab w) r_off w_off e_off i = Some p -> sel p = wfds_isset (mem (f_exec (tab w))) off i) ->
  (off = r_off \/ off = w_off \/ off = e_off) -> (forall h, h ∈ S -> Exists (fun p => pr_hfd p = h /\ sel p = true) pairs) ->
  bool_decide (Exists (fun p => pr_wfd p = fd /\ pr_hfd p ∈ S) pairs) = ready w nfds off S fd.
Proof.
  intros Ha pairs Hsel Hoff HS. destruct Ha as [_ _ _ _ _ Hinj].
  assert (Hpairs : forall p, p ∈ pairs <-> exists i, 0 <= i < nfds /\ pure_pair (tab w) r_off w_off e_off i = Some p).
  { intros p. unfold pairs. rewrite list_elem_of_omap. setoid_rewrite elem_of_seqZ. split; intros (i & ? & ?); exists i; (split; [lia|done]). }
  apply eq_true_iff_eq. rewrite bool_decide_eq_true. unfold ready. rewrite !andb_true_iff, !Z.leb_le, Z.ltb_lt, bool_decide_eq_true. split.
  - intros (p & Hp & <- & HpS)%Exists_exists. apply Hpairs in Hp as (i & Hi & Hp).
    destruct (pure_pair_shape _ _ _ _ _ _ Hp) as [-> Hge]. cbn [pr_wfd pr_hfd] in *.
    pose proof (HS _ HpS) as (q & Hq & Eq & Hs)%Exists_exists. apply Hpairs in Hq as (j & Hj & Hq).
    rewrite (Hsel j q Hq) in Hs. destruct (pure_pair_shape _ _ _ _ _ _ Hq) as [-> Hgq]. cbn [pr_hfd] in Eq.
    rewrite (Hinj j i Eq Hgq) in Hs. split_and!; [lia|lia|done|done|done].
  - intros ((((H1 & H2) & H3) & H4) & H5). destruct (pure_pair_covers (tab w) r_off w_off e_off fd) as [p Hp]; [|done|].
    { destruct Hoff as [->|[->| ->]]; rewrite H3; by rewrite ?orb_true_r. }
    apply Exists_exists. exists p. split; [apply Hpairs; exists fd; split; [lia|done]|].
    destruct (pure_pair_shape _ _ _ _ _ _ Hp) as [-> _]. done.
Qed.

(** The host descriptors of one of the guest's sets: those of its members below
    nfds that are open. *)
Definition requested (w : world) (nfds off : Z) (s : gset Z) : Prop :=
  forall h, h ∈ s <-> exists fd, 0 <= fd < nfds /\ wfds_isset (mem (f_exec (tab w))) off fd = true /\ guest_hfd (tab w) fd = h /\ 0 <= h.

Lemma requested_pairs w nfds r_off w_off e_off off (S : gset Z) (sel : fd_pair -> bool) :
  (forall i p, pure_pair (tab w) r_off w_off e_off i = Some p -> sel p = wfds_isset (mem (f_exec (tab w))) off i) ->
  (off = r_off \/ off = w_off \/ off = e_off) ->
  (forall h, h ∈ S <-> Exists (fun p => pr_hfd p = h /\ sel p = true) (omap (pure_pair (tab w) r_off w_off e_off) (seqZ 0 nfds))) ->
  requested w nfds off S.
Proof.
  intros Hsel Hoff HS h. rewrite HS, Exists_exists. split.
  - intros (p & Hp & <- & Hs). apply list_elem_of_omap in Hp as (i & Hi%elem_of_seqZ & Hp). rewrite (Hsel i p Hp) in Hs.
    destruct (pure_pair_shape _ _ _ _ _ _ Hp) as [-> Hge]. exists i. split_and!; [lia|lia|done|done|done].
  - intros (fd & Hfd & Hs & <- & Hge). destruct (pure_pair_covers (tab w) r_off w_off e_off fd) as [p Hp]; [|done|].
    { destruct Hoff as [->|[->| ->]]; rewrite Hs; by rewrite ?orb_true_r. }
    exists p. split; [apply list_elem_of_omap; exists fd; split; [apply elem_of_seqZ; lia|done]|].
    rewrite (Hsel fd p Hp). destruct (pure_pair_shape _ _ _ _ _ _ Hp) as [-> _]. done.
Qed.

Lemma max_hfd_spec pairs : Forall (fun p => 0 <= pr_hfd p) pairs ->
  (forall p, p ∈ pairs -> pr_hfd p <= max_hfd pairs) /\ (max_hfd pairs = -1 /\ pairs = [] \/ exists p, p ∈ pairs /\ pr_hfd p = max_hfd pairs).
Proof.
  unfold max_hfd. induction pairs as [|q pairs IH] using rev_ind; intros Hf; [split; [by intros p ?%elem_of_nil|by left]|].
  apply Forall_app in Hf as [Hf Hq]. apply Forall_cons in Hq as [Hq _]. destruct (IH Hf) as [Hle Hex]. rewrite foldl_snoc. cbn beta.
  set (k := foldl _ _ pairs) in *. split.
  - intros p [Hp| ->%list_elem_of_singleton]%elem_of_app; [specialize (Hle p Hp)|]; destruct (Z.ltb_spec k (pr_hfd q)); lia.
  - right. destruct (Z.ltb_spec k (pr_hfd q)); [exists q; split; [set_solver|done]|].
    destruct Hex as [[Hk _]|(p & Hp & Ep)]; [lia|]. exists p. split; [set_solver|done].
Qed.

(** Every pair is in one of the sets. *)
Lemma pairs_in_sets w nfds r_off w_off e_off :
  let pairs := omap (pure_pair (tab w) r_off w_off e_off) (seqZ 0 nfds) in
  forall h, h ∈ hs_r (sets_of pairs) ∪ hs_w (sets_of pairs) ∪ hs_e (sets_of pairs) <-> exists p, p ∈ pairs /\ pr_hfd p = h.
Proof.
  intros pairs h. destruct (sets_of_spec pairs h) as (Er & Ew & Ee). rewrite !elem_of_union, Er, Ew, Ee, !Exists_exists. split.
  - intros [[(p & ? & ? & ?)|(p & ? & ? & ?)]|(p & ? & ? & ?)]; by exists p.
  - intros (p & Hp & Eh). pose proof Hp as Hq. apply list_elem_of_omap in Hq as (i & _ & Hq).
    unfold pure_pair in Hq. destruct (_ && _) eqn:E; [|done]. apply andb_true_iff in E as [E _]. injection Hq as <-.
    apply orb_true_iff in E as [E|E]; [apply orb_true_iff in E as [E|E]; [left; left|left; right]|right]; eexists; (split; [exact Hp|by split]).
Qed.

(** C31: What select asks of the host and what it makes of the answer.  The host is
    asked once, for exactly the descriptors of the guest's three sets that are
    below nfds and open, under their host numbers, with one more than the highest
    of them as its nfds, and with the guest's timeout, or none for a null pointer.
    If the host fails, so does the call; otherwise each of the guest's sets holds
    exactly the requested descriptors that the host found ready, under the
    guest's numbers, and the result is the host's. *)
Theorem select_reports w nfds r_off w_off e_off to_off :
  select_args w nfds r_off w_off e_off ->
  exists n s m r w', yos_select h2g signal_pump cv_timeval_w2h host_select w nfds r_off w_off e_off to_off = Some (r, w') /\
    requested w nfds r_off (hs_r s) /\ requested w nfds w_off (hs_w s) /\ requested w nfds e_off (hs_e s) /\
    (forall h, h ∈ hs_r s ∪ hs_w s ∪ hs_e s -> h < n) /\ (n = 0 \/ n - 1 ∈ hs_r s ∪ hs_w s ∪ hs_e s) /\
    (forall a, a < errno_off (f_exec (tab w)) \/ errno_off (f_exec (tab w)) + 4 <= a -> ld8 m a = ld8 (mem (f_exec (tab w))) a) /\
    let '(rc, _, got) := host_select n s (if to_off =? 0 then None else Some (cv_timeval_w2h m to_off)) in
    if rc <? 0 then r = -1
    else r = rc /\
      let m' := mem (f_exec (tab w')) in
      forall fd, 0 <= fd < 1024 ->
        (r_off <> 0 -> wfds_isset m' r_off fd = ready w nfds r_off (hs_r got) fd) /\
        (w_off <> 0 -> wfds_isset m' w_off fd = ready w nfds w_off (hs_w got) fd) /\
        (e_off <> 0 -> wfds_isset m' e_off fd = ready w nfds e_off (hs_e got) fd).
Proof using Hhost.
  intros Ha. pose proof Ha as [Hn Hin (A1 & A2 & A3) (S1 & S2 & S3) Hsmall Hinj]. unfold yos_select, YOS_FD_MAX.
  rewrite (proj2 (Z.ltb_ge nfds 0)), (proj2 (Z.ltb_ge 256 nfds)) by lia. cbn [orb]. rewrite Hin. cbn [negb].
  destruct (select_pairs_pure w r_off w_off e_off nfds Hn S1 S2 S3) as (w1 & -> & Ho).
  pose proof (fun off S sel fd => ready_pairs w nfds r_off w_off e_off off S sel fd Ha) as Hready. cbn zeta in Hready.
  assert (Hshape : forall p, p ∈ omap (pure_pair (tab w) r_off w_off e_off) (seqZ 0 nfds) -> 0 <= pr_wfd p < nfds /\ pr_hfd p < FD_SETSIZE).
  { intros p Hp. apply list_elem_of_omap in Hp as (i & Hi%elem_of_seqZ & Hp). destruct (pure_pair_shape _ _ _ _ _ _ Hp) as [-> _]. split; [cbn; lia|apply Hsmall]. }
  set (pairs := omap (pure_pair (tab w) r_off w_off e_off) (seqZ 0 nfds)) in *.
  assert (Hbig : existsb (fun p => FD_SETSIZE <=? pr_hfd p) pairs = false).
  { apply not_true_iff_false. intros (p & Hp & Hge)%existsb_exists. apply list_elem_of_In, Hshape in Hp as [_ Hp]. apply Z.leb_le in Hge. lia. }
  rewrite Hbig. set (tv := if to_off =? 0 then None else _). set (n := max_hfd pairs + 1).
  pose proof (pairs_in_sets w nfds r_off w_off e_off) as Hin3. cbv zeta in Hin3. fold pairs in Hin3.
  destruct (max_hfd_spec pairs) as [Hmax Hlast].
  { apply Forall_forall. intros p Hp. apply list_elem_of_omap in Hp as (i & _ & Hp). by destruct (pure_pair_shape _ _ _ _ _ _ Hp) as [-> ?]. }
  assert (Hask : requested w nfds r_off (hs_r (sets_of pairs)) /\ requested w nfds w_off (hs_w (sets_of pairs)) /\ requested w nfds e_off (hs_e (sets_of pairs)) /\
    (forall h, h ∈ hs_r (sets_of pairs) ∪ hs_w (sets_of pairs) ∪ hs_e (sets_of pairs) -> h < n) /\
    (n = 0 \/ n - 1 ∈ hs_r (sets_of pairs) ∪ hs_w (sets_of pairs) ∪ hs_e (sets_of pairs)) /\
    (forall a, a < errno_off (f_exec (tab w)) \/ errno_off (f_exec (tab w)) + 4 <= a -> ld8 (mem (f_exec (tab w1))) a = ld8 (mem (f_exec (tab w))) a)).
  { split_and!.
    - eapply (requested_pairs w nfds r_off w_off e_off r_off _ pr_r); [intros i p Hp; by destruct (pure_pair_shape _ _ _ _ _ _ Hp) as [-> _]|by left|intros h; apply sets_of_spec].
    - eapply (requested_pairs w nfds r_off w_off e_off w_off _ pr_w); [intros i p Hp; by destruct (pure_pair_shape _ _ _ _ _ _ Hp) as [-> _]|by right; left|intros h; apply sets_of_spec].
    - eapply (requested_pairs w nfds r_off w_off e_off e_off _ pr_e); [intros i p Hp; by destruct (pure_pair_shape _ _ _ _ _ _ Hp) as [-> _]|by right; right|intros h; apply sets_of_spec].
    - intros h (p & Hp & <-)%Hin3. specialize (Hmax p Hp). lia.
    - destruct Hlast as [[E _]|(p & Hp & E)]; [left; lia|right]. apply Hin3. exists p. split; [done|lia].
    - intros a Haa. apply (eo_mem _ _ Ho a (a + 1)); lia. }
  destruct Hask as (Q1 & Q2 & Q3 & Q4 & Q5 & Q6). exists n, (sets_of pairs), (mem (f_exec (tab w1))). fold tv.
  pose proof (Hhost n (sets_of pairs) tv) as Hsub. destruct (host_select n (sets_of pairs) tv) as [[rc e] got] eqn:Eh. cbn [snd] in Hsub.
  set (w3 := if (rc <? 0) && (e =? EINTR) then _ else _).
  destruct (Z.ltb_spec rc 0) as [Hneg|Hpos].
  { destruct (fd_errno_only h2g w3 e) as [F _]. destruct (fd_errno h2g w3 e) as [r w']. cbn in F. exists r, w'. split; [done|]. split_and!; try done. }
  eexists rc, _. split; [reflexivity|]. split_and!; try done.
  cbn [tab upd_tab f_exec set_f_exec mem set_mem]. intros fd Hfd.
  assert (Hw : Forall (fun p => 0 <= pr_wfd p < 1024) pairs) by (apply Forall_forall; intros p Hp; apply Hshape in Hp; lia).
  pose proof (fun h => sets_of_spec pairs h) as Hsets. destruct Hsub as (U1 & U2 & U3).
  assert (Hneq : forall p q, apart p q -> q <> 0 -> p = q -> False) by (unfold apart; intros; lia).
  assert (Hsym : forall p q, apart p q -> apart q p) by (unfold apart; intros; lia).
  set (m0 := clear_set (clear_set (clear_set (mem (f_exec (tab w3))) r_off) w_off) e_off).
  split_and!; intros Hz.
  - rewrite (bits_of_pairs _ (hs_r got)); [|intros m p Hp; rewrite set_bits_spec by (auto || lia)|done].
    + rewrite (Hready r_off (hs_r got) pr_r fd); [|intros i p Hp; by destruct (pure_pair_shape _ _ _ _ _ _ Hp) as [-> _]|by left|intros h Hh; by apply Hsets, U1].
      unfold m0. rewrite !isset_clear_other, isset_clear by auto. apply orb_false_r.
    + destruct (decide (e_off = r_off)) as [?|_]; [exfalso; eauto|]. destruct (decide (w_off = r_off)) as [?|_]; [exfalso; eauto|].
      by rewrite decide_True by done.
  - rewrite (bits_of_pairs _ (hs_w got)); [|intros m p Hp; rewrite set_bits_spec by (auto || lia)|done].
    + rewrite (Hready w_off (hs_w got) pr_w fd); [|intros i p Hp; by destruct (pure_pair_shape _ _ _ _ _ _ Hp) as [-> _]|by right; left|intros h Hh; by apply Hsets, U2].
      unfold m0. rewrite isset_clear_other, isset_clear by auto. apply orb_false_r.
    + destruct (decide (e_off = w_off)) as [?|_]; [exfalso; eauto|]. destruct (decide (r_off = w_off)) as [?|_]; [exfalso; eauto|].
      by rewrite decide_True by done.
  - rewrite (bits_of_pairs _ (hs_e got)); [|intros m p Hp; rewrite set_bits_spec by (auto || lia)|done].
    + rewrite (Hready e_off (hs_e got) pr_e fd); [|intros i p Hp; by destruct (pure_pair_shape _ _ _ _ _ _ Hp) as [-> _]|by right; right|intros h Hh; by apply Hsets, U3].
      unfold m0. rewrite isset_clear by auto. apply orb_false_r.
    + destruct (decide (w_off = e_off)) as [?|_]; [exfalso; eauto|]. destruct (decide (r_off = e_off)) as [?|_]; [exfalso; eauto|].
      by rewrite decide_True by done.
Qed.
End Call.
End Select.

(** * poll and select at a concrete guest *)

(** Descriptors 3 and 4 of the guest are 40 and 7 on the host; 7 is a regular
    file. *)
Definition poll_world (m : memory) : world :=
  World {[40; 7]} [] (FdCtx (ExecCtx m 65536 0 0 [] [] 0 0 0 64) (<[3%nat := 40]> (<[4%nat := 7]> (replicate 256 (-1)))) (replicate 256 None) [] true).

Definition regular_7 (h : Z) : option file_kind := if h =? 7 then Some Kind_reg else Some Kind_other.

(** A host on which every descriptor that is polled for input has some. *)
Definition answer (a : Z * Z) : Z := if (0 <=? fst a) && Z.testbit (snd a) 0 then 1 else 0.
Definition demo_host_poll (args : list (Z * Z)) (t : Z) : Z * Z * list Z :=
  (Z.of_nat (length (nonzero (map answer args))), 0, map answer args).

Lemma demo_host_poll_ok : host_poll_ok demo_host_poll.
Proof.
  split.
  - intros args t. apply length_map.
  - intros args t i fd ev Hi Hfd. cbn. rewrite list_lookup_fmap, Hi. cbn. unfold answer. cbn [fst snd]. by rewrite (proj2 (Z.leb_gt 0 fd)).
  - done.
  - intros args t H. cbn in H. lia.
Qed.

(** Three slots at 1024: 3 for input, 4 for output, and -1. *)
Definition slots_mem : memory :=
  st16 (st32 (st16 (st32 (st16 (st32 (fun _ => 0) 1024 3) 1028 1) 1032 4) 1036 4) 1040 (-1)) 1044 1.

Lemma demo_poll_args : poll_args (poll_world slots_mem) 1024 3.
Proof. split; [lia|cbn; lia|right; cbn; lia]. Qed.

Lemma poll_reports_witness :
  let '(r, w', call) := yos_poll id id regular_7 (0, 0) demo_host_poll (poll_world slots_mem) 1024 3 500 in
  r = 2 /\ call = Some ([(40, 1); (-1, 4); (-1, 1)], 0) /\ ld16 (mem (f_exec (tab w'))) 1030 = 1 /\ ld16 (mem (f_exec (tab w'))) 1038 = 4.
Proof.
  pose proof (poll_reports id id regular_7 (0, 0) demo_host_poll demo_host_poll_ok (poll_world slots_mem) 1024 3 500 demo_poll_args) as H. cbv zeta in H.
  destruct (yos_poll id id regular_7 (0, 0) demo_host_poll (poll_world slots_mem) 1024 3 500) as [[r w'] call] eqn:E.
  destruct H as [Hc [(_ & _ & Hn & _)|[Hr Hs]]]; [vm_compute in Hn; discriminate|].
  split; [rewrite Hr; vm_compute; reflexivity|]. split; [rewrite Hc; vm_compute; reflexivity|]. split.
  - exact (Hs 0%nat 1 ltac:(vm_compute; reflexivity)).
  - exact (Hs 1%nat 4 ltac:(vm_compute; reflexivity)).
Defined.

(** One slot, descriptor 9, which is not open. *)
Definition bad_mem : memory := st16 (st32 (fun _ => 0) 1024 9) 1028 1.

Lemma poll_bad_descriptors_return_at_once_witness :
  exists w', yos_poll id id regular_7 (0, 0) demo_host_poll (poll_world bad_mem) 1024 1 (-1) = (0, w', None) /\ ld16 (mem (f_exec (tab w'))) 1030 = 0.
Proof.
  destruct (poll_bad_descriptors_return_at_once id id regular_7 (0, 0) demo_host_poll (poll_world bad_mem) 1024 1 (-1)) as (w' & H1 & H2).
  - split; [lia|cbn; lia|right; cbn; lia].
  - intros i Hi. assert (i = 0) as -> by lia. right. vm_compute. reflexivity.
  - exists w'. split; [exact H1|]. exact (H2 0 ltac:(lia)).
Defined.

(** A host on which every requested descriptor is ready. *)
Definition demo_host_select (n : Z) (s : host_sets) (t : option unit) : Z * Z * host_sets := (2, 0, s).

(** Read set at 1024 with 3 and 9 (not open), write set at 2048 with 4. *)
Definition sets_mem : memory := st8 (st8 (st8 (fun _ => 0) 1024 8) 1025 2) 2048 16.

Lemma demo_hfd fd : guest_hfd (tab (poll_world sets_mem)) fd = (if fd =? 3 then 40 else if fd =? 4 then 7 else -1).
Proof.
  unfold guest_hfd, slot_fd, YOS_FD_MAX. destruct (Z.leb_spec 0 fd) as [H0|H0]; cbn [andb].
  2:{ rewrite !(proj2 (Z.eqb_neq fd _)) by lia. done. }
  destruct (Z.ltb_spec fd 256) as [H1|H1]; cbn [andb].
  2:{ rewrite !(proj2 (Z.eqb_neq fd _)) by lia. done. }
  cbn [tab poll_world fds]. destruct (Z.eqb_spec fd 3) as [->|]; [done|]. destruct (Z.eqb_spec fd 4) as [->|]; [done|].
  rewrite !list_lookup_insert_ne by lia. rewrite lookup_replicate_2 by lia. done.
Qed.

Lemma select_reports_witness :
  exists w', yos_select id id (fun _ _ => tt) demo_host_select (poll_world sets_mem) 10 1024 2048 0 0 = Some (2, w') /\
    wfds_isset (mem (f_exec (tab w'))) 1024 3 = true /\ wfds_isset (mem (f_exec (tab w'))) 1024 9 = false /\
    wfds_isset (mem (f_exec (tab w'))) 2048 4 = true.
Proof.
  destruct (select_reports id id (fun _ _ => tt) demo_host_select) with (w := poll_world sets_mem) (nfds := 10) (r_off := 1024) (w_off := 2048) (e_off := 0) (to_off := 0)
    as (n & s & m & r & w' & E & Qr & Qw & _ & _ & _ & _ & H).
  - intros k sets t. cbn. by split_and!.
  - split; [lia|reflexivity|unfold apart; lia|unfold spares_errno; cbn; lia| |].
    + intros fd. rewrite demo_hfd. unfold FD_SETSIZE. destruct (fd =? 3), (fd =? 4); lia.
    + intros a b. rewrite !demo_hfd. destruct (Z.eqb_spec a 3), (Z.eqb_spec b 3), (Z.eqb_spec a 4), (Z.eqb_spec b 4); lia.
  - unfold demo_host_select in H. change (2 <? 0) with false in H. cbv beta iota zeta in H. destruct H as [-> H]. exists w'. split; [exact E|].
    destruct (H 3 ltac:(lia)) as (H3 & _). destruct (H 9 ltac:(lia)) as (H9 & _). destruct (H 4 ltac:(lia)) as (_ & H4 & _).
    rewrite H3, H9, H4 by lia. unfold ready.
    assert (R3 : 40 ∈ hs_r s) by (apply Qr; exists 3; split_and!; [lia|lia|reflexivity|reflexivity|lia]).
    assert (R4 : 7 ∈ hs_w s) by (apply Qw; exists 4; split_and!; [lia|lia|reflexivity|reflexivity|lia]).
    rewrite (bool_decide_eq_true_2 (guest_hfd (tab (poll_world sets_mem)) 3 ∈ hs_r s)), (bool_decide_eq_true_2 (guest_hfd (tab (poll_world sets_mem)) 4 ∈ hs_w s))
      by (rewrite demo_hfd; assumption).
    split_and!; vm_compute; reflexivity.
Defined.
