(* ===== verification/Random.v ===== *)
(** Random bytes and numbers for a guest (src/src/yos/impl/libc/random.c): every
    one comes from the host's getentropy.

    [getentropy n h]: the errno of the answer, 0 on success, the bytes it
    wrote, and the host afterwards. *)
From stdpp Require Import list.
From S2P Require Import Prelude Memory Ctx CString.

(** [wptr_range]: whether a run of linear memory may be used; an empty one may
    also start at 0 and at the end. *)
Definition range_ok (c : exec_ctx) (off len : Z) : bool :=
  if len =? 0 then off <=? memory_size c
  else negb (off =? 0) && (off <? memory_size c) && (off + len <=? memory_size c).

Section Random.
Context {H : Type}.
Variable remap_errno_h2g : Z -> Z.
Variable getentropy : Z -> H -> Z * bytes * H.

Definition yos_getentropy (buf_off len : Z) (c : exec_ctx) (h : H) : Z * exec_ctx * H :=
  if 256 <? len then (errno_neg remap_errno_h2g c EINVAL, h)
  else if negb (range_ok c buf_off len) then (errno_neg remap_errno_h2g c EFAULT, h)
  else if len =? 0 then (0, c, h)
  else
    let '(e, bs, h1) := getentropy len h in
    (errno_check remap_errno_h2g (set_mem (write_bytes (mem c) buf_off bs) c) (if e =? 0 then 0 else -1) e, h1).

(** At most [fuel] rounds of the loop. *)
Fixpoint fill (fuel : nat) (p len : Z) (m : memory) (h : H) : memory * H :=
  match fuel with
  | O => (m, h)
  | S f =>
      if len <=? 0 then (m, h)
      else
        let n := if 256 <? len then 256 else len in
        let '(e, bs, h1) := getentropy n h in
        let m1 := write_bytes m p bs in
        if negb (e =? 0) then (m1, h1) else fill f (p + n) (len - n) m1 h1
  end.

Definition yos_arc4random_buf (buf_off len : Z) (c : exec_ctx) (h : H) : exec_ctx * H :=
  if len =? 0 then (c, h)
  else if negb (range_ok c buf_off len) then (c, h)
  else let '(m, h1) := fill (Z.to_nat ((len + 255) / 256)) buf_off len (mem c) h in (set_mem m c, h1).

(** The 32-bit number whose bytes were written over [v]. *)
Definition number (v : Z) (bs : bytes) : Z := ld32 (write_bytes (st32 (fun _ => 0) 0 v) 0 bs) 0.

Definition yos_arc4random (h : H) : Z * H :=
  let '(_, bs, h1) := getentropy 4 h in (number 0 bs, h1).

(** The numbers below it are drawn again. *)
Definition threshold (upper : Z) : Z := (4294967296 - upper) mod upper.

(** At most [fuel] draws; [r0]: what is on the stack before the first. *)
Fixpoint draw (fuel : nat) (upper r0 : Z) (h : H) : option (Z * H) :=
  match fuel with
  | O => None
  | S f =>
      let '(e, bs, h1) := getentropy 4 h in
      if negb (e =? 0) then Some (0, h1)
      else let r := number r0 bs in
           if r <? threshold upper then draw f upper r h1 else Some (r mod upper, h1)
  end.

Definition yos_arc4random_uniform (fuel : nat) (upper r0 : Z) (h : H) : option (Z * H) :=
  if upper <? 2 then Some (0, h) else draw fuel upper r0 h.
End Random.

(** * Properties *)

Lemma range_ok_nonzero c off len : 0 < len -> 0 <= off -> range_ok c off len = true -> 0 < off /\ off + len <= memory_size c.
Proof.
  intros Hl Ho. unfold range_ok. rewrite (proj2 (Z.eqb_neq len 0)) by lia. rewrite !andb_true_iff, negb_true_iff, Z.eqb_neq, Z.leb_le. lia.
Qed.

(** * Bounded numbers *)

Lemma threshold_spec upper : 2 <= upper < 4294967296 ->
  0 <= threshold upper < 2147483648 /\ threshold upper < upper /\ exists q, 4294967296 - threshold upper = q * upper /\ 0 < q.
Proof.
  intros Hu. unfold threshold. pose proof (Z.mod_pos_bound (4294967296 - upper) upper ltac:(lia)) as Hb.
  pose proof (Z.div_mod (4294967296 - upper) upper ltac:(lia)) as Hd.
  assert (Hq : 0 <= (4294967296 - upper) / upper) by (apply Z.div_pos; lia).
  split_and!; [lia| |lia|].
  - destruct (Z.le_gt_cases upper 2147483648); [lia|]. rewrite Z.mod_small by lia. lia.
  - exists (1 + (4294967296 - upper) / upper). split; [|lia]. rewrite Z.mul_add_distr_r. lia.
Qed.

(** In a run of [u] consecutive numbers every residue occurs once. *)
Lemma one_residue u v m : 0 <= v < u -> length (filter (fun r => r mod u = v) (seqZ m u)) = 1%nat.
Proof.
  intros Hv. set (r0 := m + (v - m) mod u). pose proof (Z.mod_pos_bound (v - m) u ltac:(lia)) as Hb.
  assert (Hr : forall r, m <= r < m + u -> (r mod u = v <-> r = r0)).
  { intros r Hr. split.
    - intros E. unfold r0. replace (v - m) with (r - m + (- (r / u)) * u) by (pose proof (Z.div_mod r u ltac:(lia)); lia).
      rewrite Z.mod_add by lia. rewrite Z.mod_small by lia. lia.
    - intros ->. unfold r0. rewrite Z.add_mod_idemp_r by lia. replace (m + (v - m)) with v by lia. by apply Z.mod_small. }
  assert (P : filter (fun r => r mod u = v) (seqZ m u) ≡ₚ [r0]).
  { apply NoDup_Permutation; [apply NoDup_filter, NoDup_seqZ|apply NoDup_singleton|]. intros r.
    rewrite list_elem_of_filter, elem_of_seqZ, list_elem_of_singleton. split; [intros [E Hin]; by apply Hr in E|].
    intros ->. assert (m <= r0 < m + u) by (unfold r0; lia). split; [|lia]. by apply Hr. }
  by rewrite P.
Qed.

Lemma residue_count u v : 0 <= v < u -> forall q m, length (filter (fun r => r mod u = v) (seqZ m (Z.of_nat q * u))) = q.
Proof.
  intros Hv. induction q as [|q IH]; intros m; [done|].
  replace (Z.of_nat (S q) * u) with (u + Z.of_nat q * u) by lia. rewrite seqZ_app by nia. rewrite filter_app, length_app, IH, one_residue by done. lia.
Qed.

(** A host that hands out the numbers of a tape, and all tapes of [k] numbers. *)
Definition word_bytes (r : Z) : bytes := [r mod 256; r / 256 mod 256; r / 65536 mod 256; r / 16777216 mod 256].
Definition tape (n : Z) (l : list Z) : Z * bytes * list Z := match l with [] => (5, [], []) | r :: l' => (0, word_bytes r, l') end.
Definition words : list Z := seqZ 0 4294967296.
Fixpoint tapes (k : nat) : list (list Z) := match k with O => [[]] | S j => flat_map (fun r => map (cons r) (tapes j)) words end.

(** On how many of them [k] draws yield [x]; [None]: they do not suffice. *)
Definition ways (k : nat) (upper r0 : Z) (x : option Z) : nat :=
  length (filter (fun l => fst <$> yos_arc4random_uniform tape k upper r0 l = x) (tapes k)).

Lemma elem_of_words r : r ∈ words <-> 0 <= r < 4294967296.
Proof. unfold words. rewrite elem_of_seqZ. lia. Qed.

Lemma length_words : Z.of_nat (length words) = 4294967296.
Proof. unfold words. rewrite length_seqZ. apply Z2Nat.id. lia. Qed.

Lemma number_word v r : 0 <= r < 4294967296 -> number v (word_bytes r) = r.
Proof.
  intros Hr. unfold number. set (m := st32 _ 0 v).
  assert (E : ld32 (write_bytes m 0 (word_bytes r)) 0 =
    u8 (u8 (r mod 256)) + 256 * u8 (u8 (r / 256 mod 256)) + 65536 * u8 (u8 (r / 65536 mod 256)) + 16777216 * u8 (u8 (r / 16777216 mod 256))) by reflexivity.
  rewrite E. unfold u8. rewrite !Z.mod_mod by lia. mlia.
Qed.

Lemma length_filter_flat_map {A B} (P : B -> Prop) `{forall x, Decision (P x)} (f : A -> list B) l :
  length (filter P (flat_map f l)) = sum_list_with (fun a => length (filter P (f a))) l.
Proof. induction l as [|a l IH]; [done|]. cbn [flat_map sum_list_with]. by rewrite filter_app, length_app, IH. Qed.

Lemma length_filter_map {A B} (P : B -> Prop) `{forall x, Decision (P x)} (f : A -> B) l :
  length (filter P (map f l)) = length (filter (fun a => P (f a)) l).
Proof. induction l as [|a l IH]; [done|]. cbn [map]. rewrite !filter_cons. destruct (decide (P (f a))); cbn; by rewrite IH. Qed.

Lemma sum_const {A} (f : A -> nat) n l : (forall a, a ∈ l -> f a = n) -> sum_list_with f l = (length l * n)%nat.
Proof. induction l as [|a l IH]; intros H; [done|]. cbn [sum_list_with length]. rewrite (H a) by (by left). rewrite IH; [lia|]. intros x Hx. apply H. by right. Qed.

Lemma sum_indicator {A} (P : A -> Prop) `{forall x, Decision (P x)} (f : A -> nat) n l :
  (forall a, a ∈ l -> f a = if decide (P a) then n else 0%nat) -> sum_list_with f l = (length (filter P l) * n)%nat.
Proof.
  induction l as [|a l IH]; intros Hf; [done|]. cbn [sum_list_with]. rewrite (Hf a) by (by left). rewrite IH by (intros x Hx; apply Hf; by right).
  rewrite filter_cons. destruct (decide (P a)); cbn [length]; lia.
Qed.

Lemma length_tapes k : length (tapes (S k)) = (length words * length (tapes k))%nat.
Proof.
  cbn [tapes]. generalize words as l. induction l as [|r l IH]; [done|]. cbn [flat_map length]. rewrite length_app, length_map, IH. lia.
Qed.

(** The draws that one word starts. *)
Lemma ways_word k upper r0 x r : 2 <= upper < 4294967296 -> r ∈ words ->
  length (filter (fun l => fst <$> yos_arc4random_uniform tape (S k) upper r0 l = x) (map (cons r) (tapes k))) =
  if r <? threshold upper then ways k upper r x else if decide (Some (r mod upper) = x) then length (tapes k) else 0%nat.
Proof.
  intros Hu Hr. apply elem_of_words in Hr. rewrite length_filter_map. unfold yos_arc4random_uniform, ways, yos_arc4random_uniform.
  rewrite (proj2 (Z.ltb_ge upper 2)) by lia. cbn [draw tape]. rewrite Z.eqb_refl. cbn [negb]. rewrite number_word by lia.
  destruct (r <? threshold upper); [done|]. cbn [fmap option_fmap option_map fst]. destruct (decide (Some (r mod upper) = x)) as [E|E].
  - rewrite filter_all; [done|]. by intros l _.
  - rewrite filter_none; [done|]. apply Forall_forall. by intros l _.
Qed.

Lemma words_split upper : 2 <= upper < 4294967296 -> words = seqZ 0 (threshold upper) ++ seqZ (threshold upper) (4294967296 - threshold upper).
Proof. intros Hu. destruct (threshold_spec upper Hu) as (Ht & _). unfold words. replace 4294967296 with (threshold upper + (4294967296 - threshold upper)) at 1 by lia. rewrite seqZ_app by lia. done. Qed.

Lemma ways_step k upper r0 x N : 2 <= upper < 4294967296 ->
  (forall r, r ∈ words -> ways k upper r x = N) ->
  ways (S k) upper r0 x =
  (Z.to_nat (threshold upper) * N +
   length (filter (fun r => Some (r mod upper)%Z = x) (seqZ (threshold upper) (4294967296 - threshold upper)%Z)) * length (tapes k))%nat.
Proof.
  intros Hu HN. destruct (threshold_spec upper Hu) as (Ht & _). unfold ways at 1. cbn [tapes]. rewrite length_filter_flat_map.
  rewrite (words_split upper Hu), sum_list_with_app. f_equal.
  - rewrite (sum_const _ N); [by rewrite length_seqZ|]. intros r Hr%elem_of_seqZ.
    assert (Hw : r ∈ words) by (apply elem_of_words; lia). rewrite ways_word by done. rewrite (proj2 (Z.ltb_lt r _)) by lia. by apply HN.
  - apply sum_indicator. intros r Hr%elem_of_seqZ. rewrite ways_word by (done || (apply elem_of_words; lia)). by rewrite (proj2 (Z.ltb_ge r _)) by lia.
Qed.

Lemma ways_0 upper r0 x : 2 <= upper -> ways 0 upper r0 x = if decide (x = None) then 1%nat else 0%nat.
Proof.
  intros Hu. unfold ways, yos_arc4random_uniform. rewrite (proj2 (Z.ltb_ge upper 2)) by lia. cbn [tapes draw]. rewrite filter_cons.
  destruct (decide (x = None)) as [->|Hx]; [by rewrite decide_True|]. rewrite decide_False; [done|]. intros E. by apply Hx.
Qed.

(** The ways to a value below the bound, by the number of accepted words that
    have it as their residue. *)
Fixpoint value_ways (q : nat) (t : nat) (k : nat) : nat :=
  match k with O => 0%nat | S j => (t * value_ways q t j + q * length (tapes j))%nat end.

Lemma ways_value upper v k : 2 <= upper < 4294967296 -> 0 <= v < upper -> forall r0,
  ways k upper r0 (Some v) = value_ways (Z.to_nat ((4294967296 - threshold upper) / upper)) (Z.to_nat (threshold upper)) k.
Proof.
  intros Hu Hv. destruct (threshold_spec upper Hu) as (_ & _ & q & Hq & Hp). rewrite Hq, Z.div_mul by lia.
  induction k as [|k IH]; intros r0; [by rewrite ways_0 by lia|]. cbn [value_ways]. rewrite (ways_step k upper r0 _ _ Hu (fun r _ => IH r)).
  f_equal. f_equal. rewrite Hq. rewrite (list_filter_iff _ (fun r => r mod upper = v)) by (intros; split; congruence).
  replace (q * upper) with (Z.of_nat (Z.to_nat q) * upper) by lia. by apply residue_count.
Qed.

Lemma ways_other upper v k : 2 <= upper < 4294967296 -> ~ (0 <= v < upper) -> forall r0, ways k upper r0 (Some v) = 0%nat.
Proof.
  intros Hu Hv. induction k as [|k IH]; intros r0; [by rewrite ways_0 by lia|]. rewrite (ways_step k upper r0 _ _ Hu (fun r _ => IH r)).
  rewrite filter_none; [cbn [length]; lia|]. apply Forall_forall. intros r _ [= E]. pose proof (Z.mod_pos_bound r upper). lia.
Qed.

Lemma ways_none upper k : 2 <= upper < 4294967296 -> forall r0, ways k upper r0 None = (Z.to_nat (threshold upper) ^ k)%nat.
Proof.
  intros Hu. induction k as [|k IH]; intros r0; [by rewrite ways_0 by lia|]. rewrite (ways_step k upper r0 _ _ Hu (fun r _ => IH r)).
  rewrite filter_none by (by apply Forall_forall). cbn [length Nat.pow]. lia.
Qed.

Lemma value_ways_pos q t k : (0 < q)%nat -> (0 < k)%nat -> (0 < value_ways q t k)%nat.
Proof.
  intros Hq Hk. destruct k as [|k]; [lia|]. cbn [value_ways]. assert (Hl : (0 < length (tapes k))%nat); [|nia].
  clear Hk. induction k as [|k IH]; [cbn; lia|]. rewrite length_tapes. pose proof length_words. nia.
Qed.

(** C40: arc4random_uniform has no bias, however many draws it is given: over all
    sequences of [k] 32-bit numbers that the host may hand out, every value below
    the bound is returned for exactly as many as every other, and for some; no
    other value is ever returned; and fewer than one sequence in 2^k needs more
    than [k] draws. *)
Theorem arc4random_uniform_unbiased upper k r0 v w :
  2 <= upper < 4294967296 -> 0 <= v < upper -> 0 <= w < upper -> (0 < k)%nat ->
  ways k upper r0 (Some v) = ways k upper r0 (Some w) /\ (0 < ways k upper r0 (Some v))%nat /\
  (forall x, ~ (0 <= x < upper) -> ways k upper r0 (Some x) = 0%nat) /\
  Z.of_nat (ways k upper r0 None) * 2 ^ Z.of_nat k < Z.of_nat (length (tapes k)).
Proof.
  intros Hu Hv Hw Hk. destruct (threshold_spec upper Hu) as (Ht & _ & q & Hq & Hp). rewrite !ways_value by done. split_and!; [done| | |].
  - apply value_ways_pos; [|done]. rewrite Hq, Z.div_mul by lia. lia.
  - intros x Hx. by apply ways_other.
  - rewrite ways_none by done. rewrite Nat2Z.inj_pow, Z2Nat.id by lia.
    assert (El : Z.of_nat (length (tapes k)) = 4294967296 ^ Z.of_nat k).
    { clear. induction k as [|k IH]; [reflexivity|]. rewrite length_tapes, Nat2Z.inj_mul, IH, Nat2Z.inj_succ, Z.pow_succ_r by lia. by rewrite length_words. }
    rewrite El, <- Z.pow_mul_l. apply Z.pow_lt_mono_l; lia.
Qed.

(** * The bytes of a buffer *)

Section Props.
Context {H : Type}.
Variable getentropy : Z -> H -> Z * bytes * H.

(** getentropy(3): on success all the bytes are written, never more. *)
Hypothesis entropy_length : forall n h, 0 <= n -> let '(e, bs, _) := getentropy n h in blen bs <= n /\ (e = 0 -> blen bs = n /\ Forall (fun b => 0 <= b < 256) bs).

(** The answers of getentropy to the requests of a run of [len] bytes, as long
    as they succeed. *)
Fixpoint entropy (fuel : nat) (len : Z) (h : H) : bytes :=
  match fuel with
  | O => []
  | S f =>
      if len <=? 0 then []
      else
        let n := if 256 <? len then 256 else len in
        let '(e, bs, h1) := getentropy n h in
        if negb (e =? 0) then bs else bs ++ entropy f (len - n) h1
  end.

(** Whether all of them do. *)
Fixpoint all_succeed (fuel : nat) (len : Z) (h : H) : Prop :=
  match fuel with
  | O => len <= 0
  | S f =>
      len <= 0 \/
      let n := if 256 <? len then 256 else len in
      let '(e, _, h1) := getentropy n h in e = 0 /\ all_succeed f (len - n) h1
  end.

Lemma random_fill_spec fuel : forall p len m h, 0 <= len <= 256 * Z.of_nat fuel ->
  let m' := fst (fill getentropy fuel p len m h) in
  (forall lo hi, hi <= p \/ p + len <= lo -> agree_on lo hi m m') /\
  (all_succeed fuel len h -> read_bytes m' p len = entropy fuel len h).
Proof using entropy_length.
  induction fuel as [|f IH]; intros p len m h Hlen; cbn zeta.
  { assert (len = 0) as -> by lia. split; [intros; apply agree_on_refl|done]. }
  cbn [fill entropy all_succeed]. destruct (Z.leb_spec len 0) as [Hz|Hz].
  { assert (len = 0) as -> by lia. split; [intros; apply agree_on_refl|by rewrite read_bytes_0]. }
  set (n := if 256 <? len then 256 else len). assert (Hn : 0 < n <= len /\ len - n <= 256 * Z.of_nat f) by (unfold n; destruct (Z.ltb_spec 256 len); lia).
  pose proof (entropy_length n h ltac:(lia)) as He. destruct (getentropy n h) as [[e bs] h1]. destruct He as [Hle Hok].
  destruct (IH (p + n) (len - n) (write_bytes m p bs) h1 ltac:(lia)) as [Hf Hr].
  assert (Hw : forall lo hi, hi <= p \/ p + len <= lo -> agree_on lo hi m (write_bytes m p bs)) by (intros lo hi Hlh; apply write_bytes_frame; lia).
  destruct (Z.eqb_spec e 0) as [->|Hne]; cbn [negb fst].
  2:{ split; [done|]. intros [Hneg|[H0 _]]; [lia|done]. }
  destruct (Hok eq_refl) as [Hbl Hby]. split.
  - intros lo hi Hlh. eapply agree_on_trans; [by apply Hw|]. apply Hf. lia.
  - intros [Hneg|[_ Hall]]; [lia|]. replace len with (n + (len - n)) at 2 by lia. rewrite read_bytes_app by lia. rewrite (Hr Hall). f_equal.
    rewrite (read_bytes_agree (write_bytes m p bs)).
    + rewrite <- Hbl. by apply read_bytes_write.
    + intros a Ha. apply (Hf p (p + n)); lia.
Qed.

Lemma entropy_full fuel : forall len h, 0 <= len <= 256 * Z.of_nat fuel -> all_succeed fuel len h -> blen (entropy fuel len h) = len.
Proof using entropy_length.
  induction fuel as [|f IH]; intros len h Hlen; cbn [entropy all_succeed].
  { intros _. unfold blen. cbn. lia. }
  destruct (Z.leb_spec len 0) as [Hz|Hz]; [intros _; unfold blen; cbn; lia|]. intros [Hneg|Hall]; [lia|].
  set (n := if 256 <? len then 256 else len) in *. assert (Hn : 0 < n <= len /\ len - n <= 256 * Z.of_nat f) by (unfold n; destruct (Z.ltb_spec 256 len); lia).
  pose proof (entropy_length n h ltac:(lia)) as He. destruct (getentropy n h) as [[e bs] h1]. destruct He as [_ Hok]. destruct Hall as [-> Hall].
  destruct (Hok eq_refl) as [Hbl _]. cbn [negb]. rewrite Z.eqb_refl. cbn [negb]. rewrite blen_app, Hbl, (IH (len - n) h1); [lia|lia|done].
Qed.

(** arc4random_buf leaves exactly the buffer's bytes in the buffer, all of
    them from getentropy, in requests of at most 256 bytes; a buffer that does
    not lie in linear memory, and the bytes around it, are not touched. *)
Theorem arc4random_buf_fills off len c h :
  0 <= off -> 0 <= len < 4294967296 ->
  let '(c', _) := yos_arc4random_buf getentropy off len c h in
  let rounds := Z.to_nat ((len + 255) / 256) in
  (forall lo hi, hi <= off \/ off + len <= lo -> agree_on lo hi (mem c) (mem c')) /\
  (range_ok c off len = false -> c' = c) /\
  (range_ok c off len = true -> all_succeed rounds len h -> read_bytes (mem c') off len = entropy rounds len h /\ blen (entropy rounds len h) = len).
Proof using entropy_length.
  intros Ho Hl. unfold yos_arc4random_buf. assert (Hf : 0 <= len <= 256 * Z.of_nat (Z.to_nat ((len + 255) / 256))) by mlia.
  destruct (Z.eqb_spec len 0) as [->|Hne].
  { split_and!; [intros; apply agree_on_refl|done|]. intros _ _. split; [by rewrite read_bytes_0|done]. }
  destruct (range_ok c off len); cbn [negb].
  2:{ split_and!; [intros; apply agree_on_refl|done|done]. }
  destruct (random_fill_spec _ off len (mem c) h Hf) as [Hfr Hrd]. destruct (fill _ _ _ _ _ _) as [m h1]. cbn [fst] in *.
  split_and!; [exact Hfr|done|]. intros _ Hall. split; [by apply Hrd|by apply entropy_full].
Qed.

(** The number that the [k]-th request of four bytes yields, or [None] when it
    fails. *)
Fixpoint drawn (k : nat) (r0 : Z) (h : H) : option Z :=
  let '(e, bs, h1) := getentropy 4 h in
  if negb (e =? 0) then None
  else match k with O => Some (number r0 bs) | S j => drawn j (number r0 bs) h1 end.

(** arc4random_uniform returns as soon as a draw reaches the threshold, with
    a value below its bound; a bound of 0 or 1 yields 0 without a draw. *)
Theorem arc4random_uniform_returns upper r0 h k r :
  0 <= upper < 4294967296 ->
  (forall j, (j < k)%nat -> exists x, drawn j r0 h = Some x /\ x < threshold upper) -> drawn k r0 h = Some r -> threshold upper <= r ->
  exists h', yos_arc4random_uniform getentropy (S k) upper r0 h = Some (if upper <? 2 then 0 else r mod upper, h') /\
    (2 <= upper -> 0 <= r mod upper < upper).
Proof using Type.
  clear entropy_length.
  intros Hu. unfold yos_arc4random_uniform. destruct (Z.ltb_spec upper 2) as [|Hge]; [intros; eexists; split; [done|lia]|].
  revert r0 h. induction k as [|k IH]; intros r0 h Hj Hk Hr.
  - cbn in *. destruct (getentropy 4 h) as [[e bs] h1]. destruct (negb (e =? 0)); [done|]. injection Hk as ->.
    rewrite (proj2 (Z.ltb_ge r _)) by done. eexists. split; [done|]. intros _. apply Z.mod_pos_bound. lia.
  - cbn [drawn] in Hk. change (draw getentropy (S (S k)) upper r0 h) with
      (let '(e, bs, h1) := getentropy 4 h in if negb (e =? 0) then Some (0, h1) else
       let r1 := number r0 bs in if r1 <? threshold upper then draw getentropy (S k) upper r1 h1 else Some (r1 mod upper, h1)).
    destruct (Hj 0%nat ltac:(lia)) as (x & Hx & Hlt). cbn in Hx.
    assert (Hj' : forall j, (j < k)%nat -> exists x, drawn (S j) r0 h = Some x /\ x < threshold upper) by (intros j Hlj; apply Hj; lia).
    cbn [drawn] in Hj'. destruct (getentropy 4 h) as [[e bs] h1]. destruct (negb (e =? 0)); [done|]. injection Hx as <-. cbn zeta.
    rewrite (proj2 (Z.ltb_lt (number r0 bs) _)) by done. by apply IH.
Qed.
End Props.

(** * A host that counts *)

(** Byte after byte 250, 251, ...; the state is the next one. *)
Definition counting (n h : Z) : Z * bytes * Z := (0, map (fun i => (h + i) mod 256) (seqZ 0 n), h + n).

Lemma counting_length n h : 0 <= n -> let '(e, bs, _) := counting n h in blen bs <= n /\ (e = 0 -> blen bs = n /\ Forall (fun b => 0 <= b < 256) bs).
Proof.
  intros Hn. cbn. unfold blen. rewrite length_map, length_seqZ. split; [lia|]. intros _. split; [lia|].
  apply Forall_map, Forall_forall. intros x _. cbn. apply Z.mod_pos_bound. lia.
Qed.

Lemma arc4random_buf_fills_witness :
  let c := ExecCtx (fun _ => 0) 65536 0 0 [] [] 0 0 0 64 in
  let '(c', _) := yos_arc4random_buf counting 1024 600 c 0 in
  blen (read_bytes (mem c') 1024 600) = 600 /\ ld8 (mem c') (1024 + 300) = 44 /\ ld8 (mem c') (1024 + 600) = 0.
Proof.
  set (c := ExecCtx (fun _ => 0) 65536 0 0 [] [] 0 0 0 64). cbv zeta.
  pose proof (arc4random_buf_fills counting counting_length 1024 600 c 0 ltac:(lia) ltac:(lia)) as T.
  destruct (yos_arc4random_buf counting 1024 600 c 0) as [c' h'] eqn:E. cbv zeta in T. destruct T as (_ & _ & T).
  assert (A : all_succeed counting (Z.to_nat ((600 + 255) / 256)) 600 0) by (vm_compute; repeat (right; split; [reflexivity|]); first [left; discriminate|discriminate]).
  destruct (T eq_refl A) as [R L]. split; [by rewrite R|].
  assert (E2 : mem c' = mem (fst (yos_arc4random_buf counting 1024 600 c 0))) by (by rewrite E).
  rewrite E2. split; vm_compute; reflexivity.
Defined.

Lemma arc4random_uniform_unbiased_witness : ways 3 6 0 (Some 0) = ways 3 6 0 (Some 5).
Proof. destruct (arc4random_uniform_unbiased 6 3 0 0 5) as (E & _); [lia|lia|lia|lia|exact E]. Defined.

(** The first draw is 3, the others 263. *)
Definition two_draws (n h : Z) : Z * bytes * Z := (0, if h =? 0 then [3; 0; 0; 0] else [7; 1; 0; 0], h + 1).

Lemma arc4random_uniform_returns_witness :
  threshold 10 = 6 /\ exists h', yos_arc4random_uniform two_draws 2 10 0 0 = Some (3, h').
Proof.
  split; [reflexivity|]. destruct (arc4random_uniform_returns two_draws 10 0 0 1 263) as (h' & H & _).
  - lia.
  - intros j Hj. assert (j = 0%nat) as -> by lia. exists 3. split; [vm_compute; reflexivity|vm_compute; reflexivity].
  - vm_compute. reflexivity.
  - vm_compute. discriminate.
  - exists h'. exact H.
Defined.
