(* ===== verification/Termios.v ===== *)
(** Terminal attributes: the translation between the 44 bytes of a FreeBSD
    [struct termios] in linear memory and the host's structure
    (src/src/yos/impl/libc/posix-linux.c), cfmakeraw, the speeds and the
    attributes of an emulated terminal (src/src/yos/impl/libc/posix.c).  The
    numbers of the host are those of Linux.  glibc's functions for the speed are
    parameters. *)
From stdpp Require Import strings.
From S2P Require Import Prelude Memory Ctx CString Random.

Definition TERMIOS_SIZE : Z := 44.
Definition NCCS : Z := 32.

(** The host's structure. *)
Record termios : Type := Termios {
  c_iflag : Z; c_oflag : Z; c_cflag : Z; c_lflag : Z; c_cc : list Z; c_ispeed : Z; c_ospeed : Z
}.

(** * Flag words *)

(** Pairs of a FreeBSD and a Linux flag. *)
Definition iflag_map : list (Z * Z) :=
  [(1, 1); (2, 2); (4, 4); (8, 8); (16, 16); (32, 32); (64, 64); (128, 128); (256, 256); (512, 1024); (1024, 4096); (2048, 2048); (8192, 8192)].
Definition oflag_map : list (Z * Z) := [(1, 1); (2, 4); (4, 32); (8, 16); (16, 8); (32, 64); (64, 128)].
Definition cflag_map : list (Z * Z) :=
  [(256, 16); (512, 32); (768, 48); (1024, 64); (2048, 128); (4096, 256); (8192, 512); (16384, 1024); (32768, 2048)].
Definition lflag_map : list (Z * Z) :=
  [(1, 2048); (2, 16); (4, 32); (8, 8); (16, 64); (32, 1024); (64, 512); (128, 1); (256, 2); (1024, 32768); (2048, 65536);
   (4194304, 256); (8388608, 4096); (536870912, 16384); (2147483648, 128)].

Definition map_flags (v : Z) (m : list (Z * Z)) (fb_to_lx : bool) : Z :=
  foldl (fun r p =>
           let src := if fb_to_lx then fst p else snd p in
           let dst := if fb_to_lx then snd p else fst p in
           if Z.land v src =? 0 then r else Z.lor r dst) 0 m.

(** * Control characters *)

Definition cc_table : list (Z * Z) :=
  [(0, 4); (1, 11); (2, 16); (3, 2); (4, 14); (5, 3); (6, 12); (8, 0); (9, 1); (10, 10); (12, 8); (13, 9); (14, 15); (15, 13); (16, 6); (17, 5)].

Definition cc_fb_to_lx (fb_idx : Z) : Z :=
  match list_find (fun p => fst p = fb_idx) cc_table with Some (_, (_, l)) => l | None => -1 end.

Definition cc_known (i : Z) : bool := (0 <=? cc_fb_to_lx i) && (cc_fb_to_lx i <? NCCS).

(** The two loops over the 20 characters; [cc i]: the guest's. *)
Definition cc_to_host (cc : Z -> Z) (host : list Z) : list Z :=
  foldl (fun h i => if cc_known i then <[Z.to_nat (cc_fb_to_lx i) := cc i]> h else h) host (seqZ 0 20).
Definition cc_to_guest (m : memory) (cc : Z) (host : list Z) : memory :=
  foldl (fun m i => if cc_known i then st8 m (cc + i) (nth (Z.to_nat (cc_fb_to_lx i)) host 0) else m) m (seqZ 0 20).

(** * The structure *)

Section Speed.
Variable cfsetispeed cfsetospeed : Z -> termios -> termios.
Variable cfgetispeed cfgetospeed : termios -> Z.

Definition termios_fb_to_lx (m : memory) (w : Z) : termios :=
  let h := Termios (map_flags (ld32 m w) iflag_map true) (map_flags (ld32 m (w + 4)) oflag_map true)
                   (map_flags (ld32 m (w + 8)) cflag_map true) (map_flags (ld32 m (w + 12)) lflag_map true)
                   (cc_to_host (fun i => ld8 m (w + 16 + i)) (replicate 32 0)) 0 0 in
  cfsetospeed (ld32 m (w + 40)) (cfsetispeed (ld32 m (w + 36)) h).

Definition termios_lx_to_fb (m : memory) (w : Z) (h : termios) : memory :=
  let m := memset m w 0 TERMIOS_SIZE in
  let m := st32 m w (map_flags (c_iflag h) iflag_map false) in
  let m := st32 m (w + 4) (map_flags (c_oflag h) oflag_map false) in
  let m := st32 m (w + 8) (map_flags (c_cflag h) cflag_map false) in
  let m := st32 m (w + 12) (map_flags (c_lflag h) lflag_map false) in
  let m := cc_to_guest m (w + 16) (c_cc h) in
  let m := st32 m (w + 36) (cfgetispeed h) in
  st32 m (w + 40) (cfgetospeed h).

(** What an emulated terminal reports before its first tcsetattr; 15 is B38400. *)
Definition fake_pty_termios_defaults : termios :=
  let cc := <[5%nat := 0]> (<[6%nat := 1]> (<[10%nat := 26]> (<[9%nat := 19]> (<[8%nat := 17]> (<[4%nat := 4]>
            (<[3%nat := 21]> (<[2%nat := 127]> (<[1%nat := 28]> (<[0%nat := 3]> (replicate 32 0)))))))))) in
  let iflag := Z.lor (Z.lor 256 1024) 2 in
  let oflag := Z.lor 1 4 in
  let cflag := Z.lor (Z.lor 48 128) 1024 in
  let lflag := Z.lor (Z.lor (Z.lor (Z.lor (Z.lor (Z.lor 8 16) 32) 64) 2) 1) 32768 in
  cfsetospeed 15 (cfsetispeed 15 (Termios iflag oflag cflag lflag cc 0 0)).
End Speed.

(** * The guest's structure *)

Definition yos_cfmakeraw (c : exec_ctx) (t_off : Z) : exec_ctx :=
  if range_ok c t_off TERMIOS_SIZE then
    let m := mem c in
    let iflag := Z.land (ld32 m t_off) (Z.lnot 1003) in
    let oflag := Z.land (ld32 m (t_off + 4)) (Z.lnot 1) in
    let lflag := Z.land (ld32 m (t_off + 12)) (Z.lnot 1432) in
    let cflag := Z.lor (Z.land (ld32 m (t_off + 8)) (Z.lnot 4864)) 768 in
    let m := st32 (st32 (st32 (st32 m t_off iflag) (t_off + 4) oflag) (t_off + 8) cflag) (t_off + 12) lflag in
    set_mem (st8 (st8 m (t_off + 32) 1) (t_off + 33) 0) c
  else c.

Section Errno.
Variable remap_errno_h2g : Z -> Z.

Definition yos_cfsetispeed (c : exec_ctx) (t_off speed : Z) : Z * exec_ctx :=
  if range_ok c t_off TERMIOS_SIZE then (0, set_mem (st32 (mem c) (t_off + 36) speed) c) else errno_neg remap_errno_h2g c EFAULT.
Definition yos_cfsetospeed (c : exec_ctx) (t_off speed : Z) : Z * exec_ctx :=
  if range_ok c t_off TERMIOS_SIZE then (0, set_mem (st32 (mem c) (t_off + 40) speed) c) else errno_neg remap_errno_h2g c EFAULT.
End Errno.

Definition yos_cfgetispeed (c : exec_ctx) (t_off : Z) : Z := if range_ok c t_off TERMIOS_SIZE then ld32 (mem c) (t_off + 36) else 0.
Definition yos_cfgetospeed (c : exec_ctx) (t_off : Z) : Z := if range_ok c t_off TERMIOS_SIZE then ld32 (mem c) (t_off + 40) else 0.

(** * Properties *)

Lemma map_flags_testbit v t d i :
  Z.testbit (map_flags v t d) i =
  existsb (fun p => negb (Z.land v (if d then fst p else snd p) =? 0) && Z.testbit (if d then snd p else fst p) i) t.
Proof.
  unfold map_flags. set (f := fun (r : Z) (p : Z * Z) => _). set (g := fun p : Z * Z => negb _ && _).
  assert (H : forall r, Z.testbit (foldl f r t) i = Z.testbit r i || existsb g t); [|by rewrite H, Z.testbit_0_l].
  induction t as [|p t IH]; intros r; cbn [foldl existsb]; [by rewrite orb_false_r|]. rewrite IH, orb_assoc. f_equal. unfold f, g.
  destruct (Z.land v _ =? 0); cbn [negb andb]; [by rewrite orb_false_r|]. by rewrite Z.lor_spec.
Qed.

(** Only the flags of the table matter. *)
Lemma map_flags_ext v v' t (d : bool) :
  (forall p, p ∈ t -> Z.land v (if d then fst p else snd p) = Z.land v' (if d then fst p else snd p)) ->
  map_flags v t d = map_flags v' t d.
Proof.
  intros H. apply Z.bits_inj. intros i. rewrite !map_flags_testbit.
  induction t as [|p t IH]; [done|]. cbn [existsb]. rewrite (H p) by (by left). f_equal. apply IH. intros q Hq. apply H. by right.
Qed.

Lemma map_flags_app v s t d : map_flags v (s ++ t) d = Z.lor (map_flags v s d) (map_flags v t d).
Proof. apply Z.bits_inj. intros i. by rewrite Z.lor_spec, !map_flags_testbit, existsb_app. Qed.

Lemma land_pow2_testbit v k : 0 <= k -> negb (Z.land v (2 ^ k) =? 0) = Z.testbit v k.
Proof.
  intros Hk. destruct (Z.testbit v k) eqn:E.
  - apply negb_true_iff, Z.eqb_neq. intros H. apply (f_equal (fun x => Z.testbit x k)) in H. rewrite Z.land_spec, E, Z.pow2_bits_true, Z.testbit_0_l in H by done. done.
  - apply negb_false_iff, Z.eqb_eq, Z.bits_inj. intros i. rewrite Z.land_spec, Z.testbit_0_l, Z.pow2_bits_eqb by done. destruct (Z.eqb_spec k i) as [<-|]; [by rewrite E|apply andb_false_r].
Qed.

(** No flag of [m] comes out when none that maps to it goes in. *)
Lemma map_flags_disjoint v t (d : bool) m :
  Forall (fun p => Z.land v (if d then fst p else snd p) = 0 \/ Z.land (if d then snd p else fst p) m = 0) t ->
  Z.land (map_flags v t d) m = 0.
Proof.
  intros H. unfold map_flags. set (f := fun (r : Z) (p : Z * Z) => _).
  assert (G : forall r, Z.land r m = 0 -> Z.land (foldl f r t) m = 0); [|by apply G].
  induction H as [|p t Hp _ IH]; intros r Hr; [done|]. apply IH. unfold f.
  destruct (Z.eqb_spec (Z.land v (if d then fst p else snd p)) 0); [done|]. rewrite Z.land_lor_distr_l, Hr. by destruct Hp.
Qed.

(** ** Tables of single bits, given by the exponents *)

Definition bits_table (e : list (Z * Z)) : list (Z * Z) := (fun p => (2 ^ fst p, 2 ^ snd p)) <$> e.
Definition mask_of (e : list (Z * Z)) : Z := foldr (fun p r => Z.lor (2 ^ fst p) r) 0 e.

Lemma mask_of_testbit e i : Forall (fun p => 0 <= fst p) e -> Z.testbit (mask_of e) i = existsb (fun p => fst p =? i) e.
Proof.
  induction 1 as [|p e Hp _ IH]; [apply Z.testbit_0_l|]. unfold mask_of. cbn [foldr existsb]. rewrite Z.lor_spec, Z.pow2_bits_eqb by done. by f_equal.
Qed.

Lemma bits_table_testbit v e (d : bool) i :
  Forall (fun p => 0 <= fst p /\ 0 <= snd p) e ->
  Z.testbit (map_flags v (bits_table e) d) i =
  existsb (fun p => Z.testbit v (if d then fst p else snd p) && ((if d then snd p else fst p) =? i)) e.
Proof.
  intros He. rewrite map_flags_testbit. unfold bits_table. induction He as [|p e [H1 H2] _ IH]; [done|]. cbn [fmap list_fmap existsb fst snd]. rewrite IH. f_equal.
  destruct d; by rewrite land_pow2_testbit, Z.pow2_bits_eqb.
Qed.

(** There and back: the flags of the table survive, the others are gone. *)
Lemma map_flags_back v e :
  NoDup e.*2 -> Forall (fun p => 0 <= fst p /\ 0 <= snd p) e ->
  map_flags (map_flags v (bits_table e) true) (bits_table e) false = Z.land v (mask_of e).
Proof.
  intros Hnd He. apply Z.bits_inj. intros i. rewrite Z.land_spec, mask_of_testbit by (eapply Forall_impl; [exact He|by intros ? []]).
  rewrite bits_table_testbit by done. apply eq_true_iff_eq. rewrite andb_true_iff, !existsb_exists. split.
  - intros ([a b] & Hin & H). cbn [fst snd] in H. apply andb_true_iff in H as [H <-%Z.eqb_eq]. rewrite bits_table_testbit in H by done.
    apply existsb_exists in H as ([a' b'] & Hin' & H). cbn [fst snd] in H. apply andb_true_iff in H as [H ->%Z.eqb_eq].
    apply list_elem_of_In, list_elem_of_lookup in Hin as [k Hk]. apply list_elem_of_In, list_elem_of_lookup in Hin' as [k' Hk'].
    assert (k = k') as -> by (eapply NoDup_lookup; [exact Hnd|by rewrite list_lookup_fmap, Hk|by rewrite list_lookup_fmap, Hk']).
    rewrite Hk in Hk'. injection Hk' as ->. split; [done|]. exists (a', b). split; [|apply Z.eqb_refl]. apply list_elem_of_In. by eapply list_elem_of_lookup_2.
  - intros [Hv ([a b] & Hin & E)]. apply Z.eqb_eq in E. cbn [fst] in E. subst a. exists (i, b). split; [done|]. cbn [fst snd]. rewrite Z.eqb_refl, andb_true_r, bits_table_testbit by done.
    apply existsb_exists. exists (i, b). split; [done|]. cbn [fst snd]. by rewrite Hv, Z.eqb_refl.
Qed.

(** The character size, whose three flags overlap. *)
Definition csize_map : list (Z * Z) := [(256, 16); (512, 32); (768, 48)].
Definition cflag_bits : list (Z * Z) := [(10, 6); (11, 7); (12, 8); (13, 9); (14, 10); (15, 11)].

Lemma cflag_map_split : cflag_map = csize_map ++ bits_table cflag_bits.
Proof. reflexivity. Qed.

Lemma csize_to_host v : map_flags v csize_map true = if Z.land v 768 =? 0 then 0 else 48.
Proof.
  unfold map_flags, csize_map. cbn [foldl fst snd]. destruct (Z.eqb_spec (Z.land v 768) 0) as [E|_].
  - replace (Z.land v 256) with (Z.land (Z.land v 768) 256) by (by rewrite <- Z.land_assoc).
    replace (Z.land v 512) with (Z.land (Z.land v 768) 512) by (by rewrite <- Z.land_assoc). by rewrite E.
  - by destruct (Z.land v 256 =? 0), (Z.land v 512 =? 0).
Qed.

Lemma cflag_back v : map_flags (map_flags v cflag_map true) cflag_map false = Z.lor (Z.land v 64512) (if Z.land v 768 =? 0 then 0 else 768).
Proof.
  rewrite cflag_map_split, !map_flags_app, Z.lor_comm. f_equal.
  - change 64512 with (mask_of cflag_bits). rewrite <- map_flags_back; [|by apply (bool_decide_eq_true_1 _)|by repeat constructor].
    apply map_flags_ext. intros p Hp. rewrite Z.land_lor_distr_l. rewrite (map_flags_disjoint v csize_map true); [by rewrite Z.lor_0_l|].
    repeat (apply elem_of_cons in Hp as [->|Hp]; [repeat constructor; right; reflexivity|]). by apply elem_of_nil in Hp.
  - transitivity (map_flags (map_flags v csize_map true) csize_map false); [|rewrite csize_to_host; by destruct (_ =? 0)].
    apply map_flags_ext. intros p Hp. rewrite Z.land_lor_distr_l. rewrite (map_flags_disjoint v (bits_table cflag_bits) true); [by rewrite Z.lor_0_r|].
    repeat (apply elem_of_cons in Hp as [->|Hp]; [repeat constructor; right; reflexivity|]). by apply elem_of_nil in Hp.
Qed.

(** ** Control characters *)

Lemma cc_to_host_known (g : Z -> Z) i : 0 <= i < 20 -> cc_known i = true ->
  nth (Z.to_nat (cc_fb_to_lx i)) (cc_to_host g (replicate 32 0)) 0 = g i.
Proof.
  intros Hi. apply (proj1 (Forall_forall (fun i => cc_known i = true -> nth (Z.to_nat (cc_fb_to_lx i)) (cc_to_host g (replicate 32 0)) 0 = g i) (seqZ 0 20))); [|apply elem_of_seqZ; lia].
  let l := eval vm_compute in (seqZ 0 20) in change (seqZ 0 20) with l. repeat constructor; vm_compute; congruence.
Qed.

Lemma cc_to_guest_spec m b host a :
  ld8 (cc_to_guest m b host) a =
  if (b <=? a) && (a <? b + 20) && cc_known (a - b) then u8 (nth (Z.to_nat (cc_fb_to_lx (a - b))) host 0) else ld8 m a.
Proof.
  unfold cc_to_guest. set (f := fun (m : memory) (i : Z) => _).
  assert (H : forall l m, ld8 (foldl f m l) a =
    if existsb (fun i => (b + i =? a) && cc_known (a - b)) l then u8 (nth (Z.to_nat (cc_fb_to_lx (a - b))) host 0) else ld8 m a).
  { induction l as [|i l IH]; intros m0; [done|]. cbn [foldl existsb]. rewrite IH. destruct (existsb _ l); [by rewrite orb_true_r|]. rewrite orb_false_r.
    unfold f. destruct (Z.eqb_spec (b + i) a) as [<-|Hne]; cbn [andb].
    - replace (b + i - b) with i by lia. destruct (cc_known i); [|done]. by rewrite ld8_st8, Z.eqb_refl.
    - destruct (cc_known i); [|done]. rewrite ld8_st8. by destruct (Z.eqb_spec a (b + i)); [lia|]. }
  rewrite H. match goal with |- (if ?x then _ else _) = (if ?y then _ else _) => assert (x = y) as ->; [|done] end. apply eq_true_iff_eq. rewrite existsb_exists, !andb_true_iff, Z.leb_le, Z.ltb_lt. split.
  - intros (i & Hi & E). apply list_elem_of_In, elem_of_seqZ in Hi. apply andb_true_iff in E as [E ?]. apply Z.eqb_eq in E. split; [lia|done].
  - intros [Hr Hk]. exists (a - b). split; [apply list_elem_of_In, elem_of_seqZ; lia|]. rewrite Hk, andb_true_r. apply Z.eqb_eq. lia.
Qed.

Lemma cc_to_guest_frame m b host lo hi : hi <= b \/ b + 20 <= lo -> agree_on lo hi m (cc_to_guest m b host).
Proof. intros H a Ha. rewrite cc_to_guest_spec. destruct (Z.leb_spec b a), (Z.ltb_spec a (b + 20)); try done; lia. Qed.

(** ** There and back *)

(** What the code relies on in glibc's cfsetispeed and cfsetospeed: besides the
    speeds they change at most IBAUD0 of the input flags and CBAUD of the
    control flags. *)
Record speed_law (f : Z -> termios -> termios) : Prop := SpeedLaw {
  sl_iflag : forall s h k, Z.land k 2147483648 = 0 -> Z.land (c_iflag (f s h)) k = Z.land (c_iflag h) k;
  sl_oflag : forall s h, c_oflag (f s h) = c_oflag h;
  sl_cflag : forall s h k, Z.land k 4111 = 0 -> Z.land (c_cflag (f s h)) k = Z.land (c_cflag h) k;
  sl_lflag : forall s h, c_lflag (f s h) = c_lflag h;
  sl_cc : forall s h, c_cc (f s h) = c_cc h
}.

Lemma negb_sym_eq a b : negb a = negb b -> a = b.
Proof. by destruct a, b. Qed.

Lemma u32_land x k : Z.land k 4294967295 = k -> u32 (Z.land x k) = Z.land x k.
Proof.
  intros Hk. unfold u32. change 4294967296 with (2 ^ 32). rewrite <- Z.land_ones by lia. change (Z.ones 32) with 4294967295. by rewrite <- Z.land_assoc, Hk.
Qed.

Lemma u32_lor x y : u32 x = x -> u32 y = y -> u32 (Z.lor x y) = Z.lor x y.
Proof.
  unfold u32. change 4294967296 with (2 ^ 32). rewrite <- !Z.land_ones by lia. intros Hx Hy. by rewrite Z.land_lor_distr_l, Hx, Hy.
Qed.

Definition iflag_bits : list (Z * Z) :=
  [(0, 0); (1, 1); (2, 2); (3, 3); (4, 4); (5, 5); (6, 6); (7, 7); (8, 8); (9, 10); (10, 12); (11, 11); (13, 13)].
Definition oflag_bits : list (Z * Z) := [(0, 0); (1, 2); (2, 5); (3, 4); (4, 3); (5, 6); (6, 7)].
Definition lflag_bits : list (Z * Z) :=
  [(0, 11); (1, 4); (2, 5); (3, 3); (4, 6); (5, 10); (6, 9); (7, 0); (8, 1); (10, 15); (11, 16); (22, 8); (23, 12); (29, 14); (31, 7)].

Lemma iflag_back v : map_flags (map_flags v iflag_map true) iflag_map false = Z.land v 12287.
Proof. apply (map_flags_back v iflag_bits); [by apply (bool_decide_eq_true_1 _)|by repeat constructor]. Qed.
Lemma oflag_back v : map_flags (map_flags v oflag_map true) oflag_map false = Z.land v 127.
Proof. apply (map_flags_back v oflag_bits); [by apply (bool_decide_eq_true_1 _)|by repeat constructor]. Qed.
Lemma lflag_back v : map_flags (map_flags v lflag_map true) lflag_map false = Z.land v 2696941055.
Proof. apply (map_flags_back v lflag_bits); [by apply (bool_decide_eq_true_1 _)|by repeat constructor]. Qed.

(** ** The numbers of both systems, by name *)

Inductive tty_word : Type := Iflag | Oflag | Cflag | Lflag.

#[global] Instance tty_word_eq_dec : EqDecision tty_word.
Proof. solve_decision. Defined.

(** FreeBSD's sys/_termios.h. *)
Definition freebsd_flags : list (string * (tty_word * Z)) :=
  [("IGNBRK", (Iflag, 0x1)); ("BRKINT", (Iflag, 0x2)); ("IGNPAR", (Iflag, 0x4)); ("PARMRK", (Iflag, 0x8));
   ("INPCK", (Iflag, 0x10)); ("ISTRIP", (Iflag, 0x20)); ("INLCR", (Iflag, 0x40)); ("IGNCR", (Iflag, 0x80));
   ("ICRNL", (Iflag, 0x100)); ("IXON", (Iflag, 0x200)); ("IXOFF", (Iflag, 0x400)); ("IXANY", (Iflag, 0x800));
   ("IMAXBEL", (Iflag, 0x2000));
   ("OPOST", (Oflag, 0x1)); ("ONLCR", (Oflag, 0x2)); ("XTABS", (Oflag, 0x4)); ("ONOEOT", (Oflag, 0x8));
   ("OCRNL", (Oflag, 0x10)); ("ONOCR", (Oflag, 0x20)); ("ONLRET", (Oflag, 0x40));
   ("CSTOPB", (Cflag, 0x400)); ("CREAD", (Cflag, 0x800)); ("PARENB", (Cflag, 0x1000)); ("PARODD", (Cflag, 0x2000));
   ("HUPCL", (Cflag, 0x4000)); ("CLOCAL", (Cflag, 0x8000)); ("CRTSCTS", (Cflag, 0x30000));
   ("ECHOKE", (Lflag, 0x1)); ("ECHOE", (Lflag, 0x2)); ("ECHOK", (Lflag, 0x4)); ("ECHO", (Lflag, 0x8));
   ("ECHONL", (Lflag, 0x10)); ("ECHOPRT", (Lflag, 0x20)); ("ECHOCTL", (Lflag, 0x40)); ("ISIG", (Lflag, 0x80));
   ("ICANON", (Lflag, 0x100)); ("ALTWERASE", (Lflag, 0x200)); ("IEXTEN", (Lflag, 0x400)); ("EXTPROC", (Lflag, 0x800));
   ("TOSTOP", (Lflag, 0x400000)); ("FLUSHO", (Lflag, 0x800000)); ("NOKERNINFO", (Lflag, 0x2000000));
   ("PENDIN", (Lflag, 0x20000000)); ("NOFLSH", (Lflag, 0x80000000))]%string.

(** Linux's asm-generic/termbits.h. *)
Definition linux_flags : list (string * (tty_word * Z)) :=
  [("IGNBRK", (Iflag, 0x1)); ("BRKINT", (Iflag, 0x2)); ("IGNPAR", (Iflag, 0x4)); ("PARMRK", (Iflag, 0x8));
   ("INPCK", (Iflag, 0x10)); ("ISTRIP", (Iflag, 0x20)); ("INLCR", (Iflag, 0x40)); ("IGNCR", (Iflag, 0x80));
   ("ICRNL", (Iflag, 0x100)); ("IUCLC", (Iflag, 0x200)); ("IXON", (Iflag, 0x400)); ("IXANY", (Iflag, 0x800));
   ("IXOFF", (Iflag, 0x1000)); ("IMAXBEL", (Iflag, 0x2000));
   ("OPOST", (Oflag, 0x1)); ("OLCUC", (Oflag, 0x2)); ("ONLCR", (Oflag, 0x4)); ("OCRNL", (Oflag, 0x8));
   ("ONOCR", (Oflag, 0x10)); ("ONLRET", (Oflag, 0x20)); ("OFILL", (Oflag, 0x40)); ("OFDEL", (Oflag, 0x80));
   ("XTABS", (Oflag, 0x1800));
   ("CSTOPB", (Cflag, 0x40)); ("CREAD", (Cflag, 0x80)); ("PARENB", (Cflag, 0x100)); ("PARODD", (Cflag, 0x200));
   ("HUPCL", (Cflag, 0x400)); ("CLOCAL", (Cflag, 0x800)); ("CRTSCTS", (Cflag, 0x80000000));
   ("ISIG", (Lflag, 0x1)); ("ICANON", (Lflag, 0x2)); ("ECHO", (Lflag, 0x8)); ("ECHOE", (Lflag, 0x10));
   ("ECHOK", (Lflag, 0x20)); ("ECHONL", (Lflag, 0x40)); ("NOFLSH", (Lflag, 0x80)); ("TOSTOP", (Lflag, 0x100));
   ("ECHOCTL", (Lflag, 0x200)); ("ECHOPRT", (Lflag, 0x400)); ("ECHOKE", (Lflag, 0x800)); ("FLUSHO", (Lflag, 0x1000));
   ("PENDIN", (Lflag, 0x4000)); ("IEXTEN", (Lflag, 0x8000)); ("EXTPROC", (Lflag, 0x10000))]%string.

(** The flags of both systems that do not arrive. *)
Definition mistranslated : list string := ["ONOCR"; "ONLRET"; "XTABS"; "CRTSCTS"]%string.

Definition freebsd_cc : list (string * Z) :=
  [("VEOF", 0); ("VEOL", 1); ("VEOL2", 2); ("VERASE", 3); ("VWERASE", 4); ("VKILL", 5); ("VREPRINT", 6); ("VERASE2", 7);
   ("VINTR", 8); ("VQUIT", 9); ("VSUSP", 10); ("VDSUSP", 11); ("VSTART", 12); ("VSTOP", 13); ("VLNEXT", 14);
   ("VDISCARD", 15); ("VMIN", 16); ("VTIME", 17); ("VSTATUS", 18)]%string.
Definition linux_cc : list (string * Z) :=
  [("VINTR", 0); ("VQUIT", 1); ("VERASE", 2); ("VKILL", 3); ("VEOF", 4); ("VTIME", 5); ("VMIN", 6); ("VSWTC", 7);
   ("VSTART", 8); ("VSTOP", 9); ("VSUSP", 10); ("VEOL", 11); ("VREPRINT", 12); ("VDISCARD", 13); ("VWERASE", 14);
   ("VLNEXT", 15); ("VEOL2", 16)]%string.

Definition guest_word (m : memory) (w : Z) (wd : tty_word) : Z :=
  ld32 m (match wd with Iflag => w | Oflag => w + 4 | Cflag => w + 8 | Lflag => w + 12 end).
Definition host_word (h : termios) (wd : tty_word) : Z :=
  match wd with Iflag => c_iflag h | Oflag => c_oflag h | Cflag => c_cflag h | Lflag => c_lflag h end.

(** The tables of the code, the character size apart. *)
Definition table_of (wd : tty_word) : list (Z * Z) :=
  match wd with Iflag => iflag_map | Oflag => oflag_map | Cflag => bits_table cflag_bits | Lflag => lflag_map end.

Lemma translated n wd x y :
  (n, (wd, x)) ∈ freebsd_flags -> (n, (wd, y)) ∈ linux_flags -> n ∉ mistranslated -> (x, y) ∈ table_of wd.
Proof.
  intros Hx Hy Hn.
  assert (A : Forall (fun f => Forall (fun l => f.1 = l.1 -> f.2.1 = l.2.1 -> f.1 ∉ mistranslated -> (f.2.2, l.2.2) ∈ table_of f.2.1) linux_flags) freebsd_flags).
  { apply (bool_decide_eq_true_1 _). vm_compute. reflexivity. }
  rewrite Forall_forall in A. specialize (A _ Hx). rewrite Forall_forall in A. exact (A _ Hy eq_refl eq_refl Hn).
Qed.

Lemma same_cc n i j : (n, i) ∈ freebsd_cc -> (n, j) ∈ linux_cc -> 0 <= i < 20 /\ cc_known i = true /\ cc_fb_to_lx i = j.
Proof.
  intros Hi Hj.
  assert (A : Forall (fun f => Forall (fun l => f.1 = l.1 -> 0 <= f.2 < 20 /\ cc_known f.2 = true /\ cc_fb_to_lx f.2 = l.2) linux_cc) freebsd_cc).
  { apply (bool_decide_eq_true_1 _). vm_compute. reflexivity. }
  rewrite Forall_forall in A. specialize (A _ Hi). rewrite Forall_forall in A. exact (A _ Hj eq_refl).
Qed.

(** A flag of a table of single bits arrives exactly when it is sent. *)
Lemma bits_table_flag v e x y :
  NoDup e.*2 -> Forall (fun p => 0 <= fst p /\ 0 <= snd p) e -> (x, y) ∈ bits_table e ->
  (Z.land (map_flags v (bits_table e) true) y =? 0) = (Z.land v x =? 0).
Proof.
  intros Hnd He Hin. apply list_elem_of_fmap in Hin as ([a b] & [= -> ->] & Hin). pose proof (proj1 (Forall_forall _ e) He _ Hin) as [Ha Hb]. cbn [fst snd] in *.
  apply negb_sym_eq. rewrite !land_pow2_testbit, bits_table_testbit by done. apply eq_true_iff_eq. rewrite existsb_exists. split.
  - intros ([a' b'] & Hin' & H). cbn [fst snd] in H. apply andb_true_iff in H as [H ->%Z.eqb_eq].
    apply list_elem_of_In, list_elem_of_lookup in Hin' as [k' Hk']. apply list_elem_of_lookup in Hin as [k Hk].
    assert (k = k') as -> by (eapply NoDup_lookup; [exact Hnd|by rewrite list_lookup_fmap, Hk|by rewrite list_lookup_fmap, Hk']).
    rewrite Hk in Hk'. by injection Hk' as ->.
  - intros Hv. exists (a, b). split; [by apply list_elem_of_In|]. cbn [fst snd]. by rewrite Hv, Z.eqb_refl.
Qed.

Lemma table_clear e x y k : (x, y) ∈ bits_table e -> forallb (fun p => Z.land (snd p) k =? 0) (bits_table e) = true -> Z.land y k = 0.
Proof. intros Hin H. rewrite forallb_forall in H. apply list_elem_of_In in Hin. by apply Z.eqb_eq, (H (x, y)). Qed.

Section RoundTrip.
Context (cfsetispeed cfsetospeed : Z -> termios -> termios) (cfgetispeed cfgetospeed : termios -> Z).

Abbreviation to_host := (termios_fb_to_lx cfsetispeed cfsetospeed).
Abbreviation to_guest := (termios_lx_to_fb cfgetispeed cfgetospeed).

(** The fields of a structure that was written for the guest. *)
Lemma to_guest_fields m w h :
  let m' := to_guest m w h in
  ld32 m' w = u32 (map_flags (c_iflag h) iflag_map false) /\ ld32 m' (w + 4) = u32 (map_flags (c_oflag h) oflag_map false) /\
  ld32 m' (w + 8) = u32 (map_flags (c_cflag h) cflag_map false) /\ ld32 m' (w + 12) = u32 (map_flags (c_lflag h) lflag_map false) /\
  (forall i, 0 <= i < 20 -> ld8 m' (w + 16 + i) = if cc_known i then u8 (nth (Z.to_nat (cc_fb_to_lx i)) (c_cc h) 0) else 0) /\
  ld32 m' (w + 36) = u32 (cfgetispeed h) /\ ld32 m' (w + 40) = u32 (cfgetospeed h) /\
  (forall lo hi, hi <= w \/ w + 44 <= lo -> agree_on lo hi m m').
Proof.
  cbv zeta. unfold termios_lx_to_fb, TERMIOS_SIZE. cbv zeta.
  assert (Hcc : forall x b a, a + 4 <= w + 16 \/ w + 36 <= a -> ld32 (cc_to_guest x (w + 16) b) a = ld32 x a).
  { intros x b a Ha. apply ld32_agree, cc_to_guest_frame. lia. }
  split_and!.
  1-4: repeat first [rewrite ld32_st32_ne by lia|rewrite Hcc by lia]; by rewrite ld32_st32.
  - intros i Hi. assert (Hs : forall x a v, w + 16 + i < a \/ a + 4 <= w + 16 + i -> ld8 (st32 x a v) (w + 16 + i) = ld8 x (w + 16 + i)).
    { intros x a v Ha. eapply st32_frame; [|split; [apply Z.le_refl|apply Z.lt_succ_diag_r]]. lia. }
    rewrite !Hs by lia. rewrite cc_to_guest_spec. replace (w + 16 + i - (w + 16)) with i by lia.
    rewrite (proj2 (Z.leb_le _ _)), (proj2 (Z.ltb_lt _ _)) by lia. cbn [andb]. destruct (cc_known i); [done|].
    rewrite !Hs by lia. by rewrite ld8_memset_in by lia.
  - rewrite ld32_st32_ne by lia. by rewrite ld32_st32.
  - by rewrite ld32_st32.
  - intros lo hi Hr. repeat (eapply agree_on_trans; [|first [apply st32_frame|apply cc_to_guest_frame]; lia]). apply memset_frame. lia.
Qed.

(** Every flag and character that both systems know arrives under its name. *)
Lemma to_host_flag m w n wd x y :
  speed_law cfsetispeed -> speed_law cfsetospeed ->
  (n, (wd, x)) ∈ freebsd_flags -> (n, (wd, y)) ∈ linux_flags -> n ∉ mistranslated ->
  (Z.land (host_word (to_host m w) wd) y =? 0) = (Z.land (guest_word m w wd) x =? 0).
Proof.
  intros [i1 o1 c1 l1 k1] [i2 o2 c2 l2 k2] Hx Hy Hn. pose proof (translated n wd x y Hx Hy Hn) as Ht. unfold termios_fb_to_lx.
  destruct wd; cbn [host_word guest_word table_of] in *.
  - rewrite i2, i1 by (by apply (table_clear iflag_bits _ _ 2147483648 Ht); vm_compute). cbn [c_iflag].
    apply (bits_table_flag _ iflag_bits); [by apply (bool_decide_eq_true_1 _)|by repeat constructor|done].
  - rewrite o2, o1. cbn [c_oflag]. apply (bits_table_flag _ oflag_bits); [by apply (bool_decide_eq_true_1 _)|by repeat constructor|done].
  - rewrite c2, c1 by (by apply (table_clear cflag_bits _ _ 4111 Ht); vm_compute). cbn [c_cflag].
    rewrite cflag_map_split, map_flags_app, Z.land_lor_distr_l, csize_to_host.
    assert (H0 : forall b : bool, Z.land (if b then 0 else 48) y = 0).
    { intros b. rewrite Z.land_comm. destruct b; [apply Z.land_0_r|]. apply (table_clear cflag_bits x y 48 Ht). by vm_compute. }
    rewrite H0, Z.lor_0_l. apply (bits_table_flag _ cflag_bits); [by apply (bool_decide_eq_true_1 _)|by repeat constructor|done].
  - rewrite l2, l1. cbn [c_lflag]. apply (bits_table_flag _ lflag_bits); [by apply (bool_decide_eq_true_1 _)|by repeat constructor|done].
Qed.

Lemma to_host_cc m w n i j :
  speed_law cfsetispeed -> speed_law cfsetospeed ->
  (n, i) ∈ freebsd_cc -> (n, j) ∈ linux_cc -> nth (Z.to_nat j) (c_cc (to_host m w)) 0 = ld8 m (w + 16 + i).
Proof.
  intros [i1 o1 c1 l1 k1] [i2 o2 c2 l2 k2] Hi Hj. destruct (same_cc n i j Hi Hj) as (Hr & Hk & <-).
  unfold termios_fb_to_lx. rewrite k2, k1. cbn [c_cc]. by rewrite cc_to_host_known.
Qed.

(** C36: Attributes go to the host under their names: each flag that both systems
    have is set on the host exactly when the guest set it, but for ONOCR, ONLRET
    and XTABS, which become other flags, and CRTSCTS, which is lost; each control
    character that both have arrives.  Coming back, as in a pair of tcsetattr and
    tcgetattr, the translated flags and characters are as they were and the
    others zero; of the character sizes CS5 and CS8 survive, and CS6 and CS7 come
    back as CS8.  Nothing outside the 44 bytes changes. *)
Theorem termios_roundtrip m w m1 w1 :
  speed_law cfsetispeed -> speed_law cfsetospeed ->
  let h := to_host m w in
  let m' := to_guest m1 w1 h in
  ld32 m' w1 = Z.land (ld32 m w) 12287 /\ ld32 m' (w1 + 4) = Z.land (ld32 m (w + 4)) 127 /\
  ld32 m' (w1 + 8) = Z.lor (Z.land (ld32 m (w + 8)) 64512) (if Z.land (ld32 m (w + 8)) 768 =? 0 then 0 else 768) /\
  ld32 m' (w1 + 12) = Z.land (ld32 m (w + 12)) 2696941055 /\
  (forall i, 0 <= i < 20 -> ld8 m' (w1 + 16 + i) = if cc_known i then ld8 m (w + 16 + i) else 0) /\
  ld32 m' (w1 + 36) = u32 (cfgetispeed h) /\ ld32 m' (w1 + 40) = u32 (cfgetospeed h) /\
  (forall lo hi, hi <= w1 \/ w1 + 44 <= lo -> agree_on lo hi m1 m') /\
  (forall n wd x y, (n, (wd, x)) ∈ freebsd_flags -> (n, (wd, y)) ∈ linux_flags -> n ∉ mistranslated ->
     (Z.land (host_word h wd) y =? 0) = (Z.land (guest_word m w wd) x =? 0)) /\
  (forall n i j, (n, i) ∈ freebsd_cc -> (n, j) ∈ linux_cc -> nth (Z.to_nat j) (c_cc h) 0 = ld8 m (w + 16 + i)).
Proof.
  intros S1 S2. pose proof (fun n wd x y => to_host_flag m w n wd x y S1 S2) as HF. pose proof (fun n i j => to_host_cc m w n i j S1 S2) as HC.
  destruct S1 as [i1 o1 c1 l1 k1], S2 as [i2 o2 c2 l2 k2]. cbv zeta. destruct (to_guest_fields m1 w1 (to_host m w)) as (Ei & Eo & Ec & El & Ek & Es & Et & Hf).
  rewrite Ei, Eo, Ec, El. clear Ei Eo Ec El. split_and!; [..|done|done|done|exact HF|exact HC].
  - unfold termios_fb_to_lx. rewrite (map_flags_ext _ (map_flags (ld32 m w) iflag_map true)), iflag_back, u32_land; [done..|].
    intros p Hp. rewrite i2, i1; [done|..]; clear - Hp; repeat (apply elem_of_cons in Hp as [->|Hp]; [reflexivity|]); by apply elem_of_nil in Hp.
  - unfold termios_fb_to_lx. rewrite o2, o1. cbn [c_oflag]. by rewrite oflag_back, u32_land.
  - unfold termios_fb_to_lx. rewrite (map_flags_ext _ (map_flags (ld32 m (w + 8)) cflag_map true)), cflag_back, u32_lor; [done|by apply u32_land|by destruct (_ =? 0)|].
    intros p Hp. rewrite c2, c1; [done|..]; clear - Hp; repeat (apply elem_of_cons in Hp as [->|Hp]; [reflexivity|]); by apply elem_of_nil in Hp.
  - unfold termios_fb_to_lx. rewrite l2, l1. cbn [c_lflag]. by rewrite lflag_back, u32_land.
  - intros i Hi. rewrite Ek by done. destruct (cc_known i) eqn:E; [|done]. unfold termios_fb_to_lx. rewrite k2, k1. cbn [c_cc].
    rewrite cc_to_host_known by done. unfold ld8. by rewrite u8_idemp.
Qed.
End RoundTrip.

(** ** Raw mode *)

Lemma u32_land_l x k : u32 x = x -> u32 (Z.land x k) = Z.land x k.
Proof.
  unfold u32. change 4294967296 with (2 ^ 32). rewrite <- !Z.land_ones by lia. intros Hx. by rewrite <- Z.land_assoc, (Z.land_comm k), Z.land_assoc, Hx.
Qed.

Lemma u32_ld32 m a : u32 (ld32 m a) = ld32 m a.
Proof. apply Z.mod_small, ld32_range. Qed.

Lemma cfmakeraw_fields c t :
  range_ok c t TERMIOS_SIZE = true ->
  let m := mem c in let m' := mem (yos_cfmakeraw c t) in
  ld32 m' t = Z.land (ld32 m t) (Z.lnot 1003) /\ ld32 m' (t + 4) = Z.land (ld32 m (t + 4)) (Z.lnot 1) /\
  ld32 m' (t + 8) = Z.lor (Z.land (ld32 m (t + 8)) (Z.lnot 4864)) 768 /\ ld32 m' (t + 12) = Z.land (ld32 m (t + 12)) (Z.lnot 1432) /\
  ld8 m' (t + 32) = 1 /\ ld8 m' (t + 33) = 0.
Proof.
  intros Hr. cbv zeta. unfold yos_cfmakeraw. rewrite Hr. cbn [mem set_mem].
  assert (Hs : forall x a v b, b + 4 <= a -> ld32 (st8 x a v) b = ld32 x b) by (intros; apply ld32_agree, st8_frame; lia).
  split_and!.
  1-4: rewrite !Hs by lia; rewrite ?ld32_st32_ne by lia; rewrite ld32_st32.
  - by rewrite u32_land_l by apply u32_ld32.
  - by rewrite u32_land_l by apply u32_ld32.
  - rewrite u32_lor; [done| |done]. by rewrite u32_land_l by apply u32_ld32.
  - by rewrite u32_land_l by apply u32_ld32.
  - rewrite ld8_st8. destruct (Z.eqb_spec (t + 32) (t + 33)); [lia|]. by rewrite ld8_st8, Z.eqb_refl.
  - by rewrite ld8_st8, Z.eqb_refl.
Qed.

(** Every pair of a concrete table either drops its guest flag or misses the
    host's. *)
Ltac table_disjoint :=
  apply map_flags_disjoint;
  repeat (constructor; [cbn [fst snd]; first [right; reflexivity | left; rewrite <- Z.land_assoc; cbn; apply Z.land_0_r]|]); constructor.

(** Attributes that cfmakeraw prepared, given to the host: no echo, no line
    buffering, no signals, no translation of input, no output processing, eight
    bits without parity, one byte at a time.  ONLCR, which the emulated terminal
    goes by, is as it was. *)
Theorem cfmakeraw_is_raw (cfsetispeed cfsetospeed : Z -> termios -> termios) c t :
  speed_law cfsetispeed -> speed_law cfsetospeed -> range_ok c t TERMIOS_SIZE = true ->
  let h0 := termios_fb_to_lx cfsetispeed cfsetospeed (mem c) t in
  let h := termios_fb_to_lx cfsetispeed cfsetospeed (mem (yos_cfmakeraw c t)) t in
  Z.land (c_lflag h) 32843 = 0 /\ Z.land (c_iflag h) 1515 = 0 /\ Z.land (c_oflag h) 1 = 0 /\ Z.land (c_cflag h) 304 = 48 /\
  nth 6 (c_cc h) 0 = 1 /\ nth 5 (c_cc h) 0 = 0 /\ Z.land (c_oflag h) 4 = Z.land (c_oflag h0) 4.
Proof.
  intros [i1 o1 c1 l1 k1] [i2 o2 c2 l2 k2] Hr. cbv zeta. destruct (cfmakeraw_fields c t Hr) as (Ei & Eo & Ec & El & E6 & E5).
  unfold termios_fb_to_lx. rewrite Ei, Eo, Ec, El. rewrite !l2, !l1, !k2, !k1, !o2, !o1, i2, i1, c2, c1 by done. cbn [c_iflag c_oflag c_cflag c_lflag c_cc].
  split_and!; [table_disjoint..| | | |].
  - rewrite cflag_map_split, map_flags_app, csize_to_host, Z.land_lor_distr_l. rewrite (Z.land_lor_distr_l _ 768), <- Z.land_assoc.
    change (Z.land (Z.lnot 4864) 768) with 0. rewrite Z.land_0_r. change (if Z.lor 0 (Z.land 768 768) =? 0 then 0 else 48) with 48.
    rewrite (map_flags_disjoint _ (bits_table cflag_bits) true); [reflexivity|].
    repeat (constructor; [cbn [fst snd]; first [right; reflexivity|left; rewrite Z.land_lor_distr_l, <- Z.land_assoc; cbn; by rewrite Z.land_0_r]|]). constructor.
  - etransitivity; [exact (cc_to_host_known _ 16 ltac:(lia) eq_refl)|]. cbn beta. by replace (t + 16 + 16) with (t + 32) by lia.
  - etransitivity; [exact (cc_to_host_known _ 17 ltac:(lia) eq_refl)|]. cbn beta. by replace (t + 16 + 17) with (t + 33) by lia.
  - change 4 with (2 ^ 2). apply Z.bits_inj. intros i. rewrite !Z.land_spec, Z.pow2_bits_eqb by lia. destruct (Z.eqb_spec 2 i) as [<-|]; [|by rewrite !andb_false_r].
    rewrite !andb_true_r. change oflag_map with (bits_table oflag_bits). rewrite !bits_table_testbit by (by repeat constructor). cbn [existsb oflag_bits fst snd Z.eqb Pos.eqb].
    rewrite !andb_false_r, !andb_true_r, !orb_false_l, !orb_false_r, Z.land_spec, Z.lnot_spec by lia. by rewrite andb_true_r.
Qed.

(** glibc before 2.42 keeps the speed in [c_cflag]; here it is a field. *)
Definition plain_ispeed (s : Z) (h : termios) : termios := Termios (c_iflag h) (c_oflag h) (c_cflag h) (c_lflag h) (c_cc h) s (c_ospeed h).
Definition plain_ospeed (s : Z) (h : termios) : termios := Termios (c_iflag h) (c_oflag h) (c_cflag h) (c_lflag h) (c_cc h) (c_ispeed h) s.

Lemma plain_ispeed_law : speed_law plain_ispeed.
Proof. by split. Qed.
Lemma plain_ospeed_law : speed_law plain_ospeed.
Proof. by split. Qed.

(** A structure with every flag set and the speed 38400. *)
Definition sample_termios : memory := st32 (st32 (memset (fun _ => 0) 100 255 36) 136 38400) 140 38400.

Lemma termios_roundtrip_witness :
  let h := termios_fb_to_lx plain_ispeed plain_ospeed sample_termios 100 in
  let m' := termios_lx_to_fb c_ispeed c_ospeed (fun _ => 0) 200 h in
  ld32 m' 200 = 12287 /\ ld32 m' 208 = 65280 /\ ld8 m' 216 = 255 /\ ld32 m' 236 = 38400 /\
  (Z.land (c_iflag h) 0x400 =? 0) = false /\ nth 4 (c_cc h) 0 = 255.
Proof.
  cbv zeta. destruct (termios_roundtrip plain_ispeed plain_ospeed c_ispeed c_ospeed sample_termios 100 (fun _ => 0) 200 plain_ispeed_law plain_ospeed_law)
    as (Ei & _ & Ec & _ & Ek & Es & _ & _ & Hf & Hc).
  split_and!; [rewrite Ei; vm_compute; reflexivity|etransitivity; [exact Ec|vm_compute; reflexivity]| |etransitivity; [exact Es|vm_compute; reflexivity]| |].
  - etransitivity; [apply (Ek 0); lia|vm_compute; reflexivity].
  - etransitivity; [apply (Hf "IXON"%string Iflag 0x200 0x400); apply (bool_decide_eq_true_1 _); vm_compute; reflexivity|vm_compute; reflexivity].
  - etransitivity; [apply (Hc "VEOF"%string 0 4); apply (bool_decide_eq_true_1 _); vm_compute; reflexivity|vm_compute; reflexivity].
Defined.

Lemma cfmakeraw_is_raw_witness :
  let c := ExecCtx sample_termios 65536 0 0 [] [] 0 0 0 64 in
  let h := termios_fb_to_lx plain_ispeed plain_ospeed (mem (yos_cfmakeraw c 100)) 100 in
  Z.land (c_lflag h) 32843 = 0 /\ Z.land (c_cflag h) 304 = 48.
Proof.
  cbv zeta. destruct (cfmakeraw_is_raw plain_ispeed plain_ospeed (ExecCtx sample_termios 65536 0 0 [] [] 0 0 0 64) 100 plain_ispeed_law plain_ospeed_law ltac:(reflexivity))
    as (El & _ & _ & Ec & _).
  by split.
Defined.

(** ** Flags that become other flags *)

(** On Linux 32 is ONLRET, 16 ONOCR, 64 OFILL and 128 OFDEL: OXTABS becomes
    ONLRET, ONOEOT becomes ONOCR, ONOCR becomes OFILL, ONLRET becomes OFDEL;
    and CS6 and CS7 become CS8 (48). *)
Theorem output_flags_misnumbered :
  (map_flags 4 oflag_map true, map_flags 8 oflag_map true, map_flags 32 oflag_map true, map_flags 64 oflag_map true) = (32, 16, 64, 128) /\
  (map_flags 256 cflag_map true, map_flags 512 cflag_map true, map_flags 768 cflag_map true) = (48, 48, 48).
Proof. split; reflexivity. Qed.
