(* ===== verification/Posix.v ===== *)
(** Small functions of posix.c (src/src/yos/impl/libc/posix.c) that do their work
    on linear memory and the context alone: comparing and clearing secrets, the
    mode column of ls, the break, the umask, raw terminal attributes, the flags
    of a socket type. *)
From Stdlib Require Import Strings.String.
From S2P Require Import Prelude Memory Ctx CString Vm Random.

(** * Secrets *)

(** [posix_wptr_range] is [range_ok]. *)
Definition yos_timingsafe_bcmp (c : exec_ctx) (a_off b_off n : Z) : Z :=
  if n =? 0 then 0
  else if negb (range_ok c a_off n && range_ok c b_off n) then 1
  else
    let r := foldl (fun r i => Z.lor r (u8 (Z.lxor (ld8 (mem c) (a_off + i)) (ld8 (mem c) (b_off + i))))) 0 (seqZ 0 n) in
    if r =? 0 then 0 else 1.

(** One round of the loop: [res] and [done]. *)
Definition memcmp_step (m : memory) (a_off b_off : Z) (s : Z * Z) (i : Z) : Z * Z :=
  let '(res, done) := s in
  let diff := ld8 m (a_off + i) - ld8 m (b_off + i) in
  (Z.lor res (Z.land diff (done - 1)), Z.lor done (if diff =? 0 then 0 else 1)).

Definition yos_timingsafe_memcmp (c : exec_ctx) (a_off b_off n : Z) : Z :=
  if n =? 0 then 0
  else if negb (range_ok c a_off n && range_ok c b_off n) then 0
  else fst (foldl (memcmp_step (mem c) a_off b_off) (0, 0) (seqZ 0 n)).

Definition yos_explicit_bzero (c : exec_ctx) (buf_off n : Z) : exec_ctx :=
  if n =? 0 then c
  else if negb (range_ok c buf_off n) then c
  else set_mem (foldl (fun m i => st8 m (buf_off + i) 0) (mem c) (seqZ 0 n)) c.

(** * The mode column *)

Definition type_char (mode : Z) : Z :=
  let t := Z.land mode 61440 in
  if t =? 16384 then 100 else if t =? 8192 then 99 else if t =? 24576 then 98 else if t =? 32768 then 45
  else if t =? 40960 then 108 else if t =? 49152 then 115 else if t =? 4096 then 112 else if t =? 57344 then 119 else 63.

Definition flag_char (mode bit ch : Z) : Z := if Z.land mode bit =? 0 then 45 else ch.

(** The execute column: [x] and the special bit [s], shown by [upper] alone and
    by [lower] together with [x]. *)
Definition exec_char (mode x s upper lower : Z) : Z :=
  let b := Z.land mode (Z.lor x s) in
  if b =? 0 then 45 else if b =? x then 120 else if b =? s then upper else lower.

Definition strmode_text (mode : Z) : bytes :=
  [type_char mode;
   flag_char mode 256 114; flag_char mode 128 119; exec_char mode 64 2048 83 115;
   flag_char mode 32 114; flag_char mode 16 119; exec_char mode 8 1024 83 115;
   flag_char mode 4 114; flag_char mode 2 119; exec_char mode 1 512 84 116; 32; 0].

Definition yos_strmode (c : exec_ctx) (mode p_off : Z) : exec_ctx :=
  if range_ok c p_off 12 then set_mem (write_bytes (mem c) p_off (strmode_text mode)) c else c.

(** * The break, the umask, flags *)

Definition yos_sbrk (c : exec_ctx) (incr : Z) : Z * exec_ctx :=
  let old := heap_end c in
  if incr =? 0 then (old, c)
  else let '(r, c1) := yos_brk c (u32 (old + u32 incr)) in if r <? 0 then (UINT32_MAX, c1) else (old, c1).

(** The umask of the context before and after. *)
Definition yos_umask (umask mask : Z) : Z * Z := (umask, Z.land mask 511).

Definition sock_type_fb_to_lx (t : Z) : Z :=
  let out := Z.land t 255 in
  let out := if Z.land t 268435456 =? 0 then out else Z.lor out 524288 in
  if Z.land t 536870912 =? 0 then out else Z.lor out 2048.

(** SOL_SOCKET is 1 on Linux. *)
Definition sol_fb_to_lx (level : Z) : Z := if level =? 65535 then 1 else level.

(** The options of a socket, and those of IPv4, that the code renumbers. *)
Definition so_options : list (Z * Z) :=
  [(4104, 3); (4103, 4); (4, 2); (8, 9); (32, 6); (128, 13); (4097, 7); (4098, 8); (4101, 21); (4102, 20); (256, 10); (2, 30)].
Definition ip_options : list (Z * Z) :=
  [(1, 4); (2, 3); (3, 1); (4, 2); (5, 6); (6, 7); (7, 8); (9, 32); (10, 33); (11, 34); (12, 35); (13, 36)].

Definition renumber (t : list (Z * Z)) (opt : Z) : Z :=
  match list_find (fun p => fst p = opt) t with Some (_, (_, r)) => r | None => opt end.

Definition soopt_fb_to_lx (level opt : Z) : Z :=
  if level =? 65535 then renumber so_options opt else if level =? 0 then renumber ip_options opt else opt.

(** * Properties *)

(** The first pair of different bytes decides. *)
Fixpoint first_diff (a b : bytes) : Z :=
  match a, b with
  | x :: a', y :: b' => if x =? y then first_diff a' b' else x - y
  | _, _ => 0
  end.

Lemma first_diff_zero a : forall b, length a = length b -> (first_diff a b = 0 <-> a = b).
Proof.
  induction a as [|x a IH]; intros [|y b] Hl; try discriminate; [done|]. cbn [first_diff]. destruct (Z.eqb_spec x y) as [->|Hne].
  - rewrite IH by (cbn in Hl; lia). split; congruence.
  - split; [lia|congruence].
Qed.

Lemma memcmp_done m a b l res : foldl (memcmp_step m a b) (res, 1) l = (res, 1).
Proof.
  induction l as [|i l IH]; [done|]. cbn [foldl]. unfold memcmp_step at 2. cbn [Z.sub]. change (1 - 1) with 0. rewrite Z.land_0_r, Z.lor_0_r.
  by destruct (_ =? 0).
Qed.

Lemma memcmp_fold m a b n : 0 <= n -> forall k,
  fst (foldl (memcmp_step m a b) (0, 0) (seqZ k n)) = first_diff (read_bytes m (a + k) n) (read_bytes m (b + k) n).
Proof.
  intros Hn. pattern n. apply natlike_ind; [|clear n Hn|done].
  { intros k. by rewrite !read_bytes_0. }
  intros n Hn IH k. rewrite seqZ_cons by lia. replace (Z.pred (Z.succ n)) with n by lia. unfold Z.succ at 2 3. rewrite !read_bytes_S by done. cbn [foldl first_diff].
  destruct (memcmp_step m a b (0, 0) k) as [r d] eqn:Es. unfold memcmp_step in Es. change (0 - 1) with (-1) in Es. rewrite Z.land_m1_r, !Z.lor_0_l in Es.
  injection Es as <- <-. destruct (Z.eqb_spec (ld8 m (a + k)) (ld8 m (b + k))) as [E|Hne].
  - rewrite E, Z.sub_diag, Z.eqb_refl. rewrite <- !Z.add_assoc. apply IH.
  - rewrite (proj2 (Z.eqb_neq _ 0)) by lia. by rewrite memcmp_done.
Qed.

Lemma xor_byte m a b : u8 (Z.lxor (ld8 m a) (ld8 m b)) = 0 <-> ld8 m a = ld8 m b.
Proof.
  assert (H : forall a, Z.land (ld8 m a) 255 = ld8 m a).
  { intros x. change 255 with (Z.ones 8). rewrite Z.land_ones by lia. apply Z.mod_small, ld8_range. }
  unfold u8. change 256 with (2 ^ 8). rewrite <- Z.land_ones by lia. change (Z.ones 8) with 255.
  rewrite <- (Z.lxor_eq_0_iff (ld8 m a) (ld8 m b)). replace (Z.land (Z.lxor (ld8 m a) (ld8 m b)) 255) with (Z.lxor (Z.land (ld8 m a) 255) (Z.land (ld8 m b) 255)); [by rewrite !H|].
  apply Z.bits_inj. intros i. rewrite Z.lxor_spec, !Z.land_spec, Z.lxor_spec. by destruct (Z.testbit (ld8 m a) i), (Z.testbit (ld8 m b) i), (Z.testbit 255 i).
Qed.

Lemma bcmp_fold (f g : Z -> Z) (l : list Z) : (forall i, u8 (Z.lxor (f i) (g i)) = 0 <-> f i = g i) -> forall r,
  foldl (fun r i => Z.lor r (u8 (Z.lxor (f i) (g i)))) r l = 0 <-> r = 0 /\ map f l = map g l.
Proof.
  intros H. induction l as [|i l IH]; intros r; cbn [foldl map]; [tauto|]. rewrite IH, Z.lor_eq_0_iff, H. split.
  - by intros [[-> ->] ->].
  - by intros [-> [= -> ->]].
Qed.

(** timingsafe_memcmp, which reads all bytes whatever they are, returns the
    difference of the first two that differ, so it is 0 exactly for equal
    buffers; timingsafe_bcmp is 0 exactly for these. *)
Theorem timingsafe_memcmp_order c a b n :
  0 <= n -> range_ok c a n = true -> range_ok c b n = true ->
  yos_timingsafe_memcmp c a b n = first_diff (read_bytes (mem c) a n) (read_bytes (mem c) b n) /\
  (yos_timingsafe_memcmp c a b n = 0 <-> read_bytes (mem c) a n = read_bytes (mem c) b n) /\
  (yos_timingsafe_bcmp c a b n = 0 <-> read_bytes (mem c) a n = read_bytes (mem c) b n).
Proof.
  intros Hn Ha Hb. assert (E : yos_timingsafe_memcmp c a b n = first_diff (read_bytes (mem c) a n) (read_bytes (mem c) b n)).
  { unfold yos_timingsafe_memcmp. destruct (Z.eqb_spec n 0) as [->|_]; [by rewrite !read_bytes_0|]. rewrite Ha, Hb. cbn [andb negb].
    rewrite memcmp_fold by done. by rewrite !Z.add_0_r. }
  split_and!; [done| |].
  - rewrite E. apply first_diff_zero. unfold read_bytes. by rewrite !length_map.
  - unfold yos_timingsafe_bcmp. destruct (Z.eqb_spec n 0) as [->|_]; [done|]. rewrite Ha, Hb. cbn [andb negb].
    pose proof (bcmp_fold (fun i => ld8 (mem c) (a + i)) (fun i => ld8 (mem c) (b + i)) (seqZ 0 n) (fun i => xor_byte _ _ _) 0) as H.
    unfold read_bytes. cbv zeta. destruct (Z.eqb_spec (foldl (fun r i => Z.lor r (u8 (Z.lxor (ld8 (mem c) (a + i)) (ld8 (mem c) (b + i))))) 0 (seqZ 0 n)) 0) as [E0|E0]; [tauto|].
    split; [done|]. intros ?. exfalso. tauto.
Qed.

(** Reading the column back: [None] for a character that no mode shows. *)
Definition type_of_char (ch : Z) : option Z :=
  snd <$> head (filter (fun p => fst p = ch)
    [(100, 16384); (99, 8192); (98, 24576); (45, 32768); (108, 40960); (115, 49152); (112, 4096); (119, 57344)]).

Definition flag_of_char (bit ch c : Z) : option Z := if c =? ch then Some bit else if c =? 45 then Some 0 else None.
Definition exec_of_char (x s upper lower c : Z) : option Z :=
  if c =? 45 then Some 0 else if c =? 120 then Some x else if c =? upper then Some s else if c =? lower then Some (x + s) else None.

Definition mode_of_text (t : bytes) : option Z :=
  match t with
  | [t0; r1; w1; x1; r2; w2; x2; r3; w3; x3; 32; 0] =>
      ty ← type_of_char t0;
      a ← flag_of_char 256 114 r1; b ← flag_of_char 128 119 w1; c ← exec_of_char 64 2048 83 115 x1;
      d ← flag_of_char 32 114 r2; e ← flag_of_char 16 119 w2; f ← exec_of_char 8 1024 83 115 x2;
      g ← flag_of_char 4 114 r3; h ← flag_of_char 2 119 w3; i ← exec_of_char 1 512 84 116 x3;
      Some (ty + (a + b + c + (d + e + f) + (g + h + i)))
  | _ => None
  end.

Lemma strmode_text_low mode : strmode_text mode = strmode_text (Z.land mode 65535).
Proof. unfold strmode_text, type_char, flag_char, exec_char. by rewrite <- !Z.land_assoc. Qed.

Definition reads_back (mode : Z) : bool :=
  (type_char mode =? 63) || bool_decide (mode_of_text (strmode_text mode) = Some mode).

Lemma reads_back_all : forallb (fun h => forallb (fun l => reads_back (256 * h + l)) (seqZ 0 256)) (seqZ 0 256) = true.
Proof. vm_compute. reflexivity. Qed.

Lemma reads_back_u16 mode : 0 <= mode < 65536 -> reads_back mode = true.
Proof.
  intros Hm. pose proof (Z.mod_pos_bound mode 256 ltac:(lia)). pose proof (Z.div_mod mode 256 ltac:(lia)) as E.
  pose proof (proj1 (forallb_forall _ _) reads_back_all (mode / 256)) as H1.
  rewrite E. apply (proj1 (forallb_forall _ _) (H1 ltac:(apply list_elem_of_In, elem_of_seqZ; lia))).
  apply list_elem_of_In, elem_of_seqZ. lia.
Qed.

(** The mode column of a file of a known type shows all sixteen bits of its
    mode: they can be read back from the text. *)
Theorem strmode_reads_back mode : type_char mode <> 63 -> mode_of_text (strmode_text mode) = Some (Z.land mode 65535).
Proof.
  intros Ht. rewrite strmode_text_low.
  assert (Hin : 0 <= Z.land mode 65535 < 65536).
  { change 65535 with (Z.ones 16). rewrite Z.land_ones by lia. change (2 ^ 16) with 65536. pose proof (Z.mod_pos_bound mode 65536). lia. }
  pose proof (reads_back_u16 _ Hin) as H. unfold reads_back in H. apply orb_true_iff in H as [H|H]; [|by apply bool_decide_eq_true in H].
  exfalso. apply Ht. apply Z.eqb_eq in H. rewrite <- H. unfold type_char. by rewrite <- !Z.land_assoc.
Qed.

Lemma strmode_reads_back_witness : mode_of_text (strmode_text 33261) = Some 33261.
Proof. rewrite (strmode_reads_back 33261); [reflexivity|discriminate]. Defined.

(** The option numbers that the code translates stay apart: two options of a
    table never become the same number. *)
Theorem soopt_tables_injective :
  NoDup so_options.*1 /\ NoDup so_options.*2 /\ NoDup ip_options.*1 /\ NoDup ip_options.*2.
Proof. repeat split; apply (bool_decide_eq_true_1 _); reflexivity. Qed.

(** A break that moves is returned by the next sbrk(0); a call that fails leaves
    it, and returns -1. *)
Theorem sbrk_moves_break c incr :
  0 <= heap_end c -> heap_end c + incr < 2147483648 -> 0 < heap_end c + incr ->
  let '(r, c1) := yos_sbrk c incr in
  (r = heap_end c /\ heap_end c1 = heap_end c + incr /\ fst (yos_sbrk c1 0) = heap_end c + incr) \/
  (r = UINT32_MAX /\ c1 = c).
Proof.
  intros H0 H1 H2. unfold yos_sbrk. destruct (Z.eqb_spec incr 0) as [->|Hne].
  { left. rewrite Z.add_0_r. done. }
  assert (E : u32 (heap_end c + u32 incr) = heap_end c + incr).
  { unfold u32. rewrite Z.add_mod_idemp_r by lia. apply Z.mod_small. lia. }
  rewrite E. unfold yos_brk. rewrite (proj2 (Z.eqb_neq _ 0)) by lia.
  destruct (memory_size c <? _); [by right|]. destruct (mmap_anchor c <? _); [by right|].
  rewrite s32_small, (proj2 (Z.ltb_ge _ 0)) by lia. left. done.
Qed.

Lemma timingsafe_memcmp_order_witness :
  let c := ExecCtx (write_bytes (write_bytes (fun _ => 0) 100 [1; 2; 9]) 200 [1; 5; 0]) 65536 0 0 [] [] 0 0 0 64 in
  yos_timingsafe_memcmp c 100 200 3 = -3.
Proof.
  cbv zeta. set (c := ExecCtx _ _ _ _ _ _ _ _ _ _). destruct (timingsafe_memcmp_order c 100 200 3) as [E _]; [lia|reflexivity|reflexivity|].
  rewrite E. vm_compute. reflexivity.
Defined.
