(* ===== verification/Fmtcheck.v ===== *)
(** Fmtcheck (src/src/yos/impl/libc/fmtcheck_freebsd.c, and its import in
    posix.c): whether a format of the user takes the arguments of a default
    format, decided by walking both formats argument by argument.

    A pointer into a format is the rest of the string, without its NUL.  [None]:
    the code walks a null pointer, or a string that no NUL ends inside linear
    memory. *)
From Stdlib Require Import Strings.String.
From S2P Require Import Prelude Memory Ctx CString Printf PrintfText.

Inductive EFT : Type :=
| FMTCHECK_START | FMTCHECK_SHORT | FMTCHECK_INT | FMTCHECK_WINTT | FMTCHECK_LONG | FMTCHECK_QUAD | FMTCHECK_INTMAXT
| FMTCHECK_PTRDIFFT | FMTCHECK_SIZET | FMTCHECK_CHARPOINTER | FMTCHECK_SHORTPOINTER | FMTCHECK_INTPOINTER | FMTCHECK_LONGPOINTER
| FMTCHECK_QUADPOINTER | FMTCHECK_INTMAXTPOINTER | FMTCHECK_PTRDIFFTPOINTER | FMTCHECK_SIZETPOINTER | FMTCHECK_DOUBLE
| FMTCHECK_LONGDOUBLE | FMTCHECK_STRING | FMTCHECK_WSTRING | FMTCHECK_WIDTH | FMTCHECK_PRECISION | FMTCHECK_DONE | FMTCHECK_UNKNOWN.

#[global] Instance EFT_eq_dec : EqDecision EFT.
Proof. solve_decision. Defined.

Inductive e_modifier : Type :=
| MOD_NONE | MOD_CHAR | MOD_SHORT | MOD_LONG | MOD_QUAD | MOD_INTMAXT | MOD_LONGDOUBLE | MOD_PTRDIFFT | MOD_SIZET.

(** * The walk *)

(** The length modifier; [None] when the format ends inside it. *)
Definition read_modifier (f : bytes) : option (bytes * e_modifier) :=
  match f with
  | [] => Some (f, MOD_NONE)
  | x :: r =>
      if x =? 104 then match r with [] => None | y :: r' => Some (if y =? 104 then (r', MOD_CHAR) else (r, MOD_SHORT)) end
      else if x =? 106 then Some (r, MOD_INTMAXT)
      else if x =? 108 then match r with [] => None | y :: r' => Some (if y =? 108 then (r', MOD_QUAD) else (r, MOD_LONG)) end
      else if x =? 113 then Some (r, MOD_QUAD)
      else if x =? 116 then Some (r, MOD_PTRDIFFT)
      else if x =? 122 then Some (r, MOD_SIZET)
      else if x =? 76 then Some (r, MOD_LONGDOUBLE)
      else Some (f, MOD_NONE)
  end.

(** The type of the conversion character under a modifier. *)
Definition conversion (m : e_modifier) (x : Z) : EFT :=
  if strchr_hits "diouxX" x then
    match m with
    | MOD_LONG => FMTCHECK_LONG | MOD_QUAD => FMTCHECK_QUAD | MOD_INTMAXT => FMTCHECK_INTMAXT
    | MOD_PTRDIFFT => FMTCHECK_PTRDIFFT | MOD_SIZET => FMTCHECK_SIZET
    | MOD_CHAR | MOD_SHORT | MOD_NONE => FMTCHECK_INT
    | _ => FMTCHECK_UNKNOWN
    end
  else if x =? 110 then
    match m with
    | MOD_CHAR => FMTCHECK_CHARPOINTER | MOD_SHORT => FMTCHECK_SHORTPOINTER | MOD_LONG => FMTCHECK_LONGPOINTER
    | MOD_QUAD => FMTCHECK_QUADPOINTER | MOD_INTMAXT => FMTCHECK_INTMAXTPOINTER | MOD_PTRDIFFT => FMTCHECK_PTRDIFFTPOINTER
    | MOD_SIZET => FMTCHECK_SIZETPOINTER | MOD_NONE => FMTCHECK_INTPOINTER
    | _ => FMTCHECK_UNKNOWN
    end
  else if strchr_hits "DOU" x then match m with MOD_NONE => FMTCHECK_LONG | _ => FMTCHECK_UNKNOWN end
  else if strchr_hits "aAeEfFgG" x then
    match m with MOD_LONGDOUBLE => FMTCHECK_LONGDOUBLE | MOD_LONG | MOD_NONE => FMTCHECK_DOUBLE | _ => FMTCHECK_UNKNOWN end
  else if x =? 99 then match m with MOD_LONG => FMTCHECK_WINTT | MOD_NONE => FMTCHECK_INT | _ => FMTCHECK_UNKNOWN end
  else if x =? 67 then match m with MOD_NONE => FMTCHECK_WINTT | _ => FMTCHECK_UNKNOWN end
  else if x =? 115 then match m with MOD_LONG => FMTCHECK_WSTRING | MOD_NONE => FMTCHECK_STRING | _ => FMTCHECK_UNKNOWN end
  else if x =? 83 then match m with MOD_NONE => FMTCHECK_WSTRING | _ => FMTCHECK_UNKNOWN end
  else if x =? 112 then match m with MOD_NONE => FMTCHECK_LONG | _ => FMTCHECK_UNKNOWN end
  else FMTCHECK_UNKNOWN.

Definition get_next_format_from_precision (f : bytes) : bytes * EFT :=
  match read_modifier f with
  | None => ([], FMTCHECK_UNKNOWN)
  | Some (f1, m) => match f1 with [] => ([], FMTCHECK_UNKNOWN) | x :: _ => (f1, conversion m x) end
  end.

(** The leading characters that satisfy [ok] are passed over. *)
Fixpoint skip (ok : Z -> bool) (f : bytes) : bytes :=
  match f with
  | [] => []
  | x :: r => if ok x then skip ok r else f
  end.

Definition get_next_format_from_width (f : bytes) : bytes * EFT :=
  match f with
  | x :: r =>
      if x =? DOT then
        match r with
        | y :: _ => if y =? STAR then (r, FMTCHECK_PRECISION)
                    else match skip is_digit r with [] => ([], FMTCHECK_UNKNOWN) | f1 => get_next_format_from_precision f1 end
        | [] => ([], FMTCHECK_UNKNOWN)
        end
      else get_next_format_from_precision f
  | [] => get_next_format_from_precision f
  end.

(** After the next percent sign that starts a specification: [None] when there
    is none, the empty rest when the format ends there. *)
Fixpoint seek (f : bytes) : option bytes :=
  match f with
  | [] => None
  | x :: r =>
      if x =? 37 then
        match r with
        | [] => Some []
        | y :: r' => if y =? 37 then seek r' else Some r
        end
      else seek r
  end.

Definition get_next_format (f : bytes) (eft : EFT) : bytes * EFT :=
  match eft with
  | FMTCHECK_WIDTH => get_next_format_from_width (tail f)
  | FMTCHECK_PRECISION => get_next_format_from_precision (tail f)
  | _ =>
      match seek f with
      | None => ([], FMTCHECK_DONE)
      | Some [] => ([], FMTCHECK_UNKNOWN)
      | Some r =>
          match skip (strchr_hits "#'0- +") r with
          | [] => ([], FMTCHECK_UNKNOWN)
          | x :: r1 =>
              if x =? STAR then (x :: r1, FMTCHECK_WIDTH)
              else match skip is_digit (x :: r1) with [] => ([], FMTCHECK_UNKNOWN) | f1 => get_next_format_from_width f1 end
          end
      end
  end.

(** The loop, at most [fuel] rounds; [true]: the user's format is returned.  The
    default format is a null pointer, or has no end, when it is [None]. *)
Fixpoint fmtcheck_loop (fuel : nat) (f1 : bytes) (f1t : EFT) (f2 : option bytes) (f2t : EFT) : option bool :=
  match fuel with
  | O => None
  | S n =>
      let '(g1, t1) := get_next_format f1 f1t in
      if bool_decide (t1 = FMTCHECK_DONE) then Some true
      else if bool_decide (t1 = FMTCHECK_UNKNOWN) then Some false
      else
        match f2 with
        | None => None
        | Some g =>
            let '(g2, t2) := get_next_format g f2t in
            if bool_decide (t1 <> t2) then Some false else fmtcheck_loop n g1 t1 (Some g2) t2
        end
  end.

(** Every round moves the user's format on by a character at least. *)
Definition yos_fmtcheck_freebsd (f1 : bytes) (f2 : option bytes) : option bool :=
  fmtcheck_loop (S (length f1)) f1 FMTCHECK_START f2 FMTCHECK_START.

Definition yos_fmtcheck (c : exec_ctx) (user_off default_off : Z) : option Z :=
  if user_off =? 0 then Some default_off
  else
    u ← cstr c user_off;
    r ← yos_fmtcheck_freebsd u (if default_off =? 0 then None else cstr c default_off);
    Some (if (r : bool) then user_off else default_off).

(** * The walk comes to an end *)

Lemma skip_shorter ok f : (length (skip ok f) <= length f)%nat.
Proof. induction f as [|x f IH]; [done|]. cbn [skip]. destruct (ok x); cbn [length] in *; lia. Qed.

Lemma read_modifier_length f g m : read_modifier f = Some (g, m) -> (length g <= length f)%nat.
Proof.
  destruct f as [|x r]; [by intros [= <- _]|]. cbn [read_modifier].
  repeat case_match; intros; simplify_eq; cbn [length] in *; lia.
Qed.

Lemma from_precision_length f g t :
  get_next_format_from_precision f = (g, t) -> (length g <= length f)%nat /\ t <> FMTCHECK_WIDTH /\ t <> FMTCHECK_PRECISION /\ t <> FMTCHECK_DONE.
Proof.
  unfold get_next_format_from_precision. destruct (read_modifier f) as [[f1 m]|] eqn:E; [|intros [= <- <-]; cbn; split; [lia|done]].
  apply read_modifier_length in E. destruct f1 as [|x f1]; [intros [= <- <-]; cbn; split; [lia|done]|]. intros [= <- <-]. split; [done|].
  unfold conversion. repeat case_match; done.
Qed.

Lemma from_width_length f g t :
  get_next_format_from_width f = (g, t) ->
  (length g <= length f)%nat /\ t <> FMTCHECK_WIDTH /\ t <> FMTCHECK_DONE /\ (t = FMTCHECK_PRECISION -> (length g < length f)%nat /\ g <> []).
Proof.
  assert (Hp : forall f1 g1 t1, get_next_format_from_precision f1 = (g1, t1) -> (length f1 <= length f)%nat ->
    (length g1 <= length f)%nat /\ t1 <> FMTCHECK_WIDTH /\ t1 <> FMTCHECK_DONE /\ (t1 = FMTCHECK_PRECISION -> (length g1 < length f)%nat /\ g1 <> [])).
  { intros f1 g1 t1 E Hl. apply from_precision_length in E as (H1 & H2 & H3 & H4). split_and!; [lia|done|done|done]. }
  destruct f as [|x r]; cbn [get_next_format_from_width]; [intros E; by eapply Hp|].
  destruct (x =? DOT); [|intros E; by eapply Hp]. destruct r as [|y r]; [intros [= <- <-]; cbn; split_and!; [lia|done..]|].
  destruct (y =? STAR); [intros [= <- <-]; cbn; split_and!; [lia|done|done|intros _; split; [lia|done]]|].
  pose proof (skip_shorter is_digit (y :: r)) as Hs. destruct (skip is_digit (y :: r)) as [|z r1]; [intros [= <- <-]; cbn; split_and!; [lia|done..]|].
  intros E. eapply Hp; [exact E|]. cbn [length] in *. lia.
Qed.

Lemma seek_length f r : seek f = Some r -> (length r < length f)%nat.
Proof.
  enough (forall n f r, (length f <= n)%nat -> seek f = Some r -> (length r < length f)%nat) by eauto.
  induction n as [|n IH]; intros [|x g] s Hn; cbn [length] in Hn; try done; [lia|]. cbn [seek].
  destruct (x =? 37); [|intros E; apply IH in E; cbn [length] in *; lia].
  destruct g as [|y g]; [intros [= <-]; cbn; lia|]. destruct (y =? 37); [|intros [= <-]; cbn; lia].
  intros E. apply IH in E; cbn [length] in *; lia.
Qed.

Lemma not_or_and (P Q : Prop) : ~ (P \/ Q) -> ~ P /\ ~ Q.
Proof. tauto. Qed.

Definition starred (t : EFT) : Prop := t = FMTCHECK_WIDTH \/ t = FMTCHECK_PRECISION.
Definition ended (t : EFT) : Prop := t = FMTCHECK_DONE \/ t = FMTCHECK_UNKNOWN.

Lemma get_next_format_shorter f t g u :
  get_next_format f t = (g, u) -> (starred t -> f <> []) -> ~ ended u -> (length g < length f)%nat /\ (starred u -> g <> []).
Proof.
  intros E Ht Hu. assert (Hst : starred t -> (length (tail f) < length f)%nat) by (intros H; destruct f; [by destruct Ht|cbn; lia]).
  assert (Hw : forall f1, get_next_format_from_width f1 = (g, u) -> (length f1 < length f)%nat -> (length g < length f)%nat /\ (starred u -> g <> [])).
  { intros f1 E1 Hl. apply from_width_length in E1 as (H1 & H2 & H3 & H4). split; [lia|]. intros [->| ->]; [done|by apply H4]. }
  destruct t; cbn [get_next_format] in E;
    try (match type of E with get_next_format_from_width _ = _ => apply (Hw _ E), Hst; by left end);
    try (match type of E with get_next_format_from_precision _ = _ =>
           specialize (Hst (or_intror eq_refl)); apply from_precision_length in E as (H1 & H2 & H3 & _); split; [lia|intros [->| ->]; done] end);
    (destruct (seek f) as [[|x r]|] eqn:Es; [injection E as <- <-; exfalso; apply Hu; by right| |injection E as <- <-; exfalso; apply Hu; by left];
     apply seek_length in Es; pose proof (skip_shorter (strchr_hits "#'0- +") (x :: r)) as Hs;
     destruct (skip (strchr_hits "#'0- +") (x :: r)) as [|y r1]; [injection E as <- <-; exfalso; apply Hu; by right|];
     destruct (y =? STAR); [injection E as <- <-; split; [lia|done]|];
     pose proof (skip_shorter is_digit (y :: r1)) as Hd;
     destruct (skip is_digit (y :: r1)) as [|z r2]; [injection E as <- <-; exfalso; apply Hu; by right|];
     apply (Hw _ E); lia).
Qed.

(** The arguments of a format, one type after the other; an unknown one is the
    last. *)
Inductive trace : bytes -> EFT -> list EFT -> Prop :=
| trace_done f t g : get_next_format f t = (g, FMTCHECK_DONE) -> trace f t []
| trace_unknown f t g : get_next_format f t = (g, FMTCHECK_UNKNOWN) -> trace f t [FMTCHECK_UNKNOWN]
| trace_more f t g u us : get_next_format f t = (g, u) -> ~ ended u -> trace g u us -> trace f t (u :: us).

#[local] Instance ended_dec t : Decision (ended t).
Proof. unfold ended. apply _. Defined.

Lemma trace_total n : forall f t, (length f <= n)%nat -> (starred t -> f <> []) -> exists us, trace f t us /\ (length us <= length f)%nat.
Proof.
  induction n as [|n IH]; intros f t Hf Ht; destruct (get_next_format f t) as [g u] eqn:E.
  - destruct f; [|cbn in Hf; lia]. assert (u = FMTCHECK_DONE) as -> by (destruct t; first [by injection E|exfalso; apply Ht; [first [by left|by right]|done]]).
    exists []. split; [by eapply trace_done|cbn; lia].
  - destruct (decide (ended u)) as [[->| ->]|Hu].
    + exists []. split; [by eapply trace_done|cbn; lia].
    + exists [FMTCHECK_UNKNOWN]. split; [by eapply trace_unknown|]. destruct f; [|cbn; lia].
      destruct t; first [by injection E|exfalso; apply Ht; [first [by left|by right]|done]].
    + destruct (get_next_format_shorter _ _ _ _ E Ht Hu) as [Hl Hg]. destruct (IH g u ltac:(lia) Hg) as (us & Htr & Hus).
      exists (u :: us). split; [by eapply trace_more|cbn; lia].
Qed.

Lemma trace_det f t us vs : trace f t us -> trace f t vs -> us = vs.
Proof.
  intros H. revert vs. induction H as [f t g E|f t g E|f t g u us E Hu _ IH]; intros vs Hv.
  - inversion Hv as [? ? ? E2|? ? ? E2|? ? ? ? ? E2 Hu2]; subst; rewrite E in E2; simplify_eq; [done|exfalso; apply Hu2; by left].
  - inversion Hv as [? ? ? E2|? ? ? E2|? ? ? ? ? E2 Hu2]; subst; rewrite E in E2; simplify_eq; [done|exfalso; apply Hu2; by right].
  - inversion Hv as [? ? ? E2|? ? ? E2|? ? ? ? ? E2 Hu2 Ht2]; subst; rewrite E in E2; simplify_eq;
      [exfalso; apply Hu; by left|exfalso; apply Hu; by right|]. f_equal. by apply IH.
Qed.

(** Whether the arguments of one format are the first ones of the other, and all
    of them known. *)
Fixpoint accepts (us vs : list EFT) : bool :=
  match us with
  | [] => true
  | u :: us' => bool_decide (u <> FMTCHECK_UNKNOWN) && match vs with [] => false | v :: vs' => bool_decide (u = v) && accepts us' vs' end
  end.

Lemma accepts_spec us vs : accepts us vs = true <-> FMTCHECK_UNKNOWN ∉ us /\ (us `prefix_of` vs).
Proof.
  revert vs. induction us as [|u us IH]; intros vs; cbn [accepts].
  { split; [intros _; split; [by apply not_elem_of_nil|by apply prefix_nil]|done]. }
  rewrite andb_true_iff, bool_decide_eq_true, not_elem_of_cons. destruct vs as [|v vs].
  { split; [by intros []|]. intros [_ H]. by apply prefix_nil_inv in H. }
  rewrite andb_true_iff, bool_decide_eq_true, IH. split.
  - intros (H1 & <- & H2 & H3). split; [by split|by apply prefix_cons].
  - intros [[H1 H2] H3]. pose proof (prefix_cons_inv_1 _ _ _ _ H3) as ->. apply prefix_cons_inv_2 in H3. by split_and!.
Qed.

Lemma loop_accepts f1 t1 us : trace f1 t1 us -> forall fuel f2 t2 vs, trace f2 t2 vs -> (length us < fuel)%nat ->
  fmtcheck_loop fuel f1 t1 (Some f2) t2 = Some (accepts us vs).
Proof.
  induction 1 as [f t g E|f t g E|f t g u us E Hu Htr IH]; intros fuel f2 t2 vs Hv Hf; (destruct fuel as [|fuel]; [lia|]); cbn [fmtcheck_loop accepts].
  - by rewrite E, bool_decide_eq_true_2.
  - rewrite E. rewrite bool_decide_eq_false_2, bool_decide_eq_true_2 by done. rewrite bool_decide_eq_false_2 by tauto. done.
  - assert (Hd : u <> FMTCHECK_DONE) by (intros ->; apply Hu; by left). assert (Hk : u <> FMTCHECK_UNKNOWN) by (intros ->; apply Hu; by right).
    rewrite E, (bool_decide_eq_false_2 _ Hd), (bool_decide_eq_false_2 _ Hk), (bool_decide_eq_true_2 _ Hk). cbn [andb].
    destruct Hv as [f2 t2 g2 E2|f2 t2 g2 E2|f2 t2 g2 v vs E2 Hv Htr2]; rewrite E2.
    + rewrite bool_decide_eq_true_2 by done. done.
    + rewrite bool_decide_eq_true_2 by done. by rewrite bool_decide_eq_false_2.
    + destruct (decide (u = v)) as [->|Hne].
      * rewrite bool_decide_eq_false_2, bool_decide_eq_true_2 by tauto. cbn [andb]. apply IH; [done|]. cbn [length] in Hf. lia.
      * rewrite (bool_decide_eq_true_2 (u <> v)), (bool_decide_eq_false_2 (u = v)) by done. done.
Qed.

(** Fmtcheck returns for every two formats: it walks both to their end or to
    their first unknown specification, and picks the user's format exactly when
    all its arguments are known and are the first arguments of the default
    format. *)
Theorem fmtcheck_decides f1 f2 :
  exists us vs, trace f1 FMTCHECK_START us /\ trace f2 FMTCHECK_START vs /\
    yos_fmtcheck_freebsd f1 (Some f2) = Some (bool_decide (FMTCHECK_UNKNOWN ∉ us /\ (us `prefix_of` vs))).
Proof.
  destruct (trace_total (length f1) f1 FMTCHECK_START) as (us & H1 & Hl); [done|by intros []|].
  destruct (trace_total (length f2) f2 FMTCHECK_START) as (vs & H2 & _); [done|by intros []|].
  exists us, vs. split_and!; [done|done|]. unfold yos_fmtcheck_freebsd. rewrite (loop_accepts _ _ _ H1 _ _ _ _ H2) by lia. f_equal.
  apply eq_true_iff_eq. by rewrite bool_decide_eq_true, accepts_spec.
Qed.

(** * Well-formed formats *)

Definition modifier_of (m : bytes) : e_modifier :=
  if bool_decide (m = lit "h") then MOD_SHORT
  else if bool_decide (m = lit "hh") then MOD_CHAR
  else if bool_decide (m = lit "l") then MOD_LONG
  else if bool_decide (m = lit "ll" \/ m = lit "q") then MOD_QUAD
  else if bool_decide (m = lit "j") then MOD_INTMAXT
  else if bool_decide (m = lit "t") then MOD_PTRDIFFT
  else if bool_decide (m = lit "z") then MOD_SIZET
  else if bool_decide (m = lit "L") then MOD_LONGDOUBLE
  else MOD_NONE.

(** The type of a specification, and the arguments that a piece of a format
    takes. *)
Definition class_of (d : directive) : EFT := conversion (modifier_of (d_mod d)) (d_conv d).
Definition star_types (d : directive) : list EFT :=
  (if is_star (d_width d) then [FMTCHECK_WIDTH] else []) ++ (if prec_star (d_prec d) then [FMTCHECK_PRECISION] else []).
Definition item_types (i : item) : list EFT :=
  match i with
  | Lit _ => []
  | Conv d => if bool_decide (print d = lit "%%") then [] else star_types d ++ [class_of d]
  end.

(** Up to the first unknown one. *)
Fixpoint cut (us : list EFT) : list EFT :=
  match us with
  | [] => []
  | u :: us' => u :: if bool_decide (u = FMTCHECK_UNKNOWN) then [] else cut us'
  end.

Lemma accepts_cut us : forall vs, accepts (cut us) (cut vs) = accepts us vs.
Proof.
  induction us as [|u us IH]; intros vs; [done|]. cbn [cut accepts]. destruct (decide (u = FMTCHECK_UNKNOWN)) as [->|Hu].
  { by rewrite bool_decide_eq_false_2 by tauto. }
  rewrite (bool_decide_eq_false_2 (u = _)) by done. f_equal. destruct vs as [|v vs]; [done|]. cbn [cut].
  destruct (decide (u = v)) as [<-|Hv].
  - rewrite !bool_decide_eq_true_2 by done. rewrite (bool_decide_eq_false_2 (u = _)) by done. apply IH.
  - by rewrite !(bool_decide_eq_false_2 (u = v)).
Qed.

Lemma flags_same x : strchr_hits "#'0- +" x = strchr_hits "-+ #0'" x.
Proof.
  unfold strchr_hits. change (lit "#'0- +") with [35; 39; 48; 45; 32; 43]. change (lit "-+ #0'") with [45; 43; 32; 35; 48; 39]. cbn [existsb].
  by destruct (x =? 0), (x =? 35), (x =? 39), (x =? 48), (x =? 45), (x =? 32), (x =? 43).
Qed.

Lemma skip_spec ok s y t : Forall (fun ch => ok ch = true) s -> ok y = false -> skip ok (s ++ y :: t) = y :: t.
Proof. intros Hs Hy. induction Hs as [|x s Hx _ IH]; cbn [app skip]; [by rewrite Hy|]. by rewrite Hx. Qed.

Lemma from_precision_spec m x rest : m ∈ modifiers -> ends x -> get_next_format_from_precision (m ++ x :: rest) = (x :: rest, conversion (modifier_of m) x).
Proof.
  intros Hm (_ & _ & Hx & _). unfold strchr_hits in Hx. change (lit "hlLjztq") with [104; 108; 76; 106; 122; 116; 113] in Hx. cbn [existsb] in Hx.
  repeat (apply orb_false_iff in Hx as [? Hx]).
  repeat (apply elem_of_cons in Hm as [->|Hm]); [..|by apply elem_of_nil in Hm];
    unfold get_next_format_from_precision; cbn; repeat match goal with H : (x =? _) = false |- _ => rewrite ?H; clear H end; reflexivity.
Qed.

Lemma from_width_spec p m x rest : (match p with Some f => field_ok f | None => True end) -> m ∈ modifiers -> ends x ->
  get_next_format_from_width (print_prec p ++ m ++ x :: rest) =
    if prec_star p then (STAR :: m ++ x :: rest, FMTCHECK_PRECISION) else (x :: rest, conversion (modifier_of m) x).
Proof.
  intros Hp Hm Hx. rewrite <- (from_precision_spec m x rest Hm Hx). destruct p as [f|]; cbn [print_prec prec_star app get_next_format_from_width].
  - rewrite Z.eqb_refl. destruct (field_head f m x rest Hp Hm Hx) as (y & t & E & Hy). destruct (after_prec m x rest Hm Hx) as (y3 & t3 & E3 & _ & Hd & _).
    rewrite E, Hy. destruct f as [ds|]; [|cbn in E; by injection E as <- <-]. cbn [is_star]. rewrite <- E. cbn [print_field]. rewrite E3, skip_spec by done.
    by rewrite <- E3.
  - destruct (after_prec m x rest Hm Hx) as (y & t & -> & _ & _ & _ & Hdot). cbn [get_next_format_from_width]. by rewrite (proj2 (Z.eqb_neq y DOT)).
Qed.

(** The first character of a specification that is not the percent sign pair. *)
Lemma print_second d : directive_ok d -> exists y t, print d = 37 :: y :: t /\ (y = 37 -> print d = lit "%%").
Proof.
  intros [Hfl [Hw Hw0] Hp Hm Hc _]. destruct d as [fl w p m x]. unfold print, print_head. cbn [d_flags d_width d_prec d_mod d_conv app] in *.
  destruct fl as [|y fl].
  2:{ eexists y, _. split; [done|]. intros ->. apply Forall_cons in Hfl as [[_ Hfl] _]. discriminate Hfl. }
  destruct w as [[|y ds]|]; cbn [print_field app].
  - destruct p as [q|]; cbn [print_prec app]; [eexists _, _; split; [done|]; discriminate|].
    repeat (apply elem_of_cons in Hm as [->|Hm]); [..|by apply elem_of_nil in Hm]; (eexists _, _; split; [reflexivity|]); try discriminate.
    intros ->. done.
  - eexists y, _. split; [done|]. intros ->. apply Forall_cons in Hw as [Hw _]. discriminate Hw.
  - eexists _, _. split; [done|]. discriminate.
Qed.

Lemma next_directive d rest : directive_ok d -> print d <> lit "%%" ->
  let tail := d_mod d ++ d_conv d :: rest in
  get_next_format (print d ++ rest) FMTCHECK_START =
    if is_star (d_width d) then (STAR :: print_prec (d_prec d) ++ tail, FMTCHECK_WIDTH)
    else if prec_star (d_prec d) then (STAR :: tail, FMTCHECK_PRECISION) else (d_conv d :: rest, class_of d).
Proof.
  intros Hd Hne. cbv zeta. destruct (print_second d Hd) as (y & t & E & Hy). cbn [get_next_format]. rewrite E. cbn [app seek].
  change (37 =? 37) with true. cbv iota. rewrite (proj2 (Z.eqb_neq y 37)) by tauto.
  assert (Er : y :: t ++ rest = d_flags d ++ print_field (d_width d) ++ print_prec (d_prec d) ++ d_mod d ++ d_conv d :: rest).
  { change (y :: t ++ rest) with ((y :: t) ++ rest). unfold print, print_head in E. cbn [app] in E. injection E as E. rewrite <- E. by rewrite <- !app_assoc. }
  rewrite Er. clear Er E. destruct Hd as [Hfl [Hw Hw0] Hp Hm Hc _].
  destruct (after_flags (d_width d) (d_prec d) (d_mod d) (d_conv d) rest Hw Hw0 Hm Hc) as (y1 & t1 & E1 & Hf1 & Hs1).
  rewrite E1, skip_spec; [|eapply Forall_impl; [exact Hfl|]; intros ch [_ H]; by rewrite flags_same|by rewrite flags_same].
  rewrite Hs1. rewrite <- E1. unfold class_of. rewrite <- (from_width_spec (d_prec d) (d_mod d) (d_conv d) rest Hp Hm Hc).
  destruct (d_width d) as [ds|]; cbn [is_star print_field] in *.
  - destruct (after_width (d_prec d) (d_mod d) (d_conv d) rest Hm Hc) as (y2 & t2 & E2 & _ & Hd2 & _). rewrite E2, skip_spec by done. done.
  - cbn in E1. injection E1 as <- <-. done.
Qed.

Lemma trace_skip x f t us : x <> 37 -> ~ starred t -> trace f FMTCHECK_START us -> trace (x :: f) t us.
Proof.
  intros Hx Ht. assert (E : get_next_format (x :: f) t = get_next_format f FMTCHECK_START).
  { assert (Es : seek (x :: f) = seek f) by (cbn [seek]; by rewrite (proj2 (Z.eqb_neq x 37))).
    destruct t; cbn [get_next_format]; rewrite ?Es; try done; exfalso; apply Ht; [by left|by right]. }
  inversion 1; subst; [eapply trace_done|eapply trace_unknown|eapply trace_more]; rewrite ?E; eauto.
Qed.

(** One argument in front of a trace. *)
Lemma trace_cons f t g u us : get_next_format f t = (g, u) -> u <> FMTCHECK_DONE -> (u <> FMTCHECK_UNKNOWN -> trace g u (cut us)) -> trace f t (cut (u :: us)).
Proof.
  intros E Hd Ht. cbn [cut]. destruct (decide (u = FMTCHECK_UNKNOWN)) as [->|Hu].
  - rewrite bool_decide_eq_true_2 by done. by eapply trace_unknown.
  - rewrite bool_decide_eq_false_2 by done. eapply trace_more; [exact E|by intros [?|?]|by apply Ht].
Qed.

Lemma class_plain d : class_of d <> FMTCHECK_DONE /\ ~ starred (class_of d) /\ (class_of d <> FMTCHECK_UNKNOWN -> d_conv d <> 37).
Proof.
  unfold class_of, starred. split; [unfold conversion; repeat case_match; done|]. split; [unfold conversion; repeat case_match; intros [?|?]; done|].
  intros H E. apply H. rewrite E. by destruct (modifier_of (d_mod d)).
Qed.

Lemma trace_directive d rest us : directive_ok d -> print d <> lit "%%" -> trace rest FMTCHECK_START (cut us) ->
  trace (print d ++ rest) FMTCHECK_START (cut (star_types d ++ class_of d :: us)).
Proof.
  intros Hd Hne Htr. pose proof (next_directive d rest Hd Hne) as En. cbv zeta in En. destruct (class_plain d) as (Hc1 & Hc2 & Hc3).
  pose proof Hd as [_ _ Hp Hm Hc _].
  assert (Hlast : class_of d <> FMTCHECK_UNKNOWN -> trace (d_conv d :: rest) (class_of d) (cut us)) by (intros Hu; apply trace_skip; auto).
  assert (Hprec : forall pre, trace (pre :: d_mod d ++ d_conv d :: rest) FMTCHECK_PRECISION (cut (class_of d :: us))).
  { intros pre. eapply trace_cons; [|exact Hc1|exact Hlast]. exact (from_precision_spec (d_mod d) (d_conv d) rest Hm Hc). }
  unfold star_types. destruct (is_star (d_width d)).
  - cbn [app]. eapply trace_cons; [exact En|done|]. intros _.
    assert (Ew := from_width_spec (d_prec d) (d_mod d) (d_conv d) rest Hp Hm Hc). destruct (prec_star (d_prec d)); cbn [app].
    + eapply trace_cons; [exact Ew|done|]. intros _. apply Hprec.
    + eapply trace_cons; [exact Ew|exact Hc1|exact Hlast].
  - cbn [app]. destruct (prec_star (d_prec d)); cbn [app].
    + eapply trace_cons; [exact En|done|]. intros _. apply Hprec.
    + eapply trace_cons; [exact En|exact Hc1|exact Hlast].
Qed.

Lemma trace_items items : Forall item_ok items -> trace (format_text items) FMTCHECK_START (cut (flat_map item_types items)).
Proof.
  induction 1 as [|i items Hi _ IH]; [by eapply trace_done|]. unfold format_text in *. cbn [flat_map]. destruct i as [ch|d]; cbn [item_text item_types app].
  - apply trace_skip; [apply Hi|by intros [?|?]|done].
  - destruct (decide (print d = lit "%%")) as [E|Hne].
    + rewrite (bool_decide_eq_true_2 _ E), E. cbn [app]. revert IH. generalize (cut (flat_map item_types items)), (flat_map item_text items).
      intros us f IH. inversion IH; subst; [eapply trace_done|eapply trace_unknown|eapply trace_more]; eauto.
    + rewrite (bool_decide_eq_false_2 _ Hne), <- app_assoc. cbn [app]. by apply trace_directive.
Qed.

(** On well-formed formats fmtcheck compares the lists of their arguments,
    in order, a star for a width or a precision before the converted one: the
    user's format is returned exactly when its list has no unknown type and the
    list of the default format starts with it. *)
Theorem fmtcheck_compares_arguments u d :
  Forall item_ok u -> Forall item_ok d ->
  yos_fmtcheck_freebsd (format_text u) (Some (format_text d)) =
    Some (bool_decide (FMTCHECK_UNKNOWN ∉ flat_map item_types u /\ (flat_map item_types u `prefix_of` flat_map item_types d))).
Proof.
  intros Hu Hd. pose proof (trace_items u Hu) as T1. pose proof (trace_items d Hd) as T2.
  destruct (trace_total (length (format_text u)) (format_text u) FMTCHECK_START) as (us & H1 & Hl); [done|by intros []|].
  assert (us = cut (flat_map item_types u)) as -> by (by eapply trace_det).
  unfold yos_fmtcheck_freebsd. rewrite (loop_accepts _ _ _ T1 _ _ _ _ T2) by lia. f_equal. rewrite accepts_cut.
  apply eq_true_iff_eq. by rewrite bool_decide_eq_true, accepts_spec.
Qed.

(** * printf reads what fmtcheck accepts *)

(** The specifications that printf.c converts with the argument that C gives
    them. *)
Definition converted (d : directive) : Prop := d_conv d ∈ lit "diouxXcspaAeEfFgG" /\ d_mod d <> lit "q".

Definition item_converted (i : item) : Prop :=
  match i with Lit _ => True | Conv d => print d = lit "%%" \/ converted d end.

Definition next_i32 (va : Z) : Z := u32 (va_align va 4 + 4).
Definition next_i64 (va : Z) : Z := u32 (va_align va 8 + 8).

(** The argument cursor after an argument of a type. *)
Definition eight_bytes (t : EFT) : bool :=
  match t with FMTCHECK_QUAD | FMTCHECK_INTMAXT | FMTCHECK_DOUBLE | FMTCHECK_LONGDOUBLE => true | _ => false end.
Definition class_cursor (t : EFT) (va : Z) : Z := if eight_bytes t then next_i64 va else next_i32 va.

(** What the [switch] of printf.c reads for a conversion character under a
    modifier. *)
Definition switch_reads (x : Z) (m : bytes) : option bool :=
  match kind_of x with
  | KSigned | KUnsigned => Some (is_ll (mods_of m) || is_j (mods_of m))
  | KFloat => Some true
  | KPtr | KChar | KStr => Some false
  | _ => None
  end.

Definition reads_class (x : Z) (m : bytes) : bool :=
  bool_decide (m = lit "q") || bool_decide (conversion (modifier_of m) x = FMTCHECK_UNKNOWN) ||
  bool_decide (switch_reads x m = Some (eight_bytes (conversion (modifier_of m) x))).

Lemma switch_reads_class x m : x ∈ lit "diouxXcspaAeEfFgG" -> m ∈ modifiers -> m <> lit "q" -> conversion (modifier_of m) x <> FMTCHECK_UNKNOWN ->
  switch_reads x m = Some (eight_bytes (conversion (modifier_of m) x)).
Proof.
  intros Hx Hm Hq Hk. assert (A : forallb (fun x => forallb (reads_class x) modifiers) (lit "diouxXcspaAeEfFgG") = true) by (vm_compute; reflexivity).
  rewrite forallb_forall in A. apply list_elem_of_In in Hx. specialize (A x Hx). cbn beta in A. rewrite forallb_forall in A.
  apply list_elem_of_In in Hm. specialize (A m Hm). unfold reads_class in A. rewrite !orb_true_iff, !bool_decide_eq_true in A. tauto.
Qed.

Definition star_cursor (d : directive) (va : Z) : Z :=
  let va1 := if is_star (d_width d) then next_i32 va else va in if prec_star (d_prec d) then next_i32 va1 else va1.

Lemma va_i32_cursor c va : snd (va_i32 c va) = next_i32 va.
Proof. unfold va_i32, next_i32. by destruct (_ <? _). Qed.

Lemma va_i64_cursor c va : snd (va_i64 c va) = next_i64 va.
Proof. unfold va_i64, next_i64. by destruct (_ <? _). Qed.

Section Reading.
Variable snprintf : bytes -> list host_arg -> option bytes.
Variable c : exec_ctx.

Definition cursor (d : directive) (va : Z) : Z := snd (convert snprintf c (head_of d 0) (d_conv d) va).

Lemma stars_cursor d va : snd (stars c (head_of d 0) va) = star_cursor d va.
Proof.
  unfold stars, star_cursor, head_of. cbn [sh_width_star sh_prec_star]. change (match d_prec d with Some f => is_star f | None => false end) with (prec_star (d_prec d)).
  pose proof (va_i32_cursor c va) as E1. pose proof (va_i32_cursor c (next_i32 va)) as E2.
  destruct (is_star (d_width d)), (prec_star (d_prec d)); [|by destruct (va_i32 c va)|by destruct (va_i32 c va)|done].
  destruct (va_i32 c va) as [v1 o1]. cbn [snd] in E1. subst o1. by destruct (va_i32 c (next_i32 va)) as [v2 o2].
Qed.

Lemma convert_cursor d va : d_mod d ∈ modifiers -> converted d -> class_of d <> FMTCHECK_UNKNOWN -> cursor d va = class_cursor (class_of d) (star_cursor d va).
Proof.
  intros Hm [Hc Hq] Hk. unfold cursor, convert. rewrite <- stars_cursor. destruct (stars c (head_of d 0) va) as [st va1]. cbn [snd].
  change (sh_mods (head_of d 0)) with (mods_of (d_mod d)). unfold class_of in *.
  pose proof (switch_reads_class _ _ Hc Hm Hq Hk) as T. unfold class_cursor. unfold switch_reads in T.
  set (spec := host_spec _ _). clearbody spec. set (cls := eight_bytes _) in *. clearbody cls.
  pose proof (va_i32_cursor c va1) as E4. pose proof (va_i64_cursor c va1) as E8. unfold va_f64.
  destruct (va_i32 c va1) as [v4 o4], (va_i64 c va1) as [v8 o8]. cbn [snd] in E4, E8. subst o4 o8.
  destruct (kind_of (d_conv d)); try discriminate T; injection T as <-; first [reflexivity|by destruct (_ || _)].
Qed.

(** Where each specification of a format leaves the argument cursor. *)
Fixpoint cursors (items : list item) (va : Z) : list Z :=
  match items with
  | [] => []
  | Lit _ :: rest => cursors rest va
  | Conv d :: rest => if bool_decide (print d = lit "%%") then cursors rest va else cursor d va :: cursors rest (cursor d va)
  end.

Lemma prefix_heads {A} (x y : A) us vs : x :: us `prefix_of` y :: vs -> x = y /\ us `prefix_of` vs.
Proof. intros H. split; [by eapply prefix_cons_inv_1|by eapply prefix_cons_inv_2]. Qed.

Lemma types_decode a b us vs : star_types a ++ class_of a :: us `prefix_of` star_types b ++ class_of b :: vs ->
  star_types a = star_types b /\ class_of a = class_of b /\ us `prefix_of` vs.
Proof.
  destruct (class_plain a) as (_ & Ha & _). destruct (class_plain b) as (_ & Hb & _).
  apply not_or_and in Ha as [Ha1 Ha2]. apply not_or_and in Hb as [Hb1 Hb2]. unfold star_types. revert Ha1 Ha2 Hb1 Hb2.
  generalize (class_of a), (class_of b). intros x y Ha1 Ha2 Hb1 Hb2 H.
  destruct (is_star (d_width a)), (is_star (d_width b)), (prec_star (d_prec a)), (prec_star (d_prec b)); cbn [app] in *;
    repeat (apply prefix_heads in H as [? H]); first [exfalso; clear H; congruence|split; [reflexivity|split; assumption]].
Qed.

Lemma star_cursor_types a b va : star_types a = star_types b -> star_cursor a va = star_cursor b va.
Proof.
  unfold star_types, star_cursor. by destruct (is_star (d_width a)), (is_star (d_width b)), (prec_star (d_prec a)), (prec_star (d_prec b)).
Qed.

Lemma cursors_prefix u : forall d va, Forall item_ok u -> Forall item_converted u -> Forall item_ok d -> Forall item_converted d ->
  FMTCHECK_UNKNOWN ∉ flat_map item_types u -> flat_map item_types u `prefix_of` flat_map item_types d -> cursors u va `prefix_of` cursors d va.
Proof.
  induction u as [|[ch|a] u IH]; intros d va Hu Hcu Hd Hcd Hk Hp; [apply prefix_nil| |];
    apply Forall_cons in Hu as [Hok Hu]; apply Forall_cons in Hcu as [Hca Hcu]; cbn [flat_map item_types cursors] in *; [by apply IH|].
  destruct (decide (print a = lit "%%")) as [E|Hne]; [rewrite (bool_decide_eq_true_2 _ E) in *; by apply IH|].
  rewrite (bool_decide_eq_false_2 _ Hne) in *. destruct Hca as [|Hca]; [done|].
  rewrite <- app_assoc in Hk, Hp. cbn [app] in Hk, Hp.
  assert (Hka : class_of a <> FMTCHECK_UNKNOWN /\ FMTCHECK_UNKNOWN ∉ flat_map item_types u).
  { rewrite elem_of_app, elem_of_cons in Hk. split; intros ?; apply Hk; auto. }
  clear Hk. destruct Hka as [Hka Hk]. induction d as [|[ch|b] d IHd].
  - exfalso. apply prefix_nil_inv in Hp. by destruct (star_types a).
  - apply Forall_cons in Hd as [_ Hd]. apply Forall_cons in Hcd as [_ Hcd]. cbn [flat_map item_types cursors app] in *. by apply IHd.
  - apply Forall_cons in Hd as [Hob Hd]. apply Forall_cons in Hcd as [Hcb Hcd]. cbn [flat_map item_types cursors] in *.
    destruct (decide (print b = lit "%%")) as [E|Hnb]; [rewrite (bool_decide_eq_true_2 _ E) in *; by apply IHd|].
    rewrite (bool_decide_eq_false_2 _ Hnb) in *. destruct Hcb as [|Hcb]; [done|]. rewrite <- app_assoc in Hp. cbn [app] in Hp.
    apply types_decode in Hp as (Es & Ec & Hp).
    assert (Ecur : cursor a va = cursor b va).
    { rewrite !convert_cursor; [by rewrite Ec, (star_cursor_types a b)|apply Hob|done|by rewrite <- Ec|apply Hok|done|done]. }
    rewrite Ecur. apply prefix_cons. by apply IH.
Qed.

End Reading.

(** The modifier q is a quad for fmtcheck, as it is for FreeBSD's printf, and
    an int for printf.c: a format with %qd is accepted for one with %lld, and
    printf then reads four of the eight bytes and goes on inside the argument. *)
Theorem fmtcheck_quad_misread snprintf c p :
  let quad := Directive [] (Digits []) None (lit "q") 100 in
  let longlong := Directive [] (Digits []) None (lit "ll") 100 in
  yos_fmtcheck_freebsd (print quad) (Some (print longlong)) = Some true /\
  cursor snprintf c quad (8 * p) = u32 (u32 (8 * p) + 4) /\ cursor snprintf c longlong (8 * p) = u32 (u32 (8 * p) + 8).
Proof.
  cbv zeta. split; [vm_compute; reflexivity|].
  assert (A : forall k, 0 <= k -> k <= 3 -> va_align (8 * p) (2 ^ k) = u32 (8 * p)).
  { intros k H0 H3. unfold va_align. set (x := u32 (8 * p + 2 ^ k - 1)).
    assert (E : x = u32 (8 * p) + (2 ^ k - 1)).
    { assert (1 <= 2 ^ k <= 8) by (split; [change 1 with (2 ^ 0)|change 8 with (2 ^ 3)]; apply Z.pow_le_mono_r; lia).
      unfold x, u32. rewrite Z.add_sub_assoc. mlia. }
    assert (Hk : k = 0 \/ k = 1 \/ k = 2 \/ k = 3) by lia.
    assert (R : Z.land x (u32 (Z.lnot (2 ^ k - 1))) = Z.land x (Z.lnot (2 ^ k - 1))).
    { apply Z.bits_inj'. intros n Hn. rewrite !Z.land_spec. destruct (Z.lt_ge_cases n 32).
      - f_equal. unfold u32. change 4294967296 with (2 ^ 32). by rewrite Z.mod_pow2_bits_low.
      - assert (Hx : Z.testbit x n = false); [|by rewrite Hx]. unfold x, u32. change 4294967296 with (2 ^ 32). by apply Z.mod_pow2_bits_high; lia. }
    rewrite R, land_lnot_pow2, E by lia. assert (Hm : u32 (8 * p) mod 8 = 0) by (unfold u32; mlia).
    destruct Hk as [->|[->|[->| ->]]]; change (2 ^ 0) with 1; change (2 ^ 1) with 2; change (2 ^ 2) with 4; change (2 ^ 3) with 8; mlia. }
  split.
  - change (cursor snprintf c _ (8 * p)) with (snd (let '(v, o) := va_i32 c (8 * p) in (snprintf (lit "%qd") ([] ++ [HInt (s32 v)]), o))).
    pose proof (va_i32_cursor c (8 * p)) as E. destruct (va_i32 c (8 * p)). cbn [snd] in *. subst. unfold next_i32.
    pose proof (A 2 ltac:(lia) ltac:(lia)) as A2. change (2 ^ 2) with 4 in A2. by rewrite A2.
  - change (cursor snprintf c _ (8 * p)) with (snd (let '(v, o) := va_i64 c (8 * p) in (snprintf (lit "%lld") ([] ++ [HLongLong (s64 v)]), o))).
    pose proof (va_i64_cursor c (8 * p)) as E. destruct (va_i64 c (8 * p)). cbn [snd] in *. subst. unfold next_i64.
    pose proof (A 3 ltac:(lia) ltac:(lia)) as A3. change (2 ^ 3) with 8 in A3. by rewrite A3.
Qed.

(** The two excluded pairs: a quad against a long long, and a D against an ld. *)
Definition quad : directive := Directive [] (Digits []) None (lit "q") 100.
Definition longlong : directive := Directive [] (Digits []) None (lit "ll") 100.
Definition old_long : directive := Directive [] (Digits []) None [] 68.
Definition long_d : directive := Directive [] (Digits []) None (lit "l") 100.

Lemma cursor_single snprintf c a : print a <> lit "%%" -> forall va, cursors snprintf c [Conv a] va = [cursor snprintf c a va].
Proof. intros Ha va. cbn [cursors]. by rewrite bool_decide_eq_false_2. Qed.

Lemma old_long_reads_nothing snprintf c va :
  cursor snprintf c old_long va = va /\ cursor snprintf c long_d va = next_i32 va.
Proof.
  split; [done|]. change (cursor snprintf c long_d va) with (snd (let '(v, o) := va_i32 c va in (snprintf (lit "%d") ([] ++ [HInt (s32 v)]), o))).
  rewrite <-(va_i32_cursor c va). by destruct (va_i32 c va).
Qed.

(** C19: If fmtcheck returns the user's format, printing with it reads the
    arguments where printing with the default format reads them: after each
    specification, widths and precisions given by stars included, the argument
    cursor is the same.  Both formats keep to the conversions diouxXcsp and
    aAeEfFgG, and to modifiers other than q.  Outside of these the claim is
    false: %qd is accepted for %lld and reads four bytes where the other reads
    eight, and %D is accepted for %ld and reads nothing. *)
Theorem fmtcheck_printf_agree snprintf c u d va :
  (Forall item_ok u -> Forall item_converted u -> Forall item_ok d -> Forall item_converted d ->
   yos_fmtcheck_freebsd (format_text u) (Some (format_text d)) = Some true ->
   cursors snprintf c u va `prefix_of` cursors snprintf c d va) /\
  (yos_fmtcheck_freebsd (lit "%qd") (Some (lit "%lld")) = Some true /\
   cursors snprintf c [Conv quad] 1024 = [1028] /\ cursors snprintf c [Conv longlong] 1024 = [1032]) /\
  (yos_fmtcheck_freebsd (lit "%D") (Some (lit "%ld")) = Some true /\
   cursors snprintf c [Conv old_long] 1024 = [1024] /\ cursors snprintf c [Conv long_d] 1024 = [1028]).
Proof.
  split; [|split].
  - intros Hu Hcu Hd Hcd H.
    destruct (trace_total (length (format_text u)) (format_text u) FMTCHECK_START) as (us & H1 & Hl); [done|by intros []|].
    pose proof (trace_items u Hu) as T1. pose proof (trace_items d Hd) as T2. assert (us = cut (flat_map item_types u)) as -> by (by eapply trace_det).
    unfold yos_fmtcheck_freebsd in H. rewrite (loop_accepts _ _ _ T1 _ _ _ _ T2), accepts_cut in H by lia. injection H as H.
    apply accepts_spec in H as [Hk Hp]. by apply cursors_prefix.
  - destruct (fmtcheck_quad_misread snprintf c 128) as (H1 & H2 & H3). split; [exact H1|].
    rewrite !cursor_single by done. change quad with (Directive [] (Digits []) None (lit "q") 100).
    change longlong with (Directive [] (Digits []) None (lit "ll") 100). change (8 * 128) with 1024 in H2, H3. by rewrite H2, H3.
  - destruct (old_long_reads_nothing snprintf c 1024) as [H1 H2]. split; [vm_compute; reflexivity|].
    rewrite !cursor_single by done. by rewrite H1, H2.
Qed.

(** * A concrete case *)

(** "%5d %s" of the user for the default "%d: %s %ld". *)
Definition user_items : list item :=
  [Conv (Directive [] (Digits [53]) None [] 100); Lit 32; Conv (Directive [] (Digits []) None [] 115)].
Definition default_items : list item :=
  [Conv (Directive [] (Digits []) None [] 100); Lit 58; Lit 32; Conv (Directive [] (Digits []) None [] 115); Lit 32;
   Conv (Directive [] (Digits []) None (lit "l") 100)].

Lemma demo_directive_ok w m x : w ∈ [[]; [53]] -> m ∈ [[]; lit "l"] -> x ∈ [100; 115] -> directive_ok (Directive [] (Digits w) None m x).
Proof.
  intros Hw Hm Hx. split; cbn.
  - constructor.
  - repeat (apply elem_of_cons in Hw as [->|Hw]); [..|by apply elem_of_nil in Hw]; by repeat constructor.
  - done.
  - unfold modifiers. cbn [map]. repeat (apply elem_of_cons in Hm as [->|Hm]); [..|by apply elem_of_nil in Hm]; [by left|do 3 right; left].
  - repeat (apply elem_of_cons in Hx as [->|Hx]); [..|by apply elem_of_nil in Hx]; repeat split; by vm_compute.
  - repeat (apply elem_of_cons in Hw as [->|Hw]); [..|by apply elem_of_nil in Hw]; (repeat (apply elem_of_cons in Hm as [->|Hm]); [..|by apply elem_of_nil in Hm]);
      vm_compute; discriminate.
Qed.

Lemma demo_items_ok : Forall item_ok user_items /\ Forall item_ok default_items.
Proof.
  split; repeat (constructor; [first [apply demo_directive_ok; vm_compute; set_solver|cbn; unfold byte_ok; lia]|]); constructor.
Qed.

Lemma demo_items_converted : Forall item_converted user_items /\ Forall item_converted default_items.
Proof.
  split; repeat (constructor; [cbn; first [exact I|right; split; [vm_compute; set_solver|vm_compute; discriminate]]|]); constructor.
Qed.

Lemma fmtcheck_compares_arguments_witness :
  yos_fmtcheck_freebsd (lit "%5d %s") (Some (lit "%d: %s %ld")) = Some true /\
  yos_fmtcheck_freebsd (lit "%d: %s %ld") (Some (lit "%5d %s")) = Some false.
Proof.
  destruct demo_items_ok as [U D]. change (lit "%5d %s") with (format_text user_items). change (lit "%d: %s %ld") with (format_text default_items).
  split.
  - rewrite (fmtcheck_compares_arguments user_items default_items U D). vm_compute. reflexivity.
  - rewrite (fmtcheck_compares_arguments default_items user_items D U). vm_compute. reflexivity.
Defined.

Lemma fmtcheck_printf_agree_witness :
  cursors (fun _ _ => None) (ExecCtx (fun _ => 0) 65536 0 0 [] [] 0 0 0 64) user_items 1024 = [1028; 1032] /\
  [1028; 1032] `prefix_of` cursors (fun _ _ => None) (ExecCtx (fun _ => 0) 65536 0 0 [] [] 0 0 0 64) default_items 1024.
Proof.
  destruct demo_items_ok as [U D]. destruct demo_items_converted as [CU CD].
  assert (E : cursors (fun _ _ => None) (ExecCtx (fun _ => 0) 65536 0 0 [] [] 0 0 0 64) user_items 1024 = [1028; 1032]) by (vm_compute; reflexivity).
  split; [exact E|]. rewrite <- E. apply (proj1 (fmtcheck_printf_agree _ _ user_items default_items 1024) U CU D CD). vm_compute. reflexivity.
Defined.
