(* ===== verification/Fifo.v ===== *)
(** FIFOs for hosts that forbid mkfifo(2) (src/src/yos/impl/io/fifo.c): a
    registry, one per guest, that binds a path to the two ends of a host pipe,
    with an empty file in its place; and the stat family, which reports the file
    as a FIFO and converts the host's record to the guest's
    (src/src/yos/impl/io/cv_stat.c).

    The answers of open, pipe, malloc, strdup, fcntl and stat are arguments.  The
    file operations of the host are logged.  A Linux host: no birth time, no
    flags.  [None]: the code reads or writes outside linear memory, or compares a
    path that strdup had no room for. *)
From Stdlib Require Import Ascii.
From stdpp Require Import gmap strings.
From S2P Require Import Prelude Memory Ctx CString Path FdTable Fcntl Dir.

(** [fe_path] is null when strdup failed. *)
Record fifo_entry : Type := FifoEntry { fe_path : option path; fe_rfd : Z; fe_wfd : Z }.

Inductive file_op : Type := Unlink (p : path) | CreateExcl (p : path) (mode : Z).

(** The descriptors of the guest and of the host, [fifo_head], [umask]. *)
Record fifo_ctx : Type := FifoCtx { fc_world : world; fifo_head : list fifo_entry; fc_umask : Z; fc_log : list file_op }.

Definition set_fc_world (v : world) (c : fifo_ctx) : fifo_ctx := FifoCtx v (fifo_head c) (fc_umask c) (fc_log c).
Definition set_fifo_head (v : list fifo_entry) (c : fifo_ctx) : fifo_ctx := FifoCtx (fc_world c) v (fc_umask c) (fc_log c).
Definition file_call (o : file_op) (c : fifo_ctx) : fifo_ctx := FifoCtx (fc_world c) (fifo_head c) (fc_umask c) (fc_log c ++ [o]).
Definition fc_exec (c : fifo_ctx) : exec_ctx := f_exec (tab (fc_world c)).

(** What the host answers to a creation: the descriptor of the placeholder or
    an errno, the ends of the pipe or an errno, and whether malloc and strdup
    have room. *)
Record mkfifo_answer : Type := MkfifoAnswer { ma_marker : Z + Z; ma_pipe : Z * Z + Z; ma_malloc : bool; ma_strdup : bool }.

Section Fifo.
Variable remap_errno_h2g : Z -> Z.
Variable translate_path : path -> path.

Definition fc_errno (c : fifo_ctx) (e : Z) : Z * fifo_ctx :=
  let '(r, w) := fd_errno remap_errno_h2g (fc_world c) e in (r, set_fc_world w c).
Definition fc_close (d : Z) (c : fifo_ctx) : fifo_ctx := set_fc_world (yos_plat_close d (fc_world c)) c.
Definition fc_opened (d : Z) (c : fifo_ctx) : fifo_ctx := set_fc_world (host_opened d (fc_world c)) c.

(** * The registry *)

(** The first entry of a path; undefined when the walk reaches an entry without
    a path. *)
Fixpoint fifo_lookup_locked (l : list fifo_entry) (p : path) : option (option fifo_entry) :=
  match l with
  | [] => Some None
  | e :: l' => q ← fe_path e; if bool_decide (q = p) then Some (Some e) else fifo_lookup_locked l' p
  end.

(** The first entry of a path, and the list without it. *)
Fixpoint take_entry (p : path) (l : list fifo_entry) : option (option (fifo_entry * list fifo_entry)) :=
  match l with
  | [] => Some None
  | e :: l' =>
      q ← fe_path e;
      if bool_decide (q = p) then Some (Some (e, l'))
      else o ← take_entry p l'; Some (match o with None => None | Some (x, r) => Some (x, e :: r) end)
  end.

Definition yos_fifo_drop (p : path) (c : fifo_ctx) : option (Z * fifo_ctx) :=
  o ← take_entry p (fifo_head c);
  Some (match o with
        | None => (0, c)
        | Some (e, rest) => (1, fc_close (fe_wfd e) (fc_close (fe_rfd e) (set_fifo_head rest c)))
        end).

(** [dup d cmd]: the answer of [fcntl(d, cmd, 0)], a descriptor or an errno.  The
    result: nothing when the path is no FIFO. *)
Definition O_ACCMODE : Z := 3.
Definition HOST_O_CLOEXEC : Z := 524288.

Definition yos_fifo_try_open (dup : Z -> bool -> Z + Z) (p : path) (flags : Z) (c : fifo_ctx) : option (option (Z + Z) * fifo_ctx) :=
  o ← fifo_lookup_locked (fifo_head c) p;
  Some match o with
  | None => (None, c)
  | Some e =>
      let access := Z.land flags O_ACCMODE in
      let src := if access =? 1 then fe_wfd e else if access =? 0 then fe_rfd e else fe_wfd e in
      match dup src (negb (Z.land flags HOST_O_CLOEXEC =? 0)) with
      | inl d => (Some (inl d), fc_opened d c)
      | inr e => (Some (inr e), c)
      end
  end.

(** * mkfifo *)

(** [yos_mkfifo] runs the same statements with the umask taken off the mode. *)
Definition yos_mkfifo_path (ans : mkfifo_answer) (p : path) (mode : Z) (c : fifo_ctx) : option (Z * fifo_ctx) :=
  '(_, c0) ← yos_fifo_drop p c;
  let c1 := file_call (CreateExcl p mode) (file_call (Unlink p) c0) in
  Some match ma_marker ans with
  | inr e => fc_errno c1 e
  | inl d =>
      let c2 := fc_close d (fc_opened d c1) in
      match ma_pipe ans with
      | inr e => fc_errno (file_call (Unlink p) c2) e
      | inl (r, w) =>
          let c3 := fc_opened w (fc_opened r c2) in
          if negb (ma_malloc ans) then fc_errno (file_call (Unlink p) (fc_close w (fc_close r c3))) ENOMEM
          else (0, set_fifo_head (FifoEntry (if ma_strdup ans then Some p else None) r w :: fifo_head c3) c3)
      end
  end.

(** The path argument of a guest, resolved against its directory. *)
Definition raw_path (c : fifo_ctx) (path_off : Z) : option (option path) :=
  if (path_off =? 0) || (memory_size (fc_exec c) <=? path_off) then Some None
  else match cstr (fc_exec c) path_off with None => None | Some s => Some (Some (path_of_bytes s)) end.
Definition resolved (c : fifo_ctx) (p : path) : path := yos_path_resolve translate_path (cwd (tab (fc_world c))) p.

Definition yos_mkfifo (ans : mkfifo_answer) (path_off mode : Z) (c : fifo_ctx) : option (Z * fifo_ctx) :=
  match raw_path c path_off with
  | None => None
  | Some None => Some (fc_errno c EFAULT)
  | Some (Some raw) => yos_mkfifo_path ans (resolved c raw) (Z.land (Z.land mode 511) (Z.lnot (fc_umask c))) c
  end.

(** [getcwd dfd]: the host's directory, or that of a descriptor. *)
Definition yos_mkfifoat (ans : mkfifo_answer) (getcwd : Z -> path + Z) (dfd path_off mode : Z) (c : fifo_ctx) : option (Z * fifo_ctx) :=
  match raw_path c path_off with
  | None => None
  | Some None => Some (fc_errno c EFAULT)
  | Some (Some raw) =>
      if is_abs raw then yos_mkfifo ans path_off mode c
      else
        let '(hdfd, w1) := yos_xlate_dfd remap_errno_h2g (fc_world c) dfd in
        let c1 := set_fc_world w1 c in
        match getcwd hdfd with
        | inr e => Some (fc_errno c1 e)
        | inl dir => yos_mkfifo_path ans (clip (dir ++ [slash] ++ raw)) (Z.land mode 511) c1
        end
  end.

(** The registry's part of [yos_unlink]; [rc]: the answer of unlink. *)
Definition yos_unlink (rc e path_off : Z) (c : fifo_ctx) : option (Z * fifo_ctx) :=
  if (path_off =? 0) || (memory_size (fc_exec c) <=? path_off) then Some (fc_errno c EFAULT)
  else
    match cstr (fc_exec c) path_off with
    | None => Some (fc_errno c EFAULT)
    | Some s =>
        let p := resolved c (path_of_bytes s) in
        '(_, c0) ← yos_fifo_drop p c;
        let c1 := file_call (Unlink p) c0 in
        Some (if rc <? 0 then fc_errno c1 e else (rc, c1))
    end.

(** * The stat family *)

Record host_stat : Type := HostStat {
  hs_dev : Z; hs_ino : Z; hs_nlink : Z; hs_mode : Z; hs_uid : Z; hs_gid : Z; hs_rdev : Z;
  hs_atim : Z * Z; hs_mtim : Z * Z; hs_ctim : Z * Z; hs_size : Z; hs_blocks : Z; hs_blksize : Z
}.

Definition set_hs_mode (v : Z) (h : host_stat) : host_stat :=
  HostStat (hs_dev h) (hs_ino h) (hs_nlink h) v (hs_uid h) (hs_gid h) (hs_rdev h) (hs_atim h) (hs_mtim h) (hs_ctim h) (hs_size h) (hs_blocks h) (hs_blksize h).

Definition S_IFMT : Z := 61440.
Definition S_IFIFO : Z := 4096.
Definition S_IFLNK : Z := 40960.
Definition STAT_SZ : Z := 192.

Definition yos_fifo_stat_fixup (p : path) (mode : Z) (c : fifo_ctx) : option (Z * Z) :=
  o ← fifo_lookup_locked (fifo_head c) p;
  Some match o with
  | Some _ => (1, Z.lor (Z.land mode (Z.lnot S_IFMT)) S_IFIFO)
  | None => (0, mode)
  end.

(** A symbolic link has all permissions. *)
Definition guest_mode (m : Z) : Z := if Z.land m S_IFMT =? S_IFLNK then Z.lor (Z.land m (Z.lnot 511)) 511 else m.

Definition yos_cv_stat_fbi (m : memory) (p : Z) (h : host_stat) : memory :=
  let m := memset m p 0 STAT_SZ in
  let m := st64 m p (hs_dev h) in
  let m := st64 m (p + 8) (hs_ino h) in
  let m := st64 m (p + 16) (hs_nlink h) in
  let m := st16 m (p + 24) (guest_mode (hs_mode h)) in
  let m := st32 m (p + 28) (hs_uid h) in
  let m := st32 m (p + 32) (hs_gid h) in
  let m := st64 m (p + 40) (hs_rdev h) in
  let m := st32 m (p + 52) (fst (hs_atim h)) in
  let m := st32 m (p + 56) (snd (hs_atim h)) in
  let m := st32 m (p + 64) (fst (hs_mtim h)) in
  let m := st32 m (p + 68) (snd (hs_mtim h)) in
  let m := st32 m (p + 76) (fst (hs_ctim h)) in
  let m := st32 m (p + 80) (snd (hs_ctim h)) in
  let m := st64 m (p + 96) (hs_size h) in
  let m := st64 m (p + 104) (hs_blocks h) in
  st32 m (p + 112) (hs_blksize h).

(** The conversion into the guest's buffer, where there is one. *)
Definition fill_stat (statbuf_off : Z) (p : path) (h : host_stat) (c : fifo_ctx) : option (Z * fifo_ctx) :=
  '(_, m) ← yos_fifo_stat_fixup p (hs_mode h) c;
  let h1 := set_hs_mode m h in
  if negb (statbuf_off =? 0) && (statbuf_off <? memory_size (fc_exec c)) then
    if memory_size (fc_exec c) <? statbuf_off + STAT_SZ then None
    else
      let x := set_mem (yos_cv_stat_fbi (mem (fc_exec c)) statbuf_off h1) (fc_exec c) in
      Some (0, set_fc_world (upd_tab (set_f_exec x) (fc_world c)) c)
  else Some (0, c).

(** [yos_stat] and [yos_lstat], which differ in the host's call [stat]. *)
Definition yos_stat (stat : path -> host_stat + Z) (path_off statbuf_off : Z) (c : fifo_ctx) : option (Z * fifo_ctx) :=
  match raw_path c path_off with
  | None => None
  | Some None => Some (fc_errno c EFAULT)
  | Some (Some raw) =>
      let p := resolved c raw in
      match stat p with inr e => Some (fc_errno c e) | inl h => fill_stat statbuf_off p h c end
  end.

Definition yos_fstatat (stat : Z -> path -> Z -> host_stat + Z) (dfd path_off statbuf_off flags : Z) (c : fifo_ctx) : option (Z * fifo_ctx) :=
  match raw_path c path_off with
  | None => None
  | Some None => Some (fc_errno c EFAULT)
  | Some (Some raw) =>
      let '(hdfd, w1) := yos_xlate_dfd remap_errno_h2g (fc_world c) dfd in
      let c1 := set_fc_world w1 c in
      let p := resolved c1 raw in
      match stat hdfd p (yos_at_flags_fb_to_lx flags) with inr e => Some (fc_errno c1 e) | inl h => fill_stat statbuf_off p h c1 end
  end.
End Fifo.
