(* ===== verification/FifoProps.v ===== *)
(** The registry of FIFOs is a finite map from paths to pipes that owns the ends
    of its pipes; a path that was made a FIFO is opened and reported as one. *)
From Stdlib Require Import Ascii.
From stdpp Require Import gmap strings.
From S2P Require Import Prelude Memory Ctx CString Path FdTable Fcntl Dir Fifo.

(** * The registry as a map *)

Definition fe_name (e : fifo_entry) : path := default [] (fe_path e).
Definition named (l : list fifo_entry) : Prop := Forall (fun e => is_Some (fe_path e)) l.

Definition pipes_of (l : list fifo_entry) : gmap path (Z * Z) := list_to_map ((fun e => (fe_name e, (fe_rfd e, fe_wfd e))) <$> l).
Definition pipes (c : fifo_ctx) : gmap path (Z * Z) := pipes_of (fifo_head c).

(** The descriptors of the entries. *)
Definition ends_of (l : list fifo_entry) : list Z := flat_map (fun e => [fe_rfd e; fe_wfd e]) l.

(** Every entry has its path, one entry for each; every end is open, and belongs
    to one entry. *)
Record fifo_ok (c : fifo_ctx) : Prop := FifoOk {
  fo_named : named (fifo_head c);
  fo_paths : NoDup (fe_name <$> fifo_head c);
  fo_ends : NoDup (ends_of (fifo_head c));
  fo_open : forall d, d ∈ ends_of (fifo_head c) -> d ∈ host_open (fc_world c)
}.

(** The walks over a list of named entries. *)
Fixpoint split_entry (p : path) (l : list fifo_entry) : option (fifo_entry * list fifo_entry) :=
  match l with
  | [] => None
  | e :: l' => if bool_decide (fe_name e = p) then Some (e, l')
               else match split_entry p l' with None => None | Some (x, r) => Some (x, e :: r) end
  end.

Definition find_entry (l : list fifo_entry) (p : path) : option fifo_entry :=
  match split_entry p l with Some (e, _) => Some e | None => None end.

Lemma take_named p l : named l -> take_entry p l = Some (split_entry p l).
Proof.
  induction 1 as [|e l [q Hq] _ IH]; [done|]. cbn [take_entry split_entry]. unfold fe_name. rewrite Hq. cbn [mbind option_bind default].
  destruct (bool_decide _); [done|]. by rewrite IH.
Qed.

Lemma lookup_named l p : named l -> fifo_lookup_locked l p = Some (find_entry l p).
Proof.
  unfold find_entry. induction 1 as [|e l [q Hq] _ IH]; [done|]. cbn [fifo_lookup_locked split_entry]. unfold fe_name. rewrite Hq.
  cbn [mbind option_bind default]. destruct (bool_decide _); [done|]. rewrite IH. by destruct (split_entry p l) as [[]|].
Qed.

(** A walk that starts at an entry without a path. *)
Lemma unnamed_undefined e l p : fe_path e = None -> take_entry p (e :: l) = None /\ fifo_lookup_locked (e :: l) p = None.
Proof. intros He. cbn [take_entry fifo_lookup_locked]. by rewrite He. Qed.

Lemma take_entry_spec p l : NoDup (fe_name <$> l) ->
  match split_entry p l with
  | Some (e, r) => exists a b, l = a ++ e :: b /\ r = a ++ b /\ fe_name e = p /\ p ∉ (fe_name <$> r)
  | None => p ∉ (fe_name <$> l)
  end.
Proof.
  induction l as [|e l IH]; intros Hnd; [by apply not_elem_of_nil|]. cbn [split_entry]. apply NoDup_cons in Hnd as [Hne Hnd].
  destruct (decide (fe_name e = p)) as [E|E].
  - rewrite bool_decide_eq_true_2 by done. exists [], l. rewrite <- E. done.
  - rewrite bool_decide_eq_false_2 by done. specialize (IH Hnd). destruct (split_entry p l) as [[x r]|].
    + destruct IH as (a & b & -> & -> & Hx & Hp). exists (e :: a), b. split_and!; [done..|]. cbn. rewrite elem_of_cons. intros [?|?]; [congruence|done].
    + cbn. rewrite elem_of_cons. intros [?|?]; [congruence|done].
Qed.

Lemma pipes_lookup l p : NoDup (fe_name <$> l) ->
  pipes_of l !! p = match find_entry l p with Some e => Some (fe_rfd e, fe_wfd e) | None => None end.
Proof.
  unfold find_entry, pipes_of. induction l as [|e l IH]; intros Hnd; [done|]. apply NoDup_cons in Hnd as [_ Hnd].
  cbn [fmap list_fmap list_to_map foldr split_entry fst snd uncurry]. destruct (decide (fe_name e = p)) as [<-|E].
  - by rewrite bool_decide_eq_true_2, lookup_insert_eq.
  - rewrite bool_decide_eq_false_2, lookup_insert_ne by done. rewrite IH by done. by destruct (split_entry p l) as [[]|].
Qed.

Lemma pipes_remove l p : NoDup (fe_name <$> l) -> pipes_of (match split_entry p l with Some (_, r) => r | None => l end) = delete p (pipes_of l).
Proof.
  unfold pipes_of. induction l as [|e l IH]; intros Hnd; [symmetry; apply delete_empty|]. apply NoDup_cons in Hnd as [Hne Hnd].
  cbn [fmap list_fmap list_to_map foldr split_entry fst snd uncurry]. destruct (decide (fe_name e = p)) as [<-|E].
  - rewrite bool_decide_eq_true_2, delete_insert_eq by done. rewrite delete_id; [done|]. apply not_elem_of_list_to_map_1.
    rewrite <- list_fmap_compose. done.
  - rewrite bool_decide_eq_false_2, delete_insert_ne by done. rewrite <- (IH Hnd). by destruct (split_entry p l) as [[x r]|].
Qed.

Lemma ends_app a b : ends_of (a ++ b) = ends_of a ++ ends_of b.
Proof. apply flat_map_app. Qed.

Lemma ends_permutation a e b : ends_of (a ++ e :: b) ≡ₚ fe_rfd e :: fe_wfd e :: ends_of (a ++ b).
Proof. rewrite !ends_app. cbn [ends_of flat_map app]. by rewrite <- Permutation_middle, <- Permutation_middle. Qed.

(** What tearing an entry down leaves. *)
Lemma drop_spec p c : fifo_ok c ->
  exists n c', yos_fifo_drop p c = Some (n, c') /\ n = (if bool_decide (is_Some (pipes c !! p)) then 1 else 0) /\
  fifo_ok c' /\ pipes c' = delete p (pipes c) /\
  (forall d, d ∈ host_open (fc_world c') <-> d ∈ host_open (fc_world c) /\ ~ (exists r w, pipes c !! p = Some (r, w) /\ (d = r \/ d = w))).
Proof.
  intros [Hnm Hp He Ho]. unfold pipes. rewrite (pipes_lookup (fifo_head c) p Hp). unfold find_entry. pose proof (pipes_remove (fifo_head c) p Hp) as Hr.
  pose proof (take_entry_spec p (fifo_head c) Hp) as Ht. unfold yos_fifo_drop. rewrite take_named by done. cbn [mbind option_bind].
  destruct (split_entry p (fifo_head c)) as [[e rest]|]; eexists _, _; (split; [done|]).
  - destruct Ht as (a & b & El & -> & Ee & Hn). cbn [fifo_head set_fc_world fc_close set_fifo_head fc_world yos_plat_close host_open].
    rewrite bool_decide_eq_true_2 by done. rewrite El in *. pose proof (ends_permutation a e b) as P. rewrite P in He. apply NoDup_cons in He as [H1 He]. apply NoDup_cons in He as [H2 He].
    split_and!; [done| |done|].
    + split; cbn [fifo_head fc_world host_open fc_close set_fc_world set_fifo_head yos_plat_close].
      * apply Forall_app in Hnm as [Ha Hb]. apply Forall_cons in Hb as [_ Hb]. by apply Forall_app.
      * rewrite fmap_app, fmap_cons in Hp. rewrite fmap_app. apply NoDup_app in Hp as (A & B & C). apply NoDup_cons in C as [_ C].
        apply NoDup_app. split_and!; [done| |done]. intros x Hx. specialize (B x Hx). set_solver.
      * done.
      * intros d Hd. specialize (Ho d). rewrite P in Ho. rewrite elem_of_cons in H1. rewrite !elem_of_difference, !elem_of_singleton.
        split_and!; [apply Ho; set_solver|intros ->; apply H1; by right|intros ->; done].
    + intros d. rewrite !elem_of_difference, !elem_of_singleton. split.
      * intros [[? ?] ?]. split; [done|]. intros (r & w & [= <- <-] & [?|?]); done.
      * intros [Hd Hnot]. split_and!; [done|..]; intros ->; apply Hnot; eauto.
  - rewrite bool_decide_eq_false_2 by (by intros [? ?]). split_and!; [done|by split|done|]. intros d. split; [|tauto]. intros Hd. split; [done|]. by intros (r & w & ? & _).
Qed.

Lemma file_call_ok o c : fifo_ok c -> fifo_ok (file_call o c).
Proof. by intros []; split. Qed.

(** * The record of a file *)

(** A load from memory after a store of some width, at the same address or
    apart from it. *)
Ltac peel :=
  repeat match goal with
  | |- ld64 (st64 _ ?a _) ?a = _ => rewrite ld64_st64
  | |- ld32 (st32 _ ?a _) ?a = _ => rewrite ld32_st32
  | |- ld16 (st16 _ ?a _) ?a = _ => rewrite ld16_st16
  | |- ld64 (st64 ?m _ _) _ = _ => rewrite (ld64_agree m) by (apply st64_frame; lia)
  | |- ld64 (st32 ?m _ _) _ = _ => rewrite (ld64_agree m) by (apply st32_frame; lia)
  | |- ld64 (st16 ?m _ _) _ = _ => rewrite (ld64_agree m) by (apply st16_frame; lia)
  | |- ld32 (st64 ?m _ _) _ = _ => rewrite (ld32_agree m) by (apply st64_frame; lia)
  | |- ld32 (st32 ?m _ _) _ = _ => rewrite (ld32_agree m) by (apply st32_frame; lia)
  | |- ld16 (st64 ?m _ _) _ = _ => rewrite (ld16_agree m) by (apply st64_frame; lia)
  | |- ld16 (st32 ?m _ _) _ = _ => rewrite (ld16_agree m) by (apply st32_frame; lia)
  end.

Lemma cv_stat_frame m p h lo hi : hi <= p \/ p + STAT_SZ <= lo -> agree_on lo hi m (yos_cv_stat_fbi m p h).
Proof.
  unfold STAT_SZ. intros H. unfold yos_cv_stat_fbi. cbv zeta.
  repeat (eapply agree_on_trans; [|first [apply st64_frame|apply st32_frame|apply st16_frame]; lia]). apply memset_frame. unfold STAT_SZ. lia.
Qed.

(** The guest's struct stat holds every field of the host's record at its
    width, and the conversion writes no byte outside its 192. *)
Theorem cv_stat_fields m p h :
  let m' := yos_cv_stat_fbi m p h in
  (ld64 m' p = u64 (hs_dev h) /\ ld64 m' (p + 8) = u64 (hs_ino h) /\ ld64 m' (p + 16) = u64 (hs_nlink h) /\
   ld16 m' (p + 24) = guest_mode (hs_mode h) mod 65536 /\ ld32 m' (p + 28) = u32 (hs_uid h) /\ ld32 m' (p + 32) = u32 (hs_gid h) /\
   ld64 m' (p + 40) = u64 (hs_rdev h) /\
   ld32 m' (p + 52) = u32 (fst (hs_atim h)) /\ ld32 m' (p + 56) = u32 (snd (hs_atim h)) /\
   ld32 m' (p + 64) = u32 (fst (hs_mtim h)) /\ ld32 m' (p + 68) = u32 (snd (hs_mtim h)) /\
   ld32 m' (p + 76) = u32 (fst (hs_ctim h)) /\ ld32 m' (p + 80) = u32 (snd (hs_ctim h)) /\
   ld64 m' (p + 96) = u64 (hs_size h) /\ ld64 m' (p + 104) = u64 (hs_blocks h) /\ ld32 m' (p + 112) = u32 (hs_blksize h)) /\
  (forall lo hi, hi <= p \/ p + 192 <= lo -> agree_on lo hi m m').
Proof. cbv zeta. split; [|intros lo hi H; by apply cv_stat_frame]. unfold yos_cv_stat_fbi. cbv zeta. split_and!; by peel. Qed.

Section FifoProps.
Variable remap_errno_h2g : Z -> Z.

Abbreviation yos_mkfifo_path := (yos_mkfifo_path remap_errno_h2g).

(** The descriptors the host gives out are not open at that time: after the
    old pipe of the path is closed, whose numbers may come again. *)
Definition answer_ok (ans : mkfifo_answer) (open : gset Z) : Prop :=
  (forall d, ma_marker ans = inl d -> 0 <= d /\ d ∉ open) /\
  (forall r w, ma_pipe ans = inl (r, w) -> 0 <= r /\ 0 <= w /\ r <> w /\ r ∉ open /\ w ∉ open).

(** What stays open when the pipe of a path is closed. *)
Definition open_without (p : path) (c : fifo_ctx) : gset Z :=
  match pipes c !! p with Some (r, w) => host_open (fc_world c) ∖ {[r; w]} | None => host_open (fc_world c) end.

Lemma elem_of_open_without p c d :
  d ∈ open_without p c <-> d ∈ host_open (fc_world c) /\ ~ (exists r w, pipes c !! p = Some (r, w) /\ (d = r \/ d = w)).
Proof.
  unfold open_without. destruct (pipes c !! p) as [[r w]|].
  - rewrite elem_of_difference, elem_of_union, !elem_of_singleton. split; intros [H1 H2]; (split; [done|]).
    + intros (r' & w' & [= <- <-] & H); tauto.
    + intros H. apply H2. eauto.
  - split; [|tauto]. intros H. split; [done|]. by intros (r & w & ? & _).
Qed.

Lemma fc_errno_spec c e :
  fst (fc_errno remap_errno_h2g c e) = -1 /\ fifo_head (snd (fc_errno remap_errno_h2g c e)) = fifo_head c /\
  host_open (fc_world (snd (fc_errno remap_errno_h2g c e))) = host_open (fc_world c).
Proof.
  unfold fc_errno, fd_errno. destruct (errno_neg _ _ _) as [r x] eqn:E. cbn. unfold errno_neg in E. injection E as <- _. done.
Qed.

(** The pipe that a successful call registers. *)
Definition made (ans : mkfifo_answer) : option (Z * Z) :=
  match ma_marker ans, ma_pipe ans with inl _, inl rw => if ma_malloc ans then Some rw else None | _, _ => None end.

(** What a call does to the registry and to the host's descriptors. *)
Definition mkfifo_result (ans : mkfifo_answer) (p : path) (c : fifo_ctx) (rc : Z) (c' : fifo_ctx) : Prop :=
  rc = (if bool_decide (is_Some (made ans)) then 0 else -1) /\
  (forall d, d ∈ host_open (fc_world c') <-> d ∈ open_without p c \/ (exists r w, made ans = Some (r, w) /\ (d = r \/ d = w))) /\
  match made ans with
  | None => fifo_ok c' /\ pipes c' = delete p (pipes c)
  | Some rw =>
      if ma_strdup ans then fifo_ok c' /\ pipes c' = <[p := rw]> (pipes c)
      else forall q, fifo_lookup_locked (fifo_head c') q = None /\ yos_fifo_drop q c' = None /\
             forall ans' mode, yos_mkfifo_path ans' q mode c' = None
  end.

Lemma mkfifo_spec ans p mode c :
  fifo_ok c -> answer_ok ans (open_without p c) ->
  exists rc c', yos_mkfifo_path ans p mode c = Some (rc, c') /\ mkfifo_result ans p c rc c'.
Proof.
  intros Hc [Hm Hpi]. destruct (drop_spec p c Hc) as (n & c0 & Hdrop & _ & Hc0 & Hpp & Hop). unfold Fifo.yos_mkfifo_path. rewrite Hdrop.
  cbn [mbind option_bind]. set (c1 := file_call (CreateExcl p mode) (file_call (Unlink p) c0)).
  assert (Hop' : forall d, d ∈ open_without p c <-> d ∈ host_open (fc_world c0)) by (intros d; by rewrite Hop, elem_of_open_without).
  assert (Hfail : forall c2 e, fifo_head c2 = fifo_head c0 -> (forall d, d ∈ host_open (fc_world c2) <-> d ∈ host_open (fc_world c0)) -> made ans = None ->
    exists rc c', Some (fc_errno remap_errno_h2g c2 e) = Some (rc, c') /\ mkfifo_result ans p c rc c').
  { intros c2 e Hh Ho Hn. destruct (fc_errno_spec c2 e) as (E1 & E2 & E3). destruct (fc_errno _ c2 e) as [rc c']. cbn [fst snd] in *. subst rc.
    eexists _, _. split; [done|]. unfold mkfifo_result, pipes in *. rewrite Hn, E2, Hh. split_and!; [done| | |done].
    - intros d. rewrite E3, Ho, Hop'. split; [by left|]. intros [?|(r & w & ? & _)]; done.
    - destruct Hc0 as [Z0 A B C]. split; rewrite ?E2, ?E3, ?Hh; [done..|]. intros d Hd. apply Ho. by apply C. }
  unfold made in *. destruct (ma_marker ans) as [d|e] eqn:Ema; [|by apply Hfail].
  destruct (Hm d eq_refl) as [Hd0 Hdn]. rewrite Hop' in Hdn.
  assert (Hopen2 : forall x, x ∈ host_open (fc_world (fc_close d (fc_opened d c1))) <-> x ∈ host_open (fc_world c0)).
  { intros x. cbn [fc_close set_fc_world fc_world yos_plat_close host_open fc_opened]. unfold host_opened. rewrite (proj2 (Z.ltb_ge d 0)) by done. cbn [host_open c1 file_call fc_world]. set_solver. }
  destruct (ma_pipe ans) as [[r w]|e] eqn:Emp; [|by apply Hfail].
  destruct (Hpi r w eq_refl) as (Hr0 & Hw0 & Hrw & Hr & Hw). rewrite Hop' in Hr, Hw.
  set (c2 := fc_close d (fc_opened d c1)) in *.
  assert (Hopen3 : forall x, x ∈ host_open (fc_world (fc_opened w (fc_opened r c2))) <-> x = w \/ x = r \/ x ∈ host_open (fc_world c0)).
  { intros x. cbn [fc_opened set_fc_world fc_world]. unfold host_opened. rewrite (proj2 (Z.ltb_ge r 0)), (proj2 (Z.ltb_ge w 0)) by done. cbn [host_open fc_world].
    rewrite !elem_of_union, !elem_of_singleton, Hopen2. tauto. }
  destruct (ma_malloc ans) eqn:Eml; cbn [negb].
  2:{ apply Hfail; [done| |done]. intros x. cbn [file_call fc_close set_fc_world fc_world yos_plat_close host_open]. rewrite !elem_of_difference, !elem_of_singleton, Hopen3.
      split; [|intros Hx; split_and!; [tauto|intros ->; done|intros ->; done]]. tauto. }
  eexists _, _. split; [done|]. unfold mkfifo_result, made. rewrite Ema, Emp, Eml. split; [by rewrite bool_decide_eq_true_2|]. split.
  { intros x. rewrite Hop'. change (host_open (fc_world (set_fifo_head _ ?x))) with (host_open (fc_world x)). rewrite Hopen3. split.
    - intros [->|[->|?]]; [right; eauto|right; eauto|by left].
    - intros [?|(r' & w' & [= <- <-] & [->| ->])]; tauto. }
  assert (Hh : fifo_head (fc_opened w (fc_opened r c2)) = fifo_head c0) by done. destruct (ma_strdup ans).
  2:{ intros q. pose proof (unnamed_undefined (FifoEntry None r w) (fifo_head (fc_opened w (fc_opened r c2))) q eq_refl) as [U1 U2].
      assert (U3 : yos_fifo_drop q (set_fifo_head (FifoEntry None r w :: fifo_head (fc_opened w (fc_opened r c2))) (fc_opened w (fc_opened r c2))) = None)
        by (unfold yos_fifo_drop; cbn [fifo_head set_fifo_head]; by rewrite U1).
      split_and!; [exact U2|exact U3|]. intros ans' mode'. unfold Fifo.yos_mkfifo_path. by rewrite U3. }
  unfold pipes in *. cbn [fc_world set_fifo_head fifo_head]. rewrite Hh.
  assert (Hnot : p ∉ (fe_name <$> fifo_head c0)).
  { destruct Hc0 as [_ A _ _]. pose proof (pipes_lookup (fifo_head c0) p A) as L. rewrite Hpp, lookup_delete_eq in L. unfold find_entry in L.
    pose proof (take_entry_spec p (fifo_head c0) A) as T. by destruct (split_entry p (fifo_head c0)) as [[]|]. }
  split.
  - destruct Hc0 as [Z0 A B C]. split; cbn [fifo_head fc_world].
    + by constructor.
    + cbn. by apply NoDup_cons.
    + cbn [ends_of flat_map app fe_rfd fe_wfd]. apply NoDup_cons. split; [rewrite elem_of_cons; intros [?|Hx]; [done|by apply Hr, C]|]. apply NoDup_cons. split; [intros Hx; by apply Hw, C|done].
    + intros x Hx. apply Hopen3. change (x ∈ r :: w :: ends_of (fifo_head c0)) in Hx. rewrite !elem_of_cons in Hx. destruct Hx as [->|[->|Hx]]; [tauto|tauto|]. right; right. by apply C.
  - change (<[p := (r, w)]> (pipes_of (fifo_head c0)) = <[p := (r, w)]> (pipes_of (fifo_head c))). rewrite Hpp. apply insert_delete_eq.
Qed.

(** C20: The registry is a finite map that owns its pipes.  mkfifo binds the path
    to a new pipe whatever was bound to it; a call that fails for any reason
    leaves the path unbound; the other paths keep their pipes.  Of the host's
    descriptors exactly the ends of the replaced pipe are closed and those of
    the new one stay open, so every end is open and has one owner; the host may
    give the numbers of the replaced pipe to the new one.  Only a strdup without
    room breaks the registry: the call succeeds and its pipe stays open, but the
    entry has no path, and every later lookup, removal and mkfifo compares a null
    pointer. *)
Theorem fifo_registry_map ans p mode c :
  fifo_ok c -> answer_ok ans (open_without p c) ->
  exists rc c', yos_mkfifo_path ans p mode c = Some (rc, c') /\
    rc = (if bool_decide (is_Some (made ans)) then 0 else -1) /\
    (forall d, d ∈ host_open (fc_world c') <->
       (d ∈ host_open (fc_world c) /\ ~ (exists r w, pipes c !! p = Some (r, w) /\ (d = r \/ d = w))) \/
       (exists r w, made ans = Some (r, w) /\ (d = r \/ d = w))) /\
    match made ans with
    | None => fifo_ok c' /\ pipes c' = delete p (pipes c)
    | Some rw =>
        if ma_strdup ans then fifo_ok c' /\ pipes c' = <[p := rw]> (pipes c)
        else forall q, fifo_lookup_locked (fifo_head c') q = None /\ yos_fifo_drop q c' = None /\
               forall ans' mode', yos_mkfifo_path ans' q mode' c' = None
    end.
Proof.
  intros Hc Ha. destruct (mkfifo_spec ans p mode c Hc Ha) as (rc & c' & E & H1 & H2 & H3). exists rc, c'.
  split_and!; [done|done| |done]. intros d. by rewrite H2, elem_of_open_without.
Qed.

(** Permission bits under the type of a FIFO. *)
Lemma fifo_mode m : 0 <= m < 65536 -> let m' := Z.lor (Z.land m (Z.lnot S_IFMT)) S_IFIFO in
  0 <= m' < 65536 /\ Z.land m' S_IFMT = S_IFIFO /\ Z.land m' 4095 = Z.land m 4095 /\ guest_mode m' = m'.
Proof.
  intros Hm. cbv zeta. set (x := Z.land m (Z.lnot S_IFMT)). set (m' := Z.lor x S_IFIFO).
  assert (Hx : Z.land x S_IFMT = 0) by (unfold x; rewrite <- Z.land_assoc, (Z.land_comm _ S_IFMT), Z.land_lnot_diag; apply Z.land_0_r).
  assert (Ht : Z.land m' S_IFMT = S_IFIFO) by (unfold m'; rewrite Z.land_lor_distr_l, Hx; done).
  split_and!.
  - unfold m', x. apply Z.lor_nonneg. split; [apply Z.land_nonneg; left; lia|done].
  - assert (Hb : forall n, 16 <= n -> Z.testbit m' n = false).
    { intros n Hn. unfold m', x. rewrite Z.lor_spec, Z.land_spec. rewrite <- (Z.mod_small m (2 ^ 16)) by done. rewrite Z.mod_pow2_bits_high by lia.
      rewrite <- (Z.mod_small S_IFIFO (2 ^ 16)) by done. by rewrite Z.mod_pow2_bits_high by lia. }
    assert (E : m' = m' mod 2 ^ 16).
    { apply Z.bits_inj'. intros n Hn. destruct (Z.lt_ge_cases n 16); [by rewrite Z.mod_pow2_bits_low|]. rewrite Z.mod_pow2_bits_high by lia. by apply Hb. }
    rewrite E. change 65536 with (2 ^ 16). apply Z.mod_pos_bound. lia.
  - done.
  - unfold m', x. rewrite Z.land_lor_distr_l, <- Z.land_assoc. change (Z.land (Z.lnot S_IFMT) 4095) with 4095. change (Z.land S_IFIFO 4095) with 0. apply Z.lor_0_r.
  - unfold guest_mode. by rewrite Ht.
Qed.

Lemma fc_errno_size c e rc c' : fc_errno remap_errno_h2g c e = (rc, c') -> memory_size (fc_exec c') = memory_size (fc_exec c).
Proof.
  unfold fc_errno, fd_errno, errno_neg. intros [= _ <-]. cbn. unfold write_errno. by case_match.
Qed.

Lemma fc_opened_exec d c : fc_exec (fc_opened d c) = fc_exec c.
Proof. unfold fc_opened, host_opened. by destruct (d <? 0). Qed.

Lemma mkfifo_keeps_size ans p mode c rc c' : yos_mkfifo_path ans p mode c = Some (rc, c') -> memory_size (fc_exec c') = memory_size (fc_exec c).
Proof.
  assert (Hd : forall n c0, yos_fifo_drop p c = Some (n, c0) -> fc_exec c0 = fc_exec c).
  { unfold yos_fifo_drop. destruct (take_entry p (fifo_head c)) as [[[e l]|]|]; [..|done]; by intros n c0 [= _ <-]. }
  unfold Fifo.yos_mkfifo_path. destruct (yos_fifo_drop p c) as [[n c0]|]; [|done]. cbn [mbind option_bind]. rewrite <-(Hd n c0 eq_refl).
  assert (Ho : forall d x, fc_exec (fc_close d (fc_opened d x)) = fc_exec x) by (intros; apply (fc_opened_exec d x)).
  intros [= E]. revert E. destruct (ma_marker ans) as [d|e]; [|intros E%fc_errno_size; exact E].
  destruct (ma_pipe ans) as [[r w]|e]; [destruct (negb _)|].
  - intros E%fc_errno_size. rewrite E.
    change (memory_size (fc_exec (fc_opened w (fc_opened r (fc_close d (fc_opened d (file_call (CreateExcl p mode) (file_call (Unlink p) c0))))))) = memory_size (fc_exec c0)).
    by rewrite !fc_opened_exec, Ho.
  - intros [= <- <-]. change (memory_size (fc_exec (set_fifo_head _ ?x))) with (memory_size (fc_exec x)). by rewrite !fc_opened_exec, Ho.
  - intros E%fc_errno_size. rewrite E.
    change (memory_size (fc_exec (fc_close d (fc_opened d (file_call (CreateExcl p mode) (file_call (Unlink p) c0))))) = memory_size (fc_exec c0)).
    by rewrite Ho.
Qed.

(** A path that mkfifo has bound is a FIFO for the guest: opening it for
    reading duplicates the read end of its pipe and any other way the write end,
    stat reports a FIFO with the permissions of the placeholder, and after the
    path is dropped an open goes to the host again. *)
Theorem mkfifo_then_use ans p mode c r w dup flags h off :
  fifo_ok c -> answer_ok ans (open_without p c) -> made ans = Some (r, w) -> ma_strdup ans = true ->
  0 <= hs_mode h < 65536 -> 0 < off -> off + STAT_SZ <= memory_size (fc_exec c) ->
  exists c', yos_mkfifo_path ans p mode c = Some (0, c') /\
  (fst <$> yos_fifo_try_open dup p flags c') =
    Some (Some (dup (if Z.land flags O_ACCMODE =? 0 then r else w) (negb (Z.land flags HOST_O_CLOEXEC =? 0)))) /\
  (exists c2, fill_stat off p h c' = Some (0, c2) /\
     Z.land (ld16 (mem (fc_exec c2)) (off + 24)) S_IFMT = S_IFIFO /\
     Z.land (ld16 (mem (fc_exec c2)) (off + 24)) 4095 = Z.land (hs_mode h) 4095) /\
  (exists c3, yos_fifo_drop p c' = Some (1, c3) /\ (fst <$> yos_fifo_try_open dup p flags c3) = Some None).
Proof.
  intros Hc Ha Hm Hs Hmode Ho Hoff. destruct (mkfifo_spec ans p mode c Hc Ha) as (rc & c' & E & Hrc & _ & T). rewrite Hm, Hs in T. destruct T as [Hc' Hp].
  rewrite Hm in Hrc. rewrite bool_decide_eq_true_2 in Hrc by done. subst rc. exists c'. split; [exact E|].
  assert (Hsz : memory_size (fc_exec c') = memory_size (fc_exec c)) by (by eapply mkfifo_keeps_size). rewrite <-Hsz in Hoff.
  assert (L : pipes c' !! p = Some (r, w)) by (by rewrite Hp, lookup_insert_eq). pose proof L as L0. unfold pipes in L. rewrite pipes_lookup in L by apply Hc'.
  destruct (find_entry (fifo_head c') p) as [e|] eqn:El; [|done]. injection L as L1 L2.
  split_and!.
  - unfold yos_fifo_try_open. rewrite lookup_named, El by apply Hc'. cbn [mbind option_bind]. rewrite L1, L2.
    destruct (Z.eqb_spec (Z.land flags O_ACCMODE) 1) as [E1|_]; [rewrite E1; cbn [Z.eqb]|destruct (_ =? 0)];
      match goal with |- context [dup ?a ?b] => by destruct (dup a b) end.
  - destruct (fifo_mode (hs_mode h) Hmode) as (M1 & M2 & M3 & M4). unfold fill_stat, yos_fifo_stat_fixup. rewrite lookup_named, El by apply Hc'. cbn [mbind option_bind].
    rewrite (proj2 (Z.eqb_neq off 0)) by lia. unfold STAT_SZ in *. rewrite (proj2 (Z.ltb_lt off _)), (proj2 (Z.ltb_ge _ (off + 192))) by lia. cbn [negb andb snd].
    eexists. split; [done|]. cbn [fc_exec set_fc_world fc_world upd_tab tab set_f_exec f_exec set_mem mem].
    match goal with |- context [yos_cv_stat_fbi ?m ?q ?x] => destruct (cv_stat_fields m q x) as [(_ & _ & _ & E' & _) _] end.
    rewrite E'. cbn [set_hs_mode hs_mode]. rewrite M4, Z.mod_small by done. by split.
  - destruct (drop_spec p c' Hc') as (n & c3 & -> & -> & Hd & Hpd & _). rewrite L0, bool_decide_eq_true_2 by done. exists c3. split; [done|].
    unfold yos_fifo_try_open. rewrite lookup_named by apply Hd. cbn [mbind option_bind].
    assert (L' : pipes c3 !! p = None) by (by rewrite Hpd, lookup_delete_eq). unfold pipes in L'. rewrite pipes_lookup in L' by apply Hd.
    by destruct (find_entry (fifo_head c3) p).
Qed.
End FifoProps.

(** * A concrete case *)

Definition path_f : path := [slash; "f"%char].
Definition path_g : path := [slash; "g"%char].

Definition fifo_demo : fifo_ctx :=
  FifoCtx (World {[3; 4]} [] (FdCtx (ExecCtx (fun _ => 0) 65536 0 0 [] [] 0 0 0 64) (replicate 256 (-1)) (replicate 256 None) [] true))
    [FifoEntry (Some path_f) 3 4] 18 [].
Definition pipe_5_6 : mkfifo_answer := MkfifoAnswer (inl 5) (inl (5, 6)) true true.

(** The lowest free descriptors once the old pipe is closed. *)
Definition pipe_3_4 : mkfifo_answer := MkfifoAnswer (inl 3) (inl (3, 4)) true true.

Lemma fifo_demo_ok : fifo_ok fifo_demo /\ answer_ok pipe_5_6 (open_without path_g fifo_demo) /\ answer_ok pipe_3_4 (open_without path_f fifo_demo).
Proof.
  assert (Ef : open_without path_f fifo_demo = {[3; 4]} ∖ {[3; 4]}) by done.
  assert (Eg : open_without path_g fifo_demo = {[3; 4]}) by done. rewrite Ef, Eg.
  split; [split|split; split].
  - repeat constructor. by eexists.
  - cbn. apply NoDup_singleton.
  - cbn. repeat constructor; set_solver.
  - cbn. set_solver.
  - intros d [= <-]. split; [lia|]. set_solver.
  - intros r w [= <- <-]. split_and!; [lia|lia|lia|..]; set_solver.
  - intros d [= <-]. split; [lia|]. set_solver.
  - intros r w [= <- <-]. split_and!; [lia|lia|lia|..]; set_solver.
Qed.

(** The pipe of "/f" is replaced by one with the same descriptors. *)
Lemma fifo_registry_map_witness :
  exists c', yos_mkfifo_path id pipe_3_4 path_f 420 fifo_demo = Some (0, c') /\
    pipes c' = <[path_f := (3, 4)]> (pipes fifo_demo) /\ 3 ∈ host_open (fc_world c').
Proof.
  destruct fifo_demo_ok as (O & _ & A). destruct (fifo_registry_map id pipe_3_4 path_f 420 fifo_demo O A) as (rc & c' & E & Hrc & D & _ & P).
  exists c'. split; [rewrite E, Hrc; reflexivity|]. split; [exact P|]. apply D. right. exists 3, 4. split; [reflexivity|by left].
Defined.

Definition placeholder : host_stat := HostStat 1 2 1 33188 0 0 0 (0, 0) (0, 0) (0, 0) 0 0 4096.

Lemma mkfifo_then_use_witness :
  exists c', yos_mkfifo_path id pipe_5_6 path_g 420 fifo_demo = Some (0, c') /\
    (fst <$> yos_fifo_try_open (fun d _ => inl (d + 10)) path_g 0 c') = Some (Some (inl 15)).
Proof.
  destruct fifo_demo_ok as (O & A & _).
  destruct (mkfifo_then_use id pipe_5_6 path_g 420 fifo_demo 5 6 (fun d _ => inl (d + 10)) 0 placeholder 1024 O A eq_refl eq_refl
    ltac:(cbn; lia) ltac:(lia) ltac:(vm_compute; discriminate)) as (c' & E & H & _).
  exact (ex_intro _ c' (conj E H)).
Defined.
