(* ===== verification/Kqueue.v ===== *)
(** Kqueue and kevent on a Linux host (src/src/yos/impl/libc/kqueue-linux.c): a
    kqueue is an epoll descriptor; registrations for input and output become
    epoll registrations that carry the guest's descriptor and filter in their
    tag, and the exit of a process is watched through an eventfd in a table
    shared by all guests.

    The host's epoll is an interface: its operations, what is registered, and
    the laws of epoll_ctl(2) and epoll_wait(2) that the proofs use.  [None]: the
    code overflows a signed integer. *)
From stdpp Require Import gmap.
From S2P Require Import Prelude Memory Ctx CString Path FdTable.

Definition EVFILT_READ : Z := -1.
Definition EVFILT_WRITE : Z := -2.
Definition EVFILT_PROC : Z := -5.
Definition EVFILT_SIGNAL : Z := -6.
Definition EV_ADD : Z := 1.
Definition EV_DELETE : Z := 2.
Definition EV_ENABLE : Z := 4.
Definition EV_DISABLE : Z := 8.
Definition EV_CLEAR : Z := 32.
Definition EV_ERROR : Z := 16384.
Definition NOTE_EXIT : Z := 2147483648.

Definition EPOLLIN : Z := 1.
Definition EPOLLOUT : Z := 4.
Definition EPOLLERR : Z := 8.
Definition EPOLLET : Z := 2147483648.

(** Whether a flag is set. *)
Definition has (flags f : Z) : bool := negb (Z.land flags f =? 0).

(** * The host's epoll *)

(** [data.u64] and [events] of [struct epoll_event]. *)
Record epoll_event : Type := Event { ev_events : Z; ev_data : Z }.

Inductive epoll_op : Type := EPOLL_CTL_ADD | EPOLL_CTL_DEL | EPOLL_CTL_MOD.

(** The standard streams are open, so that a new descriptor is positive.
    [epoll_ctl] and [epoll_wait] answer 0 or an errno; [eventfd] and
    [epoll_create1] a descriptor or a negative number.  [interest h kq fd]: what is
    registered for a descriptor (a registration outlives its descriptor if the
    open file was duplicated; the laws are those of files that were not). *)
Class Epoll (H : Type) : Type := {
  epoll_create1 : H -> Z * H;
  eventfd : H -> Z * H;
  eventfd_write : Z -> H -> H;
  host_close : Z -> H -> H;
  epoll_ctl : Z -> epoll_op -> Z -> epoll_event -> H -> Z * H;
  epoll_wait : Z -> Z -> Z -> H -> Z * list epoll_event * H;
  interest : H -> Z -> Z -> option epoll_event;
  is_open : H -> Z -> Prop;
  ep_open h kq fd ev : interest h kq fd = Some ev -> is_open h kq /\ is_open h fd;
  ep_add_new h kq fd ev : interest h kq fd = None ->
    let '(r, h') := epoll_ctl kq EPOLL_CTL_ADD fd ev h in
    (r = 0 /\ interest h' kq fd = Some ev) \/ (r <> 0 /\ r <> EEXIST /\ interest h' kq fd = None);
  ep_add_old h kq fd ev old : interest h kq fd = Some old -> epoll_ctl kq EPOLL_CTL_ADD fd ev h = (EEXIST, h);
  ep_mod h kq fd ev old : interest h kq fd = Some old ->
    let '(r, h') := epoll_ctl kq EPOLL_CTL_MOD fd ev h in r = 0 /\ interest h' kq fd = Some ev;
  ep_mod_new h kq fd ev : interest h kq fd = None -> interest (snd (epoll_ctl kq EPOLL_CTL_MOD fd ev h)) kq fd = None;
  ep_del h kq fd ev : interest (snd (epoll_ctl kq EPOLL_CTL_DEL fd ev h)) kq fd = None;
  ep_ctl_other h kq op fd ev kq' fd' : (kq', fd') <> (kq, fd) ->
    interest (snd (epoll_ctl kq op fd ev h)) kq' fd' = interest h kq' fd';
  ep_ctl_open h kq op fd ev d : is_open (snd (epoll_ctl kq op fd ev h)) d <-> is_open h d;
  ep_wait_bound h kq n t : 0 < n -> Z.of_nat (length (snd (fst (epoll_wait kq n t h)))) <= n;
  ep_wait_keeps h kq n t : (forall kq' fd, interest (snd (epoll_wait kq n t h)) kq' fd = interest h kq' fd) /\
    (forall d, is_open (snd (epoll_wait kq n t h)) d <-> is_open h d);
  ep_wait_data h kq n t e : e ∈ snd (fst (epoll_wait kq n t h)) -> exists fd old, interest h kq fd = Some old /\ ev_data e = ev_data old;
  ep_eventfd h : let '(efd, h') := eventfd h in
    (forall kq fd, interest h' kq fd = interest h kq fd) /\
    (forall d, is_open h' d <-> is_open h d \/ (0 <= efd /\ d = efd)) /\ (0 <= efd -> 0 < efd /\ ~ is_open h efd);
  ep_write_keeps h efd : (forall kq fd, interest (eventfd_write efd h) kq fd = interest h kq fd) /\
    (forall d, is_open (eventfd_write efd h) d <-> is_open h d);
  ep_close h d : (forall kq fd, kq <> d -> fd <> d -> interest (host_close d h) kq fd = interest h kq fd) /\
    (forall x, is_open (host_close d h) x <-> is_open h x /\ x <> d)
}.

(** * The table of watched processes *)

Record proc_watch : Type := Watch { pw_kq : Z; pw_eventfd : Z; pw_pid : Z; pw_udata : Z }.

Definition MAX_PROC_WATCH : Z := 64.
Definition zero_watch : proc_watch := Watch 0 0 0 0.
Definition no_watches : list proc_watch := replicate 64 zero_watch.

Section Kqueue.
Context {H : Type} {EP : Epoll H}.
Variable remap_errno_h2g : Z -> Z.

(** The descriptors of the calling guest, the host's epoll, and the table. *)
Record kq_state : Type := KqState { kq_world : world; kq_host : H; g_proc_watches : list proc_watch }.

Definition set_kq_world (v : world) (s : kq_state) : kq_state := KqState v (kq_host s) (g_proc_watches s).
Definition set_kq_host (v : H) (s : kq_state) : kq_state := KqState (kq_world s) v (g_proc_watches s).
Definition set_watches (v : list proc_watch) (s : kq_state) : kq_state := KqState (kq_world s) (kq_host s) v.
Definition kq_errno (s : kq_state) (e : Z) : Z * kq_state :=
  let '(r, w) := fd_errno remap_errno_h2g (kq_world s) e in (r, set_kq_world w s).
Definition kq_exec (s : kq_state) : exec_ctx := f_exec (tab (kq_world s)).
Definition kq_close (d : Z) (s : kq_state) : kq_state :=
  KqState (yos_plat_close d (kq_world s)) (host_close d (kq_host s)) (g_proc_watches s).

Definition yos_kqueue_notify_exit (pid : Z) (s : kq_state) : kq_state :=
  set_kq_host (foldl (fun h w => if (pw_pid w =? pid) && (0 <? pw_eventfd w) then eventfd_write (pw_eventfd w) h else h)
                 (kq_host s) (g_proc_watches s)) s.

(** The tag of a registration: 16 bits of [udata], the filter, the ident. *)
Definition pack_tag (udata filter ident : Z) : Z :=
  Z.lor (Z.lor (Z.shiftl (Z.land udata 65535) 48) (Z.shiftl (filter mod 65536) 32)) ident.

Definition watch_free (w : proc_watch) : Prop := pw_eventfd w <= 0.

#[local] Instance watch_free_dec w : Decision (watch_free w).
Proof. unfold watch_free. apply _. Defined.

Definition proc_watch_add (kq pid udata : Z) (s : kq_state) : Z * kq_state :=
  match list_find watch_free (g_proc_watches s) with
  | None => (-1, s)
  | Some (i, _) =>
      let '(efd, h1) := eventfd (kq_host s) in
      if efd <? 0 then (-1, set_kq_host h1 s)
      else
        let s1 := KqState (host_opened efd (kq_world s)) h1 (g_proc_watches s) in
        let '(r, h2) := epoll_ctl kq EPOLL_CTL_ADD efd (Event EPOLLIN (pack_tag udata EVFILT_PROC pid)) h1 in
        let s2 := set_kq_host h2 s1 in
        if negb (r =? 0) then (-1, kq_close efd s2)
        else (0, set_watches (<[i := Watch kq efd pid udata]> (g_proc_watches s2)) s2)
  end.

(** One slot is given up; its [udata] stays. *)
Definition drop_watch (kq : Z) (i : nat) (w : proc_watch) (s : kq_state) : kq_state :=
  let s1 := set_kq_host (snd (epoll_ctl kq EPOLL_CTL_DEL (pw_eventfd w) (Event 0 0) (kq_host s))) s in
  let s2 := kq_close (pw_eventfd w) s1 in
  set_watches (<[i := Watch (-1) (-1) 0 (pw_udata w)]> (g_proc_watches s2)) s2.

Definition watches (kq pid : Z) (w : proc_watch) : bool := (pw_kq w =? kq) && (pw_pid w =? pid) && (0 <? pw_eventfd w).

Definition proc_watch_remove (kq pid : Z) (s : kq_state) : kq_state :=
  foldl (fun s0 i => match g_proc_watches s0 !! i with
                     | Some w => if watches kq pid w then drop_watch kq i w s0 else s0
                     | None => s0
                     end) s (seq 0 (length (g_proc_watches s))).

(** * kqueue *)

(** [kqueue], [kqueue1] and [kqueuex]; [e]: the errno of a failed
    epoll_create1. *)
Definition m3_yos_kqueue (e : Z) (s : kq_state) : Z * kq_state :=
  let '(hfd, h1) := epoll_create1 (kq_host s) in
  let s1 := set_kq_host h1 s in
  if hfd <? 0 then kq_errno s1 e
  else
    let '(wfd, w1) := yos_fd_alloc (host_opened hfd (kq_world s1)) hfd in
    let s2 := set_kq_world w1 s1 in
    if wfd <? 0 then kq_errno (kq_close hfd s2) EMFILE else (wfd, s2).

(** * kevent *)

Definition KE_SZ : Z := 64.

(** The fields of [struct kevent] that are read. *)
Record kevent : Type := Kevent { ke_ident : Z; ke_filter : Z; ke_flags : Z; ke_fflags : Z; ke_udata : Z }.

Definition read_kevent (m : memory) (p : Z) : kevent :=
  Kevent (ld32 m p) (s16 (ld16 m (p + 4))) (ld16 m (p + 6)) (ld32 m (p + 8)) (ld32 m (p + 24)).

Definition write_kevent (m : memory) (p : Z) (k : kevent) : memory :=
  let m0 := memset m p 0 KE_SZ in
  let m1 := st32 m0 p (ke_ident k) in
  let m2 := st16 m1 (p + 4) (ke_filter k) in
  let m3 := st16 m2 (p + 6) (ke_flags k) in
  let m4 := st32 m3 (p + 8) (ke_fflags k) in
  let m5 := st64 m4 (p + 16) 0 in
  st32 m5 (p + 24) (ke_udata k).

Definition ev_mask (filter flags : Z) : Z :=
  let m := if filter =? EVFILT_READ then EPOLLIN else if filter =? EVFILT_WRITE then EPOLLOUT else 0 in
  if has flags EV_CLEAR then Z.lor m EPOLLET else m.

Definition ctl_op (flags : Z) : option epoll_op :=
  if has flags EV_ADD then Some EPOLL_CTL_ADD
  else if has flags EV_DELETE then Some EPOLL_CTL_DEL
  else if has flags EV_ENABLE then Some EPOLL_CTL_MOD
  else if has flags EV_DISABLE then Some EPOLL_CTL_DEL
  else None.

(** One entry of the changelist. *)
Definition apply_change (kq : Z) (k : kevent) (s : kq_state) : kq_state :=
  if (ke_filter k =? EVFILT_READ) || (ke_filter k =? EVFILT_WRITE) then
    let '(target_hfd, w1) := yos_fd_get remap_errno_h2g (kq_world s) (s32 (ke_ident k)) in
    let s1 := set_kq_world w1 s in
    if target_hfd <? 0 then s1
    else
      let eev := Event (ev_mask (ke_filter k) (ke_flags k)) (pack_tag (ke_udata k) (ke_filter k) (ke_ident k)) in
      match ctl_op (ke_flags k) with
      | None => s1
      | Some op =>
          let '(r, h1) := epoll_ctl kq op target_hfd eev (kq_host s1) in
          let s2 := set_kq_host h1 s1 in
          match op with
          | EPOLL_CTL_ADD => if r =? EEXIST then set_kq_host (snd (epoll_ctl kq EPOLL_CTL_MOD target_hfd eev h1)) s2 else s2
          | _ => s2
          end
      end
  else if ke_filter k =? EVFILT_PROC then
    if has (ke_flags k) EV_ADD then snd (proc_watch_add kq (ke_ident k) (ke_udata k) s)
    else if has (ke_flags k) (Z.lor EV_DELETE EV_DISABLE) then proc_watch_remove kq (ke_ident k) s
    else s
  else s.

(** The changelist is read again for each entry. *)
Definition apply_changes (kq changelist nchanges : Z) (s : kq_state) : kq_state :=
  foldl (fun s0 i => apply_change kq (read_kevent (mem (kq_exec s0)) (changelist + i * KE_SZ)) s0) s (seqZ 0 nchanges).

(** The timeout in milliseconds: -1 waits for ever. *)
Definition timeout_ms (tv_sec tv_nsec : Z) : option Z :=
  if (tv_sec =? 0) && (tv_nsec =? 0) then Some 0
  else
    let ms := tv_sec * 1000 + Z.quot tv_nsec 1000000 in
    if (ms <? - 9223372036854775808) || (9223372036854775807 <? ms) then None
    else Some (if ms <? 0 then 0 else if 2147483647 <? ms then 2147483647 else ms).

(** The filter and the ident in a tag. *)
Definition tag_ident (tag : Z) : Z := Z.land tag 4294967295.
Definition tag_filter (tag : Z) : Z := s16 (Z.land (Z.shiftr tag 32) 65535).
Definition tag_udata (tag : Z) : Z := Z.shiftr tag 48.

(** One event for the guest; the watch of an exited process is given up. *)
Definition marshal_event (kq p : Z) (e : epoll_event) (s : kq_state) : kq_state :=
  let tag := ev_data e in
  let ident := tag_ident tag in
  let filter := tag_filter tag in
  let '(udata, fflags, s1) :=
    if filter =? EVFILT_PROC then
      match list_find (fun w => watches kq ident w = true) (g_proc_watches s) with
      | Some (j, w) => (pw_udata w, NOTE_EXIT, drop_watch kq j w s)
      | None => (tag_udata tag, NOTE_EXIT, s)
      end
    else (tag_udata tag, 0, s) in
  let k := Kevent ident filter (if has (ev_events e) EPOLLERR then EV_ERROR else 0) fflags udata in
  set_kq_world (upd_tab (set_f_exec (set_mem (write_kevent (mem (kq_exec s1)) p k) (kq_exec s1))) (kq_world s1)) s1.

Definition marshal_events (kq eventlist : Z) (evs : list epoll_event) (s : kq_state) : kq_state :=
  foldl (fun s0 '(i, e) => marshal_event kq (eventlist + Z.of_nat i * KE_SZ) e s0) s (zip (seq 0 (length evs)) evs).

(** The list that starts at [off] has a null address or runs out of memory. *)
Definition bad_list (x : exec_ctx) (off n : Z) : bool := (0 <? n) && ((off =? 0) || (memory_size x <? off + n * KE_SZ)).

Definition m3_yos_kevent (kq_wfd changelist nchanges eventlist nevents timeout_off : Z) (s : kq_state) : option (Z * kq_state) :=
  let '(kq, w0) := yos_fd_get remap_errno_h2g (kq_world s) kq_wfd in
  let s0 := set_kq_world w0 s in
  if kq <? 0 then Some (kq_errno s0 EBADF)
  else if (nchanges <? 0) || (nevents <? 0) then Some (kq_errno s0 EINVAL)
  else if bad_list (kq_exec s0) changelist nchanges || bad_list (kq_exec s0) eventlist nevents then Some (kq_errno s0 EFAULT)
  else
    let s1 := apply_changes kq changelist nchanges s0 in
    if nevents <=? 0 then Some (0, s1)
    else if negb (timeout_off =? 0) && (memory_size (kq_exec s1) <? timeout_off + 12) then Some (kq_errno s1 EFAULT)
    else
      t ← (if timeout_off =? 0 then Some (-1)
           else timeout_ms (s64 (ld64 (mem (kq_exec s1)) timeout_off)) (s32 (ld32 (mem (kq_exec s1)) (timeout_off + 8))));
      let nevents := if 256 <? nevents then 256 else nevents in
      let '(r, evs, h2) := epoll_wait kq nevents t (kq_host s1) in
      let s2 := set_kq_host h2 s1 in
      if negb (r =? 0) then Some (kq_errno s2 r)
      else Some (Z.of_nat (length evs), marshal_events kq eventlist evs s2).
End Kqueue.
Arguments kq_state : clear implicits.
