(* ===== verification/KqueueProps.v ===== *)
(** Registrations, the watches of processes, and the events that reach the
    guest. *)
From stdpp Require Import gmap.
From S2P Require Import Prelude Memory Ctx CString Path FdTable Poll PollProps Kqueue.

(** * Tags *)

Lemma pack_tag_sum udata filter ident :
  0 <= udata -> 0 <= ident < 4294967296 ->
  pack_tag udata filter ident = (udata mod 65536) * 2 ^ 48 + (filter mod 65536) * 2 ^ 32 + ident.
Proof.
  intros Hu Hi. unfold pack_tag. change 65535 with (Z.ones 16). rewrite Z.land_ones by lia. change (2 ^ 16) with 65536.
  pose proof (Z.mod_pos_bound udata 65536 ltac:(lia)). pose proof (Z.mod_pos_bound filter 65536 ltac:(lia)).
  replace (Z.shiftl (udata mod 65536) 48) with (Z.shiftl (Z.shiftl (udata mod 65536) 16) 32) by (rewrite Z.shiftl_shiftl by lia; done).
  rewrite <- Z.shiftl_lor, lor_shiftl, lor_shiftl by (done || lia).
  change (2 ^ 48) with (65536 * 4294967296). change (2 ^ 16) with 65536. change (2 ^ 32) with 4294967296. lia.
Qed.

Lemma tag_fields udata filter ident :
  0 <= udata -> 0 <= ident < 4294967296 -> -32768 <= filter < 32768 ->
  let tag := pack_tag udata filter ident in tag_ident tag = ident /\ tag_filter tag = filter /\ tag_udata tag = udata mod 65536.
Proof.
  intros Hu Hi Hf. cbn zeta. rewrite pack_tag_sum by done. unfold tag_ident, tag_filter, tag_udata.
  change 4294967295 with (Z.ones 32). change 65535 with (Z.ones 16). rewrite !Z.land_ones, !Z.shiftr_div_pow2 by lia.
  change (2 ^ 48) with 281474976710656. change (2 ^ 32) with 4294967296. change (2 ^ 16) with 65536.
  pose proof (Z.mod_pos_bound udata 65536 ltac:(lia)). pose proof (Z.mod_pos_bound filter 65536 ltac:(lia)).
  split; [mlia|]. split; [|mlia].
  assert (E : ((udata mod 65536 * 281474976710656 + filter mod 65536 * 4294967296 + ident) / 4294967296) mod 65536 = filter mod 65536).
  { replace (udata mod 65536 * 281474976710656 + filter mod 65536 * 4294967296 + ident)
      with (ident + (udata mod 65536 * 65536 + filter mod 65536) * 4294967296) by lia.
    rewrite Z.div_add, Z.div_small by lia. rewrite Z.add_0_l, Z.add_comm, Z.mod_add by lia. by apply Z.mod_small. }
  rewrite E. unfold s16. rewrite Z.mod_mod by lia. destruct (Z.ltb_spec (filter mod 65536) 32768); mlia.
Qed.

(** * Entries of the guest's lists *)

Definition kevent_ok (k : kevent) : Prop :=
  0 <= ke_ident k < 4294967296 /\ -32768 <= ke_filter k < 32768 /\ 0 <= ke_flags k < 65536 /\ 0 <= ke_fflags k < 4294967296 /\ 0 <= ke_udata k < 4294967296.

Lemma s16_mod x : -32768 <= x < 32768 -> s16 (x mod 65536) = x.
Proof. intros H. unfold s16. rewrite Z.mod_mod by lia. destruct (Z.ltb_spec (x mod 65536) 32768); mlia. Qed.

Lemma write_kevent_frame m p k lo hi : hi <= p \/ p + KE_SZ <= lo -> agree_on lo hi m (write_kevent m p k).
Proof.
  unfold KE_SZ, write_kevent. intros H.
  eapply agree_on_trans; [apply (memset_frame m p 0 KE_SZ); unfold KE_SZ; lia|]. eapply agree_on_trans; [apply (st32_frame _ p (ke_ident k)); lia|].
  eapply agree_on_trans; [apply (st16_frame _ (p + 4) (ke_filter k)); lia|]. eapply agree_on_trans; [apply (st16_frame _ (p + 6) (ke_flags k)); lia|].
  eapply agree_on_trans; [apply (st32_frame _ (p + 8) (ke_fflags k)); lia|]. eapply agree_on_trans; [apply (st64_frame _ (p + 16) 0); lia|].
  apply st32_frame. lia.
Qed.

Lemma read_write_kevent m p k : kevent_ok k -> read_kevent (write_kevent m p k) p = k.
Proof.
  intros (H1 & H2 & H3 & H4 & H5). unfold write_kevent. set (m0 := memset m p 0 KE_SZ). set (m1 := st32 m0 p _). set (m2 := st16 m1 _ _).
  set (m3 := st16 m2 _ _). set (m4 := st32 m3 _ _). set (m5 := st64 m4 _ _). set (m6 := st32 m5 _ _). unfold read_kevent.
  assert (F6 : agree_on p (p + 24) m5 m6) by (apply st32_frame; lia). assert (F5 : agree_on p (p + 16) m4 m5) by (apply st64_frame; lia).
  assert (F4 : agree_on p (p + 8) m3 m4) by (apply st32_frame; lia). assert (F3 : agree_on p (p + 6) m2 m3) by (apply st16_frame; lia).
  assert (F2 : agree_on p (p + 4) m1 m2) by (apply st16_frame; lia).
  assert (G3 : agree_on p (p + 8) m3 m6).
  { eapply agree_on_trans; [exact F4|]. eapply agree_on_trans; [eapply agree_on_sub; [..|exact F5]; lia|eapply agree_on_sub; [..|exact F6]; lia]. }
  assert (G2 : agree_on p (p + 6) m2 m6) by (eapply agree_on_trans; [exact F3|eapply agree_on_sub; [..|exact G3]; lia]).
  assert (G1 : agree_on p (p + 4) m1 m6) by (eapply agree_on_trans; [exact F2|eapply agree_on_sub; [..|exact G2]; lia]).
  assert (G4 : agree_on p (p + 16) m4 m6) by (eapply agree_on_trans; [exact F5|eapply agree_on_sub; [..|exact F6]; lia]).
  assert (E1 : ld32 m6 p = ke_ident k) by (rewrite (ld32_agree m1) by (eapply agree_on_sub; [..|exact G1]; lia); unfold m1; rewrite ld32_st32; by apply u32_small).
  assert (E2 : s16 (ld16 m6 (p + 4)) = ke_filter k)
    by (rewrite (ld16_agree m2) by (eapply agree_on_sub; [..|exact G2]; lia); unfold m2; rewrite ld16_st16; by apply s16_mod).
  assert (E3 : ld16 m6 (p + 6) = ke_flags k)
    by (rewrite (ld16_agree m3) by (eapply agree_on_sub; [..|exact G3]; lia); unfold m3; rewrite ld16_st16; by apply Z.mod_small).
  assert (E4 : ld32 m6 (p + 8) = ke_fflags k)
    by (rewrite (ld32_agree m4) by (eapply agree_on_sub; [..|exact G4]; lia); unfold m4; rewrite ld32_st32; by apply u32_small).
  assert (E5 : ld32 m6 (p + 24) = ke_udata k) by (unfold m6; rewrite ld32_st32; by apply u32_small).
  rewrite E1, E2, E3, E4, E5. by destruct k.
Qed.

Lemma read_kevent_ok m p : kevent_ok (read_kevent m p).
Proof.
  unfold kevent_ok, read_kevent; cbn. pose proof (ld32_range m p). pose proof (ld16_range m (p + 6)). pose proof (ld32_range m (p + 8)).
  pose proof (ld32_range m (p + 24)). unfold s16. pose proof (Z.mod_pos_bound (ld16 m (p + 4)) 65536 ltac:(lia)).
  destruct (Z.ltb_spec (ld16 m (p + 4) mod 65536) 32768); lia.
Qed.

Lemma watches_iff kq pid w : watches kq pid w = true <-> pw_kq w = kq /\ pw_pid w = pid /\ 0 < pw_eventfd w.
Proof. unfold watches. rewrite !andb_true_iff, !Z.eqb_eq, Z.ltb_lt. tauto. Qed.

(** * Registrations *)

Section KqueueProps.
Context {H : Type} {EP : Epoll H}.
Variable remap_errno_h2g : Z -> Z.

Abbreviation apply_change := (apply_change remap_errno_h2g).
Abbreviation apply_changes := (apply_changes remap_errno_h2g).

Lemma fd_get_valid w wfd fd w1 : yos_fd_get remap_errno_h2g w wfd = (fd, w1) -> 0 <= fd -> w1 = w.
Proof.
  unfold yos_fd_get. destruct (_ || _); [intros [= <- <-]; unfold AT_FDCWD; lia|]. destruct (_ || _).
  { unfold fd_errno. destruct (errno_neg _ _ _) as [r x] eqn:E. intros [= <- <-]. unfold errno_neg in E. injection E as <- <-. lia. }
  destruct (Z.ltb_spec (slot_fd (tab w) wfd) 0); [|by intros [= <- <-]].
  unfold fd_errno. destruct (errno_neg _ _ _) as [r x] eqn:E. intros [= <- <-]. unfold errno_neg in E. injection E as <- <-. lia.
Qed.

Definition change_event (k : kevent) : epoll_event :=
  Event (ev_mask (ke_filter k) (ke_flags k)) (pack_tag (ke_udata k) (ke_filter k) (ke_ident k)).

(** A change of an input or output registration is a call of epoll_ctl, and a
    second one when the descriptor is registered already. *)
Lemma apply_change_io kq k s fd w1 :
  ke_filter k = EVFILT_READ \/ ke_filter k = EVFILT_WRITE ->
  yos_fd_get remap_errno_h2g (kq_world s) (s32 (ke_ident k)) = (fd, w1) -> 0 <= fd ->
  apply_change kq k s =
    match ctl_op (ke_flags k) with
    | None => s
    | Some op =>
        let '(r, h1) := epoll_ctl kq op fd (change_event k) (kq_host s) in
        match op with
        | EPOLL_CTL_ADD => set_kq_host (if r =? EEXIST then snd (epoll_ctl kq EPOLL_CTL_MOD fd (change_event k) h1) else h1) s
        | _ => set_kq_host h1 s
        end
    end.
Proof.
  intros Hf Hg Hfd. unfold apply_change, Kqueue.apply_change.
  assert (((ke_filter k =? EVFILT_READ) || (ke_filter k =? EVFILT_WRITE))%bool = true) as -> by (destruct Hf as [->| ->]; done).
  rewrite Hg, (proj2 (Z.ltb_ge fd 0)) by done. pose proof (fd_get_valid _ _ _ _ Hg Hfd) as ->.
  assert (E : set_kq_world (kq_world s) s = s) by (by destruct s). rewrite E.
  destruct (ctl_op (ke_flags k)) as [[]|]; [|done..]. fold (change_event k).
  destruct (epoll_ctl kq EPOLL_CTL_ADD fd (change_event k) (kq_host s)) as [r h1]. by destruct (r =? EEXIST).
Qed.

(** What a change does to the registration of an open descriptor: EV_ADD
    installs the new filter and tag in place of whatever filter was there, or
    leaves a refused first registration out; EV_DELETE and EV_DISABLE remove the
    descriptor's registration whatever its filter is; EV_ENABLE rewrites an
    existing one.  No other registration and no watch changes. *)
Theorem kevent_registration kq k s fd w1 :
  ke_filter k = EVFILT_READ \/ ke_filter k = EVFILT_WRITE ->
  yos_fd_get remap_errno_h2g (kq_world s) (s32 (ke_ident k)) = (fd, w1) -> 0 <= fd ->
  let s' := apply_change kq k s in
  let before := interest (kq_host s) kq fd in
  let after := interest (kq_host s') kq fd in
  match ctl_op (ke_flags k) with
  | Some EPOLL_CTL_ADD => after = Some (change_event k) \/ (before = None /\ after = None)
  | Some EPOLL_CTL_DEL => after = None
  | Some EPOLL_CTL_MOD => before <> None -> after = Some (change_event k)
  | None => after = before
  end /\
  (forall kq' fd', (kq', fd') <> (kq, fd) -> interest (kq_host s') kq' fd' = interest (kq_host s) kq' fd') /\
  g_proc_watches s' = g_proc_watches s /\ kq_world s' = kq_world s.
Proof.
  intros Hf Hg Hfd. cbv zeta. rewrite (apply_change_io kq k s fd w1 Hf Hg Hfd).
  destruct (ctl_op (ke_flags k)) as [op|]; [|by split_and!].
  pose proof (ep_ctl_other (kq_host s) kq op fd (change_event k)) as Hoth.
  destruct (interest (kq_host s) kq fd) as [old|] eqn:Ei.
  - destruct op.
    + rewrite (ep_add_old _ _ _ (change_event k) _ Ei), Z.eqb_refl. cbn.
      pose proof (ep_mod _ _ _ (change_event k) _ Ei) as Hm. pose proof (ep_ctl_other (kq_host s) kq EPOLL_CTL_MOD fd (change_event k)) as Ho.
      destruct (epoll_ctl kq EPOLL_CTL_MOD fd (change_event k) (kq_host s)) as [r h1]. cbn in Ho |- *. split_and!; tauto.
    + pose proof (ep_del (kq_host s) kq fd (change_event k)) as Hd. destruct (epoll_ctl _ _ _ _ _) as [r h1]. cbn in Hd, Hoth |- *. by split_and!.
    + pose proof (ep_mod _ _ _ (change_event k) _ Ei) as Hm. destruct (epoll_ctl _ _ _ _ _) as [r h1]. cbn in Hoth |- *. split_and!; tauto.
  - destruct op.
    + pose proof (ep_add_new _ _ _ (change_event k) Ei) as Ha. destruct (epoll_ctl _ _ _ _ _) as [r h1]. cbn in Hoth.
      assert ((r =? EEXIST) = false) as -> by (apply Z.eqb_neq; intros ->; destruct Ha as [[]|[]]; [discriminate|tauto]).
      cbn. split_and!; [|by intros; apply Hoth|done..]. destruct Ha as [[]|(_ & _ & ?)]; [by left|by right].
    + pose proof (ep_del (kq_host s) kq fd (change_event k)) as Hd. destruct (epoll_ctl _ _ _ _ _) as [r h1]. cbn in Hd, Hoth |- *. by split_and!.
    + destruct (epoll_ctl _ _ _ _ _) as [r h1]. cbn in Hoth |- *. by split_and!.
Qed.

(** * What is registered *)

(** Every registration of [kq] carries the tag of an entry that the guest wrote,
    and every watch an udata of 32 bits. *)
Definition host_tags (h : H) (kq : Z) : Prop :=
  forall fd ev, interest h kq fd = Some ev -> exists k, kevent_ok k /\ ev_data ev = pack_tag (ke_udata k) (ke_filter k) (ke_ident k).
Definition tags_ok (kq : Z) (s : kq_state H) : Prop :=
  host_tags (kq_host s) kq /\
  Forall (fun w => 0 <= pw_udata w < 4294967296) (g_proc_watches s).

Lemma ctl_tags kq op fd k ev h :
  kevent_ok k -> ev_data ev = pack_tag (ke_udata k) (ke_filter k) (ke_ident k) ->
  host_tags h kq -> host_tags (snd (epoll_ctl kq op fd ev h)) kq.
Proof using EP.
  clear remap_errno_h2g.
  intros Hk He Hh fd' ev' Hi. destruct (Z.eq_dec fd' fd) as [->|Hne].
  2:{ rewrite ep_ctl_other in Hi by congruence. eauto. }
  destruct (interest h kq fd) as [old|] eqn:Eo; destruct op.
  - rewrite (ep_add_old _ _ _ _ _ Eo) in Hi. cbn in Hi. eauto.
  - by rewrite ep_del in Hi.
  - pose proof (ep_mod _ _ _ ev _ Eo) as Hm. destruct (epoll_ctl _ _ _ _ _). destruct Hm as [_ Hm]. cbn in Hi. rewrite Hm in Hi. injection Hi as <-. eauto.
  - pose proof (ep_add_new _ _ _ ev Eo) as Ha. destruct (epoll_ctl _ _ _ _ _). cbn in Hi.
    destruct Ha as [[_ Ha]|(_ & _ & Ha)]; rewrite Ha in Hi; [injection Hi as <-; eauto|done].
  - by rewrite ep_del in Hi.
  - by rewrite (ep_mod_new _ _ _ _ Eo) in Hi.
Qed.

Lemma close_interest h d kq fd ev : interest (host_close d h) kq fd = Some ev -> interest h kq fd = Some ev.
Proof using EP.
  clear remap_errno_h2g.
  intros Hi. destruct (ep_open _ _ _ _ Hi) as [Ok Of]. destruct (ep_close h d) as [Hk Ho]. apply Ho in Ok, Of.
  rewrite Hk in Hi by tauto. done.
Qed.

Lemma drop_watch_tags kq kq' i w s : g_proc_watches s !! i = Some w -> tags_ok kq s -> tags_ok kq (drop_watch kq' i w s).
Proof.
  intros Hl [Ht Hw]. split.
  - intros fd ev Hi. cbn in Hi. apply close_interest in Hi. destruct (decide ((kq, fd) = (kq', pw_eventfd w))) as [[= -> ->]|Hne].
    + by rewrite ep_del in Hi.
    + rewrite ep_ctl_other in Hi by done. eauto.
  - cbn. apply Forall_insert; [done|]. cbn. exact (Forall_lookup_1 _ _ _ _ Hw Hl).
Qed.

Lemma proc_watch_add_tags kq pid udata s :
  0 <= pid < 4294967296 -> 0 <= udata < 4294967296 -> tags_ok kq s -> tags_ok kq (snd (proc_watch_add kq pid udata s)).
Proof.
  intros Hp Hu [Ht Hw]. unfold proc_watch_add. destruct (list_find _ _) as [[i x]|]; [|done].
  pose proof (ep_eventfd (kq_host s)) as He. destruct (eventfd (kq_host s)) as [efd h1]. destruct He as (He & _).
  assert (Ht1 : host_tags h1 kq) by (intros fd ev; rewrite He; apply Ht).
  destruct (efd <? 0); [by split|]. cbn [kq_host].
  pose proof (ctl_tags kq EPOLL_CTL_ADD efd (Kevent pid EVFILT_PROC 0 0 udata) (Event EPOLLIN (pack_tag udata EVFILT_PROC pid)) h1) as Hc.
  destruct (epoll_ctl _ _ _ _ h1) as [r h2]. cbn [snd ke_udata ke_filter ke_ident] in Hc.
  specialize (Hc ltac:(unfold kevent_ok, EVFILT_PROC; cbn; lia) eq_refl Ht1).
  destruct (negb (r =? 0)); split; cbn; try done.
  - intros fd ev Hi. apply close_interest in Hi. eauto.
  - by apply Forall_insert.
Qed.

Lemma foldl_keeps {A B} (P : B -> Prop) (f : B -> A -> B) l b : (forall b a, P b -> P (f b a)) -> P b -> P (foldl f b l).
Proof. intros Hf. revert b. induction l as [|a l IH]; intros b Hb; [done|]. apply IH. by apply Hf. Qed.

Lemma proc_watch_remove_tags kq pid s : tags_ok kq s -> tags_ok kq (proc_watch_remove kq pid s).
Proof.
  unfold proc_watch_remove. generalize (seq 0 (length (g_proc_watches s))). intros l. apply foldl_keeps.
  intros s0 i H0. destruct (g_proc_watches s0 !! i) as [w|] eqn:E; [|done]. destruct (watches kq pid w); [|done]. by apply drop_watch_tags.
Qed.

Lemma set_world_tags kq w s : tags_ok kq s -> tags_ok kq (set_kq_world w s).
Proof. done. Qed.

Lemma apply_change_tags kq k s : kevent_ok k -> tags_ok kq s -> tags_ok kq (apply_change kq k s).
Proof.
  intros Hk Hs. assert (Hs' := Hs). destruct Hs' as [Ht Hw]. pose proof Hk as (Hi & _ & _ & _ & Hu).
  destruct (decide (ke_filter k = EVFILT_READ \/ ke_filter k = EVFILT_WRITE)) as [Hf|Hf].
  - destruct (yos_fd_get remap_errno_h2g (kq_world s) (s32 (ke_ident k))) as [fd w1] eqn:Hg. destruct (Z.lt_ge_cases fd 0) as [Hlt|Hge].
    + unfold apply_change, Kqueue.apply_change.
      assert (((ke_filter k =? EVFILT_READ) || (ke_filter k =? EVFILT_WRITE))%bool = true) as -> by (destruct Hf as [->| ->]; done).
      by rewrite Hg, (proj2 (Z.ltb_lt fd 0)).
    + rewrite (apply_change_io kq k s fd w1 Hf Hg Hge). destruct (ctl_op (ke_flags k)) as [op|]; [|done].
      pose proof (ctl_tags kq op fd k (change_event k) (kq_host s) Hk eq_refl Ht) as Hc.
      destruct (epoll_ctl kq op fd (change_event k) (kq_host s)) as [r h1]. cbn [snd] in Hc.
      destruct op; try by split. destruct (r =? EEXIST); [|by split].
      split; [|done]. cbn. by apply ctl_tags with (k := k).
  - unfold apply_change, Kqueue.apply_change.
    assert (((ke_filter k =? EVFILT_READ) || (ke_filter k =? EVFILT_WRITE))%bool = false) as ->
      by (apply not_true_iff_false; rewrite orb_true_iff, !Z.eqb_eq; done).
    destruct (_ =? EVFILT_PROC); [|done]. destruct (has _ EV_ADD); [by apply proc_watch_add_tags|].
    destruct (has _ _); [|done]. by apply proc_watch_remove_tags.
Qed.

Lemma apply_changes_tags kq changelist n s : tags_ok kq s -> tags_ok kq (apply_changes kq changelist n s).
Proof. unfold apply_changes, Kqueue.apply_changes. generalize (seqZ 0 n). intros l. apply foldl_keeps. intros s0 i H0. apply apply_change_tags; [apply read_kevent_ok|done]. Qed.

(** * Events *)

(** The entry [k'] reports the registration [k]: the watched descriptor and the
    filter are those of [k], and the udata too where the tag has room for it. *)
Definition reports (k k' : kevent) : Prop :=
  ke_ident k' = ke_ident k /\ ke_filter k' = ke_filter k /\
  (ke_filter k = EVFILT_PROC -> ke_fflags k' = NOTE_EXIT) /\
  (ke_filter k <> EVFILT_PROC -> ke_fflags k' = 0 /\ ke_udata k' = ke_udata k mod 65536).

Lemma marshal_event_spec kq p e k s :
  kevent_ok k -> ev_data e = pack_tag (ke_udata k) (ke_filter k) (ke_ident k) -> tags_ok kq s ->
  tags_ok kq (marshal_event kq p e s) /\
  exists k', kevent_ok k' /\ reports k k' /\ mem (kq_exec (marshal_event kq p e s)) = write_kevent (mem (kq_exec s)) p k'.
Proof.
  intros Hk He Hs. pose proof Hk as (Hi & Hf & _ & _ & Hu).
  destruct (tag_fields (ke_udata k) (ke_filter k) (ke_ident k)) as (T1 & T2 & T3); [lia..|]. cbv zeta in *.
  unfold marshal_event. rewrite He, T1, T2, T3. pose proof (Z.mod_pos_bound (ke_udata k) 65536 ltac:(lia)) as Hm.
  assert (Hfl : 0 <= (if has (ev_events e) EPOLLERR then EV_ERROR else 0) < 65536) by (destruct (has _ _); unfold EV_ERROR; lia).
  destruct (Z.eqb_spec (ke_filter k) EVFILT_PROC) as [Hp|Hp].
  - destruct (list_find _ _) as [[j w]|] eqn:El.
    + apply list_find_Some in El as (Hl & _ & _). split; [apply set_world_tags; by apply drop_watch_tags|].
      destruct Hs as [_ Hw]. pose proof (Forall_lookup_1 _ _ _ _ Hw Hl) as Hw'. cbn beta in Hw'.
      eexists. split; [|split; [|reflexivity]]; [unfold kevent_ok; cbn; unfold NOTE_EXIT; lia|]. by split_and!.
    + split; [by apply set_world_tags|]. eexists. split; [|split; [|reflexivity]]; [unfold kevent_ok; cbn; unfold NOTE_EXIT; lia|]. by split_and!.
  - split; [by apply set_world_tags|]. eexists. split; [|split; [|reflexivity]]; [unfold kevent_ok; cbn; lia|]. by split_and!.
Qed.

Lemma read_kevent_agree m m' p : agree_on p (p + KE_SZ) m m' -> read_kevent m' p = read_kevent m p.
Proof.
  unfold KE_SZ. intros A. unfold read_kevent.
  rewrite (ld32_agree m m' p), (ld16_agree m m' (p + 4)), (ld16_agree m m' (p + 6)), (ld32_agree m m' (p + 8)), (ld32_agree m m' (p + 24))
    by (eapply agree_on_sub; [..|exact A]; lia). done.
Qed.

(** The events [evs], written from entry [n] of the list on. *)
Lemma marshal_list kq eventlist evs : forall n s,
  (forall e, e ∈ evs -> exists k, kevent_ok k /\ ev_data e = pack_tag (ke_udata k) (ke_filter k) (ke_ident k)) -> tags_ok kq s ->
  let s' := foldl (fun s0 '(i, e) => marshal_event kq (eventlist + Z.of_nat i * KE_SZ) e s0) s (zip (seq n (length evs)) evs) in
  (forall lo hi, hi <= eventlist + Z.of_nat n * KE_SZ \/ eventlist + Z.of_nat (n + length evs) * KE_SZ <= lo -> agree_on lo hi (mem (kq_exec s)) (mem (kq_exec s'))) /\
  (forall i e, evs !! i = Some e -> exists k, kevent_ok k /\ ev_data e = pack_tag (ke_udata k) (ke_filter k) (ke_ident k) /\
     reports k (read_kevent (mem (kq_exec s')) (eventlist + Z.of_nat (n + i) * KE_SZ))).
Proof.
  induction evs as [|e evs IH]; intros n s Hevs Hs; [split; [intros; apply agree_on_refl|done]|].
  cbn [length seq zip zip_with foldl]. cbv zeta. set (p := eventlist + Z.of_nat n * KE_SZ).
  destruct (Hevs e) as (k & Hk & He); [left|]. destruct (marshal_event_spec kq p e k s Hk He Hs) as (Hs1 & k' & Hk' & Hr & Hm).
  specialize (IH (S n) (marshal_event kq p e s)). destruct IH as [IHf IHe]; [intros; apply Hevs; by right|done|].
  set (s' := foldl _ _ _) in *. split.
  - intros lo hi Hlh. eapply agree_on_trans; [|apply IHf; unfold KE_SZ in *; lia]. rewrite Hm. apply write_kevent_frame. unfold p, KE_SZ in *. lia.
  - intros [|i] e' Hi; cbn in Hi.
    + injection Hi as <-. exists k. split_and!; [done..|]. replace (n + 0)%nat with n by lia. fold p.
      rewrite (read_kevent_agree (mem (kq_exec (marshal_event kq p e s)))) by (apply IHf; unfold p, KE_SZ; lia).
      rewrite Hm, read_write_kevent; done.
    + destruct (IHe i e' Hi) as (k1 & Hk1 & He1 & Hr1). exists k1. replace (n + S i)%nat with (S n + i)%nat by lia. done.
Qed.

Lemma kq_errno_neg e (s : kq_state H) : fst (kq_errno remap_errno_h2g s e) = -1.
Proof.
  unfold kq_errno. destruct (fd_errno _ _ _) as [r w] eqn:E. unfold fd_errno in E. destruct (errno_neg _ _ _) as [r' x] eqn:E2. injection E as <- <-.
  unfold errno_neg in E2. by injection E2 as <- _.
Qed.

(** C33: Kevent returns at most as many events as it was asked for and at most
    256, each of its entries reports a registration of the kqueue as it is
    after the changes, with the upper bits of the udata cut off unless the entry is about a
    process, and no byte outside these entries changes after the changes. *)
Theorem kevent_delivers kq_wfd changelist nchanges eventlist nevents timeout_off s r s' kq w0 :
  yos_fd_get remap_errno_h2g (kq_world s) kq_wfd = (kq, w0) -> tags_ok kq s ->
  m3_yos_kevent remap_errno_h2g kq_wfd changelist nchanges eventlist nevents timeout_off s = Some (r, s') -> 0 <= r ->
  let s1 := apply_changes kq changelist nchanges s in
  0 <= kq /\ r <= nevents /\ r <= 256 /\ (0 < r -> eventlist + r * KE_SZ <= memory_size (kq_exec s)) /\
  (forall lo hi, hi <= eventlist \/ eventlist + r * KE_SZ <= lo -> agree_on lo hi (mem (kq_exec s1)) (mem (kq_exec s'))) /\
  (forall i, 0 <= i < r -> exists fd ev k, interest (kq_host s1) kq fd = Some ev /\ kevent_ok k /\
     ev_data ev = pack_tag (ke_udata k) (ke_filter k) (ke_ident k) /\ reports k (read_kevent (mem (kq_exec s')) (eventlist + i * KE_SZ))).
Proof.
  intros Hg Hs Hev Hr. cbv zeta. unfold m3_yos_kevent in Hev. rewrite Hg in Hev.
  assert (Hneg : forall e (x : kq_state H), Some (kq_errno remap_errno_h2g x e) = Some (r, s') -> False).
  { intros e x [= E]. pose proof (kq_errno_neg e x) as N. rewrite E in N. cbn in N. lia. }
  destruct (Z.ltb_spec kq 0) as [|Hkq]; [by apply Hneg in Hev|]. pose proof (fd_get_valid _ _ _ _ Hg Hkq) as ->.
  assert (E : set_kq_world (kq_world s) s = s) by (by destruct s). rewrite E in Hev.
  destruct (Z.ltb_spec nchanges 0); [by apply Hneg in Hev|]. destruct (Z.ltb_spec nevents 0); [by apply Hneg in Hev|]. cbn [orb] in Hev.
  destruct (bad_list (kq_exec s) changelist nchanges); [by apply Hneg in Hev|]. cbn [orb] in Hev.
  destruct (bad_list (kq_exec s) eventlist nevents) eqn:Hbad; [by apply Hneg in Hev|].
  pose proof (apply_changes_tags kq changelist nchanges s Hs) as Hs1. set (s1 := apply_changes kq changelist nchanges s) in *.
  fold (apply_changes kq changelist nchanges s) in Hev. fold s1 in Hev.
  destruct (Z.leb_spec nevents 0) as [|Hne].
  { injection Hev as <- <-. assert (nevents = 0) as -> by lia. split_and!; try lia; first [by intros; apply agree_on_refl|by intros i Hi; lia]. }
  destruct (negb _ && _); [by apply Hneg in Hev|].
  destruct (if timeout_off =? 0 then _ else _) as [t|]; [|done]. cbn [mbind option_bind] in Hev.
  set (n := if 256 <? nevents then 256 else nevents) in *. assert (Hn : 0 < n <= nevents /\ n <= 256) by (unfold n; destruct (Z.ltb_spec 256 nevents); lia).
  pose proof (ep_wait_bound (kq_host s1) kq n t ltac:(lia)) as Hb. destruct (ep_wait_keeps (kq_host s1) kq n t) as [Hk _].
  pose proof (ep_wait_data (kq_host s1) kq n t) as Hd. destruct (epoll_wait kq n t (kq_host s1)) as [[rr evs] h2]. cbn [fst snd] in *.
  destruct (negb (rr =? 0)); [by apply Hneg in Hev|]. injection Hev as <- <-.
  assert (Hevs : forall e, e ∈ evs -> exists k, kevent_ok k /\ ev_data e = pack_tag (ke_udata k) (ke_filter k) (ke_ident k)).
  { intros e He. destruct (Hd e He) as (fd & old & Hi & ->). destruct Hs1 as [Ht _]. eauto. }
  assert (Hs2 : tags_ok kq (set_kq_host h2 s1)) by (destruct Hs1 as [Ht Hw]; split; [intros fd ev; cbn; rewrite Hk; apply Ht|done]).
  destruct (marshal_list kq eventlist evs 0 _ Hevs Hs2) as [Hf He]. cbv zeta in Hf, He. fold (marshal_events kq eventlist evs (set_kq_host h2 s1)) in Hf, He.
  split_and!; try lia.
  - intros _. unfold bad_list in Hbad. rewrite (proj2 (Z.ltb_lt 0 nevents)) in Hbad by lia. cbn [andb] in Hbad.
    apply orb_false_iff in Hbad as [_ Hbad]. apply Z.ltb_ge in Hbad. unfold KE_SZ in *. lia.
  - intros lo hi Hlh. apply Hf. cbn [Nat.add]. unfold KE_SZ in *. lia.
  - intros i Hi. destruct (lookup_lt_is_Some_2 evs (Z.to_nat i) ltac:(lia)) as [e Hl]. destruct (He _ _ Hl) as (k & Hok & Hdat & Hrep).
    destruct (Hd e) as (fd & old & Hold & Heq); [by eapply list_elem_of_lookup_2|].
    exists fd, old, k. rewrite <- Heq. replace (Z.of_nat (0 + Z.to_nat i)) with i in Hrep by lia. done.
Qed.

(** The watch of a process, from its registration to its event: kevent puts
    it into a free slot with an eventfd of its own that the kqueue watches;
    when the eventfd fires, the guest receives the process, NOTE_EXIT and all
    32 bits of the udata, and the eventfd is unregistered and closed and the
    slot free again. *)
Theorem process_watch_lifecycle kq pid udata s s1 p e :
  0 <= pid < 4294967296 -> 0 <= udata < 4294967296 ->
  Forall (fun w => watches kq pid w = false) (g_proc_watches s) ->
  proc_watch_add kq pid udata s = (0, s1) -> ev_data e = pack_tag udata EVFILT_PROC pid ->
  exists i w efd, g_proc_watches s !! i = Some w /\ watch_free w /\ 0 < efd /\ ~ is_open (kq_host s) efd /\
    g_proc_watches s1 = <[i := Watch kq efd pid udata]> (g_proc_watches s) /\
    interest (kq_host s1) kq efd = Some (Event EPOLLIN (pack_tag udata EVFILT_PROC pid)) /\
    let s2 := marshal_event kq p e s1 in
    read_kevent (mem (kq_exec s2)) p = Kevent pid EVFILT_PROC (if has (ev_events e) EPOLLERR then EV_ERROR else 0) NOTE_EXIT udata /\
    ~ is_open (kq_host s2) efd /\ interest (kq_host s2) kq efd = None /\
    g_proc_watches s2 = <[i := Watch (-1) (-1) 0 udata]> (g_proc_watches s).
Proof using EP.
  clear remap_errno_h2g.
  intros Hp Hu Hno Hadd Htag. unfold proc_watch_add in Hadd. destruct (list_find _ _) as [[i w]|] eqn:El; [|done].
  apply list_find_Some in El as (Hl & Hfree & _). pose proof (ep_eventfd (kq_host s)) as He. destruct (eventfd (kq_host s)) as [efd h1].
  destruct He as (Hi1 & Ho1 & Hpos). destruct (Z.ltb_spec efd 0) as [|Hge]; [done|]. destruct (Hpos Hge) as [Hefd Hcl].
  assert (Hnone : interest h1 kq efd = None).
  { rewrite Hi1. destruct (interest (kq_host s) kq efd) eqn:Ei; [|done]. by destruct (ep_open _ _ _ _ Ei). }
  cbn [kq_host] in Hadd. pose proof (ep_add_new h1 kq efd (Event EPOLLIN (pack_tag udata EVFILT_PROC pid)) Hnone) as Ha.
  destruct (epoll_ctl _ _ _ _ h1) as [rr h2]. destruct (Z.eqb_spec rr 0) as [->|Hrr]; [|done]. cbn [negb] in Hadd. injection Hadd as <-.
  destruct Ha as [[_ Ha]|[Ha _]]; [|done]. cbn [g_proc_watches set_kq_host set_watches].
  exists i, w, efd. do 6 (split; [done|]).
  assert (Hlen : (i < length (g_proc_watches s))%nat) by (by eapply lookup_lt_Some).
  cbv zeta. unfold marshal_event. rewrite Htag.
  destruct (tag_fields udata EVFILT_PROC pid) as (T1 & T2 & _); [lia|done|unfold EVFILT_PROC; lia|]. cbv zeta in T1, T2. rewrite T1, T2, Z.eqb_refl.
  set (s1 := set_watches _ _).
  assert (Hfind : list_find (fun w0 => watches kq pid w0 = true) (g_proc_watches s1) = Some (i, Watch kq efd pid udata)).
  { apply list_find_Some. cbn. split; [by apply list_lookup_insert_eq|]. split; [by apply watches_iff|].
    intros j y Hj Hlt. rewrite list_lookup_insert_ne in Hj by lia. rewrite (Forall_lookup_1 _ _ _ _ Hno Hj). done. }
  rewrite Hfind. cbn [pw_udata]. split_and!.
  - cbn [kq_world set_kq_world kq_exec upd_tab tab set_f_exec f_exec set_mem mem]. rewrite read_write_kevent; [done|].
    unfold kevent_ok, EVFILT_PROC, EV_ERROR, NOTE_EXIT. cbn. destruct (has _ _); lia.
  - cbn. intros Ho. apply ep_close in Ho. tauto.
  - change (interest (host_close efd (snd (epoll_ctl kq EPOLL_CTL_DEL efd (Event 0 0) (kq_host s1)))) kq efd = None).
    destruct (interest (host_close _ _) kq efd) eqn:E; [|done]. apply close_interest in E. by rewrite ep_del in E.
  - cbn. apply list_insert_insert_eq.
Qed.
End KqueueProps.

(** * A host with one table of registrations, and kqueue at a concrete guest *)

(** The open descriptors and what is registered; every registered event is
    ready. *)
Record demo_epoll : Type := DemoEpoll { de_open : gset Z; de_interest : gmap (Z * Z) epoll_event }.

Definition de_fresh (h : demo_epoll) : Z := 1 + foldr Z.max 2 (elements (de_open h)).
Definition de_is_open (h : demo_epoll) (d : Z) : Prop := d ∈ de_open h.

#[local] Instance de_is_open_dec h d : Decision (de_is_open h d).
Proof. unfold de_is_open. apply _. Defined.

Definition de_reg (h : demo_epoll) (kq fd : Z) : option epoll_event :=
  if bool_decide (de_is_open h kq /\ de_is_open h fd) then de_interest h !! (kq, fd) else None.

Definition de_ctl (kq : Z) (op : epoll_op) (fd : Z) (ev : epoll_event) (h : demo_epoll) : Z * demo_epoll :=
  match de_reg h kq fd, op with
  | Some _, EPOLL_CTL_ADD => (EEXIST, h)
  | None, EPOLL_CTL_ADD =>
      if bool_decide (de_is_open h kq /\ de_is_open h fd) then (0, DemoEpoll (de_open h) (<[(kq, fd) := ev]> (de_interest h))) else (EBADF, h)
  | Some _, EPOLL_CTL_MOD => (0, DemoEpoll (de_open h) (<[(kq, fd) := ev]> (de_interest h)))
  | None, EPOLL_CTL_MOD => (EBADF, h)
  | _, EPOLL_CTL_DEL => (0, DemoEpoll (de_open h) (delete (kq, fd) (de_interest h)))
  end.

Definition de_wait (kq n t : Z) (h : demo_epoll) : Z * list epoll_event * demo_epoll :=
  (0, take (Z.to_nat n) (omap (fun p => if fst (fst p) =? kq then de_reg h kq (snd (fst p)) else None) (map_to_list (de_interest h))), h).

Definition de_other (d : Z) (p : (Z * Z) * epoll_event) : Prop := fst (fst p) <> d /\ snd (fst p) <> d.

#[local] Instance de_other_dec d p : Decision (de_other d p).
Proof. unfold de_other. apply _. Defined.

Definition de_purge (d : Z) (m : gmap (Z * Z) epoll_event) : gmap (Z * Z) epoll_event := filter (de_other d) m.
Definition de_open_new (h : demo_epoll) : Z * demo_epoll := (de_fresh h, DemoEpoll ({[de_fresh h]} ∪ de_open h) (de_purge (de_fresh h) (de_interest h))).
Definition de_close (d : Z) (h : demo_epoll) : demo_epoll := DemoEpoll (de_open h ∖ {[d]}) (de_interest h).

Lemma de_fresh_above h d : d ∈ de_open h -> d < de_fresh h.
Proof.
  unfold de_fresh. rewrite <- elem_of_elements. induction (elements (de_open h)) as [|x l IH]; [by inversion 1|].
  cbn. rewrite elem_of_cons. intros [->|Hd]; [lia|]. specialize (IH Hd). lia.
Qed.

Lemma de_fresh_pos h : 2 < de_fresh h.
Proof. unfold de_fresh. induction (elements (de_open h)); cbn; lia. Qed.

Lemma de_reg_fresh h kq fd d : (kq = d \/ fd = d) -> ~ de_is_open h d -> de_reg h kq fd = None.
Proof. intros Hd Ho. unfold de_reg. rewrite bool_decide_eq_false_2; [done|]. destruct Hd as [-> | ->]; tauto. Qed.

Lemma de_purge_ne d m kq fd : kq <> d -> fd <> d -> de_purge d m !! (kq, fd) = m !! (kq, fd).
Proof. intros H1 H2. unfold de_purge. rewrite map_lookup_filter. destruct (m !! (kq, fd)); cbn; [|done]. by rewrite option_guard_True. Qed.

Lemma de_purge_eq d m kq fd : kq = d \/ fd = d -> de_purge d m !! (kq, fd) = None.
Proof.
  intros Hd. unfold de_purge. rewrite map_lookup_filter. destruct (m !! (kq, fd)); cbn; [|done].
  rewrite option_guard_False; [done|]. unfold de_other. cbn. tauto.
Qed.

#[export] Instance demo_epoll_ok : Epoll demo_epoll.
Proof.
  refine {| epoll_create1 := de_open_new; eventfd h := de_open_new h; eventfd_write _ h := h; host_close := de_close; epoll_ctl := de_ctl;
            epoll_wait := de_wait; interest := de_reg; is_open := de_is_open |}.
  - intros h kq fd ev. unfold de_reg. by case_bool_decide.
  - intros h kq fd ev Hn. unfold de_ctl. rewrite Hn. case_bool_decide as E; [left|by right]. split; [done|]. unfold de_reg. cbn.
    rewrite bool_decide_eq_true_2 by done. by rewrite lookup_insert_eq.
  - intros h kq fd ev old Ho. unfold de_ctl. by rewrite Ho.
  - intros h kq fd ev old Ho. unfold de_ctl. rewrite Ho. split; [done|]. unfold de_reg in Ho |- *.
    assert (E : de_is_open h kq /\ de_is_open h fd) by (apply dec_stable; intros E; by rewrite (bool_decide_eq_false_2 _ E) in Ho).
    rewrite bool_decide_eq_true_2 by done. cbn. by rewrite lookup_insert_eq.
  - intros h kq fd ev Hn. unfold de_ctl. by rewrite Hn.
  - intros h kq fd ev. unfold de_ctl. destruct (de_reg h kq fd); cbn; unfold de_reg; cbn; case_bool_decide; try done; by rewrite lookup_delete_eq.
  - intros h kq op fd ev kq' fd' Hne. unfold de_ctl. destruct (de_reg h kq fd), op; try case_bool_decide; try done; unfold de_reg, de_is_open; cbn;
      destruct (bool_decide _); try done; by rewrite ?lookup_insert_ne, ?lookup_delete_ne by congruence.
  - intros h kq op fd ev d. unfold de_ctl. destruct (de_reg h kq fd), op; try case_bool_decide; done.
  - intros h kq n t Hn. cbn. rewrite length_take. lia.
  - done.
  - intros h kq n t e. cbn. intros He. apply elem_of_take in He as (i & Hi & _). apply list_elem_of_lookup_2, list_elem_of_omap in Hi as (p & _ & Hp).
    destruct (_ =? kq); [|done]. eauto.
  - intros h. unfold de_open_new. pose proof (de_fresh_pos h) as Hp. assert (Hf : ~ de_is_open h (de_fresh h)) by (intros Hd; apply de_fresh_above in Hd; lia).
    split_and!.
    + intros kq fd. unfold de_reg, de_is_open in *. cbn. destruct (decide (kq = de_fresh h \/ fd = de_fresh h)) as [Hd|Hd].
      * rewrite de_purge_eq by done. rewrite (bool_decide_eq_false_2 (kq ∈ de_open h /\ _)) by (destruct Hd as [-> | ->]; tauto). by case_bool_decide.
      * rewrite de_purge_ne by tauto. assert (E : kq ∈ {[de_fresh h]} ∪ de_open h /\ fd ∈ {[de_fresh h]} ∪ de_open h <-> kq ∈ de_open h /\ fd ∈ de_open h) by set_solver.
        by rewrite (bool_decide_ext _ _ E).
    + intros d. unfold de_is_open. cbn. rewrite elem_of_union, elem_of_singleton. split; [intros [->|]|intros [|[_ ->]]]; auto. right. split; [lia|done].
    + intros _. split; [lia|done].
  - done.
  - intros h d. split.
    + intros kq fd H1 H2. unfold de_reg, de_is_open. cbn.
      assert (E : kq ∈ de_open h ∖ {[d]} /\ fd ∈ de_open h ∖ {[d]} <-> kq ∈ de_open h /\ fd ∈ de_open h) by set_solver. by rewrite (bool_decide_ext _ _ E).
    + intros x. unfold de_is_open. cbn. set_solver.
Defined.

(** Descriptor 3 of the guest is the kqueue 10, descriptor 4 is 11 on the
    host, where input is registered. *)
Definition kq_demo_world (m : memory) : world :=
  World {[10; 11]} [] (FdCtx (ExecCtx m 65536 0 0 [] [] 0 0 0 64) (<[3%nat := 10]> (<[4%nat := 11]> (replicate 256 (-1)))) (replicate 256 None) [] true).
Definition input_4 : kevent := Kevent 4 EVFILT_READ EV_ADD 0 65538.
Definition kq_demo (m : memory) : kq_state demo_epoll :=
  KqState (kq_demo_world m) (DemoEpoll {[10; 11]} {[(10, 11) := change_event input_4]}) no_watches.
Definition output_4 : kevent := Kevent 4 EVFILT_WRITE EV_ADD 0 9.

(** Adding the output filter takes the input filter away. *)
Lemma kevent_registration_witness :
  interest (kq_host (apply_change id 10 output_4 (kq_demo (fun _ => 0)))) 10 11 = Some (change_event output_4) /\
  change_event output_4 <> change_event input_4.
Proof.
  destruct (kevent_registration id 10 output_4 (kq_demo (fun _ => 0)) 11 (kq_demo_world (fun _ => 0))) as [[E|[E _]] _].
  - by right.
  - reflexivity.
  - lia.
  - split; [exact E|discriminate].
  - discriminate E.
Defined.

Lemma demo_tags m : tags_ok 10 (kq_demo m).
Proof.
  split.
  - intros fd ev Hi. cbn in Hi. unfold de_reg in Hi. destruct (bool_decide _); [|done]. cbn [de_interest] in Hi. apply lookup_singleton_Some in Hi as [_ <-].
    exists input_4. split; [|reflexivity]. unfold kevent_ok, input_4, EVFILT_READ, EV_ADD. cbn. lia.
  - apply Forall_replicate. cbn. lia.
Qed.

(** One event is delivered, with the low 16 bits of the udata 65538. *)
Lemma kevent_delivers_witness :
  exists s', m3_yos_kevent id 3 0 0 1024 5 0 (kq_demo (fun _ => 0)) = Some (1, s') /\
    (exists k, kevent_ok k /\ reports k (read_kevent (mem (kq_exec s')) 1024)) /\
    ke_ident (read_kevent (mem (kq_exec s')) 1024) = 4 /\ ke_udata (read_kevent (mem (kq_exec s')) 1024) = 2.
Proof.
  destruct (m3_yos_kevent id 3 0 0 1024 5 0 (kq_demo (fun _ => 0))) as [[r s']|] eqn:E; [|vm_compute in E; discriminate].
  assert (Ev : option_map (fun x => (fst x, ke_ident (read_kevent (mem (kq_exec (snd x))) 1024), ke_udata (read_kevent (mem (kq_exec (snd x))) 1024)))
    (m3_yos_kevent id 3 0 0 1024 5 0 (kq_demo (fun _ => 0))) = Some (1, 4, 2)) by (vm_compute; reflexivity).
  rewrite E in Ev. cbn [option_map fst snd] in Ev. injection Ev as -> E4 E2.
  destruct (kevent_delivers id 3 0 0 1024 5 0 (kq_demo (fun _ => 0)) 1 s' 10 (kq_demo_world (fun _ => 0)) eq_refl (demo_tags _) E ltac:(lia))
    as (_ & _ & _ & _ & _ & H). destruct (H 0 ltac:(lia)) as (fd & ev & k & _ & Hk & _ & Hr).
  exists s'. split; [done|]. split; [|by split]. exists k. split; [done|exact Hr].
Defined.

(** Process 77 is watched with a udata of 32 bits. *)
Lemma process_watch_lifecycle_witness :
  exists s1, proc_watch_add 10 77 4000000000 (kq_demo (fun _ => 0)) = (0, s1) /\
    read_kevent (mem (kq_exec (marshal_event 10 1024 (Event EPOLLIN (pack_tag 4000000000 EVFILT_PROC 77)) s1))) 1024 = Kevent 77 EVFILT_PROC 0 NOTE_EXIT 4000000000.
Proof.
  destruct (proc_watch_add 10 77 4000000000 (kq_demo (fun _ => 0))) as [r s1] eqn:E.
  assert (r = 0) as -> by (apply (f_equal fst) in E; vm_compute in E; congruence).
  destruct (process_watch_lifecycle 10 77 4000000000 (kq_demo (fun _ => 0)) s1 1024 (Event EPOLLIN (pack_tag 4000000000 EVFILT_PROC 77)))
    as (i & w & efd & _ & _ & _ & _ & _ & _ & H & _); [lia|lia| |exact E|reflexivity|].
  - apply Forall_replicate. reflexivity.
  - exists s1. split; [reflexivity|exact H].
Defined.
