(* ===== verification/StrtoProps.v ===== *)
(** Reading numbers: a numeral is read to its value and to its end, a decimal
    print is read back, and what happens outside the range of the result. *)
From S2P Require Import Prelude Memory Ctx CString Strto Decimal.

(** * The bridge on a numeral *)

Section Bridge.
Variable h2g : Z -> Z.

(** A string of the guest that fits, and a slot for the position. *)
Record call_ok (c : exec_ctx) (str_off endp_off : Z) (s : bytes) : Prop := {
  co_str : str_at (mem c) str_off s;
  co_fits : 0 < str_off /\ str_off + blen s < memory_size c;
  co_slot : 0 < endp_off /\ endp_off + 4 <= memory_size c;
  co_size : memory_size c < 4294967296
}.

Lemma bridge_value host_fn ret c str_off endp_off base s r n :
  call_ok c str_off endp_off s -> host_fn base s = (r, 0, Some n) -> 0 <= n <= blen s ->
  DEFINE_STRTO_INT h2g host_fn ret c str_off endp_off base =
    Some (ret r, set_mem (st32 (mem c) endp_off (str_off + n)) c).
Proof.
  intros [H1 [H2 H3] [H4 H5] H6] Hh Hn. pose proof (blen_nonneg s). unfold DEFINE_STRTO_INT.
  rewrite (proj2 (Z.eqb_neq str_off 0)), (proj2 (Z.leb_gt (memory_size c) str_off)) by lia. cbn [orb].
  rewrite (str_at_cstr c str_off s) by done. cbn [mbind option_bind]. rewrite Hh. cbn [Z.eqb].
  rewrite (proj2 (Z.eqb_neq endp_off 0)), u32_small, (proj2 (Z.leb_le (endp_off + 4) (memory_size c))) by lia. cbn [negb andb].
  rewrite (proj2 (Z.ltb_ge (memory_size c) (endp_off + 4))) by lia. unfold host_to_wasm_off.
  rewrite (proj2 (Z.leb_gt (memory_size c) (str_off + n))), u32_small by lia. done.
Qed.

(** Strtol of a numeral, with white space in front and any text behind it,
    stores where the digits end, touches no other byte and no errno, and returns
    the value, reduced to 32 bits: exactly the value when it is an int. *)
Theorem strtol_reads_numeral c str_off endp_off base neg sp sg ds rest :
  call_ok c str_off endp_off (sp ++ sg ++ ds ++ rest) -> numeral base neg sp sg ds rest ->
  LLONG_MIN <= signed neg (value_of base ds) <= LLONG_MAX ->
  exists r c', m3_yos_strtol h2g c str_off endp_off base = Some (r, c') /\
    r = s32 (signed neg (value_of base ds)) /\
    (-2147483648 <= signed neg (value_of base ds) < 2147483648 -> r = signed neg (value_of base ds)) /\
    ld32 (mem c') endp_off = str_off + blen sp + blen sg + blen ds /\
    (forall lo hi, hi <= endp_off \/ endp_off + 4 <= lo -> agree_on lo hi (mem c) (mem c')).
Proof.
  intros Hc Hn Hv. unfold m3_yos_strtol.
  pose proof (blen_nonneg sp). pose proof (blen_nonneg sg). pose proof (blen_nonneg ds). pose proof (blen_nonneg rest).
  erewrite (bridge_value strtoll s32); [|exact Hc| |].
  2:{ unfold strtoll. rewrite (strto_numeral _ _ _ _ _ _ _ Hn), finish_signed_in by done. reflexivity. }
  2:{ rewrite !blen_app. lia. }
  eexists _, _. split; [reflexivity|]. split; [reflexivity|]. split; [intros; by apply s32_in|]. split.
  - cbn [mem set_mem]. rewrite ld32_st32, u32_small; [lia|]. destruct Hc as [_ [? Hf] _ ?]. rewrite !blen_app in Hf. lia.
  - intros lo hi Hd. cbn [mem set_mem]. by apply st32_frame.
Qed.

(** a numeral that fits in a long of the host but not in one of the guest is
    reported without an error: strtol returns its low 32 bits, not LONG_MAX, and
    leaves errno alone. *)
Theorem strtol_truncates_silently c str_off endp_off base neg sp sg ds rest :
  call_ok c str_off endp_off (sp ++ sg ++ ds ++ rest) -> numeral base neg sp sg ds rest ->
  2147483648 < signed neg (value_of base ds) <= 4294967295 ->
  errno_off c + 4 <= endp_off \/ endp_off + 4 <= errno_off c ->
  exists r c', m3_yos_strtol h2g c str_off endp_off base = Some (r, c') /\ r < 0 /\
    ld32 (mem c') (errno_off c) = ld32 (mem c) (errno_off c).
Proof.
  intros Hc Hn Hv He. unfold m3_yos_strtol.
  pose proof (blen_nonneg sp). pose proof (blen_nonneg sg). pose proof (blen_nonneg ds). pose proof (blen_nonneg rest).
  erewrite (bridge_value strtoll s32); [|exact Hc| |].
  2:{ unfold strtoll. rewrite (strto_numeral _ _ _ _ _ _ _ Hn), finish_signed_in by (unfold LLONG_MIN, LLONG_MAX; lia). reflexivity. }
  2:{ rewrite !blen_app. lia. }
  eexists _, _. split; [reflexivity|]. split.
  - unfold s32. rewrite u32_small by lia. destruct (Z.ltb_spec (signed neg (value_of base ds)) 2147483648); lia.
  - apply ld32_agree. cbn [mem set_mem]. apply st32_frame. lia.
Qed.
End Bridge.

(** strtol, with base ten, of the decimal print of an int reads it back, and
    stops right behind it, whatever follows that is no digit. *)
Theorem strtol_decimal_roundtrip h2g c str_off endp_off x rest :
  -2147483648 <= x < 2147483648 -> call_ok c str_off endp_off (decimal x ++ rest) ->
  match rest with ch :: _ => 10 <= digit_of ch | [] => True end ->
  exists c', m3_yos_strtol h2g c str_off endp_off 10 = Some (x, c') /\ ld32 (mem c') endp_off = str_off + blen (decimal x).
Proof.
  intros Hx Hc Hr. destruct (decimal_numeral x rest ltac:(lia) Hr) as (neg & sg & ds & Hdec & Hn & Hv). rewrite Hdec, <-app_assoc in Hc.
  pose proof (blen_nonneg sg). pose proof (blen_nonneg ds). pose proof (blen_nonneg rest).
  unfold m3_yos_strtol. erewrite (bridge_value h2g strtoll s32); [|exact Hc| |].
  2:{ unfold strtoll. pose proof (strto_numeral finish_signed 10 neg [] sg ds rest Hn) as Hs. cbn [app] in Hs. rewrite Hs, finish_signed_in by (unfold LLONG_MIN, LLONG_MAX; lia). reflexivity. }
  2:{ change (blen []) with 0. rewrite !blen_app. lia. }
  rewrite Hv, s32_in by done. eexists. split; [reflexivity|]. cbn [mem set_mem]. change (blen []) with 0.
  destruct Hc as [_ [? Hf] _ ?]. rewrite !blen_app in Hf. rewrite ld32_st32, u32_small, Hdec, blen_app by lia. lia.
Qed.

(** * Witnesses *)

(** " -42;" at 1024 and "3000000000" at 1040. *)
Definition strto_mem : memory := write_bytes (write_bytes (fun _ => 0) 1024 [32; 45; 52; 50; 59]) 1040 (decimal 3000000000).
Definition strto_ctx : exec_ctx := ExecCtx strto_mem 4096 2200 0 [] [] 0 0 0 264.

Lemma strto_text : call_ok strto_ctx 1024 2048 ([32] ++ [45] ++ [52; 50] ++ [59]).
Proof. split; [|done..]. split; [vm_compute; reflexivity|]. by repeat constructor. Qed.

Lemma strto_numeral_42 : numeral 10 true [32] [45] [52; 50] [59].
Proof. split; try done; [by repeat constructor|split; [done|by repeat constructor]]. Qed.

Lemma strtol_reads_numeral_witness :
  exists c', m3_yos_strtol id strto_ctx 1024 2048 10 = Some (-42, c') /\ ld32 (mem c') 2048 = 1028.
Proof.
  destruct (strtol_reads_numeral id strto_ctx 1024 2048 10 true [32] [45] [52; 50] [59] strto_text strto_numeral_42 ltac:(vm_compute; split; discriminate))
    as (r & c' & H1 & _ & H2 & H3 & _).
  exists c'. rewrite H1, H2 by (vm_compute; split; [discriminate|reflexivity]). split; [reflexivity|exact H3].
Defined.

Lemma strto_big : call_ok strto_ctx 1040 2048 ([] ++ [] ++ decimal 3000000000 ++ []).
Proof. split; [|done..]. split; [vm_compute; reflexivity|]. by repeat constructor. Qed.

Lemma strtol_truncates_silently_witness :
  exists r c', m3_yos_strtol id strto_ctx 1040 2048 10 = Some (r, c') /\ r < 0 /\ ld32 (mem c') 264 = 0.
Proof.
  destruct (strtol_truncates_silently id strto_ctx 1040 2048 10 false [] [] (decimal 3000000000) [] strto_big) as (r & c' & H1 & H2 & H3).
  - split; try done; [by left|]. split; [done|by repeat constructor].
  - vm_compute. split; [reflexivity|discriminate].
  - left. cbn. lia.
  - exists r, c'. split; [exact H1|]. split; [exact H2|]. exact H3.
Defined.

Lemma strtol_decimal_roundtrip_witness :
  exists c', m3_yos_strtol id (set_mem (write_bytes strto_mem 1024 (decimal (-2147483648))) strto_ctx) 1024 2048 10 = Some (-2147483648, c') /\
    ld32 (mem c') 2048 = 1035.
Proof.
  apply (strtol_decimal_roundtrip id _ 1024 2048 (-2147483648) []); [lia| |exact I].
  split; [|done..]. split; [vm_compute; reflexivity|]. by repeat constructor.
Defined.
