(* ===== verification/Scanf.v ===== *)
(** The scanf family (src/src/yos/impl/libc/scanf.c): the walk over the format,
    the conversions, and the stores through the packed pointers.

    The input is a string of the guest, read where it lies, or a line the host
    read.  strtod is the host's: the bits of the value as a double and as a
    float, and the number of characters read.  [None]: a read outside linear
    memory, or a width that overflows an int.  The bounds of the loops are the
    size of the memory plus that of the host's line: every step moves one
    character on. *)
From S2P Require Import Prelude Memory Ctx CString Printf Strto.

(** * The input *)

Inductive source : Type := Src_guest (off : Z) | Src_host (s : bytes).

(** [*in], [i] characters behind the start. *)
Definition rd_in (src : source) (c : exec_ctx) (i : Z) : option Z :=
  match src with
  | Src_guest off => rd c (off + i)
  | Src_host s => if 0 <=? i then (s ++ [0]) !! Z.to_nat i else None
  end.

(** The string from there on. *)
Definition in_str (src : source) (c : exec_ctx) (i : Z) : option bytes :=
  match src with Src_guest off => cstr c (off + i) | Src_host s => Some (drop (Z.to_nat i) s) end.

Definition scan_fuel (src : source) (c : exec_ctx) : nat :=
  (Z.to_nat (memory_size c) + match src with Src_guest _ => 0 | Src_host s => length s end + 2)%nat.

Fixpoint skip_ws (fuel : nat) (src : source) (c : exec_ctx) (i : Z) : option Z :=
  match fuel with
  | O => None
  | S f => ch ← rd_in src c i; if negb (ch =? 0) && isspace ch then skip_ws f src c (i + 1) else Some i
  end.

(** * The state of a scan *)

Record scan_state : Type := ScanState { sc_exec : exec_ctx; sc_in : Z; sc_va : Z; sc_matches : Z }.

Definition set_sc_in (i : Z) (s : scan_state) : scan_state := ScanState (sc_exec s) i (sc_va s) (sc_matches s).

(** [Go]: the walk goes on; [Stop]: the loop is left, with [hit_eof]. *)
Inductive scan_outcome : Type := Go (s : scan_state) | Stop (s : scan_state) (hit_eof : bool).

(** [*in == 0]: end of the input. *)
Definition at_eof (s : scan_state) : scan_outcome := Stop s (sc_matches s =? 0).

(** The next pointer, unless the assignment is suppressed. *)
Definition va_p : exec_ctx -> Z -> Z * Z := va_i32.
Definition next_ptr (suppress : bool) (s : scan_state) : Z * scan_state :=
  if suppress then (0, s)
  else let '(p, va) := va_p (sc_exec s) (sc_va s) in (p, ScanState (sc_exec s) (sc_in s) va (sc_matches s)).

Definition mem_update (f : memory -> memory) (s : scan_state) : scan_state :=
  ScanState (set_mem (f (mem (sc_exec s))) (sc_exec s)) (sc_in s) (sc_va s) (sc_matches s).
Definition matched (suppress : bool) (s : scan_state) : scan_state :=
  if suppress then s else ScanState (sc_exec s) (sc_in s) (sc_va s) (sc_matches s + 1).

(** A value of so many bytes, if it fits behind the pointer. *)
Definition put_sized (n p v : Z) (s : scan_state) : scan_state :=
  if (p =? 0) || (memory_size (sc_exec s) <=? p) || (memory_size (sc_exec s) <? p + n) then s
  else mem_update (fun m => if n =? 1 then st8 m p v else if n =? 2 then st16 m p v else if n =? 8 then st64 m p v else st32 m p v) s.

(** Character [k] of a string conversion, and its terminator. *)
Definition put_char (p k ch : Z) (s : scan_state) : scan_state :=
  if (p =? 0) || (memory_size (sc_exec s) <? p + k + 1) then s else mem_update (fun m => st8 m (p + k) ch) s.

(** * One specification *)

(** Length modifiers: 0 int, 1 'h', 2 'hh', 3 'l', 4 'll', 5 j, z, t and L. *)
Record scan_spec : Type := ScanSpec { ss_suppress : bool; ss_width : option Z; ss_length : Z; ss_conv : Z }.

Definition INT_MAX : Z := 2147483647.

Fixpoint read_width (fuel : nat) (c : exec_ctx) (f w : Z) : option (Z * Z) :=
  match fuel with
  | O => None
  | S k =>
      ch ← rd c f;
      if is_digit ch then
        let w' := w * 10 + (ch - 48) in if INT_MAX <? w' then None else read_width k c (f + 1) w'
      else Some (w, f)
  end.

Definition read_length (c : exec_ctx) (f : Z) : option (Z * Z) :=
  ch ← rd c f;
  if ch =? 104 then ch2 ← rd c (f + 1); if ch2 =? 104 then Some (2, f + 2) else Some (1, f + 1)
  else if ch =? 108 then ch2 ← rd c (f + 1); if ch2 =? 108 then Some (4, f + 2) else Some (3, f + 1)
  else if (ch =? 106) || (ch =? 122) || (ch =? 116) || (ch =? 76) then Some (5, f + 1)
  else Some (0, f).

(** Behind the percent sign; no conversion at the end of the format. *)
Definition read_spec (fuel : nat) (c : exec_ctx) (f : Z) : option (option scan_spec * Z) :=
  ch ← rd c f;
  let '(suppress, f1) := if ch =? 42 then (true, f + 1) else (false, f) in
  ch1 ← rd c f1;
  '(width, f2) ← (if is_digit ch1 then '(w, f2) ← read_width fuel c f1 0; Some (Some w, f2) else Some (None, f1));
  '(len, f3) ← read_length c f2;
  conv ← rd c f3;
  if conv =? 0 then Some (None, f3) else Some (Some (ScanSpec suppress width len conv), f3 + 1).

(** [width > 0] bounds the characters of a conversion. *)
Definition width_cap (w : option Z) : option Z := match w with Some n => if 0 <? n then Some n else None | None => None end.
Definition below_cap (k : Z) (cap : option Z) : bool := match cap with Some n => k <? n | None => true end.

(** * Numbers *)

Definition SCRATCH_CAP : Z := 63.
Definition conv_base (conv : Z) : Z :=
  if conv =? 105 then 0 else if conv =? 111 then 8
  else if (conv =? 120) || (conv =? 88) || (conv =? 112) then 16 else 10.
Definition conv_signed (conv : Z) : bool := (conv =? 100) || (conv =? 105).
Definition is_hex (ch : Z) : bool := is_digit ch || ((97 <=? ch) && (ch <=? 102)) || ((65 <=? ch) && (ch <=? 70)).
Definition digit_ok (base ch : Z) : bool :=
  (((base =? 10) || (base =? 0)) && is_digit ch) || (((base =? 16) || (base =? 0)) && is_hex ch) ||
  (((base =? 8) || (base =? 0)) && ((48 <=? ch) && (ch <=? 55))).

(** [while (got < cap && *in) { ... scratch[got++] = *in++; }] *)
Fixpoint collect_digits (fuel : nat) (ok : Z -> bool) (cap : Z) (src : source) (c : exec_ctx) (i : Z) (scratch : bytes) : option (bytes * Z) :=
  match fuel with
  | O => None
  | S f =>
      if cap <=? blen scratch then Some (scratch, i)
      else ch ← rd_in src c i; if negb (ch =? 0) && ok ch then collect_digits f ok cap src c (i + 1) (scratch ++ [ch]) else Some (scratch, i)
  end.

Definition collect_sign (cap : Z) (src : source) (c : exec_ctx) (i : Z) : option (bytes * Z) :=
  if cap <=? 0 then Some ([], i)
  else ch ← rd_in src c i; Some (if (ch =? 43) || (ch =? 45) then ([ch], i + 1) else ([], i)).
Definition collect_prefix (base cap : Z) (src : source) (c : exec_ctx) (i : Z) (scratch : bytes) : option (bytes * Z) :=
  if (base =? 16) && (blen scratch + 1 <? cap) then
    ch ← rd_in src c i;
    if ch =? 48 then ch2 ← rd_in src c (i + 1); Some (if (ch2 =? 120) || (ch2 =? 88) then (scratch ++ [ch; ch2], i + 2) else (scratch, i))
    else Some (scratch, i)
  else Some (scratch, i).

Definition scratch_number (fuel : nat) (sp : scan_spec) (src : source) (c : exec_ctx) (i : Z) : option (bytes * Z) :=
  let base := conv_base (ss_conv sp) in
  let cap := match width_cap (ss_width sp) with Some n => if n <? SCRATCH_CAP then n else SCRATCH_CAP | None => SCRATCH_CAP end in
  '(s1, i1) ← collect_sign cap src c i;
  '(s2, i2) ← collect_prefix base cap src c i1 s1;
  collect_digits fuel (digit_ok base) cap src c i2 s2.

(** How many bytes a length modifier stores. *)
Definition store_size (len : Z) : Z := if len =? 2 then 1 else if len =? 1 then 2 else if (len =? 4) || (len =? 5) then 8 else 4.

Definition scan_number (fuel : nat) (sp : scan_spec) (src : source) (s0 : scan_state) : option scan_outcome :=
  i ← skip_ws fuel src (sc_exec s0) (sc_in s0);
  let s := set_sc_in i s0 in
  ch ← rd_in src (sc_exec s) i;
  if ch =? 0 then Some (at_eof s)
  else
    '(scratch, i') ← scratch_number fuel sp src (sc_exec s) i;
    let s' := set_sc_in i' s in
    let '(v, _, stop) := (if conv_signed (ss_conv sp) then strtoll else strtoull) (conv_base (ss_conv sp)) scratch in
    if (blen scratch =? 0) || bool_decide (stop = Some 0) then Some (Stop s' false)
    else
      let '(p, s1) := next_ptr (ss_suppress sp) s' in
      Some (Go (matched (ss_suppress sp) (if ss_suppress sp then s1 else put_sized (store_size (ss_length sp)) p v s1))).

(** * Strings *)

(** The copying loop of %s and of %[. *)
Fixpoint copy_while (fuel : nat) (ok : Z -> bool) (cap : option Z) (src : source) (p k : Z) (s : scan_state) : option (Z * scan_state) :=
  match fuel with
  | O => None
  | S f =>
      ch ← rd_in src (sc_exec s) (sc_in s);
      if negb (ch =? 0) && ok ch && below_cap k cap then
        copy_while f ok cap src p (k + 1) (set_sc_in (sc_in s + 1) (put_char p k ch s))
      else Some (k, s)
  end.

Definition scan_string (fuel : nat) (sp : scan_spec) (src : source) (s0 : scan_state) : option scan_outcome :=
  i ← skip_ws fuel src (sc_exec s0) (sc_in s0);
  let s := set_sc_in i s0 in
  ch ← rd_in src (sc_exec s) i;
  if ch =? 0 then Some (at_eof s)
  else
    let '(p, s1) := next_ptr (ss_suppress sp) s in
    '(k, s2) ← copy_while fuel (fun ch => negb (isspace ch)) (width_cap (ss_width sp)) src p 0 s1;
    Some (Go (matched (ss_suppress sp) (put_char p k 0 s2))).

(** Exactly so many characters, fewer at the end of the input; no terminator. *)
Fixpoint copy_chars (n : nat) (src : source) (p k : Z) (s : scan_state) : option scan_state :=
  match n with
  | O => Some s
  | S n' =>
      ch ← rd_in src (sc_exec s) (sc_in s);
      if ch =? 0 then Some s else copy_chars n' src p (k + 1) (set_sc_in (sc_in s + 1) (put_char p k ch s))
  end.

Definition scan_chars (sp : scan_spec) (src : source) (s : scan_state) : option scan_outcome :=
  ch ← rd_in src (sc_exec s) (sc_in s);
  if ch =? 0 then Some (at_eof s)
  else
    let '(p, s1) := next_ptr (ss_suppress sp) s in
    s2 ← copy_chars (Z.to_nat (default 1 (width_cap (ss_width sp)))) src p 0 s1;
    Some (Go (matched (ss_suppress sp) s2)).

(** A scanset: intervals of characters. *)
Definition in_scanset (set : list (Z * Z)) (ch : Z) : bool := existsb (fun '(a, b) => (a <=? ch) && (ch <=? b)) set.

Fixpoint read_set (fuel : nat) (c : exec_ctx) (f : Z) (set : list (Z * Z)) : option (list (Z * Z) * Z) :=
  match fuel with
  | O => None
  | S k =>
      ch ← rd c f;
      if ch =? 0 then Some (set, f)
      else if ch =? 93 then Some (set, f + 1)
      else
        ch1 ← rd c (f + 1);
        if ch1 =? 45 then
          ch2 ← rd c (f + 2);
          if negb (ch2 =? 0) && negb (ch2 =? 93) then read_set k c (f + 3) (set ++ [(Z.min ch ch2, Z.max ch ch2)])
          else read_set k c (f + 1) (set ++ [(ch, ch)])
        else read_set k c (f + 1) (set ++ [(ch, ch)])
  end.

Definition scan_set (fuel : nat) (sp : scan_spec) (src : source) (f : Z) (s : scan_state) : option (scan_outcome * Z) :=
  ch ← rd (sc_exec s) f;
  let '(negate, f1) := if ch =? 94 then (true, f + 1) else (false, f) in
  ch1 ← rd (sc_exec s) f1;
  let '(set0, f2) := if ch1 =? 93 then ([(93, 93)], f1 + 1) else ([], f1) in
  '(set, f3) ← read_set fuel (sc_exec s) f2 set0;
  chi ← rd_in src (sc_exec s) (sc_in s);
  if chi =? 0 then Some (at_eof s, f3)
  else
    let '(p, s1) := next_ptr (ss_suppress sp) s in
    '(k, s2) ← copy_while fuel (fun ch => xorb negate (in_scanset set ch)) (width_cap (ss_width sp)) src p 0 s1;
    if k =? 0 then Some (Stop s2 false, f3) else Some (Go (matched (ss_suppress sp) (put_char p k 0 s2)), f3).

Section Scan.

(** The bits of the double and of the float, and the characters read. *)
Variable strtod : bytes -> Z * Z * Z.

Definition scan_float (fuel : nat) (sp : scan_spec) (src : source) (s0 : scan_state) : option scan_outcome :=
  i ← skip_ws fuel src (sc_exec s0) (sc_in s0);
  let s := set_sc_in i s0 in
  ch ← rd_in src (sc_exec s) i;
  if ch =? 0 then Some (at_eof s)
  else
    text ← in_str src (sc_exec s) i;
    let '(d, fl, n) := strtod text in
    if n =? 0 then Some (Stop s false)
    else
      let '(p, s1) := next_ptr (ss_suppress sp) s in
      let s2 := if ss_suppress sp then s1
                else if 3 <=? ss_length sp then put_sized 8 p d s1 else put_sized 4 p fl s1 in
      Some (Go (set_sc_in (i + n) (matched (ss_suppress sp) s2))).

Definition is_numeric (conv : Z) : bool :=
  (conv =? 100) || (conv =? 105) || (conv =? 117) || (conv =? 111) || (conv =? 120) || (conv =? 88) || (conv =? 112).
Definition is_float (conv : Z) : bool :=
  (conv =? 102) || (conv =? 101) || (conv =? 103) || (conv =? 97) || (conv =? 69) || (conv =? 71) || (conv =? 65).

Definition scan_one (fuel : nat) (sp : scan_spec) (src : source) (f : Z) (s : scan_state) : option (scan_outcome * Z) :=
  let conv := ss_conv sp in
  if conv =? 37 then
    ch ← rd_in src (sc_exec s) (sc_in s);
    Some (if ch =? 37 then Go (set_sc_in (sc_in s + 1) s) else Stop s false, f)
  else if conv =? 110 then
    let '(p, s1) := next_ptr (ss_suppress sp) s in
    Some (Go (if (p =? 0) || (memory_size (sc_exec s1) <? p + 4) then s1 else mem_update (fun m => st32 m p (sc_in s)) s1), f)
  else if is_numeric conv then r ← scan_number fuel sp src s; Some (r, f)
  else if conv =? 115 then r ← scan_string fuel sp src s; Some (r, f)
  else if conv =? 99 then r ← scan_chars sp src s; Some (r, f)
  else if conv =? 91 then scan_set fuel sp src f s
  else if is_float conv then r ← scan_float fuel sp src s; Some (r, f)
  else Some (Stop s false, f).

(** The walk; [fl] is the fuel of the inner loops. *)
Fixpoint scan_loop (fuel fl : nat) (src : source) (f : Z) (s : scan_state) : option (scan_state * bool) :=
  match fuel with
  | O => None
  | S k =>
      fch ← rd (sc_exec s) f;
      if fch =? 0 then Some (s, false)
      else if isspace fch then i ← skip_ws fl src (sc_exec s) (sc_in s); scan_loop k fl src (f + 1) (set_sc_in i s)
      else if negb (fch =? 37) then
        ch ← rd_in src (sc_exec s) (sc_in s);
        if ch =? 0 then Some (s, true)
        else if negb (ch =? fch) then Some (s, false)
        else scan_loop k fl src (f + 1) (set_sc_in (sc_in s + 1) s)
      else
        '(sp, f1) ← read_spec fl (sc_exec s) (f + 1);
        match sp with
        | None => Some (s, false)
        | Some sp =>
            '(r, f2) ← scan_one fl sp src f1 s;
            match r with Go s' => scan_loop k fl src f2 s' | Stop s' eof => Some (s', eof) end
        end
  end.

Definition do_scan (c : exec_ctx) (src : source) (fmt va_off : Z) : option (Z * exec_ctx) :=
  let fl := scan_fuel src c in
  '(s, eof) ← scan_loop fl fl src fmt (ScanState c 0 va_off 0);
  Some (if (sc_matches s =? 0) && eof then -1 else sc_matches s, sc_exec s).

Definition yos_sscanf (c : exec_ctx) (src_off fmt_off va_off : Z) : option (Z * exec_ctx) :=
  match wstr_check c src_off, wstr_check c fmt_off with
  | Some _, Some _ => do_scan c (Src_guest src_off) fmt_off va_off
  | _, _ => Some (-1, c)
  end.

(** What the host's [fgets] reads, at most 4095 bytes, from the stream behind a
    handle and from stdin; [None] for an unknown handle or the end of the file. *)
Variable line : Z -> option bytes.
Variable stdin_line : option bytes.

Definition scan_line (c : exec_ctx) (buf : option bytes) (fmt_off va_off : Z) : option (Z * exec_ctx) :=
  match wstr_check c fmt_off, buf with
  | Some _, Some buf => do_scan c (Src_host (c_str buf)) fmt_off va_off
  | _, _ => Some (-1, c)
  end.
Definition yos_fscanf (c : exec_ctx) (fp fmt_off va_off : Z) : option (Z * exec_ctx) := scan_line c (line fp) fmt_off va_off.
Definition yos_scanf (c : exec_ctx) (fmt_off va_off : Z) : option (Z * exec_ctx) := scan_line c stdin_line fmt_off va_off.
End Scan.
