(* ===== verification/ScanfProps.v ===== *)
(** Scanning: every store stays in linear memory, the decimal prints of a list of
    ints are read back, and a bounded string conversion stays within its bound. *)
From Stdlib Require Import Strings.String.
From S2P Require Import Prelude Memory Ctx CString Printf PrintfText Strto Decimal StrtoProps Scanf.

(** * Stores stay inside *)

(** Same context, same memory outside its bounds. *)
Record inside (c c' : exec_ctx) : Prop := {
  is_mem : forall a, a < 0 \/ memory_size c <= a -> ld8 (mem c') a = ld8 (mem c) a;
  is_rest : c' = set_mem (mem c') c
}.

#[export] Instance inside_refl : Reflexive inside.
Proof. intros c. split; [done|by destruct c]. Qed.
#[export] Instance inside_trans : Transitive inside.
Proof.
  intros c1 c2 c3 [H1 R1] [H2 R2]. assert (Hs : memory_size c2 = memory_size c1) by (rewrite R1; done). split.
  - intros a Ha. rewrite H2, H1; [done|done|by rewrite Hs].
  - rewrite R2, R1. done.
Qed.

Create HintDb scan.
#[export] Hint Resolve inside_refl : scan.

Lemma inside_update f s :
  (forall a, a < 0 \/ memory_size (sc_exec s) <= a -> ld8 (f (mem (sc_exec s))) a = ld8 (mem (sc_exec s)) a) ->
  inside (sc_exec s) (sc_exec (mem_update f s)).
Proof. intros H. by split. Qed.

(** A store of [n] bytes. *)
Definition spans (n : Z) (w : memory -> memory) (p : Z) : Prop := forall m a, a < p \/ p + n <= a -> ld8 (w m) a = ld8 m a.

Lemma spans_st8 p v : spans 1 (fun m => st8 m p v) p.
Proof. intros m a Ha. rewrite ld8_st8. by rewrite (proj2 (Z.eqb_neq a p)) by lia. Qed.
Lemma spans_st16 p v : spans 2 (fun m => st16 m p v) p.
Proof. intros m a Ha. unfold st16. rewrite !ld8_st8. by rewrite (proj2 (Z.eqb_neq a p)), (proj2 (Z.eqb_neq a (p + 1))) by lia. Qed.
Lemma spans_st32 p v : spans 4 (fun m => st32 m p v) p.
Proof. intros m a Ha. apply (st32_frame m p v a (a + 1)); lia. Qed.
Lemma spans_st64 p v : spans 8 (fun m => st64 m p v) p.
Proof.
  intros m a Ha. unfold st64. transitivity (ld8 (st32 m p v) a); [apply (st32_frame _ (p + 4) _ a (a + 1)); lia|].
  apply (st32_frame m p v a (a + 1)); lia.
Qed.

Lemma put_sized_inside n p v s : 0 <= p -> n = 1 \/ n = 2 \/ n = 4 \/ n = 8 -> inside (sc_exec s) (sc_exec (put_sized n p v s)).
Proof.
  intros Hp Hn. unfold put_sized. destruct (Z.eqb_spec p 0); [reflexivity|]. destruct (Z.leb_spec (memory_size (sc_exec s)) p); [reflexivity|].
  destruct (Z.ltb_spec (memory_size (sc_exec s)) (p + n)); [reflexivity|]. cbn [orb]. apply inside_update. intros a Ha.
  destruct Hn as [->|[->|[-> | ->]]]; cbn [Z.eqb Pos.eqb];
    [apply spans_st8|apply spans_st16|apply spans_st32|apply spans_st64]; lia.
Qed.

Lemma put_char_inside p k ch s : 0 <= p -> 0 <= k -> inside (sc_exec s) (sc_exec (put_char p k ch s)).
Proof.
  intros Hp Hk. unfold put_char. destruct (Z.eqb_spec p 0); [reflexivity|].
  destruct (Z.ltb_spec (memory_size (sc_exec s)) (p + k + 1)); [reflexivity|]. cbn [orb]. apply inside_update. intros a Ha. apply spans_st8. lia.
Qed.

Lemma va_p_nonneg c off : 0 <= (va_p c off).1.
Proof. unfold va_p, va_i32. destruct (_ <? _); [done|]. apply ld32_range. Qed.

Lemma next_ptr_exec b s : sc_exec (next_ptr b s).2 = sc_exec s /\ 0 <= (next_ptr b s).1.
Proof.
  unfold next_ptr. destruct b; [done|]. pose proof (va_p_nonneg (sc_exec s) (sc_va s)). by destruct (va_p _ _).
Qed.

Lemma matched_exec b s : sc_exec (matched b s) = sc_exec s.
Proof. by destruct b. Qed.

Lemma store_size_cases len : store_size len = 1 \/ store_size len = 2 \/ store_size len = 4 \/ store_size len = 8.
Proof. unfold store_size. destruct (len =? 2), (len =? 1), (len =? 4), (len =? 5); cbn; tauto. Qed.

(** One monadic bind of a definition under inspection. *)
Ltac bind_case := match goal with
  | |- context [mbind ?f ?o] => let E := fresh "E" in destruct o eqn:E; cbn [mbind option_bind]; [|done]
  end.

Lemma copy_while_inside fuel ok cap src p k s k' s' :
  0 <= p -> 0 <= k -> copy_while fuel ok cap src p k s = Some (k', s') -> inside (sc_exec s) (sc_exec s') /\ 0 <= k'.
Proof.
  intros Hp. revert k s. induction fuel as [|f IH]; intros k s Hk; cbn [copy_while]; [done|]. bind_case.
  destruct (_ && _); [|intros [= <- <-]; by split]. intros H. apply IH in H as [H Hk']; [|lia]. split; [|done].
  etrans; [|exact H]. apply (put_char_inside p k _ s); lia.
Qed.

Lemma copy_chars_inside n src p k s s' :
  0 <= p -> 0 <= k -> copy_chars n src p k s = Some s' -> inside (sc_exec s) (sc_exec s').
Proof.
  intros Hp. revert k s. induction n as [|n IH]; intros k s Hk; cbn [copy_chars]; [by intros [= <-]|]. bind_case.
  destruct (_ =? 0); [by intros [= <-]|]. intros H. apply IH in H; [|lia]. etrans; [|exact H]. apply (put_char_inside p k _ s); lia.
Qed.

Definition state_of (r : scan_outcome) : scan_state := match r with Go s | Stop s _ => s end.

Lemma scan_number_inside fuel sp src s r : scan_number fuel sp src s = Some r -> inside (sc_exec s) (sc_exec (state_of r)).
Proof.
  unfold scan_number. do 2 bind_case. destruct (_ =? 0); [by intros [= <-]|]. bind_case. destruct p as [scratch i'].
  destruct ((if conv_signed _ then _ else _) _ _) as [[v e] stop]. destruct (_ || _); [by intros [= <-]|].
  match goal with |- context [next_ptr ?b ?x] => destruct (next_ptr_exec b x) as [H1 H2]; destruct (next_ptr b x) as [p s1] end.
  cbn [fst snd] in *. intros [= <-]. cbn [state_of]. rewrite matched_exec. change (sc_exec s) with (sc_exec (set_sc_in i' (set_sc_in z s))).
  rewrite <-H1. destruct (ss_suppress sp); [reflexivity|]. apply put_sized_inside; [done|apply store_size_cases].
Qed.

Lemma scan_string_inside fuel sp src s r : scan_string fuel sp src s = Some r -> inside (sc_exec s) (sc_exec (state_of r)).
Proof.
  unfold scan_string. do 2 bind_case. destruct (_ =? 0); [by intros [= <-]|].
  match goal with |- context [next_ptr ?b ?x] => destruct (next_ptr_exec b x) as [H1 H2]; destruct (next_ptr b x) as [p s1] end.
  cbn [fst snd] in *. bind_case. destruct p0 as [k s2]. intros [= <-]. cbn [state_of]. rewrite matched_exec.
  apply copy_while_inside in E1 as [H3 Hk]; [|done|done]. change (sc_exec s) with (sc_exec (set_sc_in z s)). rewrite <-H1.
  etrans; [exact H3|]. by apply put_char_inside.
Qed.

Lemma scan_chars_inside sp src s r : scan_chars sp src s = Some r -> inside (sc_exec s) (sc_exec (state_of r)).
Proof.
  unfold scan_chars. bind_case. destruct (_ =? 0); [by intros [= <-]|].
  match goal with |- context [next_ptr ?b ?x] => destruct (next_ptr_exec b x) as [H1 H2]; destruct (next_ptr b x) as [p s1] end.
  cbn [fst snd] in *. bind_case. intros [= <-]. cbn [state_of]. rewrite matched_exec, <-H1. by apply copy_chars_inside in E0.
Qed.

Lemma scan_set_inside fuel sp src f s r f' : scan_set fuel sp src f s = Some (r, f') -> inside (sc_exec s) (sc_exec (state_of r)).
Proof.
  unfold scan_set. bind_case. destruct (if z =? 94 then _ else _) as [neg f1]. bind_case. destruct (if z0 =? 93 then _ else _) as [set0 f2].
  bind_case. destruct p as [set f3]. bind_case. destruct (_ =? 0); [by intros [= <- <-]|].
  match goal with |- context [next_ptr ?b ?x] => destruct (next_ptr_exec b x) as [H1 H2]; destruct (next_ptr b x) as [p s1] end.
  cbn [fst snd] in *. bind_case. destruct p0 as [k s2]. apply copy_while_inside in E3 as [H3 Hk]; [|done|done]. rewrite H1 in H3.
  destruct (k =? 0); intros [= <- <-]; cbn [state_of]; [done|]. rewrite matched_exec. etrans; [exact H3|]. by apply put_char_inside.
Qed.

Section Safety.
Variable strtod : bytes -> Z * Z * Z.

Lemma scan_float_inside fuel sp src s r : scan_float strtod fuel sp src s = Some r -> inside (sc_exec s) (sc_exec (state_of r)).
Proof.
  unfold scan_float. do 2 bind_case. destruct (_ =? 0); [by intros [= <-]|]. bind_case. destruct (strtod b) as [[d fl] n].
  destruct (n =? 0); [by intros [= <-]|].
  match goal with |- context [next_ptr ?b ?x] => destruct (next_ptr_exec b x) as [H1 H2]; destruct (next_ptr b x) as [p s1] end.
  cbn [fst snd] in *. intros [= <-]. cbn [state_of sc_exec set_sc_in]. rewrite matched_exec. change (sc_exec s) with (sc_exec (set_sc_in z s)).
  rewrite <-H1. destruct (ss_suppress sp); [reflexivity|]. destruct (3 <=? _); apply put_sized_inside; tauto.
Qed.

Lemma scan_one_inside fuel sp src f s r f' : scan_one strtod fuel sp src f s = Some (r, f') -> inside (sc_exec s) (sc_exec (state_of r)).
Proof.
  unfold scan_one. destruct (ss_conv sp =? 37); [bind_case; intros [= <- <-]; by destruct (_ =? 37)|].
  destruct (ss_conv sp =? 110).
  - destruct (next_ptr_exec (ss_suppress sp) s) as [H1 H2]. destruct (next_ptr _ s) as [p s1]. cbn [fst snd] in *. intros [= <- <-]. rewrite <-H1.
    destruct (Z.eqb_spec p 0); [reflexivity|]. destruct (Z.ltb_spec (memory_size (sc_exec s1)) (p + 4)); [reflexivity|]. cbn [orb state_of].
    apply inside_update. intros a Ha. apply spans_st32. lia.
  - destruct (is_numeric _); [bind_case; intros [= <- <-]; by eapply scan_number_inside|].
    destruct (ss_conv sp =? 115); [bind_case; intros [= <- <-]; by eapply scan_string_inside|].
    destruct (ss_conv sp =? 99); [bind_case; intros [= <- <-]; by eapply scan_chars_inside|].
    destruct (ss_conv sp =? 91); [by apply scan_set_inside|].
    destruct (is_float _); [bind_case; intros [= <- <-]; by eapply scan_float_inside|]. by intros [= <- <-].
Qed.

Lemma scan_loop_inside fuel fl src f s s' e : scan_loop strtod fuel fl src f s = Some (s', e) -> inside (sc_exec s) (sc_exec s').
Proof.
  revert f s. induction fuel as [|k IH]; intros f s; cbn [scan_loop]; [done|]. bind_case.
  destruct (z =? 0); [by intros [= <- _]|]. destruct (isspace z); [bind_case; intros H; by apply IH in H|].
  destruct (negb _).
  - bind_case. destruct (_ =? 0); [by intros [= <- _]|]. destruct (negb _); [by intros [= <- _]|]. intros H. by apply IH in H.
  - bind_case. destruct p as [sp f1]. destruct sp as [sp|]; [|by intros [= <- _]]. bind_case. destruct p as [r f2].
    apply scan_one_inside in E1. destruct r as [s1|s1 e1]; cbn [state_of] in E1; [|by intros [= <- _]].
    intros H. apply IH in H. by etrans.
Qed.

(** Whatever the format, the input and the pointers, sscanf changes no byte
    outside linear memory and nothing of the process but its memory; its result
    is -1 or a count. *)
Theorem sscanf_writes_inside c src_off fmt_off va_off r c' :
  yos_sscanf strtod c src_off fmt_off va_off = Some (r, c') ->
  (forall a, a < 0 \/ memory_size c <= a -> ld8 (mem c') a = ld8 (mem c) a) /\ c' = set_mem (mem c') c.
Proof.
  unfold yos_sscanf. destruct (wstr_check c src_off); [|intros [= _ <-]; by split; [|destruct c]].
  destruct (wstr_check c fmt_off); [|intros [= _ <-]; by split; [|destruct c]].
  unfold do_scan. bind_case. destruct p as [s e]. intros [= _ <-]. apply scan_loop_inside in E as [H1 H2]. by split.
Qed.
End Safety.

(** * Reading numbers *)

(** The input holds [s] from position [i] on. *)
Definition in_reads (src : source) (c : exec_ctx) (i : Z) (s : list Z) : Prop :=
  forall k ch, s !! k = Some ch -> rd_in src c (i + Z.of_nat k) = Some ch.

Lemma in_reads_head src c i ch s : in_reads src c i (ch :: s) -> rd_in src c i = Some ch.
Proof. intros H. specialize (H 0%nat ch eq_refl). by rewrite Z.add_0_r in H. Qed.

Lemma in_reads_app src c i s t : in_reads src c i (s ++ t) -> in_reads src c (i + blen s) t.
Proof.
  intros H k ch Hk. unfold blen. rewrite <-Z.add_assoc, <-Nat2Z.inj_add. apply H. rewrite lookup_app_r by lia.
  by replace (length s + k - length s)%nat with k by lia.
Qed.

Lemma in_reads_tail src c i ch s : in_reads src c i (ch :: s) -> in_reads src c (i + 1) s.
Proof. exact (in_reads_app src c i [ch] s). Qed.

Lemma isspace_nz ch : isspace ch = true -> (ch =? 0) = false.
Proof. by destruct (Z.eqb_spec ch 0) as [->|]. Qed.

Lemma skip_ws_spec fuel src c i sp x t :
  in_reads src c i (sp ++ x :: t) -> Forall (fun ch => isspace ch = true) sp -> isspace x = false -> (length sp < fuel)%nat ->
  skip_ws fuel src c i = Some (i + blen sp).
Proof.
  intros Hr Hs Hx. revert i fuel Hr. induction Hs as [|ch sp Hch Hs IH]; intros i [|f] Hr Hf; cbn [length] in Hf; try lia; cbn [skip_ws].
  - rewrite (in_reads_head _ _ _ _ _ Hr). cbn [mbind option_bind]. rewrite Hx, andb_false_r. by rewrite Z.add_0_r.
  - rewrite (in_reads_head _ _ _ _ _ Hr). cbn [mbind option_bind]. rewrite Hch, isspace_nz by done. cbn [negb andb].
    rewrite (IH (i + 1) f); [|by apply in_reads_tail in Hr|lia]. rewrite blen_cons. f_equal. lia.
Qed.

Lemma collect_digits_spec fuel ok cap src c i scratch ds x t :
  in_reads src c i (ds ++ x :: t) -> Forall (fun ch => (ch =? 0) = false /\ ok ch = true) ds -> (x =? 0) = true \/ ok x = false ->
  blen scratch + blen ds <= cap -> (length ds < fuel)%nat ->
  collect_digits fuel ok cap src c i scratch = Some (scratch ++ ds, i + blen ds).
Proof.
  intros Hr Hs Hx. revert i fuel scratch Hr. induction Hs as [|ch ds [Hz Hch] Hs IH]; intros i [|f] scratch Hr Hl Hf;
    cbn [length] in Hf; try lia; cbn [collect_digits].
  - rewrite app_nil_r, (in_reads_head _ _ _ _ _ Hr), Z.add_0_r. cbn [mbind option_bind].
    destruct (cap <=? blen scratch); [done|]. by destruct Hx as [-> | ->]; rewrite ?andb_false_r.
  - rewrite blen_cons in *. pose proof (blen_nonneg ds). rewrite (proj2 (Z.leb_gt cap (blen scratch))) by lia.
    rewrite (in_reads_head _ _ _ _ _ Hr). cbn [mbind option_bind]. rewrite Hz, Hch. cbn [negb andb].
    rewrite (IH (i + 1) f (scratch ++ [ch])); [|by apply in_reads_tail in Hr|rewrite blen_app; change (blen [ch]) with 1; lia|lia].
    rewrite <-app_assoc. cbn [app]. do 2 f_equal. lia.
Qed.

(** ** The conversion %d *)

Definition int_spec : scan_spec := ScanSpec false None 0 100.

Lemma va_align_aligned va : 0 <= va -> va mod 4 = 0 -> va + 3 < 4294967296 -> va_align va 4 = va.
Proof.
  intros H0 Hm Hb. unfold va_align. rewrite u32_small by lia. replace (va + 4 - 1) with (va + 3) by lia.
  change (u32 (Z.lnot (4 - 1))) with (Z.ldiff (Z.ones 32) (Z.ones 2)).
  replace (Z.land (va + 3) (Z.ldiff (Z.ones 32) (Z.ones 2))) with (Z.ldiff (Z.land (va + 3) (Z.ones 32)) (Z.ones 2)).
  - rewrite Z.land_ones, Z.mod_small by (change (2 ^ 32) with 4294967296; lia).
    rewrite Z.ldiff_ones_r, Z.shiftr_div_pow2, Z.shiftl_mul_pow2 by lia. change (2 ^ 2) with 4. mlia.
  - rewrite !Z.ldiff_land. by rewrite Z.land_assoc.
Qed.

Definition ptrs_at (c : exec_ctx) (va : Z) (ps : list Z) : Prop :=
  forall i p, ps !! i = Some p -> ld32 (mem c) (va + 4 * Z.of_nat i) = p /\ va + 4 * Z.of_nat i + 4 <= memory_size c.

Lemma va_p_head c va p ps :
  memory_size c < 4294967296 -> 0 <= va -> va mod 4 = 0 -> ptrs_at c va (p :: ps) -> va_p c va = (p, va + 4).
Proof.
  intros Hs H0 Hm Hp. destruct (Hp 0%nat p eq_refl) as [H1 H2]. unfold va_p, va_i32. rewrite Z.mul_0_r, Z.add_0_r in *.
  rewrite va_align_aligned by lia. rewrite (proj2 (Z.ltb_ge _ _)), u32_small by lia. by rewrite H1.
Qed.

Lemma ptrs_tail c va p ps : ptrs_at c va (p :: ps) -> ptrs_at c (va + 4) ps.
Proof. intros H i q Hq. specialize (H (S i) q Hq). replace (va + 4 + 4 * Z.of_nat i) with (va + 4 * Z.of_nat (S i)) by lia. exact H. Qed.

Lemma digit_cases ch : is_digit ch = true <-> 48 <= ch <= 57.
Proof. unfold is_digit. rewrite andb_true_iff, !Z.leb_le. done. Qed.

Lemma read_spec_d fl c f t : reads c f (100 :: t) -> read_spec fl c f = Some (Some int_spec, f + 1).
Proof. intros H. apply reads_head in H. unfold read_spec, read_length. by repeat (rewrite H; cbn). Qed.

Section Int.
Variables (fuel : nat) (src : source) (c : exec_ctx).

Lemma scratch_int i x y t :
  in_reads src c i (decimal x ++ y :: t) -> is_digit y = false -> - 10 ^ 20 < x < 10 ^ 20 -> (20 < fuel)%nat ->
  scratch_number fuel int_spec src c i = Some (decimal x, i + blen (decimal x)).
Proof using.
  intros Hr Hy Hx Hf. destruct (decimal_shape x Hx) as (neg & sg & ds & E & Hs & Hne & Hd & Hl & _). rewrite E in *. rewrite <-app_assoc in Hr.
  unfold scratch_number, collect_sign, collect_prefix. cbn [width_cap ss_width int_spec]. change (SCRATCH_CAP <=? 0) with false. cbv iota.
  change (conv_base (ss_conv int_spec) =? 16) with false. cbn [andb].
  assert (Hsign : (ch ← rd_in src c i; Some (if (ch =? 43) || (ch =? 45) then ([ch], i + 1) else ([], i))) = Some (sg, i + blen sg)).
  { destruct neg; subst sg.
    - by rewrite (in_reads_head _ _ _ _ _ Hr).
    - destruct ds as [|d ds]; [done|]. rewrite (in_reads_head _ _ _ _ _ Hr). cbn [mbind option_bind]. apply Forall_cons in Hd as [Hd _].
      rewrite (proj2 (Z.eqb_neq d 43)), (proj2 (Z.eqb_neq d 45)) by lia. by rewrite Z.add_0_r. }
  rewrite Hsign. cbn [mbind option_bind]. change (conv_base (ss_conv int_spec)) with 10.
  rewrite (collect_digits_spec fuel (digit_ok 10) SCRATCH_CAP src c (i + blen sg) sg ds y t).
  - rewrite blen_app. do 2 f_equal. lia.
  - by apply in_reads_app.
  - eapply Forall_impl; [exact Hd|]. intros ch Hch. cbn beta in *. rewrite (proj2 (Z.eqb_neq ch 0)) by lia.
    unfold digit_ok. by rewrite (proj2 (digit_cases ch)) by lia.
  - right. unfold digit_ok. by rewrite Hy.
  - unfold SCRATCH_CAP. assert (blen sg <= 1) by (destruct neg; subst sg; unfold blen; cbn [length]; lia). lia.
  - unfold blen in Hl. lia.
Qed.

Lemma scan_number_int s sp x y t p va' :
  sc_exec s = c -> in_reads src c (sc_in s) (sp ++ decimal x ++ y :: t) -> Forall (fun ch => isspace ch = true) sp -> is_digit y = false ->
  LLONG_MIN <= x <= LLONG_MAX -> va_p c (sc_va s) = (p, va') -> 0 < p -> p + 4 <= memory_size c -> (20 < fuel)%nat -> (length sp < fuel)%nat ->
  scan_number fuel int_spec src s =
    Some (Go (ScanState (set_mem (st32 (mem c) p x) c) (sc_in s + blen sp + blen (decimal x)) va' (sc_matches s + 1))).
Proof using.
  intros Hc Hr Hsp Hy Hx Hva Hp0 Hp Hf1 Hf2. unfold LLONG_MIN, LLONG_MAX in Hx.
  destruct (decimal_shape x ltac:(lia)) as (neg & sg & ds & E & Hs & Hne & Hd & Hl & Hv).
  assert (Hn0 : exists ch u, decimal x = ch :: u /\ isspace ch = false /\ (ch =? 0) = false).
  { rewrite E. destruct neg; subst sg; [by exists 45, ds|]. destruct ds as [|d ds]; [done|]. apply Forall_cons in Hd as [Hd _]. exists d, ds.
    destruct (digit_not_space d) as [H1 _]; [|split_and!; [done|done|apply Z.eqb_neq; lia]].
    replace d with (48 + (d - 48)) by lia. rewrite digit_of_dec; lia. }
  destruct Hn0 as (ch & u & Eu & Hsc & Hz). unfold scan_number. rewrite Hc.
  assert (Hr' : in_reads src c (sc_in s) (sp ++ ch :: (u ++ y :: t))) by (by rewrite Eu in Hr).
  rewrite (skip_ws_spec fuel src c (sc_in s) sp ch (u ++ y :: t)) by done. cbn [mbind option_bind].
  change (sc_exec (set_sc_in _ s)) with (sc_exec s). rewrite Hc. apply in_reads_app in Hr, Hr'.
  rewrite (in_reads_head _ _ _ _ _ Hr'). cbn [mbind option_bind]. rewrite Hz.
  rewrite (scratch_int (sc_in s + blen sp) x y t) by (done || lia). cbn [mbind option_bind].
  change (if conv_signed _ then strtoll else strtoull) with strtoll. change (conv_base _) with 10.
  pose proof (strto_numeral finish_signed 10 neg [] sg ds []) as Hst. cbn [app] in Hst. rewrite app_nil_r, <-E in Hst. unfold strtoll. rewrite Hst.
  2:{ split; try done; [destruct neg; [done|by left]|split; [done|by apply decimal_digits]]. }
  rewrite finish_signed_in, Hv by (rewrite Hv; unfold LLONG_MIN, LLONG_MAX; lia).
  assert (Hb : 0 < blen (decimal x)) by (rewrite Eu, blen_cons; pose proof (blen_nonneg u); lia).
  rewrite (proj2 (Z.eqb_neq (blen (decimal x)) 0)), bool_decide_eq_false_2.
  2:{ change (blen []) with 0. intros [= H]. rewrite E, blen_app in Hb. lia. }
  2:{ lia. }
  cbn [orb ss_suppress int_spec next_ptr sc_exec sc_va set_sc_in]. rewrite Hc, Hva.
  change (store_size _) with 4. unfold put_sized. cbn [sc_exec]. rewrite (proj2 (Z.eqb_neq p 0)), (proj2 (Z.leb_gt (memory_size c) p)), (proj2 (Z.ltb_ge (memory_size c) (p + 4))) by lia.
  reflexivity.
Qed.
End Int.

(** ** A list of ints *)

Definition int_texts (xs : list Z) : bytes := flat_map (fun x => 32 :: decimal x) xs.
Definition int_format (xs : list Z) : bytes := flat_map (fun _ => [37; 100]) xs.

(** Four bytes from [p] on, and the bytes from [lo] to [hi]. *)
Definition clear_of (p lo hi : Z) : Prop := p + 4 <= lo \/ hi <= p.

Section Stores.
Variables (c : exec_ctx) (p v : Z).

#[local] Abbreviation c' := (set_mem (st32 (mem c) p v) c).

Lemma reads_store f s : reads c f s -> clear_of p f (f + blen s) -> reads c' f s.
Proof using.
  intros H Hp i ch Hi. specialize (H i ch Hi). apply lookup_lt_Some in Hi. unfold rd in *. cbn [memory_size mem set_mem].
  destruct (_ && _); [|done]. rewrite <-H. f_equal. unfold clear_of, blen in Hp. apply (spans_st32 p v (mem c)). lia.
Qed.

Lemma in_reads_store off i s : in_reads (Src_guest off) c i s -> clear_of p (off + i) (off + i + blen s) -> in_reads (Src_guest off) c' i s.
Proof using.
  intros H Hp. assert (Hr : reads c (off + i) s).
  { intros k ch Hk. specialize (H k ch Hk). cbn [rd_in] in H. by replace (off + i + Z.of_nat k) with (off + (i + Z.of_nat k)) by lia. }
  intros k ch Hk. cbn [rd_in]. replace (off + (i + Z.of_nat k)) with (off + i + Z.of_nat k) by lia. by apply (reads_store (off + i) s).
Qed.

Lemma ptrs_store va ps : ptrs_at c va ps -> clear_of p va (va + 4 * Z.of_nat (length ps)) -> ptrs_at c' va ps.
Proof using.
  intros H Hp i q Hi. destruct (H i q Hi) as [H1 H2]. split; [|done]. rewrite <-H1. apply lookup_lt_Some in Hi.
  cbn [mem set_mem]. apply ld32_st32_ne. unfold clear_of in Hp. lia.
Qed.
End Stores.

(** The pointers of the call: each a slot of its own, away from the input, the
    format and the packed arguments. *)
Record slots_ok (size : Z) (src_lo src_hi fmt_lo fmt_hi va_lo va_hi : Z) (ps : list Z) : Prop := {
  sl_in : Forall (fun p => 0 < p /\ p + 4 <= size) ps;
  sl_src : Forall (fun p => clear_of p src_lo src_hi) ps;
  sl_fmt : Forall (fun p => clear_of p fmt_lo fmt_hi) ps;
  sl_va : Forall (fun p => clear_of p va_lo va_hi) ps;
  sl_disjoint : forall i j p q, i <> j -> ps !! i = Some p -> ps !! j = Some q -> p + 4 <= q \/ q + 4 <= p
}.

Lemma slots_tail size a b c d e f p ps a' c' e' :
  slots_ok size a b c d e f (p :: ps) -> a <= a' -> c <= c' -> e <= e' -> slots_ok size a' b c' d e' f ps.
Proof.
  intros [H1 H2 H3 H4 H5] Ha Hc He. apply Forall_cons in H1 as [_ H1], H2 as [_ H2], H3 as [_ H3], H4 as [_ H4].
  assert (Hw : forall lo lo' hi l, lo <= lo' -> Forall (fun q => clear_of q lo hi) l -> Forall (fun q => clear_of q lo' hi) l).
  { intros lo lo' hi l Hlo H. eapply Forall_impl; [exact H|]. unfold clear_of. intros q Hq. lia. }
  split; [done|by eapply Hw..|]. intros i j q r Hij Hi Hj. apply (H5 (S i) (S j)); [lia|done|done].
Qed.

Section Ints.
Variable strtod : bytes -> Z * Z * Z.
Variables (size src : Z) (fl : nat).
Hypothesis Hsize : size < 4294967296.
Hypothesis Hfl : (20 < fl)%nat.

Lemma scan_ints_loop xs : forall fuel f s ps src_hi fmt_hi va_hi,
  (length xs < fuel)%nat -> length ps = length xs -> Forall (fun x => LLONG_MIN <= x <= LLONG_MAX) xs ->
  memory_size (sc_exec s) = size -> reads (sc_exec s) f (int_format xs ++ [0]) ->
  in_reads (Src_guest src) (sc_exec s) (sc_in s) (int_texts xs ++ [0]) -> ptrs_at (sc_exec s) (sc_va s) ps ->
  0 <= sc_va s -> sc_va s mod 4 = 0 ->
  src + sc_in s + blen (int_texts xs ++ [0]) <= src_hi -> f + blen (int_format xs ++ [0]) <= fmt_hi ->
  sc_va s + 4 * Z.of_nat (length ps) <= va_hi -> slots_ok size (src + sc_in s) src_hi f fmt_hi (sc_va s) va_hi ps ->
  exists s', scan_loop strtod fuel fl (Src_guest src) f s = Some (s', false) /\
    sc_matches s' = sc_matches s + Z.of_nat (length xs) /\
    (forall i x p, xs !! i = Some x -> ps !! i = Some p -> ld32 (mem (sc_exec s')) p = u32 x) /\
    (forall q, Forall (fun p => p + 4 <= q \/ q + 4 <= p) ps -> ld32 (mem (sc_exec s')) q = ld32 (mem (sc_exec s)) q).
Proof using Hsize Hfl.
  induction xs as [|x xs IH]; intros [|fuel] f s ps src_hi fmt_hi va_hi Hf Hl Hx Hs Hfmt Hin Hp Hva0 Hva Hsh Hfh Hvh Hok; cbn [length] in Hf, Hl; try lia.
  - cbn [scan_loop]. rewrite (reads_head _ _ _ _ Hfmt). cbn [mbind option_bind Z.eqb]. exists s. split_and!; [done|cbn; lia|done|done].
  - destruct ps as [|p ps]; [done|]. apply Forall_cons in Hx as [Hx Hxs]. cbn [int_format flat_map app] in Hfmt.
    destruct (Forall_inv (sl_in _ _ _ _ _ _ _ _ Hok)) as [Hp0 Hp1]. pose proof (Forall_inv (sl_src _ _ _ _ _ _ _ _ Hok)) as Hcs.
    pose proof (Forall_inv (sl_fmt _ _ _ _ _ _ _ _ Hok)) as Hcf. pose proof (Forall_inv (sl_va _ _ _ _ _ _ _ _ Hok)) as Hcv.
    assert (Htext : int_texts (x :: xs) ++ [0] = [32] ++ decimal x ++ int_texts xs ++ [0]) by (cbn; by rewrite <-app_assoc).
    rewrite Htext in Hin, Hsh. rewrite !blen_app in Hsh. change (blen [32]) with 1 in Hsh.
    pose proof (blen_nonneg (decimal x)) as Hb1. pose proof (blen_nonneg (int_texts xs)) as Hb2.
    assert (Hy : exists y t, int_texts xs ++ [0] = y :: t /\ is_digit y = false) by (destruct xs; by eexists _, _).
    destruct Hy as (y & t & Ey & Hy). set (c := sc_exec s) in *.
    cbn [scan_loop]. fold c. rewrite (reads_head _ _ _ _ Hfmt). cbn [mbind option_bind Z.eqb isspace negb andb orb].
    change (isspace 37) with false. change (negb (37 =? 37)) with false. cbv iota.
    apply reads_tail in Hfmt. rewrite (read_spec_d fl c (f + 1) _ Hfmt). cbn [mbind option_bind]. apply reads_tail in Hfmt.
    unfold scan_one. change (is_numeric (ss_conv int_spec)) with true. change (ss_conv int_spec =? 37) with false.
    change (ss_conv int_spec =? 110) with false. cbv iota.
    assert (Hva' : va_p c (sc_va s) = (p, sc_va s + 4)) by (apply (va_p_head c _ p ps); [by rewrite Hs|done..]).
    assert (Hin' : in_reads (Src_guest src) c (sc_in s) ([32] ++ decimal x ++ y :: t)) by (by rewrite <-Ey).
    assert (Hblank : Forall (fun ch => isspace ch = true) [32]) by (by apply Forall_singleton).
    rewrite (scan_number_int fl (Src_guest src) c s [32] x y t p (sc_va s + 4) eq_refl Hin' Hblank Hy Hx Hva' Hp0)
      by (cbn [length]; lia).
    cbn [mbind option_bind]. set (c' := set_mem (st32 (mem c) p x) c). change (blen [32]) with 1.
    set (s1 := ScanState c' (sc_in s + 1 + blen (decimal x)) (sc_va s + 4) (sc_matches s + 1)).
    assert (Hfb : blen (int_format (x :: xs) ++ [0]) = 2 + blen (int_format xs ++ [0])) by (change (int_format (x :: xs) ++ [0]) with ([37; 100] ++ int_format xs ++ [0]); by rewrite blen_app).
    change (negb (37 =? 37)%positive) with false. cbv iota.
    cbn [length] in Hf, Hl, Hvh.
    destruct (IH fuel (f + 1 + 1) s1 ps src_hi fmt_hi va_hi) as (s' & H1 & H2 & H3 & H4); try done; try lia.
    + apply reads_store; [done|]. unfold clear_of in *. lia.
    + unfold s1. cbn [sc_exec sc_in]. apply in_reads_store.
      * apply in_reads_app in Hin. apply in_reads_app in Hin. exact Hin.
      * rewrite blen_app. change (blen [0]) with 1. change (blen [0]) with 1 in Hsh. unfold clear_of in *. lia.
    + apply ptrs_store; [by eapply ptrs_tail|]. cbn [sc_va s1 length] in *. unfold clear_of in *. lia.
    + cbn [sc_va s1]. lia.
    + cbn [sc_va s1]. mlia.
    + cbn [sc_in s1]. rewrite blen_app. change (blen [0]) with 1 in *. lia.
    + cbn [sc_va s1 length] in *. lia.
    + eapply slots_tail; [exact Hok|cbn [sc_in s1]; lia|lia|cbn [sc_va s1]; lia].
    + exists s'. rewrite H1. split_and!; [done|cbn [s1 sc_matches length] in *; lia| |].
      * intros [|i] z q Hz Hq; [|by eapply H3]. injection Hz as <-. injection Hq as <-. rewrite H4.
        -- cbn [s1 sc_exec c' mem set_mem]. apply ld32_st32.
        -- apply Forall_lookup. intros i q Hq. pose proof (sl_disjoint _ _ _ _ _ _ _ _ Hok 0 (S i) p q ltac:(lia) eq_refl Hq). lia.
      * intros q Hq. apply Forall_cons in Hq as [Hq Hqs]. rewrite H4 by done. cbn [s1 sc_exec c' mem set_mem]. apply ld32_st32_ne. lia.
Qed.
End Ints.

(** ** The theorem *)

Lemma str_at_reads c p s : str_at (mem c) p s -> 0 <= p -> p + blen s < memory_size c -> reads c p (s ++ [0]).
Proof.
  intros [H _] Hp Hs i ch Hi. apply lookup_lt_Some in Hi as Hl. rewrite length_app in Hl. cbn [length] in Hl. unfold blen in *.
  rewrite <-H in Hi. unfold read_bytes in Hi. rewrite list_lookup_fmap, lookup_seqZ_lt in Hi by lia. cbn in Hi. injection Hi as <-.
  unfold rd. destruct (Z.leb_spec 0 (p + Z.of_nat i)); [|lia]. destruct (Z.ltb_spec (p + Z.of_nat i) (memory_size c)); [done|lia].
Qed.

Lemma wstr_check_at c p s : str_at (mem c) p s -> 0 < p -> p + blen s < memory_size c -> wstr_check c p = Some s.
Proof.
  intros H Hp Hs. pose proof (blen_nonneg s). unfold wstr_check.
  rewrite (proj2 (Z.eqb_neq p 0)), (proj2 (Z.leb_gt (memory_size c) p)) by lia. by apply str_at_cstr.
Qed.

(** C32: Sscanf with one %d for each of them reads back the decimal prints of a
    list of ints, a blank in front of each: it returns their number and stores
    each through its pointer, when the pointers are slots of their own, away
    from the input, the format and the packed arguments. *)
Theorem sscanf_ints_roundtrip strtod c src fmt va xs ps :
  65536 <= memory_size c < 4294967296 -> Forall (fun x => -2147483648 <= x < 2147483648) xs -> length ps = length xs ->
  str_at (mem c) src (int_texts xs) -> 0 < src -> src + blen (int_texts xs) < memory_size c ->
  str_at (mem c) fmt (int_format xs) -> 0 < fmt -> fmt + blen (int_format xs) < memory_size c ->
  ptrs_at c va ps -> 0 <= va -> va mod 4 = 0 ->
  slots_ok (memory_size c) src (src + blen (int_texts xs) + 1) fmt (fmt + blen (int_format xs) + 1) va (va + 4 * Z.of_nat (length ps)) ps ->
  exists c', yos_sscanf strtod c src fmt va = Some (Z.of_nat (length xs), c') /\
    forall i x p, xs !! i = Some x -> ps !! i = Some p -> s32 (ld32 (mem c') p) = x.
Proof.
  intros Hm Hx Hl Hs Hs0 Hs1 Hf Hf0 Hf1 Hp Hva0 Hva Hok. pose proof (blen_nonneg (int_texts xs)). pose proof (blen_nonneg (int_format xs)).
  unfold yos_sscanf. rewrite (wstr_check_at c src _ Hs), (wstr_check_at c fmt _ Hf) by done. unfold do_scan.
  assert (Hblen : blen (int_format xs) = 2 * Z.of_nat (length xs)).
  { clear. induction xs as [|x xs IH]; [done|]. change (int_format (x :: xs)) with ([37; 100] ++ int_format xs). rewrite blen_app, IH.
    change (blen [37; 100]) with 2. cbn [length]. lia. }
  assert (Hfl : (20 < scan_fuel (Src_guest src) c)%nat /\ (length xs < scan_fuel (Src_guest src) c)%nat) by (unfold scan_fuel; lia).
  destruct Hfl as [Hfl1 Hfl2]. set (fl := scan_fuel (Src_guest src) c) in *. clearbody fl.
  destruct (scan_ints_loop strtod (memory_size c) src fl ltac:(lia) Hfl1 xs fl fmt (ScanState c 0 va 0) ps
    (src + blen (int_texts xs) + 1) (fmt + blen (int_format xs) + 1) (va + 4 * Z.of_nat (length ps))) as (s' & H1 & H2 & H3 & _); try done.
  - eapply Forall_impl; [exact Hx|]. intros x Hr. cbn beta in Hr. unfold LLONG_MIN, LLONG_MAX. lia.
  - by apply str_at_reads; [|lia|].
  - intros k ch Hk. cbn [rd_in sc_exec sc_in]. rewrite Z.add_0_l. by apply (str_at_reads c src (int_texts xs)); [|lia| |].
  - cbn [sc_in]. rewrite blen_app. change (blen [0]) with 1. lia.
  - rewrite blen_app. change (blen [0]) with 1. lia.
  - cbn [sc_in sc_va]. by rewrite Z.add_0_r.
  - cbn [sc_matches] in H2. exists (sc_exec s'). rewrite H1. cbn [mbind option_bind]. rewrite andb_false_r, H2. split; [do 2 f_equal; lia|].
    intros i x p Hi Hpi. rewrite (H3 i x p Hi Hpi). rewrite Forall_lookup in Hx. specialize (Hx i x Hi).
    rewrite <-(s32_in x Hx) at 2. unfold s32. unfold u32. by rewrite Z.mod_mod.
Qed.

(** The conversion %i does not read hexadecimal: of "0x1f" it stores 0, and
    the scan goes on at the x; and the letters it takes for digits are consumed
    though they are no part of the number: of "12ab" it stores 12 and leaves
    nothing for a following %s. *)
Theorem scan_i_misreads strtod :
  let c := ExecCtx (st32 (write_bytes (write_bytes (fun _ => 0) 1024 (lit "%i"%string)) 1040 (lit "%i%s"%string)) 2048 3000) 65536 4096 0 [] [] 0 0 0 264 in
  (exists s, scan_loop strtod 100 100 (Src_host (lit "0x1f"%string)) 1024 (ScanState c 0 2048 0) = Some (s, false) /\
     ld32 (mem (sc_exec s)) 3000 = 0 /\ sc_in s = 1) /\
  (exists s, scan_loop strtod 100 100 (Src_host (lit "12ab"%string)) 1040 (ScanState c 0 2048 0) = Some (s, false) /\
     ld32 (mem (sc_exec s)) 3000 = 12 /\ sc_matches s = 1 /\ sc_in s = 4).
Proof.
  cbn zeta. split; eexists; (split; [vm_compute; reflexivity|]); vm_compute; repeat split.
Qed.

(** * Witnesses *)

(** " -7 2147483647" at 1024, its format at 1056, and two slots. *)
Definition ints_mem : memory :=
  st32 (st32 (write_bytes (write_bytes (fun _ => 0) 1024 (int_texts [-7; 2147483647])) 1056 (int_format [-7; 2147483647])) 2048 3000) 2052 3004.
Definition ints_ctx : exec_ctx := ExecCtx ints_mem 65536 4096 0 [] [] 0 0 0 264.

Lemma ints_slots : slots_ok 65536 1024 1039 1056 1061 2048 2056 [3000; 3004].
Proof.
  split; [repeat constructor; lia|repeat constructor; unfold clear_of; lia..|].
  intros [|[|i]] [|[|j]] p q Hij Hi Hj; cbn in Hi, Hj; simplify_eq; try lia; done.
Qed.

Lemma ints_text : str_at ints_mem 1024 (int_texts [-7; 2147483647]) /\ str_at ints_mem 1056 (int_format [-7; 2147483647]).
Proof. split; (split; [vm_compute; reflexivity|by repeat constructor]). Qed.

Lemma sscanf_ints_roundtrip_witness :
  exists c', yos_sscanf (fun _ => (0, 0, 0)) ints_ctx 1024 1056 2048 = Some (2, c') /\
    s32 (ld32 (mem c') 3000) = -7 /\ s32 (ld32 (mem c') 3004) = 2147483647.
Proof.
  destruct (sscanf_ints_roundtrip (fun _ => (0, 0, 0)) ints_ctx 1024 1056 2048 [-7; 2147483647] [3000; 3004]) as (c' & H1 & H2).
  - cbn. lia.
  - repeat constructor; lia.
  - reflexivity.
  - exact (proj1 ints_text).
  - lia.
  - vm_compute. reflexivity.
  - exact (proj2 ints_text).
  - lia.
  - vm_compute. reflexivity.
  - intros [|[|i]] p Hp; cbn in Hp; simplify_eq; [split; vm_compute; [reflexivity|discriminate]..|done].
  - lia.
  - reflexivity.
  - exact ints_slots.
  - exists c'. split; [exact H1|]. split; [exact (H2 0%nat (-7) 3000 eq_refl eq_refl)|exact (H2 1%nat 2147483647 3004 eq_refl eq_refl)].
Defined.

Lemma sscanf_writes_inside_witness :
  exists r c', yos_sscanf (fun _ => (0, 0, 0)) ints_ctx 1024 1056 2048 = Some (r, c') /\ ld8 (mem c') 65536 = 0.
Proof.
  destruct (yos_sscanf (fun _ => (0, 0, 0)) ints_ctx 1024 1056 2048) as [[r c']|] eqn:E; [|vm_compute in E; discriminate E].
  exists r, c'. split; [reflexivity|]. destruct (sscanf_writes_inside (fun _ => (0, 0, 0)) ints_ctx 1024 1056 2048 r c' E) as [H _].
  rewrite H; [vm_compute; reflexivity|right; cbn; lia].
Defined.
